(* ===== verification/_CoqProject ===== *)
-Q . S2P
Prelude.v
Bitmap.v
CList.v
Disk.v
Sysdep.v
SectorStore.v
SynchDisk.v
FileHdr.v
OpenFile.v
Directory.v
FileSys.v
FileTree.v
Dump.v
Commands.v
Mips.v
TLB.v
Machine.v
VM.v
VMInv.v
Spaces.v
UserMode.v
Debugger.v
VMSamples.v
UserPrograms.v
Shell.v
Coff2Noff.v
ByteOrder.v
Interrupt.v
Switch.v
Threads.v
ThreadCore.v
ThreadSim.v
ThreadSafety.v
ThreadTable.v
ThreadTest.v
SynchTest.v
Hash.v
Stacks.v
LibTest.v
Device.v
Console.v
Network.v
NetTest.v
