(* ===== verification/Prelude.v ===== *)
(** A verification of the Nachos 4.1 operating system of src/code/

    Nachos is a kernel and the machine it runs on, simulated in one UNIX process.  The machine
    has a MIPS processor with a translation buffer, a disk, a keyboard and a display, a network
    interface, and a clock with interrupts.  On it run the kernel's threads, semaphores and
    locks, virtual memory, the file system and the post office.  The definitions here are translations
    of the C++ code and keep its names; the theorems say what makes the code correct, and
    where it is not.

    * How the code is modelled

    The root file (this one) has the control model.  A call is a value of [res]: it returns
    ([Ok]), stops at a failed ASSERT, leaves defined behaviour ([Undefined]: an index out of
    range, a null or dangling pointer, a signed overflow the code does not expect), runs out
    of fuel, or ends the simulator ([Exited]).  [M S A] is a call on an explicit state [S].
    An [int] is a [Z] with [i32] and [u32] written where the code wraps; division and
    remainder are C's ([/c], [%c]); arrays are lists reached by [aget] and [aset]; a C file's
    bytes are a list of [Z].  Objects that are shared through pointers (list cells, page
    tables, address spaces, threads, semaphores) live in stores by address, 0 or [None] being
    NULL.

    * The files and the code they model (below src/code/, but for the last tool)

    Library
    - Bitmap.v       lib/bitmap.cc: the array of words; a finite set of indices
    - CList.v        lib/list.cc: List and SortedList down to their cells; sequences
    - Hash.v         lib/hash.cc: the hash table and its iterator; a finite map
    - LibTest.v      lib/libtest.cc, the self tests of lib/, the list's iterator
    - Sysdep.v       lib/sysdep.cc: the calls of UNIX; the UNIX file of the disk
    File system
    - Disk.v         machine/disk.cc: the disk and its latency
    - SectorStore.v  the interface between the disk and the file system (a class)
    - SynchDisk.v    filesys/synchdisk.cc: the disk with its cache, an instance of the class
    - FileHdr.v      filesys/filehdr.cc: the i-node, direct and indirect sectors
    - OpenFile.v     filesys/openfile.cc, pbitmap.cc: reading and writing a file
    - Directory.v    filesys/directory.cc: one directory, and paths through the tree of them
    - FileSys.v      filesys/filesys.cc: format, Create, Open, Remove, the pipe
    - FileTree.v     what it all promises: a tree of directories and files
    - Dump.v         the listing and the dump of the file system
    - Commands.v     threads/main.cc, Kernel::Kernel: the command line, Copy and Print
    Processor and memory
    - Mips.v         machine/mipssim.cc: every instruction
    - TLB.v          machine/TLBManager.cc: the translation buffer
    - Machine.v      machine/machine.cc, translate.cc: registers, memory, Translate, exceptions
    - VM.v           vm/ and userprog/addrspace.cc, exception.cc: address spaces, page faults
    - VMInv.v, Spaces.v, UserMode.v, VMSamples.v: its invariant, the life of an address space,
                     the machine and the kernel's handler together, concrete runs
    - Debugger.v     Machine::Debugger and what it reads
    - Coff2Noff.v    src/coff2noff/coff2noff.c: the tool that makes executables for Nachos
    - ByteOrder.v    machine/translate.cc, SwapHeader: hosts of the other byte order
    - UserPrograms.v test/: the programs that run on Nachos
    - Shell.v        shell/, test/shell.c: the two shells and the stand-in for system calls
    Interrupts, threads, devices
    - Interrupt.v    machine/interrupt.cc, stats.h, timer.cc, threads/alarm.cc
    - Threads.v      threads/thread.cc, scheduler.cc, ThreadManager.cc, synch.cc, synchlist.cc
    - ThreadCore.v, ThreadSim.v: a transition system of what scheduling depends on, and the
                     proof that every step of Threads.v is a sequence of its steps
    - ThreadSafety.v, ThreadTable.v: the properties of threads, in every reachable state
    - Switch.v       threads/switch.s, Thread::StackAllocate: the context switch on the 386
    - ThreadTest.v, SynchTest.v: Kernel::ThreadSelfTest with its exercises, the self tests of
                     semaphores and synchronized lists
    - Device.v       waiting for a device's interrupt
    - Console.v      machine/console.cc, userprog/synchconsole.cc, Kernel::ConsoleTest
    - Network.v      machine/network.cc, network/post.cc
    - NetTest.v      Kernel::NetworkTest on two machines
    Tutorial
    - Stacks.v       src/c++example: a class of stacks and its two implementations

    * How the parts meet

    FileHdr.v to FileSys.v are proved against the class [SectorStore] alone; SynchDisk.v
    proves that the cached disk is one.  The instructions of Mips.v run against the class
    [Cpu], whose instance is Machine.v; Machine.v states what it needs of a kernel's exception
    handler (a contract on the handler, not on its code), and UserMode.v proves that the
    handler of VM.v meets it, so that the safety of a single instruction holds of whole runs
    of Machine::Run under this kernel.  VM.v reaches executables through the class [ExeFiles],
    which states what OpenFile.v proves of files.  FileTree.v puts the file system together:
    an abstract state ([fstree]) with what each request does to it, a predicate ([fs_stored])
    that says when a disk and a FileSystem object stand for a tree, and a lemma per request
    that the code keeps it; Dump.v and Commands.v build on that predicate alone.  Coff2Noff.v
    meets VM.v at the executable file: what the converter writes is what the page fault handler
    reads.  Interrupt.v is parametrized by what the
    CallBack of each device does and by the rest of the kernel; Threads.v, Console.v and
    Network.v put their state there.  The bitmap's theorems serve the free map of the file
    system, the frames of memory and the process identifiers of threads.  Two files go below
    what the others take for granted: Switch.v gives the threads of Threads.v their host stacks
    and saved registers, and proves that a thread that SWITCH comes back to goes on where it
    was; Sysdep.v gives the disk of Disk.v its UNIX file, and proves that the file is the map
    of sectors that Disk.v has.  The test programs of the kernel (LibTest.v, ThreadTest.v,
    SynchTest.v, NetTest.v) run on the definitions of the parts that they test.

    * What the theorems show

    - Refinement: bitmap, list and hash table answer every sequence of calls as a set, a
      sequence, a map; the sorted list is a stable priority queue; the cached disk is a disk;
      the translation buffer answers as a map that forgets; a directory is a bounded finite
      map and Find is a walk of the tree; failed ASSERTs and null dereferences are part of the
      answers.
    - The file system as a whole: after formatting, every sequence of requests by path, with
      restarts in between, answers as on an abstract tree, full disks and refused requests
      included (FileTree.v); a command line does to the disk what its commands do to the tree,
      Print shows exactly the bytes of the file, and the dump ends and shows exactly the names
      that can be reached (Commands.v, Dump.v).  The tree promises nothing where the code
      leaves it: a type that Create does not know, a new directory on a disk with fewer than
      three free sectors, a directory opened as a file, removing a file whose indirect sector
      is partly filled (which frees sector 0).
    - Whole-system safety: no program, whatever its bytes, makes the simulated machine or the
      kernel's handler index out of range or break the agreement of frames, page tables and
      bitmap, INT_MIN / -1 excepted (UserMode.v); one instruction is safe for any memory and
      any handler (Mips.v, Machine.v).
    - The host: any forks, switches and runs of threads on the one processor are what they would
      be with a processor per thread (Switch.v); the disk on its UNIX file, through restarts,
      is the disk (Sysdep.v); memory and executables do not show the byte order of the host
      (ByteOrder.v).
    - Threads: in every reachable state each READY thread is once in the ready list, each
      BLOCKED one once in one queue; no wakeup is lost; locks exclude; process identifiers are
      distinct; the scheduler takes the best priority and starves nobody of equal priority.
    - Files: what WriteAt, ReadAt, Allocate and Deallocate do on every branch, errors
      included; formatting establishes the layout that the other operations keep.
    - Executables: the converter's output holds the sections where its header says, its errors
      are exactly those listed, and a converted program is loaded to its addresses when its
      sections are contiguous from 0.
    - The two readers of the command line agree on options whose values do not look like flags.
    - Time: CheckIfDue terminates and calls exactly the interrupts that are due; Idle delivers
      every pending interrupt in bounded time; a disk request completes within a bound.
    - Programs: the shells run exactly the lines that are typed (Shell.v); sort.c sorts
      (UserPrograms.v); the self tests of the library pass exactly for distinct entries
      (LibTest.v), those of semaphores and synchronized lists stop the kernel at their end
      (SynchTest.v).
    - Input and output: the console shows what was typed; mail arrives unchanged and in order.

    * Fuel and bounds

    Walks along a linked list have one more step than there are allocated cells, and the
    refinement theorem excludes [OutOfFuel].  WriteAt extends a file through the free map,
    which is itself written by WriteAt: two levels are enough when the free map's file has its
    sectors, which formatting establishes.  A path walk has as much fuel as the path has
    characters, and one more; FindNextFullBucket as many steps as there are buckets, and one
    more; the loop of CheckIfDue and ConsoleTest as many as there are interrupts and polls;
    Print 57 turns, one more than a file has sectors; the debugger as many commands as there
    are characters, and two more; the dump 1024 levels, since no way down
    the tree is longer than the disk has sectors.
    Each theorem says that this much is enough.  The clock is an [int]: theorems about time
    assume it below 2^30.

    * What is not modelled

    Debug output and the text of messages: what is printed is a list of items.  UNIX itself is
    a parameter (Sysdep.v, Shell.v) or, for the components that only pass data to it, an input
    and an output: random numbers, signals, sleeping.  The context switch is modelled for the
    386, the processor of the Linux build; the assembly for six other processors, and what
    start.s does in a user program, are not.  Destructors that only free memory, Cleanup, the
    self tests that only print (of the file system's classes) and the stub file system of the
    default build (a wrapper of UNIX files) are left out; the constructor of each object is
    in its component, and of Initialize the order in which it makes them is followed where
    threads are concerned (ThreadTest.v).  The kernel of this commit serves the system calls
    Halt and Add only, so the user programs are modelled as C programs, with what they ask of
    the kernel as a parameter, and not as runs of their instructions.  A call on the
    disk, the console or the network is one critical section under the lock that it holds,
    whose exclusion is the theorem on locks of ThreadSafety.v; interleavings inside such a
    section are not explored.  The calls of pthreads in shell/nachos_syscall.c, the third-party
    unit test framework (lib/tut.h), with which no test is registered, and the vendored tool
    chain under usr/ are outside.

    * The rest of this file: outcomes, state, arrays, loops, machine words, bytes, and the
      lemmas and tactics that every component shares *)

From Stdlib Require Export ZArith Lia.
From stdpp Require Export base tactics numbers list option.

#[global] Open Scope Z_scope.

(** * Outcomes of C++ code

    A call returns ([Ok]), stops the simulator through a failed [ASSERT]
    (src/code/lib/debug.h), or leaves defined behaviour: an array index out of
    range, a null dereference, a use of memory that is not there.  A loop that is
    not structurally bounded takes fuel and reports when it runs out.  The simulator
    itself can end ([Exited]): Interrupt::Halt deletes the kernel and leaves. *)

Inductive res (A : Type) : Type :=
| Ok (a : A)
| AssertFail
| Undefined
| OutOfFuel
| Exited.
Arguments Ok {A} a.
Arguments AssertFail {A}.
Arguments Undefined {A}.
Arguments OutOfFuel {A}.
Arguments Exited {A}.

#[global] Instance res_ret : MRet res := fun A a => Ok a.
#[global] Instance res_bind : MBind res := fun A B f m =>
  match m with
  | Ok a => f a
  | AssertFail => AssertFail
  | Undefined => Undefined
  | OutOfFuel => OutOfFuel
  | Exited => Exited
  end.

(** [ASSERT(condition)] *)
Definition ASSERT (b : bool) : res unit := if b then Ok tt else AssertFail.

(** A null or missing object that the code dereferences. *)
Definition deref {A} (o : option A) : res A :=
  match o with Some a => Ok a | None => Undefined end.

Definition is_ok {A} (r : res A) : Prop := exists a, r = Ok a.

Definition res_is_okb {A} (r : res A) : bool :=
  match r with Ok _ => true | _ => false end.

(** State-passing code: a method of an object, or code that uses the kernel's globals. *)
Definition M (S A : Type) : Type := S -> res (A * S).

#[global] Instance M_ret S : MRet (M S) := fun A a s => Ok (a, s).
#[global] Instance M_bind S : MBind (M S) := fun A B f m s =>
  match m s with
  | Ok (a, s') => f a s'
  | AssertFail => AssertFail
  | Undefined => Undefined
  | OutOfFuel => OutOfFuel
  | Exited => Exited
  end.

Definition lift {S A} (r : res A) : M S A := fun s =>
  match r with
  | Ok a => Ok (a, s)
  | AssertFail => AssertFail
  | Undefined => Undefined
  | OutOfFuel => OutOfFuel
  | Exited => Exited
  end.
Definition get_state {S} : M S S := fun s => Ok (s, s).
Definition put_state {S} (s : S) : M S unit := fun _ => Ok (tt, s).

(** * C arrays *)

(** Reading and writing [a[i]]: an index out of range is undefined. *)
Definition aget {A} (l : list A) (i : Z) : res A :=
  if decide (0 <= i) then deref (l !! Z.to_nat i) else Undefined.

Definition aset {A} (l : list A) (i : Z) (x : A) : res (list A) :=
  if decide (0 <= i < Z.of_nat (length l)) then Ok (<[Z.to_nat i := x]> l) else Undefined.

(** * Bounded loops

    [for (i in is) body]: the body either carries on with the loop state ([inl]) or
    leaves the loop with a result ([inr]: a [break] or a [return]). *)
Fixpoint for_ret {S R} (ix : list Z) (body : Z -> S -> res (S + R)) (s : S) : res (S + R) :=
  match ix with
  | [] => Ok (inl s)
  | i :: ix' =>
      match body i s with
      | Ok (inl s') => for_ret ix' body s'
      | Ok (inr r) => Ok (inr r)
      | AssertFail => AssertFail
      | Undefined => Undefined
      | OutOfFuel => OutOfFuel
  | Exited => Exited
      end
  end.

Fixpoint for_each {S} (ix : list Z) (body : Z -> S -> res S) (s : S) : res S :=
  match ix with
  | [] => Ok s
  | i :: ix' => s' ← body i s; for_each ix' body s'
  end.

(** The same loop, when the body makes calls on a state. *)
Fixpoint mfor {S A} (ix : list Z) (body : Z -> A -> M S A) (a : A) : M S A :=
  match ix with
  | [] => mret a
  | i :: ix' => a' ← body i a; mfor ix' body a'
  end.

(** The indices [a, a+1, ..., b-1] of [for (i = a; i < b; i++)]. *)
Definition range (a b : Z) : list Z := seqZ a (b - a).

(** * Machine integers *)

Declare Scope cint_scope.
Delimit Scope cint_scope with cint.
Notation "a /c b" := (Z.quot a b) (at level 40, left associativity) : cint_scope.
Notation "a %c b" := (Z.rem a b) (at level 40, left associativity) : cint_scope.
#[global] Open Scope cint_scope.

(** [unsigned int] and [int], 32 bits wide, as the low 32 bits of an integer. *)
Definition u32 (z : Z) : Z := z mod 2 ^ 32.
Definition i32 (z : Z) : Z := (z + 2 ^ 31) mod 2 ^ 32 - 2 ^ 31.

Definition is_i32 (z : Z) : Prop := - 2 ^ 31 <= z < 2 ^ 31.
Definition is_u32 (z : Z) : Prop := 0 <= z < 2 ^ 32.
Definition is_byte (z : Z) : Prop := 0 <= z < 2 ^ 8.

(** divRoundDown and divRoundUp of src/code/lib/utility.h *)
Definition divRoundDown (n s : Z) : Z := n /c s.
Definition divRoundUp (n s : Z) : Z := n /c s + (if decide (n %c s > 0) then 1 else 0).

(** * Bytes in memory

    A byte is an integer in [0, 256).  The little-endian layout of an [int]. *)
Definition int_to_bytes (z : Z) : list Z :=
  let w := u32 z in
  [w mod 256; (w / 2 ^ 8) mod 256; (w / 2 ^ 16) mod 256; (w / 2 ^ 24) mod 256].

Definition word_of_bytes (b0 b1 b2 b3 : Z) : Z :=
  b0 + b1 * 2 ^ 8 + b2 * 2 ^ 16 + b3 * 2 ^ 24.

Definition ints_to_bytes (zs : list Z) : list Z := flat_map int_to_bytes zs.

Fixpoint bytes_to_words (bs : list Z) : list Z :=
  match bs with
  | b0 :: b1 :: b2 :: b3 :: bs' => word_of_bytes b0 b1 b2 b3 :: bytes_to_words bs'
  | _ => []
  end.

Definition bytes_to_ints (bs : list Z) : list Z := map i32 (bytes_to_words bs).

(** [bcopy] out of and into a buffer. *)
Definition slice {A} (off n : nat) (l : list A) : list A := take n (drop off l).
Definition splice {A} (off : nat) (new l : list A) : list A :=
  take off l ++ new ++ drop (off + length new) l.

(** * Lemmas and automation *)

Create HintDb nachos.

Lemma bind_Ok {A B} (m : res A) (f : A -> res B) (b : B) :
  (x ← m; f x) = Ok b <-> exists a, m = Ok a /\ f a = Ok b.
Proof.
  split; [destruct m; cbn; intros; try discriminate; eauto|].
  intros (a & -> & ?); done.
Qed.

Lemma ASSERT_true (b : bool) : b = true -> ASSERT b = Ok tt.
Proof. by intros ->. Qed.

Lemma ASSERT_Ok (b : bool) u : ASSERT b = Ok u -> b = true.
Proof. by destruct b. Qed.

(** One call of a sequence of calls on a state. *)
Lemma bind_lift_Ok {S A B} (a : A) (f : A -> M S B) (s : S) : (lift (Ok a) ≫= f) s = f a s.
Proof. done. Qed.

Lemma bind_ret_Ok {S A B} (a : A) (f : A -> M S B) (s : S) : (mret a ≫= f) s = f a s.
Proof. done. Qed.

Lemma bind_M_Ok {S A B} (m : M S A) (f : A -> M S B) (s s' : S) a :
  m s = Ok (a, s') -> (m ≫= f) s = f a s'.
Proof. intros E. unfold mbind, M_bind. by rewrite E. Qed.

Lemma bind_M_AssertFail {S A B} (m : M S A) (f : A -> M S B) (s : S) :
  m s = AssertFail -> (m ≫= f) s = AssertFail.
Proof. intros E. unfold mbind, M_bind. by rewrite E. Qed.
Lemma bind_M_Undefined {S A B} (m : M S A) (f : A -> M S B) (s : S) :
  m s = Undefined -> (m ≫= f) s = Undefined.
Proof. intros E. unfold mbind, M_bind. by rewrite E. Qed.

Ltac mstep :=
  first [rewrite bind_lift_Ok | rewrite bind_ret_Ok | erewrite bind_M_Ok by eassumption];
  cbv beta iota.

(** Decides a closed proposition by evaluation. *)
Ltac by_compute := apply (bool_decide_unpack _); vm_compute; exact I.

(** Splits a hypothesis that a sequence of calls returned into the calls. *)
Ltac res_inv H :=
  repeat (let a := fresh "r" in let E := fresh "E" in
          apply bind_Ok in H as (a & E & H); simpl in H).

Lemma aget_Some {A} (l : list A) i x :
  0 <= i -> l !! Z.to_nat i = Some x -> aget l i = Ok x.
Proof. intros ? E. unfold aget. rewrite decide_True by done. by rewrite E. Qed.

Lemma aget_Ok {A} (l : list A) i x :
  aget l i = Ok x <-> 0 <= i /\ l !! Z.to_nat i = Some x.
Proof.
  unfold aget, deref. split.
  - case_decide; [|done]. destruct (l !! Z.to_nat i) eqn:E; [|done]. by intros [= ->].
  - intros [? E]. rewrite decide_True by done. by rewrite E.
Qed.

Lemma aget_in {A} (l : list A) i :
  0 <= i < Z.of_nat (length l) -> exists x, l !! Z.to_nat i = Some x /\ aget l i = Ok x.
Proof.
  intros ?. destruct (lookup_lt_is_Some_2 l (Z.to_nat i)) as [x Hx]; [lia|].
  exists x. split; [done|]. apply aget_Some; [lia|done].
Qed.

Lemma aset_in {A} (l : list A) i x :
  0 <= i < Z.of_nat (length l) -> aset l i x = Ok (<[Z.to_nat i := x]> l).
Proof. intros. unfold aset. by rewrite decide_True by done. Qed.

Lemma range_nil a b : b <= a -> range a b = [].
Proof. intros. unfold range. apply seqZ_nil. lia. Qed.

Lemma range_cons a b : a < b -> range a b = a :: range (a + 1) b.
Proof.
  intros. unfold range. rewrite seqZ_cons by lia.
  unfold Z.succ. do 2 f_equal. lia.
Qed.

Lemma range_snoc a b : a <= b -> range a (b + 1) = range a b ++ [b].
Proof.
  intros. unfold range. replace (b + 1 - a) with ((b - a) + 1) by lia.
  rewrite seqZ_app by lia. f_equal.
  rewrite seqZ_cons by lia. rewrite seqZ_nil by lia. f_equal. lia.
Qed.

Lemma elem_of_range a b i : i ∈ range a b <-> a <= i < b.
Proof. unfold range. rewrite elem_of_seqZ. lia. Qed.

(** The invariant rule of a counted loop. *)
Lemma for_each_inv {S} (P : Z -> S -> Prop) (body : Z -> S -> res S) a b s :
  a <= b -> P a s ->
  (forall i s, a <= i < b -> P i s -> exists s', body i s = Ok s' /\ P (i + 1) s') ->
  exists s', for_each (range a b) body s = Ok s' /\ P b s'.
Proof.
  intros Hab. remember (Z.to_nat (b - a)) as n eqn:Hn.
  revert a s Hab Hn. induction n as [|n IH]; intros a s Hab Hn HP Hbody.
  - assert (b = a) as -> by lia. rewrite range_nil by lia. simpl. eauto.
  - rewrite range_cons by lia. simpl.
    destruct (Hbody a s) as (s' & -> & HP'); [lia|done|]. simpl.
    apply IH; [lia|lia|done|]. intros; apply Hbody; [lia|done].
Qed.

(** The invariant rule of a counted loop over a state. *)
Lemma mfor_inv {S A} (P : Z -> A -> S -> Prop) (body : Z -> A -> M S A) a b x s :
  a <= b -> P a x s ->
  (forall i x s, a <= i < b -> P i x s -> exists x' s', body i x s = Ok (x', s') /\ P (i + 1) x' s') ->
  exists x' s', mfor (range a b) body x s = Ok (x', s') /\ P b x' s'.
Proof.
  intros Hab. remember (Z.to_nat (b - a)) as n eqn:Hn.
  revert a x s Hab Hn. induction n as [|n IH]; intros a x s Hab Hn HP Hbody.
  - assert (b = a) as -> by lia. rewrite range_nil by lia. simpl. eauto.
  - rewrite range_cons by lia. cbn [mfor].
    destruct (Hbody a x s) as (x' & s' & E & HP'); [lia|done|].
    destruct (IH (a + 1) x' s') as (x2 & s2 & E2 & HP2); [lia|lia|done| |].
    { intros; apply Hbody; [lia|done]. }
    exists x2, s2. split; [|done]. unfold mbind, M_bind. by rewrite E.
Qed.

(** A counted loop that may be left early. *)
Lemma for_ret_inv {S R} (P : Z -> S -> Prop) (Q : R -> Prop)
    (body : Z -> S -> res (S + R)) a b s :
  a <= b -> P a s ->
  (forall i s, a <= i < b -> P i s ->
     (exists s', body i s = Ok (inl s') /\ P (i + 1) s') \/
     (exists r, body i s = Ok (inr r) /\ Q r)) ->
  (exists s', for_ret (range a b) body s = Ok (inl s') /\ P b s') \/
  (exists r, for_ret (range a b) body s = Ok (inr r) /\ Q r).
Proof.
  intros Hab. remember (Z.to_nat (b - a)) as n eqn:Hn.
  revert a s Hab Hn. induction n as [|n IH]; intros a s Hab Hn HP Hbody.
  - assert (b = a) as -> by lia. rewrite range_nil by lia. simpl. eauto.
  - rewrite range_cons by lia. simpl.
    destruct (Hbody a s) as [(s' & -> & HP')|(r & -> & HQ)]; [lia|done| |by eauto].
    apply IH; [lia|lia|done|]. intros; apply Hbody; [lia|done].
Qed.

Lemma for_each_app {S} (l1 l2 : list Z) (body : Z -> S -> res S) s :
  for_each (l1 ++ l2) body s = (s' ← for_each l1 body s; for_each l2 body s').
Proof.
  revert s. induction l1 as [|i l1 IH]; intros s; [done|]. simpl.
  destruct (body i s); simpl; done.
Qed.

Lemma range_split a b c : a <= b <= c -> range a c = range a b ++ range b c.
Proof.
  intros. unfold range. replace (c - a) with ((b - a) + (c - b)) by lia.
  rewrite seqZ_app by lia. do 2 f_equal. lia.
Qed.

(** A counted loop whose body fails at the index [k]. *)
Lemma for_each_fails {S} (P : Z -> S -> Prop) (body : Z -> S -> res S) a k b s :
  a <= k < b -> P a s ->
  (forall i s, a <= i < k -> P i s -> exists s', body i s = Ok s' /\ P (i + 1) s') ->
  (forall s, P k s -> body k s = AssertFail) ->
  for_each (range a b) body s = AssertFail.
Proof.
  intros Hk HP Hbody Hfail. rewrite (range_split a k b) by lia. rewrite for_each_app.
  destruct (for_each_inv P body a k s) as (s' & -> & HP'); [lia|done|done|]. simpl.
  rewrite range_cons by lia. simpl. by rewrite Hfail.
Qed.

Lemma u32_range z : is_u32 (u32 z).
Proof. unfold is_u32, u32. apply Z.mod_pos_bound. lia. Qed.
Lemma i32_range z : is_i32 (i32 z).
Proof. unfold is_i32, i32. pose proof (Z.mod_pos_bound (z + 2 ^ 31) (2 ^ 32)). lia. Qed.
Lemma u32_id z : is_u32 z -> u32 z = z.
Proof. intros. unfold u32. apply Z.mod_small. done. Qed.
Lemma i32_id z : is_i32 z -> i32 z = z.
Proof. unfold is_i32. intros. unfold i32. rewrite Z.mod_small by lia. lia. Qed.
Lemma u32_i32 z : u32 (i32 z) = u32 z.
Proof.
  unfold u32, i32. rewrite Zminus_mod_idemp_l. f_equal. lia.
Qed.
Lemma i32_u32 z : i32 (u32 z) = i32 z.
Proof. unfold u32, i32. rewrite Zplus_mod_idemp_l. done. Qed.
#[export] Hint Resolve u32_range i32_range : nachos.

Lemma u32_land z : u32 z = Z.land z (Z.ones 32).
Proof. unfold u32. by rewrite Z.land_ones by lia. Qed.

Lemma divRoundUp_spec n s : 0 <= n -> 0 < s -> divRoundUp n s = (n + s - 1) / s.
Proof.
  intros Hn Hs. unfold divRoundUp. rewrite Z.quot_div_nonneg, Z.rem_mod_nonneg by lia.
  pose proof (Z.div_mod n s ltac:(lia)). pose proof (Z.mod_pos_bound n s Hs).
  case_decide.
  - replace (n + s - 1) with ((n mod s - 1) + (n / s + 1) * s) by lia.
    rewrite Z.div_add, (Z.div_small (_ - 1)) by lia. lia.
  - replace (n + s - 1) with ((s - 1) + (n / s) * s) by lia.
    rewrite Z.div_add, (Z.div_small (s - 1)) by lia. lia.
Qed.

Lemma int_to_bytes_length z : length (int_to_bytes z) = 4%nat.
Proof. done. Qed.

Lemma word_of_int_to_bytes z :
  word_of_bytes (u32 z mod 256) ((u32 z / 2 ^ 8) mod 256)
    ((u32 z / 2 ^ 16) mod 256) ((u32 z / 2 ^ 24) mod 256) = u32 z.
Proof.
  unfold word_of_bytes. pose proof (u32_range z) as H. unfold is_u32 in H.
  set (w := u32 z) in *. clearbody w.
  change (2 ^ 8) with 256 in *. change (2 ^ 24) with (256 * (256 * 256)).
  change (2 ^ 16) with (256 * 256). rewrite <- !Z.div_div by lia.
  pose proof (Z.div_mod w 256). pose proof (Z.div_mod (w / 256) 256).
  pose proof (Z.div_mod (w / 256 / 256) 256).
  rewrite (Z.mod_small (w / 256 / 256 / 256)); [lia|].
  rewrite !Z.div_div by lia. split; [apply Z.div_pos; lia|].
  apply Z.div_lt_upper_bound; lia.
Qed.

Lemma int_to_bytes_byte z : Forall is_byte (int_to_bytes z).
Proof. unfold int_to_bytes, is_byte. repeat constructor; apply Z.mod_pos_bound; lia. Qed.

Lemma ints_to_bytes_length zs : length (ints_to_bytes zs) = (4 * length zs)%nat.
Proof. induction zs as [|z zs IH]; [done|]. simpl in *. lia. Qed.

Lemma ints_to_bytes_byte zs : Forall is_byte (ints_to_bytes zs).
Proof.
  induction zs as [|z zs IH]; [constructor|]. 
  change (ints_to_bytes (z :: zs)) with (int_to_bytes z ++ ints_to_bytes zs).
  apply Forall_app_2; [apply int_to_bytes_byte|done].
Qed.

Lemma bytes_to_words_ints zs : bytes_to_words (ints_to_bytes zs) = map u32 zs.
Proof.
  induction zs as [|z zs IH]; [done|].
  cbn [ints_to_bytes flat_map int_to_bytes app bytes_to_words map].
  f_equal; [apply word_of_int_to_bytes|done].
Qed.

(** The byte layout of an [int] array is read back as it was written. *)
Lemma bytes_to_ints_to_bytes zs : Forall is_i32 zs -> bytes_to_ints (ints_to_bytes zs) = zs.
Proof.
  intros H. unfold bytes_to_ints. rewrite bytes_to_words_ints.
  induction H as [|z zs Hz _ IH]; [done|]. simpl. f_equal; [|done].
  rewrite i32_u32. by apply i32_id.
Qed.

Lemma slice_length {A} off n (l : list A) :
  length (slice off n l) = (n `min` (length l - off))%nat.
Proof. unfold slice. rewrite length_take, length_drop. done. Qed.

Lemma splice_length {A} off (new l : list A) :
  (off + length new <= length l)%nat -> length (splice off new l) = length l.
Proof.
  intros. unfold splice. rewrite !length_app, length_take, length_drop. lia.
Qed.

Lemma lookup_slice {A} off n (l : list A) i :
  (i < n)%nat -> slice off n l !! i = l !! (off + i)%nat.
Proof. intros. unfold slice. rewrite lookup_take_lt by done. apply lookup_drop. Qed.

Lemma lookup_splice_in {A} off (new l : list A) i :
  (off <= i < off + length new)%nat -> (off <= length l)%nat ->
  splice off new l !! i = new !! (i - off)%nat.
Proof.
  intros. unfold splice.
  rewrite lookup_app_r by (rewrite length_take; lia).
  rewrite length_take, Nat.min_l by lia. rewrite lookup_app_l by lia. done.
Qed.

Lemma lookup_splice_out {A} off (new l : list A) i :
  (off + length new <= length l)%nat -> (i < off \/ off + length new <= i)%nat ->
  splice off new l !! i = l !! i.
Proof.
  intros ? [?|?]; unfold splice.
  - rewrite lookup_app_l by (rewrite length_take; lia). by rewrite lookup_take_lt by lia.
  - rewrite lookup_app_r by (rewrite length_take; lia).
    rewrite length_take, Nat.min_l by lia. rewrite lookup_app_r by lia.
    rewrite lookup_drop. f_equal. lia.
Qed.

(** Prefixes of a list, one element at a time. *)
Lemma lookup_snoc_default (l : list Z) x (i : nat) :
  default 0 ((l ++ [x]) !! i) = if decide (i = length l) then x else default 0 (l !! i).
Proof.
  case_decide as E.
  - subst. by rewrite lookup_app_r, Nat.sub_diag by lia.
  - destruct (decide (i < length l)%nat).
    + by rewrite lookup_app_l by done.
    + rewrite lookup_ge_None_2 by (rewrite length_app; simpl; lia).
      by rewrite (lookup_ge_None_2 l) by lia.
Qed.

Lemma take_drop_cons {A} (l : list A) n x l' : drop n l = x :: l' ->
  take (S n) l = take n l ++ [x] /\ drop (S n) l = l' /\ (n < length l)%nat.
Proof.
  intros E. assert (l !! n = Some x) as Hx.
  { replace n with (n + 0)%nat by lia. rewrite <- lookup_drop, E. done. }
  split_and!; [by apply take_S_r| |by eapply lookup_lt_Some].
  replace (S n) with (n + 1)%nat by lia. by rewrite <- drop_drop, E.
Qed.

(** Filtering a list of indices. *)
Lemma list_filter_all_true {A} (P : A -> Prop) `{!forall x, Decision (P x)} (l : list A) :
  Forall P l -> filter P l = l.
Proof.
  induction 1 as [|x l Hx _ IH]; [done|]. by rewrite filter_cons, decide_True, IH.
Qed.

Lemma list_filter_all_false {A} (P : A -> Prop) `{!forall x, Decision (P x)} (l : list A) :
  Forall (fun x => ~ P x) l -> filter P l = [].
Proof.
  induction 1 as [|x l Hx _ IH]; [done|]. by rewrite filter_cons, decide_False, IH.
Qed.

Lemma list_filter_iff_strong {A} (P Q : A -> Prop) `{!forall x, Decision (P x), !forall x, Decision (Q x)}
    (l : list A) : (forall x, x ∈ l -> (P x <-> Q x)) -> filter P l = filter Q l.
Proof.
  induction l as [|x l IH]; intros Hpq; [done|]. rewrite !filter_cons.
  rewrite IH by (intros; apply Hpq; by right).
  destruct (Hpq x) as [H1 H2]; [left|]. repeat case_decide; naive_solver.
Qed.
