(* ===== verification/Bitmap.v ===== *)
(** Bitmap: the array of bits of src/code/lib/bitmap.h and bitmap.cc.

    [Bitmap] is the object ([numBits], [numWords] and the [unsigned int] array
    [map]); every method is a function on it that returns or stops at an [ASSERT].
    The lemmas at the end of the file give each method as an operation on the
    abstract set of bits [bit], under the invariant [wf]. *)

From S2P Require Import Prelude.
From stdpp Require Import base numbers list gmap.
#[local] Open Scope Z_scope.

Module Bitmap.

Definition BitsInByte : Z := 8.
Definition BitsInWord : Z := 4 * BitsInByte.

Record Bitmap := MkBitmap {
  numBits : Z;
  numWords : Z;
  bmap : list Z
}.

Definition with_map (b : Bitmap) (m : list Z) : Bitmap :=
  MkBitmap (numBits b) (numWords b) m.

(** [1 << (which % BitsInWord)] as an [unsigned int]. *)
Definition bit_mask (which : Z) : Z := u32 (Z.shiftl 1 (which %c BitsInWord)).

Definition in_range (b : Bitmap) (which : Z) : bool :=
  (0 <=? which) && (which <? numBits b).

Definition Test (b : Bitmap) (which : Z) : res bool :=
  _ ← ASSERT (in_range b which);
  w ← aget (bmap b) (which /c BitsInWord);
  Ok (negb (Z.land w (bit_mask which) =? 0)).

Definition Mark (b : Bitmap) (which : Z) : res Bitmap :=
  _ ← ASSERT (in_range b which);
  w ← aget (bmap b) (which /c BitsInWord);
  m ← aset (bmap b) (which /c BitsInWord) (Z.lor w (bit_mask which));
  let b' := with_map b m in
  t ← Test b' which;
  _ ← ASSERT t;
  Ok b'.

Definition Clear (b : Bitmap) (which : Z) : res Bitmap :=
  _ ← ASSERT (in_range b which);
  w ← aget (bmap b) (which /c BitsInWord);
  m ← aset (bmap b) (which /c BitsInWord)
        (Z.land w (u32 (Z.lnot (Z.shiftl 1 (which %c BitsInWord)))));
  let b' := with_map b m in
  t ← Test b' which;
  _ ← ASSERT (negb t);
  Ok b'.

(** The constructor.  [new unsigned int[numWords]] is filled by the first loop. *)
Definition Bitmap_new (numItems : Z) : res Bitmap :=
  _ ← ASSERT (0 <? numItems);
  let nw := divRoundUp numItems BitsInWord in
  let b := MkBitmap numItems nw (replicate (Z.to_nat nw) 0) in
  for_each (range 0 numItems) (fun i b => Clear b i) b.

Definition FindAndSet (b : Bitmap) : res (Z * Bitmap) :=
  r ← for_ret (range 0 (numBits b))
        (fun i b =>
           t ← Test b i;
           if negb t then b' ← Mark b i; Ok (inr (i, b')) else Ok (inl b)) b;
  match r with
  | inl b' => Ok (-1, b')
  | inr x => Ok x
  end.

Definition NumClear (b : Bitmap) : res Z :=
  for_each (range 0 (numBits b))
    (fun i count => t ← Test b i; Ok (if negb t then count + 1 else count)) 0.

(** [SelfTest]: the checks and updates in the order the method makes them. *)
Definition SelfTest (b : Bitmap) : res Bitmap :=
  _ ← ASSERT (BitsInWord <=? numBits b);
  n ← NumClear b;
  _ ← ASSERT (n =? numBits b);
  '(i, b) ← FindAndSet b;
  _ ← ASSERT (i =? 0);
  b ← Mark b 31;
  t0 ← Test b 0;
  t31 ← Test b 31;
  _ ← ASSERT (t0 && t31);
  '(i, b) ← FindAndSet b;
  _ ← ASSERT (i =? 1);
  b ← Clear b 0;
  b ← Clear b 1;
  b ← Clear b 31;
  b ← for_each (range 0 (numBits b)) (fun i b => Mark b i) b;
  '(i, b) ← FindAndSet b;
  _ ← ASSERT (i =? -1);
  for_each (range 0 (numBits b)) (fun i b => Clear b i) b.

(** * The abstract set of bits and the invariant *)

Definition bit (b : Bitmap) (i : Z) : bool :=
  Z.testbit (default 0 (bmap b !! Z.to_nat (i / 32))) (i mod 32).

Record wf (b : Bitmap) : Prop := {
  wf_pos : 0 < numBits b;
  wf_words : numWords b = divRoundUp (numBits b) BitsInWord;
  wf_len : Z.of_nat (length (bmap b)) = numWords b;
  wf_u32 : Forall is_u32 (bmap b)
}.

(** The indices of the clear bits, in increasing order. *)
Definition clear_bits (b : Bitmap) : list Z :=
  filter (fun i => bit b i = false) (range 0 (numBits b)).

Lemma bit_mask_pow which : 0 <= which -> bit_mask which = 2 ^ (which mod 32).
Proof.
  intros. unfold bit_mask, BitsInWord, BitsInByte. change (4 * 8) with 32.
  rewrite Z.rem_mod_nonneg by lia. rewrite Z.shiftl_1_l. apply u32_id.
  pose proof (Z.mod_pos_bound which 32). split; [lia|].
  apply Z.pow_lt_mono_r; lia.
Qed.

Lemma land_pow_testbit w k : 0 <= k -> negb (Z.land w (2 ^ k) =? 0) = Z.testbit w k.
Proof.
  intros Hk. destruct (Z.testbit w k) eqn:E.
  - apply negb_true_iff, Z.eqb_neq. intros H.
    assert (Z.testbit (Z.land w (2 ^ k)) k = false) as H2 by (by rewrite H, Z.bits_0).
    rewrite Z.land_spec, E, Z.pow2_bits_true in H2 by done. done.
  - apply negb_false_iff, Z.eqb_eq. apply Z.bits_inj_0. intros n.
    rewrite Z.land_spec. destruct (decide (n = k)) as [->|].
    + by rewrite E.
    + rewrite (Z.pow2_bits_false k n) by lia. apply andb_false_r.
Qed.

Lemma wf_index b i : wf b -> 0 <= i < numBits b ->
  0 <= i / 32 < Z.of_nat (length (bmap b)).
Proof.
  intros [Hp Hw Hl _] Hi. rewrite Hl, Hw.
  unfold BitsInWord, BitsInByte. change (4 * 8) with 32.
  rewrite divRoundUp_spec by lia. split; [apply Z.div_pos; lia|].
  apply Z.div_lt_upper_bound; [lia|].
  pose proof (Z.div_mod (numBits b + 32 - 1) 32). pose proof (Z.mod_pos_bound (numBits b + 32 - 1) 32).
  lia.
Qed.

Lemma in_range_true b i : 0 <= i < numBits b -> in_range b i = true.
Proof. intros. unfold in_range. apply andb_true_iff. lia. Qed.

Lemma quot_word i : 0 <= i -> i /c BitsInWord = i / 32.
Proof. intros. unfold BitsInWord, BitsInByte. by rewrite Z.quot_div_nonneg by lia. Qed.

Lemma Test_spec b i : wf b -> 0 <= i < numBits b -> Test b i = Ok (bit b i).
Proof.
  intros Hwf Hi. unfold Test. rewrite in_range_true by done. simpl.
  rewrite quot_word by lia.
  destruct (aget_in (bmap b) (i / 32)) as (w & Hw & ->); [by apply wf_index|]. simpl.
  unfold bit. rewrite Hw. simpl. f_equal. rewrite bit_mask_pow by lia.
  apply land_pow_testbit. apply Z.mod_pos_bound. lia.
Qed.

Lemma Test_oob b i : ~ (0 <= i < numBits b) -> Test b i = AssertFail.
Proof.
  intros Hi. unfold Test, in_range.
  destruct (0 <=? i) eqn:?, (i <? numBits b) eqn:?; try done. lia.
Qed.

(** Replacing the word of one bit changes only the bits of that word. *)
Lemma bit_set_word b i j w' :
  wf b -> 0 <= i < numBits b -> 0 <= j ->
  bit (with_map b (<[Z.to_nat (i / 32) := w']> (bmap b))) j =
  if decide (j / 32 = i / 32) then Z.testbit w' (j mod 32) else bit b j.
Proof.
  intros Hwf Hi Hj. pose proof (wf_index b i Hwf Hi). unfold bit, with_map; simpl.
  case_decide as E.
  - rewrite E, list_lookup_insert_eq by lia. done.
  - rewrite list_lookup_insert_ne; [done|].
    assert (0 <= j / 32) by (apply Z.div_pos; lia). lia.
Qed.

Lemma wf_set_word b n w' : wf b -> is_u32 w' -> wf (with_map b (<[n := w']> (bmap b))).
Proof.
  intros [? ? ? ?] ?. constructor; simpl; try done.
  - by rewrite length_insert.
  - by apply Forall_insert.
Qed.

Lemma same_index i j : 0 <= i -> 0 <= j ->
  j / 32 = i / 32 -> (j mod 32 = i mod 32 <-> j = i).
Proof.
  intros. pose proof (Z.div_mod i 32). pose proof (Z.div_mod j 32). lia.
Qed.

Lemma wf_word b n w : wf b -> bmap b !! n = Some w -> is_u32 w.
Proof. intros [_ _ _ H] E. by apply (Forall_lookup_1 _ _ _ _ H E). Qed.

Lemma u32_bits_high w : is_u32 w <-> 0 <= w /\ forall k, 32 <= k -> Z.testbit w k = false.
Proof.
  unfold is_u32. split.
  - intros [? ?]. split; [done|]. intros k Hk.
    destruct (decide (w = 0)) as [->|]; [apply Z.bits_0|].
    apply Z.bits_above_log2; [done|]. apply Z.log2_lt_pow2; [lia|].
    apply Z.lt_le_trans with (2 ^ 32); [done|]. apply Z.pow_le_mono_r; lia.
  - intros [? H]. split; [done|].
    assert (w = Z.land w (Z.ones 32)) as ->.
    { apply Z.bits_inj'. intros n Hn. rewrite Z.land_spec, Z.testbit_ones by lia.
      destruct (decide (n < 32)).
      - replace ((0 <=? n) && (n <? 32)) with true by (symmetry; apply andb_true_iff; lia).
        by rewrite andb_true_r.
      - rewrite H by lia. done. }
    rewrite Z.land_ones by lia. apply Z.mod_pos_bound. lia.
Qed.

(** [Mark] adds one element to the set and keeps the invariant. *)
Lemma Mark_correct b i : wf b -> 0 <= i < numBits b ->
  exists b', Mark b i = Ok b' /\ wf b' /\ numBits b' = numBits b /\
    forall j, 0 <= j -> bit b' j = (j =? i) || bit b j.
Proof.
  intros Hwf Hi. unfold Mark. rewrite in_range_true by done. simpl.
  rewrite quot_word by lia. pose proof (wf_index b i Hwf Hi) as Hix.
  destruct (aget_in (bmap b) (i / 32)) as (w & Hw & ->); [done|]. simpl.
  rewrite aset_in by done. simpl.
  pose proof (wf_word _ _ _ Hwf Hw) as Hu. rewrite bit_mask_pow by lia.
  set (w' := Z.lor w (2 ^ (i mod 32))).
  pose proof (Z.mod_pos_bound i 32 ltac:(lia)) as Hm.
  assert (is_u32 w') as Hu'.
  { apply u32_bits_high. apply u32_bits_high in Hu as [? Hu]. split.
    - apply Z.lor_nonneg. split; [done|]. lia.
    - intros k Hk. unfold w'. rewrite Z.lor_spec, Hu, Z.pow2_bits_false by lia. done. }
  set (b' := with_map b _).
  assert (wf b') as Hwf' by (by apply wf_set_word).
  assert (forall j, 0 <= j -> bit b' j = (j =? i) || bit b j) as Hbit.
  { intros j Hj. unfold b'. rewrite bit_set_word by done. case_decide as E.
    - unfold w'. rewrite Z.lor_spec. unfold bit. rewrite E, Hw. simpl.
      pose proof (same_index i j ltac:(lia) Hj E) as Hs. rewrite orb_comm. f_equal.
      rewrite Z.pow2_bits_eqb by lia. destruct (j =? i) eqn:?; lia.
    - destruct (Z.eqb_spec j i); [congruence|done]. }
  rewrite Test_spec by done. simpl. rewrite Hbit by lia.
  rewrite Z.eqb_refl. simpl. exists b'. by split_and!.
Qed.

(** [Clear] removes one element and keeps the invariant. *)
Lemma Clear_correct b i : wf b -> 0 <= i < numBits b ->
  exists b', Clear b i = Ok b' /\ wf b' /\ numBits b' = numBits b /\
    forall j, 0 <= j -> bit b' j = negb (j =? i) && bit b j.
Proof.
  intros Hwf Hi. unfold Clear. rewrite in_range_true by done. simpl.
  rewrite quot_word by lia. pose proof (wf_index b i Hwf Hi) as Hix.
  destruct (aget_in (bmap b) (i / 32)) as (w & Hw & ->); [done|]. simpl.
  rewrite aset_in by done. simpl.
  pose proof (wf_word _ _ _ Hwf Hw) as Hu.
  pose proof (Z.mod_pos_bound i 32 ltac:(lia)) as Hm.
  unfold BitsInWord, BitsInByte. change (4 * 8) with 32.
  rewrite Z.rem_mod_nonneg by lia. rewrite Z.shiftl_1_l.
  set (w' := Z.land w (u32 (Z.lnot (2 ^ (i mod 32))))).
  assert (forall k, 0 <= k -> Z.testbit w' k = negb (k =? i mod 32) && Z.testbit w k) as Hwk.
  { intros k Hk. unfold w'. rewrite u32_land, !Z.land_spec, Z.lnot_spec, Z.pow2_bits_eqb by lia.
    apply u32_bits_high in Hu as [_ Hu]. rewrite Z.testbit_ones by lia.
    destruct (decide (k < 32)).
    - replace ((0 <=? k) && (k <? 32)) with true by (symmetry; apply andb_true_iff; lia).
      rewrite andb_true_r, andb_comm. f_equal. f_equal. lia.
    - rewrite Hu by lia. by rewrite andb_false_r. }
  assert (is_u32 w') as Hu'.
  { apply u32_bits_high. apply u32_bits_high in Hu as [? Hu]. split.
    - apply Z.land_nonneg. by left.
    - intros k Hk. rewrite Hwk, Hu by lia. apply andb_false_r. }
  set (b' := with_map b _).
  assert (wf b') as Hwf' by (by apply wf_set_word).
  assert (forall j, 0 <= j -> bit b' j = negb (j =? i) && bit b j) as Hbit.
  { intros j Hj. unfold b'. rewrite bit_set_word by done. case_decide as E.
    - rewrite Hwk by (apply Z.mod_pos_bound; lia). unfold bit. rewrite E, Hw. simpl.
      pose proof (same_index i j ltac:(lia) Hj E) as Hs. f_equal. f_equal.
      destruct (j =? i) eqn:?; lia.
    - destruct (Z.eqb_spec j i); [congruence|done]. }
  rewrite Test_spec by done. simpl. rewrite Hbit by lia.
  rewrite Z.eqb_refl. simpl. exists b'. by split_and!.
Qed.

(** * The remaining operations, over the abstract set *)

Lemma Bitmap_new_correct n : 0 < n ->
  exists b, Bitmap_new n = Ok b /\ wf b /\ numBits b = n /\ forall j, 0 <= j -> bit b j = false.
Proof.
  intros Hn. unfold Bitmap_new. rewrite ASSERT_true by (apply Z.ltb_lt; lia). simpl.
  set (b0 := MkBitmap _ _ _).
  assert (0 <= divRoundUp n BitsInWord) as Hnw.
  { unfold BitsInWord, BitsInByte. change (4 * 8) with 32.
    rewrite divRoundUp_spec by lia. apply Z.div_pos; lia. }
  destruct (for_each_inv (fun _ b => wf b /\ numBits b = n /\ forall j, 0 <= j -> bit b j = false)
              (fun i b => Clear b i) 0 n b0) as (b & E & H); [lia| | |eauto].
  - split; [|split].
    + constructor; simpl; [done|done| |].
      * rewrite length_replicate. lia.
      * apply Forall_replicate. unfold is_u32. lia.
    + done.
    + intros j Hj. unfold bit, b0. simpl.
      destruct (replicate _ 0 !! Z.to_nat (j / 32)) eqn:E; simpl; [|apply Z.bits_0].
      apply lookup_replicate in E as [-> _]. apply Z.bits_0.
  - intros i b Hi (Hwf & Hnb & Hz).
    destruct (Clear_correct b i) as (b' & -> & Hwf' & Hnb' & Hb'); [done|lia|].
    exists b'. split_and!; [done|done|lia|].
    intros j Hj. rewrite Hb', Hz by done. apply andb_false_r.
Qed.

Definition FindAndSet_post (b : Bitmap) (r : Z * Bitmap) : Prop :=
  let '(i, b') := r in
  (i = -1 /\ b' = b /\ forall j, 0 <= j < numBits b -> bit b j = true) \/
  (0 <= i < numBits b /\ bit b i = false /\ (forall j, 0 <= j < i -> bit b j = true) /\
   wf b' /\ numBits b' = numBits b /\ forall j, 0 <= j -> bit b' j = (j =? i) || bit b j).

(** [FindAndSet] takes the first clear bit, and answers -1 exactly when there is none. *)
Lemma FindAndSet_correct b : wf b ->
  exists r, FindAndSet b = Ok r /\ FindAndSet_post b r.
Proof.
  intros Hwf. unfold FindAndSet.
  destruct (for_ret_inv (fun i s => s = b /\ forall j, 0 <= j < i -> bit b j = true)
     (fun r => FindAndSet_post b r)
     (fun i b => t ← Test b i; if negb t then b' ← Mark b i; Ok (inr (i, b')) else Ok (inl b))
     0 (numBits b) b) as [(s & -> & -> & Hall)|(r & -> & HQ)].
  - destruct Hwf; lia.
  - split; [done|]. intros; lia.
  - intros i s Hi [-> Hb]. rewrite Test_spec by (done || lia). simpl.
    destruct (bit b i) eqn:E; simpl.
    + left. exists b. split; [done|]. split; [done|]. intros j Hj.
      destruct (decide (j = i)) as [->|]; [done|]. apply Hb. lia.
    + right. destruct (Mark_correct b i) as (b' & -> & Hwf' & Hn & Hb'); [done|lia|]. simpl.
      eexists. split; [done|]. right. split_and!; (done || lia).
  - simpl. eexists. split; [done|]. left. done.
  - simpl. eauto.
Qed.

Lemma clear_bits_snoc b k : 0 <= k ->
  filter (fun i => bit b i = false) (range 0 (k + 1)) =
  filter (fun i => bit b i = false) (range 0 k) ++ (if bit b k then [] else [k]).
Proof.
  intros. rewrite range_snoc by lia. rewrite filter_app. f_equal.
  rewrite filter_cons. destruct (bit b k) eqn:E.
  - rewrite decide_False by congruence. done.
  - rewrite decide_True by done. done.
Qed.

Lemma NumClear_correct b : wf b -> NumClear b = Ok (Z.of_nat (length (clear_bits b))).
Proof.
  intros Hwf. unfold NumClear, clear_bits.
  destruct (for_each_inv
     (fun i c => c = Z.of_nat (length (filter (fun i => bit b i = false) (range 0 i))))
     (fun i count => t ← Test b i; Ok (if negb t then count + 1 else count))
     0 (numBits b) 0) as (c & E & ->).
  - destruct Hwf; lia.
  - done.
  - intros i c Hi ->. rewrite Test_spec by (done || lia). simpl.
    rewrite clear_bits_snoc by lia. eexists. split; [done|]. rewrite length_app.
    destruct (bit b i); simpl; lia.
  - done.
Qed.

Lemma elem_of_clear_bits b i : i ∈ clear_bits b <-> bit b i = false /\ 0 <= i < numBits b.
Proof. unfold clear_bits. rewrite list_elem_of_filter, elem_of_range. done. Qed.

Lemma clear_bits_NoDup b : NoDup (clear_bits b).
Proof. unfold clear_bits. apply NoDup_filter. apply NoDup_seqZ. Qed.

(** Setting a clear bit takes exactly it out of the clear bits. *)
Lemma clear_bits_mark b b' i : numBits b' = numBits b ->
  (forall j, 0 <= j -> bit b' j = (j =? i) || bit b j) -> i ∈ clear_bits b ->
  clear_bits b ≡ₚ i :: clear_bits b'.
Proof.
  intros Hn Hb Hi. apply NoDup_Permutation.
  - apply clear_bits_NoDup.
  - apply NoDup_cons. split; [|apply clear_bits_NoDup].
    rewrite elem_of_clear_bits. intros [H ?]. rewrite Hb, Z.eqb_refl in H by lia. done.
  - intros x. rewrite elem_of_cons, !elem_of_clear_bits, Hn.
    apply elem_of_clear_bits in Hi as [Hi Hr]. split.
    + intros [H ?]. destruct (decide (x = i)) as [|Hne]; [by left|right].
      rewrite Hb by lia. apply Z.eqb_neq in Hne. by rewrite Hne.
    + intros [->|[H ?]]; [done|]. rewrite Hb in H by lia.
      apply orb_false_iff in H as [_ ?]. done.
Qed.

Lemma mark_all b : wf b ->
  exists b', for_each (range 0 (numBits b)) (fun i b => Mark b i) b = Ok b' /\ wf b' /\
    numBits b' = numBits b /\ forall j, 0 <= j < numBits b -> bit b' j = true.
Proof.
  intros Hwf.
  destruct (for_each_inv (fun i s => wf s /\ numBits s = numBits b /\
              forall j, 0 <= j < i -> bit s j = true)
     (fun i b => Mark b i) 0 (numBits b) b) as (b' & E & ? & ? & ?); [|split; [done|]..| |].
  - destruct Hwf; lia.
  - split; [done|]. intros; lia.
  - intros i s Hi (Hws & Hn & Hs).
    destruct (Mark_correct s i) as (s' & -> & ? & ? & Hb); [done|lia|].
    exists s'. split_and!; [done|done|lia|]. intros j Hj. rewrite Hb by lia.
    destruct (Z.eqb_spec j i); [done|]. apply Hs. lia.
  - eauto.
Qed.

Lemma clear_all b : wf b ->
  exists b', for_each (range 0 (numBits b)) (fun i b => Clear b i) b = Ok b' /\ wf b' /\
    numBits b' = numBits b /\ forall j, 0 <= j < numBits b -> bit b' j = false.
Proof.
  intros Hwf.
  destruct (for_each_inv (fun i s => wf s /\ numBits s = numBits b /\
              forall j, 0 <= j < i -> bit s j = false)
     (fun i b => Clear b i) 0 (numBits b) b) as (b' & E & ? & ? & ?); [|split; [done|]..| |].
  - destruct Hwf; lia.
  - split; [done|]. intros; lia.
  - intros i s Hi (Hws & Hn & Hs).
    destruct (Clear_correct s i) as (s' & -> & ? & ? & Hb); [done|lia|].
    exists s'. split_and!; [done|done|lia|]. intros j Hj. rewrite Hb by lia.
    destruct (Z.eqb_spec j i); [done|]. simpl. apply Hs. lia.
  - eauto.
Qed.

Lemma FindAndSet_first b i : wf b -> 0 <= i < numBits b -> bit b i = false ->
  (forall j, 0 <= j < i -> bit b j = true) ->
  exists b', FindAndSet b = Ok (i, b') /\ wf b' /\ numBits b' = numBits b /\
    forall j, 0 <= j -> bit b' j = (j =? i) || bit b j.
Proof.
  intros Hwf Hi Hbi Hlt. destruct (FindAndSet_correct b Hwf) as ([k b'] & -> & HQ).
  destruct HQ as [(-> & -> & Hall)|(Hk & Hbk & Hltk & ? & ? & Hb')].
  - rewrite Hall in Hbi; done.
  - assert (k = i) as ->; [|eauto].
    destruct (Z.lt_trichotomy k i) as [|[|]]; [|done|].
    + rewrite Hlt in Hbk by lia. done.
    + rewrite Hltk in Hbi by lia. done.
Qed.

Lemma FindAndSet_full b : wf b -> (forall j, 0 <= j < numBits b -> bit b j = true) ->
  FindAndSet b = Ok (-1, b).
Proof.
  intros Hwf Hall. destruct (FindAndSet_correct b Hwf) as ([k b'] & -> & HQ).
  destruct HQ as [(-> & -> & _)|(Hk & Hbk & _)]; [done|]. rewrite Hall in Hbk; done.
Qed.

Lemma NumClear_all_clear b : wf b -> (forall j, 0 <= j < numBits b -> bit b j = false) ->
  NumClear b = Ok (numBits b).
Proof.
  intros Hwf Hz. rewrite NumClear_correct by done. f_equal. unfold clear_bits.
  rewrite list_filter_all_true.
  - unfold range. rewrite length_seqZ. destruct Hwf; lia.
  - apply Forall_forall. intros i Hi%elem_of_range. by apply Hz.
Qed.

(** * The abstract specification: a finite set of allocated indices *)

Inductive op := OMark (i : Z) | OClear (i : Z) | OTest (i : Z) | OFindAndSet | ONumClear.

(** One call on the object, with its result as a number. *)
Definition step (b : Bitmap) (o : op) : res (Z * Bitmap) :=
  match o with
  | OMark i => b' ← Mark b i; Ok (0, b')
  | OClear i => b' ← Clear b i; Ok (0, b')
  | OTest i => t ← Test b i; Ok (Z.b2z t, b)
  | OFindAndSet => FindAndSet b
  | ONumClear => c ← NumClear b; Ok (c, b)
  end.

(** What the class promises: a set of indices below [n]. *)
Definition spec_step (n : Z) (s : gset Z) (o : op) : res (Z * gset Z) :=
  let checked i r := if decide (0 <= i < n) then Ok r else AssertFail in
  match o with
  | OMark i => checked i (0, {[i]} ∪ s)
  | OClear i => checked i (0, s ∖ {[i]})
  | OTest i => checked i (Z.b2z (bool_decide (i ∈ s)), s)
  | OFindAndSet =>
      match filter (fun i => i ∉ s) (range 0 n) with
      | i :: _ => Ok (i, {[i]} ∪ s)
      | [] => Ok (-1, s)
      end
  | ONumClear => Ok (Z.of_nat (length (filter (fun i => i ∉ s) (range 0 n))), s)
  end.

(** Runs a sequence of calls and collects their results. *)
Fixpoint run {St} (stp : St -> op -> res (Z * St)) (st : St) (os : list op) : res (list Z) :=
  match os with
  | [] => Ok []
  | o :: os' => '(z, st') ← stp st o; zs ← run stp st' os'; Ok (z :: zs)
  end.

Definition represents (n : Z) (b : Bitmap) (s : gset Z) : Prop :=
  wf b /\ numBits b = n /\ forall i, 0 <= i < n -> bit b i = bool_decide (i ∈ s).

Lemma Mark_oob b i : ~ (0 <= i < numBits b) -> Mark b i = AssertFail.
Proof.
  intros Hi. unfold Mark, in_range.
  destruct (0 <=? i) eqn:?, (i <? numBits b) eqn:?; try done. lia.
Qed.
Lemma Clear_oob b i : ~ (0 <= i < numBits b) -> Clear b i = AssertFail.
Proof.
  intros Hi. unfold Clear, in_range.
  destruct (0 <=? i) eqn:?, (i <? numBits b) eqn:?; try done. lia.
Qed.

Lemma clear_bits_represents n b s : represents n b s ->
  clear_bits b = filter (fun i => i ∉ s) (range 0 n).
Proof.
  intros (_ & Hn & Hb). unfold clear_bits. rewrite Hn. apply list_filter_iff_strong.
  intros i Hi%elem_of_range. rewrite Hb by done.
  by rewrite bool_decide_eq_false.
Qed.

Lemma represents_mark n b b' s i : represents n b s -> wf b' -> numBits b' = numBits b ->
  (forall j, 0 <= j -> bit b' j = (j =? i) || bit b j) -> represents n b' ({[i]} ∪ s).
Proof.
  intros (_ & Hn & Hb) Hwf Hn' Hb'. split_and!; [done|lia|]. intros j Hj.
  rewrite Hb', Hb by lia. destruct (Z.eqb_spec j i) as [->|].
  - symmetry. apply bool_decide_eq_true. set_solver.
  - simpl. apply bool_decide_ext. set_solver.
Qed.

Lemma represents_clear n b b' s i : represents n b s -> wf b' -> numBits b' = numBits b ->
  (forall j, 0 <= j -> bit b' j = negb (j =? i) && bit b j) -> represents n b' (s ∖ {[i]}).
Proof.
  intros (_ & Hn & Hb) Hwf Hn' Hb'. split_and!; [done|lia|]. intros j Hj.
  rewrite Hb', Hb by lia. destruct (Z.eqb_spec j i) as [->|].
  - symmetry. apply bool_decide_eq_false. set_solver.
  - simpl. apply bool_decide_ext. set_solver.
Qed.

(** The first element of the increasing list of clear bits. *)
Lemma FindAndSet_clear_bits b : wf b ->
  match clear_bits b with
  | [] => FindAndSet b = Ok (-1, b)
  | i :: _ => exists b', FindAndSet b = Ok (i, b') /\ wf b' /\ numBits b' = numBits b /\
      forall j, 0 <= j -> bit b' j = (j =? i) || bit b j
  end.
Proof.
  intros Hwf. destruct (FindAndSet_correct b Hwf) as ([i b'] & HE & HQ).
  destruct HQ as [(-> & -> & Hall)|(Hi & Hbi & Hlt & Hwf' & Hn & Hb')].
  - destruct (clear_bits b) as [|x l] eqn:E; [done|].
    assert (x ∈ clear_bits b) as Hx by (rewrite E; left).
    apply elem_of_clear_bits in Hx as [Hx Hr]. rewrite Hall in Hx; done.
  - assert (clear_bits b = i :: filter (fun j => bit b j = false) (range (i + 1) (numBits b))) as ->.
    2:{ eauto 10. }
    unfold clear_bits.
    replace (range 0 (numBits b)) with (range 0 i ++ i :: range (i + 1) (numBits b)).
    + rewrite filter_app, filter_cons, decide_True by done.
      rewrite (list_filter_all_false (fun j => bit b j = false) (range 0 i)); [done|].
      apply Forall_forall. intros j Hj%elem_of_range. rewrite Hlt by lia. done.
    + rewrite <- range_cons by lia. unfold range.
      replace (numBits b - 0) with ((i - 0) + (numBits b - i)) by lia.
      rewrite seqZ_app by lia. do 2 f_equal. lia.
Qed.

Lemma bitmap_step_refines n b s o : represents n b s ->
  match spec_step n s o with
  | Ok (z, s') => exists b', step b o = Ok (z, b') /\ represents n b' s'
  | AssertFail => step b o = AssertFail
  | _ => False
  end.
Proof.
  intros Hr. pose proof Hr as (Hwf & Hn & Hb). destruct o as [i|i|i| |]; simpl.
  - case_decide as Hi; [|by rewrite Mark_oob by lia].
    destruct (Mark_correct b i) as (b' & -> & ? & ? & ?); [done|lia|]. simpl.
    eauto using represents_mark.
  - case_decide as Hi; [|by rewrite Clear_oob by lia].
    destruct (Clear_correct b i) as (b' & -> & ? & ? & ?); [done|lia|]. simpl.
    eauto using represents_clear.
  - case_decide as Hi; [|by rewrite Test_oob by lia].
    rewrite Test_spec by (done || lia). simpl. rewrite Hb by done. eauto.
  - rewrite <- (clear_bits_represents n b s Hr).
    pose proof (FindAndSet_clear_bits b Hwf) as H.
    destruct (clear_bits b) as [|i l]; [eauto|].
    destruct H as (b' & -> & ? & ? & ?). eauto using represents_mark.
  - rewrite NumClear_correct by done. simpl. rewrite (clear_bits_represents n b s Hr). eauto.
Qed.

Lemma bitmap_run_refines n b s os : represents n b s ->
  run step b os = run (spec_step n) s os.
Proof.
  revert b s. induction os as [|o os IH]; intros b s Hr; [done|]. simpl.
  pose proof (bitmap_step_refines n b s o Hr) as H.
  destruct (spec_step n s o) as [[z s']| | | |]; simpl in *; try done.
  - destruct H as (b' & -> & Hr'). simpl. by rewrite (IH b' s' Hr').
  - by rewrite H.
Qed.

(** ** The list of clear bits as the state of an allocator *)

(** [cb] are the indices that can still be handed out, in the order they will be. *)
Definition free_list (b : Bitmap) (cb : list Z) : Prop := wf b /\ clear_bits b = cb.

Lemma clear_bits_tail b b' i l : numBits b' = numBits b ->
  (forall j, 0 <= j -> bit b' j = (j =? i) || bit b j) -> clear_bits b = i :: l ->
  clear_bits b' = l.
Proof.
  intros Hn Hb E. pose proof (clear_bits_NoDup b) as Hnd. rewrite E in Hnd.
  apply NoDup_cons in Hnd as [Hi Hnd].
  assert (clear_bits b' = filter (fun j => j <> i) (clear_bits b)) as ->.
  { unfold clear_bits. rewrite list_filter_filter, Hn. apply list_filter_iff_strong.
    intros j Hj%elem_of_range. rewrite Hb, orb_false_iff, Z.eqb_neq by lia. done. }
  rewrite E, filter_cons, decide_False by (intros Hne; by apply Hne).
  apply list_filter_all_true, Forall_forall. intros j Hj ->. done.
Qed.

Lemma FindAndSet_cons b i cb : free_list b (i :: cb) ->
  exists b', FindAndSet b = Ok (i, b') /\ free_list b' cb /\ numBits b' = numBits b /\
    0 <= i < numBits b /\ (forall j, 0 <= j -> bit b' j = (j =? i) || bit b j).
Proof.
  intros [Hwf E]. pose proof (FindAndSet_clear_bits b Hwf) as H. rewrite E in H.
  destruct H as (b' & -> & Hw' & Hn & Hb). exists b'.
  assert (i ∈ clear_bits b) as Hi by (rewrite E; left). apply elem_of_clear_bits in Hi as [_ Hi].
  split_and!; try done; try lia. split; [done|by eapply clear_bits_tail].
Qed.

Lemma FindAndSet_nil b : free_list b [] -> FindAndSet b = Ok (-1, b).
Proof. intros [Hwf E]. pose proof (FindAndSet_clear_bits b Hwf) as H. by rewrite E in H. Qed.

Lemma NumClear_free_list b cb : free_list b cb -> NumClear b = Ok (Z.of_nat (length cb)).
Proof. intros [Hwf <-]. by apply NumClear_correct. Qed.

Lemma free_list_bit b cb j : free_list b cb -> 0 <= j < numBits b -> (bit b j = false <-> j ∈ cb).
Proof. intros [_ <-] Hj. rewrite elem_of_clear_bits. tauto. Qed.

(** * Properties *)

(** C34. A bitmap behaves as the set it stands for: any sequence of Mark, Clear, Test,
    FindAndSet and NumClear calls on a new bitmap of [n] bits gives the results of the
    same calls on a finite set of indices below [n], and stops at an ASSERT exactly
    when an index is out of range. *)
Theorem bitmap_refines_set (n : Z) (os : list op) : 0 < n ->
  (b ← Bitmap_new n; run step b os) = run (spec_step n) (∅ : gset Z) os.
Proof.
  intros Hn. destruct (Bitmap_new_correct n Hn) as (b & -> & Hwf & Hnb & Hz). simpl.
  apply bitmap_run_refines. split_and!; [done|done|]. intros i Hi. rewrite Hz by lia.
  symmetry. apply bool_decide_eq_false. set_solver.
Qed.

Example bitmap_refines_set_witness :
  0 < 40 /\ (b ← Bitmap_new 40; run step b [OFindAndSet; OMark 31; OTest 31; OFindAndSet; ONumClear])
    = Ok [0; 0; 1; 1; 37].
Proof.
  split; [lia|].
  rewrite (bitmap_refines_set 40 [OFindAndSet; OMark 31; OTest 31; OFindAndSet; ONumClear]); [|lia].
  vm_compute. reflexivity.
Defined.

(** Allocation: on a well-formed bitmap FindAndSet returns; either every bit is set,
    the answer is -1 and NumClear is 0, or the answer is the least clear index, which was
    not handed out before, it becomes set, no other bit changes and NumClear drops by one. *)
Theorem find_and_set_allocates (b : Bitmap) : wf b ->
  exists i b' c c', FindAndSet b = Ok (i, b') /\ wf b' /\ NumClear b = Ok c /\ NumClear b' = Ok c' /\
  ((i = -1 /\ b' = b /\ c = 0) \/
   (0 <= i < numBits b /\ Test b i = Ok false /\ Test b' i = Ok true /\ c' = c - 1 /\
    (forall j, 0 <= j < i -> Test b j = Ok true) /\
    (forall j, 0 <= j < numBits b -> j <> i -> Test b' j = Test b j))).
Proof.
  intros Hwf. destruct (FindAndSet_correct b Hwf) as ([i b'] & HE & HQ).
  exists i, b'. rewrite HE, NumClear_correct by done.
  destruct HQ as [(-> & -> & Hall)|(Hi & Hbi & Hlt & Hwf' & Hn & Hb')].
  - do 2 eexists. split_and!; [done..|by apply NumClear_correct|]. left. split_and!; [done..|].
    destruct (clear_bits b) as [|x l] eqn:E; [done|].
    assert (x ∈ clear_bits b) as Hx by (rewrite E; left).
    apply elem_of_clear_bits in Hx as [Hx Hr]. rewrite Hall in Hx; done.
  - do 2 eexists. split_and!; [done..|by apply NumClear_correct|]. right.
    rewrite !Test_spec by (done || lia). rewrite Hbi, Hb', Z.eqb_refl by lia.
    split_and!; [lia..|done|done| | |].
    + rewrite (clear_bits_mark b b' i Hn Hb'); [simpl; lia|]. by apply elem_of_clear_bits.
    + intros j Hj. rewrite Test_spec, Hlt by (done || lia). done.
    + intros j Hj Hne. rewrite !Test_spec, Hb' by (done || lia).
      apply Z.eqb_neq in Hne. by rewrite Hne.
Qed.

Example find_and_set_allocates_witness :
  exists b, Bitmap_new 33 = Ok b /\ wf b /\ exists i b', FindAndSet b = Ok (i, b').
Proof.
  destruct (Bitmap_new_correct 33) as (b & E & Hwf & _); [lia|].
  exists b. split_and!; [exact E|exact Hwf|].
  destruct (find_and_set_allocates b Hwf) as (i & b' & c & c' & H & _). exists i, b'. exact H.
Defined.

(** The class's own self test passes: on a new bitmap of at least one word, none of the
    ASSERTs of SelfTest fails, and it leaves every bit clear. *)
Theorem bitmap_selftest_passes (n : Z) : BitsInWord <= n ->
  exists b b', Bitmap_new n = Ok b /\ SelfTest b = Ok b' /\ wf b' /\
    NumClear b' = Ok n.
Proof.
  unfold BitsInWord, BitsInByte. intros Hn.
  destruct (Bitmap_new_correct n) as (b & Eb & Hwf & Hnb & Hz); [lia|].
  exists b. unfold SelfTest. rewrite Hnb, (ASSERT_true (_ <=? _)) by (apply Z.leb_le; done).
  cbn [mbind res_bind]. rewrite NumClear_all_clear, Hnb by (done || (intros; apply Hz; lia)).
  cbn [mbind res_bind]. rewrite Z.eqb_refl. cbn [ASSERT mbind res_bind].
  destruct (FindAndSet_first b 0) as (b1 & -> & Hw1 & Hn1 & Hb1); [done|lia|by apply Hz|lia|].
  cbn [mbind res_bind ASSERT Z.eqb].
  destruct (Mark_correct b1 31) as (b2 & -> & Hw2 & Hn2 & Hb2); [done|lia|].
  cbn [mbind res_bind]. rewrite !Test_spec by (done || lia). cbn [mbind res_bind].
  rewrite !Hb2, !Hb1 by lia. cbn [Z.eqb Pos.eqb orb andb ASSERT mbind res_bind].
  destruct (FindAndSet_first b2 1) as (b3 & -> & Hw3 & Hn3 & Hb3); [done|lia| | |].
  { rewrite Hb2, Hb1, Hz by lia. done. }
  { intros j Hj. rewrite Hb2, Hb1 by lia. by replace j with 0 by lia. }
  cbn [Z.eqb Pos.eqb ASSERT mbind res_bind].
  destruct (Clear_correct b3 0) as (b4 & -> & Hw4 & Hn4 & _); [done|lia|]. cbn [mbind res_bind].
  destruct (Clear_correct b4 1) as (b5 & -> & Hw5 & Hn5 & _); [done|lia|]. cbn [mbind res_bind].
  destruct (Clear_correct b5 31) as (b6 & -> & Hw6 & Hn6 & _); [done|lia|]. cbn [mbind res_bind].
  destruct (mark_all b6 Hw6) as (b7 & -> & Hw7 & Hn7 & Hb7). cbn [mbind res_bind].
  rewrite FindAndSet_full by (done || (intros; apply Hb7; lia)).
  cbn [Z.eqb Pos.eqb ASSERT mbind res_bind].
  destruct (clear_all b7 Hw7) as (b8 & -> & Hw8 & Hn8 & Hb8).
  exists b8. split_and!; [done..|]. rewrite NumClear_all_clear; [f_equal; lia|done|].
  intros; apply Hb8; lia.
Qed.

Example bitmap_selftest_passes_witness :
  BitsInWord <= 100 /\ exists b b', Bitmap_new 100 = Ok b /\ SelfTest b = Ok b'.
Proof.
  assert (BitsInWord <= 100) as H by (vm_compute; discriminate). split; [exact H|].
  destruct (bitmap_selftest_passes 100 H) as (b & b' & E1 & E2 & _). exists b, b'. split; assumption.
Defined.

End Bitmap.
