(* ===== verification/CList.v ===== *)
(** CList: the singly linked [List<T>] and [SortedList<T>] templates of
    src/code/lib/list.h and list.cc, at the level of their cells.

    The heap maps an address to a [ListElement]; NULL is [None].  A list object is
    its [first], [last] and [numInList] fields.  Every method is a function on the
    heap and the object, with a walk along [next] pointers bounded by the number of
    allocated cells.  [rep] relates a heap and an object to a mathematical list, and
    the refinement theorems give each method as a list operation, with the heap cells
    of other lists untouched. *)

From S2P Require Import Prelude.
From stdpp Require Import base numbers list gmap sorting.
#[local] Open Scope Z_scope.

Module CList.

Abbreviation addr := positive.
Abbreviation ptr := (option positive).

Record ListElement (T : Type) := Elem { next : ptr; item : T }.
Arguments Elem {T} _ _.
Arguments next {T} _.
Arguments item {T} _.

Abbreviation heap T := (gmap positive (ListElement T)).

Record CList := MkList { first : ptr; last : ptr; numInList : Z }.

Section Ops.
Context {T : Type} `{EqDecision T}.

(** [new ListElement<T>(itm)]: a cell at an address not in use, with a null [next]. *)
Definition ListElement_new (h : heap T) (itm : T) : addr * heap T :=
  let a := fresh (dom h) in (a, <[a := Elem None itm]> h).

Definition load (h : heap T) (p : ptr) : res (ListElement T) :=
  a ← deref p; deref (h !! a).

(** [p->next = q] *)
Definition set_next (h : heap T) (p : ptr) (q : ptr) : res (heap T) :=
  a ← deref p; e ← deref (h !! a); Ok (<[a := Elem q (item e)]> h).

(** More steps than any walk over distinct cells can take. *)
Definition walk_fuel (h : heap T) : nat := S (size h).

Definition List_new : CList := MkList None None 0.

Definition IsEmpty (l : CList) : bool := numInList l =? 0.
Definition NumInList (l : CList) : Z := numInList l.
Definition Front (h : heap T) (l : CList) : res T := e ← load h (first l); Ok (item e).

Fixpoint IsInList_from (fuel : nat) (h : heap T) (p : ptr) (itm : T) : res bool :=
  match fuel with
  | O => OutOfFuel
  | S fuel =>
      match p with
      | None => Ok false
      | Some _ => e ← load h p;
          if decide (itm = item e) then Ok true else IsInList_from fuel h (next e) itm
      end
  end.
Definition IsInList (h : heap T) (l : CList) (itm : T) : res bool :=
  IsInList_from (walk_fuel h) h (first l) itm.

Definition Append (h : heap T) (l : CList) (itm : T) : res (heap T * CList) :=
  let '(element, h) := ListElement_new h itm in
  '(h, l) ← (if IsEmpty l then
               Ok (h, MkList (Some element) (Some element) (numInList l))
             else
               h ← set_next h (last l) (Some element);
               Ok (h, MkList (first l) (Some element) (numInList l)));
  let l := MkList (first l) (last l) (numInList l + 1) in
  b ← IsInList h l itm;
  _ ← ASSERT b;
  Ok (h, l).

Definition Prepend (h : heap T) (l : CList) (itm : T) : res (heap T * CList) :=
  let '(element, h) := ListElement_new h itm in
  b ← IsInList h l itm;
  _ ← ASSERT (negb b);
  '(h, l) ← (if IsEmpty l then
               Ok (h, MkList (Some element) (Some element) (numInList l))
             else
               h ← set_next h (Some element) (first l);
               Ok (h, MkList (Some element) (last l) (numInList l)));
  let l := MkList (first l) (last l) (numInList l + 1) in
  b ← IsInList h l itm;
  _ ← ASSERT b;
  Ok (h, l).

Definition RemoveFront (h : heap T) (l : CList) : res (T * heap T * CList) :=
  let element := first l in
  _ ← ASSERT (negb (IsEmpty l));
  e ← load h (first l);
  let thing := item e in
  a ← deref element;
  let l := if decide (first l = last l) then MkList None None (numInList l)
           else MkList (next e) (last l) (numInList l) in
  Ok (thing, delete a h, MkList (first l) (last l) (numInList l - 1)).

(** The search loop of [Remove]: [ptr == NULL] at its end fails the ASSERT after it. *)
Fixpoint Remove_loop (fuel : nat) (h : heap T) (l : CList) (prev p : ptr) (itm : T)
    : res (heap T * CList) :=
  match fuel with
  | O => OutOfFuel
  | S fuel =>
      match p with
      | None => AssertFail
      | Some a => e ← load h p;
          if decide (itm = item e) then
            h ← set_next h prev (next e);
            let l := if decide (next e = None) then MkList (first l) prev (numInList l) else l in
            Ok (delete a h, MkList (first l) (last l) (numInList l - 1))
          else Remove_loop fuel h l p (next e) itm
      end
  end.

Definition Remove (h : heap T) (l : CList) (itm : T) : res (heap T * CList) :=
  b ← IsInList h l itm;
  _ ← ASSERT b;
  e ← load h (first l);
  '(h, l) ← (if decide (itm = item e) then
               '(removed, h, l) ← RemoveFront h l;
               _ ← ASSERT (bool_decide (itm = removed));
               Ok (h, l)
             else Remove_loop (walk_fuel h) h l (first l) (next e) itm);
  b ← IsInList h l itm;
  _ ← ASSERT (negb b);
  Ok (h, l).

(** [Apply] with a function that only observes the item: the items it is called on. *)
Fixpoint Apply_from (fuel : nat) (h : heap T) (p : ptr) : res (list T) :=
  match fuel with
  | O => OutOfFuel
  | S fuel =>
      match p with
      | None => Ok []
      | Some _ => e ← load h p; xs ← Apply_from fuel h (next e); Ok (item e :: xs)
      end
  end.
Definition Apply (h : heap T) (l : CList) : res (list T) :=
  Apply_from (walk_fuel h) h (first l).

(** [findByComp], with the comparison already given its [data]. *)
Fixpoint findByComp_from (fuel : nat) (h : heap T) (p : ptr) (comp : T -> bool) : res (option T) :=
  match fuel with
  | O => OutOfFuel
  | S fuel =>
      match p with
      | None => Ok None
      | Some _ => e ← load h p;
          if comp (item e) then Ok (Some (item e)) else findByComp_from fuel h (next e) comp
      end
  end.
Definition findByComp (h : heap T) (l : CList) (comp : T -> bool) : res (option T) :=
  if IsEmpty l then Ok None else findByComp_from (walk_fuel h) h (first l) comp.

(** The counting loop of [SanityCheck]: from [first] to [last]. *)
Fixpoint SanityCheck_loop (fuel : nat) (h : heap T) (l : CList) (p : ptr) (numFound : Z) : res Z :=
  match fuel with
  | O => OutOfFuel
  | S fuel =>
      if decide (p = last l) then Ok numFound
      else
        let numFound := numFound + 1 in
        _ ← ASSERT (numFound <=? numInList l);
        e ← load h p;
        SanityCheck_loop fuel h l (next e) numFound
  end.
Definition SanityCheck (h : heap T) (l : CList) : res unit :=
  if decide (first l = None) then
    ASSERT ((numInList l =? 0) && bool_decide (last l = None))
  else if decide (first l = last l) then
    _ ← ASSERT (numInList l =? 1);
    e ← load h (last l);
    ASSERT (bool_decide (next e = None))
  else
    numFound ← SanityCheck_loop (walk_fuel h) h l (first l) 1;
    _ ← ASSERT (numFound =? numInList l);
    e ← load h (last l);
    ASSERT (bool_decide (next e = None)).

(** * SortedList *)

Context (compare : T -> T -> Z).

(** The loop of [Insert]: [Some] state when the item went in before a bigger one. *)
Fixpoint Insert_loop (fuel : nat) (h : heap T) (p : ptr) (element : addr) (itm : T)
    : res (option (heap T)) :=
  match fuel with
  | O => OutOfFuel
  | S fuel =>
      e ← load h p;
      match next e with
      | None => Ok None
      | Some _ =>
          e2 ← load h (next e);
          if decide (compare itm (item e2) < 0) then
            h ← set_next h (Some element) (next e);
            h ← set_next h p (Some element);
            Ok (Some h)
          else Insert_loop fuel h (next e) element itm
      end
  end.

(** The end of [Insert] on the paths that reach its last lines. *)
Definition Insert_finish (h : heap T) (l : CList) (itm : T) : res (heap T * CList) :=
  let l := MkList (first l) (last l) (numInList l + 1) in
  b ← IsInList h l itm;
  _ ← ASSERT b;
  Ok (h, l).

(** Where the new cell goes. *)
Definition Insert_cell (h : heap T) (l : CList) (element : addr) (itm : T) : res (heap T * CList) :=
  if IsEmpty l then Insert_finish h (MkList (Some element) (Some element) (numInList l)) itm
  else
    e ← load h (first l);
    if decide (compare itm (item e) < 0) then
      h ← set_next h (Some element) (first l);
      Insert_finish h (MkList (Some element) (last l) (numInList l)) itm
    else
      r ← Insert_loop (walk_fuel h) h (first l) element itm;
      match r with
      | Some h => Ok (h, MkList (first l) (last l) (numInList l + 1))
      | None =>
          h ← set_next h (last l) (Some element);
          Insert_finish h (MkList (first l) (Some element) (numInList l)) itm
      end.

Definition Insert (h : heap T) (l : CList) (itm : T) : res (heap T * CList) :=
  let '(element, h) := ListElement_new h itm in
  b ← IsInList h l itm;
  _ ← ASSERT (negb b);
  Insert_cell h l element itm.

Fixpoint Sorted_loop (fuel : nat) (h : heap T) (prev p : ptr) : res unit :=
  match fuel with
  | O => OutOfFuel
  | S fuel =>
      match p with
      | None => Ok tt
      | Some _ => e1 ← load h prev; e2 ← load h p;
          _ ← ASSERT (compare (item e1) (item e2) <=? 0);
          Sorted_loop fuel h p (next e2)
      end
  end.
Definition SortedSanityCheck (h : heap T) (l : CList) : res unit :=
  _ ← SanityCheck h l;
  if decide (first l = last l) then Ok tt
  else e ← load h (first l); Sorted_loop (walk_fuel h) h (first l) (next e).
End Ops.

(** * What a list stands for *)

Section Rep.
Context {T : Type} `{EqDecision T}.
Implicit Types (h : heap T) (l : CList) (xs : list T) (ls : list addr).

(** From [p], the cells [ls] hold the items [xs], the last one pointing to [q]. *)
Fixpoint chain h (p : ptr) ls xs (q : ptr) : Prop :=
  match ls, xs with
  | [], [] => p = q
  | a :: ls', x :: xs' => p = Some a /\ exists n, h !! a = Some (Elem n x) /\ chain h n ls' xs' q
  | _, _ => False
  end.

Record rep h l ls xs : Prop := {
  rep_chain : chain h (first l) ls xs None;
  rep_nodup : NoDup ls;
  rep_last : last l = list.last ls;
  rep_num : numInList l = Z.of_nat (length xs)
}.

Lemma chain_length h p ls xs q : chain h p ls xs q -> length ls = length xs.
Proof.
  revert p xs. induction ls as [|a ls IH]; intros p [|x xs] H; try done.
  destruct H as (_ & n & _ & H). simpl. f_equal. eauto.
Qed.

Lemma chain_dom h p ls xs q a : chain h p ls xs q -> a ∈ ls -> is_Some (h !! a).
Proof.
  revert p xs. induction ls as [|b ls IH]; intros p [|x xs] H Ha; try done; [by inversion Ha|].
  destruct H as (_ & n & Hb & H). apply elem_of_cons in Ha as [->|Ha]; eauto.
Qed.

Lemma chain_frame h h' p ls xs q :
  (forall a, a ∈ ls -> h' !! a = h !! a) -> chain h p ls xs q -> chain h' p ls xs q.
Proof.
  revert p xs. induction ls as [|b ls IH]; intros p [|x xs] Hf H; try done.
  destruct H as (-> & n & Hb & H). split; [done|]. exists n. rewrite Hf by left.
  split; [done|]. apply IH; [|done]. intros. apply Hf. by right.
Qed.

Lemma chain_app h p ls1 ls2 xs1 xs2 q : length ls1 = length xs1 ->
  chain h p (ls1 ++ ls2) (xs1 ++ xs2) q <->
  exists m, chain h p ls1 xs1 m /\ chain h m ls2 xs2 q.
Proof.
  revert p xs1. induction ls1 as [|a ls1 IH]; intros p [|x xs1] Hl; try done.
  - simpl. split; [eauto|]. by intros (m & -> & ?).
  - simpl in *. setoid_rewrite IH; [|lia]. naive_solver.
Qed.

(** A walk over distinct allocated cells is shorter than the heap. *)
Lemma chain_size h p ls xs q : chain h p ls xs q -> NoDup ls -> (length ls <= size h)%nat.
Proof.
  intros Hc Hnd. rewrite <- (size_list_to_set (C := gset addr) ls) by done.
  rewrite <- size_dom. apply subseteq_size. intros a Ha%elem_of_list_to_set.
  apply elem_of_dom. by eapply chain_dom.
Qed.

Lemma rep_empty h l ls xs : rep h l ls xs -> IsEmpty l = bool_decide (xs = []).
Proof.
  intros [_ _ _ Hn]. unfold IsEmpty. rewrite Hn. destruct xs; done.
Qed.

Lemma rep_frame h h' l ls xs :
  (forall a, a ∈ ls -> h' !! a = h !! a) -> rep h l ls xs -> rep h' l ls xs.
Proof. intros Hf [? ? ? ?]. constructor; eauto using chain_frame. Qed.

Lemma fresh_not_in h ls l xs : rep h l ls xs -> fresh (dom h) ∉ ls.
Proof.
  intros [Hc _ _ _] Hin. eapply chain_dom in Hc; [|done].
  apply elem_of_dom in Hc. by apply (is_fresh (dom h)).
Qed.

Lemma List_new_rep h : rep h List_new [] [].
Proof. constructor; try done. apply NoDup_nil_2. Qed.

(** ** Walks *)

Lemma load_Some h a e : h !! a = Some e -> load h (Some a) = Ok e.
Proof. intros E. unfold load. simpl. by rewrite E. Qed.

Lemma set_next_Some h a q n x :
  h !! a = Some (Elem n x) -> set_next h (Some a) q = Ok (<[a := Elem q x]> h).
Proof. intros E. unfold set_next. simpl. by rewrite E. Qed.

Lemma IsInList_from_chain fuel h p ls xs x :
  chain h p ls xs None -> (length ls < fuel)%nat ->
  IsInList_from fuel h p x = Ok (bool_decide (x ∈ xs)).
Proof.
  revert fuel p xs. induction ls as [|a ls IH]; intros [|fuel] p [|y xs] Hc Hf;
    simpl in Hc, Hf; try (done || lia); cbn [IsInList_from].
  - subst. rewrite bool_decide_false; [done|]. by inversion 1.
  - destruct Hc as (-> & n & Ha & Hc). rewrite (load_Some _ _ _ Ha).
    cbn [mbind res_bind item next]. case_decide as E.
    + rewrite bool_decide_true; [done|]. subst. left.
    + rewrite (IH _ _ xs) by (done || lia). f_equal. apply bool_decide_ext.
      rewrite elem_of_cons. naive_solver.
Qed.

Lemma rep_fuel h l ls xs : rep h l ls xs -> (length ls < walk_fuel h)%nat.
Proof. intros [Hc Hnd _ _]. pose proof (chain_size _ _ _ _ _ Hc Hnd). unfold walk_fuel. lia. Qed.

Lemma IsInList_rep h l ls xs x : rep h l ls xs -> IsInList h l x = Ok (bool_decide (x ∈ xs)).
Proof.
  intros Hr. unfold IsInList. pose proof (rep_fuel _ _ _ _ Hr). destruct Hr.
  by eapply IsInList_from_chain.
Qed.

Lemma Apply_rep h l ls xs : rep h l ls xs -> Apply h l = Ok xs.
Proof.
  intros Hr. unfold Apply. pose proof (rep_fuel _ _ _ _ Hr) as Hf. destruct Hr as [Hc _ _ _].
  revert Hf Hc. generalize (walk_fuel h) (first l). intros fuel.
  revert ls xs. induction fuel as [|fuel IH]; intros [|a ls] [|y xs] p Hf Hc;
    simpl in *; try (done || lia).
  - by subst.
  - destruct Hc as (-> & n & Ha & Hc). rewrite (load_Some _ _ _ Ha). simpl.
    by rewrite (IH ls xs) by (done || lia).
Qed.

Lemma findByComp_rep h l ls xs comp : rep h l ls xs ->
  findByComp h l comp = Ok (List.find comp xs).
Proof.
  intros Hr. unfold findByComp. rewrite (rep_empty _ _ _ _ Hr).
  case_bool_decide as E; [by subst|]. clear E.
  pose proof (rep_fuel _ _ _ _ Hr) as Hf. destruct Hr as [Hc _ _ _].
  revert Hf Hc. generalize (walk_fuel h) (first l). intros fuel.
  revert ls xs. induction fuel as [|fuel IH]; intros [|a ls] [|y xs] p Hf Hc;
    simpl in *; try (done || lia).
  - by subst.
  - destruct Hc as (-> & n & Ha & Hc). rewrite (load_Some _ _ _ Ha). simpl.
    destruct (comp y); [done|]. by rewrite (IH ls xs) by (done || lia).
Qed.

Lemma Front_rep h l ls x xs : rep h l ls (x :: xs) -> Front h l = Ok x.
Proof.
  intros [Hc _ _ _]. destruct ls as [|a ls]; [done|]. destruct Hc as (E & n & Ha & _).
  unfold Front. rewrite E, (load_Some _ _ _ Ha). done.
Qed.

Lemma Front_empty h l ls : rep h l ls [] -> Front h l = Undefined.
Proof.
  intros [Hc _ _ _]. destruct ls as [|a ls]; [|done]. simpl in Hc.
  unfold Front. by rewrite Hc.
Qed.

(** The last cell of a non-empty list. *)
Lemma rep_snoc h l ls xs : rep h l ls xs -> xs <> [] ->
  exists ls' b xs' y, ls = ls' ++ [b] /\ xs = xs' ++ [y] /\
    chain h (first l) ls' xs' (Some b) /\ h !! b = Some (Elem None y) /\
    last l = Some b /\ b ∉ ls' /\ NoDup ls' /\ length ls' = length xs'.
Proof.
  intros [Hc Hnd Hla Hn] Hne. destruct (exists_last Hne) as (xs' & y & ->).
  pose proof (chain_length _ _ _ _ _ Hc) as Hl. rewrite length_app in Hl. simpl in Hl.
  destruct (exists_last (l := ls)) as (ls' & b & ->); [by destruct ls; simpl in *; [lia|]|].
  rewrite length_app in Hl. simpl in Hl.
  apply chain_app in Hc as (m & Hc & -> & n & Hb & ->); [|lia].
  rewrite last_snoc in Hla. apply NoDup_app in Hnd as (Hnd & Hb' & _).
  exists ls', b, xs', y. split_and!; try done; [|lia]. intros ?. eapply Hb'; [done|]. by left.
Qed.

(** ** Refinement of the operations *)

(** The cells of everything else are left as they were. *)
Definition frame h ls h' : Prop := forall a, a ∈ dom h -> a ∉ ls -> h' !! a = h !! a.

Lemma rep_new_cell h l ls xs x : rep h l ls xs ->
  let h' := <[fresh (dom h) := Elem None x]> h in rep h' l ls xs.
Proof.
  intros Hr. apply (rep_frame h); [|done]. intros a Ha.
  rewrite lookup_insert_ne; [done|]. intros <-. by eapply fresh_not_in.
Qed.

(** Linking a new last cell behind the last one. *)
Lemma chain_link_last h l ls xs b y a x ls' xs' :
  chain h (first l) ls' xs' (Some b) -> h !! b = Some (Elem None y) ->
  ls = ls' ++ [b] -> xs = xs' ++ [y] -> b ∉ ls' -> length ls' = length xs' ->
  h !! a = Some (Elem None x) -> a ∉ ls ->
  chain (<[b := Elem (Some a) y]> h) (first l) (ls ++ [a]) (xs ++ [x]) None.
Proof.
  intros Hc Hb -> -> Hbl Hlen Ha Hal. rewrite <- !app_assoc.
  apply chain_app; [done|]. exists (Some b). split.
  - eapply chain_frame; [|done]. intros c Hcin. rewrite lookup_insert_ne; [done|]. by intros ->.
  - simpl. split; [done|]. exists (Some a). rewrite lookup_insert_eq. split; [done|].
    split; [done|]. exists None. rewrite lookup_insert_ne; [done|].
    intros ->. apply Hal. apply elem_of_app. right. by left.
Qed.

Lemma frame_new h ls x : frame h ls (<[fresh (dom h) := Elem None x]> h).
Proof.
  intros a Ha _. rewrite lookup_insert_ne; [done|]. intros <-. by apply (is_fresh (dom h)).
Qed.

Lemma frame_upd h h1 ls b e : frame h ls h1 -> b ∈ ls \/ b ∉ dom h -> frame h ls (<[b := e]> h1).
Proof.
  intros Hf Hb a Ha Hal. rewrite lookup_insert_ne; [by apply Hf|]. intros ->. by destruct Hb.
Qed.

Lemma NoDup_fresh h l ls xs : rep h l ls xs -> NoDup (ls ++ [fresh (dom h)]).
Proof.
  intros Hr. apply NoDup_app. split_and!; [by destruct Hr| |apply NoDup_singleton].
  intros a Ha ->%list_elem_of_singleton. by eapply fresh_not_in.
Qed.

Lemma Append_rep h l ls xs x : rep h l ls xs ->
  exists h' l' a, Append h l x = Ok (h', l') /\ rep h' l' (ls ++ [a]) (xs ++ [x]) /\
    frame h ls h' /\ a ∉ dom h.
Proof.
  intros Hr. unfold Append, ListElement_new.
  pose proof (rep_new_cell h l ls xs x Hr) as Hr1. simpl in Hr1.
  pose proof (NoDup_fresh _ _ _ _ Hr) as Hnd. pose proof (fresh_not_in _ _ _ _ Hr) as Hfr.
  pose proof (frame_new h ls x) as Hfm.
  assert (fresh (dom h) ∉ dom h) as Hfd by apply is_fresh. set (a := fresh (dom h)) in *.
  assert ((<[a:=Elem None x]> h) !! a = Some (Elem None x)) as Hla by apply lookup_insert_eq.
  set (h1 := <[a:=Elem None x]> h) in *. rewrite (rep_empty _ _ _ _ Hr).
  pose proof Hr1 as [Hc1 _ _ Hn1]. case_bool_decide as E.
  - subst xs. destruct ls; [|done]. simpl. simpl in Hn1.
    assert (rep h1 (MkList (Some a) (Some a) (numInList l + 1)) [a] [x]) as Hr2.
    { constructor; simpl; try done; [|lia]. split; [done|]. exists None. done. }
    rewrite (IsInList_rep _ _ _ _ _ Hr2), bool_decide_true by left. simpl. eauto 10.
  - destruct (rep_snoc _ _ _ _ Hr1 E) as (ls' & b & xs' & y & -> & -> & Hc & Hb & Hl & Hbl & _ & Hlen).
    rewrite Hl, (set_next_Some _ _ _ _ _ Hb). simpl.
    match goal with |- context [MkList ?f ?q ?n] => set (l2 := MkList f q n) end.
    assert (rep (<[b:=Elem (Some a) y]> h1) l2 ((ls' ++ [b]) ++ [a]) ((xs' ++ [y]) ++ [x])) as Hr2.
    { constructor; simpl; [eapply chain_link_last; eauto|done|by rewrite last_snoc|].
      rewrite Hn1, !length_app. simpl. lia. }
    rewrite (IsInList_rep _ _ _ _ _ Hr2), bool_decide_true.
    + simpl. do 3 eexists. split_and!; [done|exact Hr2| |done]. apply frame_upd; [done|].
      left. apply elem_of_app. right. by left.
    + apply elem_of_app. right. by left.
Qed.

Lemma Prepend_rep h l ls xs x : rep h l ls xs -> x ∉ xs ->
  exists h' l' a, Prepend h l x = Ok (h', l') /\ rep h' l' (a :: ls) (x :: xs) /\
    frame h ls h' /\ a ∉ dom h.
Proof.
  intros Hr Hx. unfold Prepend, ListElement_new.
  pose proof (rep_new_cell h l ls xs x Hr) as Hr1. simpl in Hr1.
  pose proof (fresh_not_in _ _ _ _ Hr) as Hfr.
  pose proof (frame_new h ls x) as Hfm.
  assert (fresh (dom h) ∉ dom h) as Hfd by apply is_fresh. set (a := fresh (dom h)) in *.
  assert ((<[a:=Elem None x]> h) !! a = Some (Elem None x)) as Hla by apply lookup_insert_eq.
  set (h1 := <[a:=Elem None x]> h) in *.
  rewrite (IsInList_rep _ _ _ _ _ Hr1), bool_decide_false by done. simpl.
  rewrite (rep_empty _ _ _ _ Hr). pose proof Hr1 as [Hc1 Hnd1 Hl1 Hn1]. case_bool_decide as E.
  - subst xs. destruct ls; [|done]. simpl. simpl in Hn1.
    assert (rep h1 (MkList (Some a) (Some a) (numInList l + 1)) [a] [x]) as Hr2.
    { constructor; simpl; try done; [|apply NoDup_singleton|lia]. split; [done|]. by exists None. }
    rewrite (IsInList_rep _ _ _ _ _ Hr2), bool_decide_true by left. simpl. eauto 10.
  - rewrite (set_next_Some _ _ _ _ _ Hla). simpl.
    match goal with |- context [MkList ?f ?q ?n] => set (l2 := MkList f q n) end.
    set (h2 := <[a:=Elem (first l) x]> h1).
    assert (rep h2 l2 (a :: ls) (x :: xs)) as Hr2.
    { constructor; simpl.
      - split; [done|]. exists (first l). unfold h2. rewrite lookup_insert_eq. split; [done|].
        eapply chain_frame; [|done]. intros b Hb. rewrite lookup_insert_ne; [done|]. by intros <-.
      - by apply NoDup_cons.
      - rewrite Hl1. destruct ls; [|done]. by destruct xs.
      - rewrite Hn1. lia. }
    rewrite (IsInList_rep _ _ _ _ _ Hr2), bool_decide_true by left. simpl.
    do 3 eexists. split_and!; [done|exact Hr2| |done]. apply frame_upd; [done|]. by right.
Qed.

Lemma Prepend_dup h l ls xs x : rep h l ls xs -> x ∈ xs -> Prepend h l x = AssertFail.
Proof.
  intros Hr Hx. unfold Prepend, ListElement_new.
  rewrite (IsInList_rep _ _ _ _ _ (rep_new_cell h l ls xs x Hr)), bool_decide_true by done. done.
Qed.

Lemma frame_delete h h1 ls b : frame h ls h1 -> b ∈ ls -> frame h ls (delete b h1).
Proof.
  intros Hf Hb a Ha Hal. rewrite lookup_delete_ne; [by apply Hf|]. by intros ->.
Qed.

Lemma frame_refl h ls : frame h ls h.
Proof. by intros a _ _. Qed.

Lemma RemoveFront_rep h l ls x xs : rep h l ls (x :: xs) ->
  exists h' l' a ls', RemoveFront h l = Ok (x, h', l') /\ ls = a :: ls' /\ rep h' l' ls' xs /\
    frame h ls h'.
Proof.
  intros [Hc Hnd Hl Hn]. destruct ls as [|a ls]; [done|].
  destruct Hc as (Hf & n & Ha & Hc). apply NoDup_cons in Hnd as [Hal Hnd].
  unfold RemoveFront, IsEmpty. rewrite Hn.
  replace (Z.of_nat (length (x :: xs)) =? 0) with false by (symmetry; apply Z.eqb_neq; simpl; lia).
  simpl. rewrite Hf, (load_Some _ _ _ Ha). simpl.
  do 4 eexists. split_and!; [done|done| |apply frame_delete; [apply frame_refl|left]].
  assert (chain (delete a h) n ls xs None) as Hc'.
  { eapply chain_frame; [|done]. intros b Hb. rewrite lookup_delete_ne; [done|]. by intros <-. }
  rewrite Hl. case_decide as E; constructor; simpl; try done; try (simpl in Hn; lia).
  - destruct ls as [|b ls]; [|exfalso; apply Hal; simpl in E].
    + destruct xs; [done|]. by apply chain_length in Hc.
    + rewrite <- (last_cons_cons a) in E. symmetry in E. rewrite last_cons_cons in E.
      by apply last_Some_elem_of in E.
  - destruct ls as [|b ls]; [done|]. exfalso. apply Hal. symmetry in E.
    rewrite last_cons_cons in E. by apply last_Some_elem_of in E.
  - destruct ls as [|b ls]; [done|]. by rewrite last_cons_cons.
Qed.

Lemma RemoveFront_empty h l ls : rep h l ls [] -> RemoveFront h l = AssertFail.
Proof. intros Hr. unfold RemoveFront. by rewrite (rep_empty _ _ _ _ Hr). Qed.

Fixpoint remove_first (x : T) (xs : list T) : list T :=
  match xs with
  | [] => []
  | y :: ys => if decide (x = y) then ys else y :: remove_first x ys
  end.

Lemma remove_first_perm (x : T) xs : x ∈ xs -> xs ≡ₚ x :: remove_first x xs.
Proof.
  induction xs as [|y xs IH]; [by intros Hx%not_elem_of_nil|]. intros Hx. cbn [remove_first]. case_decide as E; [by rewrite E|].
  apply elem_of_cons in Hx as [|Hx]; [done|]. rewrite (IH Hx) at 1. apply Permutation_swap.
Qed.

(** Unlinking the cell [a] behind [b]. *)
Lemma rep_unlink h l (l1 l3 : list addr) (a b : addr) (x1 x3 : list T) (x y : T) (n : ptr) : length l1 = length x1 ->
  rep h l (l1 ++ b :: a :: l3) (x1 ++ y :: x :: x3) ->
  h !! b = Some (Elem (Some a) y) -> h !! a = Some (Elem n x) ->
  rep (delete a (<[b := Elem n y]> h))
      (MkList (first l) (if decide (n = None) then Some b else last l) (numInList l - 1))
      (l1 ++ b :: l3) (x1 ++ y :: x3).
Proof.
  intros Hlen [Hc Hnd Hl Hn] Hb Ha.
  apply NoDup_app in Hnd as (Hnd1 & Hd & (Hb2 & (Ha2 & Hnd3)%NoDup_cons)%NoDup_cons).
  assert (a <> b) as Hab by (intros ->; apply Hb2; by left).
  apply chain_app in Hc as (m & Hc1 & -> & m' & Hb' & -> & m'' & Ha' & Hc3); [|done].
  simplify_eq. constructor; simpl.
  - apply chain_app; [done|]. exists (Some b). split.
    + eapply chain_frame; [|done]. intros c Hin.
      rewrite lookup_delete_ne, lookup_insert_ne; [done| |];
        intros ->; eapply Hd; eauto; set_solver.
    + split; [done|]. exists m''. rewrite lookup_delete_ne, lookup_insert_eq by done.
      split; [done|]. eapply chain_frame; [|done]. intros c Hin.
      rewrite lookup_delete_ne, lookup_insert_ne; [done| |]; set_solver.
  - apply NoDup_app. split_and!; [done|set_solver|]. apply NoDup_cons. set_solver.
  - rewrite Hl, !last_app, !last_cons. destruct l3 as [|c l3].
    + destruct x3; [|done]. simpl in Hc3. subst. by rewrite decide_True.
    + destruct x3; [done|]. destruct Hc3 as (-> & _). rewrite decide_False by done.
      rewrite !last_cons. by destruct (list.last l3).
  - rewrite Hn, !length_app. simpl. lia.
Qed.

Lemma Remove_loop_rep fuel h l (l1 : list addr) b (l2 : list addr) (x1 : list T) y (x2 : list T) p x :
  length l1 = length x1 -> rep h l (l1 ++ b :: l2) (x1 ++ y :: x2) ->
  h !! b = Some (Elem p y) -> chain h p l2 x2 None -> x ∈ x2 -> (length l2 < fuel)%nat ->
  exists h' l' ls', Remove_loop fuel h l (Some b) p x = Ok (h', l') /\
    rep h' l' ls' (x1 ++ y :: remove_first x x2) /\ frame h (l1 ++ b :: l2) h' /\
    ls' ⊆ l1 ++ b :: l2.
Proof.
  revert l1 b l2 x1 y x2 p. induction fuel as [|fuel IH];
    intros l1 b [|a l3] x1 y [|z x3] p Hlen Hr Hb Hc Hx Hf; simpl in Hc, Hf;
    try (done || lia); [by inversion Hx|].
  destruct Hc as (-> & n & Ha & Hc). cbn [Remove_loop].
  rewrite (load_Some _ _ _ Ha). cbn [mbind res_bind item next remove_first].
  case_decide as E.
  - subst z. rewrite (set_next_Some _ _ _ _ _ Hb). cbn [mbind res_bind].
    do 3 eexists. split_and!; [done| | |].
    + pose proof (rep_unlink h l l1 l3 a b x1 x3 x y n Hlen Hr Hb Ha) as Hr'.
      case_decide; exact Hr'.
    + apply frame_delete; [|set_solver]. apply frame_upd; [apply frame_refl|set_solver].
    + set_solver.
  - destruct (IH (l1 ++ [b]) a l3 (x1 ++ [y]) z x3 n) as (h' & l' & ls' & HE & Hr' & Hfm & Hs).
    + rewrite !length_app. simpl. lia.
    + by rewrite <- !app_assoc.
    + done.
    + done.
    + apply elem_of_cons in Hx as [->|]; done.
    + lia.
    + exists h', l', ls'. rewrite <- !app_assoc in *. done.
Qed.

Lemma Remove_rep h l ls xs x : rep h l ls xs ->
  match bool_decide (x ∈ xs), bool_decide (x ∈ remove_first x xs) with
  | true, false => exists h' l' ls', Remove h l x = Ok (h', l') /\
      rep h' l' ls' (remove_first x xs) /\ frame h ls h' /\ ls' ⊆ ls
  | _, _ => Remove h l x = AssertFail
  end.
Proof.
  intros Hr. unfold Remove. rewrite (IsInList_rep _ _ _ _ _ Hr). cbn [mbind res_bind].
  case_bool_decide as Hx; [|done]. cbn [ASSERT mbind res_bind].
  destruct xs as [|y xs]; [by inversion Hx|].
  assert (exists h' l' ls', (e ← load h (first l);
    (if decide (x = item e) then
       '(removed, h, l) ← RemoveFront h l; _ ← ASSERT (bool_decide (x = removed)); Ok (h, l)
     else Remove_loop (walk_fuel h) h l (first l) (next e) x)) = Ok (h', l') /\
    rep h' l' ls' (remove_first x (y :: xs)) /\ frame h ls h' /\ ls' ⊆ ls)
    as (h' & l' & ls' & HE & Hr' & Hfm & Hs).
  { pose proof (rep_fuel _ _ _ _ Hr) as Hfu. pose proof (RemoveFront_rep _ _ _ _ _ Hr) as Hrf.
    pose proof Hr as [Hc _ _ _]. destruct ls as [|a ls]; [done|].
    destruct Hc as (Hf & n & Ha & Hc). rewrite Hf, (load_Some _ _ _ Ha).
    cbn [mbind res_bind item next remove_first]. case_decide as E.
    - subst y. destruct Hrf as (h' & l' & a' & ls' & -> & [= <- <-] & Hr' & Hfm).
      cbn [mbind res_bind]. rewrite bool_decide_true by done. do 3 eexists.
      split_and!; [done..|set_solver].
    - apply (Remove_loop_rep _ h l [] a ls [] y xs); try done; [|simpl in Hfu; lia].
      apply elem_of_cons in Hx as [->|]; done. }
  destruct (load h (first l)) as [e| | | |]; try done. cbn [mbind res_bind] in HE |- *.
  rewrite HE. cbn [mbind res_bind]. rewrite (IsInList_rep _ _ _ _ _ Hr'). cbn [mbind res_bind].
  case_bool_decide; [done|]. simpl. eauto 10.
Qed.

(** ** The consistency check *)

Lemma SanityCheck_loop_rep fuel h l p (l2 : list addr) (x2 : list T) (k : Z) :
  chain h p l2 x2 None -> NoDup l2 -> l2 <> [] -> last l = list.last l2 ->
  k + Z.of_nat (length l2) - 1 = numInList l -> (length l2 <= fuel)%nat ->
  SanityCheck_loop fuel h l p k = Ok (numInList l).
Proof.
  revert p l2 x2 k. induction fuel as [|fuel IH]; intros p [|a l2] [|x x2] k Hc Hnd Hne Hl Hk Hf;
    simpl in Hf; try (done || lia).
  destruct Hc as (-> & n & Ha & Hc). cbn [SanityCheck_loop]. apply NoDup_cons in Hnd as [Hal Hnd].
  destruct l2 as [|b l2].
  - rewrite decide_True by done. simpl in Hk. f_equal. lia.
  - rewrite decide_False.
    2:{ rewrite Hl. rewrite last_cons_cons. intros E. symmetry in E.
        by apply last_Some_elem_of in E. }
    simpl in Hk. rewrite ASSERT_true by (apply Z.leb_le; lia). cbn [mbind res_bind].
    rewrite (load_Some _ _ _ Ha). cbn [mbind res_bind next].
    apply (IH n (b :: l2) x2); try done; cbn [length] in *; lia.
Qed.

Lemma SanityCheck_rep h l ls xs : rep h l ls xs -> SanityCheck h l = Ok tt.
Proof.
  intros Hr. pose proof (rep_fuel _ _ _ _ Hr) as Hf.
  pose proof Hr as [Hc Hnd Hl Hn]. unfold SanityCheck.
  destruct ls as [|a [|b ls]]; destruct xs as [|x [|y xs]];
    try done; try (apply chain_length in Hc; discriminate).
  - simpl in Hc, Hl, Hn. rewrite Hc, Hl, Hn. done.
  - destruct Hc as (Hfi & n & Ha & Hc). simpl in Hc, Hl, Hn. subst n. rewrite Hfi, Hl, Hn.
    simpl. rewrite decide_True by done. rewrite (load_Some _ _ _ Ha). done.
  - destruct (rep_snoc _ _ _ _ Hr) as (ls' & c & xs' & z & El & Ex & _ & Hcc & Hlc & _); [done|].
    pose proof Hc as (Hfi & _). rewrite decide_False by (by rewrite Hfi).
    rewrite decide_False.
    2:{ rewrite Hfi, Hl, last_cons_cons. intros E. symmetry in E.
        apply last_Some_elem_of in E. apply NoDup_cons in Hnd. tauto. }
    rewrite (SanityCheck_loop_rep _ h l (first l) (a :: b :: ls) (x :: y :: xs)); try done;
      [|rewrite Hn; apply chain_length in Hc; lia|lia].
    cbn [mbind res_bind]. rewrite Z.eqb_refl. rewrite Hlc, (load_Some _ _ _ Hcc). done.
Qed.

(** ** Sorted insertion *)

Context (compare : T -> T -> Z).

(** Before the first bigger item, so behind the equal ones. *)
Fixpoint insert_sorted (x : T) (xs : list T) : list T :=
  match xs with
  | [] => [x]
  | y :: ys => if decide (compare x y < 0) then x :: y :: ys else y :: insert_sorted x ys
  end.

(** Linking the cell [e] between [b] and its successor. *)
Lemma chain_link h p0 (l1 l2 : list addr) (b e : addr) (x1 x2 : list T) (x y : T) (p : ptr) :
  length l1 = length x1 -> NoDup (l1 ++ b :: l2) -> e ∉ l1 ++ b :: l2 ->
  chain h p0 (l1 ++ b :: l2) (x1 ++ y :: x2) None -> h !! b = Some (Elem p y) ->
  chain (<[b := Elem (Some e) y]> (<[e := Elem p x]> h)) p0
    (l1 ++ b :: e :: l2) (x1 ++ y :: x :: x2) None.
Proof.
  intros Hlen Hnd He Hc Hb.
  apply NoDup_app in Hnd as (Hnd1 & Hd & (Hb2 & Hnd2)%NoDup_cons).
  apply chain_app in Hc as (m & Hc1 & -> & m' & Hb' & Hc2); [|done]. simplify_eq.
  apply chain_app; [done|]. exists (Some b). split.
  - eapply chain_frame; [|done]. intros c Hin.
    rewrite !lookup_insert_ne; [done| |]; set_solver.
  - split; [done|]. exists (Some e). rewrite lookup_insert_eq. split; [done|].
    split; [done|]. exists m'. rewrite lookup_insert_ne, lookup_insert_eq by set_solver.
    split; [done|]. eapply chain_frame; [|done]. intros c Hin.
    rewrite !lookup_insert_ne; [done| |]; set_solver.
Qed.

Lemma Insert_loop_rep fuel h l (l1 : list addr) b (l2 : list addr) (x1 : list T) y (x2 : list T) p e x :
  length l1 = length x1 -> rep h l (l1 ++ b :: l2) (x1 ++ y :: x2) ->
  h !! b = Some (Elem p y) -> h !! e = Some (Elem None x) -> e ∉ l1 ++ b :: l2 ->
  (length l2 < fuel)%nat ->
  (exists h' ls', Insert_loop compare fuel h (Some b) e x = Ok (Some h') /\
     chain h' (first l) ls' (x1 ++ y :: insert_sorted x x2) None /\
     ls' ≡ₚ e :: l1 ++ b :: l2 /\ list.last ls' = last l /\
     frame h (e :: l1 ++ b :: l2) h') \/
  (Insert_loop compare fuel h (Some b) e x = Ok None /\ insert_sorted x x2 = x2 ++ [x]).
Proof.
  revert l1 b l2 x1 y x2 p. induction fuel as [|fuel IH];
    intros l1 b l2 x1 y x2 p Hlen Hr Hb He Hel Hf; [lia|].
  cbn [Insert_loop]. rewrite (load_Some _ _ _ Hb). cbn [mbind res_bind next].
  pose proof Hr as [Hc Hnd Hl Hn].
  pose proof Hc as (m & Hc1 & -> & m' & Hb' & Hc2)%chain_app; [|done]. simplify_eq.
  destruct l2 as [|a l2], x2 as [|z x2]; try done.
  { simpl in Hc2. subst. by right. }
  pose proof Hc2 as (-> & n & Ha & Hc3). rewrite (load_Some _ _ _ Ha).
  cbn [mbind res_bind item insert_sorted]. case_decide as E.
  - left. rewrite (set_next_Some _ _ _ _ _ He). cbn [mbind res_bind].
    rewrite (set_next_Some _ _ _ (Some a) y) by (rewrite lookup_insert_ne; [done|set_solver]).
    do 2 eexists. split_and!; [done|by apply chain_link| | |].
    + by rewrite <- Permutation_middle, (Permutation_middle l1), Permutation_swap, Permutation_middle.
    + rewrite Hl, !last_app, !last_cons. by destruct (list.last l2).
    + apply frame_upd; [|set_solver]. apply frame_upd; [apply frame_refl|set_solver].
  - destruct (IH (l1 ++ [b]) a l2 (x1 ++ [y]) z x2 n) as [(h' & ls' & HE & Hc' & Hp & Hla & Hfm)|[HE Hi]].
    + rewrite !length_app. simpl. lia.
    + by rewrite <- !app_assoc.
    + done.
    + done.
    + by rewrite <- !app_assoc.
    + simpl in Hf. lia.
    + left. exists h', ls'. rewrite <- !app_assoc in *. done.
    + right. rewrite Hi. done.
Qed.

Lemma insert_sorted_elem x xs : x ∈ insert_sorted x xs.
Proof.
  induction xs as [|y xs IH]; simpl; [by left|]. case_decide; [by left|by right].
Qed.

Lemma insert_sorted_length x xs : length (insert_sorted x xs) = S (length xs).
Proof. induction xs as [|y xs IH]; simpl; [done|]. case_decide; simpl; lia. Qed.

Lemma Insert_finish_rep h f q n ls xs x :
  let l := MkList f q (n + 1) in rep h l ls xs -> x ∈ xs ->
  Insert_finish h (MkList f q n) x = Ok (h, l).
Proof.
  intros l Hr Hx. unfold Insert_finish. simpl. fold l.
  rewrite (IsInList_rep _ _ _ _ _ Hr), bool_decide_true by done. done.
Qed.

Definition inserted h l ls xs (a : addr) x (r : res (heap T * CList)) : Prop :=
  exists h' l' ls', r = Ok (h', l') /\ rep h' l' ls' (insert_sorted x xs) /\
    frame h (a :: ls) h' /\ ls' ≡ₚ a :: ls.

Lemma Insert_cell_empty h l a x : rep h l [] [] -> h !! a = Some (Elem None x) ->
  inserted h l [] [] a x (Insert_cell compare h l a x).
Proof.
  intros Hr Ha. unfold Insert_cell. rewrite (rep_empty _ _ _ _ Hr), bool_decide_true by done.
  assert (rep h (MkList (Some a) (Some a) (numInList l + 1)) [a] [x]) as Hr2.
  { destruct Hr as [_ _ _ Hn]. constructor; simpl; [|apply NoDup_singleton|done|simpl in Hn; lia].
    split; [done|]. by exists None. }
  rewrite (Insert_finish_rep _ _ _ _ _ _ _ Hr2) by left.
  do 3 eexists. split_and!; [done|exact Hr2|apply frame_refl|done].
Qed.

Lemma Insert_cell_front h l b ls y xs a x : rep h l (b :: ls) (y :: xs) ->
  h !! a = Some (Elem None x) -> a ∉ b :: ls -> compare x y < 0 ->
  inserted h l (b :: ls) (y :: xs) a x (Insert_cell compare h l a x).
Proof.
  intros Hr Ha Hal Hlt. unfold Insert_cell. rewrite (rep_empty _ _ _ _ Hr), bool_decide_false by done.
  pose proof Hr as [Hc Hnd Hl Hn]. pose proof Hc as (Hfi & n & Hb & Hc2).
  rewrite Hfi, (load_Some _ _ _ Hb). cbn [mbind res_bind item]. rewrite decide_True by done.
  rewrite (set_next_Some _ _ _ _ _ Ha). cbn [mbind res_bind numInList first last].
  set (h2 := <[a:=Elem (Some b) x]> h).
  assert (rep h2 (MkList (Some a) (last l) (numInList l + 1)) (a :: b :: ls) (x :: y :: xs)) as Hr2.
  { constructor; simpl; [|by apply NoDup_cons|by rewrite Hl|rewrite Hn; simpl; lia].
    split; [done|]. exists (Some b). unfold h2. rewrite lookup_insert_eq. split; [done|].
    change (chain h2 (Some b) (b :: ls) (y :: xs) None). rewrite <- Hfi.
    eapply chain_frame; [|exact Hc].
    intros c Hin. unfold h2. rewrite lookup_insert_ne; [done|]. by intros <-. }
  rewrite (Insert_finish_rep _ _ _ _ _ _ _ Hr2) by left.
  unfold inserted. simpl. rewrite decide_True by done. do 3 eexists.
  split_and!; [done|exact Hr2| |done]. apply frame_upd; [apply frame_refl|left; left].
Qed.

Lemma Insert_cell_behind h l b ls y xs a x : rep h l (b :: ls) (y :: xs) ->
  h !! a = Some (Elem None x) -> a ∉ b :: ls -> ~ compare x y < 0 ->
  inserted h l (b :: ls) (y :: xs) a x (Insert_cell compare h l a x).
Proof.
  intros Hr Ha Hal Hge. unfold Insert_cell. rewrite (rep_empty _ _ _ _ Hr), bool_decide_false by done.
  pose proof Hr as [Hc Hnd Hl Hn]. pose proof Hc as (Hfi & n & Hb & Hc2).
  rewrite Hfi, (load_Some _ _ _ Hb). cbn [mbind res_bind item]. rewrite decide_False by done.
  unfold inserted. cbn [insert_sorted]. rewrite decide_False by done.
  destruct (Insert_loop_rep (walk_fuel h) h l [] b ls [] y xs n a x)
    as [(h' & ls' & HE & Hc' & Hp & Hla' & Hf')|[HE Hi]]; try done.
  { pose proof (rep_fuel _ _ _ _ Hr) as Hf. simpl in Hf. lia. }
  - rewrite HE. cbn [mbind res_bind]. do 3 eexists. split_and!; [done| |exact Hf'|exact Hp].
    constructor; simpl; [by rewrite <- Hfi|rewrite Hp; by apply NoDup_cons|done|].
    rewrite Hn, insert_sorted_length. simpl. lia.
  - rewrite HE. cbn [mbind res_bind]. rewrite Hi.
    destruct (rep_snoc _ _ _ _ Hr) as (l0 & c & x0 & z & El & Ex & Hc0 & Hcc & Hlc & Hcl & _ & Hlen);
      [done|].
    rewrite Hlc, (set_next_Some _ _ _ _ _ Hcc). cbn [mbind res_bind numInList first last].
    set (h2 := <[c:=Elem (Some a) z]> h).
    assert (rep h2 (MkList (Some b) (Some a) (numInList l + 1)) ((b :: ls) ++ [a]) ((y :: xs) ++ [x])) as Hr2.
    { constructor; simpl; [| |by rewrite app_comm_cons, last_snoc|rewrite Hn, length_app; simpl; lia].
      - change (chain h2 (Some b) ((b :: ls) ++ [a]) ((y :: xs) ++ [x]) None). rewrite <- Hfi.
        eapply (chain_link_last h l (b :: ls) (y :: xs)); eauto.
      - rewrite app_comm_cons. apply NoDup_app. split_and!; [done|set_solver|apply NoDup_singleton]. }
    change (y :: xs ++ [x]) with ((y :: xs) ++ [x]).
    rewrite (Insert_finish_rep _ _ _ _ _ _ _ Hr2) by set_solver. do 3 eexists.
    split_and!; [done|exact Hr2| |by rewrite Permutation_app_comm].
    apply frame_upd; [apply frame_refl|]. left. rewrite El. set_solver.
Qed.

Lemma Insert_rep h l ls xs x : rep h l ls xs -> x ∉ xs ->
  exists h' l' ls' a, Insert compare h l x = Ok (h', l') /\ rep h' l' ls' (insert_sorted x xs) /\
    frame h ls h' /\ a ∉ dom h /\ ls' ≡ₚ a :: ls.
Proof.
  intros Hr Hx. unfold Insert, ListElement_new.
  pose proof (rep_new_cell h l ls xs x Hr) as Hr1. simpl in Hr1.
  pose proof (fresh_not_in _ _ _ _ Hr) as Hfr. pose proof (frame_new h ls x) as Hfm.
  assert (fresh (dom h) ∉ dom h) as Hfd by apply is_fresh. set (a := fresh (dom h)) in *.
  assert ((<[a:=Elem None x]> h) !! a = Some (Elem None x)) as Hla by apply lookup_insert_eq.
  set (h1 := <[a:=Elem None x]> h) in *.
  rewrite (IsInList_rep _ _ _ _ _ Hr1), bool_decide_false by done. cbn [negb ASSERT mbind res_bind].
  assert (inserted h1 l ls xs a x (Insert_cell compare h1 l a x)) as (h' & l' & ls' & -> & Hr' & Hf & Hp).
  { destruct ls as [|b ls], xs as [|y xs]; try (by destruct Hr1).
    - by apply Insert_cell_empty.
    - destruct (decide (compare x y < 0)); [by apply Insert_cell_front|by apply Insert_cell_behind]. }
  exists h', l', ls', a. split_and!; try done. intros b Hb Hbl.
  rewrite Hf; [by apply Hfm| |]; set_solver.
Qed.

Lemma Insert_dup h l ls xs x : rep h l ls xs -> x ∈ xs -> Insert compare h l x = AssertFail.
Proof.
  intros Hr Hx. unfold Insert, ListElement_new.
  rewrite (IsInList_rep _ _ _ _ _ (rep_new_cell h l ls xs x Hr)), bool_decide_true by done. done.
Qed.
End Rep.

(** * The abstract list *)

Section Spec.
Context {T : Type} `{EqDecision T}.
Implicit Types (h : heap T) (l : CList) (xs : list T) (ls : list addr).

(** A call on a [List<T>], and what it answers. *)
Inductive op := OAppend (x : T) | OPrepend (x : T) | ORemoveFront | ORemove (x : T)
  | OFront | OIsInList (x : T) | ONumInList | OApply | OFindByComp (comp : T -> bool) | OSanityCheck.
Inductive out := RUnit | RItem (x : T) | RBool (b : bool) | RNum (n : Z) | RItems (xs : list T)
  | RFound (o : option T).

Definition step h l (o : op) : res (out * heap T * CList) :=
  match o with
  | OAppend x => '(h, l) ← Append h l x; Ok (RUnit, h, l)
  | OPrepend x => '(h, l) ← Prepend h l x; Ok (RUnit, h, l)
  | ORemoveFront => '(x, h, l) ← RemoveFront h l; Ok (RItem x, h, l)
  | ORemove x => '(h, l) ← Remove h l x; Ok (RUnit, h, l)
  | OFront => x ← Front h l; Ok (RItem x, h, l)
  | OIsInList x => b ← IsInList h l x; Ok (RBool b, h, l)
  | ONumInList => Ok (RNum (NumInList l), h, l)
  | OApply => xs ← Apply h l; Ok (RItems xs, h, l)
  | OFindByComp c => r ← findByComp h l c; Ok (RFound r, h, l)
  | OSanityCheck => _ ← SanityCheck h l; Ok (RUnit, h, l)
  end.

(** The same calls on a mathematical list.  [Prepend] requires the item to be absent,
    [Remove] requires it to occur exactly once, [RemoveFront] asserts and [Front]
    dereferences a first item. *)
Definition spec_step xs (o : op) : res (out * list T) :=
  match o with
  | OAppend x => Ok (RUnit, xs ++ [x])
  | OPrepend x => _ ← ASSERT (bool_decide (x ∉ xs)); Ok (RUnit, x :: xs)
  | ORemoveFront => match xs with x :: xs' => Ok (RItem x, xs') | [] => AssertFail end
  | ORemove x =>
      _ ← ASSERT (bool_decide (x ∈ xs));
      let xs' := remove_first x xs in
      _ ← ASSERT (bool_decide (x ∉ xs'));
      Ok (RUnit, xs')
  | OFront => match xs with x :: _ => Ok (RItem x, xs) | [] => Undefined end
  | OIsInList x => Ok (RBool (bool_decide (x ∈ xs)), xs)
  | ONumInList => Ok (RNum (Z.of_nat (length xs)), xs)
  | OApply => Ok (RItems xs, xs)
  | OFindByComp c => Ok (RFound (List.find c xs), xs)
  | OSanityCheck => Ok (RUnit, xs)
  end.

Fixpoint run h l (os : list op) : res (list out * heap T * CList) :=
  match os with
  | [] => Ok ([], h, l)
  | o :: os' =>
      '(r, h, l) ← step h l o; '(rs, h, l) ← run h l os'; Ok (r :: rs, h, l)
  end.
Fixpoint spec_run xs (os : list op) : res (list out * list T) :=
  match os with
  | [] => Ok ([], xs)
  | o :: os' => '(r, xs) ← spec_step xs o; '(rs, xs) ← spec_run xs os'; Ok (r :: rs, xs)
  end.

(** The list [l] holds [xs], and the cells [ks] of another list are not its own. *)
Definition owns h l (ks : list addr) xs : Prop :=
  exists ls, rep h l ls xs /\ (forall a, a ∈ ls -> a ∉ ks) /\ (forall a, a ∈ ks -> a ∈ dom h).

Lemma owns_step h l ks xs ls h' l' ls' xs' :
  rep h l ls xs -> (forall a, a ∈ ls -> a ∉ ks) -> (forall a, a ∈ ks -> a ∈ dom h) ->
  rep h' l' ls' xs' -> frame h ls h' -> (forall a, a ∈ ls' -> a ∈ ls \/ a ∉ dom h) ->
  owns h' l' ks xs' /\ forall a, a ∈ ks -> h' !! a = h !! a.
Proof.
  intros Hr Hd Hk Hr' Hf Hn.
  assert (forall a, a ∈ ks -> h' !! a = h !! a) as Hks.
  { intros a Ha. apply Hf; [by apply Hk|]. intros ?. by eapply Hd. }
  split; [|done]. exists ls'. split_and!; [done| |].
  - intros a Ha Hak. destruct (Hn a Ha) as [|Hnd]; [by eapply Hd|]. by apply Hnd, Hk.
  - intros a Ha. apply elem_of_dom. rewrite Hks by done. by apply elem_of_dom, Hk.
Qed.

(** One call refines the abstract one and leaves the cells [ks] alone. *)
Lemma list_step_refines h l ks xs o : owns h l ks xs ->
  match spec_step xs o with
  | Ok (r, xs') => exists h' l', step h l o = Ok (r, h', l') /\ owns h' l' ks xs' /\
      forall a, a ∈ ks -> h' !! a = h !! a
  | AssertFail => step h l o = AssertFail
  | Undefined => step h l o = Undefined
  | OutOfFuel | Exited => False
  end.
Proof.
  intros (ls & Hr & Hd & Hk).
  assert (owns h l ks xs) as Ho by (by exists ls).
  destruct o as [x|x| |x| |x| | |c|]; cbn [spec_step step].
  - destruct (Append_rep h l ls xs x Hr) as (h' & l' & a & -> & Hr' & Hf & Ha).
    do 2 eexists. split; [done|]. eapply owns_step; eauto. set_solver.
  - case_bool_decide as Hx; cbn [ASSERT mbind res_bind].
    + destruct (Prepend_rep h l ls xs x Hr Hx) as (h' & l' & a & -> & Hr' & Hf & Ha).
      do 2 eexists. split; [done|]. eapply owns_step; eauto. set_solver.
    + by rewrite (Prepend_dup h l ls xs x Hr Hx).
  - destruct xs as [|x xs]; [by rewrite (RemoveFront_empty h l ls)|].
    destruct (RemoveFront_rep h l ls x xs Hr) as (h' & l' & a & ls' & -> & -> & Hr' & Hf).
    do 2 eexists. split; [done|]. eapply owns_step; eauto. set_solver.
  - pose proof (Remove_rep h l ls xs x Hr) as H.
    case_bool_decide; cbn [ASSERT mbind res_bind]; [|by rewrite H].
    rewrite bool_decide_not. case_bool_decide; cbn [negb ASSERT mbind res_bind]; [by rewrite H|].
    destruct H as (h' & l' & ls' & -> & Hr' & Hf & Hs).
    do 2 eexists. split; [done|]. eapply owns_step; eauto.
  - destruct xs as [|x xs]; [by rewrite (Front_empty h l ls)|].
    rewrite (Front_rep h l ls x xs) by done. simpl. eauto.
  - rewrite (IsInList_rep h l ls xs) by done. cbn. eauto.
  - destruct Hr as [_ _ _ Hn]. unfold NumInList. rewrite Hn. eauto.
  - rewrite (Apply_rep h l ls xs) by done. cbn. eauto.
  - rewrite (findByComp_rep h l ls xs) by done. cbn. eauto.
  - rewrite (SanityCheck_rep h l ls xs) by done. cbn. eauto.
Qed.

Lemma list_run_refines h l ks xs os : owns h l ks xs ->
  match spec_run xs os with
  | Ok (rs, xs') => exists h' l', run h l os = Ok (rs, h', l') /\ owns h' l' ks xs' /\
      forall a, a ∈ ks -> h' !! a = h !! a
  | AssertFail => run h l os = AssertFail
  | Undefined => run h l os = Undefined
  | OutOfFuel | Exited => False
  end.
Proof.
  revert h l xs. induction os as [|o os IH]; intros h l xs Ho; cbn [run spec_run]; [eauto|].
  pose proof (list_step_refines h l ks xs o Ho) as H.
  destruct (spec_step xs o) as [[r xs']| | | |]; cbn [mbind res_bind]; [|by rewrite H..|done|done].
  destruct H as (h' & l' & -> & Ho' & Hk). cbn [mbind res_bind].
  specialize (IH h' l' xs' Ho').
  destruct (spec_run xs' os) as [[rs xs'']| | | |]; cbn [mbind res_bind]; [|by rewrite IH..|done|done].
  destruct IH as (h'' & l'' & -> & Ho'' & Hk'). do 2 eexists. split; [done|]. split; [done|].
  intros a Ha. by rewrite Hk', Hk.
Qed.
End Spec.
Arguments op T : clear implicits.
Arguments out T : clear implicits.

(** * The sorted list as a priority queue *)

(** The comparison orders items by an integer key, as [ThreadPriorityCompare] (by priority)
    and [PendingCompare] (by time) do. *)
Class KeyCompare {T} (compare : T -> T -> Z) (key : T -> Z) : Prop := {
  compare_lt x y : compare x y < 0 <-> key x < key y;
  compare_le x y : compare x y <= 0 <-> key x <= key y
}.

Section Sorted.
Context {T : Type} `{EqDecision T} (compare : T -> T -> Z) (key : T -> Z)
        {HK : KeyCompare compare key}.
Implicit Types (h : heap T) (l : CList) (xs : list T).

Definition sorted : list T -> Prop := StronglySorted (fun x y => key x <= key y).

(** Fills a list with [Insert], and empties it with [RemoveFront]. *)
Fixpoint insert_all h l xs : res (heap T * CList) :=
  match xs with
  | [] => Ok (h, l)
  | x :: xs' => '(h, l) ← Insert compare h l x; insert_all h l xs'
  end.
Fixpoint drain (fuel : nat) h l : res (list T) :=
  match fuel with
  | O => OutOfFuel
  | S fuel =>
      if IsEmpty l then Ok []
      else '(x, h, l) ← RemoveFront h l; xs ← drain fuel h l; Ok (x :: xs)
  end.

Lemma insert_sorted_perm x xs : insert_sorted compare x xs ≡ₚ x :: xs.
Proof.
  induction xs as [|y xs IH]; simpl; [done|]. case_decide; [done|].
  rewrite IH. by rewrite Permutation_swap.
Qed.

Lemma insert_sorted_sorted x xs : sorted xs -> sorted (insert_sorted compare x xs).
Proof.
  induction 1 as [|y xs Hs IH Hf]; simpl; [repeat constructor|].
  case_decide as E; rewrite (compare_lt x y) in E.
  - constructor; [by constructor|]. constructor; [lia|].
    eapply Forall_impl; [exact Hf|]. simpl. intros; lia.
  - constructor; [done|]. rewrite insert_sorted_perm. constructor; [lia|done].
Qed.

(** An item goes in behind the items of the same key. *)
Lemma insert_sorted_stable x xs k : sorted xs ->
  filter (fun y => key y = k) (insert_sorted compare x xs) =
  filter (fun y => key y = k) xs ++ filter (fun y => key y = k) [x].
Proof.
  induction 1 as [|y xs Hs IH Hf]; simpl; [done|].
  case_decide as E; rewrite (compare_lt x y) in E.
  - destruct (decide (key x = k)) as [Hk|Hk].
    + rewrite (list_filter_all_false _ (y :: xs)); [|constructor; [lia|]].
      * rewrite filter_cons, (list_filter_all_false _ (y :: xs)); [done|].
        constructor; [lia|]. eapply Forall_impl; [exact Hf|]. simpl; lia.
      * eapply Forall_impl; [exact Hf|]. simpl; lia.
    + rewrite !(filter_cons _ x), !decide_False by done. by rewrite filter_nil, app_nil_r.
  - rewrite !(filter_cons _ y), IH. by case_decide.
Qed.

Lemma insert_all_rep h l ls acc xs : rep h l ls acc -> sorted acc -> NoDup xs ->
  (forall x, x ∈ xs -> x ∉ acc) ->
  exists h' l' ls' ys, insert_all h l xs = Ok (h', l') /\ rep h' l' ls' ys /\ sorted ys /\
    ys ≡ₚ acc ++ xs /\
    forall k, filter (fun y => key y = k) ys = filter (fun y => key y = k) (acc ++ xs).
Proof.
  revert h l ls acc. induction xs as [|x xs IH]; intros h l ls acc Hr Hs Hnd Hx; simpl.
  { rewrite app_nil_r. do 4 eexists. split_and!; eauto. }
  apply NoDup_cons in Hnd as [Hxx Hnd].
  destruct (Insert_rep compare h l ls acc x Hr) as (h1 & l1 & ls1 & a & -> & Hr1 & _);
    [apply Hx; left|]. simpl.
  destruct (IH h1 l1 ls1 (insert_sorted compare x acc)) as (h2 & l2 & ls2 & ys & -> & Hr2 & Hs2 & Hp & Hst);
    [done|by apply insert_sorted_sorted|done| |].
  { intros z Hz. rewrite insert_sorted_perm. rewrite not_elem_of_cons.
    split; [by intros ->|]. apply Hx. by right. }
  exists h2, l2, ls2, ys. split_and!; try done.
  - rewrite Hp, insert_sorted_perm. by rewrite <- Permutation_middle.
  - intros k. rewrite Hst, !filter_app, insert_sorted_stable by done.
    rewrite <- app_assoc. f_equal. rewrite <- filter_app. done.
Qed.

Lemma drain_rep fuel h l ls xs : rep h l ls xs -> (length xs < fuel)%nat -> drain fuel h l = Ok xs.
Proof.
  revert h l ls xs. induction fuel as [|fuel IH]; intros h l ls xs Hr Hf; [lia|].
  simpl. rewrite (rep_empty _ _ _ _ Hr). destruct xs as [|x xs]; [done|].
  rewrite bool_decide_false by done.
  destruct (RemoveFront_rep _ _ _ _ _ Hr) as (h' & l' & a & ls' & -> & -> & Hr' & _). simpl.
  simpl in Hf. by rewrite (IH _ _ _ _ Hr') by lia.
Qed.

Lemma Sorted_loop_rep fuel h p q (ls : list addr) xs y n : chain h p ls xs None ->
  h !! q = Some (Elem n y) -> sorted (y :: xs) -> (length ls < fuel)%nat ->
  Sorted_loop compare fuel h (Some q) p = Ok tt.
Proof.
  revert p q ls xs y n. induction fuel as [|fuel IH]; intros p q [|a ls] [|x xs] y n Hc Hq Hs Hf;
    simpl in Hf; try (done || lia); cbn [Sorted_loop].
  - simpl in Hc. by subst.
  - destruct Hc as (-> & m & Ha & Hc). rewrite (load_Some _ _ _ Hq), (load_Some _ _ _ Ha).
    cbn [mbind res_bind item next]. apply StronglySorted_inv in Hs as [Hs Hall].
    rewrite ASSERT_true; [|apply Z.leb_le, (compare_le y x); by inversion Hall].
    apply (IH m a ls xs x m); try done. lia.
Qed.

Lemma SortedSanityCheck_rep h l ls xs : rep h l ls xs -> sorted xs ->
  SortedSanityCheck compare h l = Ok tt.
Proof.
  intros Hr Hs. unfold SortedSanityCheck. rewrite (SanityCheck_rep _ _ _ _ Hr). cbn [mbind res_bind].
  case_decide as E; [done|]. pose proof (rep_fuel _ _ _ _ Hr) as Hf. destruct Hr as [Hc Hnd Hl Hn].
  destruct ls as [|a ls], xs as [|x xs]; try done; [by rewrite Hc, Hl in E|].
  destruct Hc as (Hfi & n & Ha & Hc). rewrite Hfi, (load_Some _ _ _ Ha). cbn [mbind res_bind next].
  apply (Sorted_loop_rep _ _ _ _ ls xs x n); try done. simpl in Hf. lia.
Qed.
End Sorted.

(** * Properties *)

(** C30. The linked list implements a mathematical list: from an empty list object on any
    heap, every sequence of Append, Prepend, RemoveFront, Remove, Front, IsInList,
    NumInList, Apply, findByComp and SanityCheck calls answers as on a list, stops at an
    ASSERT or leaves defined behaviour exactly where the abstract list does, never runs
    in a cycle, and leaves any other list of the same heap as it was. *)
Theorem list_refines_sequence {T : Type} `{EqDecision T} (h : heap T) (other : CList)
    (ks : list addr) (ys : list T) (os : list (op T)) :
  rep h other ks ys ->
  match spec_run [] os with
  | Ok (rs, xs) => exists h' l, run h List_new os = Ok (rs, h', l) /\
      Apply h' l = Ok xs /\ SanityCheck h' l = Ok tt /\ Apply h' other = Ok ys
  | AssertFail => run h List_new os = AssertFail
  | Undefined => run h List_new os = Undefined
  | OutOfFuel | Exited => False
  end.
Proof.
  intros Hr. assert (owns h List_new ks []) as Ho.
  { exists []. split_and!; [apply List_new_rep|by inversion 1|].
    intros a Ha. apply elem_of_dom. destruct Hr. by eapply chain_dom. }
  pose proof (list_run_refines h List_new ks [] os Ho) as H.
  destruct (spec_run [] os) as [[rs xs]| | | |]; try done.
  destruct H as (h' & l & -> & (ls & Hr' & _) & Hk). exists h', l.
  split_and!; [done|by eapply Apply_rep|by eapply SanityCheck_rep|].
  eapply Apply_rep, rep_frame; [|exact Hr]. done.
Qed.

Definition witness_heap : heap Z := {[ 1%positive := Elem None 7 ]}.
Definition witness_list : CList := MkList (Some 1%positive) (Some 1%positive) 1.

Example list_refines_sequence_witness :
  rep witness_heap witness_list [1%positive] [7] /\
  exists h' l, run witness_heap List_new [OAppend 4; OPrepend 3; OAppend 5; ORemove 4; OApply]
    = Ok ([RUnit; RUnit; RUnit; RUnit; RItems [3; 5]], h', l) /\ Apply h' witness_list = Ok [7].
Proof.
  assert (rep witness_heap witness_list [1%positive] [7]) as Hr.
  { constructor; [|apply NoDup_singleton|reflexivity|reflexivity].
    split; [reflexivity|]. exists None. split; reflexivity. }
  split; [exact Hr|].
  destruct (list_refines_sequence witness_heap witness_list [1%positive] [7]
    [OAppend 4; OPrepend 3; OAppend 5; ORemove 4; OApply] Hr) as (h' & l & E & _ & _ & E2).
  exists h', l. split; assumption.
Defined.

(** C31. The sorted list is a stable priority queue: inserting distinct items, in any order,
    gives a list that passes SanityCheck, and taking them off the front returns all of
    them by increasing key, items of the same key in the order they were inserted. *)
Theorem sorted_list_stable_queue {T : Type} `{EqDecision T} (compare : T -> T -> Z) (key : T -> Z)
    (xs : list T) : KeyCompare compare key -> NoDup xs ->
  exists h l ys, insert_all compare ∅ List_new xs = Ok (h, l) /\
    SortedSanityCheck compare h l = Ok tt /\
    drain (S (length xs)) h l = Ok ys /\
    ys ≡ₚ xs /\ StronglySorted (fun x y => key x <= key y) ys /\
    forall k, filter (fun y => key y = k) ys = filter (fun y => key y = k) xs.
Proof.
  intros HK Hnd.
  destruct (insert_all_rep compare key ∅ List_new [] [] xs) as (h & l & ls & ys & -> & Hr & Hs & Hp & Hst);
    [apply List_new_rep|constructor|done|by inversion 2|].
  exists h, l, ys. split_and!; try done; [by eapply SortedSanityCheck_rep|].
  eapply drain_rep; [done|]. rewrite Hp. simpl. lia.
Qed.

Definition sign_compare (x y : Z * Z) : Z :=
  if decide (x.1 < y.1) then -1 else if decide (x.1 > y.1) then 1 else 0.

Example sorted_list_stable_queue_witness :
  KeyCompare sign_compare fst /\ NoDup [(2, 1); (1, 2); (2, 3)] /\
  exists h l ys, insert_all sign_compare ∅ List_new [(2, 1); (1, 2); (2, 3)] = Ok (h, l) /\
    drain 4 h l = Ok ys /\ ys ≡ₚ [(2, 1); (1, 2); (2, 3)].
Proof.
  assert (KeyCompare sign_compare fst) as HK.
  { split; intros x y; unfold sign_compare; repeat case_decide; lia. }
  assert (NoDup [(2, 1); (1, 2); (2, 3)]) as Hnd by (apply (bool_decide_unpack _); vm_compute; exact I).
  split; [exact HK|]. split; [exact Hnd|].
  destruct (sorted_list_stable_queue sign_compare fst _ HK Hnd) as (h & l & ys & E1 & _ & E2 & E3 & _).
  exists h, l, ys. split_and!; assumption.
Defined.

(** Append takes an item that is already there, but Remove then fails its last ASSERT. *)
Lemma append_twice_remove_aborts {T : Type} `{EqDecision T} (x : T) :
  run ∅ List_new [OAppend x; OAppend x; ORemove x] = AssertFail.
Proof.
  assert (owns (∅ : heap T) List_new [] []) as Ho.
  { exists []. split_and!; [apply List_new_rep|by inversion 1|by inversion 1]. }
  pose proof (list_run_refines ∅ List_new [] [] [OAppend x; OAppend x; ORemove x] Ho) as H.
  cbn [spec_run spec_step mbind res_bind app remove_first] in H.
  rewrite (bool_decide_true (x ∈ [x; x])) in H by left.
  cbn [ASSERT mbind res_bind] in H. rewrite decide_True in H by done.
  rewrite (bool_decide_false (x ∉ [x])) in H by (intros Hn; apply Hn; left). exact H.
Qed.

End CList.
