(* ===== verification/Disk.v ===== *)
(** Disk: the simulated disk device of src/code/machine/disk.h and disk.cc.

    The UNIX file behind the device (Sysdep.v has the file itself) is the map [data] from a sector number to the
    bytes stored at offset SectorSize * sector + MagicSize; a sector never written
    reads as zeros, as the hole in the file does.  A request returns the number of
    ticks after which the disk interrupt is scheduled. *)

From S2P Require Import Prelude.
From stdpp Require Import base numbers list gmap.
#[local] Open Scope Z_scope.

Module Disk.

Definition SectorSize : Z := 128.
Definition SectorsPerTrack : Z := 32.
Definition NumTracks : Z := 32.
Definition NumSectors : Z := SectorsPerTrack * NumTracks.

(** src/code/machine/stats.h *)
Definition RotationTime : Z := 500.
Definition SeekTime : Z := 500.

Record Disk := MkDisk {
  data : gmap Z (list Z);
  active : bool;
  lastSector : Z;
  bufferInit : Z
}.

Definition blank_sector : list Z := replicate (Z.to_nat SectorSize) 0.

(** The bytes of a sector of the UNIX file. *)
Definition file_sector (d : Disk) (s : Z) : list Z := default blank_sector (data d !! s).

(** [Disk::Disk]; the content is what the UNIX file holds. *)
Definition Disk_new (content : gmap Z (list Z)) : Disk := MkDisk content false 0 0.

(** [TimeToSeek]: the seek time and the rotation to the next sector boundary. *)
Definition TimeToSeek (d : Disk) (now newSector : Z) : Z * Z :=
  let newTrack := newSector /c SectorsPerTrack in
  let oldTrack := lastSector d /c SectorsPerTrack in
  let seek := Z.abs (newTrack - oldTrack) * SeekTime in
  let over := (now + seek) %c RotationTime in
  let rotation := if decide (over > 0) then RotationTime - over else 0 in
  (seek, rotation).

Definition ModuloDiff (to from : Z) : Z :=
  let toOffset := to %c SectorsPerTrack in
  let fromOffset := from %c SectorsPerTrack in
  ((toOffset - fromOffset) + SectorsPerTrack) %c SectorsPerTrack.

Definition ComputeLatency (d : Disk) (now newSector : Z) (writing : bool) : Z :=
  let '(seek, rotation) := TimeToSeek d now newSector in
  let timeAfter := now + seek + rotation in
  if negb writing && (seek =? 0) &&
     (ModuloDiff newSector (bufferInit d /c RotationTime) <? (timeAfter - bufferInit d) /c RotationTime)
  then RotationTime
  else
    let rotation := rotation + ModuloDiff newSector (timeAfter /c RotationTime) * RotationTime in
    seek + rotation + RotationTime.

Definition UpdateLast (d : Disk) (now newSector : Z) : Disk :=
  let '(seek, rotate) := TimeToSeek d now newSector in
  MkDisk (data d) (active d) newSector
    (if decide (seek <> 0) then now + seek + rotate else bufferInit d).

Definition sector_ok (s : Z) : bool := (0 <=? s) && (s <? NumSectors).

(** The bytes read, and the delay of the interrupt. *)
Definition ReadRequest (d : Disk) (now sectorNumber : Z) : res (list Z * Z * Disk) :=
  let ticks := ComputeLatency d now sectorNumber false in
  _ ← ASSERT (negb (active d));
  _ ← ASSERT (sector_ok sectorNumber);
  let bytes := file_sector d sectorNumber in
  let d := MkDisk (data d) true (lastSector d) (bufferInit d) in
  Ok (bytes, ticks, UpdateLast d now sectorNumber).

Definition WriteRequest (d : Disk) (now sectorNumber : Z) (bytes : list Z) : res (Z * Disk) :=
  let ticks := ComputeLatency d now sectorNumber true in
  _ ← ASSERT (negb (active d));
  _ ← ASSERT (sector_ok sectorNumber);
  let d := MkDisk (<[sectorNumber := bytes]> (data d)) true (lastSector d) (bufferInit d) in
  Ok (ticks, UpdateLast d now sectorNumber).

(** [CallBack], before it calls the object that waits for the request. *)
Definition CallBack (d : Disk) : Disk := MkDisk (data d) false (lastSector d) (bufferInit d).

#[global] Arguments UpdateLast : simpl never.
#[global] Arguments ComputeLatency : simpl never.
#[global] Arguments file_sector : simpl never.
#[global] Arguments NumSectors : simpl never.
#[global] Arguments blank_sector : simpl never.

(** * Lemmas *)

Lemma UpdateLast_data d now s : data (UpdateLast d now s) = data d.
Proof. unfold UpdateLast. by destruct (TimeToSeek d now s). Qed.
Lemma UpdateLast_active d now s : active (UpdateLast d now s) = active d.
Proof. unfold UpdateLast. by destruct (TimeToSeek d now s). Qed.
Lemma UpdateLast_last d now s : lastSector (UpdateLast d now s) = s.
Proof. unfold UpdateLast. by destruct (TimeToSeek d now s). Qed.

Lemma sector_ok_spec s : sector_ok s = true <-> 0 <= s < NumSectors.
Proof. unfold sector_ok. rewrite andb_true_iff. lia. Qed.
Lemma sector_ok_false s : sector_ok s = false <-> ~ (0 <= s < NumSectors).
Proof. rewrite <- sector_ok_spec. by destruct (sector_ok s). Qed.

(** Where the head is between requests. *)
Record geometry (d : Disk) (now : Z) : Prop := {
  geo_now : 0 <= now;
  geo_last : 0 <= lastSector d < NumSectors;
  geo_buffer : 0 <= bufferInit d
}.

Lemma track_bounds s : 0 <= s < NumSectors -> 0 <= s / 32 <= 31.
Proof.
  unfold NumSectors, SectorsPerTrack, NumTracks. intros ?.
  split; [apply Z.div_pos; lia|]. apply Z.lt_succ_r, Z.div_lt_upper_bound; lia.
Qed.

Lemma TimeToSeek_spec d now s : geometry d now -> 0 <= s < NumSectors ->
  exists seek rotation, TimeToSeek d now s = (seek, rotation) /\
    seek = Z.abs (s / 32 - lastSector d / 32) * 500 /\ 0 <= seek <= 15500 /\
    0 <= rotation < 500 /\ (now + seek + rotation) mod 500 = 0.
Proof.
  intros [Hn Hl _] Hs. pose proof (track_bounds _ Hs). pose proof (track_bounds _ Hl).
  unfold TimeToSeek, SectorsPerTrack, SeekTime, RotationTime.
  rewrite !Z.quot_div_nonneg by lia.
  set (seek := Z.abs (s / 32 - lastSector d / 32) * 500). assert (0 <= seek <= 15500) by lia.
  rewrite Z.rem_mod_nonneg by lia.
  pose proof (Z.mod_pos_bound (now + seek) 500 ltac:(lia)).
  pose proof (Z.div_mod (now + seek) 500 ltac:(lia)) as Hdm.
  set (over := (now + seek) mod 500) in *.
  exists seek, (if decide (over > 0) then 500 - over else 0).
  split_and!; [done|done|lia|lia|case_decide; lia|case_decide; lia|].
  case_decide.
  - replace (now + seek + (500 - over)) with (((now + seek) / 500 + 1) * 500) by lia.
    apply Z.mod_mul. lia.
  - replace (now + seek + 0) with (now + seek) by lia. lia.
Qed.

Lemma ModuloDiff_spec to from : 0 <= to -> 0 <= from ->
  0 <= ModuloDiff to from < 32 /\ (from + ModuloDiff to from) mod 32 = to mod 32.
Proof.
  intros. unfold ModuloDiff, SectorsPerTrack.
  rewrite (Z.rem_mod_nonneg to), (Z.rem_mod_nonneg from) by lia.
  pose proof (Z.mod_pos_bound to 32 ltac:(lia)). pose proof (Z.mod_pos_bound from 32 ltac:(lia)).
  rewrite Z.rem_mod_nonneg by lia. split; [apply Z.mod_pos_bound; lia|].
  rewrite Zplus_mod_idemp_r. rewrite (Z.div_mod from 32) at 1 by lia.
  replace (32 * (from / 32) + from mod 32 + (to mod 32 - from mod 32 + 32))
    with (to mod 32 + (from / 32 + 1) * 32) by lia.
  rewrite Z.mod_add by lia. apply Z.mod_mod. lia.
Qed.

(** * Properties *)



End Disk.
