(* ===== verification/Sysdep.v ===== *)
(** Sysdep: what the simulator asks of UNIX, src/code/lib/sysdep.cc, and the UNIX file that
    the disk keeps its sectors in, the constructor and the requests of src/code/machine/disk.cc.

    The UNIX calls are parameters ([Unix]); [DiskFile] states what open, read, write and lseek
    do to a regular file.  Disk.v models the disk with a map from sectors to bytes in place of
    the file; [unix_file_holds_disk] is the theorem that it may. *)

From S2P Require Import Prelude Disk.
From stdpp Require Import base numbers list gmap.
#[local] Open Scope Z_scope.

Module Sysdep.

(** A read returns its result and the bytes that it put into the buffer. *)
Class Unix (St : Type) := {
  u_open : list Z -> Z -> M St Z;
  u_read : Z -> Z -> M St (Z * list Z);
  u_write : Z -> list Z -> M St Z;
  u_lseek : Z -> Z -> Z -> M St Z;
  u_close : Z -> M St Z;
  u_unlink : list Z -> M St Z;
  u_select : Z -> M St Z;
  u_socket : M St Z;
  u_bind : Z -> list Z -> M St Z;
  u_sendto : Z -> list Z -> list Z -> M St Z;
  u_recvfrom : Z -> Z -> M St (Z * list Z);
  u_sleep : Z -> M St unit
}.

Definition O_RDWR : Z := 2.
Definition O_CREAT : Z := 0x40.
Definition O_TRUNC : Z := 0x200.
Definition SEEK_SET : Z := 0.
Definition SEEK_CUR : Z := 1.

Section Calls.
Context {St : Type} `{Unix St}.

Definition OpenForWrite (name : list Z) : M St Z :=
  fd ← u_open name (Z.lor (Z.lor O_RDWR O_CREAT) O_TRUNC); _ ← lift (ASSERT (fd >=? 0)); mret fd.

Definition OpenForReadWrite (name : list Z) (crashOnError : bool) : M St Z :=
  fd ← u_open name O_RDWR; _ ← lift (ASSERT (negb crashOnError || (fd >=? 0))); mret fd.

Definition Read (fd nBytes : Z) : M St (list Z) :=
  '(retVal, bytes) ← u_read fd nBytes; _ ← lift (ASSERT (retVal =? nBytes)); mret bytes.

Definition ReadPartial (fd nBytes : Z) : M St (Z * list Z) := u_read fd nBytes.

Definition WriteFile (fd : Z) (buffer : list Z) : M St unit :=
  retVal ← u_write fd buffer; lift (ASSERT (retVal =? Z.of_nat (length buffer))).

Definition Lseek (fd offset whence : Z) : M St unit := retVal ← u_lseek fd offset whence; lift (ASSERT (retVal >=? 0)).

Definition Tell (fd : Z) : M St Z := u_lseek fd 0 SEEK_CUR.

Definition Close (fd : Z) : M St Z := retVal ← u_close fd; _ ← lift (ASSERT (retVal >=? 0)); mret retVal.

(** The result is made a truth value. *)
Definition Unlink (name : list Z) : M St bool := r ← u_unlink name; mret (negb (r =? 0)).

(** [u_select]: the call of select with no waiting, on the one descriptor. *)
Definition PollFile (fd : Z) : M St bool :=
  retVal ← u_select fd; _ ← lift (ASSERT ((retVal =? 0) || (retVal =? 1))); mret (negb (retVal =? 0)).
Definition PollSocket (sockID : Z) : M St bool := PollFile sockID.

Definition ReadFromSocket (sockID packetSize : Z) : M St (list Z) :=
  '(retVal, bytes) ← u_recvfrom sockID packetSize; _ ← lift (ASSERT (retVal =? packetSize)); mret bytes.

(** A socket has the name of a UNIX file, which strcpy puts into the 108 bytes of [sun_path]. *)
Definition OpenSocket : M St Z := sockID ← u_socket; _ ← lift (ASSERT (sockID >=? 0)); mret sockID.
Definition CloseSocket (sockID : Z) : M St unit := _ ← u_close sockID; mret tt.
Definition InitSocketName (name : list Z) : M St (list Z) :=
  if Z.of_nat (length name) <? 108 then mret name else lift Undefined.
Definition AssignNameToSocket (socketName : list Z) (sockID : Z) : M St unit :=
  _ ← u_unlink socketName;
  uName ← InitSocketName socketName;
  retVal ← u_bind sockID uName; lift (ASSERT (retVal >=? 0)).
Definition DeAssignNameToSocket (socketName : list Z) : M St unit := _ ← u_unlink socketName; mret tt.

(** [for (retryCount = 0; retryCount < 10; retryCount++)] *)
Fixpoint send_retries (n : nat) (sockID : Z) (buffer toName : list Z) : M St unit :=
  match n with
  | O => mret tt
  | S n =>
      retVal ← u_sendto sockID buffer toName;
      if retVal =? Z.of_nat (length buffer) then mret tt
      else _ ← lift (ASSERT (retVal <? 0)); _ ← u_sleep 1; send_retries n sockID buffer toName
  end.
Definition SendToSocket (sockID : Z) (buffer toName : list Z) : M St unit :=
  uName ← InitSocketName toName; send_retries 10 sockID buffer uName.

(** * The file of the disk *)

Definition MagicNumber : Z := 0x456789ab.
Definition MagicSize : Z := 4.
Definition DiskSize : Z := MagicSize + Disk.NumSectors * Disk.SectorSize.

(** The part of Disk::Disk that opens the file; the result is [fileno]. *)
Definition open_disk (diskname : list Z) : M St Z :=
  fileno ← OpenForReadWrite diskname false;
  if fileno >=? 0 then
    magicNum ← Read fileno MagicSize;
    _ ← lift (ASSERT (bool_decide (magicNum = int_to_bytes MagicNumber))); mret fileno
  else
    fileno ← OpenForWrite diskname;
    _ ← WriteFile fileno (int_to_bytes MagicNumber);
    _ ← Lseek fileno (DiskSize - 4) SEEK_SET;
    _ ← WriteFile fileno (int_to_bytes 0); mret fileno.

(** The lines of ReadRequest and of WriteRequest that go to the file. *)
Definition read_sector (fileno sectorNumber : Z) : M St (list Z) :=
  _ ← Lseek fileno (Disk.SectorSize * sectorNumber + MagicSize) SEEK_SET; Read fileno Disk.SectorSize.
Definition write_sector (fileno sectorNumber : Z) (data : list Z) : M St unit :=
  _ ← Lseek fileno (Disk.SectorSize * sectorNumber + MagicSize) SEEK_SET; WriteFile fileno data.

(** * The disk on its file

    The fields of the disk other than the file are those of Disk.v, with no sectors in them. *)
Record HostDisk := MkHostDisk { fileno : Z; fields : Disk.Disk }.

Definition Disk_open (diskname : list Z) : M St HostDisk := fd ← open_disk diskname; mret (MkHostDisk fd (Disk.Disk_new ∅)).

Definition busy (now sectorNumber : Z) (h : HostDisk) : HostDisk :=
  let d := fields h in
  MkHostDisk (fileno h) (Disk.UpdateLast (Disk.MkDisk (Disk.data d) true (Disk.lastSector d) (Disk.bufferInit d)) now sectorNumber).

Definition ReadRequest (h : HostDisk) (now sectorNumber : Z) : M St (list Z * Z * HostDisk) :=
  let ticks := Disk.ComputeLatency (fields h) now sectorNumber false in
  _ ← lift (ASSERT (negb (Disk.active (fields h))));
  _ ← lift (ASSERT (Disk.sector_ok sectorNumber));
  data ← read_sector (fileno h) sectorNumber;
  mret (data, ticks, busy now sectorNumber h).

Definition WriteRequest (h : HostDisk) (now sectorNumber : Z) (data : list Z) : M St (Z * HostDisk) :=
  let ticks := Disk.ComputeLatency (fields h) now sectorNumber true in
  _ ← lift (ASSERT (negb (Disk.active (fields h))));
  _ ← lift (ASSERT (Disk.sector_ok sectorNumber));
  _ ← write_sector (fileno h) sectorNumber data;
  mret (ticks, busy now sectorNumber h).

(** The words that PrintSector shows. *)
Definition PrintSector (data : list Z) : list Z := take (Z.to_nat (Disk.SectorSize / 4)) (bytes_to_ints data).

Definition Disk_close (h : HostDisk) : M St unit := _ ← Close (fileno h); mret tt.

Definition CallBack (h : HostDisk) : HostDisk := MkHostDisk (fileno h) (Disk.CallBack (fields h)).

(** What is done with a disk: requests at some time, the disk interrupt, and a new run of the
    simulator on the same file. *)
Inductive op := ORead (now i : Z) | OWrite (now i : Z) (bytes : list Z) | ODone | OReopen.
Inductive answer := ABytes (bytes : list Z) (ticks : Z) | ATicks (ticks : Z) | ANone.

Definition host_step (diskname : list Z) (h : HostDisk) (o : op) : M St (answer * HostDisk) :=
  match o with
  | ORead now i => '(b, t, h) ← ReadRequest h now i; mret (ABytes b t, h)
  | OWrite now i b => '(t, h) ← WriteRequest h now i b; mret (ATicks t, h)
  | ODone => mret (ANone, CallBack h)
  | OReopen => h ← Disk_open diskname; mret (ANone, h)
  end.

Fixpoint host_run (diskname : list Z) (h : HostDisk) (os : list op) : M St (list answer) :=
  match os with [] => mret [] | o :: os' => '(a, h) ← host_step diskname h o; l ← host_run diskname h os'; mret (a :: l) end.
End Calls.

(** The same on the disk of Disk.v. *)
Definition disk_step (d : Disk.Disk) (o : op) : res (answer * Disk.Disk) :=
  match o with
  | ORead now i => '(b, t, d) ← Disk.ReadRequest d now i; Ok (ABytes b t, d)
  | OWrite now i b => '(t, d) ← Disk.WriteRequest d now i b; Ok (ATicks t, d)
  | ODone => Ok (ANone, Disk.CallBack d)
  | OReopen => Ok (ANone, Disk.Disk_new (Disk.data d))
  end.
Fixpoint disk_run (d : Disk.Disk) (os : list op) : res (list answer) :=
  match os with [] => Ok [] | o :: os' => '(a, d) ← disk_step d o; l ← disk_run d os'; Ok (a :: l) end.

(** * What UNIX does *)

(** Writing behind the end of a file fills the gap with zeros. *)
Definition put (offset : nat) (bytes file : list Z) : list Z := splice offset bytes (file ++ replicate (offset - length file) 0).

(** The file of a name: its contents if it exists, and the position of a descriptor that is
    open on it. *)
Class DiskFile (St : Type) `{Unix St} (name : list Z) := {
  file : St -> option (list Z);
  position : St -> Z -> option nat;
  open_law s : match file s with
    | None => exists fd s', u_open name O_RDWR s = Ok (fd, s') /\ fd < 0 /\ file s' = None
    | Some b => exists fd s', u_open name O_RDWR s = Ok (fd, s') /\ 0 <= fd /\ file s' = Some b /\ position s' fd = Some O
    end;
  creat_law s : exists fd s', u_open name (Z.lor (Z.lor O_RDWR O_CREAT) O_TRUNC) s = Ok (fd, s') /\ 0 <= fd /\
    file s' = Some [] /\ position s' fd = Some O;
  read_law s fd b o n : file s = Some b -> position s fd = Some o ->
    let bytes := slice o (Z.to_nat n) b in
    exists s', u_read fd n s = Ok ((Z.of_nat (length bytes), bytes), s') /\ file s' = Some b /\ position s' fd = Some (o + length bytes)%nat;
  write_law s fd b o bytes : file s = Some b -> position s fd = Some o ->
    exists s', u_write fd bytes s = Ok (Z.of_nat (length bytes), s') /\ file s' = Some (put o bytes b) /\ position s' fd = Some (o + length bytes)%nat;
  lseek_law s fd b o off : file s = Some b -> position s fd = Some o -> 0 <= off ->
    exists s', u_lseek fd off SEEK_SET s = Ok (off, s') /\ file s' = Some b /\ position s' fd = Some (Z.to_nat off)
}.

(** A file that holds the sectors [d] of a disk. *)
Record holds (b : list Z) (d : gmap Z (list Z)) : Prop := {
  h_length : Z.of_nat (length b) = DiskSize;
  h_magic : slice 0 4 b = int_to_bytes MagicNumber;
  h_sector i : 0 <= i < Disk.NumSectors ->
    slice (Z.to_nat (Disk.SectorSize * i + MagicSize)) (Z.to_nat Disk.SectorSize) b = default Disk.blank_sector (d !! i)
}.

Section File.
Context {St : Type} `{Unix St} (name : list Z) `{!DiskFile St name}.
Implicit Types (s : St) (b : list Z) (d : gmap Z (list Z)).

Lemma put_length o bytes b : length (put o bytes b) = Nat.max (length b) (o + length bytes).
Proof. unfold put, splice. rewrite !length_app, length_take, length_drop, !length_app, length_replicate. lia. Qed.

(** Reading what was written, and what was not. *)
Lemma slice_put_same o bytes b : slice o (length bytes) (put o bytes b) = bytes.
Proof.
  unfold slice, put, splice. rewrite drop_app_length'; [by rewrite take_app_length|].
  rewrite length_take, length_app, length_replicate. lia.
Qed.

Lemma slice_put_other o bytes b o' n : (o + length bytes <= length b)%nat -> (o' + n <= o \/ o + length bytes <= o')%nat ->
  slice o' n (put o bytes b) = slice o' n b.
Proof.
  intros Hl Ho. unfold put. replace (o - length b)%nat with O by lia. cbn [replicate]. rewrite app_nil_r.
  apply list_eq. intros i. destruct (decide (i < n)%nat).
  - rewrite !lookup_slice by done. apply lookup_splice_out; lia.
  - rewrite !lookup_ge_None_2; [done|rewrite slice_length; lia..].
Qed.

(** The calls of sysdep.cc on the disk's file. *)
Lemma Lseek_ok s fd b o off : file s = Some b -> position s fd = Some o -> 0 <= off ->
  exists s', Lseek fd off SEEK_SET s = Ok (tt, s') /\ file s' = Some b /\ position s' fd = Some (Z.to_nat off).
Proof.
  intros Hb Ho Hoff. destruct (lseek_law s fd b o off Hb Ho Hoff) as (s' & E & Hb' & Ho'). exists s'. split; [|done].
  unfold Lseek. erewrite bind_M_Ok by exact E. rewrite ASSERT_true by (apply Z.geb_le; lia). done.
Qed.

Lemma Read_bytes s fd b o n : file s = Some b -> position s fd = Some o -> 0 <= n -> (o + Z.to_nat n <= length b)%nat ->
  exists s', Read fd n s = Ok (slice o (Z.to_nat n) b, s') /\ file s' = Some b /\ position s' fd = Some (o + Z.to_nat n)%nat.
Proof.
  intros Hb Ho Hn Hl. destruct (read_law s fd b o n Hb Ho) as (s' & E & Hb' & Ho').
  assert (length (slice o (Z.to_nat n) b) = Z.to_nat n) as Hs by (rewrite slice_length; lia). rewrite Hs in *.
  exists s'. split; [|done]. unfold Read. erewrite bind_M_Ok by exact E. cbn beta iota. rewrite Z2Nat.id, Z.eqb_refl by done. done.
Qed.

Lemma WriteFile_ok s fd b o bytes : file s = Some b -> position s fd = Some o ->
  exists s', WriteFile fd bytes s = Ok (tt, s') /\ file s' = Some (put o bytes b) /\ position s' fd = Some (o + length bytes)%nat.
Proof.
  intros Hb Ho. destruct (write_law s fd b o bytes Hb Ho) as (s' & E & Hb' & Ho'). exists s'. split; [|done].
  unfold WriteFile. erewrite bind_M_Ok by exact E. by rewrite Z.eqb_refl.
Qed.

Definition sector_offset (i : Z) : Z := Disk.SectorSize * i + MagicSize.

Lemma sector_bounds b d i : holds b d -> 0 <= i < Disk.NumSectors ->
  0 <= sector_offset i /\ (4 <= Z.to_nat (sector_offset i))%nat /\ (Z.to_nat (sector_offset i) + Z.to_nat Disk.SectorSize <= length b)%nat.
Proof.
  intros [Hl _ _] Hi. revert Hl Hi. unfold sector_offset, DiskSize, MagicSize, Disk.NumSectors, Disk.SectorsPerTrack, Disk.NumTracks, Disk.SectorSize. lia.
Qed.

Lemma read_sector_ok s fd b d o i : file s = Some b -> position s fd = Some o -> holds b d -> 0 <= i < Disk.NumSectors ->
  exists s' o', read_sector fd i s = Ok (default Disk.blank_sector (d !! i), s') /\ file s' = Some b /\ position s' fd = Some o'.
Proof.
  intros Hb Ho Hh Hi. destruct (sector_bounds b d i Hh Hi) as (H0 & _ & Hl).
  destruct (Lseek_ok s fd b o _ Hb Ho H0) as (s1 & E1 & Hb1 & Ho1).
  destruct (Read_bytes s1 fd b _ Disk.SectorSize Hb1 Ho1) as (s2 & E2 & Hb2 & Ho2); [done|done|].
  exists s2. eexists. split_and!; [|done|exact Ho2]. unfold read_sector. fold (sector_offset i). erewrite bind_M_Ok by exact E1.
  pose proof (h_sector _ _ Hh i Hi) as Es. fold (sector_offset i) in Es. by rewrite E2, Es.
Qed.

Lemma holds_write b d i bytes : holds b d -> 0 <= i < Disk.NumSectors -> Z.of_nat (length bytes) = Disk.SectorSize ->
  holds (put (Z.to_nat (sector_offset i)) bytes b) (<[i := bytes]> d).
Proof.
  intros Hh Hi Hbytes. destruct (sector_bounds b d i Hh Hi) as (H0 & H4 & Hl). pose proof Hh as [Hlen Hmagic Hsec].
  assert (length bytes = Z.to_nat Disk.SectorSize) as Hn by lia. split.
  - rewrite put_length. unfold DiskSize in *. lia.
  - rewrite slice_put_other by lia. done.
  - intros j Hj. fold (sector_offset j). destruct (decide (j = i)) as [->|Nj].
    + rewrite <- Hn, slice_put_same, lookup_insert_eq. done.
    + rewrite slice_put_other, lookup_insert_ne by (done || (revert Hn Hl; unfold sector_offset, Disk.SectorSize, MagicSize in *; lia)). by apply Hsec.
Qed.

Lemma write_sector_ok s fd b d o i bytes : file s = Some b -> position s fd = Some o -> holds b d -> 0 <= i < Disk.NumSectors ->
  Z.of_nat (length bytes) = Disk.SectorSize ->
  exists s' b' o', write_sector fd i bytes s = Ok (tt, s') /\ file s' = Some b' /\ position s' fd = Some o' /\ holds b' (<[i := bytes]> d).
Proof.
  intros Hb Ho Hh Hi Hbytes. destruct (sector_bounds b d i Hh Hi) as (H0 & _ & Hl).
  destruct (Lseek_ok s fd b o _ Hb Ho H0) as (s1 & E1 & Hb1 & Ho1).
  destruct (WriteFile_ok s1 fd b _ bytes Hb1 Ho1) as (s2 & E2 & Hb2 & Ho2).
  exists s2. do 2 eexists. split_and!; [|exact Hb2|exact Ho2|by apply holds_write].
  unfold write_sector. fold (sector_offset i). by erewrite bind_M_Ok by exact E1.
Qed.

(** Disk::Disk on the file: a new file gets the magic number and is as long as the disk; an
    existing one is taken if it has the number. *)
Lemma put_gap (m : list Z) k : put (length m + k) (replicate 4 0) m = m ++ replicate (k + 4) 0.
Proof.
  unfold put, splice. rewrite Nat.add_comm, Nat.add_sub, Nat.add_comm.
  assert (length (m ++ replicate k 0) = (length m + k)%nat) as El by (by rewrite length_app, length_replicate).
  rewrite take_ge, drop_ge by (rewrite ?length_replicate; lia). rewrite app_nil_r, <- app_assoc, <- replicate_add. done.
Qed.

Lemma new_file : put (Z.to_nat (DiskSize - 4)) (int_to_bytes 0) (put 0 (int_to_bytes MagicNumber) []) =
  int_to_bytes MagicNumber ++ replicate (Z.to_nat (Disk.NumSectors * Disk.SectorSize)) 0.
Proof.
  change (put 0 (int_to_bytes MagicNumber) []) with (int_to_bytes MagicNumber). change (int_to_bytes 0) with (replicate 4 0).
  pose proof (put_gap (int_to_bytes MagicNumber) (Z.to_nat (DiskSize - 8))) as E. rewrite int_to_bytes_length in E.
  replace (4 + Z.to_nat (DiskSize - 8))%nat with (Z.to_nat (DiskSize - 4)) in E
    by (unfold DiskSize, MagicSize, Disk.NumSectors, Disk.SectorsPerTrack, Disk.NumTracks, Disk.SectorSize; lia).
  replace (Z.to_nat (DiskSize - 8) + 4)%nat with (Z.to_nat (Disk.NumSectors * Disk.SectorSize)) in E
    by (unfold DiskSize, MagicSize, Disk.NumSectors, Disk.SectorsPerTrack, Disk.NumTracks, Disk.SectorSize; lia).
  exact E.
Qed.

Lemma new_file_holds : holds (put (Z.to_nat (DiskSize - 4)) (int_to_bytes 0) (put 0 (int_to_bytes MagicNumber) [])) ∅.
Proof.
  rewrite new_file. split.
  - rewrite length_app, length_replicate, int_to_bytes_length. unfold DiskSize, MagicSize, Disk.NumSectors, Disk.SectorsPerTrack, Disk.NumTracks, Disk.SectorSize. lia.
  - reflexivity.
  - intros i Hi. rewrite lookup_empty. unfold slice.
    replace (Z.to_nat (Disk.SectorSize * i + MagicSize)) with (length (int_to_bytes MagicNumber) + Z.to_nat (Disk.SectorSize * i))%nat
      by (rewrite int_to_bytes_length; unfold Disk.SectorSize, MagicSize; lia).
    rewrite drop_app_add, drop_replicate, take_replicate. unfold Disk.blank_sector. cbn [default]. f_equal.
    revert Hi. unfold Disk.NumSectors, Disk.SectorsPerTrack, Disk.NumTracks, Disk.SectorSize. lia.
Qed.

Lemma open_disk_new s : file s = None -> exists fd s' b o, open_disk name s = Ok (fd, s') /\ file s' = Some b /\ position s' fd = Some o /\ holds b ∅.
Proof.
  intros Hf. pose proof (open_law s) as Hopen. rewrite Hf in Hopen. destruct Hopen as (fd & s1 & E1 & Hfd & Hf1).
  destruct (creat_law s1) as (fd2 & s2 & E2 & Hfd2 & Hf2 & Ho2).
  assert (OpenForReadWrite name false s = Ok (fd, s1)) as EO by (unfold OpenForReadWrite; by erewrite bind_M_Ok by exact E1).
  assert (OpenForWrite name s1 = Ok (fd2, s2)) as EW.
  { unfold OpenForWrite. erewrite bind_M_Ok by exact E2. by rewrite ASSERT_true by (apply Z.geb_le; lia). }
  destruct (WriteFile_ok s2 fd2 [] 0 (int_to_bytes MagicNumber) Hf2 Ho2) as (s3 & E3 & Hf3 & Ho3).
  destruct (Lseek_ok s3 fd2 _ _ (DiskSize - 4) Hf3 Ho3) as (s4 & E4 & Hf4 & Ho4); [by vm_compute|].
  destruct (WriteFile_ok s4 fd2 _ _ (int_to_bytes 0) Hf4 Ho4) as (s5 & E5 & Hf5 & Ho5).
  exists fd2, s5. do 2 eexists. split_and!; [|exact Hf5|exact Ho5|exact new_file_holds].
  unfold open_disk. erewrite bind_M_Ok by exact EO. rewrite Z.geb_leb, (proj2 (Z.leb_gt 0 fd)) by done.
  erewrite bind_M_Ok by exact EW. erewrite bind_M_Ok by exact E3. erewrite bind_M_Ok by exact E4. by erewrite bind_M_Ok by exact E5.
Qed.

Lemma open_disk_old s b d : file s = Some b -> holds b d ->
  exists fd s' o, open_disk name s = Ok (fd, s') /\ file s' = Some b /\ position s' fd = Some o.
Proof.
  intros Hf Hh. pose proof (open_law s) as Hopen. rewrite Hf in Hopen. destruct Hopen as (fd & s1 & E1 & Hfd & Hf1 & Ho1).
  assert (OpenForReadWrite name false s = Ok (fd, s1)) as EO by (unfold OpenForReadWrite; by erewrite bind_M_Ok by exact E1).
  destruct (Read_bytes s1 fd b 0 MagicSize Hf1 Ho1) as (s2 & E2 & Hf2 & Ho2); [done|pose proof (h_length _ _ Hh) as Hl; revert Hl; unfold DiskSize, MagicSize, Disk.NumSectors, Disk.SectorsPerTrack, Disk.NumTracks, Disk.SectorSize; lia|].
  exists fd, s2. eexists. split_and!; [|exact Hf2|exact Ho2].
  unfold open_disk. erewrite bind_M_Ok by exact EO. rewrite (proj2 (Z.geb_le fd 0)) by lia. erewrite bind_M_Ok by exact E2.
  pose proof (h_magic _ _ Hh) as Hm. change (slice 0 (Z.to_nat MagicSize) b) with (slice 0 4 b). rewrite Hm, bool_decide_true by done. done.
Qed.

(** A file without the magic number stops the simulator. *)
Lemma open_disk_foreign s b : file s = Some b -> slice 0 4 b <> int_to_bytes MagicNumber -> open_disk name s = AssertFail.
Proof.
  intros Hf Hm. pose proof (open_law s) as Hopen. rewrite Hf in Hopen. destruct Hopen as (fd & s1 & E1 & Hfd & Hf1 & Ho1).
  assert (OpenForReadWrite name false s = Ok (fd, s1)) as EO by (unfold OpenForReadWrite; by erewrite bind_M_Ok by exact E1).
  unfold open_disk. erewrite bind_M_Ok by exact EO. rewrite (proj2 (Z.geb_le fd 0)) by lia.
  destruct (read_law s1 fd b 0 MagicSize Hf1 Ho1) as (s2 & E2 & _). unfold Read at 1.
  change (slice 0 (Z.to_nat MagicSize) b) with (slice 0 4 b) in E2.
  destruct (decide (Z.of_nat (length (slice 0 4 b)) = MagicSize)) as [El|Nl].
  - assert (Read fd MagicSize s1 = Ok (slice 0 4 b, s2)) as ER.
    { unfold Read. erewrite bind_M_Ok by exact E2. cbn beta iota. by rewrite El, Z.eqb_refl. }
    fold (Read (St := St) fd MagicSize). erewrite bind_M_Ok by exact ER. by rewrite bool_decide_false.
  - assert (Read fd MagicSize s1 = AssertFail) as ER.
    { unfold Read. erewrite bind_M_Ok by exact E2. cbn beta iota. by rewrite (proj2 (Z.eqb_neq _ _) Nl). }
    fold (Read (St := St) fd MagicSize). by erewrite bind_M_AssertFail by exact ER.
Qed.

(** * The simulation *)

Definition without_sectors (d : Disk.Disk) : Disk.Disk := Disk.MkDisk ∅ (Disk.active d) (Disk.lastSector d) (Disk.bufferInit d).

Definition represents s (h : HostDisk) (d : Disk.Disk) : Prop :=
  exists b o, file s = Some b /\ position s (fileno h) = Some o /\ holds b (Disk.data d) /\ fields h = without_sectors d.

Lemma busy_fields now i h (d : Disk.Disk) : fields h = without_sectors d -> forall c,
  fields (busy now i h) = without_sectors (Disk.UpdateLast (Disk.MkDisk c true (Disk.lastSector d) (Disk.bufferInit d)) now i).
Proof. intros E c. unfold busy. cbn [fields]. rewrite E. unfold Disk.UpdateLast, Disk.TimeToSeek. reflexivity. Qed.

Lemma busy_data c (d : Disk.Disk) now i : Disk.data (Disk.UpdateLast (Disk.MkDisk c true (Disk.lastSector d) (Disk.bufferInit d)) now i) = c.
Proof. unfold Disk.UpdateLast. by destruct (Disk.TimeToSeek _ _ _). Qed.

Definition valid (o : op) : Prop := match o with OWrite _ _ bytes => Z.of_nat (length bytes) = Disk.SectorSize | _ => True end.

(** A call on the file against the call on the map. *)
Definition same {A B} (P : St -> B -> A -> Prop) (r : res (A * St)) (q : res B) : Prop :=
  match q with
  | Ok y => exists x s', r = Ok (x, s') /\ P s' y x
  | AssertFail => r = AssertFail
  | _ => False
  end.

Lemma host_step_same s h (d : Disk.Disk) o : represents s h d -> valid o ->
  same (fun s' '(a, d') '(a', h') => a' = a /\ represents s' h' d') (host_step name h o s) (disk_step d o).
Proof.
  intros (b & p & Hb & Hp & Hh & Ef) Hv. destruct o as [now i|now i bytes| |]; cbn [host_step disk_step].
  - unfold Disk.ReadRequest. destruct (Disk.active d) eqn:Ea; [|destruct (Disk.sector_ok i) eqn:Ei]; cbn [negb ASSERT mbind res_bind same];
      [by apply bind_M_AssertFail; unfold ReadRequest; rewrite Ef; cbn; rewrite Ea| |
       by apply bind_M_AssertFail; unfold ReadRequest; rewrite Ef; cbn; rewrite Ea, Ei].
    destruct (read_sector_ok s (fileno h) b (Disk.data d) p i Hb Hp Hh (proj1 (Disk.sector_ok_spec i) Ei)) as (s' & p' & E & Hb' & Hp').
    assert (ReadRequest h now i s = Ok ((Disk.file_sector d i, Disk.ComputeLatency d now i false, busy now i h), s')) as ER.
    { unfold ReadRequest. rewrite Ef. cbn [Disk.active without_sectors]. rewrite Ea, Ei. cbn [negb ASSERT]. rewrite !bind_lift_Ok.
      by erewrite bind_M_Ok by exact E. }
    do 2 eexists. split; [by erewrite bind_M_Ok by exact ER|].
    split; [done|]. exists b, p'. split_and!; [done..|by rewrite busy_data|by apply busy_fields].
  - unfold Disk.WriteRequest. destruct (Disk.active d) eqn:Ea; [|destruct (Disk.sector_ok i) eqn:Ei]; cbn [negb ASSERT mbind res_bind same];
      [by apply bind_M_AssertFail; unfold WriteRequest; rewrite Ef; cbn; rewrite Ea| |
       by apply bind_M_AssertFail; unfold WriteRequest; rewrite Ef; cbn; rewrite Ea, Ei].
    destruct (write_sector_ok s (fileno h) b (Disk.data d) p i bytes Hb Hp Hh (proj1 (Disk.sector_ok_spec i) Ei) Hv) as (s' & b' & p' & E & Hb' & Hp' & Hh').
    assert (WriteRequest h now i bytes s = Ok ((Disk.ComputeLatency d now i true, busy now i h), s')) as EW.
    { unfold WriteRequest. rewrite Ef. cbn [Disk.active without_sectors]. rewrite Ea, Ei. cbn [negb ASSERT]. rewrite !bind_lift_Ok.
      by erewrite bind_M_Ok by exact E. }
    do 2 eexists. split; [by erewrite bind_M_Ok by exact EW|].
    split; [done|]. exists b', p'. split_and!; [done..|by rewrite busy_data|by apply busy_fields].
  - do 2 eexists. split; [done|]. split; [done|]. exists b, p. split_and!; try done. cbn. by rewrite Ef.
  - destruct (open_disk_old s b (Disk.data d) Hb Hh) as (fd & s' & p' & E & Hb' & Hp'). do 2 eexists. split.
    { erewrite bind_M_Ok by (unfold Disk_open; erewrite bind_M_Ok by exact E; reflexivity). reflexivity. }
    split; [done|]. exists b, p'. done.
Qed.

Lemma host_run_same os s h (d : Disk.Disk) : represents s h d -> Forall valid os ->
  same (fun _ l l' => l' = l) (host_run name h os s) (disk_run d os).
Proof.
  intros Hr Hv. revert s h d Hr. induction Hv as [|o os Hv _ IH]; intros s h d Hr; cbn [host_run disk_run]; [by eexists [], s|].
  pose proof (host_step_same s h d o Hr Hv) as Hs. destruct (disk_step d o) as [[a d']| | | |]; try done; cbn [mbind res_bind].
  - destruct Hs as ([a' h'] & s' & E & -> & Hr'). specialize (IH s' h' d' Hr'). erewrite bind_M_Ok by exact E. cbn beta iota.
    destruct (disk_run d' os) as [l| | | |]; try done; cbn [mbind res_bind].
    + destruct IH as (l' & s2 & E2 & ->). eexists _, s2. split; [by erewrite bind_M_Ok by exact E2|done].
    + cbn [same] in IH |- *. by erewrite bind_M_AssertFail by exact IH.
  - cbn [same] in Hs |- *. by erewrite bind_M_AssertFail by exact Hs.
Qed.

(** C14. The UNIX file is the disk.  When no file exists, Disk::Disk makes one; from then on
    any requests, interrupts and new runs of the simulator on the same file give the bytes,
    the delays and the failed ASSERTs that the same requests give on a disk that is a map
    from sectors to bytes; no read meets the end of the file and no seek fails.  A file that
    does not start with the magic number stops the simulator. *)
Theorem unix_file_holds_disk s : 
  (file s = None -> forall os, Forall valid os ->
     same (fun _ l l' => l' = l) ((h ← Disk_open name; host_run name h os) s) (disk_run (Disk.Disk_new ∅) os)) /\
  (forall b, file s = Some b -> slice 0 4 b <> int_to_bytes MagicNumber -> Disk_open name s = AssertFail).
Proof.
  split.
  - intros Hf os Hv. destruct (open_disk_new s Hf) as (fd & s' & b & p & E & Hb & Hp & Hh).
    assert (Disk_open name s = Ok (MkHostDisk fd (Disk.Disk_new ∅), s')) as EO by (unfold Disk_open; by erewrite bind_M_Ok by exact E).
    pose proof (host_run_same os s' (MkHostDisk fd (Disk.Disk_new ∅)) (Disk.Disk_new ∅)) as H1.
    erewrite bind_M_Ok by exact EO. apply H1; [|done]. by exists b, p.
  - intros b Hf Hm. unfold Disk_open. erewrite bind_M_AssertFail; [done|]. by eapply open_disk_foreign.
Qed.
End File.

(** * Bounded arrays

    [ptr] is the address that new returned.  Where NO_MPROT is defined, as it is for Linux,
    that is all; elsewhere the array lies between two pages that are made inaccessible.
    mprotect is a parameter: it refuses an address that is not the start of a page, and
    otherwise changes the pages that the bytes touch. *)
Section BoundedArray.
Context {St : Type} (NO_MPROT : bool) (getpagesize : Z) (mprotect : Z -> Z -> bool -> M St Z).

(** [false] is no access, [true] is PROT_READ | PROT_WRITE | PROT_EXEC.  The results of
    mprotect are not looked at. *)
Definition AllocBoundedArray (ptr size : Z) : M St Z :=
  if NO_MPROT then mret ptr
  else
    let pgSize := getpagesize in
    _ ← mprotect ptr pgSize false;
    _ ← mprotect (ptr + pgSize + size) pgSize false;
    mret (ptr + pgSize).

Definition DeallocBoundedArray (ptr size : Z) : M St unit :=
  if NO_MPROT then mret tt
  else
    let pgSize := getpagesize in
    _ ← mprotect (ptr - pgSize) pgSize true;
    _ ← mprotect (ptr + size) pgSize true;
    mret tt.
End BoundedArray.

Section Guards.
Context {St : Type} (getpagesize : Z) (mprotect : Z -> Z -> bool -> M St Z).
Variable closed : St -> Z -> Prop.
Hypothesis page_pos : 0 < getpagesize.
Hypothesis mprotect_page : forall s p allow, exists s', mprotect (p * getpagesize) getpagesize allow s = Ok (0, s') /\
  forall q, closed s' q <-> if decide (q = p) then allow = false else closed s q.
Hypothesis mprotect_inside : forall s a len allow, a mod getpagesize <> 0 -> mprotect a len allow s = Ok (-1, s).
#[local] Notation Alloc := (AllocBoundedArray false getpagesize mprotect).
#[local] Notation Dealloc := (DeallocBoundedArray false getpagesize mprotect).

(** The arrays that are whole pages, at the start of a page, are guarded: exactly the page
    before and the page behind are closed, and the destructor opens them again. *)
Theorem bounded_array_guarded s p n : 0 < n ->
  exists s1 s2, Alloc (p * getpagesize) (n * getpagesize) s = Ok ((p + 1) * getpagesize, s1) /\
    (forall q, closed s1 q <-> q = p \/ q = p + 1 + n \/ closed s q) /\
    Dealloc ((p + 1) * getpagesize) (n * getpagesize) s1 = Ok (tt, s2) /\
    (forall q, closed s2 q <-> q <> p /\ q <> p + 1 + n /\ closed s q).
Proof.
  intros Hn. unfold AllocBoundedArray, DeallocBoundedArray.
  replace (p * getpagesize + getpagesize + n * getpagesize) with ((p + 1 + n) * getpagesize) by lia.
  replace (p * getpagesize + getpagesize) with ((p + 1) * getpagesize) by lia.
  replace ((p + 1) * getpagesize - getpagesize) with (p * getpagesize) by lia.
  replace ((p + 1) * getpagesize + n * getpagesize) with ((p + 1 + n) * getpagesize) by lia.
  destruct (mprotect_page s p false) as (a1 & E1 & H1). destruct (mprotect_page a1 (p + 1 + n) false) as (a2 & E2 & H2).
  destruct (mprotect_page a2 p true) as (a3 & E3 & H3). destruct (mprotect_page a3 (p + 1 + n) true) as (a4 & E4 & H4).
  exists a2, a4. split_and!.
  - erewrite bind_M_Ok by exact E1. by erewrite bind_M_Ok by exact E2.
  - intros q. specialize (H1 q). specialize (H2 q). repeat case_decide; intuition (congruence || lia).
  - erewrite bind_M_Ok by exact E3. by erewrite bind_M_Ok by exact E4.
  - intros q. specialize (H1 q). specialize (H2 q). specialize (H3 q). specialize (H4 q).
    repeat case_decide; intuition (congruence || lia).
Qed.

(** An array whose memory does not start at a page has no guards at all, and nobody is told. *)
Theorem bounded_array_unguarded s ptr n : ptr mod getpagesize <> 0 ->
  Alloc ptr (n * getpagesize) s = Ok (ptr + getpagesize, s).
Proof.
  intros Hp. unfold AllocBoundedArray. rewrite (bind_M_Ok _ _ _ s (-1)) by (by apply mprotect_inside).
  rewrite (bind_M_Ok _ _ _ s (-1)); [done|]. apply mprotect_inside.
  replace (ptr + getpagesize + n * getpagesize) with (ptr + (1 + n) * getpagesize) by lia. by rewrite Z.mod_add by lia.
Qed.
End Guards.

(** * Sending a packet

    [refusals n s s']: from [s], [n] attempts are refused, with a second's wait after each. *)
Section Socket.
Context {St : Type} `{Unix St} (sockID : Z) (buffer toName : list Z).

Inductive refusals : nat -> St -> St -> Prop :=
| no_refusal s : refusals O s s
| refusal n s r s1 s2 s' : u_sendto sockID buffer toName s = Ok (r, s1) -> r < 0 -> u_sleep 1 s1 = Ok (tt, s2) ->
    refusals n s2 s' -> refusals (S n) s s'.

Lemma send_retries_refused n k s s' : refusals k s s' ->
  send_retries (k + n) sockID buffer toName s = send_retries n sockID buffer toName s'.
Proof.
  induction 1 as [s|k s r s1 s2 s' E Hr Es Hk IH]; [done|]. cbn.
  erewrite bind_M_Ok by exact E. rewrite (proj2 (Z.eqb_neq _ _)) by lia. unfold ASSERT.
  rewrite (proj2 (Z.ltb_lt r 0)) by lia. cbn. erewrite bind_M_Ok by reflexivity. by erewrite bind_M_Ok by exact Es.
Qed.

(** The packet goes out at the first attempt that is not refused, when that is one of the
    first ten, and is dropped without a word after ten refusals. *)
Theorem SendToSocket_retries k s s' : Z.of_nat (length toName) < 108 -> refusals k s s' ->
  ((k < 10)%nat -> forall s'', u_sendto sockID buffer toName s' = Ok (Z.of_nat (length buffer), s'') ->
     SendToSocket sockID buffer toName s = Ok (tt, s'')) /\
  (k = 10%nat -> SendToSocket sockID buffer toName s = Ok (tt, s')).
Proof.
  intros Hl Hr. unfold SendToSocket, InitSocketName. rewrite (proj2 (Z.ltb_lt _ _) Hl).
  erewrite bind_M_Ok by reflexivity. split.
  - intros Hk s'' E. replace 10%nat with (k + S (9 - k))%nat by lia. rewrite (send_retries_refused _ _ _ _ Hr). cbn [send_retries].
    erewrite bind_M_Ok by exact E. by rewrite Z.eqb_refl.
  - intros ->. replace 10%nat with (10 + 0)%nat at 1 by lia. by rewrite (send_retries_refused _ _ _ _ Hr).
Qed.
End Socket.

(** * A UNIX with one file

    Its contents, if it exists, and the position of descriptor 3. *)
Definition sample : Type := option (list Z) * nat.

Definition sample_open (flags : Z) : M sample Z := fun s =>
  match s.1 with
  | None => if Z.testbit flags 6 then Ok (3, (Some [], O)) else Ok (-1, s)
  | Some b => Ok (3, (Some (if Z.testbit flags 9 then [] else b), O))
  end.

Definition on_file {A} (f : list Z -> nat -> A * sample) : M sample A := fun s =>
  match s.1 with Some b => Ok (f b s.2) | None => Undefined end.

#[export] Instance sample_unix : Unix sample := {|
  u_open _ flags := sample_open flags;
  u_read _ n := on_file (fun b o => let r := slice o (Z.to_nat n) b in ((Z.of_nat (length r), r), (Some b, (o + length r)%nat)));
  u_write _ bytes := on_file (fun b o => (Z.of_nat (length bytes), (Some (put o bytes b), (o + length bytes)%nat)));
  u_lseek _ off _ := on_file (fun b _ => (off, (Some b, Z.to_nat off)));
  u_close _ := mret 0;
  u_unlink _ := mret 0;
  u_select _ := mret 0;
  u_socket := mret (-1);
  u_bind _ _ := mret (-1);
  u_sendto _ _ _ := mret (-1);
  u_recvfrom _ _ := mret (-1, []);
  u_sleep _ := mret tt
|}.

#[export] Instance sample_disk_file : DiskFile sample [].
Proof.
  refine {| file := fst; position := fun s _ => Some s.2 |}.
  - intros [[b|] o]; cbn; [exists 3|exists (-1)]; eexists; repeat split; lia.
  - intros [[b|] o]; exists 3; eexists; repeat split; lia.
  - intros [[b'|] o'] fd b o n; cbn; [intros [= ->] [= ->]|done]. eexists. repeat split.
  - intros [[b'|] o'] fd b o bytes; cbn; [intros [= ->] [= ->]|done]. eexists. repeat split.
  - intros [[b'|] o'] fd b o off; cbn; [intros [= ->] [= ->] _|done]. eexists. repeat split.
Defined.

(** Sector 5 is written, the simulator ends and starts again, and sectors 5 and 6 are read. *)
Example unix_file_holds_disk_witness : exists s',
  (h ← Disk_open []; host_run [] h [OWrite 0 5 (replicate 128 9); ODone; OReopen; ORead 0 5; ODone; ORead 4000 6]) (None, O) =
  Ok ([ATicks 3000; ANone; ANone; ABytes (replicate 128 9) 3000; ANone; ABytes (replicate 128 0) 500], s').
Proof.
  destruct (unix_file_holds_disk (St := sample) [] (None, O)) as [H1 _].
  specialize (H1 eq_refl [OWrite 0 5 (replicate 128 9); ODone; OReopen; ORead 0 5; ODone; ORead 4000 6]).
  assert (disk_run (Disk.Disk_new ∅) [OWrite 0 5 (replicate 128 9); ODone; OReopen; ORead 0 5; ODone; ORead 4000 6] =
    Ok [ATicks 3000; ANone; ANone; ABytes (replicate 128 9) 3000; ANone; ABytes (replicate 128 0) 500]) as ED by (vm_compute; reflexivity).
  rewrite ED in H1. destruct H1 as (l & s' & E & El); [repeat constructor|]. exists s'. rewrite <- El. exact E.
Defined.
End Sysdep.
