(* ===== verification/SectorStore.v ===== *)
(** SectorStore: what the file system relies on of the layer below it.

    The file system reads and writes whole sectors through
    [kernel->synchDisk->ReadSector] and [WriteSector] and takes time stamps from
    [kernel->stats->totalTicks].  The class states what these calls promise; SynchDisk.v
    discharges it for the cached disk, and the file system's theorems use nothing else. *)

From S2P Require Import Prelude Disk.
From stdpp Require Import base numbers list gmap.
#[local] Open Scope Z_scope.

Class SectorStore (St : Type) := {
  (** the calls *)
  store_read : Z -> M St (list Z);
  store_write : Z -> list Z -> M St unit;
  store_ticks : St -> Z;
  (** the abstract state: the bytes of each sector, in the states that can arise *)
  store_wf : St -> Prop;
  store_sector : St -> Z -> list Z;
  (** the laws *)
  store_sector_length st s : store_wf st -> 0 <= s < Disk.NumSectors ->
    Z.of_nat (length (store_sector st s)) = Disk.SectorSize;
  store_read_ok st s : store_wf st -> 0 <= s < Disk.NumSectors ->
    exists st', store_read s st = Ok (store_sector st s, st') /\ store_wf st' /\
      forall t, 0 <= t < Disk.NumSectors -> store_sector st' t = store_sector st t;
  store_write_ok st s bs : store_wf st -> 0 <= s < Disk.NumSectors ->
    Z.of_nat (length bs) = Disk.SectorSize ->
    exists st', store_write s bs st = Ok (tt, st') /\ store_wf st' /\
      forall t, 0 <= t < Disk.NumSectors ->
        store_sector st' t = if decide (t = s) then bs else store_sector st t;
  store_read_bad st s : store_wf st -> ~ (0 <= s < Disk.NumSectors) ->
    store_read s st = AssertFail;
  store_write_bad st s bs : store_wf st -> ~ (0 <= s < Disk.NumSectors) ->
    store_write s bs st = AssertFail
}.

(** Memory from [new char[n]] is not initialised: its bytes are some function of the
    state, which nothing relies on. *)
Class Heap (St : Type) := {
  uninit : St -> nat -> list Z;
  uninit_length st n : length (uninit st n) = n
}.

(** Two states with the same sectors. *)
Section StoreEq.
Context {St : Type} {SS : SectorStore St}.

Definition store_eq (st st' : St) : Prop :=
  forall t, 0 <= t < Disk.NumSectors -> store_sector st' t = store_sector st t.

#[export] Instance store_eq_equiv : Equivalence store_eq.
Proof.
  split; [done| |].
  - intros x y H t Ht. by rewrite H.
  - intros x y z H1 H2 t Ht. by rewrite H2, H1.
Qed.
End StoreEq.

Create HintDb store.
#[export] Hint Resolve store_sector_length : store.
