(* ===== verification/SynchDisk.v ===== *)
(** SynchDisk: the synchronous, cached disk of src/code/filesys/synchdisk.h and
    synchdisk.cc, with the lock held over each call.

    Each call of the model is one critical section: the requesting thread holds
    [lock] from entry to return, so no other request is in progress, and it waits in
    [semaphore->P()] until the disk interrupt scheduled by its own request has called
    [CallBack].  [wait_for_disk] is that wait: the clock reaches the time of the
    interrupt, [delay] more ticks pass before the thread runs again, the device is idle
    and the semaphore back at 0. *)

From S2P Require Import Prelude Disk SectorStore.
From stdpp Require Import base numbers list gmap.
#[local] Open Scope Z_scope.

Module SynchDisk.

Definition DiskCacheSize : Z := 4.

Record DiskCacheEntry := MkEntry {
  valid : Z;
  dirty : Z;
  sector : Z;
  lru : Z;
  cdata : list Z
}.

Record SynchDisk := MkSynchDisk {
  disk : Disk.Disk;
  semaphore : Z;
  cache : list DiskCacheEntry;
  totalTicks : Z
}.

Section Ops.
(** Ticks that pass between the disk interrupt and the return to the waiting thread. *)
Variable delay : Z -> Z.

(** The constructor: only [valid] is initialised in the entries. *)
Definition SynchDisk_new (d : Disk.Disk) (junk : list DiskCacheEntry) (now : Z) : SynchDisk :=
  MkSynchDisk d 0 (map (fun e => MkEntry (-1) (dirty e) (sector e) (lru e) (cdata e)) junk) now.

(** [CallBack], called by the disk interrupt handler: [semaphore->V()]. *)
Definition CallBack (s : SynchDisk) : SynchDisk :=
  MkSynchDisk (disk s) (semaphore s + 1) (cache s) (totalTicks s).

(** [semaphore->P()] while a request is pending, due in [ticks]. *)
Definition wait_for_disk (s : SynchDisk) (ticks : Z) : res SynchDisk :=
  let at_interrupt := MkSynchDisk (Disk.CallBack (disk s)) (semaphore s) (cache s) (totalTicks s + ticks) in
  let s := CallBack at_interrupt in
  _ ← ASSERT (negb (semaphore s =? 0));
  Ok (MkSynchDisk (disk s) (semaphore s - 1) (cache s) (totalTicks s + Z.max 0 (delay (totalTicks s)))).

(** The search for a cached copy. *)
Definition find_cached (c : list DiskCacheEntry) (sectorNumber : Z) : res Z :=
  r ← for_ret (range 0 DiskCacheSize)
    (fun i (_ : unit) =>
       e ← aget c i;
       if (valid e =? 1) && (sector e =? sectorNumber) then Ok (inr i) else Ok (inl tt)) tt;
  match r with inl _ => Ok (-1) | inr i => Ok i end.

(** The choice of the entry to replace. *)
Definition find_victim (c : list DiskCacheEntry) : res Z :=
  r ← for_ret (range 0 DiskCacheSize)
    (fun i swap =>
       e ← aget c i;
       if valid e =? 0 then Ok (inr i)
       else
         es ← aget c swap;
         if lru e <? lru es then Ok (inl i) else Ok (inl swap)) 0;
  match r with inl swap => Ok swap | inr swap => Ok swap end.

Definition ReadSector (sectorNumber : Z) : M SynchDisk (list Z) := fun s =>
  index ← find_cached (cache s) sectorNumber;
  if negb (index =? -1) then
    e ← aget (cache s) index;
    c ← aset (cache s) index (MkEntry (valid e) (dirty e) (sector e) (totalTicks s) (cdata e));
    Ok (cdata e, MkSynchDisk (disk s) (semaphore s) c (totalTicks s))
  else
    '(bytes, ticks, d) ← Disk.ReadRequest (disk s) (totalTicks s) sectorNumber;
    swap ← find_victim (cache s);
    c ← aset (cache s) swap (MkEntry 1 0 sectorNumber (totalTicks s) bytes);
    s ← wait_for_disk (MkSynchDisk d (semaphore s) c (totalTicks s)) ticks;
    Ok (bytes, s).

Definition WriteSector (sectorNumber : Z) (bytes : list Z) : M SynchDisk unit := fun s =>
  '(ticks, d) ← Disk.WriteRequest (disk s) (totalTicks s) sectorNumber bytes;
  c ← for_each (range 0 DiskCacheSize)
        (fun i c =>
           e ← aget c i;
           if sector e =? sectorNumber
           then aset c i (MkEntry (-1) (dirty e) (sector e) (lru e) (cdata e))
           else Ok c) (cache s);
  s ← wait_for_disk (MkSynchDisk d (semaphore s) c (totalTicks s)) ticks;
  Ok (tt, s).

(** * The invariant: a valid entry holds the sector's bytes *)

Definition coherent (d : Disk.Disk) (e : DiskCacheEntry) : Prop :=
  valid e = 1 -> 0 <= sector e < Disk.NumSectors /\ cdata e = Disk.file_sector d (sector e).

Record wf (s : SynchDisk) : Prop := {
  wf_idle : Disk.active (disk s) = false;
  wf_sem : semaphore s = 0;
  wf_cache : Z.of_nat (length (cache s)) = DiskCacheSize;
  wf_coherent : Forall (coherent (disk s)) (cache s);
  wf_sectors : forall t, 0 <= t < Disk.NumSectors ->
    Z.of_nat (length (Disk.file_sector (disk s) t)) = Disk.SectorSize
}.

Lemma find_cached_spec c n : Z.of_nat (length c) = DiskCacheSize ->
  (find_cached c n = Ok (-1)) \/
  (exists i e, find_cached c n = Ok i /\ 0 <= i < DiskCacheSize /\ c !! Z.to_nat i = Some e /\
     valid e = 1 /\ sector e = n).
Proof.
  intros Hl. unfold find_cached.
  match goal with |- context [for_ret _ ?b _] =>
    destruct (for_ret_inv (fun _ (_ : unit) => True)
      (fun i => exists e, 0 <= i < DiskCacheSize /\ c !! Z.to_nat i = Some e /\ valid e = 1 /\ sector e = n)
      b 0 DiskCacheSize tt) as [(u & -> & _)|(i & -> & e & H)] end; try done.
  - intros i u Hi _. destruct (aget_in c i) as (e & He & ->); [lia|]. cbn [mbind res_bind].
    destruct (_ && _) eqn:E; [|left; by eexists]. apply andb_true_iff in E as [E1 E2].
    right. exists i. split; [done|]. exists e. split_and!; try done; lia.
  - by left.
  - right. exists i, e. by destruct H as (? & ? & ? & ?).
Qed.

Lemma find_victim_spec c : Z.of_nat (length c) = DiskCacheSize ->
  exists i, find_victim c = Ok i /\ 0 <= i < DiskCacheSize.
Proof.
  intros Hl. unfold find_victim.
  match goal with |- context [for_ret _ ?b _] =>
    destruct (for_ret_inv (fun _ i => 0 <= i < DiskCacheSize) (fun i => 0 <= i < DiskCacheSize)
      b 0 DiskCacheSize 0) as [(i & -> & H)|(i & -> & H)] end; try (by eexists); try done.
  intros i swap Hi Hs. destruct (aget_in c i) as (e & He & ->); [lia|]. cbn [mbind res_bind].
  destruct (valid e =? 0); [right; by eexists|].
  destruct (aget_in c swap) as (es & Hes & ->); [lia|]. cbn [mbind res_bind].
  left. destruct (lru e <? lru es); by eexists.
Qed.

Lemma wait_for_disk_spec s ticks : semaphore s = 0 ->
  exists t, wait_for_disk s ticks = Ok (MkSynchDisk (Disk.CallBack (disk s)) 0 (cache s) t).
Proof. intros Hs. unfold wait_for_disk. simpl. rewrite Hs. simpl. eauto. Qed.

Lemma file_sector_UpdateLast d b now n t :
  Disk.file_sector (Disk.CallBack (Disk.UpdateLast
    (Disk.MkDisk (Disk.data d) b (Disk.lastSector d) (Disk.bufferInit d)) now n)) t = Disk.file_sector d t.
Proof. unfold Disk.file_sector, Disk.CallBack. cbn [Disk.data]. by rewrite Disk.UpdateLast_data. Qed.

Lemma coherent_ext d d' e : (forall t, 0 <= t < Disk.NumSectors -> Disk.file_sector d' t = Disk.file_sector d t) ->
  coherent d e -> coherent d' e.
Proof. intros Hd Hc Hv. destruct (Hc Hv) as [? ->]. split; [done|]. by rewrite Hd. Qed.

Lemma ReadSector_ok n s : wf s -> 0 <= n < Disk.NumSectors ->
  exists s', ReadSector n s = Ok (Disk.file_sector (disk s) n, s') /\ wf s' /\
    forall t, Disk.file_sector (disk s') t = Disk.file_sector (disk s) t.
Proof.
  intros [Hi Hsem Hl Hc Hlen] Hn. unfold ReadSector.
  destruct (find_cached_spec (cache s) n Hl) as [->|(i & e & -> & Hir & He & Hv & Hs)].
  - cbn [mbind res_bind negb Z.eqb Pos.eqb]. unfold Disk.ReadRequest.
    apply Disk.sector_ok_spec in Hn as Hok. rewrite Hi, Hok. cbn [mbind res_bind ASSERT negb].
    destruct (find_victim_spec (cache s) Hl) as (w & -> & Hw). cbn [mbind res_bind].
    rewrite aset_in by lia. cbn [mbind res_bind].
    match goal with |- context [wait_for_disk ?x ?k] => destruct (wait_for_disk_spec x k Hsem) as (t & ->) end.
    cbn [mbind res_bind disk cache]. eexists. split; [done|].
    split; [|intros; apply file_sector_UpdateLast]. constructor; simpl; try done.
    + by rewrite length_insert.
    + apply Forall_insert.
      * eapply Forall_impl; [exact Hc|]. intros e He. eapply coherent_ext; [|exact He].
        intros; apply file_sector_UpdateLast.
      * intros _. simpl. split; [done|]. by rewrite file_sector_UpdateLast.
  - cbn [mbind res_bind]. replace (i =? -1) with false by (symmetry; apply Z.eqb_neq; lia).
    cbn [negb]. rewrite (aget_Some _ _ e) by (lia || done). cbn [mbind res_bind].
    rewrite aset_in by lia. cbn [mbind res_bind].
    pose proof (Forall_lookup_1 _ _ _ _ Hc He) as Hce. destruct (Hce Hv) as [_ Hd]. rewrite Hs in Hd.
    rewrite Hd. eexists. split; [done|]. split; [|done]. constructor; simpl; try done.
    + by rewrite length_insert.
    + apply Forall_insert; [done|]. intros _. simpl. split; [by rewrite Hs|]. by rewrite Hs.
Qed.

Lemma invalidate_spec c n : Z.of_nat (length c) = DiskCacheSize ->
  exists c', for_each (range 0 DiskCacheSize)
        (fun i c => e ← aget c i;
           if sector e =? n then aset c i (MkEntry (-1) (dirty e) (sector e) (lru e) (cdata e))
           else Ok c) c = Ok c' /\
    length c' = length c /\
    Forall2 (fun e e' => e' = if sector e =? n
       then MkEntry (-1) (dirty e) (sector e) (lru e) (cdata e) else e) c c'.
Proof.
  intros Hl. set (upd := fun e => if sector e =? n
       then MkEntry (-1) (dirty e) (sector e) (lru e) (cdata e) else e).
  match goal with |- context [for_each _ ?b _] =>
    destruct (for_each_inv (fun i c' => c' = map upd (take (Z.to_nat i) c) ++ drop (Z.to_nat i) c)
      b 0 DiskCacheSize c) as (c' & -> & ->) end; try done.
  - intros i c' Hi ->. assert (Z.to_nat i < length c)%nat as Hlt by lia.
    destruct (lookup_lt_is_Some_2 c _ Hlt) as [e He].
    assert ((map upd (take (Z.to_nat i) c) ++ drop (Z.to_nat i) c) !! Z.to_nat i = Some e) as He'.
    { rewrite lookup_app_r; rewrite length_map, length_take, Nat.min_l by lia; [|lia].
      by rewrite Nat.sub_diag, lookup_drop, Nat.add_0_r. }
    rewrite (aget_Some _ _ e) by (lia || done). cbn [mbind res_bind].
    assert (map upd (take (Z.to_nat (i + 1)) c) ++ drop (Z.to_nat (i + 1)) c =
            <[Z.to_nat i := upd e]> (map upd (take (Z.to_nat i) c) ++ drop (Z.to_nat i) c)) as ->.
    { replace (Z.to_nat (i + 1)) with (S (Z.to_nat i)) by lia.
      rewrite (take_S_r _ _ e He), map_app, <- app_assoc. simpl.
      rewrite insert_app_r_alt; rewrite length_map, length_take, Nat.min_l by lia; [|lia].
      rewrite Nat.sub_diag. f_equal. by rewrite (drop_S _ _ _ He). }
    assert (upd e = if sector e =? n
      then MkEntry (-1) (dirty e) (sector e) (lru e) (cdata e) else e) as Hu by done.
    destruct (sector e =? n); rewrite Hu.
    + rewrite aset_in; [eauto|]. rewrite length_app, length_map, length_take, length_drop. lia.
    + eexists. split; [done|]. by rewrite list_insert_id.
  - exists (map upd c). rewrite firstn_all2, drop_ge, app_nil_r by lia.
    split_and!; [done|by rewrite length_map|]. clear. induction c; constructor; auto.
Qed.

Lemma WriteSector_ok n bs s : wf s -> 0 <= n < Disk.NumSectors ->
  Z.of_nat (length bs) = Disk.SectorSize ->
  exists s', WriteSector n bs s = Ok (tt, s') /\ wf s' /\
    forall t, Disk.file_sector (disk s') t = if decide (t = n) then bs else Disk.file_sector (disk s) t.
Proof.
  intros [Hi Hsem Hl Hc Hlen] Hn Hbs. unfold WriteSector, Disk.WriteRequest.
  apply Disk.sector_ok_spec in Hn as Hok. rewrite Hi, Hok. cbn [mbind res_bind ASSERT negb].
  destruct (invalidate_spec (cache s) n Hl) as (c' & -> & Hl' & H2). cbn [mbind res_bind].
  match goal with |- context [wait_for_disk ?x ?k] => destruct (wait_for_disk_spec x k Hsem) as (t & ->) end.
  cbn [mbind res_bind disk cache]. eexists. split; [done|].
  match goal with |- wf ?x /\ _ => assert (forall t, Disk.file_sector (disk x) t =
    if decide (t = n) then bs else Disk.file_sector (disk s) t) as Hfs end.
  { intros u. unfold Disk.file_sector, Disk.CallBack. cbn [disk Disk.data].
    rewrite Disk.UpdateLast_data. cbn [Disk.data].
    case_decide; [subst; by rewrite lookup_insert_eq|by rewrite lookup_insert_ne by done]. }
  split; [|done]. constructor; simpl; [done|done|by rewrite Hl'| |].
  - apply Forall_lookup_2. intros i e' He'.
    destruct (Forall2_lookup_r _ _ _ _ _ H2 He') as (e & He & ->).
    pose proof (Forall_lookup_1 _ _ _ _ Hc He) as Hce.
    destruct (Z.eqb_spec (sector e) n) as [|Hne]; [by intros Hv|].
    intros Hv. destruct (Hce Hv) as [? Hd]. split; [done|].
    simpl in Hfs. rewrite Hfs, decide_False by done. done.
  - intros u Hu. simpl in Hfs. rewrite Hfs. case_decide; [done|]. by apply Hlen.
Qed.

Lemma ReadSector_bad n s : wf s -> ~ (0 <= n < Disk.NumSectors) -> ReadSector n s = AssertFail.
Proof.
  intros [Hi Hsem Hl Hc Hlen] Hn. unfold ReadSector.
  destruct (find_cached_spec (cache s) n Hl) as [->|(i & e & -> & Hir & He & Hv & Hs)].
  - cbn [mbind res_bind negb Z.eqb Pos.eqb]. unfold Disk.ReadRequest.
    apply Disk.sector_ok_false in Hn. by rewrite Hi, Hn.
  - pose proof (Forall_lookup_1 _ _ _ _ Hc He) as Hce. destruct (Hce Hv) as [Hr _]. by rewrite Hs in Hr.
Qed.

Lemma WriteSector_bad n bs s : wf s -> ~ (0 <= n < Disk.NumSectors) -> WriteSector n bs s = AssertFail.
Proof.
  intros [Hi _ _ _ _] Hn. unfold WriteSector, Disk.WriteRequest.
  apply Disk.sector_ok_false in Hn. by rewrite Hi, Hn.
Qed.

Lemma SynchDisk_new_wf content junk now :
  Z.of_nat (length junk) = DiskCacheSize ->
  (forall t bs, content !! t = Some bs -> Z.of_nat (length bs) = Disk.SectorSize) ->
  wf (SynchDisk_new (Disk.Disk_new content) junk now).
Proof.
  intros Hj Hc. constructor; simpl; try done.
  - by rewrite length_map.
  - apply Forall_map, Forall_true. done.
  - intros t _. unfold Disk.file_sector. simpl.
    destruct (content !! t) eqn:E; simpl; [by eapply Hc|]. done.
Qed.

(** The cached disk is a sector store. *)
#[export] Instance synchdisk_store : SectorStore SynchDisk.
Proof.
  refine {| store_read := ReadSector; store_write := WriteSector; store_ticks := totalTicks;
            store_wf := wf; store_sector := fun s t => Disk.file_sector (disk s) t |}.
  - intros st s [_ _ _ _ H] Hs. by apply H.
  - intros st s Hw Hs. destruct (ReadSector_ok s st Hw Hs) as (st' & E & Hw' & H). eauto.
  - intros st s bs Hw Hs Hb. destruct (WriteSector_ok s bs st Hw Hs Hb) as (st' & E & Hw' & H). eauto.
  - intros st s. apply ReadSector_bad.
  - intros st s bs. apply WriteSector_bad.
Defined.

(** * The abstract device: an array of sectors *)

Inductive request := RRead (n : Z) | RWrite (n : Z) (bs : list Z).

Definition request_ok (r : request) : Prop :=
  match r with RRead _ => True | RWrite _ bs => Z.of_nat (length bs) = Disk.SectorSize end.

(** The bytes each call hands back. *)
Fixpoint run_requests (rs : list request) (s : SynchDisk) : res (list (list Z)) :=
  match rs with
  | [] => Ok []
  | RRead n :: rs' => '(bs, s) ← ReadSector n s; l ← run_requests rs' s; Ok (bs :: l)
  | RWrite n bs :: rs' => '(_, s) ← WriteSector n bs s; l ← run_requests rs' s; Ok ([] :: l)
  end.

Fixpoint spec_requests (rs : list request) (f : Z -> list Z) : res (list (list Z)) :=
  match rs with
  | [] => Ok []
  | RRead n :: rs' => _ ← ASSERT (Disk.sector_ok n); l ← spec_requests rs' f; Ok (f n :: l)
  | RWrite n bs :: rs' =>
      _ ← ASSERT (Disk.sector_ok n);
      l ← spec_requests rs' (fun t => if decide (t = n) then bs else f t);
      Ok ([] :: l)
  end.

Lemma run_requests_spec rs s f : wf s -> Forall request_ok rs ->
  (forall t, Disk.file_sector (disk s) t = f t) ->
  run_requests rs s = spec_requests rs f.
Proof.
  revert s f. induction rs as [|[n|n bs] rs IH]; intros s f Hw Hok Hf; [done|..];
    apply Forall_cons in Hok as [Hr Hok]; cbn [run_requests spec_requests];
    destruct (Disk.sector_ok n) eqn:E; cbn [ASSERT mbind res_bind].
  - apply Disk.sector_ok_spec in E. destruct (ReadSector_ok n s Hw E) as (s' & -> & Hw' & Hs').
    cbn [mbind res_bind]. rewrite (IH s' f), Hf; [done..|]. intros t. by rewrite Hs'.
  - apply Disk.sector_ok_false in E. by rewrite ReadSector_bad.
  - apply Disk.sector_ok_spec in E. destruct (WriteSector_ok n bs s Hw E Hr) as (s' & -> & Hw' & Hs').
    cbn [mbind res_bind]. erewrite IH; [done..|]. intros t. rewrite Hs', Hf. done.
  - apply Disk.sector_ok_false in E. by rewrite WriteSector_bad.
Qed.

(** * Properties *)

(** C13. The disk cache is transparent: whatever the four entries hold at start-up, whatever
    the timing, every sequence of ReadSector and WriteSector calls returns what an
    uncached array of sectors returns; each call finds the device idle, waits for exactly
    one interrupt, and a sector number off the disk stops at the device's ASSERT. *)
Theorem synchdisk_cache_transparent (content : gmap Z (list Z)) (junk : list DiskCacheEntry)
    (now : Z) (rs : list request) :
  Z.of_nat (length junk) = DiskCacheSize ->
  (forall t bs, content !! t = Some bs -> Z.of_nat (length bs) = Disk.SectorSize) ->
  Forall request_ok rs ->
  run_requests rs (SynchDisk_new (Disk.Disk_new content) junk now) =
  spec_requests rs (fun t => default Disk.blank_sector (content !! t)).
Proof.
  intros Hj Hc Hr. apply run_requests_spec; [by apply SynchDisk_new_wf|done|done].
Qed.
End Ops.

(** A device that answers after 3 ticks, for concrete runs. *)
Definition sample_instance : SectorStore SynchDisk := synchdisk_store (fun _ => 3).
Definition sample_disk (content : gmap Z (list Z)) : SynchDisk :=
  SynchDisk_new (Disk.Disk_new content) (replicate 4 (MkEntry 1 0 5 0 [99])) 10.

Lemma sample_disk_wf content : (forall t bs, content !! t = Some bs -> Z.of_nat (length bs) = Disk.SectorSize) ->
  @store_wf _ sample_instance (sample_disk content).
Proof. intros Hc. by apply SynchDisk_new_wf. Qed.

Definition junk_cache : list DiskCacheEntry := replicate 4 (MkEntry 1 0 5 0 [99]).

Example synchdisk_cache_transparent_witness :
  let bs := replicate 128 7 in
  run_requests (fun _ => 3) [RRead 5; RWrite 5 bs; RRead 5]
    (SynchDisk_new (Disk.Disk_new ∅) junk_cache 10) = Ok [Disk.blank_sector; []; bs].
Proof.
  intros bs.
  rewrite (synchdisk_cache_transparent (fun _ => 3) ∅ junk_cache 10).
  - vm_compute. reflexivity.
  - vm_compute. reflexivity.
  - intros t b H. rewrite lookup_empty in H. discriminate H.
  - repeat constructor.
Defined.

(** Invalid entries are marked -1, but the search for a free one looks for 0: an invalid
    entry is not preferred, a valid one is evicted by its age instead. *)
Lemma invalid_entry_not_reused :
  find_victim [MkEntry 1 0 10 5 []; MkEntry (-1) 0 11 8 []; MkEntry 1 0 12 6 []; MkEntry 1 0 13 7 []] = Ok 0.
Proof. reflexivity. Qed.

End SynchDisk.
