(* ===== verification/FileHdr.v ===== *)
(** FileHdr: the i-node of src/code/filesys/filehdr.h and filehdr.cc, over a sector store.

    A [FileHeader] is the object in memory; [encode] is its layout as one disk sector of
    32 ints.  The free map handed to Allocate and Deallocate is the in-memory Bitmap.
    [holds] says that a header describes the list [bl] of data sectors, through the
    direct entries and the indirect sector; the theorems give each method on [bl]. *)

From S2P Require Import Prelude Bitmap Disk SectorStore SynchDisk.
From stdpp Require Import base numbers list gmap.
#[local] Open Scope Z_scope.

Module FileHdr.
Import Disk.

(** [NumDirect], [NumInDirect] and [MaxFileSize] (unsigned, 32 bits). *)
Definition NumDirect : Z := (SectorSize - 8 * 4) / 4.
Definition NumInDirect : Z := SectorSize / 4.
Definition MaxFileSize : Z := (NumDirect + NumInDirect) * SectorSize.

(** The enumeration [FileType], as the int it is stored as. *)
Definition TYPE_FILE : Z := 0.
Definition TYPE_DIR : Z := 1.
Definition TYPE_PIPE : Z := 2.
Definition TYPE_UNKNOWN : Z := 3.

Record FileHeader := MkHeader {
  limit : Z;
  capacity : Z;
  nsectors : Z;
  selfSector : Z;
  ftype : Z;
  createTime : Z;
  modifyTime : Z;
  dataSectors : list Z
}.

(** The object as the 32 ints of its sector, and back. *)
Definition header_ints (h : FileHeader) : list Z :=
  [limit h; capacity h; nsectors h; selfSector h; ftype h; createTime h; modifyTime h] ++ dataSectors h.
Definition encode (h : FileHeader) : list Z := ints_to_bytes (header_ints h).
Definition header_of_ints (zs : list Z) : res FileHeader :=
  match zs with
  | l :: c :: n :: s :: t :: ct :: mt :: ds => Ok (MkHeader l c n s t ct mt ds)
  | _ => Undefined
  end.
Definition decode (bs : list Z) : res FileHeader := header_of_ints (bytes_to_ints bs).

Definition set_data (h : FileHeader) (ds : list Z) : FileHeader :=
  MkHeader (limit h) (capacity h) (nsectors h) (selfSector h) (ftype h) (createTime h) (modifyTime h) ds.

(** [nsectors += N; capacity = nsectors * SectorSize;] *)
Definition grow (h : FileHeader) (N : Z) : FileHeader :=
  MkHeader (limit h) (i32 ((nsectors h + N) * SectorSize)) (nsectors h + N) (selfSector h) (ftype h)
    (createTime h) (modifyTime h) (dataSectors h).

(** [FileHeader(selfSector, type)]; [modifyTime] is not initialised. *)
Definition FileHeader_new (self type now junk : Z) : FileHeader :=
  MkHeader 0 0 0 self type now junk (replicate (Z.to_nat (NumDirect + 1)) 0).

Definition FileLimit (h : FileHeader) : Z := limit h.
Definition FileCapacity (h : FileHeader) : Z := capacity h.
Definition getFileType (h : FileHeader) : Z := ftype h.
Definition getSelfSector (h : FileHeader) : Z := selfSector h.
Definition setFileType (h : FileHeader) (type : Z) : FileHeader :=
  MkHeader (limit h) (capacity h) (nsectors h) (selfSector h) type (createTime h) (modifyTime h) (dataSectors h).
Definition setSelfSector (h : FileHeader) (sector : Z) : FileHeader :=
  MkHeader (limit h) (capacity h) (nsectors h) sector (ftype h) (createTime h) (modifyTime h) (dataSectors h).

Definition setFileLimit (h : FileHeader) (position : Z) : bool * FileHeader :=
  if (position <? 0) || (capacity h <? position) then (false, h)
  else (true, MkHeader position (capacity h) (nsectors h) (selfSector h) (ftype h) (createTime h)
                (modifyTime h) (dataSectors h)).

Section Ops.
Context {St : Type} {SS : SectorStore St}.

Definition FetchFrom (sector : Z) : M St FileHeader :=
  bs ← store_read sector; lift (decode bs).

Definition WriteBack (h : FileHeader) (sector : Z) : M St unit :=
  store_write sector (encode h).

(** The loop that fills direct entries: [for (i = nsectors; i < NumDirect && n > 0; i++)],
    the comparison being unsigned. *)
Definition alloc_direct (h : FileHeader) (freeMap : Bitmap.Bitmap) (n : Z)
    : res (list Z * Bitmap.Bitmap * Z) :=
  for_each (range (u32 (nsectors h)) NumDirect)
    (fun i '(ds, fm, n) =>
       if 0 <? n then
         '(s, fm) ← Bitmap.FindAndSet fm;
         ds ← aset ds i s;
         _ ← ASSERT (0 <? s);
         Ok (ds, fm, n - 1)
       else Ok (ds, fm, n)) (dataSectors h, freeMap, n).

(** The loop that fills the empty entries of the indirect sector. *)
Definition alloc_indirect (inDirect : list Z) (freeMap : Bitmap.Bitmap) (n : Z)
    : res (list Z * Bitmap.Bitmap * Z) :=
  for_each (range 0 NumInDirect)
    (fun i '(ind, fm, n) =>
       if 0 <? n then
         e ← aget ind i;
         if e =? 0 then
           '(s, fm) ← Bitmap.FindAndSet fm;
           ind ← aset ind i s;
           _ ← ASSERT (0 <=? s);
           Ok (ind, fm, n - 1)
         else Ok (ind, fm, n)
       else Ok (ind, fm, n)) (inDirect, freeMap, n).

(** [if (dataSectors[NumDirect] == 0)]: a sector for the indirect table, filled with zeros. *)
Definition ensure_indirect (h : FileHeader) (fm : Bitmap.Bitmap) : M St (FileHeader * Bitmap.Bitmap) :=
  k ← lift (aget (dataSectors h) NumDirect);
  if k =? 0 then
    '(s, fm) ← lift (Bitmap.FindAndSet fm);
    ds ← lift (aset (dataSectors h) NumDirect s);
    _ ← lift (ASSERT (0 <=? s));
    _ ← store_write s (ints_to_bytes (replicate (Z.to_nat NumInDirect) 0));
    mret (set_data h ds, fm)
  else mret (h, fm).

(** The rest of Allocate: reads the indirect sector, fills it and writes it back. *)
Definition fill_indirect (h : FileHeader) (freeMap : Bitmap.Bitmap) (n N : Z)
    : M St (bool * FileHeader * Bitmap.Bitmap) :=
  k ← lift (aget (dataSectors h) NumDirect);
  bs ← store_read k;
  '(ind, fm, n) ← lift (alloc_indirect (bytes_to_ints bs) freeMap n);
  if n =? 0 then
    _ ← store_write k (ints_to_bytes ind);
    mret (true, grow h N, fm)
  else mret (false, h, fm).

Definition Allocate (h : FileHeader) (freeMap : Bitmap.Bitmap) (size : Z)
    : M St (bool * FileHeader * Bitmap.Bitmap) :=
  if size =? 0 then mret (true, h, freeMap)
  else if (size <? 0) || (MaxFileSize <? u32 (size + capacity h)) then mret (false, h, freeMap)
  else
    let N := divRoundUp size SectorSize in
    clear ← lift (Bitmap.NumClear freeMap);
    if clear <? N then mret (false, h, freeMap)
    else
      '(ds, fm, n) ← lift (alloc_direct h freeMap N);
      let h := set_data h ds in
      if n =? 0 then mret (true, grow h N, fm)
      else
        '(h, fm) ← ensure_indirect h fm;
        fill_indirect h fm n N.

(** Frees the sectors of one table: [if (freeMap->Test(s)) freeMap->Clear(s)]. *)
Definition free_sector (fm : Bitmap.Bitmap) (s : Z) : res (bool * Bitmap.Bitmap) :=
  t ← Bitmap.Test fm s;
  if (t : bool) then fm ← Bitmap.Clear fm s; Ok (true, fm) else Ok (false, fm).

Definition free_direct (h : FileHeader) (freeMap : Bitmap.Bitmap) : res (list Z * Bitmap.Bitmap) :=
  for_each (range 0 (Z.min (nsectors h) NumDirect))
    (fun i '(ds, fm) =>
       s ← aget ds i;
       '(cleared, fm) ← free_sector fm s;
       if (cleared : bool) then ds ← aset ds i 0; Ok (ds, fm) else Ok (ds, fm)) (dataSectors h, freeMap).

Definition free_indirect (inDirect : list Z) (freeMap : Bitmap.Bitmap) : res Bitmap.Bitmap :=
  for_each (range 0 NumInDirect)
    (fun i fm => s ← aget inDirect i; '(_, fm) ← free_sector fm s; Ok fm) freeMap.

Definition Deallocate (h : FileHeader) (freeMap : Bitmap.Bitmap) : M St (FileHeader * Bitmap.Bitmap) :=
  '(ds, fm) ← lift (free_direct h freeMap);
  fm ← (if NumDirect <? u32 (nsectors h) then
          k ← lift (aget ds NumDirect);
          bs ← store_read k;
          fm ← lift (free_indirect (bytes_to_ints bs) fm);
          lift (Bitmap.Clear fm k)
        else mret fm);
  ds ← lift (aset ds NumDirect 0);
  mret (MkHeader 0 0 0 (selfSector h) (ftype h) (createTime h) (modifyTime h) ds, fm).

(** [n < NumDirect] is an unsigned comparison. *)
Definition ByteToSector (h : FileHeader) (offset : Z) : M St Z :=
  let n := offset /c SectorSize in
  if u32 n <? NumDirect then
    s ← lift (aget (dataSectors h) n);
    _ ← lift (ASSERT (0 <? s));
    mret s
  else
    k ← lift (aget (dataSectors h) NumDirect);
    _ ← lift (ASSERT (0 <? k));
    bs ← store_read k;
    s ← lift (aget (bytes_to_ints bs) (i32 (n - NumDirect)));
    _ ← lift (ASSERT (0 <? s));
    mret s.
End Ops.

(** * What a header describes *)

Section Spec.
Context {St : Type} {SS : SectorStore St}.
Implicit Types (st : St) (h : FileHeader) (bl cb : list Z) (fm : Bitmap.Bitmap).

(** The 32 ints of a sector. *)
Definition table st (k : Z) : list Z := bytes_to_ints (store_sector st k).

Lemma bytes_to_words_length n (bs : list Z) : length bs = (4 * n)%nat -> length (bytes_to_words bs) = n.
Proof.
  revert bs. induction n as [|n IH]; intros bs Hl; [by apply nil_length_inv in Hl as ->|].
  destruct bs as [|? [|? [|? [|? bs]]]]; simpl in Hl; try lia. cbn [bytes_to_words length].
  f_equal. apply IH. lia.
Qed.

Lemma table_length st (k : Z) : store_wf st -> 0 <= k < NumSectors -> length (table st k) = 32%nat.
Proof.
  intros Hwf Hk. unfold table, bytes_to_ints. rewrite length_map. apply bytes_to_words_length.
  pose proof (store_sector_length st k Hwf Hk) as H. change SectorSize with 128 in H. lia.
Qed.

(** The indirect sector, 0 when there is none. *)
Definition indirect h : Z := default 0 (dataSectors h !! 24%nat).

Record holds st h bl : Prop := {
  ho_len : length (dataSectors h) = 25%nat;
  ho_n : nsectors h = Z.of_nat (length bl);
  ho_max : (length bl <= 56)%nat;
  ho_cap : capacity h = nsectors h * 128;
  ho_limit : 0 <= limit h <= capacity h;
  ho_direct : forall i, (i < 24)%nat -> dataSectors h !! i = Some (default 0 (bl !! i));
  ho_range : Forall (fun b => 0 < b < NumSectors) bl;
  ho_nodup : NoDup bl;
  ho_none : (length bl <= 24)%nat -> indirect h = 0;
  ho_ind : (24 < length bl)%nat -> 0 < indirect h < NumSectors /\ indirect h ∉ bl /\
    forall j, (j < 32)%nat -> table st (indirect h) !! j = Some (default 0 (bl !! (24 + j)%nat))
}.

Lemma constants : NumDirect = 24 /\ NumInDirect = 32 /\ MaxFileSize = 7168.
Proof. done. Qed.

(** ** Direct entries *)

(** The direct table [ds] lists the first sectors of [bl]. *)
Definition direct_table (ds bl : list Z) : Prop :=
  length ds = 25%nat /\ forall i, (i < 24)%nat -> ds !! i = Some (default 0 (bl !! i)).

Lemma alloc_direct_spec h fm cb (N : nat) bl :
  direct_table (dataSectors h) bl -> nsectors h = Z.of_nat (length bl) ->
  (length bl <= 56)%nat -> Bitmap.free_list fm cb -> 0 ∉ cb -> (N <= length cb)%nat ->
  let d := (N `min` (24 - length bl))%nat in
  exists ds' fm', alloc_direct h fm (Z.of_nat N) = Ok (ds', fm', Z.of_nat (N - d)) /\
    direct_table ds' (bl ++ take d cb) /\ ds' !! 24%nat = dataSectors h !! 24%nat /\
    Bitmap.free_list fm' (drop d cb) /\ Bitmap.numBits fm' = Bitmap.numBits fm.
Proof.
  intros Hdt Hn Hmax Hfl H0 HN d. unfold alloc_direct. rewrite u32_id by (unfold is_u32; lia).
  change NumDirect with 24.
  destruct (decide (24 <= nsectors h)) as [Hge|Hlt].
  { rewrite range_nil by lia. subst d. replace (24 - length bl)%nat with 0%nat by lia.
    rewrite Nat.min_0_r. simpl. rewrite app_nil_r, Nat.sub_0_r. eauto 10. }
  match goal with |- context [for_each _ ?b _] => destruct (for_each_inv
    (fun i '(ds, fm', n) => let c := (N `min` (Z.to_nat i - length bl))%nat in
       direct_table ds (bl ++ take c cb) /\ ds !! 24%nat = dataSectors h !! 24%nat /\
       Bitmap.free_list fm' (drop c cb) /\ Bitmap.numBits fm' = Bitmap.numBits fm /\
       n = Z.of_nat (N - c))
    b (nsectors h) 24 (dataSectors h, fm, Z.of_nat N)) as ([[ds' fm'] n'] & -> & H) end.
  - lia.
  - rewrite Hn, Nat2Z.id, Nat.sub_diag, Nat.min_0_r. simpl. rewrite app_nil_r.
    split_and!; try done. lia.
  - intros i [[ds f] n] Hi (Ht & H24 & Hf & Hnb & ->).
    set (c := (N `min` (Z.to_nat i - length bl))%nat) in *.
    destruct (0 <? Z.of_nat (N - c)) eqn:E; [apply Z.ltb_lt in E|apply Z.ltb_ge in E].
    + replace (N `min` (Z.to_nat (i + 1) - length bl))%nat with (S c) by lia.
      assert (c < length cb)%nat as Hc by lia.
      destruct (drop c cb) as [|x cb'] eqn:Ed.
      { apply (f_equal length) in Ed. rewrite length_drop in Ed. simpl in Ed. lia. }
      destruct (take_drop_cons cb c x cb' Ed) as (Et & Ed' & _).
      destruct (Bitmap.FindAndSet_cons f x cb' Hf) as (f' & -> & Hf' & Hnb' & Hx & _).
      cbn [mbind res_bind]. destruct Ht as [Hl Ht]. rewrite aset_in by lia. cbn [mbind res_bind].
      assert (x <> 0) as Hx0.
      { intros ->. apply H0. rewrite <- (take_drop c), Ed. set_solver. }
      rewrite ASSERT_true by (apply Z.ltb_lt; lia). cbn [mbind res_bind].
      eexists. split; [done|]. rewrite Et, Ed', app_assoc. split_and!; [| |done|congruence|lia].
      * split; [by rewrite length_insert|]. intros j Hj. rewrite lookup_snoc_default.
        assert (length (bl ++ take c cb) = Z.to_nat i) as ->
          by (rewrite length_app, length_take; lia).
        case_decide as Ej.
        -- subst j. rewrite list_lookup_insert_eq; [done|lia].
        -- rewrite list_lookup_insert_ne by done. by apply Ht.
      * rewrite list_lookup_insert_ne by lia. done.
    + eexists. split; [done|].
      replace (N `min` (Z.to_nat (i + 1) - length bl))%nat with c by lia. done.
  - change (Z.to_nat 24) with 24%nat in H. fold d in H. destruct H as (? & ? & ? & ? & ->). eauto 10.
Qed.

(** ** The indirect table *)

(** The 32 entries of the indirect sector list the sectors of [bl] from the 24th on. *)
Definition indirect_table (ind bl : list Z) : Prop :=
  length ind = 32%nat /\ forall j, (j < 32)%nat -> ind !! j = Some (default 0 (bl !! (24 + j)%nat)).

(** The state of the loop before entry [i], when [N] sectors are wanted. *)
Definition ind_inv (bl cb : list Z) fm (N : nat) (i : Z) : list Z * Bitmap.Bitmap * Z -> Prop :=
  fun '(ind, f, n) => let c := (N `min` (Z.to_nat i - (length bl - 24)))%nat in
    indirect_table ind (bl ++ take c cb) /\ Bitmap.free_list f (drop c cb) /\
    Bitmap.numBits f = Bitmap.numBits fm /\ n = Z.of_nat (N - c).

Lemma indirect_entry bl ind (i : Z) : indirect_table ind bl -> 0 <= i < 32 ->
  aget ind i = Ok (default 0 (bl !! (24 + Z.to_nat i)%nat)).
Proof. intros [Hl Ht] Hi. apply aget_Some; [lia|]. apply Ht. lia. Qed.

Lemma indirect_table_snoc ind bl x : indirect_table ind bl -> (24 <= length bl < 56)%nat ->
  indirect_table (<[(length bl - 24)%nat := x]> ind) (bl ++ [x]).
Proof.
  intros [Hl Ht] Hb. split; [by rewrite length_insert|]. intros j Hj. rewrite lookup_snoc_default.
  case_decide as Ej.
  - replace (length bl - 24)%nat with j by lia. rewrite list_lookup_insert_eq by lia. done.
  - rewrite list_lookup_insert_ne by lia. by apply Ht.
Qed.

(** One turn of the loop: the entry is skipped, filled, or no sector is left. *)
Lemma alloc_indirect_turn bl cb fm N i s body :
  body = (fun i '(ind, fm, n) =>
       if 0 <? n then
         e ← aget ind i;
         if e =? 0 then
           '(s, fm) ← Bitmap.FindAndSet fm;
           ind ← aset ind i s;
           _ ← ASSERT (0 <=? s);
           Ok (ind, fm, n - 1)
         else Ok (ind, fm, n)
       else Ok (ind, fm, n)) ->
  Forall (fun b => 0 < b) bl -> (24 <= length bl)%nat -> 0 <= i < 32 -> ind_inv bl cb fm N i s ->
  if decide (Z.to_nat i - (length bl - 24) = length cb /\ length cb < N /\ length bl - 24 <= Z.to_nat i)%nat
  then body i s = AssertFail
  else exists s', body i s = Ok s' /\ ind_inv bl cb fm N (i + 1) s' \/
    (length cb < Z.to_nat i - (length bl - 24) /\ length cb < N)%nat.
Proof.
  intros -> Hpos Hlen Hi. destruct s as [[ind f] n]. intros (Ht & Hf & Hnb & ->).
  set (c := (N `min` (Z.to_nat i - (length bl - 24)))%nat) in *.
  destruct (0 <? Z.of_nat (N - c)) eqn:E; [apply Z.ltb_lt in E|apply Z.ltb_ge in E].
  2:{ rewrite decide_False by lia. eexists. left. split; [done|].
      unfold ind_inv. cbv zeta. replace (N `min` (Z.to_nat (i + 1) - (length bl - 24)))%nat with c by lia. done. }
  rewrite (indirect_entry _ _ _ Ht) by lia. cbn [mbind res_bind].
  destruct (decide (length bl - 24 <= Z.to_nat i)%nat) as [Hge|Hlt].
  - destruct (decide (length cb < Z.to_nat i - (length bl - 24))%nat) as [Hov|Hov].
    { rewrite decide_False by lia. exists (ind, f, 0). right. lia. }
    rewrite lookup_ge_None_2 by (rewrite length_app, length_take; lia).
    change (default 0 (@None Z) =? 0) with true. cbv iota.
    destruct (drop c cb) as [|x cb'] eqn:Ed.
    + apply (f_equal length) in Ed. rewrite length_drop in Ed. simpl in Ed.
      rewrite decide_True by lia. rewrite (Bitmap.FindAndSet_nil f) by done. cbn [mbind res_bind].
      destruct Ht as [Hl _]. rewrite aset_in by lia. done.
    + destruct (take_drop_cons cb c x cb' Ed) as (Et & Ed' & Hc).
      rewrite decide_False by lia.
      destruct (Bitmap.FindAndSet_cons f x cb' Hf) as (f' & -> & Hf' & Hnb' & Hx & _).
      cbn [mbind res_bind]. pose proof Ht as [Hl _]. rewrite aset_in by lia. cbn [mbind res_bind].
      rewrite ASSERT_true by (apply Z.leb_le; lia). cbn [mbind res_bind].
      eexists. left. split; [done|]. unfold ind_inv. cbv zeta.
      replace (N `min` (Z.to_nat (i + 1) - (length bl - 24)))%nat with (S c) by lia.
      rewrite Et, Ed', app_assoc. split_and!; [|done|congruence|lia].
      replace (Z.to_nat i) with (length (bl ++ take c cb) - 24)%nat
        by (rewrite length_app, length_take; lia).
      apply indirect_table_snoc; [done|]. rewrite length_app, length_take. lia.
  - rewrite decide_False by lia. assert (c = 0%nat) as Hc0 by lia.
    rewrite Hc0 in *. simpl in Ht, Hf. rewrite app_nil_r in Ht.
    cbn [take]. rewrite app_nil_r.
    destruct (lookup_lt_is_Some_2 bl (24 + Z.to_nat i)%nat) as [y Hy]; [lia|].
    rewrite Hy. rewrite Forall_lookup in Hpos. specialize (Hpos _ _ Hy). simpl in Hpos.
    change (default 0 (Some y)) with y. rewrite (proj2 (Z.eqb_neq y 0)) by lia.
    eexists. left. split; [done|]. unfold ind_inv. cbv zeta.
    replace (N `min` (Z.to_nat (i + 1) - (length bl - 24)))%nat with 0%nat by lia.
    simpl. rewrite app_nil_r. done.
Qed.

Lemma alloc_indirect_spec ind fm bl cb (N : nat) :
  indirect_table ind bl -> Forall (fun b => 0 < b) bl -> (24 <= length bl)%nat ->
  (length bl + N <= 56)%nat -> Bitmap.free_list fm cb -> (N <= length cb)%nat ->
  exists ind' fm', alloc_indirect ind fm (Z.of_nat N) = Ok (ind', fm', 0) /\
    indirect_table ind' (bl ++ take N cb) /\ Bitmap.free_list fm' (drop N cb) /\
    Bitmap.numBits fm' = Bitmap.numBits fm.
Proof.
  intros Ht Hpos Hlen HN Hfl Hcb. unfold alloc_indirect. change NumInDirect with 32.
  match goal with |- context [for_each _ ?b _] => destruct (for_each_inv
    (ind_inv bl cb fm N) b 0 32 (ind, fm, Z.of_nat N)) as ([[ds' fm'] n'] & -> & H) end.
  - lia.
  - unfold ind_inv. cbv zeta. rewrite Nat.sub_0_l, Nat.min_0_r. cbn [take drop]. rewrite app_nil_r.
    split_and!; try done. lia.
  - intros i s Hi Hinv. epose proof (alloc_indirect_turn bl cb fm N i s _ eq_refl Hpos Hlen Hi Hinv) as H.
    rewrite decide_False in H by lia. destruct H as (s' & [?|?]); [by eauto|lia].
  - unfold ind_inv in H. cbv zeta in H.
    replace (N `min` (Z.to_nat 32 - (length bl - 24)))%nat with N in H by lia.
    destruct H as (? & ? & ? & ->). exists ds', fm'. rewrite Nat.sub_diag. done.
Qed.

Lemma alloc_indirect_exhausted ind fm bl cb (N : nat) :
  indirect_table ind bl -> Forall (fun b => 0 < b) bl -> (24 <= length bl)%nat ->
  (length bl + N <= 56)%nat -> Bitmap.free_list fm cb -> (length cb < N)%nat ->
  alloc_indirect ind fm (Z.of_nat N) = AssertFail.
Proof.
  intros Ht Hpos Hlen HN Hfl Hcb. unfold alloc_indirect. change NumInDirect with 32.
  apply (for_each_fails (ind_inv bl cb fm N) _ 0 (Z.of_nat (length bl - 24 + length cb))).
  - lia.
  - unfold ind_inv. cbv zeta. rewrite Nat.sub_0_l, Nat.min_0_r. cbn [take drop]. rewrite app_nil_r.
    split_and!; try done. lia.
  - intros i s Hi Hinv.
    epose proof (alloc_indirect_turn bl cb fm N i s _ eq_refl Hpos Hlen ltac:(lia) Hinv) as H.
    rewrite decide_False in H by lia. destruct H as (s' & [?|?]); [by eauto|lia].
  - intros s Hinv.
    epose proof (alloc_indirect_turn bl cb fm N _ s _ eq_refl Hpos Hlen _ Hinv) as H.
    rewrite decide_True in H by lia. exact H.
    Unshelve. lia.
Qed.

(** ** Allocation *)

(** A free map of the whole disk whose clear bits are [cb], sector 0 not among them. *)
Definition free_map fm cb : Prop :=
  Bitmap.free_list fm cb /\ Bitmap.numBits fm = NumSectors /\ 0 ∉ cb.

Lemma free_map_range fm cb x : free_map fm cb -> x ∈ cb -> 0 < x < NumSectors.
Proof.
  intros ([Hwf <-] & <- & H0) Hx. pose proof Hx as [_ ?]%Bitmap.elem_of_clear_bits.
  assert (x <> 0) by (by intros ->). lia.
Qed.

Lemma free_map_NoDup fm cb : free_map fm cb -> NoDup cb.
Proof. intros ([_ <-] & _). apply Bitmap.clear_bits_NoDup. Qed.

Lemma free_map_drop fm fm' cb n : free_map fm cb -> Bitmap.free_list fm' (drop n cb) ->
  Bitmap.numBits fm' = Bitmap.numBits fm -> free_map fm' (drop n cb).
Proof.
  intros (_ & Hn & H0) Hf Hn'. split_and!; [done|congruence|].
  intros Hin. apply H0. rewrite <- (take_drop n cb). set_solver.
Qed.

(** The two states agree on every sector but [k], when [k] is one (0 stands for none). *)
Definition agree_but st st' (k : Z) : Prop :=
  forall t, 0 <= t < NumSectors -> t <> k \/ t = 0 -> store_sector st' t = store_sector st t.

Lemma sector_is_i32 x : 0 <= x < NumSectors -> is_i32 x.
Proof. change NumSectors with 1024. unfold is_i32. lia. Qed.

Lemma indirect_table_i32 ind bl : indirect_table ind bl ->
  Forall (fun b => 0 < b < NumSectors) bl -> Forall is_i32 ind.
Proof.
  intros [Hl Ht] Hr. apply Forall_lookup. intros i x Hx.
  assert (i < 32)%nat as Hi by (rewrite <- Hl; by eapply lookup_lt_Some).
  rewrite Ht in Hx by done. assert (x = default 0 (bl !! (24 + i)%nat)) as -> by congruence.
  destruct (bl !! (24 + i)%nat) as [y|] eqn:E.
  - pose proof (Forall_lookup_1 _ _ _ _ Hr E) as Hy. apply (sector_is_i32 y). cbn beta in Hy. lia.
  - done.
Qed.

Lemma table_written st ind (k : Z) bs : Forall is_i32 ind -> bs = ints_to_bytes ind ->
  store_sector st k = bs -> table st k = ind.
Proof. intros Hi -> E. unfold table. rewrite E. by apply bytes_to_ints_to_bytes. Qed.

(** The header names the indirect sector [k], whose table in [st] is that of [bl]. *)
Definition indirect_ready st h bl cb (k : Z) : Prop :=
  dataSectors h !! 24%nat = Some k /\ 0 < k < NumSectors /\ k ∉ bl /\ k ∉ cb /\
  indirect_table (table st k) bl.

Definition zero_table : list Z := replicate (Z.to_nat NumInDirect) 0.

Lemma zero_table_spec bl : length bl = 24%nat -> indirect_table zero_table bl.
Proof.
  intros Hl. split; [done|]. intros j Hj. unfold zero_table.
  rewrite lookup_replicate_2 by (change (Z.to_nat NumInDirect) with 32%nat; lia).
  by rewrite lookup_ge_None_2 by lia.
Qed.

Lemma ensure_indirect_new st h fm bl cb k :
  store_wf st -> length (dataSectors h) = 25%nat -> dataSectors h !! 24%nat = Some 0 ->
  length bl = 24%nat -> free_map fm (k :: cb) -> (forall x, x ∈ bl -> x ∉ k :: cb) ->
  exists fm' st', let h' := set_data h (<[24%nat := k]> (dataSectors h)) in
    ensure_indirect h fm st = Ok ((h', fm'), st') /\ store_wf st' /\ free_map fm' cb /\
    indirect_ready st' h' bl cb k /\ agree_but st st' k.
Proof.
  intros Hwf Hl H24 Hbl Hfm Hdisj. unfold ensure_indirect.
  assert (0 < k < NumSectors) as Hk by (eapply free_map_range; [done|left]).
  change NumDirect with 24. erewrite (aget_Some _ 24) by (done || lia).
  mstep. change (0 =? 0) with true. cbv iota.
  destruct (Bitmap.FindAndSet_cons fm k cb) as (fm' & -> & Hf' & Hn' & _ & _); [apply Hfm|].
  mstep.
  rewrite aset_in by lia. mstep.
  rewrite ASSERT_true by (apply Z.leb_le; lia). mstep.
  destruct (store_write_ok st k (ints_to_bytes zero_table)) as (st' & E & Hwf' & Hs);
    [done|lia|by rewrite ints_to_bytes_length|]. unfold zero_table in E. mstep. unfold mret, M_ret. eexists _, _. split; [done|]. split; [done|].
  pose proof (free_map_NoDup _ _ Hfm) as Hnd. apply NoDup_cons in Hnd as [Hkcb _].
  split. { by apply (free_map_drop fm _ (k :: cb) 1). }
  split.
  - unfold indirect_ready. cbn [dataSectors set_data]. split_and!; try done; try lia.
    + by rewrite list_lookup_insert_eq by lia.
    + intros Hin. apply (Hdisj k Hin). left.
    + erewrite (table_written _ zero_table); [by apply zero_table_spec| |done|].
      * unfold zero_table. apply Forall_replicate. unfold is_i32; lia.
      * rewrite Hs by lia. by rewrite decide_True.
  - intros t Ht Hne. rewrite Hs by lia. by rewrite decide_False by lia.
Qed.

Lemma ensure_indirect_old st h fm k : dataSectors h !! 24%nat = Some k -> k <> 0 ->
  ensure_indirect h fm st = Ok ((h, fm), st).
Proof.
  intros E Hk. unfold ensure_indirect. change NumDirect with 24.
  erewrite (aget_Some _ 24) by (done || lia). mstep.
  by rewrite (proj2 (Z.eqb_neq k 0)).
Qed.

(** How many of [N] new sectors go to direct entries, and whether they need the indirect
    sector to be allocated. *)
Definition direct_part (bl : list Z) (N : nat) : nat := N `min` (24 - length bl).
Definition new_indirect (bl : list Z) (N : nat) : nat :=
  if decide (length bl <= 24 < length bl + N)%nat then 1 else 0.
Definition new_blocks (bl cb : list Z) (N : nat) : list Z :=
  let d := direct_part bl N in take d cb ++ take (N - d) (drop (d + new_indirect bl N) cb).

Lemma new_blocks_length bl cb N : (N + new_indirect bl N <= length cb)%nat ->
  length (new_blocks bl cb N) = N.
Proof.
  unfold new_blocks, new_indirect, direct_part. intros.
  rewrite length_app, !length_take, length_drop. case_decide; lia.
Qed.

Lemma elem_of_new_blocks bl cb N x : x ∈ new_blocks bl cb N -> x ∈ cb.
Proof.
  unfold new_blocks. rewrite elem_of_app. intros [Hx|Hx].
  - rewrite <- (take_drop (direct_part bl N) cb). set_solver.
  - rewrite <- (take_drop (direct_part bl N + new_indirect bl N) cb).
    apply elem_of_app. right. rewrite <- (take_drop (N - direct_part bl N) (drop _ cb)). set_solver.
Qed.

Lemma new_blocks_rest bl cb N x : NoDup cb -> x ∈ new_blocks bl cb N ->
  x ∉ drop (N + new_indirect bl N) cb.
Proof.
  intros Hnd Hx Hx'. unfold new_blocks in Hx. set (d := direct_part bl N) in *. set (e := new_indirect bl N) in *.
  assert (d <= N)%nat as Hd by (unfold d, direct_part; lia).
  apply elem_of_app in Hx as [Hx|Hx].
  - rewrite <- (take_drop d cb) in Hnd. apply NoDup_app in Hnd as (_ & Hnd & _). apply (Hnd x Hx).
    replace (N + e)%nat with (d + (N + e - d))%nat in Hx' by lia. rewrite <- drop_drop in Hx'.
    rewrite <- (take_drop (N + e - d) (drop d cb)). set_solver.
  - rewrite <- (take_drop (d + e) cb) in Hnd. apply NoDup_app in Hnd as (_ & _ & Hnd).
    rewrite <- (take_drop (N - d) (drop (d + e) cb)) in Hnd. apply NoDup_app in Hnd as (_ & Hnd & _).
    apply (Hnd x Hx). rewrite drop_drop. by replace (d + e + (N - d))%nat with (N + e)%nat by lia.
Qed.

Lemma new_blocks_NoDup bl cb N : NoDup cb -> NoDup (new_blocks bl cb N).
Proof.
  intros Hnd. unfold new_blocks. set (d := direct_part bl N). set (e := new_indirect bl N).
  rewrite <- (take_drop d cb) in Hnd. apply NoDup_app in Hnd as (Hd & Hdisj & Hnd).
  apply NoDup_app. split_and!; [done| |].
  - intros x Hx Hx'. apply (Hdisj x Hx). rewrite <- drop_drop in Hx'.
    rewrite <- (take_drop e (drop d cb)), <- (take_drop (N - d) (drop e (drop d cb))). set_solver.
  - rewrite <- drop_drop. eapply sublist_NoDup; [done|].
    etrans; [apply sublist_take|apply sublist_drop].
Qed.

(** What holds of the header before the call, and what the call needs of the free map. *)
Record can_allocate st h bl fm cb : Prop := {
  ca_wf : store_wf st;
  ca_holds : holds st h bl;
  ca_map : free_map fm cb;
  ca_disj : forall x, x ∈ bl -> x ∉ cb;
  ca_ind : indirect h ∉ cb
}.

Lemma blocks_wanted h bl st size : holds st h bl -> 0 < size -> capacity h + size <= MaxFileSize ->
  exists N, divRoundUp size SectorSize = Z.of_nat N /\ (0 < N)%nat /\ (length bl + N <= 56)%nat.
Proof.
  intros [] Hs Hm. change MaxFileSize with 7168 in Hm.
  assert (E : divRoundUp size SectorSize = (size + 127) / 128)
    by (rewrite divRoundUp_spec by (done || lia); f_equal; change SectorSize with 128; lia).
  pose proof (Z.div_mod (size + 127) 128 ltac:(lia)). pose proof (Z.mod_pos_bound (size + 127) 128 ltac:(lia)).
  exists (Z.to_nat ((size + 127) / 128)). rewrite E. lia.
Qed.

Lemma holds_is_data h bl st : holds st h bl -> dataSectors h !! 24%nat = Some (indirect h).
Proof.
  intros []. unfold indirect. destruct (lookup_lt_is_Some_2 (dataSectors h) 24) as [x Hx]; [lia|].
  by rewrite Hx.
Qed.

Lemma holds_grow st h bl N ds : holds st h bl -> (length bl + N <= 56)%nat ->
  let h' := grow (set_data h ds) (Z.of_nat N) in
  nsectors h' = Z.of_nat (length bl + N) /\ capacity h' = nsectors h' * 128 /\
  limit h' = limit h /\ capacity h <= capacity h'.
Proof.
  intros [] HN h'. subst h'. cbn [grow set_data nsectors capacity limit].
  change SectorSize with 128. rewrite i32_id by (unfold is_i32; lia). lia.
Qed.

(** The header that describes [bl ++ new], from the tables that list it. *)
Lemma holds_intro st st' h bl new ds k N : holds st h bl -> (length bl + N <= 56)%nat ->
  length new = N -> direct_table ds (bl ++ new) -> ds !! 24%nat = Some k ->
  Forall (fun b => 0 < b < NumSectors) new -> NoDup (bl ++ new) ->
  ((length bl + N <= 24)%nat -> k = 0) ->
  ((24 < length bl + N)%nat -> 0 < k < NumSectors /\ k ∉ bl ++ new /\
     indirect_table (table st' k) (bl ++ new)) ->
  holds st' (grow (set_data h ds) (Z.of_nat N)) (bl ++ new).
Proof.
  intros Hh HN Hnew [Hl Ht] Hk Hr Hnd H0 Hind.
  destruct (holds_grow st h bl N ds Hh HN) as (Hn & Hc & Hlim & Hge). destruct Hh.
  assert (indirect (grow (set_data h ds) (Z.of_nat N)) = k) as Hi
    by (unfold indirect; cbn [grow set_data dataSectors]; by rewrite Hk).
  constructor; rewrite ?Hi, ?length_app, ?Hnew, ?Hn, ?Hc, ?Hlim; try done; try lia.
  - by apply Forall_app.
  - intros Hlt. destruct (Hind Hlt) as (? & ? & [_ ?]). done.
Qed.

(** The guards of the call. *)
Lemma Allocate_refused st h bl fm cb size : can_allocate st h bl fm cb -> size <> 0 -> is_i32 size ->
  size < 0 \/ MaxFileSize < capacity h + size \/ Z.of_nat (length cb) < divRoundUp size SectorSize ->
  Allocate h fm size st = Ok ((false, h, fm), st).
Proof.
  intros [_ [] [Hfl _] _ _] H0 Hs Hg. unfold Allocate. unfold is_i32 in Hs.
  rewrite (proj2 (Z.eqb_neq size 0)) by done.
  destruct (Z.ltb_spec size 0) as [Hneg|Hpos]; [done|]. rewrite orb_false_l.
  rewrite u32_id by (unfold is_u32; lia).
  destruct (Z.ltb_spec MaxFileSize (size + capacity h)) as [|Hmax]; [done|].
  rewrite (Bitmap.NumClear_free_list fm cb) by done. mstep.
  rewrite (proj2 (Z.ltb_lt _ _)) by lia. done.
Qed.

(** Past the guards: the call is the direct phase and what follows it. *)
Lemma Allocate_enter st h bl fm cb size N : can_allocate st h bl fm cb -> 0 < size -> is_i32 size ->
  capacity h + size <= MaxFileSize -> divRoundUp size SectorSize = Z.of_nat N -> (N <= length cb)%nat ->
  let d := direct_part bl N in
  exists ds fm', direct_table ds (bl ++ take d cb) /\ ds !! 24%nat = Some (indirect h) /\
    free_map fm' (drop d cb) /\
    Allocate h fm size st =
      (if decide (d = N) then Ok ((true, grow (set_data h ds) (Z.of_nat N), fm'), st) else
         ('(h1, fm) ← ensure_indirect (set_data h ds) fm';
          fill_indirect h1 fm (Z.of_nat (N - d)) (Z.of_nat N)) st).
Proof.
  intros Hca Hpos Hi32 Hmax HN Hcb d. destruct Hca as [Hwf Hh Hfm Hdisj _].
  unfold is_i32 in Hi32. pose proof (holds_is_data _ _ _ Hh) as Hk. pose proof Hh as Hh0. destruct Hh.
  destruct (alloc_direct_spec h fm cb N bl) as (ds & fm' & E & Ht & H24 & Hf & Hn);
    [done|done|done|apply Hfm|apply Hfm|done|]. fold (direct_part bl N) in E, Ht, Hf. fold d in E, Ht, Hf.
  exists ds, fm'. split_and!; [done|congruence|by eapply free_map_drop|].
  unfold Allocate. rewrite (proj2 (Z.eqb_neq size 0)), (proj2 (Z.ltb_ge size 0)) by lia.
  rewrite orb_false_l, u32_id by (unfold is_u32; lia). rewrite (proj2 (Z.ltb_ge _ _)) by lia.
  rewrite (Bitmap.NumClear_free_list fm cb) by apply Hfm. mstep. rewrite HN.
  rewrite (proj2 (Z.ltb_ge _ _)) by lia. rewrite E. mstep.
  assert (d <= N)%nat by (unfold d, direct_part; lia). case_decide.
  - rewrite (proj2 (Z.eqb_eq _ _)) by lia. done.
  - rewrite (proj2 (Z.eqb_neq _ _)) by lia. done.
Qed.

(** The indirect phase, once the indirect sector [k] is there. *)
Lemma indirect_phase st h1 bl1 cb1 fm1 k (n N : nat) :
  store_wf st -> indirect_ready st h1 bl1 cb1 k -> free_map fm1 cb1 ->
  Forall (fun b => 0 < b < NumSectors) bl1 -> (24 <= length bl1)%nat -> (length bl1 + n <= 56)%nat ->
  (if decide (n <= length cb1)%nat then
    exists fm2 st', fill_indirect h1 fm1 (Z.of_nat n) (Z.of_nat N) st = Ok ((true, grow h1 (Z.of_nat N), fm2), st') /\
      store_wf st' /\ free_map fm2 (drop n cb1) /\
      indirect_table (table st' k) (bl1 ++ take n cb1) /\ agree_but st st' k
  else fill_indirect h1 fm1 (Z.of_nat n) (Z.of_nat N) st = AssertFail).
Proof.
  intros Hwf (H24 & Hk & Hkbl & Hkcb & Ht) Hfm Hr Hlen Hn. unfold fill_indirect. change NumDirect with 24.
  erewrite (aget_Some _ 24) by (done || lia). mstep.
  destruct (store_read_ok st k) as (st1 & E1 & Hwf1 & Hs1); [done|lia|]. mstep. fold (table st k).
  assert (Forall (fun b => 0 < b) bl1) as Hpos by (eapply Forall_impl; [done|]; simpl; lia).
  case_decide as Hd.
  - destruct (alloc_indirect_spec (table st k) fm1 bl1 cb1 n) as (ind & fm2 & -> & Ht2 & Hf2 & Hn2);
      [done|done|done|done|apply Hfm|done|]. mstep. rewrite Z.eqb_refl.
    destruct (store_write_ok st1 k (ints_to_bytes ind)) as (st2 & E2 & Hwf2 & Hs2);
      [done|lia|rewrite ints_to_bytes_length; destruct Ht2 as [-> _]; done|]. mstep.
    exists fm2, st2. split; [done|]. split; [done|]. split; [by eapply free_map_drop|]. split.
    + erewrite (table_written _ ind); [done| |done|].
      * eapply indirect_table_i32; [done|]. apply Forall_app. split; [done|].
        apply Forall_forall. intros x Hx. eapply free_map_range; [done|].
        rewrite <- (take_drop n cb1). set_solver.
      * rewrite Hs2 by lia. by rewrite decide_True.
    + intros t Htr Hne. rewrite Hs2 by lia. rewrite decide_False by lia. by apply Hs1.
  - rewrite (alloc_indirect_exhausted _ _ bl1 cb1) by (try apply Hfm; done || lia). done.
Qed.

Lemma elem_of_take {n : nat} {x : Z} {l : list Z} : x ∈ take n l -> x ∈ l.
Proof. intros Hx. rewrite <- (take_drop n l). set_solver. Qed.

Lemma elem_of_drop {n : nat} {x : Z} {l : list Z} : x ∈ drop n l -> x ∈ l.
Proof. intros Hx. rewrite <- (take_drop n l). set_solver. Qed.

(** The call succeeds: the header then describes [bl] followed by the new sectors. *)
Definition allocated st st' h h' bl cb fm' N : Prop :=
  store_wf st' /\ holds st' h' (bl ++ new_blocks bl cb N) /\
  free_map fm' (drop (N + new_indirect bl N) cb) /\ agree_but st st' (indirect h') /\
  limit h' = limit h /\ selfSector h' = selfSector h /\ ftype h' = ftype h /\
  createTime h' = createTime h /\ modifyTime h' = modifyTime h /\
  (indirect h' = indirect h \/ indirect h' ∈ cb) /\ indirect h' ∉ drop (N + new_indirect bl N) cb.

Lemma new_blocks_ok st h bl fm cb N : can_allocate st h bl fm cb ->
  Forall (fun b => 0 < b < NumSectors) (new_blocks bl cb N) /\ NoDup (bl ++ new_blocks bl cb N).
Proof.
  intros [_ [] Hfm Hdisj _]. split.
  - apply Forall_forall. intros x Hx%elem_of_new_blocks. by eapply free_map_range.
  - apply NoDup_app. split_and!; [done| |apply new_blocks_NoDup; by eapply free_map_NoDup].
    intros x Hx Hx'%elem_of_new_blocks. by apply (Hdisj x).
Qed.

Lemma agree_refl st k : agree_but st st k.
Proof. done. Qed.

Lemma agree_trans st st1 st2 k : agree_but st st1 k -> agree_but st1 st2 k -> agree_but st st2 k.
Proof. intros H1 H2 t Ht Hne. by rewrite H2, H1. Qed.

Lemma Allocate_direct st h bl fm cb size N : can_allocate st h bl fm cb -> 0 < size -> is_i32 size ->
  capacity h + size <= MaxFileSize -> divRoundUp size SectorSize = Z.of_nat N -> (N <= length cb)%nat ->
  (length bl + N <= 24)%nat ->
  exists h' fm', Allocate h fm size st = Ok ((true, h', fm'), st) /\ allocated st st h h' bl cb fm' N.
Proof.
  intros Hca Hpos Hi Hmax HN Hcb Hlt.
  destruct (Allocate_enter st h bl fm cb size N) as (ds & fm' & Ht & H24 & Hfm & E); [done..|].
  destruct (new_blocks_ok st h bl fm cb N Hca) as [Hr Hnd].
  assert (direct_part bl N = N /\ new_indirect bl N = 0%nat) as [Hd He]
    by (unfold direct_part, new_indirect; rewrite decide_False by lia; lia).
  assert (new_blocks bl cb N = take N cb) as Hnew
    by (unfold new_blocks; rewrite Hd, He, Nat.sub_diag; cbn [take]; by rewrite app_nil_r).
  rewrite Hd in *. rewrite Hnew in *. rewrite decide_True in E by done.
  eexists _, _. split; [done|]. unfold allocated. rewrite He, Nat.add_0_r, Hnew.
  split; [apply Hca|]. split; [|split; [done|split; [apply agree_refl|]]].
  2:{ assert (indirect (grow (set_data h ds) (Z.of_nat N)) = indirect h) as ->
        by (unfold indirect at 1; cbn [grow set_data dataSectors]; by rewrite H24).
      split_and!; try done; [by left|]. intros Hx%elem_of_drop. by apply (ca_ind _ _ _ _ _ Hca). }
  eapply (holds_intro st st h bl (take N cb) ds (indirect h)); try done; [apply Hca|lia| | |lia].
  - rewrite length_take. lia.
  - intros _. apply (ho_none st h bl); [apply Hca|lia].
Qed.

(** When the direct entries are not enough, the indirect sector is made ready. *)
Lemma prepare_indirect st h bl fm cb N ds fm' : can_allocate st h bl fm cb ->
  (N <= length cb)%nat -> (24 < length bl + N)%nat ->
  let d := direct_part bl N in
  direct_table ds (bl ++ take d cb) -> ds !! 24%nat = Some (indirect h) -> free_map fm' (drop d cb) ->
  exists ds1 fm1 st1 k, let cb1 := drop (d + new_indirect bl N) cb in
    ensure_indirect (set_data h ds) fm' st = Ok ((set_data h ds1, fm1), st1) /\
    store_wf st1 /\ direct_table ds1 (bl ++ take d cb) /\ free_map fm1 cb1 /\
    indirect_ready st1 (set_data h ds1) (bl ++ take d cb) cb1 k /\ agree_but st st1 k /\
    (k = indirect h \/ k ∈ cb).
Proof.
  intros [Hwf Hh Hfm Hdisj Hind] HN Hlt d Ht H24 Hfm'. pose proof Hh as []. unfold new_indirect.
  destruct (decide (length bl <= 24)%nat) as [Hle|Hgt].
  - rewrite decide_True by lia.
    destruct (drop d cb) as [|k cb1] eqn:Ed.
    { apply (f_equal length) in Ed. rewrite length_drop in Ed. unfold d, direct_part in Ed. simpl in Ed. lia. }
    destruct (take_drop_cons cb d k cb1 Ed) as (_ & Ed' & Hd).
    replace (d + 1)%nat with (S d) by lia. rewrite Ed'.
    destruct (ensure_indirect_new st (set_data h ds) fm' (bl ++ take d cb) cb1 k)
      as (fm1 & st1 & E & Hwf1 & Hfm1 & Hr & Ha); [done|apply Ht| | |done| |].
    + cbn [set_data dataSectors]. rewrite H24. f_equal. by apply ho_none0.
    + rewrite length_app, length_take. unfold d, direct_part in *. lia.
    + intros x [Hx|Hx]%elem_of_app Hx'.
      * apply (Hdisj x Hx). apply (@elem_of_drop d). by rewrite Ed.
      * pose proof (free_map_NoDup _ _ Hfm) as Hnd. rewrite <- (take_drop d cb), Ed in Hnd.
        apply NoDup_app in Hnd as (_ & Hnd & _). by apply (Hnd x).
    + exists (<[24%nat:=k]> ds), fm1, st1, k. cbn zeta. split_and!; try done.
      2:{ right. apply (@elem_of_drop d). rewrite Ed. left. }
      destruct Ht as [Hl Ht]. split; [by rewrite length_insert|]. intros i Hi.
      rewrite list_lookup_insert_ne by lia. by apply Ht.
  - rewrite decide_False by lia. rewrite Nat.add_0_r.
    destruct ho_ind0 as (Hk & Hkbl & Htab); [lia|].
    assert (d = 0%nat) as Hd by (unfold d, direct_part; lia). rewrite Hd in *. cbn [take drop] in *.
    rewrite app_nil_r in *.
    exists ds, fm', st, (indirect h). cbn zeta. split_and!; try done; [| |by left].
    + eapply ensure_indirect_old; [done|lia].
    + unfold indirect_ready. split_and!; try done; try lia. split; [|done].
      by apply table_length; [|lia].
Qed.

Lemma Allocate_indirect st h bl fm cb size N : can_allocate st h bl fm cb -> 0 < size -> is_i32 size ->
  capacity h + size <= MaxFileSize -> divRoundUp size SectorSize = Z.of_nat N ->
  (0 < N <= length cb)%nat -> (24 < length bl + N <= 56)%nat ->
  if decide (N + new_indirect bl N <= length cb)%nat then
    exists h' fm' st', Allocate h fm size st = Ok ((true, h', fm'), st') /\ allocated st st' h h' bl cb fm' N
  else Allocate h fm size st = AssertFail.
Proof.
  intros Hca Hpos Hi Hmax HN Hcb Hlt.
  destruct (Allocate_enter st h bl fm cb size N) as (ds & fm' & Ht & H24 & Hfm & E); [done..|lia|].
  destruct (prepare_indirect st h bl fm cb N ds fm')
    as (ds1 & fm1 & st1 & k & E1 & Hwf1 & Ht1 & Hfm1 & Hr1 & Ha1 & Hkc); [done|lia|lia|done..|].
  set (d := direct_part bl N) in *. set (e := new_indirect bl N) in *.
  assert (d <= N)%nat as Hd by (unfold d, direct_part; lia).
  assert (N <> d) as Hd' by (unfold d, direct_part; lia).
  assert (24 <= length (bl ++ take d cb))%nat as H24'
    by (rewrite length_app, length_take; unfold d, direct_part in *; lia).
  assert (length (bl ++ take d cb) + (N - d) <= 56)%nat as Hn by (rewrite length_app, length_take; lia).
  rewrite (decide_False (P := d = N)) in E by lia. erewrite bind_M_Ok in E by exact E1.
  cbv beta iota in E. rewrite E.
  assert (Forall (fun b => 0 < b < NumSectors) (bl ++ take d cb)) as Hr.
  { destruct Hca as [_ [] Hfm0 _ _]. apply Forall_app. split; [done|]. apply Forall_forall.
    intros x Hx%elem_of_take. by apply (free_map_range fm cb). }
  pose proof (indirect_phase st1 (set_data h ds1) _ _ fm1 k (N - d) N Hwf1 Hr1 Hfm1 Hr H24' Hn) as Hph.
  assert (length (drop (d + e) cb) = length cb - (d + e))%nat as Hl by apply length_drop.
  case_decide as Hlen1; [rewrite decide_True by lia|rewrite decide_False by lia; done].
  destruct Hph as (fm2 & st2 & E2 & Hwf2 & Hfm2 & Ht2 & Ha2).
  destruct (new_blocks_ok st h bl fm cb N Hca) as [Hnr Hnd].
  destruct Hr1 as (Hk24 & Hk & Hkbl & Hkcb & _). cbn [set_data dataSectors] in Hk24.
  assert (bl ++ new_blocks bl cb N = (bl ++ take d cb) ++ take (N - d) (drop (d + e) cb)) as Eb
    by (unfold new_blocks; fold d e; by rewrite <- app_assoc).
  eexists _, _, _. split; [exact E2|]. unfold allocated. fold e.
  assert (indirect (grow (set_data h ds1) (Z.of_nat N)) = k) as ->
    by (unfold indirect; cbn [grow set_data dataSectors]; by rewrite Hk24).
  split; [done|]. split; [|split; [|split; [exact (agree_trans _ _ _ _ Ha1 Ha2)|]]].
  3:{ split_and!; try done. intros Hx. apply Hkcb. apply (@elem_of_drop (N - d)). rewrite drop_drop.
      replace (d + e + (N - d))%nat with (N + e)%nat by lia. exact Hx. }
  - eapply (holds_intro st st2 h bl _ ds1 k); try done; [apply Hca|lia|apply new_blocks_length; fold e; lia| | |].
    + rewrite Eb. destruct Ht1 as [Hl1 Ht1]. split; [done|]. intros i Hi'. rewrite Ht1 by done.
      by rewrite (lookup_app_l (_ ++ _)) by lia.
    + lia.
    + intros _. rewrite Eb. split_and!; try done; try lia. intros [?|Hx]%elem_of_app; [done|].
      apply Hkcb. by apply elem_of_take in Hx.
  - rewrite drop_drop in Hfm2. replace (d + e + (N - d))%nat with (N + e)%nat in Hfm2 by lia. done.
Qed.

(** ** Finding a sector *)

Lemma quot_sector off : 0 <= off -> off /c SectorSize = off / 128.
Proof. intros. change SectorSize with 128. by rewrite Z.quot_div_nonneg by lia. Qed.

Lemma ByteToSector_direct st h bl off : store_wf st -> holds st h bl -> 0 <= off < 128 * 24 ->
  ByteToSector h off st =
    match bl !! Z.to_nat (off / 128) with Some b => Ok (b, st) | None => AssertFail end.
Proof.
  intros Hwf [] Hoff. unfold ByteToSector. cbv zeta. rewrite quot_sector by lia.
  pose proof (Z.div_pos off 128). pose proof (Z.div_lt_upper_bound off 128 24).
  rewrite u32_id by (unfold is_u32; lia). change NumDirect with 24. rewrite (proj2 (Z.ltb_lt _ _)) by lia.
  erewrite aget_Some; [|lia|apply ho_direct0; lia]. mstep.
  destruct (bl !! Z.to_nat (off / 128)) as [b|] eqn:E; [|done].
  pose proof (Forall_lookup_1 _ _ _ _ ho_range0 E) as Hb. cbn beta in Hb.
  cbn [default from_option]. rewrite ASSERT_true by (apply Z.ltb_lt; simpl; lia). done.
Qed.

Lemma ByteToSector_indirect st h bl off : store_wf st -> holds st h bl -> 128 * 24 <= off < 128 * 56 ->
  match bl !! Z.to_nat (off / 128) with
  | Some b => exists st', ByteToSector h off st = Ok (b, st') /\ store_wf st' /\ agree_but st st' 0
  | None => ByteToSector h off st = AssertFail
  end.
Proof.
  intros Hwf Hh Hoff. pose proof (holds_is_data _ _ _ Hh) as Hk. destruct Hh.
  unfold ByteToSector. cbv zeta. rewrite quot_sector by lia.
  pose proof (Z.div_le_lower_bound off 128 24). pose proof (Z.div_lt_upper_bound off 128 56).
  set (n := off / 128) in *. rewrite u32_id by (unfold is_u32; lia).
  change NumDirect with 24. rewrite (proj2 (Z.ltb_ge _ _)) by lia.
  erewrite (aget_Some _ 24) by (done || lia). mstep.
  destruct (decide (24 < length bl)%nat) as [Hgt|Hle].
  2:{ rewrite lookup_ge_None_2 by lia. rewrite ho_none0 by lia. done. }
  destruct ho_ind0 as (Hkr & _ & Ht); [done|]. rewrite ASSERT_true by (apply Z.ltb_lt; lia). mstep.
  destruct (store_read_ok st (indirect h)) as (st1 & E & Hwf1 & Hs); [done|lia|]. mstep.
  fold (table st (indirect h)). rewrite i32_id by (unfold is_i32; lia).
  erewrite aget_Some; [|lia|apply Ht; lia]. mstep.
  replace (24 + Z.to_nat (n - 24))%nat with (Z.to_nat n) by lia.
  destruct (bl !! Z.to_nat n) as [b|] eqn:Eb; [|done].
  pose proof (Forall_lookup_1 _ _ _ _ ho_range0 Eb) as Hb. cbn beta in Hb.
  cbn [default from_option]. rewrite ASSERT_true by (apply Z.ltb_lt; simpl; lia). mstep.
  eexists. split; [done|]. split; [done|]. intros t Ht' _. by apply Hs.
Qed.

(** ** Giving sectors back *)

(** [fm'] is [fm] with the bits of [l] cleared. *)
Definition cleared fm fm' (l : list Z) : Prop :=
  Bitmap.wf fm' /\ Bitmap.numBits fm' = Bitmap.numBits fm /\
  forall j, 0 <= j -> Bitmap.bit fm' j = Bitmap.bit fm j && bool_decide (j ∉ l).

Lemma cleared_nil fm : Bitmap.wf fm -> cleared fm fm [].
Proof.
  intros. split_and!; [done..|]. intros j _. rewrite bool_decide_true by set_solver. by rewrite andb_true_r.
Qed.

Lemma cleared_trans fm fm1 fm2 l1 l2 : cleared fm fm1 l1 -> cleared fm1 fm2 l2 -> cleared fm fm2 (l1 ++ l2).
Proof.
  intros (_ & Hn1 & Hb1) (Hw & Hn2 & Hb2). split_and!; [done|congruence|]. intros j Hj.
  rewrite Hb2, Hb1 by done. rewrite <- andb_assoc. f_equal. rewrite <- bool_decide_and.
  apply bool_decide_ext. rewrite elem_of_app. tauto.
Qed.

Lemma free_sector_spec fm x : Bitmap.wf fm -> 0 <= x < Bitmap.numBits fm ->
  exists fm', free_sector fm x = Ok (Bitmap.bit fm x, fm') /\ cleared fm fm' [x].
Proof.
  intros Hwf Hx. unfold free_sector. rewrite Bitmap.Test_spec by done. cbn [mbind res_bind].
  destruct (Bitmap.bit fm x) eqn:E.
  - destruct (Bitmap.Clear_correct fm x) as (fm' & -> & Hw & Hn & Hb); [done|done|].
    cbn [mbind res_bind]. exists fm'. split; [done|]. split_and!; [done|done|]. intros j Hj.
    rewrite Hb by done. rewrite andb_comm. f_equal.
    destruct (Z.eqb_spec j x); simpl; [rewrite bool_decide_false|rewrite bool_decide_true]; set_solver.
  - exists fm. split; [done|]. split_and!; [done|done|]. intros j Hj.
    case_bool_decide as Hjx; [by rewrite andb_true_r|].
    assert (j = x) as -> by set_solver. by rewrite E.
Qed.

Lemma free_indirect_spec fm ind : Bitmap.wf fm -> length ind = 32%nat ->
  Forall (fun x => 0 <= x < Bitmap.numBits fm) ind ->
  exists fm', free_indirect ind fm = Ok fm' /\ cleared fm fm' ind.
Proof.
  intros Hwf Hl Hr. unfold free_indirect. change NumInDirect with 32.
  match goal with |- context [for_each _ ?b _] => destruct (for_each_inv
    (fun i f => cleared fm f (take (Z.to_nat i) ind)) b 0 32 fm) as (fm' & -> & H) end.
  - lia.
  - by apply cleared_nil.
  - intros i f Hi Hc. destruct (lookup_lt_is_Some_2 ind (Z.to_nat i)) as [x Hx]; [lia|].
    erewrite aget_Some by (done || lia). cbn [mbind res_bind].
    pose proof (Forall_lookup_1 _ _ _ _ Hr Hx) as Hxr. cbn beta in Hxr. pose proof Hc as (Hw & Hn & _).
    destruct (free_sector_spec f x) as (f' & -> & Hc'); [done|lia|]. cbn [mbind res_bind].
    exists f'. split; [done|]. replace (Z.to_nat (i + 1)) with (S (Z.to_nat i)) by lia.
    erewrite take_S_r by done. by eapply cleared_trans.
  - rewrite take_ge in H by lia. eauto.
Qed.

Lemma free_direct_spec st h bl fm : holds st h bl -> Bitmap.wf fm -> Bitmap.numBits fm = NumSectors ->
  (forall x, x ∈ bl -> Bitmap.bit fm x = true) ->
  exists ds fm', free_direct h fm = Ok (ds, fm') /\ cleared fm fm' (take 24 bl) /\
    length ds = 25%nat /\ ds !! 24%nat = Some (indirect h) /\ forall i, (i < 24)%nat -> ds !! i = Some 0.
Proof.
  intros Hh Hwf Hnb Hset. pose proof (holds_is_data _ _ _ Hh) as Hk. destruct Hh.
  unfold free_direct. change NumDirect with 24. set (m := Z.min (nsectors h) 24).
  match goal with |- context [for_each _ ?b _] => destruct (for_each_inv
    (fun i '(ds, f) => cleared fm f (take (Z.to_nat i) bl) /\ length ds = 25%nat /\
       forall j, ds !! j = if decide (j < Z.to_nat i)%nat then Some 0 else dataSectors h !! j)
    b 0 m (dataSectors h, fm)) as ([ds fm'] & -> & Hc & Hl & Hds) end.
  - lia.
  - split_and!; [by apply cleared_nil|done|]. intros j. by rewrite decide_False by lia.
  - intros i [ds f] Hi (Hc & Hl & Hds). pose proof Hc as (Hw & Hn & Hbit).
    destruct (lookup_lt_is_Some_2 bl (Z.to_nat i)) as [x Hx]; [lia|].
    assert (ds !! Z.to_nat i = Some x) as Hi'.
    { rewrite Hds, decide_False, ho_direct0 by lia. by rewrite Hx. }
    pose proof (Forall_lookup_1 _ _ _ _ ho_range0 Hx) as Hxr. cbn beta in Hxr.
    erewrite aget_Some by (done || lia). cbn [mbind res_bind].
    destruct (free_sector_spec f x) as (f' & -> & Hc'); [done|lia|]. cbn [mbind res_bind].
    assert (Bitmap.bit f x = true) as Hfx.
    { rewrite Hbit, Hset by (try lia; by apply list_elem_of_lookup_2 in Hx).
      apply bool_decide_true. intros (k & Hkk)%list_elem_of_lookup. apply lookup_take_Some in Hkk as [Hkk ?].
      pose proof (NoDup_lookup bl k (Z.to_nat i) x ho_nodup0 Hkk Hx). lia. }
    rewrite Hfx. cbv iota. rewrite aset_in by lia. cbn [mbind res_bind]. eexists. split; [done|].
    replace (Z.to_nat (i + 1)) with (S (Z.to_nat i)) by lia. split_and!.
    + erewrite take_S_r by done. by eapply cleared_trans.
    + by rewrite length_insert.
    + intros j. destruct (decide (j = Z.to_nat i)) as [->|Hne].
      * rewrite list_lookup_insert_eq, decide_True by lia. done.
      * rewrite list_lookup_insert_ne, Hds by done. repeat case_decide; done || lia.
  - exists ds, fm'. split; [done|]. split.
    { destruct (decide (length bl <= 24)%nat).
      - rewrite !take_ge in * by lia. done.
      - replace (Z.to_nat m) with 24%nat in Hc by lia. done. }
    split; [done|]. split; [by rewrite Hds, decide_False by lia|].
    intros i Hi. rewrite Hds. case_decide; [done|]. rewrite ho_direct0 by done.
    by rewrite lookup_ge_None_2 by lia.
Qed.

(** The sectors whose bits Deallocate clears: a partly filled indirect table also names
    sector 0. *)
Definition freed h bl : list Z :=
  take 24 bl ++
  (if decide (24 < length bl)%nat then
     map (fun j => default 0 (bl !! (24 + j)%nat)) (seq 0 32) ++ [indirect h] else []).

Lemma table_holds st h bl : store_wf st -> holds st h bl -> (24 < length bl)%nat ->
  table st (indirect h) = map (fun j => default 0 (bl !! (24 + j)%nat)) (seq 0 32).
Proof.
  intros Hwf [] Hlt. destruct ho_ind0 as (Hk & _ & Ht); [done|].
  assert (length (table st (indirect h)) = 32%nat) as Hl by (apply table_length; [done|lia]).
  apply list_eq. intros i. destruct (decide (i < 32)%nat).
  - rewrite Ht by done. rewrite list_lookup_fmap, lookup_seq_lt by done. done.
  - rewrite !lookup_ge_None_2; [done|rewrite length_map, length_seq; lia|lia].
Qed.

Lemma elem_of_freed h bl x : (length bl <= 56)%nat ->
  x ∈ freed h bl <-> x ∈ bl \/ (24 < length bl)%nat /\ x = indirect h \/ (24 < length bl < 56)%nat /\ x = 0.
Proof.
  intros Hm. unfold freed. rewrite elem_of_app. case_decide as Hd.
  - rewrite elem_of_app, list_elem_of_singleton, list_elem_of_fmap. split.
    + intros [Hx|[(j & -> & Hj%elem_of_seq)|Hx]]; [left; by apply elem_of_take in Hx| |tauto].
      destruct (bl !! (24 + j)%nat) as [y|] eqn:E.
      * left. by apply list_elem_of_lookup_2 in E.
      * right; right. apply lookup_ge_None in E. split; [lia|done].
    + intros [Hx|[[_ Hx]|[Hx ->]]]; [|tauto|].
      * apply list_elem_of_lookup in Hx as [i Hi]. pose proof (lookup_lt_Some _ _ _ Hi).
        destruct (decide (i < 24)%nat).
        -- left. apply list_elem_of_lookup. exists i. by rewrite lookup_take_lt.
        -- right; left. exists (i - 24)%nat. rewrite elem_of_seq. split; [|lia].
           replace (24 + (i - 24))%nat with i by lia. by rewrite Hi.
      * right; left. exists 31%nat. rewrite elem_of_seq. split; [|lia].
        by rewrite lookup_ge_None_2 by lia.
  - rewrite take_ge by lia. set_solver by lia.
Qed.

Lemma Deallocate_spec st h bl fm : store_wf st -> holds st h bl -> Bitmap.wf fm ->
  Bitmap.numBits fm = NumSectors -> (forall x, x ∈ bl -> Bitmap.bit fm x = true) ->
  exists h' fm' st', Deallocate h fm st = Ok ((h', fm'), st') /\ store_wf st' /\ holds st' h' [] /\
    cleared fm fm' (freed h bl) /\ agree_but st st' 0 /\ selfSector h' = selfSector h /\ ftype h' = ftype h.
Proof.
  intros Hwf Hh Hfm Hnb Hset. destruct (free_direct_spec st h bl fm) as (ds & fm1 & E1 & Hc1 & Hl & H24 & Hds);
    [done..|]. unfold Deallocate. rewrite E1. mstep.
  assert (forall st', store_wf st' -> holds st' (MkHeader 0 0 0 (selfSector h) (ftype h) (createTime h)
            (modifyTime h) (<[24%nat := 0]> ds)) []) as Hempty.
  { intros st' _. constructor; cbn [dataSectors nsectors capacity limit length]; try done; try lia.
    - by rewrite length_insert.
    - intros i Hi. rewrite list_lookup_insert_ne by lia. by rewrite Hds by done.
    - constructor.
    - intros _. unfold indirect. cbn [dataSectors]. by rewrite list_lookup_insert_eq by lia. }
  pose proof Hh as []. change NumDirect with 24. rewrite u32_id by (unfold is_u32; lia).
  destruct (Z.ltb_spec 24 (nsectors h)) as [Hgt|Hle].
  - erewrite (aget_Some _ 24) by (done || lia).
    destruct ho_ind0 as (Hk & _ & _); [lia|].
    destruct (store_read_ok st (indirect h)) as (st1 & E & Hwf1 & Hs); [done|lia|].
    pose proof Hc1 as (Hw1 & Hn1 & _).
    destruct (free_indirect_spec fm1 (table st (indirect h))) as (fm2 & E2 & Hc2);
      [done|apply table_length; [done|lia]| |].
    { rewrite (table_holds st h bl) by (done || lia). apply Forall_map, Forall_forall. intros j _.
      destruct (bl !! (24 + j)%nat) as [y|] eqn:Ey; simpl.
      - pose proof (Forall_lookup_1 _ _ _ _ ho_range0 Ey) as Hy. cbn beta in Hy. lia.
      - rewrite Hn1, Hnb. done. }
    pose proof Hc2 as (Hw2 & Hn2 & _).
    destruct (Bitmap.Clear_correct fm2 (indirect h)) as (fm3 & E3 & Hw3 & Hn3 & Hb3); [done|lia|].
    rewrite (bind_M_Ok _ _ st st1 fm3).
    2:{ mstep. erewrite bind_M_Ok by exact E. fold (table st (indirect h)). rewrite E2. mstep. by rewrite E3. }
    rewrite aset_in by lia. mstep. eexists _, _, _. split; [done|]. split_and!; try done; [by apply Hempty| |].
    + unfold freed. rewrite decide_True by lia. rewrite <- (table_holds st h bl) by (done || lia).
      eapply cleared_trans; [done|]. eapply cleared_trans; [done|]. split_and!; [done|done|].
      intros j Hj. rewrite Hb3 by done. rewrite andb_comm. f_equal.
      destruct (Z.eqb_spec j (indirect h)); simpl; [rewrite bool_decide_false|rewrite bool_decide_true]; set_solver.
    + intros t Ht _. by apply Hs.
  - mstep. rewrite aset_in by lia. mstep. eexists _, _, _. split; [done|].
    split_and!; try done; [by apply Hempty|]. unfold freed. rewrite decide_False by lia. by rewrite app_nil_r.
Qed.

(** Every branch of the call. *)
Lemma Allocate_cases st h bl fm cb size : can_allocate st h bl fm cb -> is_i32 size ->
  let N := Z.to_nat (divRoundUp size SectorSize) in
  if decide (size = 0) then Allocate h fm size st = Ok ((true, h, fm), st)
  else if decide (size < 0 \/ MaxFileSize < capacity h + size \/ (length cb < N)%nat) then
    Allocate h fm size st = Ok ((false, h, fm), st)
  else if decide (N + new_indirect bl N <= length cb)%nat then
    exists h' fm' st', Allocate h fm size st = Ok ((true, h', fm'), st') /\
      allocated st st' h h' bl cb fm' N
  else Allocate h fm size st = AssertFail.
Proof.
  intros Hca Hi N. destruct (decide (size = 0)) as [->|H0]; [done|].
  destruct (decide (size < 0 \/ _)) as [Hg|Hg].
  { eapply Allocate_refused; [done..|]. destruct Hg as [?|[?|?]]; [by left|by right; left|].
    right; right. unfold N in *. lia. }
  destruct (blocks_wanted h bl st size) as (n & En & Hn & Hmax); [apply Hca|lia|lia|].
  assert (N = n) as -> by (unfold N; lia).
  destruct (decide (length bl + n <= 24)%nat) as [Hle|Hgt].
  - destruct (Allocate_direct st h bl fm cb size n) as (h' & fm' & E & Ha); [done|lia|done|lia|done|lia|done|].
    assert (new_indirect bl n = 0%nat) as -> by (unfold new_indirect; rewrite decide_False by lia; done).
    rewrite decide_True by lia. eauto.
  - apply Allocate_indirect; [done|lia|done|lia|done|lia|lia].
Qed.

(** ** The header on disk *)

Lemma header_encode_length h : length (dataSectors h) = 25%nat -> length (encode h) = 128%nat.
Proof. intros Hl. unfold encode. rewrite ints_to_bytes_length. unfold header_ints. simpl. lia. Qed.

Lemma decode_encode h : Forall is_i32 (header_ints h) -> decode (encode h) = Ok h.
Proof. intros Hi. unfold decode, encode. rewrite bytes_to_ints_to_bytes by done. by destruct h. Qed.

(** * Properties *)

(** C25. Allocate, on every branch: nothing for 0 bytes; refused, with nothing changed, for
    a negative size, for more than 56 sectors in all, or for fewer free sectors than the
    data needs; otherwise the header goes on to describe the old sectors followed by the
    new ones, taken from the front of the free map, direct entries first.  When the
    indirect sector has to be allocated too and is the one sector too many, the guard has
    not counted it and an ASSERT fails. *)
Theorem allocate_spec st h bl fm cb size : can_allocate st h bl fm cb -> is_i32 size ->
  let N := Z.to_nat (divRoundUp size SectorSize) in
  if decide (size = 0) then Allocate h fm size st = Ok ((true, h, fm), st)
  else if decide (size < 0 \/ MaxFileSize < capacity h + size \/ (length cb < N)%nat) then
    Allocate h fm size st = Ok ((false, h, fm), st)
  else if decide (N + new_indirect bl N <= length cb)%nat then
    exists h' fm' st', Allocate h fm size st = Ok ((true, h', fm'), st') /\
      allocated st st' h h' bl cb fm' N
  else Allocate h fm size st = AssertFail.
Proof. exact (Allocate_cases st h bl fm cb size). Qed.

(** ByteToSector answers the sector that holds the byte: entry offset / 128 of the
    list the header describes, direct or indirect, and stops at an ASSERT past its end. *)
Theorem byte_to_sector_lookup st h bl off : store_wf st -> holds st h bl -> 0 <= off < MaxFileSize ->
  match bl !! Z.to_nat (off / SectorSize) with
  | Some b => exists st', ByteToSector h off st = Ok (b, st') /\ store_wf st' /\ agree_but st st' 0
  | None => ByteToSector h off st = AssertFail
  end.
Proof.
  intros Hwf Hh Hoff. change MaxFileSize with 7168 in Hoff. change SectorSize with 128.
  destruct (decide (off < 128 * 24)).
  - rewrite (ByteToSector_direct st h bl off) by (done || lia).
    destruct (bl !! _); [|done]. exists st. split_and!; [done..|]. apply agree_refl.
  - apply ByteToSector_indirect; [done|done|lia].
Qed.

(** C26. Deallocate empties the header and clears, in the free map, exactly the bits of its
    data sectors and of its indirect sector, and, when the indirect table is only partly
    filled, bit 0 besides: the sector that holds the header of the free map itself. *)
Theorem deallocate_frees st h bl fm : store_wf st -> holds st h bl -> Bitmap.wf fm ->
  Bitmap.numBits fm = NumSectors -> (forall x, x ∈ bl -> Bitmap.bit fm x = true) ->
  exists h' fm' st', Deallocate h fm st = Ok ((h', fm'), st') /\ holds st' h' [] /\
    limit h' = 0 /\ Bitmap.wf fm' /\ Bitmap.numBits fm' = NumSectors /\
    (forall t, 0 <= t < NumSectors -> store_sector st' t = store_sector st t) /\
    forall j, 0 <= j -> Bitmap.bit fm' j = true <->
      Bitmap.bit fm j = true /\ j ∉ bl /\ ~ ((24 < length bl)%nat /\ j = indirect h) /\
      ~ ((24 < length bl < 56)%nat /\ j = 0).
Proof.
  intros Hwf Hh Hfm Hnb Hset.
  destruct (Deallocate_spec st h bl fm) as (h' & fm' & st' & E & _ & Hh' & Hc & Ha & _); [done..|].
  destruct Hc as (Hw & Hn & Hb). exists h', fm', st'. pose proof Hh as [].
  split_and!; [done|done| |done|congruence| |].
  - destruct Hh' as [_ Hn' _ Hc' Hl' _ _ _ _ _]. simpl in Hn'. lia.
  - intros t Ht. apply Ha; [done|]. lia.
  - intros j Hj. rewrite Hb by done. rewrite andb_true_iff, bool_decide_eq_true.
    rewrite elem_of_freed by done. tauto.
Qed.

(** A header written to its sector is the header fetched from it. *)
Theorem header_roundtrip st h sector : store_wf st -> 0 <= sector < NumSectors ->
  length (dataSectors h) = 25%nat -> Forall is_i32 (header_ints h) ->
  exists st' st'', WriteBack h sector st = Ok (tt, st') /\ FetchFrom sector st' = Ok (h, st'') /\
    forall t, 0 <= t < NumSectors -> t <> sector -> store_sector st'' t = store_sector st t.
Proof.
  intros Hwf Hs Hl Hi. unfold WriteBack, FetchFrom.
  destruct (store_write_ok st sector (encode h)) as (st1 & E1 & Hwf1 & H1);
    [done|done|by rewrite header_encode_length|].
  destruct (store_read_ok st1 sector) as (st2 & E2 & Hwf2 & H2); [done|done|].
  exists st1, st2. split; [done|]. split.
  - mstep. rewrite H1, decide_True by done. by rewrite decode_encode.
  - intros t Ht Hne. rewrite H2, H1 by done. by rewrite decide_False.
Qed.
End Spec.


(** ** Concrete inputs *)

#[local] Existing Instance SynchDisk.sample_instance.

(** A file of 25 sectors: 1 to 24 directly, 30 through the indirect sector 40. *)
Definition sample_blocks : list Z := range 1 25 ++ [30].
Definition sample_header : FileHeader :=
  MkHeader 3100 3200 25 5 TYPE_FILE 10 10 (range 1 25 ++ [40]).
Definition sample_store : SynchDisk.SynchDisk :=
  SynchDisk.sample_disk {[ 40 := ints_to_bytes (30 :: replicate 31 0) ]}.
(** Sectors 0 to 40 are in use. *)
Definition sample_map : Bitmap.Bitmap :=
  Bitmap.MkBitmap 1024 32 (2 ^ 32 - 1 :: 2 ^ 9 - 1 :: replicate 30 0).

Lemma sample_wf : store_wf sample_store.
Proof.
  apply SynchDisk.sample_disk_wf. intros t bs [<- <-]%lookup_singleton_Some. reflexivity.
Qed.

Lemma sample_map_wf : Bitmap.wf sample_map.
Proof. constructor; [done..|]. by_compute. Qed.

Lemma sample_holds : holds sample_store sample_header sample_blocks.
Proof.
  constructor; try done; try (simpl; lia).
  - intros i Hi. do 24 (destruct i as [|i]; [reflexivity|]). lia.
  - by_compute.
  - by_compute.
  - intros _. split_and!; [done|done|by_compute|].
    intros j Hj. do 32 (destruct j as [|j]; [reflexivity|]). lia.
Qed.

Lemma sample_can_allocate : can_allocate sample_store sample_header sample_blocks sample_map (range 41 1024).
Proof.
  constructor; [exact sample_wf|exact sample_holds| | |].
  - split_and!; [|done|by rewrite elem_of_range; lia]. split; [exact sample_map_wf|]. vm_compute. reflexivity.
  - apply Forall_forall. by_compute.
  - by_compute.
Qed.

Example allocate_spec_witness :
  exists h' fm' st', Allocate sample_header sample_map 200 sample_store = Ok ((true, h', fm'), st') /\
    allocated sample_store st' sample_header h' sample_blocks (range 41 1024) fm' 2.
Proof.
  apply (allocate_spec sample_store sample_header sample_blocks sample_map (range 41 1024) 200
    sample_can_allocate). split; discriminate || reflexivity.
Defined.

Example byte_to_sector_lookup_witness : exists st',
  ByteToSector sample_header 3080 sample_store = Ok (30, st') /\ store_wf st' /\ agree_but sample_store st' 0.
Proof.
  apply (byte_to_sector_lookup sample_store sample_header sample_blocks 3080 sample_wf sample_holds).
  split; discriminate || reflexivity.
Defined.

(** Sector 0 is in use before the file is deleted, and free afterwards. *)
Example deallocate_frees_witness : exists h' fm' st',
  Deallocate sample_header sample_map sample_store = Ok ((h', fm'), st') /\
  Bitmap.bit sample_map 0 = true /\ Bitmap.bit fm' 0 = false.
Proof.
  destruct (deallocate_frees sample_store sample_header sample_blocks sample_map)
    as (h' & fm' & st' & E & _ & _ & _ & _ & _ & Hb).
  - exact sample_wf.
  - exact sample_holds.
  - exact sample_map_wf.
  - reflexivity.
  - apply Forall_forall. by_compute.
  - exists h', fm', st'. split; [exact E|]. split; [reflexivity|]. apply not_true_is_false.
    intros H0. apply Hb in H0 as (_ & _ & _ & Hn); [|lia]. apply Hn. split; [simpl; lia|done].
Defined.

Example header_roundtrip_witness : exists st' st'',
  WriteBack sample_header 5 sample_store = Ok (tt, st') /\ FetchFrom 5 st' = Ok (sample_header, st'') /\
  forall t, 0 <= t < NumSectors -> t <> 5 -> store_sector st'' t = store_sector sample_store t.
Proof.
  apply (header_roundtrip sample_store sample_header 5 sample_wf).
  - split; discriminate || reflexivity.
  - reflexivity.
  - by_compute.
Defined.
End FileHdr.
