(* ===== verification/OpenFile.v ===== *)
(** OpenFile: files and persistent bitmaps, src/code/filesys/openfile.cc and pbitmap.cc.

    A [PersistentBitmap] is a Bitmap whose words are read from and written to a file.
    WriteAt extends the file through the free map, which is itself a file (header in
    sector 0) written by WriteAt: the recursion takes fuel, and two levels are enough when
    the free map's own file has its sectors. *)

From S2P Require Import Prelude Bitmap Disk SectorStore SynchDisk FileHdr.
From stdpp Require Import base numbers list gmap.
#[local] Open Scope Z_scope.

Module OpenFile.
Import Disk FileHdr.

Record OpenFile := MkOpen { hdr : FileHeader; seekPosition : Z }.

Definition with_hdr (f : OpenFile) (h : FileHeader) : OpenFile := MkOpen h (seekPosition f).

(** The constructor's argument is the sector of the file header. *)
Definition FreeMapSector : Z := 0.

Section Ops.
Context {St : Type} {SS : SectorStore St} {HP : Heap St}.

Definition OpenFile_new (sector : Z) : M St OpenFile :=
  h ← FetchFrom sector; mret (MkOpen h 0).

Definition Seek (f : OpenFile) (position : Z) : OpenFile := MkOpen (hdr f) position.
Definition Length (f : OpenFile) : Z := FileLimit (hdr f).

(** [new char[n]] *)
Definition new_buffer (n : Z) : M St (list Z) := fun st => Ok (uninit st (Z.to_nat n), st).

(** [for (i = first; i <= last; i++) ReadSector(hdr->ByteToSector(i * SectorSize), &buf[...])] *)
Definition read_sectors (h : FileHeader) (first last : Z) (buf : list Z) : M St (list Z) :=
  mfor (range first (last + 1))
    (fun i buf =>
       s ← ByteToSector h (i * SectorSize);
       bs ← store_read s;
       mret (splice (Z.to_nat ((i - first) * SectorSize)) bs buf)) buf.

(** [ReadAt(into, numBytes, position)]: the result and the bytes copied into [into]. *)
Definition ReadAt (f : OpenFile) (numBytes position : Z) : M St (Z * list Z) :=
  let fileLimit := FileLimit (hdr f) in
  if (numBytes <=? 0) || (position <? 0) || (fileLimit <=? position) then mret (0, [])
  else
    let numBytes := if fileLimit <? i32 (position + numBytes) then fileLimit - position else numBytes in
    let firstSector := divRoundDown position SectorSize in
    let lastSector := divRoundDown (position + numBytes - 1) SectorSize in
    let numSectors := 1 + lastSector - firstSector in
    buf ← new_buffer (numSectors * SectorSize);
    buf ← read_sectors (hdr f) firstSector lastSector buf;
    mret (numBytes, slice (Z.to_nat (position - firstSector * SectorSize)) (Z.to_nat numBytes) buf).

(** The bytes of [from] that [bcopy(from, _, numBytes)] reads. *)
Definition buffer_bytes (from : list Z) (numBytes : Z) : res (list Z) :=
  if Z.of_nat (length from) <? numBytes then Undefined else Ok (take (Z.to_nat numBytes) from).

(** [for (i = first; i <= last; i++) WriteSector(hdr->ByteToSector(i * SectorSize), &buf[...])] *)
Definition write_sectors (h : FileHeader) (first last : Z) (buf : list Z) : M St unit :=
  mfor (range first (last + 1))
    (fun i _ =>
       s ← ByteToSector h (i * SectorSize);
       store_write s (slice (Z.to_nat ((i - first) * SectorSize)) (Z.to_nat SectorSize) buf)) tt.

(** [firstAligned], [lastAligned], and the reads of the first and last sectors when they are
    partially modified. *)
Definition read_edges (f : OpenFile) (numBytes position firstSector lastSector : Z) (buf : list Z)
    : M St (list Z) :=
  let firstAligned := position =? firstSector * SectorSize in
  let lastAligned := position + numBytes =? (lastSector + 1) * SectorSize in
  buf ← (if negb firstAligned then
           '(_, bs) ← ReadAt f SectorSize (firstSector * SectorSize);
           mret (splice 0 bs buf)
         else mret buf);
  (if negb lastAligned && (negb (firstSector =? lastSector) || firstAligned) then
           '(_, bs) ← ReadAt f SectorSize (lastSector * SectorSize);
           mret (splice (Z.to_nat ((lastSector - firstSector) * SectorSize)) bs buf)
         else mret buf).

(** WriteAt after the file has its sectors: sets the limit, writes the header, merges the
    bytes into the first and last sectors and writes them all. *)
Definition write_bytes (f : OpenFile) (from : list Z) (numBytes position : Z) : M St (Z * OpenFile) :=
  let h := snd (setFileLimit (hdr f) (position + numBytes)) in
  let f := with_hdr f h in
  _ ← WriteBack h (getSelfSector h);
  let firstSector := divRoundDown position SectorSize in
  let lastSector := divRoundDown (position + numBytes - 1) SectorSize in
  let numSectors := 1 + lastSector - firstSector in
  buf ← new_buffer (numSectors * SectorSize);
  buf ← read_edges f numBytes position firstSector lastSector buf;
  bs ← lift (buffer_bytes from numBytes);
  let buf := splice (Z.to_nat (position - firstSector * SectorSize)) bs buf in
  _ ← write_sectors h firstSector lastSector buf;
  mret (numBytes, f).

(** PersistentBitmap: the words of the map as bytes. *)
Definition map_bytes (b : Bitmap.Bitmap) : list Z := ints_to_bytes (Bitmap.bmap b).

Definition PBitmap_FetchFrom (b : Bitmap.Bitmap) (f : OpenFile) : M St Bitmap.Bitmap :=
  '(_, bs) ← ReadAt f (Bitmap.numWords b * 4) 0;
  mret (Bitmap.with_map b (bytes_to_words (splice 0 bs (map_bytes b)))).

Definition PBitmap_new (numItems : Z) : res Bitmap.Bitmap := Bitmap.Bitmap_new numItems.

Definition PBitmap_open (f : OpenFile) (numItems : Z) : M St Bitmap.Bitmap :=
  b ← lift (Bitmap.Bitmap_new numItems); PBitmap_FetchFrom b f.

(** [WriteAt(from, numBytes, position)]: the result and the file, whose header changes. *)
Fixpoint WriteAt (fuel : nat) (f : OpenFile) (from : list Z) (numBytes position : Z) : M St (Z * OpenFile) :=
  match fuel with
  | O => fun _ => OutOfFuel
  | S fuel =>
    let fileLimit := FileLimit (hdr f) in
    let fileCapacity := FileCapacity (hdr f) in
    if (numBytes <=? 0) || (fileLimit <? position) || (position <? 0) then mret (0, f)
    else
      f ← (if fileCapacity <? i32 (position + numBytes) then
             freeMap ← lift (PBitmap_new NumSectors);
             freeMapFile ← OpenFile_new FreeMapSector;
             freeMap ← PBitmap_FetchFrom freeMap freeMapFile;
             '(ok, h, freeMap) ← Allocate (hdr f) freeMap (position + numBytes - fileCapacity);
             _ ← lift (ASSERT ok);
             _ ← WriteAt fuel freeMapFile (map_bytes freeMap) (Bitmap.numWords freeMap * 4) 0;
             mret (with_hdr f h)
           else mret f);
      write_bytes f from numBytes position
  end.

Definition PBitmap_WriteBack (fuel : nat) (b : Bitmap.Bitmap) (f : OpenFile) : M St OpenFile :=
  '(_, f) ← WriteAt fuel f (map_bytes b) (Bitmap.numWords b * 4) 0; mret f.

Definition Read (f : OpenFile) (numBytes : Z) : M St (Z * list Z * OpenFile) :=
  '(result, bs) ← ReadAt f numBytes (seekPosition f);
  mret (result, bs, MkOpen (hdr f) (seekPosition f + result)).

Definition Write (fuel : nat) (f : OpenFile) (from : list Z) (numBytes : Z) : M St (Z * OpenFile) :=
  '(result, f) ← WriteAt fuel f from numBytes (seekPosition f);
  mret (result, MkOpen (hdr f) (seekPosition f + result)).
End Ops.


Section Spec.
Context {St : Type} {SS : SectorStore St} {HP : Heap St}.
Implicit Types (st : St) (h : FileHeader) (f : OpenFile) (bl : list Z).

(** * The bytes of a file *)

Definition file_bytes st bl : list Z := flat_map (store_sector st) bl.

Definition sectors_ok st bl : Prop := Forall (fun b => length (store_sector st b) = 128%nat) bl.

Lemma sectors_ok_holds st h bl : store_wf st -> holds st h bl -> sectors_ok st bl.
Proof.
  intros Hwf []. eapply Forall_impl; [done|]. intros b Hb. cbn beta in Hb.
  pose proof (store_sector_length st b Hwf ltac:(lia)) as H. change SectorSize with 128 in H. lia.
Qed.

Lemma file_bytes_length st bl : sectors_ok st bl -> length (file_bytes st bl) = (128 * length bl)%nat.
Proof.
  induction 1 as [|b bl Hb _ IH]; [done|]. unfold file_bytes in *. cbn [flat_map length].
  rewrite length_app, IH, Hb. lia.
Qed.

(** Sector [i] of a file. *)
Lemma file_bytes_slice st bl i b : sectors_ok st bl -> bl !! i = Some b ->
  slice (i * 128) 128 (file_bytes st bl) = store_sector st b.
Proof.
  intros H. revert i. induction H as [|b' bl Hb Hok IH]; intros i Hi; [done|].
  unfold slice, file_bytes in *. cbn [flat_map]. destruct i as [|i].
  - injection Hi as <-. rewrite drop_0. apply take_app_length'. done.
  - rewrite drop_app_ge by lia. rewrite Hb. replace (S i * 128 - 128)%nat with (i * 128)%nat by lia.
    by apply IH.
Qed.

Lemma file_bytes_ext st st' bl : (forall b, b ∈ bl -> store_sector st' b = store_sector st b) ->
  file_bytes st' bl = file_bytes st bl.
Proof.
  intros H. unfold file_bytes. induction bl as [|b bl IH]; [done|]. cbn [flat_map].
  rewrite H by left. f_equal. apply IH. intros; apply H; by right.
Qed.

(** Writing sector [i]. *)
Lemma file_bytes_write st st' bl i b bs : sectors_ok st bl -> NoDup bl -> bl !! i = Some b ->
  length bs = 128%nat -> store_sector st' b = bs ->
  (forall t, t ∈ bl -> t <> b -> store_sector st' t = store_sector st t) ->
  file_bytes st' bl = splice (i * 128) bs (file_bytes st bl).
Proof.
  intros Hok. revert i. induction Hok as [|b' bl Hb Hok IH]; intros i Hnd Hi Hbs Hw Ho; [done|].
  apply NoDup_cons in Hnd as [Hb' Hnd]. unfold splice, file_bytes in *. cbn [flat_map]. destruct i as [|i].
  - injection Hi as ->. rewrite Nat.mul_0_l, Nat.add_0_l, take_0, app_nil_l.
    rewrite drop_app_length' by lia. rewrite Hw. f_equal. apply file_bytes_ext. intros t Ht. apply Ho; [by right|by intros ->].
  - rewrite Ho; [|left|intros ->; apply Hb'; by apply (list_elem_of_lookup_2 bl i)].
    rewrite (IH i); [|done..|by intros; apply Ho; [right|]].
    rewrite (take_app_ge (store_sector st b')), drop_app_ge by lia.
    rewrite Hb. replace (S i * 128 - 128)%nat with (i * 128)%nat by lia.
    replace (S i * 128 + length bs - 128)%nat with (i * 128 + length bs)%nat by lia.
    by rewrite !app_assoc.
Qed.

Lemma holds_store_eq st st' h bl : store_eq st st' -> holds st h bl -> holds st' h bl.
Proof.
  intros Heq []. constructor; auto. intros Hl. destruct (ho_ind0 Hl) as (? & ? & Ht).
  split_and!; [lia|lia|done|]. unfold table. rewrite Heq by lia. exact Ht.
Qed.

Lemma agree_store_eq st st' : agree_but st st' 0 <-> store_eq st st'.
Proof. split; [intros H t Ht; apply H; [done|lia]|intros H t Ht _; by apply H]. Qed.

Lemma holds_block st h bl b : holds st h bl -> b ∈ bl -> 0 < b < NumSectors.
Proof. intros [] Hb. rewrite Forall_forall in ho_range0. exact (ho_range0 b Hb). Qed.

(** ByteToSector at the start of sector [i] of the file. *)
Lemma ByteToSector_sector st h bl (i : Z) b : store_wf st -> holds st h bl -> 0 <= i ->
  bl !! Z.to_nat i = Some b ->
  exists st', ByteToSector h (i * SectorSize) st = Ok (b, st') /\ store_wf st' /\ store_eq st st'.
Proof.
  intros Hwf Hh Hi Hb. pose proof Hh as []. pose proof (lookup_lt_Some _ _ _ Hb).
  change SectorSize with 128. destruct (decide (i < 24)).
  - rewrite (ByteToSector_direct st h bl) by (done || lia). rewrite Z.div_mul, Hb by lia.
    exists st. split; [done|]. split; [done|reflexivity].
  - pose proof (ByteToSector_indirect st h bl (i * 128) Hwf Hh ltac:(lia)) as H1.
    rewrite Z.div_mul, Hb in H1 by lia. destruct H1 as (st' & E & Hw & Ha).
    exists st'. rewrite <- agree_store_eq. done.
Qed.

(** ByteToSector and ReadSector. *)
Lemma read_sector_step st h bl (i : Z) b : store_wf st -> holds st h bl -> 0 <= i ->
  bl !! Z.to_nat i = Some b ->
  exists st', (s ← ByteToSector h (i * SectorSize); store_read s) st = Ok (store_sector st b, st') /\
    store_wf st' /\ store_eq st st'.
Proof.
  intros Hwf Hh Hi Hb. destruct (ByteToSector_sector st h bl i b) as (st1 & E & Hw1 & He1); [done..|].
  pose proof Hh as []. pose proof (Forall_lookup_1 _ _ _ _ ho_range0 Hb) as Hbr. cbn beta in Hbr.
  destruct (store_read_ok st1 b) as (st2 & E2 & Hw2 & He2); [done|lia|].
  exists st2. split; [|split; [done|by etrans]]. mstep. rewrite E2. by rewrite He1 by lia.
Qed.

(** * Slices *)

Lemma take_splice_here {A} off (new l : list A) : (off <= length l)%nat ->
  take (off + length new) (splice off new l) = take off l ++ new.
Proof.
  intros H. unfold splice. rewrite app_assoc. apply take_app_length'.
  rewrite length_app, length_take. lia.
Qed.

Lemma slice_slice_app {A} off n m (l : list A) : slice off n l ++ slice (off + n) m l = slice off (n + m) l.
Proof.
  unfold slice. rewrite <- (drop_drop l n off). by rewrite take_take_drop.
Qed.

Lemma slice_slice {A} a n b m (l : list A) : (b + m <= n)%nat -> slice b m (slice a n l) = slice (a + b) m l.
Proof.
  intros H. unfold slice. rewrite <- (drop_drop l b a), skipn_firstn_comm, take_take. f_equal. lia.
Qed.

Lemma splice_extends {A} (n m : nat) (bs buf : list A) : (n + length bs <= length buf)%nat ->
  take (n + length bs) (splice n bs buf) = take n buf ++ bs.
Proof. intros. apply take_splice_here. lia. Qed.

(** * Reading *)

Lemma read_sectors_ok st h bl first last buf : store_wf st -> holds st h bl ->
  0 <= first <= last -> last < Z.of_nat (length bl) ->
  length buf = (Z.to_nat (last + 1 - first) * 128)%nat ->
  exists st', read_sectors h first last buf st =
      Ok (slice (Z.to_nat first * 128) (Z.to_nat (last + 1 - first) * 128) (file_bytes st bl), st') /\
    store_wf st' /\ store_eq st st'.
Proof.
  intros Hwf Hh Hfl Hlast Hbuf. pose proof (sectors_ok_holds _ _ _ Hwf Hh) as Hok.
  unfold read_sectors.
  match goal with |- context [mfor _ ?b _] => destruct (mfor_inv
    (fun i buf st1 => length buf = (Z.to_nat (last + 1 - first) * 128)%nat /\
       take (Z.to_nat (i - first) * 128) buf =
         slice (Z.to_nat first * 128) (Z.to_nat (i - first) * 128) (file_bytes st bl) /\
       store_wf st1 /\ store_eq st st1)
    b first (last + 1) buf st) as (buf' & st' & E & Hl & Ht & Hw & He) end.
  - lia.
  - rewrite Z.sub_diag. split_and!; [done|done|done|reflexivity].
  - intros i b st1 Hi (Hl & Ht & Hw1 & He1).
    destruct (lookup_lt_is_Some_2 bl (Z.to_nat i)) as [x Hx]; [lia|].
    destruct (ByteToSector_sector st1 h bl i x) as (st2 & E2 & Hw2 & He2);
      [done|by eapply holds_store_eq|lia|done|]. mstep.
    pose proof Hh as []. pose proof (Forall_lookup_1 _ _ _ _ ho_range0 Hx) as Hxr. cbn beta in Hxr.
    destruct (store_read_ok st2 x) as (st3 & E3 & Hw3 & He3); [done|lia|]. mstep.
    rewrite He2, He1 by lia. eexists _, st3. split; [done|].
    pose proof (Forall_lookup_1 _ _ _ _ Hok Hx) as Hxl. cbn beta in Hxl. change SectorSize with 128.
    replace (Z.to_nat ((i - first) * 128)) with (Z.to_nat (i - first) * 128)%nat by lia.
    split_and!; [rewrite splice_length; lia| |done|by etrans; [|etrans]].
    replace (Z.to_nat (i + 1 - first) * 128)%nat
      with (Z.to_nat (i - first) * 128 + length (store_sector st x))%nat by lia.
    rewrite take_splice_here, Ht by lia. rewrite <- slice_slice_app. f_equal.
    rewrite Hxl. replace (Z.to_nat first * 128 + Z.to_nat (i - first) * 128)%nat with (Z.to_nat i * 128)%nat by lia.
    symmetry. by apply file_bytes_slice.
  - exists st'. rewrite E. split; [|done]. rewrite <- Ht. by rewrite take_ge by lia.
Qed.

Lemma divRoundDown_pos x : 0 <= x -> divRoundDown x SectorSize = x / 128.
Proof. intros. unfold divRoundDown. by apply quot_sector. Qed.

Lemma new_buffer_ok n st : exists b, new_buffer n st = Ok (b, st) /\ length b = Z.to_nat n.
Proof. eexists. split; [done|]. apply uninit_length. Qed.

(** What a read of [numBytes] at [position] of a file of [limit] bytes returns. *)
Definition read_result (bytes : list Z) (limit numBytes position : Z) : Z * list Z :=
  if (numBytes <=? 0) || (position <? 0) || (limit <=? position) then (0, [])
  else let n := Z.min numBytes (limit - position) in
       (n, slice (Z.to_nat position) (Z.to_nat n) bytes).

Lemma ReadAt_ok st f bl numBytes position : store_wf st -> holds st (hdr f) bl ->
  numBytes <= 8192 ->
  exists st', ReadAt f numBytes position st =
      Ok (read_result (file_bytes st bl) (limit (hdr f)) numBytes position, st') /\
    store_wf st' /\ store_eq st st'.
Proof.
  intros Hwf Hh Hnb. pose proof (sectors_ok_holds _ _ _ Hwf Hh) as Hok. pose proof Hh as [].
  unfold ReadAt, read_result, FileLimit.
  destruct ((numBytes <=? 0) || (position <? 0) || (limit (hdr f) <=? position)) eqn:Hg.
  { exists st. split; [done|]. split; [done|reflexivity]. }
  assert (0 < numBytes /\ 0 <= position < limit (hdr f)) as (Hn & Hp).
  { apply orb_false_iff in Hg as [[?%Z.leb_gt ?%Z.ltb_ge]%orb_false_iff ?%Z.leb_gt]. lia. }
  rewrite i32_id by (unfold is_i32; lia). cbv zeta.
  assert ((if limit (hdr f) <? position + numBytes then limit (hdr f) - position else numBytes) =
    Z.min numBytes (limit (hdr f) - position)) as ->.
  { destruct (Z.ltb_spec (limit (hdr f)) (position + numBytes)); lia. }
  set (n := Z.min _ _). assert (0 < n /\ position + n <= limit (hdr f)) as (Hn0 & Hpn) by lia.
  rewrite !divRoundDown_pos by lia. clearbody n. set (p := position) in *. clearbody p.
  pose proof (Z.div_mod p 128 ltac:(lia)). pose proof (Z.mod_pos_bound p 128 ltac:(lia)).
  pose proof (Z.div_mod (p + n - 1) 128 ltac:(lia)). pose proof (Z.mod_pos_bound (p + n - 1) 128 ltac:(lia)).
  set (first := p / 128) in *. set (last := (p + n - 1) / 128) in *.
  assert (0 <= first <= last) by lia. assert (last < Z.of_nat (length bl)) by lia.
  destruct (new_buffer_ok ((1 + last - first) * SectorSize) st) as (b & E & Hb). mstep.
  change SectorSize with 128 in *.
  destruct (read_sectors_ok st (hdr f) bl first last b) as (st' & E' & Hw & He); [done|done|done|done|lia|].
  mstep. exists st'. split; [|done]. unfold mret, M_ret. do 3 f_equal.
  rewrite slice_slice by lia. f_equal. lia.
Qed.
(** * Writing *)

Lemma splice_splice {A} a (x y l : list A) : (a + length x + length y <= length l)%nat ->
  splice (a + length x) y (splice a x l) = splice a (x ++ y) l.
Proof.
  intros H. unfold splice at 1. rewrite take_splice_here by lia.
  unfold splice. rewrite length_app, <- !app_assoc. do 3 f_equal.
  rewrite app_assoc, drop_app_ge by (rewrite length_app, length_take; lia).
  rewrite length_app, length_take, drop_drop. f_equal. lia.
Qed.

Lemma take_splice_in {A} off m (new l : list A) : (m <= length new)%nat -> (off <= length l)%nat ->
  take (off + m) (splice off new l) = take off l ++ take m new.
Proof.
  intros Hm Ho. unfold splice. rewrite take_app_ge by (rewrite length_take; lia).
  rewrite length_take, Nat.min_l by lia. f_equal. rewrite take_app_le by lia. f_equal. lia.
Qed.

(** Writes outside the indirect sector keep what the header describes. *)
Lemma holds_frame st st' h bl : holds st h bl ->
  ((24 < length bl)%nat -> store_sector st' (indirect h) = store_sector st (indirect h)) -> holds st' h bl.
Proof.
  intros [] Heq. constructor; auto. intros Hl. destruct (ho_ind0 Hl) as (? & ? & Ht).
  split_and!; [lia|lia|done|]. unfold table. rewrite Heq by done. exact Ht.
Qed.

(** The sectors outside [l] are the same. *)
Definition same_outside st st' (l : list Z) : Prop :=
  forall t, 0 <= t < NumSectors -> t ∉ l -> store_sector st' t = store_sector st t.

Lemma same_outside_trans st st1 st2 l : same_outside st st1 l -> same_outside st1 st2 l -> same_outside st st2 l.
Proof. intros H1 H2 t Ht Hn. by rewrite H2, H1. Qed.

Lemma same_outside_weaken st st' l l' : same_outside st st' l -> (forall t, t ∈ l -> t ∈ l') -> same_outside st st' l'.
Proof. intros H Hl t Ht Hn. apply H; [done|]. intros Hin. by apply Hn, Hl. Qed.

Lemma holds_outside st st' h bl : holds st h bl -> same_outside st st' bl -> holds st' h bl.
Proof.
  intros Hh Hs. apply (holds_frame st); [done|]. intros Hl. destruct Hh.
  destruct (ho_ind0 Hl) as (? & ? & _). apply Hs; [lia|done].
Qed.

Lemma write_sector_step st h bl i b bs : store_wf st -> holds st h bl -> 0 <= i ->
  bl !! Z.to_nat i = Some b -> length bs = 128%nat ->
  exists st', (s ← ByteToSector h (i * SectorSize); store_write s bs) st = Ok (tt, st') /\ store_wf st' /\
    holds st' h bl /\ same_outside st st' bl /\
    file_bytes st' bl = splice (Z.to_nat i * 128) bs (file_bytes st bl).
Proof.
  intros Hwf Hh Hi Hb Hbs. destruct (ByteToSector_sector st h bl i b) as (st1 & E & Hw1 & He1); [done..|].
  pose proof Hh as []. pose proof (Forall_lookup_1 _ _ _ _ ho_range0 Hb) as Hbr. cbn beta in Hbr.
  destruct (store_write_ok st1 b bs) as (st2 & E2 & Hw2 & H2); [done|lia|by rewrite Hbs|].
  assert (forall t, 0 <= t < NumSectors -> t <> b -> store_sector st2 t = store_sector st t) as Ho.
  { intros t Ht Hne. rewrite H2, decide_False by done. by apply He1. }
  assert (same_outside st st2 bl) as Hs.
  { intros t Ht Hn. apply Ho; [done|]. intros ->. apply Hn. by eapply list_elem_of_lookup_2. }
  exists st2. split; [mstep; by rewrite E2|]. split; [done|]. split; [by eapply holds_outside|]. split; [done|].
  apply (file_bytes_write st st2 bl (Z.to_nat i) b); try done.
  - by eapply sectors_ok_holds.
  - rewrite H2 by lia. by rewrite decide_True.
  - intros t Ht Hne. apply Ho; [|done].
    rewrite Forall_forall in ho_range0. specialize (ho_range0 t Ht). cbn beta in ho_range0. lia.
Qed.

Lemma write_sectors_ok st h bl first last buf : store_wf st -> holds st h bl ->
  0 <= first <= last -> last < Z.of_nat (length bl) ->
  length buf = (Z.to_nat (last + 1 - first) * 128)%nat ->
  exists st', write_sectors h first last buf st = Ok (tt, st') /\ store_wf st' /\ holds st' h bl /\
    same_outside st st' bl /\
    file_bytes st' bl = splice (Z.to_nat first * 128) buf (file_bytes st bl).
Proof.
  intros Hwf Hh Hfl Hlast Hbuf. pose proof (sectors_ok_holds _ _ _ Hwf Hh) as Hok.
  pose proof (file_bytes_length st bl Hok) as Hlen. unfold write_sectors.
  match goal with |- context [mfor _ ?b _] => destruct (mfor_inv
    (fun i (_ : unit) st1 => store_wf st1 /\ holds st1 h bl /\ same_outside st st1 bl /\
       file_bytes st1 bl = splice (Z.to_nat first * 128) (take (Z.to_nat (i - first) * 128) buf) (file_bytes st bl))
    b first (last + 1) tt st) as ([] & st' & E & Hw & Hh' & Hs & Hf) end.
  - lia.
  - rewrite Z.sub_diag. split_and!; [done|done|done|]. unfold splice. cbn [take app].
    change (Z.to_nat 0 * 128)%nat with 0%nat. rewrite take_0, app_nil_l, Nat.add_0_r. by rewrite take_drop.
  - intros i [] st1 Hi (Hw1 & Hh1 & Hs1 & Hf1).
    destruct (lookup_lt_is_Some_2 bl (Z.to_nat i)) as [x Hx]; [lia|].
    change SectorSize with 128. replace (Z.to_nat ((i - first) * 128)) with (Z.to_nat (i - first) * 128)%nat by lia.
    set (k := (Z.to_nat (i - first) * 128)%nat) in *.
    assert (length (slice k 128 buf) = 128%nat) as Hsl by (rewrite slice_length; lia).
    destruct (write_sector_step st1 h bl i x (slice k 128 buf)) as (st2 & E2 & Hw2 & Hh2 & Hs2 & Hf2);
      [done|done|lia|done|done|].
    exists tt, st2. split; [exact E2|]. split_and!; [done|done|by eapply same_outside_trans|].
    rewrite Hf2, Hf1.
    assert (length (take k buf) = k) as Hk by (rewrite length_take; lia).
    replace (Z.to_nat i * 128)%nat with (Z.to_nat first * 128 + length (take k buf))%nat by lia.
    rewrite splice_splice by lia. f_equal. unfold slice. rewrite take_take_drop. f_equal. lia.
  - exists st'. rewrite E. split_and!; [done|done|done|done|]. rewrite Hf. f_equal. by rewrite take_ge by lia.
Qed.

(** The header with another limit. *)
Definition with_limit h (p : Z) : FileHeader :=
  MkHeader p (capacity h) (nsectors h) (selfSector h) (ftype h) (createTime h) (modifyTime h) (dataSectors h).

Lemma holds_with_limit st h bl p : holds st h bl -> 0 <= p <= capacity h -> holds st (with_limit h p) bl.
Proof. intros [] Hp. constructor; auto. Qed.

(** The file's own header sector is none of its data. *)
Definition header_apart h bl : Prop :=
  0 <= selfSector h < NumSectors /\ selfSector h ∉ bl /\ ((24 < length bl)%nat -> selfSector h <> indirect h).

(** The buffer starts with the [k] bytes that precede the write in its first sector. *)
Definition buffer_ready (file buf : list Z) (first : Z) (k total : nat) : Prop :=
  length buf = total /\ take k buf = slice (Z.to_nat first * 128) k file.

Lemma splice_prefix {A} (k off : nat) (bs buf : list A) :
  (k <= off)%nat -> (off + length bs <= length buf)%nat -> take k (splice off bs buf) = take k buf.
Proof.
  intros Hk Ho. unfold splice. rewrite take_app_le by (rewrite length_take; lia).
  rewrite take_take. f_equal. lia.
Qed.

Lemma take_slice {A} k m off (l : list A) : (k <= m)%nat -> take k (slice off m l) = slice off k l.
Proof. intros. unfold slice. rewrite take_take. f_equal. lia. Qed.

Lemma read_edges_ok st f bl numBytes position first last buf : store_wf st -> holds st (hdr f) bl ->
  limit (hdr f) = position + numBytes -> 0 < numBytes -> 0 <= position ->
  first = position / 128 -> last = (position + numBytes - 1) / 128 ->
  length buf = (Z.to_nat (last + 1 - first) * 128)%nat ->
  exists buf' st', read_edges f numBytes position first last buf st = Ok (buf', st') /\
    store_wf st' /\ store_eq st st' /\
    buffer_ready (file_bytes st bl) buf' first (Z.to_nat (position - first * 128)) (length buf).
Proof.
  intros Hwf Hh Hlim Hn Hp Hfirst Hlast Hbuf.
  pose proof (sectors_ok_holds _ _ _ Hwf Hh) as Hok. pose proof (file_bytes_length st bl Hok) as Hlen.
  pose proof Hh as []. change SectorSize with 128 in *.
  pose proof (Z.div_mod position 128 ltac:(lia)). pose proof (Z.mod_pos_bound position 128 ltac:(lia)).
  pose proof (Z.div_mod (position + numBytes - 1) 128 ltac:(lia)).
  pose proof (Z.mod_pos_bound (position + numBytes - 1) 128 ltac:(lia)).
  rewrite <- ?Hfirst, <- ?Hlast in H, H0, H1, H2. set (k := Z.to_nat (position - first * 128)).
  unfold read_edges. cbv zeta. change SectorSize with 128.
  (* the first sector *)
  assert (exists buf1 st1, (if negb (position =? first * 128) then
             '(_, bs) ← ReadAt f 128 (first * 128); mret (splice 0 bs buf) else mret buf) st = Ok (buf1, st1) /\
    store_wf st1 /\ store_eq st st1 /\ buffer_ready (file_bytes st bl) buf1 first k (length buf))
    as (buf1 & st1 & E1 & Hw1 & He1 & Hl1 & Ht1).
  { destruct (Z.eqb_spec position (first * 128)); cbn [negb].
    - exists buf, st. split_and!; [done|done|reflexivity|]. split; [done|].
      replace k with 0%nat by lia. done.
    - destruct (ReadAt_ok st f bl 128 (first * 128)) as (st1 & E & Hw & He); [done|done|lia|].
      unfold read_result in E. rewrite (proj2 (Z.leb_gt 128 0)), (proj2 (Z.ltb_ge (first * 128) 0)),
        (proj2 (Z.leb_gt (limit (hdr f)) _)) in E by lia. cbn [orb] in E.
      eexists _, st1. split; [erewrite bind_M_Ok by exact E; done|]. split_and!; [done|done|]. split.
      + rewrite splice_length; [done|]. rewrite slice_length. lia.
      + match goal with |- take k (splice 0 ?b buf) = _ => set (bs := b) end.
        assert (k <= length bs)%nat as Hk by (unfold bs; rewrite slice_length; lia).
        change k with (0 + k)%nat at 1. rewrite take_splice_in by lia. cbn [take app]. rewrite take_0, app_nil_l.
        unfold bs. rewrite take_slice by (unfold bs in Hk; rewrite slice_length in Hk; lia).
        f_equal. lia. }
  erewrite bind_M_Ok by exact E1.
  (* the last sector *)
  destruct (negb (position + numBytes =? (last + 1) * 128) && _) eqn:Hc.
  2:{ exists buf1, st1. split_and!; [done|done|done|]. split; done. }
  apply andb_true_iff in Hc as [Hc1%negb_true_iff%Z.eqb_neq Hc2].
  assert (first <> last \/ position = first * 128) as Hc3.
  { apply orb_true_iff in Hc2 as [Hc2%negb_true_iff%Z.eqb_neq|Hc2%Z.eqb_eq]; [by left|by right]. }
  destruct (ReadAt_ok st1 f bl 128 (last * 128)) as (st2 & E & Hw & He);
    [done|by eapply holds_store_eq|lia|].
  unfold read_result in E. rewrite (proj2 (Z.leb_gt 128 0)), (proj2 (Z.ltb_ge (last * 128) 0)),
    (proj2 (Z.leb_gt (limit (hdr f)) _)) in E by lia. cbn [orb] in E.
  eexists _, st2. split; [erewrite bind_M_Ok by exact E; done|]. split_and!; [done|by etrans|].
  match goal with |- buffer_ready _ (splice _ ?b _) _ _ _ => set (bs := b) end.
  assert (length bs <= 128)%nat as Hbs by (unfold bs; rewrite slice_length; lia).
  split; [rewrite splice_length; lia|]. rewrite <- Ht1. apply splice_prefix; lia.
Qed.

Lemma write_bytes_ok st f bl from numBytes position : store_wf st -> holds st (hdr f) bl ->
  header_apart (hdr f) bl -> 0 < numBytes -> 0 <= position <= limit (hdr f) ->
  position + numBytes <= capacity (hdr f) -> numBytes <= Z.of_nat (length from) ->
  exists st', let h' := with_limit (hdr f) (position + numBytes) in
    write_bytes f from numBytes position st = Ok ((numBytes, with_hdr f h'), st') /\
    store_wf st' /\ holds st' h' bl /\ store_sector st' (selfSector (hdr f)) = encode h' /\
    same_outside st st' (selfSector (hdr f) :: bl) /\
    take (Z.to_nat (position + numBytes)) (file_bytes st' bl) =
      take (Z.to_nat position) (file_bytes st bl) ++ take (Z.to_nat numBytes) from.
Proof.
  intros Hwf Hh (Hsr & Hsb & Hsi) Hn Hp Hcap Hfrom. pose proof Hh as [].
  unfold write_bytes, setFileLimit.
  rewrite (proj2 (Z.ltb_ge (position + numBytes) 0)), (proj2 (Z.ltb_ge (capacity (hdr f)) _)) by lia.
  cbn [orb snd]. cbv zeta. change (MkHeader (position + numBytes) _ _ _ _ _ _ _) with (with_limit (hdr f) (position + numBytes)).
  set (h' := with_limit (hdr f) (position + numBytes)).
  destruct (store_write_ok st (selfSector (hdr f)) (encode h')) as (st1 & E1 & Hw1 & H1);
    [done|done|by rewrite header_encode_length|].
  change (WriteBack h' (getSelfSector h')) with (store_write (selfSector (hdr f)) (encode h') : M St unit). mstep.
  assert (holds st1 h' bl) as Hh1.
  { apply holds_with_limit; [|lia]. apply (holds_frame st); [done|]. intros Hl. destruct (ho_ind0 Hl) as (? & _).
    rewrite H1, decide_False by (try lia; by apply not_eq_sym, Hsi). done. }
  assert (forall b, b ∈ bl -> store_sector st1 b = store_sector st b) as Hbl1.
  { intros b Hb. rewrite Forall_forall in ho_range0. specialize (ho_range0 b Hb). cbn beta in ho_range0.
    rewrite H1, decide_False by (try lia; by intros ->). done. }
  pose proof (file_bytes_ext st st1 bl Hbl1) as Hf1.
  pose proof (file_bytes_length st bl (sectors_ok_holds _ _ _ Hwf Hh)) as Hlen.
  rewrite !divRoundDown_pos by lia.
  remember (position / 128) as first eqn:Hfirst. remember ((position + numBytes - 1) / 128) as last eqn:Hlast.
  pose proof (Z.div_mod position 128 ltac:(lia)). pose proof (Z.mod_pos_bound position 128 ltac:(lia)).
  pose proof (Z.div_mod (position + numBytes - 1) 128 ltac:(lia)).
  pose proof (Z.mod_pos_bound (position + numBytes - 1) 128 ltac:(lia)).
  destruct (new_buffer_ok ((1 + last - first) * SectorSize) st1) as (b & E & Hb). mstep.
  change SectorSize with 128 in *.
  destruct (read_edges_ok st1 (with_hdr f h') bl numBytes position first last b)
    as (b2 & st2 & E2 & Hw2 & He2 & Hl2 & Ht2); [done|done|done|done|lia|done|done|lia|]. mstep.
  unfold buffer_bytes. rewrite (proj2 (Z.ltb_ge _ _)) by lia. mstep.
  set (k := Z.to_nat (position - first * 128)) in *. set (bs := take (Z.to_nat numBytes) from).
  assert (length bs = Z.to_nat numBytes) as Hbs by (unfold bs; rewrite length_take; lia).
  destruct (write_sectors_ok st2 h' bl first last (splice k bs b2)) as (st3 & E3 & Hw3 & Hh3 & Hs3 & Hf3);
    [done|by eapply holds_store_eq|lia|lia|rewrite splice_length; lia|]. mstep.
  exists st3. split; [done|]. split_and!; [done|done| | |].
  - rewrite Hs3, He2, H1, decide_True by done. done.
  - intros t Ht Hnin. rewrite not_elem_of_cons in Hnin. destruct Hnin as [Ht1 Ht3].
    rewrite Hs3, He2, H1, decide_False by done. done.
  - rewrite Hf3. rewrite (file_bytes_ext st1 st2), Hf1 in *.
    2-3: intros x Hx; apply He2; rewrite Forall_forall in ho_range0; specialize (ho_range0 x Hx); cbn beta in ho_range0; lia.
    replace (Z.to_nat (position + numBytes)) with (Z.to_nat first * 128 + (k + length bs))%nat by lia.
    assert (k + length bs <= length b2)%nat by lia.
    rewrite take_splice_in by (rewrite ?splice_length; lia). rewrite take_splice_here by lia.
    rewrite Ht2. unfold slice. rewrite app_assoc, take_take_drop. do 2 f_equal. lia.
Qed.

(** * The free map on disk *)

(** Sector 0 holds the header [mh] of the free map's file, whose one sector [m] holds the
    words of [fm]; [cb] are the free sectors. *)
Record map_on_disk st (mh : FileHeader) (m : Z) (fm : Bitmap.Bitmap) (cb : list Z) : Prop := {
  md_hdr : store_sector st 0 = encode mh;
  md_i32 : Forall is_i32 (header_ints mh);
  md_holds : holds st mh [m];
  md_limit : limit mh = 128;
  md_self : selfSector mh = 0;
  md_bits : store_sector st m = map_bytes fm;
  md_free : free_map fm cb;
  md_m : m ∉ cb
}.

Lemma free_map_words fm cb : free_map fm cb -> Bitmap.numWords fm = 32 /\ length (Bitmap.bmap fm) = 32%nat /\
  Forall is_u32 (Bitmap.bmap fm).
Proof.
  intros ([[_ Hw Hl Hu] _] & Hn & _). rewrite Hn in Hw.
  change (divRoundUp NumSectors Bitmap.BitsInWord) with 32 in Hw. split_and!; [done|lia|done].
Qed.

Lemma words_roundtrip ws : Forall is_u32 ws -> bytes_to_words (ints_to_bytes ws) = ws.
Proof.
  intros H. rewrite bytes_to_words_ints. induction H as [|w ws Hw _ IH]; [done|].
  cbn [map]. by rewrite u32_id, IH.
Qed.

Lemma map_bytes_length fm cb : free_map fm cb -> length (map_bytes fm) = 128%nat.
Proof.
  intros H. destruct (free_map_words _ _ H) as (_ & Hl & _). unfold map_bytes.
  by rewrite ints_to_bytes_length, Hl.
Qed.

Lemma splice_whole {A} (new l : list A) : length new = length l -> splice 0 new l = new.
Proof. intros H. unfold splice. rewrite take_0, drop_ge, app_nil_r by lia. done. Qed.

Lemma OpenFile_new_ok st sector h : store_wf st -> 0 <= sector < NumSectors ->
  store_sector st sector = encode h -> Forall is_i32 (header_ints h) ->
  exists st', OpenFile_new sector st = Ok (MkOpen h 0, st') /\ store_wf st' /\ store_eq st st'.
Proof.
  intros Hwf Hs Hh Hi. destruct (store_read_ok st sector) as (st' & E & Hw & He); [done|done|].
  exists st'. split; [|done]. unfold OpenFile_new, FetchFrom. rewrite (bind_M_Ok _ _ st st' h); [done|].
  mstep. by rewrite Hh, decode_encode.
Qed.

(** FetchFrom reads the map back into any bitmap of the right size. *)
Lemma PBitmap_FetchFrom_ok st f b fm cb m : store_wf st -> holds st (hdr f) [m] -> limit (hdr f) = 128 ->
  store_sector st m = map_bytes fm -> free_map fm cb ->
  Bitmap.numBits b = NumSectors -> Bitmap.numWords b = 32 -> length (Bitmap.bmap b) = 32%nat ->
  exists st', PBitmap_FetchFrom b f st = Ok (fm, st') /\ store_wf st' /\ store_eq st st'.
Proof.
  intros Hwf Hh Hlim Hb Hfm Hn Hw Hl. pose proof Hfm as ([[] _] & Hnb & _).
  destruct (free_map_words _ _ Hfm) as (Hw' & Hl' & Hu). pose proof (map_bytes_length _ _ Hfm) as Hml.
  destruct (ReadAt_ok st f [m] (Bitmap.numWords b * 4) 0) as (st' & E & Hwf' & He); [done|done|lia|].
  exists st'. split; [|done]. unfold PBitmap_FetchFrom. mstep. unfold read_result. rewrite Hlim, Hw.
  change ((32 * 4 <=? 0) || (0 <? 0) || (128 <=? 0)) with false. cbv iota.
  change (Z.min (32 * 4) (128 - 0)) with 128. unfold mret, M_ret. do 2 f_equal.
  unfold file_bytes. cbn [flat_map]. rewrite Hb, app_nil_r.
  change (slice (Z.to_nat 0) (Z.to_nat 128) (map_bytes fm)) with (take 128 (map_bytes fm)).
  rewrite take_ge by lia. rewrite splice_whole.
  2:{ rewrite Hml. unfold map_bytes. rewrite ints_to_bytes_length. lia. }
  unfold map_bytes. rewrite words_roundtrip by done. unfold Bitmap.with_map. destruct fm; simpl in *. congruence.
Qed.

Lemma new_map_shape : exists b, PBitmap_new NumSectors = Ok b /\ Bitmap.numBits b = NumSectors /\
  Bitmap.numWords b = 32 /\ length (Bitmap.bmap b) = 32%nat.
Proof.
  exists (Bitmap.MkBitmap 1024 32 (replicate 32 0)). split_and!; vm_compute; reflexivity.
Qed.

(** WriteAt when the file has room. *)
Lemma WriteAt_fits st f bl from numBytes position fuel : store_wf st -> holds st (hdr f) bl ->
  header_apart (hdr f) bl -> 0 < numBytes -> 0 <= position <= limit (hdr f) ->
  position + numBytes <= capacity (hdr f) -> numBytes <= Z.of_nat (length from) ->
  exists st', let h' := with_limit (hdr f) (position + numBytes) in
    WriteAt (S fuel) f from numBytes position st = Ok ((numBytes, with_hdr f h'), st') /\
    store_wf st' /\ holds st' h' bl /\ store_sector st' (selfSector (hdr f)) = encode h' /\
    same_outside st st' (selfSector (hdr f) :: bl) /\
    take (Z.to_nat (position + numBytes)) (file_bytes st' bl) =
      take (Z.to_nat position) (file_bytes st bl) ++ take (Z.to_nat numBytes) from.
Proof.
  intros Hwf Hh Ha Hn Hp Hcap Hfrom. pose proof Hh as [].
  destruct (write_bytes_ok st f bl from numBytes position) as (st' & E & Hrest); [done..|].
  exists st'. split; [|done]. cbn [WriteAt]. unfold FileLimit, FileCapacity.
  rewrite (proj2 (Z.leb_gt numBytes 0)), (proj2 (Z.ltb_ge (limit (hdr f)) position)),
    (proj2 (Z.ltb_ge position 0)) by lia. cbn [orb]. cbv zeta.
  rewrite i32_id by (unfold is_i32; lia). rewrite (proj2 (Z.ltb_ge _ _)) by lia. mstep. exact E.
Qed.

Lemma WriteAt_nothing st f from numBytes position fuel :
  numBytes <= 0 \/ limit (hdr f) < position \/ position < 0 ->
  WriteAt (S fuel) f from numBytes position st = Ok ((0, f), st).
Proof.
  intros H. cbn [WriteAt]. unfold FileLimit.
  destruct (_ || _) eqn:E; [done|]. apply orb_false_iff in E as [[?%Z.leb_gt ?%Z.ltb_ge]%orb_false_iff ?%Z.ltb_ge]. lia.
Qed.

(** Writing a changed map back to its file. *)
Lemma map_write_back st mh m fm cb fm' cb' fuel : store_wf st -> map_on_disk st mh m fm cb ->
  free_map fm' cb' -> m ∉ cb' ->
  exists st', WriteAt (S fuel) (MkOpen mh 0) (map_bytes fm') (Bitmap.numWords fm' * 4) 0 st =
      Ok ((128, MkOpen mh 0), st') /\
    store_wf st' /\ map_on_disk st' mh m fm' cb' /\ same_outside st st' [0; m].
Proof.
  intros Hwf [] Hfm' Hm'. destruct (free_map_words _ _ Hfm') as (Hw & _ & _).
  pose proof (map_bytes_length _ _ Hfm') as Hml. rewrite Hw. change (32 * 4) with 128. pose proof md_holds0 as [].
  assert (0 < m < NumSectors) as Hm by (by apply Forall_cons in ho_range0 as [? _]).
  assert (capacity mh = 128) as Hcap by (rewrite ho_cap0, ho_n0; done).
  destruct (WriteAt_fits st (MkOpen mh 0) [m] (map_bytes fm') 128 0 fuel) as (st' & E & Hwf' & Hh' & Hs & Ho & Hf);
    cbn [hdr] in *; [done|done| |lia|lia|lia|lia|].
  { unfold header_apart. rewrite md_self0. split; [done|]. split; [|cbn [length]; lia].
    rewrite list_elem_of_singleton. lia. }
  assert (with_limit mh (0 + 128) = mh) as Hmh by (change (0 + 128) with 128; rewrite <- md_limit0; by destruct mh).
  rewrite Hmh, md_self0 in *. exists st'. split; [exact E|]. split; [done|]. split; [|done].
  pose proof (store_sector_length st' m Hwf' ltac:(lia)) as Hsl. change SectorSize with 128 in Hsl.
  constructor; try done. unfold file_bytes in Hf. cbn [flat_map] in Hf. rewrite !app_nil_r in Hf.
  change (0 + 128) with 128 in Hf. rewrite !(take_ge _ (Z.to_nat 128)) in Hf by lia. exact Hf.
Qed.

(** * Writing past the capacity *)

(** A file apart from the free map, from its own header and from the free sectors. *)
Record file_ok st h bl (m : Z) (cb : list Z) : Prop := {
  fo_holds : holds st h bl;
  fo_apart : header_apart h bl;
  fo_m : m ∉ bl /\ selfSector h <> m /\ indirect h <> m;
  fo_self : selfSector h <> 0 /\ selfSector h ∉ cb;
  fo_disj : forall x, x ∈ bl -> x ∉ cb;
  fo_ind : indirect h ∉ cb
}.

(** The sectors a write up to [last] asks for. *)
Definition sectors_wanted h (last : Z) : nat :=
  if decide (last <= capacity h) then 0 else Z.to_nat (divRoundUp (last - capacity h) SectorSize).

Lemma new_blocks_none bl cb : new_blocks bl cb 0 = [] /\ new_indirect bl 0 = 0%nat.
Proof.
  unfold new_blocks, new_indirect, direct_part. rewrite decide_False by lia.
  rewrite Nat.min_0_l. done.
Qed.

(** What extending a file leaves as it was; an indirect sector is the old one or was free. *)
Definition kept h h' (cb : list Z) : Prop :=
  ftype h' = ftype h /\ createTime h' = createTime h /\ modifyTime h' = modifyTime h /\
  (indirect h' = indirect h \/ indirect h' ∈ cb).

Lemma kept_limit h h' p cb : kept h h' cb -> kept h (with_limit h' p) cb.
Proof. done. Qed.
Lemma kept_refl h cb : kept h h cb.
Proof. do 3 (split; [done|]). by left. Qed.

Definition write_post st st' (f f' : OpenFile) bl bl' (mh : FileHeader) (m : Z) cb cb' (from : list Z) (numBytes position : Z) : Prop :=
  store_wf st' /\ limit (hdr f') = position + numBytes /\ selfSector (hdr f') = selfSector (hdr f) /\ kept (hdr f) (hdr f') cb /\
  file_ok st' (hdr f') bl' m cb' /\ store_sector st' (selfSector (hdr f)) = encode (hdr f') /\
  (exists fm', map_on_disk st' mh m fm' cb') /\
  take (Z.to_nat (position + numBytes)) (file_bytes st' bl') =
    take (Z.to_nat position) (file_bytes st bl) ++ take (Z.to_nat numBytes) from /\
  same_outside st st' (selfSector (hdr f) :: 0 :: m :: indirect (hdr f') :: bl').

Lemma map_on_disk_frame st st' mh m fm cb : map_on_disk st mh m fm cb ->
  store_sector st' 0 = store_sector st 0 -> store_sector st' m = store_sector st m ->
  map_on_disk st' mh m fm cb.
Proof.
  intros [] H0 Hm. constructor; try done; [by rewrite H0| |by rewrite Hm].
  apply (holds_frame st); [done|]. cbn [length]. lia.
Qed.

Lemma map_sector_range st mh m fm cb : map_on_disk st mh m fm cb -> 0 < m < NumSectors.
Proof. intros []. destruct md_holds0. by apply Forall_cons in ho_range0 as [? _]. Qed.

(** The write itself, once the file has its sectors. *)
Lemma write_in_place st f bl mh m fm cb from numBytes position : store_wf st ->
  map_on_disk st mh m fm cb -> file_ok st (hdr f) bl m cb ->
  0 < numBytes <= Z.of_nat (length from) -> 0 <= position <= limit (hdr f) ->
  position + numBytes <= capacity (hdr f) ->
  exists f' st', write_bytes f from numBytes position st = Ok ((numBytes, f'), st') /\
    hdr f' = with_limit (hdr f) (position + numBytes) /\
    write_post st st' f f' bl bl mh m cb cb from numBytes position.
Proof.
  intros Hwf Hmd [Hh Ha (Hm & Hsm & Him) (Hs0 & Hscb) Hd Hi] Hn Hp Hcap.
  pose proof (map_sector_range _ _ _ _ _ Hmd) as Hmr. pose proof Hh as [].
  destruct (write_bytes_ok st f bl from numBytes position) as (st' & E & Hwf' & Hh' & Hs & Ho & Hf);
    [done|done|done|lia|done|done|lia|].
  assert (0 ∉ bl) as H0.
  { intros H0. rewrite Forall_forall in ho_range0. specialize (ho_range0 0 H0). cbn beta in ho_range0. lia. }
  eexists _, st'. split; [exact E|]. split; [done|]. unfold write_post. cbn [with_hdr hdr].
  split; [done|]. split; [done|]. split; [done|]. split; [apply kept_limit, kept_refl|]. split; [|split; [done|split; [|split; [done|]]]].
  - constructor; try done.
  - exists fm. apply (map_on_disk_frame st); [done| |]; apply Ho; try (change NumSectors with 1024 in *; lia);
      rewrite not_elem_of_cons; split; try done; lia.
  - eapply same_outside_weaken; [done|]. set_solver.
Qed.

(** Reading the free map. *)
Lemma fetch_map_ok {A} st mh m fm cb (k : Bitmap.Bitmap -> OpenFile -> M St A) : store_wf st ->
  map_on_disk st mh m fm cb ->
  exists st', store_wf st' /\ store_eq st st' /\ map_on_disk st' mh m fm cb /\
    (freeMap ← lift (PBitmap_new NumSectors);
     freeMapFile ← OpenFile_new FreeMapSector;
     freeMap ← PBitmap_FetchFrom freeMap freeMapFile;
     k freeMap freeMapFile) st = k fm (MkOpen mh 0) st'.
Proof.
  intros Hwf Hmd. pose proof (map_sector_range _ _ _ _ _ Hmd) as Hmr. pose proof Hmd as [].
  destruct (OpenFile_new_ok st 0 mh) as (st1 & E1 & Hw1 & He1); [done|done|done|done|].
  assert (exists b0 st2, PBitmap_new NumSectors = Ok b0 /\
    PBitmap_FetchFrom b0 (MkOpen mh 0) st1 = Ok (fm, st2) /\ store_wf st2 /\ store_eq st1 st2)
    as (b0 & st2 & Eb & E2 & Hw2 & He2).
  { destruct new_map_shape as (b0 & Eb & Hb1 & Hb2 & Hb3). exists b0.
    destruct (PBitmap_FetchFrom_ok st1 (MkOpen mh 0) b0 fm cb m) as (st2 & E2 & Hw2 & He2);
      [exact Hw1|by eapply holds_store_eq|exact md_limit0|by rewrite He1 by lia|assumption..|].
    exists st2. split; [exact Eb|]. split; [exact E2|]. by split. }
  assert (store_eq st st2) as He by (clear Eb; by etrans).
  exists st2. split; [exact Hw2|]. split; [exact He|]. split.
  - clear Eb. eapply map_on_disk_frame; [done|apply He; done|apply He; lia].
  - rewrite Eb. rewrite bind_lift_Ok. cbv beta. unfold FreeMapSector.
    rewrite (bind_M_Ok _ _ _ _ _ E1). cbv beta. rewrite (bind_M_Ok _ _ _ _ _ E2). reflexivity.
Qed.

(** The growth step: the free map is read, the header extended, the map written back. *)
Lemma grow_ok st f bl mh m fm cb N size fuel : store_wf st -> map_on_disk st mh m fm cb ->
  file_ok st (hdr f) bl m cb -> 0 < size -> is_i32 size -> N = Z.to_nat (divRoundUp size SectorSize) ->
  let grow : M St OpenFile :=
    (freeMap ← lift (PBitmap_new NumSectors);
     freeMapFile ← OpenFile_new FreeMapSector;
     freeMap ← PBitmap_FetchFrom freeMap freeMapFile;
     '(ok, h, freeMap) ← Allocate (hdr f) freeMap size;
     _ ← lift (ASSERT ok);
     _ ← WriteAt (S fuel) freeMapFile (map_bytes freeMap) (Bitmap.numWords freeMap * 4) 0;
     mret (with_hdr f h)) in
  if decide (capacity (hdr f) + size <= MaxFileSize /\ (N + new_indirect bl N <= length cb)%nat) then
    exists h' fm' st', let bl' := bl ++ new_blocks bl cb N in let cb' := drop (N + new_indirect bl N) cb in
      grow st = Ok (with_hdr f h', st') /\ store_wf st' /\ map_on_disk st' mh m fm' cb' /\
      file_ok st' h' bl' m cb' /\ limit h' = limit (hdr f) /\ selfSector h' = selfSector (hdr f) /\ kept (hdr f) h' cb /\
      capacity (hdr f) + size <= capacity h' /\ file_bytes st' bl = file_bytes st bl /\
      same_outside st st' [0; m; indirect h']
  else grow st = AssertFail.
Proof.
  intros Hwf Hmd Hfo Hsz Hi HN grow.
  destruct (fetch_map_ok st mh m fm cb (fun freeMap freeMapFile =>
     '(ok, h, freeMap) ← Allocate (hdr f) freeMap size;
     _ ← lift (ASSERT ok);
     _ ← WriteAt (S fuel) freeMapFile (map_bytes freeMap) (Bitmap.numWords freeMap * 4) 0;
     mret (with_hdr f h)) Hwf Hmd) as (st2 & Hw2 & He & Hmd2 & Hg).
  fold grow in Hg. clearbody grow.
  pose proof (map_sector_range _ _ _ _ _ Hmd) as Hmr. pose proof Hmd2 as [].
  destruct Hfo as [Hh (Hsr & Hsb & Hsi) (Hm & Hsm & Him) (Hs0 & Hscb) Hd Hind].
  assert (can_allocate st2 (hdr f) bl fm cb) as Hca by (constructor; try done; by eapply holds_store_eq).
  assert (divRoundUp size SectorSize = Z.of_nat N /\ (0 < N)%nat) as [HN' HN0].
  { pose proof (Z.div_le_lower_bound (size + 127) 128 1).
    assert (divRoundUp size SectorSize = (size + 127) / 128)
      by (rewrite divRoundUp_spec by (done || lia); f_equal; change SectorSize with 128; lia). lia. }
  pose proof (Allocate_cases st2 (hdr f) bl fm cb size Hca Hi) as Hal. rewrite <- HN in Hal.
  rewrite decide_False in Hal by lia. rewrite Hg.
  assert (MaxFileSize < capacity (hdr f) + size -> ~ (capacity (hdr f) + size <= MaxFileSize)) by lia.
  destruct (decide (size < 0 \/ _)) as [Hbad|Hgood].
  { rewrite decide_False by lia. by rewrite (bind_M_Ok _ _ _ _ _ Hal). }
  destruct (decide (N + new_indirect bl N <= length cb)%nat) as [Hfit|Hfull].
  2:{ rewrite decide_False by lia. by rewrite (bind_M_AssertFail _ _ _ Hal). }
  rewrite decide_True by lia.
  destruct Hal as (h' & fm' & st3 & E3 & Hw3 & Hh3 & Hfm3 & Ha3 & Hl3 & Hs3 & Ht3 & Hct3 & Hmt3 & Hk3 & Hk3').
  rewrite (bind_M_Ok _ _ _ _ _ E3). cbn [ASSERT]. rewrite bind_lift_Ok.
  set (bl' := bl ++ new_blocks bl cb N) in *. set (cb' := drop (N + new_indirect bl N) cb) in *.
  assert (indirect h' <> m) as Him' by (destruct Hk3 as [->|Hk3]; [done|by intros <-]).
  assert (map_on_disk st3 mh m fm cb) as Hmd3.
  { eapply map_on_disk_frame; [exact Hmd2|apply Ha3; [done|by right]|apply Ha3; [lia|left; by apply not_eq_sym]]. }
  assert (m ∉ cb') as Hmcb by (intros Hx%elem_of_drop; done).
  destruct (map_write_back st3 mh m fm cb fm' cb' fuel Hw3 Hmd3 Hfm3 Hmcb) as (st4 & E4 & Hw4 & Hmd4 & Ho4).
  rewrite (bind_M_Ok _ _ _ _ _ E4).
  assert (same_outside st st4 [0; m; indirect h']) as Hout.
  { intros t Ht Hn. rewrite !not_elem_of_cons in Hn. destruct Hn as (Hn0 & Hnm & Hni & _).
    rewrite Ho4 by (try done; set_solver). rewrite Ha3 by (try done; by left). by apply He. }
  assert (NoDup cb) as Hndcb by (eapply free_map_NoDup; apply Hca).
  assert (forall x, x ∈ new_blocks bl cb N -> x ∈ cb) as Hnew by (intros x; apply elem_of_new_blocks).
  assert (forall b, b ∈ bl -> 0 < b < NumSectors) as Hblr by (apply Forall_forall; by destruct Hh).
  exists h', fm', st4. split; [done|]. split; [done|]. split; [done|]. split; [|split; [done|split; [done|split; [done|]]]].
  - constructor; [| | |split; [by rewrite Hs3|rewrite Hs3; by intros Hx%elem_of_drop]| |done].
    + apply (holds_frame st3); [done|]. intros Hlen. destruct Hh3. destruct (ho_ind0 Hlen) as (? & _).
      apply Ho4; [lia|]. rewrite !not_elem_of_cons. split_and!; [lia|done|set_solver].
    + unfold header_apart. rewrite Hs3. split; [done|]. split.
      * intros [?|?%Hnew]%elem_of_app; done.
      * intros Hlen Heq. destruct Hk3 as [Hk3|Hk3]; [|by rewrite <- Heq in Hk3].
        rewrite Hk3 in Heq. destruct (decide (24 < length bl)%nat); [by apply Hsi|].
        apply Hs0. rewrite Heq. destruct Hh. apply ho_none0. lia.
    + rewrite Hs3. split_and!; [|done|done]. intros [?|?%Hnew]%elem_of_app; done.
    + intros x [Hx|Hx]%elem_of_app; [intros Hx'%elem_of_drop; by apply (Hd x)|by apply new_blocks_rest].
  - split; [|split].
    + destruct Hh, Hh3. assert (divRoundUp size SectorSize = (size + 127) / 128)
        by (rewrite divRoundUp_spec by (done || lia); f_equal; change SectorSize with 128; lia).
      assert (length bl' = length bl + N)%nat
        by (unfold bl'; rewrite length_app, new_blocks_length by done; done).
      pose proof (Z.div_mod (size + 127) 128 ltac:(lia)). pose proof (Z.mod_pos_bound (size + 127) 128 ltac:(lia)).
      lia.
    + apply file_bytes_ext. intros b Hb. pose proof (Hblr b Hb). apply Hout; [lia|].
      rewrite !not_elem_of_cons. split_and!; [lia|by intros ->| |set_solver].
      intros ->. destruct Hk3 as [Hk3|Hk3]; [|by apply (Hd _ Hb)]. rewrite Hk3 in *. destruct Hh.
      destruct (decide (24 < length bl)%nat); [by apply ho_ind0|]. rewrite ho_none0 in * by lia. lia.
    + exact Hout.
Qed.

Lemma WriteAt_enter st f from numBytes position fuel : 0 < numBytes -> 0 <= position <= limit (hdr f) ->
  WriteAt (S fuel) f from numBytes position st =
  (f ← (if FileCapacity (hdr f) <? i32 (position + numBytes) then
             freeMap ← lift (PBitmap_new NumSectors);
             freeMapFile ← OpenFile_new FreeMapSector;
             freeMap ← PBitmap_FetchFrom freeMap freeMapFile;
             '(ok, h, freeMap) ← Allocate (hdr f) freeMap (position + numBytes - FileCapacity (hdr f));
             _ ← lift (ASSERT ok);
             _ ← WriteAt fuel freeMapFile (map_bytes freeMap) (Bitmap.numWords freeMap * 4) 0;
             mret (with_hdr f h)
           else mret f); write_bytes f from numBytes position) st.
Proof.
  intros Hn Hp. cbn [WriteAt]. unfold FileLimit.
  by rewrite (proj2 (Z.leb_gt numBytes 0)), (proj2 (Z.ltb_ge (limit (hdr f)) position)),
    (proj2 (Z.ltb_ge position 0)) by lia.
Qed.

Lemma WriteAt_cases st f bl mh m fm cb from numBytes position fuel : store_wf st ->
  map_on_disk st mh m fm cb -> file_ok st (hdr f) bl m cb ->
  0 < numBytes <= Z.of_nat (length from) -> is_i32 (8192 + numBytes) -> 0 <= position <= limit (hdr f) ->
  let N := sectors_wanted (hdr f) (position + numBytes) in
  if decide (position + numBytes <= MaxFileSize /\ (N + new_indirect bl N <= length cb)%nat) then
    exists f' st', WriteAt (S (S fuel)) f from numBytes position st = Ok ((numBytes, f'), st') /\
      write_post st st' f f' bl (bl ++ new_blocks bl cb N) mh m cb (drop (N + new_indirect bl N) cb)
        from numBytes position
  else WriteAt (S (S fuel)) f from numBytes position st = AssertFail.
Proof.
  intros Hwf Hmd Hfo Hn Hi Hp N. unfold is_i32 in Hi. change MaxFileSize with 7168.
  pose proof (fo_holds _ _ _ _ _ Hfo) as []. rewrite WriteAt_enter by lia. unfold FileCapacity.
  rewrite i32_id by (unfold is_i32; lia). unfold N, sectors_wanted.
  destruct (Z.ltb_spec (capacity (hdr f)) (position + numBytes)) as [Hgt|Hle].
  - rewrite (decide_False (P := position + numBytes <= capacity (hdr f))) by lia.
    pose proof (grow_ok st f bl mh m fm cb _ (position + numBytes - capacity (hdr f)) fuel Hwf Hmd Hfo
      ltac:(lia) ltac:(unfold is_i32; lia) eq_refl) as Hg. cbv zeta in Hg.
    set (n := Z.to_nat (divRoundUp (position + numBytes - capacity (hdr f)) SectorSize)) in *.
    change MaxFileSize with 7168 in Hg.
    destruct (decide (position + numBytes <= 7168 /\ _)) as [Hfit|Hfull].
    2:{ rewrite decide_False in Hg by lia. by rewrite (bind_M_AssertFail _ _ _ Hg). }
    rewrite decide_True in Hg by lia.
    destruct Hg as (h' & fm' & st1 & E & Hw1 & Hmd1 & Hfo1 & Hl1 & Hs1 & Hk1 & Hc1 & Hb1 & Ho1).
    rewrite (bind_M_Ok _ _ _ _ _ E).
    destruct (write_in_place st1 (with_hdr f h') (bl ++ new_blocks bl cb n) mh m fm' (drop (n + new_indirect bl n) cb)
      from numBytes position) as (f' & st2 & E2 & Hh2 & Hp2); cbn [with_hdr hdr];
      [done|done|done|done|lia|lia|].
    exists f', st2. split; [exact E2|]. destruct Hp2 as (Hw2 & Hlim2 & Hself2 & _ & Hfo2 & Hst2 & Hmd2 & Ht2 & Ho2).
    cbn [with_hdr hdr] in *. rewrite Hs1 in *. unfold write_post.
    do 3 (split; [assumption|]). split; [rewrite Hh2; by apply kept_limit|]. do 3 (split; [assumption|]). split.
    + rewrite Ht2. f_equal. unfold file_bytes. rewrite flat_map_app, take_app_le; [fold (file_bytes st1 bl); by rewrite Hb1|].
      fold (file_bytes st1 bl). rewrite Hb1, file_bytes_length by (by eapply sectors_ok_holds; [|apply Hfo]). lia.
    + assert (indirect (hdr f') = indirect h') as Hi' by (by rewrite Hh2).
      intros t Ht Hnin. rewrite Hi' in *. rewrite Ho2; [|assumption..].
      apply Ho1; [assumption|]. clear - Hnin. set_solver.
  - rewrite (decide_True (P := position + numBytes <= capacity (hdr f))) by lia.
    destruct (new_blocks_none bl cb) as [-> ->]. rewrite drop_0, app_nil_r. rewrite decide_True by lia.
    rewrite bind_ret_Ok.
    destruct (write_in_place st f bl mh m fm cb from numBytes position) as (f' & st2 & E2 & _ & Hp2); [done..|].
    exists f', st2. by split.
Qed.

(** * Properties *)

(** C29. ReadAt returns the bytes of the file: none for an empty or out-of-range request,
    else the bytes from [position] up to [numBytes] or the end of the file, whatever the
    alignment; it changes no sector. *)
Theorem read_at_slice st f bl numBytes position : store_wf st -> holds st (hdr f) bl -> numBytes <= 8192 ->
  exists st', ReadAt f numBytes position st =
      Ok (read_result (take (Z.to_nat (limit (hdr f))) (file_bytes st bl)) (limit (hdr f)) numBytes position, st') /\
    store_wf st' /\ store_eq st st'.
Proof.
  intros Hwf Hh Hn. destruct (ReadAt_ok st f bl numBytes position) as (st' & E & Hw); [done..|].
  exists st'. split; [|done]. rewrite E. do 2 f_equal. unfold read_result.
  destruct (_ || _) eqn:Hg; [done|]. f_equal.
  apply orb_false_iff in Hg as [[?%Z.leb_gt ?%Z.ltb_ge]%orb_false_iff ?%Z.leb_gt].
  unfold slice. rewrite skipn_firstn_comm, take_take. f_equal. lia.
Qed.

(** C10. WriteAt within the file or at its end, extending it when needed: afterwards the
    file is the bytes before [position] followed by the bytes written, and nothing else
    (what followed them is cut off, as the limit is always set to [position + numBytes]);
    the new header, of the same type, is in the header's sector, the free map on disk has lost exactly the
    new sectors, and no sector of another file has changed.  When the file would pass 7168
    bytes or the disk has too few free sectors the machine stops at an ASSERT.  Two levels
    of recursion are enough. *)
Theorem write_at_replaces_tail st f bl mh m fm cb from numBytes position : store_wf st ->
  map_on_disk st mh m fm cb -> file_ok st (hdr f) bl m cb ->
  0 < numBytes <= Z.of_nat (length from) -> is_i32 (8192 + numBytes) -> 0 <= position <= limit (hdr f) ->
  let N := sectors_wanted (hdr f) (position + numBytes) in
  if decide (position + numBytes <= MaxFileSize /\ (N + new_indirect bl N <= length cb)%nat) then
    exists f' st', WriteAt 2 f from numBytes position st = Ok ((numBytes, f'), st') /\
      write_post st st' f f' bl (bl ++ new_blocks bl cb N) mh m cb (drop (N + new_indirect bl N) cb)
        from numBytes position
  else WriteAt 2 f from numBytes position st = AssertFail.
Proof. exact (WriteAt_cases st f bl mh m fm cb from numBytes position 0). Qed.

(** What a program writes it reads back: a read of the bytes just written returns
    them, through a fresh OpenFile on the same header sector too. *)
Theorem write_read_roundtrip st f bl mh m fm cb from numBytes position : store_wf st ->
  map_on_disk st mh m fm cb -> file_ok st (hdr f) bl m cb ->
  0 < numBytes <= Z.of_nat (length from) -> 0 <= position <= limit (hdr f) ->
  let N := sectors_wanted (hdr f) (position + numBytes) in
  position + numBytes <= MaxFileSize -> (N + new_indirect bl N <= length cb)%nat ->
  exists f' st' st'', WriteAt 2 f from numBytes position st = Ok ((numBytes, f'), st') /\
    ReadAt f' numBytes position st' = Ok ((numBytes, take (Z.to_nat numBytes) from), st'') /\
    decode (store_sector st' (selfSector (hdr f))) = decode (encode (hdr f')).
Proof.
  intros Hwf Hmd Hfo Hn Hp N Hmax Hcb. change MaxFileSize with 7168 in *.
  pose proof (WriteAt_cases st f bl mh m fm cb from numBytes position 0 Hwf Hmd Hfo Hn
    ltac:(unfold is_i32; lia) Hp) as H. cbv zeta in H. fold N in H. change MaxFileSize with 7168 in H.
  rewrite decide_True in H by done.
  destruct H as (f' & st' & E & Hw' & Hl & Hs & _ & Hfo' & Hst & _ & Ht & _).
  pose proof (fo_holds _ _ _ _ _ Hfo') as Hh'.
  destruct (ReadAt_ok st' f' _ numBytes position Hw' Hh' ltac:(lia)) as (st'' & E2 & _).
  exists f', st', st''. split; [done|]. split; [|by rewrite Hst]. rewrite E2. do 2 f_equal.
  unfold read_result. rewrite Hl, (proj2 (Z.leb_gt numBytes 0)), (proj2 (Z.ltb_ge position 0)),
    (proj2 (Z.leb_gt (position + numBytes) position)) by lia. cbn [orb].
  replace (Z.min numBytes (position + numBytes - position)) with numBytes by lia. f_equal.
  unfold slice. rewrite take_drop_commute.
  replace (Z.to_nat position + Z.to_nat numBytes)%nat with (Z.to_nat (position + numBytes)) by lia.
  rewrite Ht. apply drop_app_length'. rewrite length_take, file_bytes_length by
    (eapply sectors_ok_holds; [exact Hwf|apply Hfo]). pose proof (fo_holds _ _ _ _ _ Hfo) as []. lia.
Qed.
End Spec.


(** ** Concrete inputs *)

#[local] Existing Instance SynchDisk.sample_instance.
#[export] Instance sample_heap : Heap SynchDisk.SynchDisk :=
  {| uninit := fun _ n => replicate n 170; uninit_length := fun _ n => length_replicate n 170 |}.

(** The free map in sectors 0 and 3, a file of 10 bytes in sectors 20 (header) and 21. *)
Definition sample_map_header : FileHeader :=
  MkHeader 128 128 1 0 TYPE_FILE 0 0 (3 :: replicate 24 0).
Definition sample_fm : Bitmap.Bitmap := Bitmap.MkBitmap 1024 32 (2 ^ 32 - 1 :: replicate 31 0).
Definition sample_file_header : FileHeader :=
  MkHeader 10 128 1 20 TYPE_FILE 0 0 (21 :: replicate 24 0).
Definition sample_content : gmap Z (list Z) :=
  {[ 0 := encode sample_map_header; 3 := map_bytes sample_fm;
     20 := encode sample_file_header; 21 := seqZ 97 10 ++ replicate 118 0 ]}.
Definition sample_store : SynchDisk.SynchDisk := SynchDisk.sample_disk sample_content.
Definition sample_file : OpenFile := MkOpen sample_file_header 0.

Lemma sample_files_wf : store_wf sample_store.
Proof.
  apply SynchDisk.sample_disk_wf. apply (map_Forall_to_list (fun _ bs => Z.of_nat (length bs) = Disk.SectorSize)).
  by_compute.
Qed.

(** A header with one sector. *)
Lemma holds_one (st : SynchDisk.SynchDisk) l s t ct mt b : 0 < b < NumSectors -> 0 <= l <= 128 ->
  holds st (MkHeader l 128 1 s t ct mt (b :: replicate 24 0)) [b].
Proof.
  intros Hb Hl. constructor; cbn [dataSectors nsectors capacity limit length]; try done; try lia.
  - intros i Hi. destruct i as [|i]; [done|]. transitivity (Some 0); [apply (lookup_replicate_2 24 0 i); lia|reflexivity].
  - apply Forall_cons. split; [exact Hb|constructor].
  - apply NoDup_singleton.
Qed.

Lemma sample_map_on_disk : map_on_disk sample_store sample_map_header 3 sample_fm (range 32 1024).
Proof.
  constructor; try reflexivity.
  - by_compute.
  - apply holds_one; done.
  - split; [|split; [reflexivity|rewrite elem_of_range; lia]].
    split; [|vm_compute; reflexivity]. constructor; [reflexivity..|]. by_compute.
  - rewrite elem_of_range. lia.
Qed.

Lemma sample_file_ok : file_ok sample_store (hdr sample_file) [21] 3 (range 32 1024).
Proof.
  assert (indirect (hdr sample_file) = 0) as Hi by reflexivity.
  constructor; rewrite ?Hi.
  - apply holds_one; done.
  - unfold header_apart. rewrite list_elem_of_singleton. split; [done|]. split; [done|]. simpl. lia.
  - rewrite list_elem_of_singleton. done.
  - rewrite elem_of_range. simpl. lia.
  - intros x ->%list_elem_of_singleton. rewrite elem_of_range. lia.
  - rewrite elem_of_range. lia.
Qed.

Example read_at_slice_witness : exists st', ReadAt sample_file 100 4 sample_store = Ok ((6, seqZ 101 6), st').
Proof.
  destruct (read_at_slice sample_store sample_file [21] 100 4) as (st' & E & _).
  - exact sample_files_wf.
  - apply sample_file_ok.
  - lia.
  - exists st'. exact E.
Defined.

(** Overwriting two bytes in the middle cuts the file off behind them. *)
Example write_at_replaces_tail_witness : exists f' st',
  WriteAt 2 sample_file [65; 66] 2 4 sample_store = Ok ((2, f'), st') /\ limit (hdr f') = 6.
Proof.
  pose proof (write_at_replaces_tail sample_store sample_file [21] sample_map_header 3 sample_fm
    (range 32 1024) [65; 66] 2 4 sample_files_wf sample_map_on_disk sample_file_ok) as H.
  cbv zeta in H. rewrite decide_True in H.
  - destruct H as (f' & st' & E & _ & Hl & _); [simpl; lia|unfold is_i32; lia|simpl; lia|].
    exists f', st'. split; [exact E|]. exact Hl.
  - split; by_compute.
Defined.

Example write_read_roundtrip_witness : exists f' st' st'',
  WriteAt 2 sample_file (replicate 200 7) 200 4 sample_store = Ok ((200, f'), st') /\
  ReadAt f' 200 4 st' = Ok ((200, replicate 200 7), st'').
Proof.
  destruct (write_read_roundtrip sample_store sample_file [21] sample_map_header 3 sample_fm
    (range 32 1024) (replicate 200 7) 200 4 sample_files_wf sample_map_on_disk sample_file_ok)
    as (f' & st' & st'' & E & E' & _); [simpl; lia|simpl; lia|by_compute|by_compute|].
  exists f', st', st''. split; [exact E|exact E'].
Defined.
End OpenFile.
