(* ===== verification/Directory.v ===== *)
(** Directory: src/code/filesys/directory.h and directory.cc.

    A directory is a file of 204 bytes: the sector of its own header and ten entries of 20
    bytes.  [skipelem] and [namex] walk a path; a path is the list of the characters before
    its terminating NUL, a name buffer is the array of [FileNameMaxLen] chars that the code
    passes around, and NULL is [None]. *)

From S2P Require Import Prelude Bitmap Disk SectorStore SynchDisk FileHdr OpenFile.
From stdpp Require Import base numbers list gmap.
#[local] Open Scope Z_scope.

Module Directory.
Import Disk FileHdr OpenFile.

Definition FileNameMaxLen : Z := 9.
Definition NumDirEntries : Z := 10.

(** The object in memory, padding included: [inUse] at 0, [sector] at 4, [name] at 8. *)
Record DirectoryEntry := MkDirEntry {
  inUse : Z;
  pad1 : list Z;
  sector : Z;
  name : list Z;
  pad2 : list Z
}.
Definition entry_size : Z := 20.

Record Directory := MkDir {
  tableSize : Z;
  table : list DirectoryEntry;
  dsector : Z
}.

Definition entry_bytes (e : DirectoryEntry) : list Z :=
  inUse e :: pad1 e ++ int_to_bytes (sector e) ++ name e ++ pad2 e.

Definition entry_of_bytes (bs : list Z) : DirectoryEntry :=
  MkDirEntry (default 0 (head bs)) (slice 1 3 bs) (default 0 (head (bytes_to_ints (slice 4 4 bs))))
    (slice 8 10 bs) (slice 18 2 bs).

Definition table_bytes (t : list DirectoryEntry) : list Z := flat_map entry_bytes t.

Fixpoint table_of_bytes (n : nat) (bs : list Z) : list DirectoryEntry :=
  match n with
  | O => []
  | S n => entry_of_bytes (take 20 bs) :: table_of_bytes n (drop 20 bs)
  end.

Definition used (e : DirectoryEntry) : bool := negb (inUse e =? 0).
Definition set_inUse (e : DirectoryEntry) (b : Z) : DirectoryEntry :=
  MkDirEntry b (pad1 e) (sector e) (name e) (pad2 e).

(** [strncmp(a, b, n) == 0] on two arrays. *)
Fixpoint strncmp_eq (n : nat) (a b : list Z) : res bool :=
  match n with
  | O => Ok true
  | S n =>
      match a, b with
      | x :: a, y :: b =>
          if negb (x =? y) then Ok false else if x =? 0 then Ok true else strncmp_eq n a b
      | _, _ => Undefined
      end
  end.

(** The characters that [strncpy(dst, src, n)] stores: those of [src] up to its NUL, then NULs. *)
Fixpoint strncpy_chars (n : nat) (src : list Z) : res (list Z) :=
  match n with
  | O => Ok []
  | S n =>
      match src with
      | [] => Undefined
      | x :: src =>
          if x =? 0 then Ok (replicate (S n) 0) else l ← strncpy_chars n src; Ok (x :: l)
      end
  end.

Definition strncpy (dst src : list Z) (n : nat) : res (list Z) :=
  l ← strncpy_chars n src; Ok (splice 0 l dst).

(** [FindIndex]: the first used entry with that name, or -1. *)
Definition FindIndex (d : Directory) (nm : list Z) : res Z :=
  r ← for_ret (range 0 (tableSize d))
        (fun i _ =>
           e ← aget (table d) i;
           if used e then
             eq ← strncmp_eq (Z.to_nat FileNameMaxLen) (name e) nm;
             if (eq : bool) then Ok (inr i) else Ok (inl tt)
           else Ok (inl tt)) tt;
  match r with inr i => Ok i | inl _ => Ok (-1) end.

Definition dirlookup (d : Directory) (nm : list Z) : res Z :=
  k ← FindIndex d nm;
  if negb (k =? -1) then e ← aget (table d) k; Ok (sector e) else Ok (-1).

Definition AddInCurrentDir (d : Directory) (nm : list Z) (newSector : Z) : res (bool * Directory) :=
  k ← FindIndex d nm;
  if negb (k =? -1) then Ok (false, d)
  else
    r ← for_ret (range 0 (tableSize d))
          (fun i _ =>
             e ← aget (table d) i;
             if negb (used e) then
               nm' ← strncpy (name e) nm (Z.to_nat FileNameMaxLen);
               t ← aset (table d) i (MkDirEntry 1 (pad1 e) newSector nm' (pad2 e));
               Ok (inr (MkDir (tableSize d) t (dsector d)))
             else Ok (inl tt)) tt;
    match r with inr d' => Ok (true, d') | inl _ => Ok (false, d) end.

Definition RemoveInCurrentDir (d : Directory) (nm : list Z) : res (bool * Directory) :=
  index ← FindIndex d nm;
  if index =? -1 then Ok (false, d)
  else
    e ← aget (table d) index;
    t ← aset (table d) index (set_inUse e 0);
    Ok (true, MkDir (tableSize d) t (dsector d)).

(** The loops of [skipelem]: over the slashes, and to the next slash. *)
Fixpoint skip_slashes (path : list Z) : list Z :=
  match path with c :: path' => if c =? 47 then skip_slashes path' else path | [] => [] end.

Fixpoint span_elem (path : list Z) : list Z * list Z :=
  match path with
  | c :: path' => if c =? 47 then ([], path) else let '(s, rest) := span_elem path' in (c :: s, rest)
  | [] => ([], [])
  end.

(** [skipelem(path, name)]: the rest of the path, or NULL, and the buffer. *)
Definition skipelem (path nm : list Z) : option (list Z) * list Z :=
  match skip_slashes path with
  | [] => (None, nm)
  | path =>
      let '(s, path) := span_elem path in
      let len := Z.of_nat (length s) in
      let nm := if FileNameMaxLen <=? len then splice 0 (take (Z.to_nat FileNameMaxLen) s) nm
                else splice 0 (s ++ [0]) nm in
      (Some (skip_slashes path), nm)
  end.

Section Ops.
Context {St : Type} {SS : SectorStore St} {HP : Heap St}.

(** The constructors: every entry marked unused, the rest uninitialised. *)
Definition new_table (size : Z) : M St (list DirectoryEntry) :=
  junk ← new_buffer (size * entry_size);
  mret (map (fun e => set_inUse e 0) (table_of_bytes (Z.to_nat size) junk)).

Definition Directory_sized (size : Z) : M St Directory :=
  junk ← new_buffer 4; t ← new_table size;
  mret (MkDir size t (default 0 (head (bytes_to_ints junk)))).
Definition Directory_new : M St Directory := Directory_sized 10.
Definition Directory_at (sector size : Z) : M St Directory :=
  t ← new_table size; mret (MkDir size t sector).

Definition FetchFrom (d : Directory) (f : OpenFile) : M St Directory :=
  '(_, bs) ← ReadAt f 4 0;
  let s := default 0 (head (bytes_to_ints (splice 0 bs (int_to_bytes (dsector d))))) in
  '(_, bs) ← ReadAt f (tableSize d * entry_size) 4;
  mret (MkDir (tableSize d)
          (table_of_bytes (Z.to_nat (tableSize d)) (splice 0 bs (table_bytes (table d)))) s).

Definition WriteBack (fuel : nat) (d : Directory) (f : OpenFile) : M St OpenFile :=
  '(_, f) ← WriteAt fuel f (int_to_bytes (dsector d)) 4 0;
  '(_, f) ← WriteAt fuel f (table_bytes (table d)) (tableSize d * entry_size) 4;
  mret f.

(** [namex(path, nameparent, name)]: the result and the name buffer. *)
Fixpoint namex (fuel : nat) (d : Directory) (path : list Z) (nameparent : bool) (nm : list Z)
    : M St (Z * list Z) :=
  match fuel with
  | O => fun _ => OutOfFuel
  | S fuel =>
    let '(p, nm) := skipelem path nm in
    path ← lift (deref p);
    match path with
    | [] => if nameparent then mret (dsector d, nm) else s ← lift (dirlookup d nm); mret (s, nm)
    | _ =>
        next ← lift (dirlookup d nm);
        if next =? -1 then mret (-1, nm)
        else
          h ← FileHdr.FetchFrom next;
          if negb (getFileType h =? TYPE_DIR) then mret (-1, nm)
          else
            nextDirOpenFile ← OpenFile_new next;
            nextDir ← Directory_new;
            nextDir ← FetchFrom nextDir nextDirOpenFile;
            namex fuel nextDir path nameparent nm
    end
  end.

(** A path of [n] characters has at most [n] elements. *)
Definition path_fuel (path : list Z) : nat := S (length path).

Definition Find (d : Directory) (path : list Z) : M St Z :=
  nm ← new_buffer FileNameMaxLen;
  '(s, _) ← namex (path_fuel path) d path false nm; mret s.

(** The part that Add and Remove share: the parent directory and its file. *)
Definition open_parent (psector : Z) : M St (Directory * OpenFile) :=
  pdir ← Directory_new;
  pfile ← OpenFile_new psector;
  pdir ← FetchFrom pdir pfile;
  mret (pdir, pfile).

Definition Add (fuel : nat) (d : Directory) (path : list Z) (newSector : Z) : M St bool :=
  nm ← new_buffer FileNameMaxLen;
  '(psector, nm) ← namex (path_fuel path) d path true nm;
  if psector =? -1 then mret false
  else
    '(pdir, pfile) ← open_parent psector;
    '(res, pdir) ← lift (AddInCurrentDir pdir nm newSector);
    if (res : bool) then _ ← WriteBack fuel pdir pfile; mret true else mret false.

Definition Remove (fuel : nat) (d : Directory) (path : list Z) : M St bool :=
  nm ← new_buffer FileNameMaxLen;
  '(psector, nm) ← namex (path_fuel path) d path true nm;
  if psector =? -1 then mret false
  else
    '(pdir, pfile) ← open_parent psector;
    '(res, pdir) ← lift (RemoveInCurrentDir pdir nm);
    if (res : bool) then _ ← WriteBack fuel pdir pfile; mret true else mret false.
End Ops.


(** * Names *)

(** The name that [n] bytes hold: the bytes before the first NUL. *)
Fixpoint cstr (n : nat) (bs : list Z) : list Z :=
  match n, bs with
  | S n, x :: bs => if x =? 0 then [] else x :: cstr n bs
  | _, _ => []
  end.

Lemma strncmp_eq_spec n a b : (n <= length a)%nat -> (n <= length b)%nat ->
  strncmp_eq n a b = Ok (bool_decide (cstr n a = cstr n b)).
Proof.
  revert a b. induction n as [|n IH]; intros a b Ha Hb; [done|].
  destruct a as [|x a], b as [|y b]; simpl in Ha, Hb; try lia. cbn [strncmp_eq cstr].
  destruct (Z.eqb_spec x y) as [->|Hne]; cbn [negb].
  - destruct (Z.eqb_spec y 0); [by rewrite bool_decide_true|]. rewrite IH by lia. f_equal.
    apply bool_decide_ext. split; congruence.
  - rewrite bool_decide_false; [done|]. destruct (Z.eqb_spec x 0), (Z.eqb_spec y 0); congruence.
Qed.

Lemma cstr_zeros n : cstr n (replicate n 0) = [].
Proof. by destruct n. Qed.

Lemma strncpy_chars_spec n src : (n <= length src)%nat ->
  exists l, strncpy_chars n src = Ok l /\ length l = n /\ cstr n l = cstr n src.
Proof.
  revert src. induction n as [|n IH]; intros src Hl; [by exists []|].
  destruct src as [|x src]; simpl in Hl; [lia|]. cbn [strncpy_chars cstr].
  destruct (Z.eqb_spec x 0).
  - eexists. split; [done|]. split; [by rewrite length_replicate|done].
  - destruct (IH src) as (l & -> & Hl' & Hc); [lia|]. exists (x :: l). cbn [mbind res_bind].
    split; [done|]. split; [simpl; lia|]. cbn [cstr]. rewrite (proj2 (Z.eqb_neq x 0)) by done. by rewrite Hc.
Qed.

Lemma cstr_app n a b : length a = n -> cstr n (a ++ b) = cstr n a.
Proof.
  revert a. induction n as [|n IH]; intros a Hl; [done|]. destruct a as [|x a]; [done|].
  simpl in Hl. cbn [app cstr]. destruct (x =? 0); [done|]. by rewrite IH by lia.
Qed.

(** * The table as a finite map *)

Definition name_of (e : DirectoryEntry) : list Z := cstr 9 (name e).
Definition entries (t : list DirectoryEntry) : list (list Z * Z) :=
  map (fun e => (name_of e, sector e)) (filter (fun e => used e = true) t).
Definition dir_map (d : Directory) : gmap (list Z) Z := list_to_map (entries (table d)).

Record dir_wf (d : Directory) : Prop := {
  dw_size : tableSize d = Z.of_nat (length (table d));
  dw_names : Forall (fun e => length (name e) = 10%nat) (table d);
  dw_nodup : NoDup (map fst (entries (table d)))
}.

Lemma entries_app t1 t2 : entries (t1 ++ t2) = entries t1 ++ entries t2.
Proof. unfold entries. by rewrite filter_app, map_app. Qed.

Lemma entries_cons e t : entries (e :: t) = if used e then (name_of e, sector e) :: entries t else entries t.
Proof.
  unfold entries. rewrite filter_cons. destruct (used e) eqn:E.
  - by rewrite decide_True.
  - by rewrite decide_False.
Qed.

Lemma elem_of_entries t k s : (k, s) ∈ entries t <->
  exists i e, t !! i = Some e /\ used e = true /\ name_of e = k /\ sector e = s.
Proof.
  unfold entries. rewrite list_elem_of_fmap. split.
  - intros (e & [= -> ->] & [Hu (i & Hi)%list_elem_of_lookup]%list_elem_of_filter). eauto 10.
  - intros (i & e & Hi & Hu & <- & <-). exists e. split; [done|]. apply list_elem_of_filter.
    split; [done|by eapply list_elem_of_lookup_2].
Qed.

Lemma dir_map_lookup d k s : dir_wf d -> dir_map d !! k = Some s <->
  exists i e, table d !! i = Some e /\ used e = true /\ name_of e = k /\ sector e = s.
Proof.
  intros []. rewrite <- elem_of_entries. unfold dir_map. symmetry. by apply elem_of_list_to_map.
Qed.

Lemma dir_map_None d k : dir_wf d -> dir_map d !! k = None <->
  forall i e, table d !! i = Some e -> used e = true -> name_of e <> k.
Proof.
  intros Hw. rewrite eq_None_not_Some. split.
  - intros H i e Hi Hu Hk. apply H. exists (sector e). apply dir_map_lookup; [done|]. eauto 10.
  - intros H [s Hs]. apply dir_map_lookup in Hs as (i & e & Hi & Hu & Hk & _); [|done]. by eapply H.
Qed.

(** [FindIndex] is the lookup. *)
Lemma FindIndex_spec d nm : dir_wf d -> (9 <= length nm)%nat ->
  (exists i e, FindIndex d nm = Ok (Z.of_nat i) /\ table d !! i = Some e /\ used e = true /\ name_of e = cstr 9 nm) \/
  (FindIndex d nm = Ok (-1) /\ dir_map d !! cstr 9 nm = None).
Proof.
  intros Hw Hnm. rewrite dir_map_None by done. pose proof Hw as []. unfold FindIndex.
  match goal with |- context [for_ret _ ?b _] => destruct (for_ret_inv
    (fun i (_ : unit) => forall j e, (j < Z.to_nat i)%nat -> table d !! j = Some e -> used e = true -> name_of e <> cstr 9 nm)
    (fun i => exists j e, i = Z.of_nat j /\ table d !! j = Some e /\ used e = true /\ name_of e = cstr 9 nm)
    b 0 (tableSize d) tt) as [([] & -> & H)|(r & -> & j & e & -> & H)] end.
  - lia.
  - intros; lia.
  - intros i [] Hi Hprev. destruct (lookup_lt_is_Some_2 (table d) (Z.to_nat i)) as [e He]; [lia|].
    erewrite aget_Some by (done || lia). cbn [mbind res_bind].
    assert (used e = true /\ name_of e = cstr 9 nm \/ ~ (used e = true /\ name_of e = cstr 9 nm)) as [[Hu Hn]|Hno].
    { destruct (used e); [|right; naive_solver]. destruct (decide (name_of e = cstr 9 nm)); naive_solver. }
    + right. rewrite Hu. change (Z.to_nat FileNameMaxLen) with 9%nat.
      rewrite strncmp_eq_spec by (try lia; rewrite (Forall_lookup_1 _ _ _ _ dw_names0 He); lia).
      cbn [mbind res_bind]. rewrite bool_decide_true by done. eexists. split; [done|].
      exists (Z.to_nat i), e. split_and!; [lia|done..].
    + left. exists tt. split.
      * destruct (used e) eqn:Hu; [|done]. change (Z.to_nat FileNameMaxLen) with 9%nat.
        rewrite strncmp_eq_spec by (try lia; rewrite (Forall_lookup_1 _ _ _ _ dw_names0 He); lia).
        cbn [mbind res_bind]. rewrite bool_decide_false by (intros Hn; by apply Hno). done.
      * intros j e' Hj He' Hu' Hn'. destruct (decide (j = Z.to_nat i)) as [->|].
        -- rewrite He in He'. injection He' as <-. by apply Hno.
        -- apply (Hprev j e'); [lia|done..].
  - right. cbn [mbind res_bind]. split; [done|]. intros i e Hi. apply (H i e); [|done].
    apply lookup_lt_Some in Hi. lia.
  - left. exists j, e. cbn [mbind res_bind]. done.
Qed.

Lemma dirlookup_spec d nm : dir_wf d -> (9 <= length nm)%nat ->
  dirlookup d nm = Ok (default (-1) (dir_map d !! cstr 9 nm)).
Proof.
  intros Hw Hnm. unfold dirlookup.
  destruct (FindIndex_spec d nm Hw Hnm) as [(i & e & -> & He & Hu & Hn)|[-> HN]]; cbn [mbind res_bind].
  - rewrite (proj2 (Z.eqb_neq (Z.of_nat i) (-1))) by lia. cbn [negb].
    erewrite aget_Some by (lia || by rewrite Nat2Z.id). cbn [mbind res_bind]. f_equal.
    rewrite (proj2 (dir_map_lookup d (cstr 9 nm) (sector e) Hw)) by eauto 10. done.
  - rewrite HN. done.
Qed.

(** The entry at [i] replaced. *)
Lemma table_split (t : list DirectoryEntry) i e : t !! i = Some e ->
  t = take i t ++ e :: drop (S i) t /\ forall e', <[i := e']> t = take i t ++ e' :: drop (S i) t.
Proof.
  intros Hi. split; [by rewrite take_drop_middle|]. intros e'. apply insert_take_drop. by eapply lookup_lt_Some.
Qed.

Lemma dir_wf_insert d i e e' : dir_wf d -> table d !! i = Some e -> length (name e') = 10%nat ->
  NoDup (map fst (entries (<[i := e']> (table d)))) ->
  dir_wf (MkDir (tableSize d) (<[i := e']> (table d)) (dsector d)).
Proof.
  intros [] Hi Hl Hnd. constructor; cbn [tableSize table]; [by rewrite length_insert| |done].
  by apply Forall_insert.
Qed.

(** Filling an unused entry with a new name. *)
Lemma fill_entry d i e e' k s : dir_wf d -> table d !! i = Some e -> used e = false ->
  used e' = true -> name_of e' = k -> sector e' = s -> length (name e') = 10%nat -> dir_map d !! k = None ->
  let d' := MkDir (tableSize d) (<[i := e']> (table d)) (dsector d) in
  dir_wf d' /\ dir_map d' = <[k := s]> (dir_map d).
Proof.
  intros Hw Hi Hu Hu' <- <- Hl Hk d'. destruct (table_split (table d) i e Hi) as [Et Ei].
  assert (Permutation (entries (table d')) ((name_of e', sector e') :: entries (table d))) as Hp.
  { unfold d'. cbn [table]. rewrite Ei. rewrite Et at 3. rewrite !entries_app, !entries_cons, Hu, Hu'.
    symmetry. apply Permutation_middle. }
  assert (NoDup (map fst (entries (table d')))) as Hnd.
  { rewrite Hp. cbn [map]. apply NoDup_cons. split; [|apply Hw]. intros Hin.
    apply list_elem_of_fmap in Hin as ([k' s'] & Hk' & Hin). simpl in Hk'. subst k'.
    apply elem_of_entries in Hin as (j & e2 & Hj & Hu2 & Hn2 & _).
    by apply (proj1 (dir_map_None d _ Hw) Hk j e2). }
  split; [by eapply dir_wf_insert|]. unfold dir_map.
  erewrite (list_to_map_proper _ ((name_of e', sector e') :: entries (table d))); [done|exact Hnd|exact Hp].
Qed.

(** Clearing a used entry. *)
Lemma clear_entry d i e : dir_wf d -> table d !! i = Some e -> used e = true ->
  let d' := MkDir (tableSize d) (<[i := set_inUse e 0]> (table d)) (dsector d) in
  dir_wf d' /\ dir_map d' = delete (name_of e) (dir_map d).
Proof.
  intros Hw Hi Hu d'. destruct (table_split (table d) i e Hi) as [Et Ei].
  assert (Permutation (entries (table d)) ((name_of e, sector e) :: entries (table d'))) as Hp.
  { unfold d'. cbn [table]. rewrite Ei. rewrite Et at 1. rewrite !entries_app, !entries_cons, Hu.
    cbn [used set_inUse inUse]. symmetry. apply Permutation_middle. }
  pose proof (dw_nodup _ Hw) as Hnd. rewrite Hp in Hnd. cbn [map] in Hnd.
  apply NoDup_cons in Hnd as [Hn Hnd]. cbn [fst] in Hn.
  split.
  - eapply dir_wf_insert; [done|done| |done]. apply (Forall_lookup_1 _ _ _ _ (dw_names _ Hw) Hi).
  - unfold dir_map. erewrite (list_to_map_proper (entries (table d))); [|apply Hw|exact Hp].
    cbn [list_to_map foldr]. rewrite delete_insert_id; [done|]. by apply not_elem_of_list_to_map.
Qed.

Lemma size_dir_map d : dir_wf d -> size (dir_map d) = length (filter (fun e => used e = true) (table d)).
Proof.
  intros []. unfold dir_map. rewrite map_size_list_to_map by done. unfold entries. by rewrite length_map.
Qed.

(** The directory is full exactly when every entry is used. *)
Lemma all_used d : dir_wf d -> (forall i e, table d !! i = Some e -> used e = true) ->
  size (dir_map d) = length (table d).
Proof.
  intros Hw H. rewrite size_dir_map by done. rewrite list_filter_all_true; [done|].
  apply Forall_lookup. intros i e Hi. by apply (H i e).
Qed.

Lemma some_unused d i e : dir_wf d -> table d !! i = Some e -> used e = false ->
  (size (dir_map d) < length (table d))%nat.
Proof.
  intros Hw Hi Hu. rewrite size_dir_map by done. destruct (table_split _ _ _ Hi) as [-> _].
  rewrite filter_app, filter_cons, decide_False by congruence. rewrite !length_app. cbn [length].
  pose proof (length_filter (fun e => used e = true) (take i (table d))).
  pose proof (length_filter (fun e => used e = true) (drop (S i) (table d))). lia.
Qed.

Lemma AddInCurrentDir_spec d nm s : dir_wf d -> length nm = 9%nat ->
  exists b d', AddInCurrentDir d nm s = Ok (b, d') /\ dir_wf d' /\ dsector d' = dsector d /\ tableSize d' = tableSize d /\
    b = bool_decide (dir_map d !! cstr 9 nm = None /\ Z.of_nat (size (dir_map d)) < tableSize d) /\
    dir_map d' = if b then <[cstr 9 nm := s]> (dir_map d) else dir_map d.
Proof.
  intros Hw Hnm. unfold AddInCurrentDir.
  destruct (FindIndex_spec d nm Hw ltac:(lia)) as [(i & e & -> & He & Hu & Hn)|[-> HN]]; cbn [mbind res_bind].
  { rewrite (proj2 (Z.eqb_neq (Z.of_nat i) (-1))) by lia. cbn [negb]. exists false, d. split_and!; try done.
    rewrite bool_decide_false; [done|]. intros [Hk _]. by apply (proj1 (dir_map_None d _ Hw) Hk i e). }
  change (negb (-1 =? -1)) with false. cbv iota. pose proof Hw as [].
  match goal with |- context [for_ret _ ?b _] => destruct (for_ret_inv
    (fun i (_ : unit) => forall j e, (j < Z.to_nat i)%nat -> table d !! j = Some e -> used e = true)
    (fun d' => dir_wf d' /\ dsector d' = dsector d /\ tableSize d' = tableSize d /\
       dir_map d' = <[cstr 9 nm := s]> (dir_map d) /\ (size (dir_map d) < length (table d))%nat)
    b 0 (tableSize d) tt) as [([] & -> & H)|(d' & -> & H)] end.
  - lia.
  - intros; lia.
  - intros i [] Hi Hprev. destruct (lookup_lt_is_Some_2 (table d) (Z.to_nat i)) as [e He]; [lia|].
    erewrite aget_Some by (done || lia). cbn [mbind res_bind]. destruct (used e) eqn:Hu; cbn [negb].
    + left. exists tt. split; [done|]. intros j e' Hj He'. destruct (decide (j = Z.to_nat i)); [congruence|].
      apply (Hprev j e'); [lia|done].
    + right. destruct (strncpy_chars_spec 9 nm) as (l & El & Hl & Hc); [lia|].
      unfold strncpy. change (Z.to_nat FileNameMaxLen) with 9%nat. rewrite El. cbn [mbind res_bind].
      rewrite aset_in by lia. cbn [mbind res_bind]. eexists. split; [done|].
      pose proof (Forall_lookup_1 _ _ _ _ dw_names0 He) as Hne. cbn beta in Hne.
      destruct (fill_entry d (Z.to_nat i) e (MkDirEntry 1 (pad1 e) s (splice 0 l (name e)) (pad2 e)) (cstr 9 nm) s)
        as [Hw' Hm']; try done.
      * unfold name_of. cbn [name]. unfold splice. rewrite take_0, app_nil_l, cstr_app; done.
      * cbn [name]. rewrite splice_length; lia.
      * split_and!; try done. by eapply some_unused.
  - cbn [mbind res_bind]. exists false, d. split_and!; try done. rewrite bool_decide_false; [done|]. intros [_ Hs].
    rewrite all_used in Hs; [lia|done|]. intros i e He. apply (H i e); [|done]. apply lookup_lt_Some in He. lia.
  - cbn [mbind res_bind]. destruct H as (Hw' & Hd & Ht & Hm & Hs). exists true, d'. split_and!; try done.
    rewrite bool_decide_true; [done|]. split; [done|lia].
Qed.

Lemma RemoveInCurrentDir_spec d nm : dir_wf d -> length nm = 9%nat ->
  exists d', RemoveInCurrentDir d nm = Ok (bool_decide (is_Some (dir_map d !! cstr 9 nm)), d') /\
    dir_wf d' /\ dsector d' = dsector d /\ tableSize d' = tableSize d /\ dir_map d' = delete (cstr 9 nm) (dir_map d).
Proof.
  intros Hw Hnm. unfold RemoveInCurrentDir.
  destruct (FindIndex_spec d nm Hw ltac:(lia)) as [(i & e & -> & He & Hu & Hn)|[-> HN]]; cbn [mbind res_bind].
  - rewrite (proj2 (Z.eqb_neq (Z.of_nat i) (-1))) by lia.
    erewrite aget_Some by (lia || by rewrite Nat2Z.id). cbn [mbind res_bind].
    pose proof (lookup_lt_Some _ _ _ He). rewrite aset_in by lia. cbn [mbind res_bind]. rewrite Nat2Z.id.
    destruct (clear_entry d i e Hw He Hu) as [Hw' Hm']. rewrite Hn in Hm'.
    eexists. split_and!; try done. rewrite bool_decide_true; [done|].
    exists (sector e). apply dir_map_lookup; [done|]. eauto 10.
  - change (-1 =? -1) with true. cbv iota. exists d. rewrite HN, bool_decide_false by (by intros [? ?]).
    split_and!; try done. by rewrite delete_id.
Qed.

(** * Paths *)

(** The elements of a path: what lies between slashes, empty pieces dropped. *)
Fixpoint split_slash (path : list Z) : list (list Z) :=
  match path with
  | [] => [[]]
  | c :: p =>
      if c =? 47 then [] :: split_slash p
      else match split_slash p with w :: ws => (c :: w) :: ws | [] => [[c]] end
  end.
Definition components (path : list Z) : list (list Z) := filter (fun w => w <> []) (split_slash path).

(** The name an element stands for: its first nine characters. *)
Definition key_of (elem : list Z) : list Z := take 9 elem.

(** A C string: no NUL before the end. *)
Definition is_cstring (path : list Z) : Prop := Forall (fun c => c <> 0) path.

Lemma split_slash_cons p : exists w ws, split_slash p = w :: ws.
Proof.
  destruct p as [|c p]; simpl; [eauto|]. destruct (c =? 47); [eauto|]. destruct (split_slash p); eauto.
Qed.

Lemma components_slash p : components (47 :: p) = components p.
Proof. unfold components. cbn [split_slash]. change (47 =? 47) with true. cbv iota. by rewrite filter_cons, decide_False by tauto. Qed.

Lemma components_skip p : components (skip_slashes p) = components p.
Proof.
  induction p as [|c p IH]; [done|]. cbn [skip_slashes]. destruct (Z.eqb_spec c 47) as [->|]; [|done].
  by rewrite components_slash.
Qed.

Lemma skip_slashes_head p c p' : skip_slashes p = c :: p' -> c <> 47.
Proof.
  induction p as [|d p IH]; [done|]. cbn [skip_slashes]. destruct (Z.eqb_spec d 47); [done|]. by intros [= <- <-].
Qed.

Lemma skip_slashes_length p : (length (skip_slashes p) <= length p)%nat.
Proof. induction p as [|c p IH]; [done|]. cbn [skip_slashes]. destruct (c =? 47); simpl; lia. Qed.

Lemma skip_slashes_cstring p : is_cstring p -> is_cstring (skip_slashes p).
Proof. induction 1 as [|c p Hc Hp IH]; [constructor|]. cbn [skip_slashes]. destruct (c =? 47); [done|by constructor]. Qed.

Lemma span_elem_spec p : exists s rest, span_elem p = (s, rest) /\ p = s ++ rest /\
  Forall (fun c => c <> 47) s /\ (rest = [] \/ exists r, rest = 47 :: r).
Proof.
  induction p as [|c p (s & rest & E & -> & Hs & Hr)]; [exists [], []; naive_solver|].
  cbn [span_elem]. destruct (Z.eqb_spec c 47) as [->|].
  - exists [], (47 :: s ++ rest). naive_solver.
  - rewrite E. exists (c :: s), rest. split_and!; [done|done|by constructor|done].
Qed.

Lemma split_slash_elem s rest : Forall (fun c => c <> 47) s -> (rest = [] \/ exists r, rest = 47 :: r) ->
  exists ws, split_slash (s ++ rest) = s :: ws /\ filter (fun w => w <> []) ws = components rest.
Proof.
  intros Hs Hr. induction Hs as [|c s Hc Hs (ws & E & Hw)].
  - destruct Hr as [->|[r ->]]; simpl; [by exists []|]. exists (split_slash r). by rewrite components_slash.
  - cbn [app split_slash]. rewrite (proj2 (Z.eqb_neq c 47)) by done. rewrite E. eauto.
Qed.

Lemma components_elem s rest : s <> [] -> Forall (fun c => c <> 47) s -> (rest = [] \/ exists r, rest = 47 :: r) ->
  components (s ++ rest) = s :: components rest.
Proof.
  intros Hne Hs Hr. destruct (split_slash_elem s rest Hs Hr) as (ws & E & Hw).
  unfold components at 1. rewrite E, filter_cons, decide_True by done. by rewrite Hw.
Qed.

Lemma cstr_no_zero n s : is_cstring s -> (n <= length s)%nat -> cstr n s = take n s.
Proof.
  revert s. induction n as [|n IH]; intros s Hs Hn; [done|]. destruct Hs as [|c s Hc Hs]; simpl in Hn; [lia|].
  cbn [cstr take]. rewrite (proj2 (Z.eqb_neq c 0)) by done. f_equal. apply IH; [done|lia].
Qed.

Lemma cstr_terminated n s rest : is_cstring s -> (length s < n)%nat -> cstr n (s ++ 0 :: rest) = s.
Proof.
  intros Hs. revert n. induction Hs as [|c s Hc Hs IH]; intros [|n] Hn; simpl in Hn; try lia; [done|].
  cbn [app cstr]. rewrite (proj2 (Z.eqb_neq c 0)) by done. f_equal. apply IH. lia.
Qed.

(** skipelem takes the first element off the path. *)
Lemma skipelem_spec path nm : is_cstring path -> length nm = 9%nat ->
  match components path with
  | [] => skipelem path nm = (None, nm)
  | c :: cs => exists p' nm', skipelem path nm = (Some p', nm') /\ components p' = cs /\
      (p' = [] <-> cs = []) /\ (length p' < length path)%nat /\ is_cstring p' /\
      cstr 9 nm' = key_of c /\ length nm' = 9%nat
  end.
Proof.
  intros Hc Hnm. unfold skipelem. rewrite <- (components_skip path).
  pose proof (skip_slashes_length path) as Hlen. pose proof (skip_slashes_cstring path Hc) as Hc1.
  pose proof (skip_slashes_head path) as Hhd. destruct (skip_slashes path) as [|c p]; [done|].
  specialize (Hhd c p eq_refl).
  destruct (span_elem_spec (c :: p)) as (s & rest & -> & E & Hs & Hr).
  assert (s <> []) as Hne.
  { intros ->. destruct Hr as [->|[r ->]]; simplify_eq/=. }
  rewrite E, components_elem by done.
  apply (f_equal length) in E as El. simpl in El. rewrite length_app in El.
  assert (0 < length s)%nat by (destruct s; [done|simpl; lia]).
  pose proof (skip_slashes_length rest) as Hlr.
  assert (is_cstring s /\ is_cstring rest) as [Hcs Hcr] by (rewrite E in Hc1; by apply Forall_app in Hc1).
  eexists _, _. split; [done|]. split; [apply components_skip|]. split.
  { rewrite <- (components_skip rest). split; [by intros ->|].
    pose proof (skip_slashes_head rest) as Hh. destruct (skip_slashes rest) as [|x r'] eqn:Er; [done|].
    intros Hn. exfalso. specialize (Hh x r' eq_refl).
    destruct (span_elem_spec (x :: r')) as (s' & rest' & _ & E' & Hs' & Hr').
    rewrite E' in Hn. rewrite components_elem in Hn; [done| |done|done].
    intros ->. destruct Hr' as [->|[r ->]]; simplify_eq/=. }
  split; [simpl in *; lia|]. split; [by apply skip_slashes_cstring|].
  change FileNameMaxLen with 9. change (Z.to_nat 9) with 9%nat. unfold key_of.
  destruct (Z.leb_spec 9 (Z.of_nat (length s))) as [Hge|Hlt].
  - split; [|rewrite splice_length; [done|]; rewrite length_take; lia].
    rewrite splice_whole by (rewrite length_take; lia).
    rewrite cstr_no_zero by (try (rewrite length_take; lia); by apply Forall_take). by rewrite take_take.
  - split; [|rewrite splice_length; [done|]; rewrite length_app; simpl; lia].
    unfold splice. rewrite take_0, app_nil_l, <- app_assoc. cbn [app].
    rewrite cstr_terminated by (done || lia). by rewrite take_ge by lia.
Qed.

(** * Directories on disk *)

Definition entry_wf (e : DirectoryEntry) : Prop :=
  length (pad1 e) = 3%nat /\ length (name e) = 10%nat /\ length (pad2 e) = 2%nat /\ is_i32 (sector e).

Lemma entry_bytes_length e : entry_wf e -> length (entry_bytes e) = 20%nat.
Proof.
  intros (H1 & H2 & H3 & _). unfold entry_bytes. cbn [length]. rewrite !length_app, int_to_bytes_length. lia.
Qed.

Lemma int_bytes_roundtrip z : is_i32 z -> default 0 (head (bytes_to_ints (int_to_bytes z))) = z.
Proof.
  intros Hz. change (int_to_bytes z) with (ints_to_bytes [z]). by rewrite bytes_to_ints_to_bytes by (by constructor).
Qed.

Lemma entry_roundtrip e : entry_wf e -> entry_of_bytes (entry_bytes e) = e.
Proof.
  intros (H1 & H2 & H3 & Hs). destruct e as [u p1 s n p2]; cbn [pad1 name pad2 sector inUse] in *.
  unfold entry_bytes, entry_of_bytes. cbn [pad1 name pad2 sector inUse head default from_option].
  pose proof (int_to_bytes_length s) as Hi.
  assert (forall rest, slice 1 3 (u :: p1 ++ rest) = p1) as ->.
  { intros rest. unfold slice. change (drop 1 (u :: p1 ++ rest)) with (p1 ++ rest). by apply take_app_length'. }
  assert (slice 4 4 (u :: p1 ++ int_to_bytes s ++ n ++ p2) = int_to_bytes s) as ->.
  { unfold slice. change (drop 4 (u :: p1 ++ int_to_bytes s ++ n ++ p2)) with (drop 3 (p1 ++ int_to_bytes s ++ n ++ p2)).
    rewrite drop_app_length' by done. by apply take_app_length'. }
  assert (slice 8 10 (u :: p1 ++ int_to_bytes s ++ n ++ p2) = n) as ->.
  { unfold slice. change (drop 8 (u :: p1 ++ int_to_bytes s ++ n ++ p2)) with (drop 7 (p1 ++ int_to_bytes s ++ n ++ p2)).
    rewrite app_assoc, drop_app_length' by (rewrite length_app; lia). by apply take_app_length'. }
  assert (slice 18 2 (u :: p1 ++ int_to_bytes s ++ n ++ p2) = p2) as ->.
  { unfold slice. change (drop 18 (u :: p1 ++ int_to_bytes s ++ n ++ p2)) with (drop 17 (p1 ++ int_to_bytes s ++ n ++ p2)).
    rewrite !app_assoc, drop_app_length' by (rewrite !length_app; lia). by rewrite take_ge by lia. }
  by rewrite int_bytes_roundtrip.
Qed.

Lemma table_bytes_length t : Forall entry_wf t -> length (table_bytes t) = (20 * length t)%nat.
Proof.
  induction 1 as [|e t He _ IH]; [done|]. unfold table_bytes in *. cbn [flat_map length].
  rewrite length_app, IH, entry_bytes_length by done. lia.
Qed.

Lemma table_roundtrip t : Forall entry_wf t -> table_of_bytes (length t) (table_bytes t) = t.
Proof.
  induction 1 as [|e t He _ IH]; [done|]. unfold table_bytes in *. cbn [flat_map length table_of_bytes].
  rewrite take_app_length', drop_app_length' by (by rewrite entry_bytes_length).
  by rewrite entry_roundtrip, IH.
Qed.

Lemma table_of_bytes_length n bs : length (table_of_bytes n bs) = n.
Proof. revert bs. induction n as [|n IH]; intros bs; [done|]. cbn [table_of_bytes length]. by rewrite IH. Qed.

Lemma table_of_bytes_wf n bs : (20 * n <= length bs)%nat ->
  Forall entry_wf (table_of_bytes n bs).
Proof.
  revert bs. induction n as [|n IH]; intros bs Hl; [constructor|]. cbn [table_of_bytes]. constructor.
  - unfold entry_wf, entry_of_bytes. cbn [name pad1 pad2 sector]. rewrite !slice_length, !length_take.
    split_and!; try lia; unfold bytes_to_ints; (destruct (bytes_to_words _); [done|apply i32_range]).
  - apply IH. rewrite length_drop. lia.
Qed.

(** A directory object as it is stored: ten well-formed entries. *)
Definition dir_ok (d : Directory) : Prop :=
  dir_wf d /\ tableSize d = 10 /\ Forall entry_wf (table d) /\ is_i32 (dsector d).

Lemma dir_ok_table d : dir_ok d -> length (table d) = 10%nat /\ length (table_bytes (table d)) = 200%nat.
Proof.
  intros ([Hs _ _] & Ht & He & _). rewrite Ht in Hs. rewrite table_bytes_length by done. lia.
Qed.

Definition dir_bytes (d : Directory) : list Z := int_to_bytes (dsector d) ++ table_bytes (table d).

Section Disk.
Context {St : Type} {SS : SectorStore St} {HP : Heap St}.
Implicit Types (st : St) (h : FileHeader) (d : Directory) (f : OpenFile).

(** The file of header [h] and sectors [bl] holds the directory [d]. *)
Definition file_holds_dir st h bl d : Prop :=
  holds st h bl /\ 204 <= limit h /\ dir_ok d /\ take 204 (file_bytes st bl) = dir_bytes d.

(** Sector [s] is the header of a directory that maps names to sectors as [m], of a file
    that is not a directory, in the state [st]. *)
Definition dir_stored st (s : Z) (m : gmap (list Z) Z) : Prop :=
  exists h bl d, 0 <= s < NumSectors /\ store_sector st s = encode h /\ Forall is_i32 (header_ints h) /\
    ftype h = TYPE_DIR /\ file_holds_dir st h bl d /\ dsector d = s /\ dir_map d = m.
Definition file_stored st (s : Z) : Prop :=
  exists h, 0 <= s < NumSectors /\ store_sector st s = encode h /\ Forall is_i32 (header_ints h) /\
    length (dataSectors h) = 25%nat /\ ftype h <> TYPE_DIR.

Lemma Directory_sized_shape n st : 0 <= n ->
  exists d, Directory_sized n st = Ok (d, st) /\ tableSize d = n /\ length (table d) = Z.to_nat n /\
    (n = 10 -> length (table_bytes (table d)) = 200%nat).
Proof.
  intros Hn. eexists. split; [done|]. cbn [tableSize table]. split; [done|]. split.
  - by rewrite length_map, table_of_bytes_length.
  - intros ->. match goal with |- context [table_of_bytes ?n ?b] => pose proof (table_of_bytes_wf n b) as Hw end.
    rewrite table_bytes_length, length_map, table_of_bytes_length; [done|].
    apply Forall_map. apply (Forall_impl entry_wf); [|done]. apply Hw. by rewrite uninit_length.
Qed.

(** FetchFrom into any directory object of ten entries gives the directory of the file. *)
Lemma dir_FetchFrom_ok st f bl d d0 : store_wf st -> file_holds_dir st (hdr f) bl d ->
  tableSize d0 = 10 -> length (table_bytes (table d0)) = 200%nat ->
  exists st', FetchFrom d0 f st = Ok (d, st') /\ store_wf st' /\ store_eq st st'.
Proof.
  intros Hwf (Hh & Hlim & Hok & Hb) Hs0 Ht0. destruct (dir_ok_table d Hok) as [Hlt Hlb].
  destruct Hok as (Hw & Hsz & He & Hi). unfold FetchFrom.
  destruct (ReadAt_ok st f bl 4 0) as (st1 & E1 & Hw1 & He1); [done|done|lia|]. mstep.
  assert (read_result (file_bytes st bl) (limit (hdr f)) 4 0 = (4, int_to_bytes (dsector d))) as ->.
  { unfold read_result. change ((4 <=? 0) || (0 <? 0)) with false. rewrite (proj2 (Z.leb_gt _ 0)) by lia. cbn [orb].
    rewrite Z.min_l by lia. f_equal. change (take 4 (file_bytes st bl) = int_to_bytes (dsector d)).
    replace (take 4 (file_bytes st bl)) with (take 4 (take 204 (file_bytes st bl))) by (by rewrite take_take).
    rewrite Hb. unfold dir_bytes. by apply take_app_length'. }
  cbv iota. rewrite splice_whole by done. rewrite int_bytes_roundtrip by done. rewrite Hs0.
  destruct (ReadAt_ok st1 f bl (10 * entry_size) 4) as (st2 & E2 & Hw2 & He2);
    [done|by eapply holds_store_eq|done|]. mstep.
  assert (read_result (file_bytes st1 bl) (limit (hdr f)) (10 * entry_size) 4 = (200, table_bytes (table d))) as ->.
  { unfold read_result. change ((10 * entry_size <=? 0) || (4 <? 0)) with false.
    rewrite (proj2 (Z.leb_gt _ 4)) by lia. cbn [orb]. change (10 * entry_size) with 200. rewrite Z.min_l by lia. f_equal.
    rewrite (file_bytes_ext st st1).
    2:{ intros b Hbb. apply He1. pose proof (holds_block st _ bl b Hh Hbb). lia. }
    change (slice 4 200 (file_bytes st bl) = table_bytes (table d)). unfold slice. rewrite take_drop_commute.
    change (4 + 200)%nat with 204%nat. rewrite Hb. unfold dir_bytes. by apply drop_app_length'. }
  cbv iota. rewrite splice_whole by lia. change (Z.to_nat 10) with 10%nat. rewrite <- Hlt, table_roundtrip by done.
  exists st2. split; [|split; [done|by etrans]]. unfold mret, M_ret. rewrite <- Hsz. by destruct d.
Qed.

Lemma file_holds_dir_eq st st' h bl d : store_eq st st' -> file_holds_dir st h bl d -> file_holds_dir st' h bl d.
Proof.
  intros He (Hh & Hl & Hd & Hb). split; [by eapply holds_store_eq|]. split; [done|]. split; [done|].
  rewrite <- Hb. f_equal. apply file_bytes_ext. intros b Hbb. apply He. 
  pose proof (holds_block st _ bl b Hh Hbb). lia.
Qed.

Lemma dir_stored_eq st st' s m : store_eq st st' -> dir_stored st s m -> dir_stored st' s m.
Proof.
  intros He (h & bl & d & Hs & Hb & Hi & Ht & Hf & Hd & Hm). exists h, bl, d.
  split_and!; try done; [lia|lia|by rewrite He|by eapply file_holds_dir_eq].
Qed.

Lemma file_stored_eq st st' s : store_eq st st' -> file_stored st s -> file_stored st' s.
Proof. intros He (h & Hs & Hb & Hr). exists h. rewrite He by done. done. Qed.

(** FetchFrom of a header that is in its sector. *)
Lemma header_FetchFrom_ok st s h : store_wf st -> 0 <= s < NumSectors -> store_sector st s = encode h ->
  Forall is_i32 (header_ints h) ->
  exists st', FileHdr.FetchFrom s st = Ok (h, st') /\ store_wf st' /\ store_eq st st'.
Proof.
  intros Hwf Hs Hh Hi. destruct (store_read_ok st s) as (st' & E & Hw & He); [done|done|].
  exists st'. split; [|done]. unfold FileHdr.FetchFrom. mstep. by rewrite Hh, decode_encode.
Qed.

(** Opening and fetching the directory in sector [s]. *)
Lemma fetch_dir_ok {A} st s m (k : Directory -> M St A) : store_wf st -> dir_stored st s m ->
  exists d st', dir_ok d /\ dsector d = s /\ dir_map d = m /\ store_wf st' /\ store_eq st st' /\
    (nextDirOpenFile ← OpenFile_new s; nextDir ← Directory_new;
     nextDir ← FetchFrom nextDir nextDirOpenFile; k nextDir) st = k d st'.
Proof.
  intros Hwf (h & bl & d & Hs & Hb & Hi & Ht & Hf & Hd & Hm).
  destruct (OpenFile_new_ok st s h) as (st1 & E1 & Hw1 & He1); [done..|].
  destruct (Directory_sized_shape 10 st1) as (d0 & E0 & Hs0 & _ & Ht0); [lia|].
  destruct (dir_FetchFrom_ok st1 (MkOpen h 0) bl d d0) as (st2 & E2 & Hw2 & He2);
    [done|by eapply file_holds_dir_eq|done|by apply Ht0|].
  exists d, st2. split; [apply Hf|]. do 3 (split; [done|]). split; [by etrans|].
  rewrite (bind_M_Ok _ _ _ _ _ E1). unfold Directory_new. rewrite (bind_M_Ok _ _ _ _ _ E0).
  rewrite (bind_M_Ok _ _ _ _ _ E2). done.
Qed.

(** * Walking a path *)

(** A tree of directories by header sector: each is a map of names, or a file. *)
Inductive node := NDir (m : gmap (list Z) Z) | NFile.

Definition node_stored st (s : Z) (n : node) : Prop :=
  match n with NDir m => dir_stored st s m | NFile => file_stored st s end.

(** [view] describes the headers of the disk, and every name leads to one of them. *)
Record view_ok st (view : gmap Z node) : Prop := {
  vo_stored : forall s n, view !! s = Some n -> node_stored st s n;
  vo_closed : forall s m k t, view !! s = Some (NDir m) -> m !! k = Some t -> is_Some (view !! t)
}.

Lemma view_ok_eq st st' view : store_eq st st' -> view_ok st view -> view_ok st' view.
Proof.
  intros He [Hs Hc]. constructor; [|done]. intros s n Hn. specialize (Hs s n Hn).
  destruct n; [by eapply dir_stored_eq|by eapply file_stored_eq].
Qed.

Lemma node_sector st s n : node_stored st s n -> 0 <= s < NumSectors.
Proof. destruct n; [intros (? & ? & ? & ? & _)|intros (? & ? & _)]; done. Qed.

(** The abstract walk: -1 when an element is missing or goes through a file; nothing for a
    path without elements. *)
Fixpoint resolve (view : gmap Z node) (m : gmap (list Z) Z) (cur : Z) (cs : list (list Z)) (parent : bool)
    : option Z :=
  match cs with
  | [] => None
  | [c] => Some (if parent then cur else default (-1) (m !! key_of c))
  | c :: cs =>
      match m !! key_of c with
      | None => Some (-1)
      | Some s =>
          match view !! s with
          | Some (NDir m') => resolve view m' s cs parent
          | _ => Some (-1)
          end
      end
  end.

Lemma resolve_cons view m cur c c2 cs parent : resolve view m cur (c :: c2 :: cs) parent =
  match m !! key_of c with
  | None => Some (-1)
  | Some s => match view !! s with Some (NDir m') => resolve view m' s (c2 :: cs) parent | _ => Some (-1) end
  end.
Proof. done. Qed.

Definition last_key (cs : list (list Z)) : list Z := key_of (default [] (last cs)).

Lemma namex_ok fuel st view d path parent nm : store_wf st -> view_ok st view -> dir_ok d ->
  (forall k t, dir_map d !! k = Some t -> is_Some (view !! t)) -> is_cstring path ->
  length nm = 9%nat -> (length path < fuel)%nat ->
  match resolve view (dir_map d) (dsector d) (components path) parent with
  | Some r => exists st' nm', namex fuel d path parent nm st = Ok ((r, nm'), st') /\
      store_wf st' /\ store_eq st st' /\ length nm' = 9%nat /\
      (r <> -1 -> cstr 9 nm' = last_key (components path))
  | None => namex fuel d path parent nm st = Undefined
  end.
Proof.
  revert st d path nm. induction fuel as [|fuel IH]; intros st d path nm Hwf Hv Hd Hcl Hc Hnm Hf; [lia|].
  cbn [namex]. pose proof (skipelem_spec path nm Hc Hnm) as Hsk.
  destruct (components path) as [|c cs]; [by rewrite Hsk|].
  destruct Hsk as (p' & nm' & -> & Hcs & Hemp & Hlen & Hc' & Hkey & Hnm'). cbn [deref]. rewrite bind_lift_Ok.
  pose proof (proj1 Hd) as Hw. destruct p' as [|x p'].
  - assert (cs = []) as -> by (by apply Hemp). cbn [resolve]. destruct parent.
    + exists st, nm'. unfold last_key. cbn [last default from_option]. done.
    + rewrite dirlookup_spec, bind_lift_Ok, Hkey by (done || lia).
      exists st, nm'. unfold last_key. cbn [last default from_option]. done.
  - destruct cs as [|c2 cs]; [by apply proj2 in Hemp; discriminate Hemp|]. rewrite resolve_cons.
    rewrite dirlookup_spec, bind_lift_Ok, Hkey by (done || lia).
    destruct (dir_map d !! key_of c) as [s|] eqn:Em.
    2:{ change (default (-1) None =? -1) with true. cbv iota. exists st, nm'. split_and!; done. }
    destruct (Hcl _ _ Em) as [n Hn]. pose proof (vo_stored _ _ Hv _ _ Hn) as Hst.
    pose proof (node_sector _ _ _ Hst) as Hsr. change (default (-1) (Some s)) with s.
    rewrite (proj2 (Z.eqb_neq s (-1))), Hn by lia. destruct n as [m'|].
    + pose proof Hst as (h & bl & d' & _ & Hb & Hi & Hty & _).
      destruct (header_FetchFrom_ok st s h) as (st1 & E1 & Hw1 & He1); [done..|].
      rewrite (bind_M_Ok _ _ _ _ _ E1). unfold getFileType. rewrite Hty. change (negb (TYPE_DIR =? TYPE_DIR)) with false.
      cbv iota. destruct (fetch_dir_ok st1 s m' (fun nd => namex fuel nd (x :: p') parent nm'))
        as (d2 & st2 & Hd2 & Hs2 & Hm2 & Hw2 & He2 & ->); [done|by eapply dir_stored_eq|].
      assert (store_eq st st2) as He by (by etrans).
      specialize (IH st2 d2 (x :: p') nm' Hw2 (view_ok_eq _ _ _ He Hv) Hd2).
      rewrite Hs2, Hm2, Hcs in IH. specialize (IH (fun k t => vo_closed _ _ Hv s m' k t Hn) Hc' Hnm' ltac:(lia)).
      destruct (resolve view m' s (c2 :: cs) parent) as [r|]; [|done].
      destruct IH as (st3 & nm3 & E3 & Hw3 & He3 & Hl3 & Hk3). exists st3, nm3. split_and!; [done|done|by etrans|done|].
      intros Hr. rewrite (Hk3 Hr). done.
    + pose proof Hst as (h & _ & Hb & Hi & _ & Hty).
      destruct (header_FetchFrom_ok st s h) as (st1 & E1 & Hw1 & He1); [done..|].
      rewrite (bind_M_Ok _ _ _ _ _ E1). unfold getFileType. rewrite (proj2 (Z.eqb_neq (ftype h) TYPE_DIR)) by done.
      cbn [negb]. exists st1, nm'. split_and!; done.
Qed.

(** * Writing a directory *)

Lemma dir_WriteBack_ok st f bl d fuel : store_wf st -> holds st (hdr f) bl -> header_apart (hdr f) bl ->
  204 <= capacity (hdr f) -> dir_ok d ->
  exists st', let h' := with_limit (hdr f) 204 in
    WriteBack (S fuel) d f st = Ok (with_hdr f h', st') /\ store_wf st' /\
    file_holds_dir st' h' bl d /\ store_sector st' (selfSector (hdr f)) = encode h' /\
    same_outside st st' (selfSector (hdr f) :: bl).
Proof.
  intros Hwf Hh Ha Hcap Hok. destruct (dir_ok_table d Hok) as [Hlt Hlb]. pose proof Hok as (_ & Hsz & _ & _).
  unfold WriteBack. pose proof (ho_limit _ _ _ Hh) as Hl0.
  destruct (WriteAt_fits st f bl (int_to_bytes (dsector d)) 4 0 fuel) as (st1 & E1 & Hw1 & Hh1 & _ & Ho1 & Hf1);
    [done|done|done|lia|lia|lia|by rewrite int_to_bytes_length|].
  rewrite (bind_M_Ok _ _ _ _ _ E1). change (0 + 4) with 4 in *. rewrite Hsz. change (10 * entry_size) with 200.
  destruct (WriteAt_fits st1 (with_hdr f (with_limit (hdr f) 4)) bl (table_bytes (table d)) 200 4 fuel)
    as (st2 & E2 & Hw2 & Hh2 & Hs2 & Ho2 & Hf2); [done|done|done|lia|cbn; lia|cbn; lia|lia|].
  rewrite (bind_M_Ok _ _ _ _ _ E2). change (4 + 200) with 204 in *. cbn [with_hdr hdr] in *.
  exists st2. split; [done|]. split; [done|]. split; [|split; [done|by eapply same_outside_trans]].
  split; [done|]. split; [done|]. split; [done|]. change (Z.to_nat 204) with 204%nat in Hf2. rewrite Hf2.
  unfold dir_bytes. f_equal.
  - change (Z.to_nat 4) with 4%nat in *. rewrite Hf1. cbn [take app Z.to_nat]. done.
  - rewrite take_ge; [done|lia].
Qed.

(** * Properties *)

(** C9. Find walks the tree: whatever the tree of directories on disk, the answer is that
    of the abstract walk over the elements of the path (each looked up by its first nine
    characters), -1 when one is missing or not a directory; a path without elements, such
    as the empty string or a lone slash, dereferences NULL.  The search terminates, in at
    most one step per character, and changes no sector. *)
Theorem find_walks_tree st view d path : store_wf st -> view_ok st view -> dir_ok d ->
  (forall k t, dir_map d !! k = Some t -> is_Some (view !! t)) -> is_cstring path ->
  match resolve view (dir_map d) (dsector d) (components path) false with
  | Some r => exists st', Find d path st = Ok (r, st') /\ store_wf st' /\ store_eq st st'
  | None => components path = [] /\ Find d path st = Undefined
  end.
Proof.
  intros Hwf Hv Hd Hcl Hc. unfold Find.
  destruct (new_buffer_ok FileNameMaxLen st) as (nm & E & Hnm). rewrite (bind_M_Ok _ _ _ _ _ E).
  pose proof (namex_ok (path_fuel path) st view d path false nm Hwf Hv Hd Hcl Hc Hnm ltac:(unfold path_fuel; lia)) as H.
  destruct (resolve _ _ _ _ _) as [r|] eqn:Er.
  - destruct H as (st' & nm' & E' & Hw' & He' & _). exists st'. by rewrite (bind_M_Ok _ _ _ _ _ E').
  - split; [|unfold mbind, M_bind; by rewrite H].
    clear - Er. destruct (components path) as [|c [|c2 cs]]; [done|done|]. exfalso. revert c Er.
    generalize (dir_map d), (dsector d). revert c2. induction cs as [|c3 cs IH]; intros c2 m cur c Er;
      rewrite resolve_cons in Er; repeat (case_match; try done). by apply (IH c3 m0 z c2).
Qed.

(** WriteBack then FetchFrom: a directory written to a file of at least 204 bytes of
    capacity is read back by any directory object, and no other file's sector changes. *)
Theorem directory_roundtrip st f bl d d0 : store_wf st -> holds st (hdr f) bl -> header_apart (hdr f) bl ->
  204 <= capacity (hdr f) -> dir_ok d -> tableSize d0 = 10 -> length (table_bytes (table d0)) = 200%nat ->
  exists f' st' st'', WriteBack 1 d f st = Ok (f', st') /\ FetchFrom d0 f' st' = Ok (d, st'') /\
    same_outside st st' (selfSector (hdr f) :: bl).
Proof.
  intros Hwf Hh Ha Hcap Hok Hs0 Ht0.
  destruct (dir_WriteBack_ok st f bl d 0 Hwf Hh Ha Hcap Hok) as (st1 & E1 & Hw1 & Hf1 & _ & Ho).
  destruct (dir_FetchFrom_ok st1 (with_hdr f (with_limit (hdr f) 204)) bl d d0) as (st2 & E2 & _); [done..|].
  eexists _, st1, st2. split; [exact E1|]. split; [exact E2|done].
Qed.
End Disk.

(** * The table as a map, over a sequence of calls *)

Inductive dir_op := DFind (nm : list Z) | DAdd (nm : list Z) (s : Z) | DRemove (nm : list Z).

Definition dir_op_ok (o : dir_op) : Prop :=
  length (match o with DFind nm | DAdd nm _ | DRemove nm => nm end) = 9%nat.

Definition run_dir_op (d : Directory) (o : dir_op) : res (Z * Directory) :=
  match o with
  | DFind nm => r ← dirlookup d nm; Ok (r, d)
  | DAdd nm s => '(b, d) ← AddInCurrentDir d nm s; Ok (Z.b2z b, d)
  | DRemove nm => '(b, d) ← RemoveInCurrentDir d nm; Ok (Z.b2z b, d)
  end.

(** The same calls on a map of at most [cap] names. *)
Definition spec_dir_op (cap : Z) (m : gmap (list Z) Z) (o : dir_op) : Z * gmap (list Z) Z :=
  match o with
  | DFind nm => (default (-1) (m !! cstr 9 nm), m)
  | DAdd nm s =>
      if bool_decide (m !! cstr 9 nm = None /\ Z.of_nat (size m) < cap) then (1, <[cstr 9 nm := s]> m) else (0, m)
  | DRemove nm => (Z.b2z (bool_decide (is_Some (m !! cstr 9 nm))), delete (cstr 9 nm) m)
  end.

Fixpoint run_dir (d : Directory) (os : list dir_op) : res (list Z) :=
  match os with [] => Ok [] | o :: os => '(r, d) ← run_dir_op d o; l ← run_dir d os; Ok (r :: l) end.
Fixpoint spec_dir (cap : Z) (m : gmap (list Z) Z) (os : list dir_op) : list Z :=
  match os with [] => [] | o :: os => let '(r, m) := spec_dir_op cap m o in r :: spec_dir cap m os end.

Lemma run_dir_op_spec d o : dir_wf d -> dir_op_ok o ->
  exists r d', run_dir_op d o = Ok (r, d') /\ dir_wf d' /\ tableSize d' = tableSize d /\
    spec_dir_op (tableSize d) (dir_map d) o = (r, dir_map d').
Proof.
  intros Hw Hok. destruct o as [nm|nm s|nm]; unfold dir_op_ok in Hok; cbn [run_dir_op spec_dir_op].
  - rewrite dirlookup_spec by (done || lia). cbn [mbind res_bind]. eauto 10.
  - destruct (AddInCurrentDir_spec d nm s Hw Hok) as (b & d' & -> & Hw' & _ & Ht & -> & Hm). cbn [mbind res_bind].
    eexists _, d'. split_and!; [done|done|done|]. rewrite Hm. by case_bool_decide.
  - destruct (RemoveInCurrentDir_spec d nm Hw Hok) as (d' & -> & Hw' & _ & Ht & Hm). cbn [mbind res_bind].
    eexists _, d'. split_and!; [done|done|done|]. by rewrite Hm.
Qed.

(** C21. A directory is a finite map from names (cut to nine characters) to header sectors:
    every sequence of lookups, additions and removals in the current directory, from any
    well-formed table, answers as the same calls on the map, an addition being refused
    exactly when the name is there or all entries are used; names stay distinct. *)
Theorem directory_is_finite_map d os : dir_wf d -> Forall dir_op_ok os ->
  run_dir d os = Ok (spec_dir (tableSize d) (dir_map d) os).
Proof.
  intros Hw Hos. revert d Hw. induction Hos as [|o os Ho _ IH]; intros d Hw; [done|]. cbn [run_dir spec_dir].
  destruct (run_dir_op_spec d o Hw Ho) as (r & d' & -> & Hw' & Ht & ->). cbn [mbind res_bind].
  rewrite IH, Ht by done. done.
Qed.

(** skipelem takes the first element off a path: the rest has the remaining elements
    and no leading slash (so it is empty exactly when the element was the last), the
    buffer holds the first nine characters of the element, and NULL is returned exactly
    when the path has no element. *)
Theorem skipelem_first_element path nm : is_cstring path -> length nm = 9%nat ->
  match components path with
  | [] => skipelem path nm = (None, nm)
  | c :: cs => exists p' nm', skipelem path nm = (Some p', nm') /\ components p' = cs /\
      (p' = [] <-> cs = []) /\ is_cstring p' /\ cstr 9 nm' = key_of c /\ length nm' = 9%nat
  end.
Proof.
  intros Hc Hnm. pose proof (skipelem_spec path nm Hc Hnm) as H. destruct (components path); [done|].
  naive_solver.
Qed.

(** ** Concrete inputs *)

#[local] Existing Instance SynchDisk.sample_instance.
#[local] Existing Instance OpenFile.sample_heap.

(** The root directory (header in sector 1) names the directory "a" (header in 10), which
    names the file "b" (header in 12). *)
Definition sample_entry (c s : Z) : DirectoryEntry := MkDirEntry 1 [0; 0; 0] s (c :: replicate 9 0) [0; 0].
Definition blank_entry : DirectoryEntry := MkDirEntry 0 [0; 0; 0] 0 (replicate 10 0) [0; 0].
Definition sample_dir (self c s : Z) : Directory := MkDir 10 (sample_entry c s :: replicate 9 blank_entry) self.
Definition dir_header (self b : Z) : FileHeader :=
  MkHeader 204 256 2 self TYPE_DIR 0 0 (b :: b + 1 :: replicate 23 0).
Definition dir_sectors (d : Directory) : list Z * list Z :=
  (take 128 (dir_bytes d), drop 128 (dir_bytes d) ++ replicate 52 0).
Definition tree_content : gmap Z (list Z) :=
  {[ 1 := encode (dir_header 1 4); 4 := fst (dir_sectors (sample_dir 1 97 10)); 5 := snd (dir_sectors (sample_dir 1 97 10));
     10 := encode (dir_header 10 14); 14 := fst (dir_sectors (sample_dir 10 98 12)); 15 := snd (dir_sectors (sample_dir 10 98 12));
     12 := encode (MkHeader 0 0 0 12 TYPE_FILE 0 0 (replicate 25 0)) ]}.
Definition tree_store : SynchDisk.SynchDisk := SynchDisk.sample_disk tree_content.
Definition tree_view : gmap Z node :=
  {[ 1 := NDir {[ [97] := 10 ]}; 10 := NDir {[ [98] := 12 ]}; 12 := NFile ]}.

Lemma tree_wf : store_wf tree_store.
Proof.
  apply SynchDisk.sample_disk_wf. apply (map_Forall_to_list (fun _ bs => Z.of_nat (length bs) = Disk.SectorSize)).
  by_compute.
Qed.

Lemma dir_header_holds (st : SynchDisk.SynchDisk) self b : 0 < b -> b + 1 < NumSectors -> holds st (dir_header self b) [b; b + 1].
Proof.
  intros Hb Hb'. constructor; cbn [dir_header dataSectors nsectors capacity limit length]; try done; try lia.
  - intros i Hi. destruct i as [|[|i]]; [done|done|].
    transitivity (Some 0); [apply (lookup_replicate_2 23 0 i); lia|reflexivity].
  - repeat (apply Forall_cons; split; [lia|]). constructor.
  - apply NoDup_cons. rewrite list_elem_of_singleton. split; [lia|]. apply NoDup_singleton.
Qed.

Lemma sample_dir_ok self c s : is_i32 self -> is_i32 s -> c <> 0 -> dir_ok (sample_dir self c s).
Proof.
  intros Hself Hs Hc. split; [|split; [done|split; [|done]]].
  - constructor; [done| |].
    + apply Forall_cons. split; [done|]. by apply Forall_replicate.
    + apply NoDup_singleton.
  - apply Forall_cons. split; [done|]. apply Forall_replicate. done.
Qed.

Lemma tree_view_ok : view_ok tree_store tree_view.
Proof.
  constructor.
  - intros s n Hn. unfold tree_view in Hn.
    apply lookup_insert_Some in Hn as [[<- <-]|[_ Hn]].
    { exists (dir_header 1 4), [4; 5], (sample_dir 1 97 10). split; [done|]. split; [reflexivity|].
      split; [by_compute|]. split; [done|]. split; [|split; reflexivity].
      split; [by apply (dir_header_holds _ 1 4)|]. split; [done|]. split; [by apply sample_dir_ok|].
      vm_compute. reflexivity. }
    apply lookup_insert_Some in Hn as [[<- <-]|[_ Hn]].
    { exists (dir_header 10 14), [14; 15], (sample_dir 10 98 12). split; [done|]. split; [reflexivity|].
      split; [by_compute|]. split; [done|]. split; [|split; reflexivity].
      split; [by apply (dir_header_holds _ 10 14)|]. split; [done|]. split; [by apply sample_dir_ok|].
      vm_compute. reflexivity. }
    apply lookup_singleton_Some in Hn as [<- <-].
    exists (MkHeader 0 0 0 12 TYPE_FILE 0 0 (replicate 25 0)). split; [done|]. split; [reflexivity|].
    split; [by_compute|]. done.
  - intros s m k t Hn Hk. unfold tree_view in Hn.
    apply lookup_insert_Some in Hn as [[<- [= <-]]|[_ Hn]].
    { apply lookup_singleton_Some in Hk as [_ <-]. by eexists. }
    apply lookup_insert_Some in Hn as [[<- [= <-]]|[_ Hn]].
    { apply lookup_singleton_Some in Hk as [_ <-]. by eexists. }
    by apply lookup_singleton_Some in Hn as [_ Hn].
Qed.

Example find_walks_tree_witness : exists st', Find (sample_dir 1 97 10) [47; 97; 47; 98] tree_store = Ok (12, st').
Proof.
  pose proof (find_walks_tree tree_store tree_view (sample_dir 1 97 10) [47; 97; 47; 98] tree_wf tree_view_ok) as H.
  replace (resolve tree_view (dir_map (sample_dir 1 97 10)) (dsector (sample_dir 1 97 10)) (components [47; 97; 47; 98]) false)
    with (Some 12) in H by (vm_compute; reflexivity).
  destruct H as (st' & E & _).
  - by apply sample_dir_ok.
  - intros k t Hk. apply (vo_closed _ _ tree_view_ok 1 {[ [97] := 10 ]} k t); [reflexivity|exact Hk].
  - by_compute.
  - exists st'. exact E.
Defined.

Example directory_roundtrip_witness : exists f' st' st'',
  WriteBack 1 (sample_dir 1 99 33) (MkOpen (dir_header 1 4) 0) tree_store = Ok (f', st') /\
  FetchFrom (sample_dir 1 97 10) f' st' = Ok (sample_dir 1 99 33, st'').
Proof.
  destruct (directory_roundtrip tree_store (MkOpen (dir_header 1 4) 0) [4; 5] (sample_dir 1 99 33) (sample_dir 1 97 10))
    as (f' & st' & st'' & E & E' & _).
  - exact tree_wf.
  - by apply (dir_header_holds _ 1 4).
  - split; [done|]. split; [by_compute|]. simpl. lia.
  - simpl. lia.
  - by apply sample_dir_ok.
  - done.
  - reflexivity.
  - exists f', st', st''. split; [exact E|exact E'].
Defined.

Example directory_is_finite_map_witness :
  let a := 97 :: replicate 8 0 in let b := 98 :: replicate 8 0 in
  run_dir (sample_dir 1 97 10) [DFind a; DAdd a 7; DAdd b 8; DRemove a; DFind a; DFind b] = Ok [10; 0; 1; 1; -1; 8].
Proof.
  intros a b. rewrite directory_is_finite_map.
  - vm_compute. reflexivity.
  - by apply sample_dir_ok.
  - repeat constructor.
Defined.

Example skipelem_first_element_witness : exists p' nm',
  skipelem [47; 47; 97; 47; 98] (replicate 9 0) = (Some p', nm') /\ components p' = [[98]] /\ cstr 9 nm' = [97].
Proof.
  pose proof (skipelem_first_element [47; 47; 97; 47; 98] (replicate 9 0)) as H.
  change (components [47; 47; 97; 47; 98]) with [[97]; [98]] in H.
  destruct H as (p' & nm' & E & Hc & _ & _ & Hk & _).
  - by_compute.
  - reflexivity.
  - exists p', nm'. split; [exact E|]. split; [exact Hc|exact Hk].
Defined.
End Directory.
