(* ===== verification/FileSys.v ===== *)
(** FileSys: the FileSystem object of src/code/filesys/filesys.h and filesys.cc.

    The object keeps the free map's file and the root directory's file open; their headers
    are in sectors 0 and 1, and the pipe's in sector 2.  Each operation is the sequence of
    calls of the source on a sector store; [fuel] is the depth of recursion of WriteAt
    through the free map's file (2 is enough, see OpenFile.v). *)

From S2P Require Import Prelude Bitmap Disk SectorStore SynchDisk FileHdr OpenFile Directory.
From stdpp Require Import base numbers list gmap.
#[local] Open Scope Z_scope.

Module FileSys.
Import Disk FileHdr OpenFile Directory.

Definition DirectorySector : Z := 1.
Definition PipeSector : Z := 2.
Definition FreeMapFileSize : Z := NumSectors /c Bitmap.BitsInByte.
Definition DirectoryFileSize : Z := entry_size * NumDirEntries.
Definition PipeFileSize : Z := 1024.

Record FileSystem := MkFS { freeMapFile : OpenFile; directoryFile : OpenFile }.

Section Ops.
Context {St : Type} {SS : SectorStore St} {HP : Heap St}.

(** [new FileHeader(sector, type)]: stamped with the time; [modifyTime] is left as it is. *)
Definition new_header (sector type : Z) : M St FileHeader :=
  junk ← new_buffer 4;
  st ← get_state;
  mret (FileHeader_new sector type (i32 (store_ticks st)) (default 0 (head (bytes_to_ints junk)))).

(** [FileSystem(format)]; the printing under the debug flag is left out. *)
Definition FileSystem_new (fuel : nat) (format : bool) : M St FileSystem :=
  if format then
    freeMap ← lift (PBitmap_new NumSectors);
    directory ← Directory_at DirectorySector NumDirEntries;
    mapHdr ← new_header FreeMapSector TYPE_FILE;
    dirHdr ← new_header DirectorySector TYPE_DIR;
    pipeHdr ← new_header PipeSector TYPE_PIPE;
    freeMap ← lift (Bitmap.Mark freeMap FreeMapSector);
    freeMap ← lift (Bitmap.Mark freeMap DirectorySector);
    freeMap ← lift (Bitmap.Mark freeMap PipeSector);
    '(ok, mapHdr, freeMap) ← Allocate mapHdr freeMap FreeMapFileSize; _ ← lift (ASSERT ok);
    '(ok, dirHdr, freeMap) ← Allocate dirHdr freeMap DirectoryFileSize; _ ← lift (ASSERT ok);
    '(ok, pipeHdr, freeMap) ← Allocate pipeHdr freeMap PipeFileSize; _ ← lift (ASSERT ok);
    _ ← FileHdr.WriteBack mapHdr FreeMapSector;
    _ ← FileHdr.WriteBack dirHdr DirectorySector;
    _ ← FileHdr.WriteBack pipeHdr PipeSector;
    freeMapFile ← OpenFile_new FreeMapSector;
    directoryFile ← OpenFile_new DirectorySector;
    freeMapFile ← PBitmap_WriteBack fuel freeMap freeMapFile;
    directoryFile ← Directory.WriteBack fuel directory directoryFile;
    mret (MkFS freeMapFile directoryFile)
  else
    freeMapFile ← OpenFile_new FreeMapSector;
    directoryFile ← OpenFile_new DirectorySector;
    mret (MkFS freeMapFile directoryFile).

(** [directory = new Directory(NumDirEntries); directory->FetchFrom(directoryFile)] *)
Definition root_directory (fs : FileSystem) : M St Directory :=
  directory ← Directory_sized NumDirEntries;
  Directory.FetchFrom directory (directoryFile fs).

(** A [bool] that is read without having been set. *)
Definition uninit_bool : M St bool :=
  b ← new_buffer 1; mret (negb (default 0 (head b) =? 0)).

(** The part of Create once the name is in the directory: the header, and the entries of a
    new directory.  For another type nothing is written and [success] keeps what was in
    its memory. *)
Definition create_header (fuel : nat) (sector type : Z) (freeMap : Bitmap.Bitmap) (success : bool)
    : M St (bool * Bitmap.Bitmap) :=
  hdr ← new_header sector type;
  if type =? TYPE_DIR then
    '(success, hdr, freeMap) ← Allocate hdr freeMap DirectoryFileSize;
    _ ← FileHdr.WriteBack hdr sector;
    newdir ← Directory_at sector NumDirEntries;
    newfile ← OpenFile_new sector;
    _ ← Directory.WriteBack fuel newdir newfile;
    mret (success, freeMap)
  else if type =? TYPE_FILE then
    _ ← FileHdr.WriteBack hdr sector;
    mret (true, freeMap)
  else mret (success, freeMap).

Definition Create (fuel : nat) (fs : FileSystem) (name : list Z) (type : Z) : M St (bool * FileSystem) :=
  success ← uninit_bool;
  directory ← root_directory fs;
  found ← Find directory name;
  if negb (found =? -1) then mret (false, fs)
  else
    freeMap ← PBitmap_open (freeMapFile fs) NumSectors;
    '(sector, freeMap) ← lift (Bitmap.FindAndSet freeMap);
    if sector =? -1 then mret (false, fs)
    else
      added ← Directory.Add fuel directory name sector;
      if negb added then mret (false, fs)
      else
        '(success, freeMap) ← create_header fuel sector type freeMap success;
        mapFile ← PBitmap_WriteBack fuel freeMap (freeMapFile fs);
        mret (success, MkFS mapFile (directoryFile fs)).

(** [Open]: the file, or NULL. *)
Definition Open (fs : FileSystem) (name : list Z) : M St (option OpenFile) :=
  directory ← root_directory fs;
  sector ← Find directory name;
  if 0 <=? sector then f ← OpenFile_new sector; mret (Some f) else mret None.

Definition Remove (fuel : nat) (fs : FileSystem) (name : list Z) : M St (bool * FileSystem) :=
  directory ← root_directory fs;
  sector ← Find directory name;
  if sector =? -1 then mret (false, fs)
  else
    fileHdr ← FileHdr.FetchFrom sector;
    freeMap ← PBitmap_open (freeMapFile fs) NumSectors;
    '(_, freeMap) ← Deallocate fileHdr freeMap;
    freeMap ← lift (Bitmap.Clear freeMap sector);
    _ ← Directory.Remove fuel directory name;
    mapFile ← PBitmap_WriteBack fuel freeMap (freeMapFile fs);
    mret (true, MkFS mapFile (directoryFile fs)).

Definition ReadPipe : M St (Z * list Z) :=
  pipehdr ← FileHdr.FetchFrom PipeSector;
  pipefile ← OpenFile_new PipeSector;
  ReadAt pipefile (FileLimit pipehdr) 0.

Definition WritePipe (fuel : nat) (data : list Z) (length : Z) : M St unit :=
  pipefile ← OpenFile_new PipeSector;
  _ ← WriteAt fuel pipefile data length 0;
  mret tt.
End Ops.


Section Spec.
Context {St : Type} {SS : SectorStore St} {HP : Heap St}.
Implicit Types (st : St) (h : FileHeader) (fm : Bitmap.Bitmap) (bl : list Z).

(** * Formatting *)

(** The free map once the three header sectors are marked. *)
Definition marked_map : Bitmap.Bitmap := Bitmap.MkBitmap 1024 32 (7 :: replicate 31 0).

Lemma marked_map_free : free_map marked_map (range 3 1024).
Proof.
  split; [|split; [done|rewrite elem_of_range; lia]]. split; [|vm_compute; reflexivity].
  constructor; [reflexivity..|]. by_compute.
Qed.

Lemma mark_headers : let map w := Bitmap.MkBitmap 1024 32 (w :: replicate 31 0) in
  PBitmap_new NumSectors = Ok (map 0) /\ Bitmap.Mark (map 0) FreeMapSector = Ok (map 1) /\
  Bitmap.Mark (map 1) DirectorySector = Ok (map 3) /\ Bitmap.Mark (map 3) PipeSector = Ok marked_map.
Proof. split_and!; vm_compute; reflexivity. Qed.

(** A header just constructed. *)
Lemma new_header_ok sector type st : is_i32 sector -> is_i32 type ->
  exists h, new_header sector type st = Ok (h, st) /\ holds st h [] /\ selfSector h = sector /\ ftype h = type /\
    limit h = 0 /\ Forall is_i32 (header_ints h).
Proof.
  intros Hs Ht. eexists. split; [done|]. split_and!; try done.
  - constructor; cbn [FileHeader_new dataSectors nsectors capacity limit length]; try done; try lia; try constructor.
    intros i Hi. by rewrite lookup_replicate_2 by (change (Z.to_nat _) with 25%nat; lia).
  - unfold header_ints, FileHeader_new. cbn [limit capacity nsectors selfSector ftype createTime modifyTime dataSectors app].
    repeat (apply Forall_cons; split; [done || apply i32_range|]).
    apply Forall_cons; split; [|by apply Forall_replicate].
    unfold bytes_to_ints. destruct (bytes_to_words _); [done|]. apply i32_range.
Qed.

(** Allocating for an empty header: direct entries only, no sector touched. *)
Lemma Allocate_empty st h fm cb size N : store_wf st -> holds st h [] -> free_map fm cb -> 0 < size <= 3072 ->
  Forall is_i32 (header_ints h) ->
  divRoundUp size SectorSize = Z.of_nat N -> (N <= length cb)%nat -> (N <= 24)%nat ->
  exists h' fm', Allocate h fm size st = Ok ((true, h', fm'), st) /\ holds st h' (take N cb) /\
    free_map fm' (drop N cb) /\ limit h' = limit h /\ selfSector h' = selfSector h /\ ftype h' = ftype h /\
    indirect h' = 0 /\ capacity h' = Z.of_nat N * 128 /\ Forall is_i32 (header_ints h').
Proof.
  intros Hwf Hh Hfm Hsz Hi32 HN Hcb H24. pose proof Hh as [].
  assert (indirect h = 0) as Hind by (apply ho_none0; simpl; lia).
  assert (can_allocate st h [] fm cb) as Hca.
  { constructor; try done; [by intros x Hx%elem_of_nil|]. rewrite Hind. apply Hfm. }
  assert (capacity h = 0) as Hc0 by (simpl in *; lia).
  destruct (Allocate_direct st h [] fm cb size N) as (h' & fm' & E & _ & Hh' & Hfm' & _ & Hl & Hs & Ht & Hct & Hmt & _);
    [done|lia|unfold is_i32; lia|change MaxFileSize with 7168; lia|done|done|simpl; lia|].
  assert (new_blocks [] cb N = take N cb /\ new_indirect [] N = 0%nat) as [Hnb Hni].
  { unfold new_blocks, new_indirect, direct_part. cbn [length]. rewrite decide_False by lia.
    rewrite Nat.sub_0_r, Nat.min_l by lia. rewrite Nat.sub_diag. by rewrite take_0, app_nil_r. }
  rewrite Hnb, Hni, app_nil_l, Nat.add_0_r in *. exists h', fm'. pose proof Hh' as [].
  assert (indirect h' = 0) as Hi' by (apply ho_none1; rewrite length_take; lia).
  rewrite length_take, Nat.min_l in * by lia.
  split_and!; try done; [lia|]. unfold header_ints in Hi32 |- *.
  apply Forall_app in Hi32 as [Hi32 _]. repeat (apply Forall_cons in Hi32 as [? Hi32]).
  apply Forall_app. split.
  - rewrite Hl, Hs, Ht, Hct, Hmt. repeat (apply Forall_cons; split; [done || (unfold is_i32; lia)|]). constructor.
  - apply Forall_lookup. intros i x Hx. destruct (decide (i = 24%nat)) as [->|].
    + unfold indirect in Hi'. rewrite Hx in Hi'. simpl in Hi'. by subst x.
    + assert (i < 24)%nat by (apply lookup_lt_Some in Hx; lia). rewrite ho_direct1 in Hx by done.
      injection Hx as <-. destruct (take N cb !! i) as [b|] eqn:Eb; [|done].
      pose proof (Forall_lookup_1 _ _ _ _ ho_range1 Eb) as Hb. cbn beta in Hb. apply (sector_is_i32 b). lia.
Qed.

(** A directory object just constructed: ten unused entries. *)
Lemma Directory_at_ok s st : is_i32 s ->
  exists d, Directory_at s NumDirEntries st = Ok (d, st) /\ dir_ok d /\ dsector d = s /\ dir_map d = ∅.
Proof.
  intros Hs. eexists. split; [done|]. cbn [dsector].
  match goal with |- context [table_of_bytes ?n ?b] => pose proof (table_of_bytes_wf n b) as Hw;
    pose proof (table_of_bytes_length n b) as Hl; set (t := table_of_bytes n b) in * end.
  change (Z.to_nat NumDirEntries) with 10%nat in *. rewrite uninit_length in Hw. specialize (Hw ltac:(reflexivity)).
  assert (entries (map (fun e => set_inUse e 0) t) = []) as Hent.
  { clear. induction t as [|e t IH]; [done|]. cbn [map]. by rewrite entries_cons. }
  assert (dir_map (MkDir NumDirEntries (map (fun e => set_inUse e 0) t) s) = ∅) as Hm
    by (unfold dir_map; cbn [table]; by rewrite Hent).
  split_and!; [|done|done].
  split; [constructor; cbn [table tableSize]|split; [done|split; [by apply Forall_map|done]]].
  - by rewrite length_map, Hl.
  - apply Forall_map. eapply Forall_impl; [exact Hw|]. by intros e (_ & ? & _).
  - rewrite Hent. constructor.
Qed.

(** * Formatting *)

(** The pipe's file: header in sector 2. *)
Definition pipe_ready st h bl : Prop :=
  store_sector st PipeSector = encode h /\ Forall is_i32 (header_ints h) /\ holds st h bl /\
  header_apart h bl /\ selfSector h = PipeSector.

(** The root directory's file, as the object keeps it open, holds the names [m]. *)
Definition root_ready st (fs : FileSystem) bl (m : gmap (list Z) Z) : Prop :=
  exists d, file_holds_dir st (hdr (directoryFile fs)) bl d /\ dsector d = DirectorySector /\ dir_map d = m.

(** The object's copy of the root directory's header is the one on disk. *)
Definition root_header_stored st (fs : FileSystem) : Prop :=
  let h := hdr (directoryFile fs) in store_sector st DirectorySector = encode h /\ Forall is_i32 (header_ints h) /\
    ftype h = TYPE_DIR /\ limit h = 204 /\ selfSector h = DirectorySector.

(** Both files of the object are at their start. *)
Definition rewound (fs : FileSystem) : Prop := seekPosition (freeMapFile fs) = 0 /\ seekPosition (directoryFile fs) = 0.

(** A freshly formatted disk: 14 sectors in use, an empty root directory, an empty pipe of
    1024 bytes. *)
Definition formatted st (fs : FileSystem) : Prop :=
  rewound fs /\ (exists fm, map_on_disk st (hdr (freeMapFile fs)) 3 fm (range 14 1024)) /\
  root_ready st fs [4; 5] ∅ /\ root_header_stored st fs /\ dir_stored st DirectorySector ∅ /\
  exists h, pipe_ready st h (range 6 14) /\ limit h = 0 /\ capacity h = 1024 /\ ftype h = TYPE_PIPE.

Lemma holds_any st st' h bl : holds st h bl -> indirect h = 0 -> (length bl <= 24)%nat -> holds st' h bl.
Proof. intros Hh _ Hl. apply (holds_frame st); [done|]. lia. Qed.

(** The three headers are allocated and written to their sectors. *)
Lemma format_headers {A} (k : Bitmap.Bitmap -> M St A) st : store_wf st -> forall mapHdr dirHdr pipeHdr,
  holds st mapHdr [] -> holds st dirHdr [] -> holds st pipeHdr [] ->
  Forall is_i32 (header_ints mapHdr) -> Forall is_i32 (header_ints dirHdr) -> Forall is_i32 (header_ints pipeHdr) ->
  exists h0 h1 h2 fm st', (
    '(ok, mapHdr, freeMap) ← Allocate mapHdr marked_map FreeMapFileSize; _ ← lift (ASSERT ok);
    '(ok, dirHdr, freeMap) ← Allocate dirHdr freeMap DirectoryFileSize; _ ← lift (ASSERT ok);
    '(ok, pipeHdr, freeMap) ← Allocate pipeHdr freeMap PipeFileSize; _ ← lift (ASSERT ok);
    _ ← FileHdr.WriteBack mapHdr FreeMapSector;
    _ ← FileHdr.WriteBack dirHdr DirectorySector;
    _ ← FileHdr.WriteBack pipeHdr PipeSector; k freeMap) st = k fm st' /\ store_wf st' /\
    free_map fm (range 14 1024) /\ holds st' h0 [3] /\ holds st' h1 [4; 5] /\ holds st' h2 (range 6 14) /\
    store_sector st' 0 = encode h0 /\ store_sector st' 1 = encode h1 /\ store_sector st' 2 = encode h2 /\
    (selfSector h0, ftype h0, limit h0, capacity h0) = (selfSector mapHdr, ftype mapHdr, limit mapHdr, 128) /\
    (selfSector h1, ftype h1, limit h1, capacity h1) = (selfSector dirHdr, ftype dirHdr, limit dirHdr, 256) /\
    (selfSector h2, ftype h2, limit h2, capacity h2) = (selfSector pipeHdr, ftype pipeHdr, limit pipeHdr, 1024) /\
    Forall is_i32 (header_ints h0) /\ Forall is_i32 (header_ints h1) /\ Forall is_i32 (header_ints h2).
Proof.
  intros Hwf mapHdr dirHdr pipeHdr Hm Hd Hp Him Hid Hip.
  assert (forall n, (n <= 1021)%nat -> (n <= length (range 3 1024))%nat) as Hlen by (intros; unfold range; rewrite length_seqZ; lia).
  destruct (Allocate_empty st mapHdr marked_map (range 3 1024) FreeMapFileSize 1)
    as (h0 & fm0 & E0 & Hh0 & Hf0 & Hl0 & Hs0 & Ht0 & Hi0 & Hc0 & Hz0);
    [done|done|exact marked_map_free|done|done|done|apply Hlen; lia|lia|].
  rewrite (bind_M_Ok _ _ _ _ _ E0). cbn [ASSERT]. rewrite bind_lift_Ok. clear E0.
  destruct (Allocate_empty st dirHdr fm0 (drop 1 (range 3 1024)) DirectoryFileSize 2)
    as (h1 & fm1 & E1 & Hh1 & Hf1 & Hl1 & Hs1 & Ht1 & Hi1 & Hc1 & Hz1);
    [done|done|done|done|done|done|rewrite length_drop; pose proof (Hlen 3%nat); lia|lia|].
  rewrite (bind_M_Ok _ _ _ _ _ E1). cbn [ASSERT]. rewrite bind_lift_Ok. clear E1.
  destruct (Allocate_empty st pipeHdr fm1 (drop 2 (drop 1 (range 3 1024))) PipeFileSize 8)
    as (h2 & fm2 & E2 & Hh2 & Hf2 & Hl2 & Hs2 & Ht2 & Hi2 & Hc2 & Hz2);
    [done|done|done|done|done|done|rewrite !length_drop; pose proof (Hlen 11%nat); lia|lia|].
  rewrite (bind_M_Ok _ _ _ _ _ E2). cbn [ASSERT]. rewrite bind_lift_Ok. clear E2.
  assert (forall h bl, holds st h bl -> length (encode h) = 128%nat) as Hel
    by (intros h bl []; by apply header_encode_length).
  unfold FileHdr.WriteBack.
  destruct (store_write_ok st 0 (encode h0)) as (st1 & E1 & Hw1 & H1); [done|done|by erewrite Hel|].
  rewrite (bind_M_Ok _ _ _ _ _ E1).
  destruct (store_write_ok st1 1 (encode h1)) as (st2 & E2 & Hw2 & H2); [done|done|by erewrite Hel|].
  rewrite (bind_M_Ok _ _ _ _ _ E2).
  destruct (store_write_ok st2 2 (encode h2)) as (st3 & E3 & Hw3 & H3); [done|done|by erewrite Hel|].
  rewrite (bind_M_Ok _ _ _ _ _ E3). exists h0, h1, h2, fm2, st3.
  split; [done|]. split; [done|].
  replace (take 1 (range 3 1024)) with [3] in Hh0 by (vm_compute; reflexivity).
  replace (take 2 (drop 1 (range 3 1024))) with [4; 5] in Hh1 by (vm_compute; reflexivity).
  replace (take 8 (drop 2 (drop 1 (range 3 1024)))) with (range 6 14) in Hh2 by (vm_compute; reflexivity).
  replace (drop 8 (drop 2 (drop 1 (range 3 1024)))) with (range 14 1024) in Hf2 by (vm_compute; reflexivity).
  split; [exact Hf2|].
  split; [apply (holds_any st); [exact Hh0|exact Hi0|simpl; lia]|].
  split; [apply (holds_any st); [exact Hh1|exact Hi1|simpl; lia]|].
  split; [apply (holds_any st); [exact Hh2|exact Hi2|apply Nat.leb_le; vm_compute; reflexivity]|].
  split. { by rewrite H3, H2, H1. } split. { by rewrite H3, H2. } split. { by rewrite H3. }
  rewrite Hs0, Ht0, Hl0, Hc0, Hs1, Ht1, Hl1, Hc1, Hs2, Ht2, Hl2, Hc2. done.
Qed.

(** The files written through their open headers. *)
Lemma format_files st h0 h1 fm d fuel : store_wf st -> free_map fm (range 14 1024) ->
  holds st h0 [3] -> holds st h1 [4; 5] -> selfSector h0 = 0 -> selfSector h1 = 1 ->
  limit h0 = 0 -> limit h1 = 0 -> capacity h0 = 128 -> capacity h1 = 256 -> dir_ok d ->
  exists st', let f0 := MkOpen (with_limit h0 128) 0 in let f1 := MkOpen (with_limit h1 204) 0 in
    (freeMapFile ← PBitmap_WriteBack (S fuel) fm (MkOpen h0 0);
     directoryFile ← Directory.WriteBack (S fuel) d (MkOpen h1 0);
     mret (MkFS freeMapFile directoryFile)) st = Ok (MkFS f0 f1, st') /\ store_wf st' /\
    store_sector st' 0 = encode (hdr f0) /\ store_sector st' 1 = encode (hdr f1) /\
    store_sector st' 3 = map_bytes fm /\ file_holds_dir st' (hdr f1) [4; 5] d /\
    same_outside st st' [0; 1; 3; 4; 5].
Proof.
  intros Hwf Hfm Hh0 Hh1 Hs0 Hs1 Hl0 Hl1 Hc0 Hc1 Hd.
  destruct (free_map_words _ _ Hfm) as (Hw & _ & _). pose proof (map_bytes_length _ _ Hfm) as Hml.
  unfold PBitmap_WriteBack. rewrite Hw. change (32 * 4) with 128.
  destruct (WriteAt_fits st (MkOpen h0 0) [3] (map_bytes fm) 128 0 fuel) as (st1 & E1 & Hw1 & Hh1' & Hst1 & Ho1 & Hf1);
    cbn [hdr]; [done|done| |lia|lia|lia|lia|].
  { unfold header_apart. rewrite Hs0. split; [done|]. split; [set_solver|simpl; lia]. }
  cbn [hdr] in *. change (0 + 128) with 128 in *. rewrite Hs0 in *.
  rewrite (bind_M_Ok _ _ st st1 (MkOpen (with_limit h0 128) 0)) by (by rewrite (bind_M_Ok _ _ _ _ _ E1)).
  destruct (dir_WriteBack_ok st1 (MkOpen h1 0) [4; 5] d fuel) as (st2 & E2 & Hw2 & Hd2 & Hst2 & Ho2); cbn [hdr]; [done| | |lia|done|].
  { apply (holds_frame st); [done|]. simpl. lia. }
  { unfold header_apart. rewrite Hs1. split; [done|]. split; [set_solver|simpl; lia]. }
  cbn [hdr with_hdr] in *. rewrite Hs1 in *. exists st2. rewrite (bind_M_Ok _ _ _ _ _ E2).
  split; [done|]. split; [done|]. split; [|split; [done|split; [|split; [done|]]]].
  - rewrite Ho2; [done|done|]. by_compute.
  - rewrite Ho2 by (done || by_compute). unfold file_bytes in Hf1. cbn [flat_map] in Hf1. rewrite app_nil_r in Hf1.
    pose proof (store_sector_length st1 3 Hw1 ltac:(done)) as Hsl. change SectorSize with 128 in Hsl.
    rewrite !(take_ge _ (Z.to_nat 128)) in Hf1 by lia. exact Hf1.
  - intros t Ht Hn. rewrite Ho2, Ho1; [done|done| |done|]; set_solver.
Qed.

Lemma format_ok st fuel : store_wf st ->
  exists fs st', FileSystem_new (S fuel) true st = Ok (fs, st') /\ store_wf st' /\ formatted st' fs.
Proof.
  intros Hwf. unfold FileSystem_new. destruct mark_headers as (E0 & E1 & E2 & E3). rewrite E0. clear E0.
  rewrite bind_lift_Ok. destruct (Directory_at_ok DirectorySector st) as (d & Ed & Hd & Hds & Hdm); [done|].
  rewrite (bind_M_Ok _ _ _ _ _ Ed). clear Ed.
  destruct (new_header_ok FreeMapSector TYPE_FILE st) as (h0 & F0 & Hh0 & Hs0 & Ht0 & Hl0 & Hi0); [done|done|].
  rewrite (bind_M_Ok _ _ _ _ _ F0). clear F0.
  destruct (new_header_ok DirectorySector TYPE_DIR st) as (h1 & F1 & Hh1 & Hs1 & Ht1 & Hl1 & Hi1); [done|done|].
  rewrite (bind_M_Ok _ _ _ _ _ F1). clear F1.
  destruct (new_header_ok PipeSector TYPE_PIPE st) as (h2 & F2 & Hh2 & Hs2 & Ht2 & Hl2 & Hi2); [done|done|].
  rewrite (bind_M_Ok _ _ _ _ _ F2). clear F2.
  rewrite E1, bind_lift_Ok, E2, bind_lift_Ok, E3, bind_lift_Ok. clear E1 E2 E3.
  edestruct (format_headers (A := FileSystem)) as (g0 & g1 & g2 & fm & st1 & -> & Hw1 & Hfm & Hg0 & Hg1 & Hg2 & B0 & B1 & B2 &
    P0 & P1 & P2 & J0 & J1 & J2); [exact Hwf|exact Hh0|exact Hh1|exact Hh2|exact Hi0|exact Hi1|exact Hi2|].
  change FreeMapSector with 0 in Hs0. change DirectorySector with 1 in Hs1. change PipeSector with 2 in Hs2.
  injection P0 as Q0 _ L0 C0. injection P1 as Q1 T1 L1 C1. injection P2 as Q2 T2 L2 C2. cbv beta.
  destruct (OpenFile_new_ok st1 0 g0) as (st2 & F0 & Hw2 & He2); [done|done|done|done|].
  rewrite (bind_M_Ok _ _ _ _ _ F0).
  destruct (OpenFile_new_ok st2 1 g1) as (st3 & F1 & Hw3 & He3); [done|done|by rewrite He2|done|].
  rewrite (bind_M_Ok _ _ _ _ _ F1). assert (store_eq st1 st3) as He by (by etrans).
  destruct (format_files st3 g0 g1 fm d fuel) as (st4 & F & Hw4 & D0 & D1 & D3 & Dd & Ho);
    [done|done|by eapply holds_store_eq|by eapply holds_store_eq|congruence..|done|].
  eexists _, st4. split; [exact F|]. split; [done|]. cbn [hdr] in *.
  assert (forall h p, Forall is_i32 (header_ints h) -> is_i32 p -> Forall is_i32 (header_ints (with_limit h p))) as Hwl.
  { intros h p Hi Hp. unfold header_ints in *. cbn [with_limit limit capacity nsectors selfSector ftype createTime modifyTime dataSectors app] in *.
    apply Forall_cons in Hi as [_ Hi]. by constructor. }
  split; [done|]. split; [|split; [|split; [|split]]].
  - exists fm. constructor; cbn [freeMapFile hdr]; try done; [by apply Hwl| |cbn [with_limit selfSector]; congruence|by_compute].
    apply holds_with_limit; [|lia]. by eapply (holds_frame st1); [|simpl; lia].
  - exists d. cbn [directoryFile hdr]. done.
  - split; [done|]. split; [by apply Hwl|]. cbn [directoryFile hdr with_limit ftype limit selfSector]. change DirectorySector with 1. split; [congruence|]. split; [done|congruence].
  - exists (with_limit g1 204), [4; 5], d. split; [done|]. split; [done|]. split; [by apply Hwl|]. split; [|done].
    cbn [with_limit ftype]. congruence.
  - exists g2. split; [|split_and!; congruence]. unfold pipe_ready.
    split. { rewrite Ho; [|done|by_compute]. by rewrite He. }
    split; [done|]. split. { eapply (holds_frame st1); [done|]. change (length (range 6 14)) with 8%nat. lia. }
    assert (selfSector g2 = 2) as Hself by congruence.
    split; [|exact Hself]. unfold header_apart. rewrite Hself. split; [done|]. split; [by_compute|].
    change (length (range 6 14)) with 8%nat. lia.
Qed.

(** * Opening *)

Lemma root_directory_ok st fs bl m : store_wf st -> root_ready st fs bl m ->
  exists d st', root_directory fs st = Ok (d, st') /\ dir_ok d /\ dsector d = DirectorySector /\ dir_map d = m /\
    store_wf st' /\ store_eq st st'.
Proof.
  intros Hwf (d & Hf & Hs & Hm). destruct (Directory_sized_shape NumDirEntries st) as (d0 & E0 & Hs0 & _ & Ht0); [done|].
  destruct (dir_FetchFrom_ok st (directoryFile fs) bl d d0) as (st' & E & Hw & He); [done|done|done|by apply Ht0|].
  exists d, st'. unfold root_directory. rewrite (bind_M_Ok _ _ _ _ _ E0). split; [exact E|].
  split; [apply Hf|done].
Qed.

(** What the walk finds is a header of the view. *)
Lemma resolve_in_view st view m cur cs r : view_ok st view ->
  (forall k t, m !! k = Some t -> is_Some (view !! t)) -> resolve view m cur cs false = Some r ->
  r = -1 \/ is_Some (view !! r).
Proof.
  intros Hv. revert m cur. induction cs as [|c [|c2 cs] IH]; intros m cur Hcl Hr; [done| |].
  - injection Hr as <-. destruct (m !! key_of c) as [s|] eqn:E; [right; by eapply Hcl|by left].
  - rewrite resolve_cons in Hr. destruct (m !! key_of c) as [s|]; [|injection Hr as <-; by left].
    destruct (view !! s) as [[m'|]|] eqn:Es; [|injection Hr as <-; by left..].
    eapply (IH m' s); [|exact Hr]. intros k t Hk. by eapply (vo_closed _ _ Hv s m').
Qed.

Lemma node_header st s n : node_stored st s n ->
  exists h, store_sector st s = encode h /\ Forall is_i32 (header_ints h) /\ 0 <= s < NumSectors.
Proof. destruct n; [intros (h & _ & _ & ? & ? & ? & _)|intros (h & ? & ? & ? & _)]; by exists h. Qed.

(** The same walk, for the members of the class. *)
Lemma Find_ok st view d path : store_wf st -> view_ok st view -> dir_ok d ->
  (forall k t, dir_map d !! k = Some t -> is_Some (view !! t)) -> is_cstring path ->
  match resolve view (dir_map d) (dsector d) (components path) false with
  | Some r => exists st', Find d path st = Ok (r, st') /\ store_wf st' /\ store_eq st st'
  | None => Find d path st = Undefined
  end.
Proof.
  intros Hwf Hv Hd Hcl Hc. unfold Find.
  destruct (new_buffer_ok FileNameMaxLen st) as (nm & E & Hnm). rewrite (bind_M_Ok _ _ _ _ _ E).
  pose proof (namex_ok (path_fuel path) st view d path false nm Hwf Hv Hd Hcl Hc Hnm ltac:(unfold path_fuel; lia)) as H.
  destruct (resolve _ _ _ _ _) as [r|] eqn:Er.
  - destruct H as (st' & nm' & E' & Hw' & He' & _). exists st'. by rewrite (bind_M_Ok _ _ _ _ _ E').
  - unfold mbind, M_bind. by rewrite H.
Qed.

(** * Properties *)

(** C12. Formatting succeeds on any disk, whatever it held: afterwards the free map on disk
    has sectors 0 to 13 in use and the rest free, the root directory is stored and empty
    (and the object's copy of its header agrees), and the pipe has its 1024 bytes. *)
Theorem format_establishes_layout st : store_wf st ->
  exists fs st', FileSystem_new 2 true st = Ok (fs, st') /\ store_wf st' /\ formatted st' fs.
Proof. apply format_ok. Qed.

(** Open finds what the path names: the abstract walk from the root over the tree on
    disk decides, and the file returned carries the header stored in the sector found, at
    position 0; NULL is returned when the walk fails; nothing on disk changes. *)
Theorem open_returns_named_file st fs bl m view path : store_wf st -> root_ready st fs bl m -> view_ok st view ->
  (forall k t, m !! k = Some t -> is_Some (view !! t)) -> is_cstring path ->
  match resolve view m DirectorySector (components path) false with
  | Some r => exists o st', Open fs path st = Ok (o, st') /\ store_wf st' /\ store_eq st st' /\
      if decide (r = -1) then o = None
      else exists h, store_sector st r = encode h /\ o = Some (MkOpen h 0)
  | None => Open fs path st = Undefined
  end.
Proof.
  intros Hwf Hr Hv Hcl Hc. destruct (root_directory_ok st fs bl m Hwf Hr) as (d & st1 & E1 & Hd & Hds & Hdm & Hw1 & He1).
  unfold Open. rewrite (bind_M_Ok _ _ _ _ _ E1).
  pose proof (Find_ok st1 view d path Hw1 (view_ok_eq _ _ _ He1 Hv) Hd) as Hfind.
  rewrite Hdm, Hds in Hfind. specialize (Hfind Hcl Hc).
  pose proof (resolve_in_view st view m DirectorySector (components path)) as Hin.
  destruct (resolve view m DirectorySector (components path) false) as [r|].
  2:{ unfold mbind, M_bind. by rewrite Hfind. }
  destruct Hfind as (st2 & E2 & Hw2 & He2). rewrite (bind_M_Ok _ _ _ _ _ E2).
  assert (store_eq st st2) as He by (by etrans).
  destruct (Hin r Hv Hcl eq_refl) as [->|[n Hn]].
  - exists None, st2. split; [done|]. split; [done|]. split; [done|]. done.
  - destruct (node_header _ _ _ (vo_stored _ _ Hv _ _ Hn)) as (h & Hb & Hi & Hrange).
    destruct (OpenFile_new_ok st2 r h) as (st3 & E3 & Hw3 & He3); [done|done|by rewrite He|done|].
    rewrite (proj2 (Z.leb_le 0 r)) by lia. rewrite (bind_M_Ok _ _ _ _ _ E3).
    exists (Some (MkOpen h 0)), st3. split; [done|]. split; [done|]. split; [by etrans|].
    rewrite decide_False by lia. eauto.
Qed.

(** The pipe: ReadPipe returns exactly what the last WritePipe wrote, as long as it
    fits in the 1024 bytes allocated when the disk was formatted. *)
Theorem pipe_roundtrip st h bl data : store_wf st -> pipe_ready st h bl ->
  0 < Z.of_nat (length data) <= capacity h ->
  exists st' st'', WritePipe 2 data (Z.of_nat (length data)) st = Ok (tt, st') /\
    ReadPipe st' = Ok ((Z.of_nat (length data), data), st'') /\
    (exists h', pipe_ready st' h' bl) /\ same_outside st st' (PipeSector :: bl).
Proof.
  intros Hwf (Hb & Hi & Hh & Ha & Hs) Hlen. pose proof (ho_limit _ _ _ Hh) as Hl. set (n := Z.of_nat (length data)) in *.
  assert (capacity h <= 7168) as Hcap by (destruct Hh; lia).
  destruct (OpenFile_new_ok st PipeSector h) as (st1 & E1 & Hw1 & He1); [done|done|done|done|].
  destruct (WriteAt_fits st1 (MkOpen h 0) bl data n 0 1) as (st2 & E2 & Hw2 & Hh2 & Hb2 & Ho2 & Hf2); cbn [hdr];
    [done|by eapply holds_store_eq|done|lia|lia|lia|lia|].
  cbn [hdr] in *. rewrite Hs in *. change (0 + n) with n in *. set (h' := with_limit h n) in *.
  assert (Forall is_i32 (header_ints h')) as Hi'.
  { unfold header_ints in *. cbn [h' with_limit limit capacity nsectors selfSector ftype createTime modifyTime dataSectors app] in *.
    apply Forall_cons in Hi as [_ Hi]. constructor; [unfold is_i32; lia|done]. }
  assert (header_apart h' bl) as Ha' by exact Ha.
  destruct (header_FetchFrom_ok st2 PipeSector h') as (st3 & E3 & Hw3 & He3); [done..|].
  destruct (OpenFile_new_ok st3 PipeSector h') as (st4 & E4 & Hw4 & He4); [done|done|by rewrite He3|done|].
  assert (store_eq st2 st4) as He by (by etrans).
  pose proof (holds_store_eq _ _ _ _ He Hh2) as Hh4.
  destruct (ReadAt_ok st4 (MkOpen h' 0) bl n 0) as (st5 & E5 & Hw5 & He5); [done|done|lia|].
  exists st2, st5. split; [unfold WritePipe; rewrite (bind_M_Ok _ _ _ _ _ E1); by rewrite (bind_M_Ok _ _ _ _ _ E2)|].
  split; [|split].
  - unfold ReadPipe. rewrite (bind_M_Ok _ _ _ _ _ E3), (bind_M_Ok _ _ _ _ _ E4).
    change (FileLimit h') with n. rewrite E5. do 2 f_equal. unfold read_result.
    change (limit (hdr (MkOpen h' 0))) with n. rewrite (proj2 (Z.leb_gt n 0)) by lia. cbn [orb].
    change (0 <? 0) with false. cbn [orb]. rewrite Z.sub_0_r, Z.min_id. f_equal.
    unfold slice. change (Z.to_nat 0) with 0%nat. rewrite drop_0.
    rewrite (file_bytes_ext st2 st4), Hf2.
    + change (Z.to_nat 0) with 0%nat. rewrite take_0, app_nil_l. apply take_ge. lia.
    + intros b Hbb. apply He. pose proof (holds_block _ _ _ _ Hh2 Hbb). lia.
  - exists h'. split; [done|]. done.
  - intros t Ht Hn. rewrite Ho2 by done. by apply He1.
Qed.
End Spec.

(** ** Concrete inputs *)

#[local] Existing Instance SynchDisk.sample_instance.
#[local] Existing Instance OpenFile.sample_heap.

Example format_establishes_layout_witness :
  exists fs st', FileSystem_new 2 true (SynchDisk.sample_disk ∅) = Ok (fs, st') /\ formatted st' fs.
Proof.
  destruct (format_establishes_layout (SynchDisk.sample_disk ∅)) as (fs & st' & E & _ & Hf).
  - apply SynchDisk.sample_disk_wf. intros t bs H. rewrite lookup_empty in H. discriminate H.
  - exists fs, st'. split; [exact E|exact Hf].
Defined.

Definition tree_fs : FileSystem := MkFS (MkOpen sample_map_header 0) (MkOpen (dir_header 1 4) 0).

Example open_returns_named_file_witness : exists f st',
  Open tree_fs [47; 97; 47; 98] tree_store = Ok (Some f, st') /\ store_sector tree_store 12 = encode (hdr f).
Proof.
  pose proof (open_returns_named_file tree_store tree_fs [4; 5] {[ [97] := 10 ]} tree_view [47; 97; 47; 98] tree_wf) as H.
  replace (resolve tree_view {[ [97] := 10 ]} DirectorySector (components [47; 97; 47; 98]) false)
    with (Some 12) in H by (vm_compute; reflexivity).
  destruct H as (o & st' & E & _ & _ & H).
  - exists (sample_dir 1 97 10). split; [|split; [reflexivity|vm_compute; reflexivity]].
    split; [by apply (dir_header_holds _ 1 4)|]. split; [done|]. split; [by apply sample_dir_ok|].
    vm_compute. reflexivity.
  - exact tree_view_ok.
  - intros k t Hk. apply (vo_closed _ _ tree_view_ok 1 {[ [97] := 10 ]} k t); [reflexivity|exact Hk].
  - by_compute.
  - destruct H as (h & Hb & ->). exists (MkOpen h 0), st'. split; [exact E|exact Hb].
Defined.

Definition pipe_header : FileHeader := MkHeader 0 128 1 PipeSector TYPE_PIPE 0 0 (6 :: replicate 24 0).
Definition pipe_store : SynchDisk.SynchDisk := SynchDisk.sample_disk {[ PipeSector := encode pipe_header ]}.

Example pipe_roundtrip_witness : exists st' st'',
  WritePipe 2 [72; 105] 2 pipe_store = Ok (tt, st') /\ ReadPipe st' = Ok ((2, [72; 105]), st'').
Proof.
  destruct (pipe_roundtrip pipe_store pipe_header [6] [72; 105]) as (st' & st'' & E & E' & _).
  - apply SynchDisk.sample_disk_wf. intros t bs [<- <-]%lookup_singleton_Some. reflexivity.
  - split; [reflexivity|]. split; [by_compute|]. split; [by apply (holds_one _ 0 2 2 0 0 6)|].
    split; [|reflexivity]. split; [done|]. split; [by_compute|]. simpl. lia.
  - simpl. lia.
  - exists st', st''. split; [exact E|exact E'].
Defined.

End FileSys.
