(* ===== verification/FileTree.v ===== *)
(** FileTree: the file system as a tree of named files.

    FileSys.v has the operations of FileSystem and OpenFile on sectors.  Here is what they
    promise: an abstract state is the nodes of the disk (directories with their names, files
    with their bytes, each with the sectors that it owns) and the sectors that are free, in
    ascending order.  The theorem at the end: every sequence of Create, Remove, reads and
    writes by path on a freshly formatted disk answers as on the tree. *)

From S2P Require Import Prelude Bitmap Disk SectorStore SynchDisk FileHdr OpenFile Directory FileSys.
From stdpp Require Import base numbers list gmap.
#[local] Open Scope Z_scope.

Module FileTree.
Import Disk FileHdr OpenFile Directory FileSys.

(** * The abstract file system *)

Inductive content := CDir (m : gmap (list Z) Z) | CFile (bytes : list Z).

(** A node: the number of its data sectors, the sectors it owns besides its header's. *)
Record anode := MkNode { a_blocks : nat; a_owned : list Z; a_content : content }.
Record fstree := MkTree { nodes : gmap Z anode; free : list Z }.

Definition kind (a : anode) : node := match a_content a with CDir m => NDir m | CFile _ => NFile end.
Definition view (T : fstree) : gmap Z node := kind <$> nodes T.
Definition names_of (a : anode) : gmap (list Z) Z := match a_content a with CDir m => m | CFile _ => ∅ end.
Definition root_names (T : fstree) : gmap (list Z) Z := default ∅ (names_of <$> nodes T !! DirectorySector).

(** Where a path leads, and where its last element is or would be named: -1 for nowhere,
    nothing for a path without elements. *)
Definition walk (T : fstree) (path : list Z) (parent : bool) : option Z :=
  resolve (view T) (root_names T) DirectorySector (components path) parent.
Definition path_key (path : list Z) : list Z := last_key (components path).

(** Node [p] with other names. *)
Definition with_names (a : anode) (m : gmap (list Z) Z) : anode := MkNode (a_blocks a) (a_owned a) (CDir m).

(** The requests of a user of the file system; [RMount] starts Nachos again on the disk. *)
Inductive request :=
| RCreate (path : list Z) (type : Z)
| RRemove (path : list Z)
| RWrite (path data : list Z) (numBytes position : Z)
| RRead (path : list Z) (numBytes position : Z)
| RMount.
Inductive reply := Done (b : bool) | Wrote (n : Z) | Bytes (n : Z) (bs : list Z) | NoFile.

(** What each does to the tree.  [None] is where nothing is promised: a type that Create does
    not know, a new directory when fewer than three sectors are free, reading and writing
    the file of a directory, and removing a file whose indirect table is partly filled. *)
Definition spec_create (T : fstree) (path : list Z) (type : Z) : option (res (reply * fstree)) :=
  match walk T path false with
  | None => Some Undefined
  | Some r =>
      if negb (r =? -1) then Some (Ok (Done false, T))
      else match free T with
      | [] => Some (Ok (Done false, T))
      | s :: cb =>
          match walk T path true ≫= (nodes T !!.) with
          | Some a =>
              if Z.of_nat (size (names_of a)) <? NumDirEntries then
                let p := default 0 (walk T path true) in
                let ns := <[p := with_names a (<[path_key path := s]> (names_of a))]> (nodes T) in
                if type =? TYPE_FILE then Some (Ok (Done true, MkTree (<[s := MkNode 0 [] (CFile [])]> ns) cb))
                else if type =? TYPE_DIR then
                  match cb with
                  | b1 :: b2 :: cb => Some (Ok (Done true, MkTree (<[s := MkNode 2 [b1; b2] (CDir ∅)]> ns) cb))
                  | _ => None
                  end
                else None
              else Some (Ok (Done false, T))
          | None => Some (Ok (Done false, T))
          end
      end
  end.

Definition spec_remove (T : fstree) (path : list Z) : option (res (reply * fstree)) :=
  match walk T path false with
  | None => Some Undefined
  | Some s =>
      match nodes T !! s, walk T path true ≫= (nodes T !!.) with
      | Some a, Some b =>
          if decide (24 < a_blocks a < 56)%nat then None
          else
            let p := default 0 (walk T path true) in
            Some (Ok (Done true, MkTree (delete s (<[p := with_names b (delete (path_key path) (names_of b))]> (nodes T)))
              (filter (fun x => x ∈ free T \/ x = s \/ x ∈ a_owned a) (range 0 NumSectors))))
      | _, _ => Some (Ok (Done false, T))
      end
  end.

(** The sectors that a write up to [last] adds, and how many of them hold data. *)
Definition data_wanted (blocks : nat) (last : Z) : nat :=
  if decide (last <= Z.of_nat blocks * 128) then 0 else Z.to_nat (divRoundUp (last - Z.of_nat blocks * 128) SectorSize).
Definition indirect_wanted (blocks N : nat) : nat := if decide (blocks <= 24 < blocks + N)%nat then 1 else 0.

Definition spec_write (T : fstree) (path data : list Z) (numBytes position : Z) : option (res (reply * fstree)) :=
  match walk T path false with
  | None => Some Undefined
  | Some s =>
      match nodes T !! s with
      | None => Some (Ok (NoFile, T))
      | Some (MkNode _ _ (CDir _)) => None
      | Some (MkNode blocks owned (CFile bytes)) =>
          if (numBytes <=? 0) || (Z.of_nat (length bytes) <? position) || (position <? 0) then Some (Ok (Wrote 0, T))
          else
            let N := data_wanted blocks (position + numBytes) in
            let all := (N + indirect_wanted blocks N)%nat in
            if decide (position + numBytes <= MaxFileSize /\ (all <= length (free T))%nat) then
              Some (Ok (Wrote numBytes, MkTree
                (<[s := MkNode (blocks + N) (owned ++ take all (free T))
                          (CFile (take (Z.to_nat position) bytes ++ take (Z.to_nat numBytes) data))]> (nodes T))
                (drop all (free T))))
            else Some AssertFail
      end
  end.

Definition spec_read (T : fstree) (path : list Z) (numBytes position : Z) : option (res (reply * fstree)) :=
  match walk T path false with
  | None => Some Undefined
  | Some s =>
      match nodes T !! s with
      | None => Some (Ok (NoFile, T))
      | Some (MkNode _ _ (CDir _)) => None
      | Some (MkNode _ _ (CFile bytes)) =>
          let '(n, bs) := read_result bytes (Z.of_nat (length bytes)) numBytes position in
          Some (Ok (Bytes n bs, T))
      end
  end.

Definition spec_serve (T : fstree) (r : request) : option (res (reply * fstree)) :=
  match r with
  | RCreate path type => spec_create T path type
  | RRemove path => spec_remove T path
  | RWrite path data numBytes position => spec_write T path data numBytes position
  | RRead path numBytes position => spec_read T path numBytes position
  | RMount => Some (Ok (Done true, T))
  end.

(** [k] after a request that has an answer. *)
Definition and_then {A B} (spec : option (res A)) (k : A -> option (res B)) : option (res B) :=
  match spec with
  | None => None
  | Some (Ok a) => k a
  | Some AssertFail => Some AssertFail
  | Some Undefined => Some Undefined
  | Some OutOfFuel => Some OutOfFuel
  | Some Exited => Some Exited
  end.

Fixpoint spec_serve_all (T : fstree) (rs : list request) : option (res (list reply * fstree)) :=
  match rs with
  | [] => Some (Ok ([], T))
  | r :: rs => and_then (spec_serve T r) (fun '(a, T) => and_then (spec_serve_all T rs) (fun '(l, T) => Some (Ok (a :: l, T))))
  end.

(** A path is a C string; a write has its bytes in memory, and no sum of the kernel leaves
    the range of its integers. *)
Definition request_ok (r : request) : Prop :=
  match r with
  | RCreate path _ | RRemove path => is_cstring path
  | RWrite path data numBytes _ => is_cstring path /\ numBytes <= Z.of_nat (length data) /\ is_i32 (8192 + numBytes)
  | RRead path numBytes _ => is_cstring path /\ numBytes <= 8192
  | RMount => True
  end.

(** The tree of a freshly formatted disk: the root directory and the pipe. *)
Definition formatted_tree : fstree :=
  MkTree {[ DirectorySector := MkNode 2 [4; 5] (CDir ∅); PipeSector := MkNode 8 (range 6 14) (CFile []) ]} (range 14 1024).

(** * The same requests on the disk *)

Section Serve.
Context {St : Type} {SS : SectorStore St} {HP : Heap St}.

Definition serve (fs : FileSystem) (r : request) : M St (reply * FileSystem) :=
  match r with
  | RCreate path type => '(b, fs) ← Create 2 fs path type; mret (Done b, fs)
  | RRemove path => '(b, fs) ← Remove 2 fs path; mret (Done b, fs)
  | RWrite path data numBytes position =>
      f ← Open fs path;
      match f with None => mret (NoFile, fs) | Some f => '(n, _) ← WriteAt 2 f data numBytes position; mret (Wrote n, fs) end
  | RRead path numBytes position =>
      f ← Open fs path;
      match f with None => mret (NoFile, fs) | Some f => '(n, bs) ← ReadAt f numBytes position; mret (Bytes n bs, fs) end
  | RMount => fs ← FileSystem_new 2 false; mret (Done true, fs)
  end.

(** Requests one after the other. *)
Fixpoint serve_all (fs : FileSystem) (rs : list request) : M St (list reply * FileSystem) :=
  match rs with
  | [] => mret ([], fs)
  | r :: rs => '(a, fs) ← serve fs r; '(l, fs) ← serve_all fs rs; mret (a :: l, fs)
  end.
End Serve.

(** * Well-formed trees *)

(** Sectors belong to one node each, the free ones, [m0] and 0 to none; every name leads to a
    node, other than the root and the directory itself, and no other name leads to it. *)
Record tree_ok (m0 : Z) (T : fstree) : Prop := {
  to_disj : forall s a s' a' x, nodes T !! s = Some a -> nodes T !! s' = Some a' ->
    x ∈ s :: a_owned a -> x ∈ s' :: a_owned a' -> s = s';
  to_self : forall s a, nodes T !! s = Some a -> s ∉ a_owned a;
  to_used : forall s a x, nodes T !! s = Some a -> x ∈ s :: a_owned a -> x ∉ free T /\ x <> m0 /\ 0 < x < NumSectors;
  to_closed : forall s a k t, nodes T !! s = Some a -> names_of a !! k = Some t ->
    is_Some (nodes T !! t) /\ t <> s /\ t <> DirectorySector;
  to_parent : forall s a k s' a' k' t, nodes T !! s = Some a -> nodes T !! s' = Some a' ->
    names_of a !! k = Some t -> names_of a' !! k' = Some t -> s = s' /\ k = k';
  to_root : exists a m, nodes T !! DirectorySector = Some a /\ a_content a = CDir m
}.

Lemma view_lookup T s n : view T !! s = Some n <-> exists a, nodes T !! s = Some a /\ kind a = n.
Proof. unfold view. rewrite lookup_fmap, fmap_Some. naive_solver. Qed.

Lemma root_view m0 T : tree_ok m0 T -> view T !! DirectorySector = Some (NDir (root_names T)).
Proof.
  intros H. destruct (to_root _ _ H) as (a & m & Ha & Hm). apply view_lookup. exists a. split; [done|].
  unfold kind, root_names, names_of. rewrite Ha. cbn. by rewrite Hm.
Qed.

(** The walk to the last element ends in a directory, where that element is looked up. *)
Lemma resolve_parent v m cur cs r : v !! cur = Some (NDir m) -> resolve v m cur cs false = Some r ->
  exists p, resolve v m cur cs true = Some p /\
    ((p = -1 /\ r = -1) \/ exists mp, v !! p = Some (NDir mp) /\ r = default (-1) (mp !! last_key cs)).
Proof.
  revert m cur. induction cs as [|c [|c2 cs] IH]; intros m cur Hcur Hr; [done| |].
  - exists cur. split; [done|]. right. exists m. split; [done|]. by injection Hr as <-.
  - rewrite resolve_cons in Hr |- *. destruct (m !! key_of c) as [s|]; [|injection Hr as <-; eauto].
    destruct (v !! s) as [[m'|]|] eqn:Hs; [|injection Hr as <-; eauto..]. by apply IH.
Qed.

Lemma walk_parent m0 T path r : tree_ok m0 T -> walk T path false = Some r ->
  exists p, walk T path true = Some p /\
    ((p = -1 /\ r = -1) \/ exists a mp, nodes T !! p = Some a /\ a_content a = CDir mp /\ r = default (-1) (mp !! path_key path)).
Proof.
  intros H Hr. destruct (resolve_parent _ _ _ _ _ (root_view _ _ H) Hr) as (p & Hp & Hc). exists p. split; [done|].
  destruct Hc as [?|(mp & (a & Ha & Hk)%view_lookup & ->)]; [by left|]. right. unfold kind in Hk. exists a, mp.
  destruct (a_content a); simplify_eq. done.
Qed.

Lemma no_node m0 T : tree_ok m0 T -> nodes T !! (-1) = None.
Proof.
  intros H. destruct (nodes T !! (-1)) as [a|] eqn:E; [|done]. destruct (to_used _ _ H (-1) a (-1) E) as (_ & _ & ?); [left|lia].
Qed.

(** What the free sectors have to be. *)
Definition free_ok (m0 : Z) (T : fstree) : Prop :=
  NoDup (free T) /\ forall x, x ∈ free T -> x <> m0 /\ 0 < x < NumSectors.

Lemma free_not_node m0 T s : tree_ok m0 T -> s ∈ free T -> nodes T !! s = None.
Proof.
  intros H Hs. destruct (nodes T !! s) as [a|] eqn:E; [|done]. destruct (to_used _ _ H s a s E) as [Hn _]; [left|done].
Qed.

(** Nodes of a tree where [s] is new, with the sectors [l], and [p] has got its name. *)
Lemma create_lookup T s p n l c a m key t b : nodes T !! p = Some a -> a_content a = CDir m ->
  <[s := MkNode n l c]> (<[p := with_names a (<[key := s]> m)]> (nodes T)) !! t = Some b ->
  (t = s /\ b = MkNode n l c) \/
  (t <> s /\ exists b0, nodes T !! t = Some b0 /\ a_owned b = a_owned b0 /\
    names_of b = if decide (t = p) then <[key := s]> m else names_of b0).
Proof.
  intros Hp Hm Ht. destruct (decide (t = s)) as [->|Hts].
  - rewrite lookup_insert_eq in Ht. left. by injection Ht as <-.
  - right. split; [done|]. rewrite lookup_insert_ne in Ht by done. destruct (decide (t = p)) as [->|].
    + rewrite lookup_insert_eq in Ht. injection Ht as <-. by exists a.
    + rewrite lookup_insert_ne in Ht by done. by exists b.
Qed.

Lemma tree_ok_create m0 T s l cb p n c a m key : tree_ok m0 T -> free_ok m0 T -> free T = s :: l ++ cb ->
  nodes T !! p = Some a -> a_content a = CDir m -> m !! key = None -> names_of (MkNode n l c) = ∅ ->
  tree_ok m0 (MkTree (<[s := MkNode n l c]> (<[p := with_names a (<[key := s]> m)]> (nodes T))) cb).
Proof.
  intros H [Hnd Hfr] Hf Hp Hm Hk Hc. pose proof (free_not_node _ _ s H) as Hs. rewrite Hf in Hnd, Hfr, Hs. specialize (Hs ltac:(left)).
  apply NoDup_cons in Hnd as [Hsl Hnd]. apply NoDup_app in Hnd as (_ & Hlcb & _).
  pose proof (fun t b => create_lookup T s p n l c a m key t b Hp Hm) as HL.
  assert (forall t b x, nodes T !! t = Some b -> x ∈ t :: a_owned b -> x ∉ s :: l ++ cb) as Hold.
  { intros t b x Hb Hx. rewrite <- Hf. by apply (to_used _ _ H t b x). }
  assert (names_of a = m) as Hna by (unfold names_of; by rewrite Hm).
  constructor; cbn [nodes free].
  - intros t1 b1 t2 b2 x H1 H2 Hx1 Hx2. apply HL in H1, H2. destruct H1 as [[-> ->]|(_ & c1 & E1 & Ho1 & _)], H2 as [[-> ->]|(_ & c2 & E2 & Ho2 & _)]; [done| | |].
    + rewrite Ho2 in Hx2. exfalso. apply (Hold _ _ _ E2 Hx2). cbn in Hx1. set_solver.
    + rewrite Ho1 in Hx1. exfalso. apply (Hold _ _ _ E1 Hx1). cbn in Hx2. set_solver.
    + rewrite Ho1 in Hx1. rewrite Ho2 in Hx2. by apply (to_disj _ _ H t1 c1 t2 c2 x).
  - intros t b Hb. apply HL in Hb as [[-> ->]|(_ & c1 & E1 & -> & _)]; [cbn; set_solver|by apply (to_self _ _ H t)].
  - intros t b x Hb Hx. apply HL in Hb as [[-> ->]|(_ & c1 & E1 & Ho & _)].
    + cbn in Hx. split; [|by apply Hfr; set_solver]. intros Hx'. apply elem_of_cons in Hx as [->|Hx]; [set_solver|by apply (Hlcb x)].
    + rewrite Ho in Hx. destruct (to_used _ _ H t c1 x E1 Hx) as (Hn & ?). rewrite Hf in Hn. split; [set_solver|done].
  - intros t b k u Hb Hu. apply HL in Hb as [[-> ->]|(Hts & c1 & E1 & _ & Hnm)]; [by rewrite Hc in Hu|]. rewrite Hnm in Hu.
    assert (is_Some (<[s:=MkNode n l c]> (<[p:=with_names a (<[key:=s]> m)]> (nodes T)) !! s)) as Hss by (rewrite lookup_insert_eq; eauto).
    assert (s <> DirectorySector) as Hsr by (intros ->; destruct (to_root _ _ H) as (? & ? & ? & _); congruence).
    assert (names_of c1 !! k = Some u -> is_Some (<[s:=MkNode n l c]> (<[p:=with_names a (<[key:=s]> m)]> (nodes T)) !! u) /\ u <> t /\ u <> DirectorySector) as Hk1.
    { intros Hk1. destruct (to_closed _ _ H t c1 k u E1 Hk1) as (? & ? & ?). split; [|done]. by rewrite !lookup_insert_is_Some'; auto. }
    case_decide as Htp; [|auto]. subst t. apply lookup_insert_Some in Hu as [[-> <-]|[_ Hu]]; [auto|]. apply Hk1. congruence.
  - intros t1 b1 k1 t2 b2 k2 u H1 H2 Hu1 Hu2.
    assert (forall t b k, nodes T !! t = Some b -> names_of b !! k = Some s -> False) as Hno.
    { intros t b k Hb Hks. destruct (to_closed _ _ H t b k s Hb Hks) as ([? ?] & _). congruence. }
    apply HL in H1 as [[-> ->]|(_ & c1 & E1 & _ & N1)]; [by rewrite Hc in Hu1|]. apply HL in H2 as [[-> ->]|(_ & c2 & E2 & _ & N2)]; [by rewrite Hc in Hu2|].
    assert (forall t c0 k v, nodes T !! t = Some c0 -> (if decide (t = p) then <[key:=s]> m else names_of c0) !! k = Some v ->
      (t = p /\ k = key /\ v = s) \/ (v <> s /\ names_of c0 !! k = Some v)) as Hcase.
    { intros t c0 k v E Hv. case_decide as Htp; [subst t|].
      - apply lookup_insert_Some in Hv as [[<- <-]|[_ Hv]]; [by left|]. right. replace c0 with a by congruence. rewrite Hna. split; [|done]. intros ->. eapply Hno; [exact Hp|by rewrite Hna].
      - right. split; [|done]. intros ->. by eapply Hno. }
    rewrite N1 in Hu1. rewrite N2 in Hu2. apply (Hcase _ _ _ _ E1) in Hu1. apply (Hcase _ _ _ _ E2) in Hu2.
    destruct Hu1 as [(-> & -> & ->)|[Hv1 Hu1]], Hu2 as [(-> & -> & Hv)|[Hv2 Hu2]]; try done. by apply (to_parent _ _ H t1 c1 k1 t2 c2 k2 u).
  - destruct (to_root _ _ H) as (a0 & m1 & Ha0 & Hm1). assert (s <> DirectorySector) by congruence.
    destruct (decide (p = DirectorySector)) as [->|]; [eexists _, _; rewrite lookup_insert_ne, lookup_insert_eq by done; by split|].
    exists a0, m1. by rewrite !lookup_insert_ne by done.
Qed.

Lemma remove_lookup T s p b m key t c : nodes T !! p = Some b -> a_content b = CDir m ->
  delete s (<[p := with_names b (delete key m)]> (nodes T)) !! t = Some c ->
  t <> s /\ exists c0, nodes T !! t = Some c0 /\ a_owned c = a_owned c0 /\ names_of c = if decide (t = p) then delete key m else names_of c0.
Proof.
  intros Hp Hm [Hts Ht]%lookup_delete_Some. split; [done|]. destruct (decide (t = p)) as [->|].
  - rewrite lookup_insert_eq in Ht. injection Ht as <-. by exists b.
  - rewrite lookup_insert_ne in Ht by done. by exists c.
Qed.

(** The sectors that are free once node [s] is gone. *)
Definition freed_list (T : fstree) (s : Z) (a : anode) : list Z :=
  filter (fun x => x ∈ free T \/ x = s \/ x ∈ a_owned a) (range 0 NumSectors).

Lemma elem_of_freed_list m0 T s a x : tree_ok m0 T -> free_ok m0 T -> nodes T !! s = Some a ->
  x ∈ freed_list T s a <-> x ∈ free T \/ x ∈ s :: a_owned a.
Proof.
  intros H [_ Hf] Hs. unfold freed_list. rewrite list_elem_of_filter, elem_of_range, elem_of_cons. split; [tauto|].
  intros Hx. split; [tauto|]. destruct Hx as [Hx|Hx]; [destruct (Hf x Hx); lia|].
  destruct (to_used _ _ H s a x Hs) as (_ & _ & ?); [by apply elem_of_cons|lia].
Qed.

Lemma tree_ok_remove m0 T s a p b m key : tree_ok m0 T -> free_ok m0 T -> nodes T !! s = Some a ->
  nodes T !! p = Some b -> a_content b = CDir m -> m !! key = Some s ->
  let T' := MkTree (delete s (<[p := with_names b (delete key m)]> (nodes T))) (freed_list T s a) in
  tree_ok m0 T' /\ free_ok m0 T'.
Proof.
  intros H Hf Hs Hp Hm Hk. pose proof (fun x => elem_of_freed_list m0 T s a x H Hf Hs) as Hfr.
  assert (names_of b = m) as Hnb by (unfold names_of; by rewrite Hm).
  destruct (to_closed _ _ H p b key s Hp) as (_ & Hsp & Hsr); [by rewrite Hnb|].
  pose proof (fun t c => remove_lookup T s p b m key t c Hp Hm) as HL.
  assert (forall t c0 k u, nodes T !! t = Some c0 -> (if decide (t = p) then delete key m else names_of c0) !! k = Some u -> names_of c0 !! k = Some u /\ u <> s) as Hcase.
  { intros t c0 k u E Hu. assert (names_of c0 !! k = Some u) as Hu'.
    { case_decide as Htp; [|done]. subst t. replace c0 with b by congruence. rewrite Hnb. by apply lookup_delete_Some in Hu as [_ Hu]. }
    split; [done|]. intros ->. destruct (to_parent _ _ H t c0 k p b key s E Hp Hu') as [-> ->]; [by rewrite Hnb|].
    rewrite decide_True in Hu by done. by rewrite lookup_delete_eq in Hu. }
  split.
  - constructor; cbn [nodes free].
    + intros t1 b1 t2 b2 x (_ & c1 & E1 & O1 & _)%HL (_ & c2 & E2 & O2 & _)%HL. rewrite O1, O2. by apply (to_disj _ _ H).
    + intros t c (_ & c0 & E & -> & _)%HL. by apply (to_self _ _ H).
    + intros t c x (Hts & c0 & E & -> & _)%HL Hx. destruct (to_used _ _ H t c0 x E Hx) as (Hn & ?). split; [|done].
      rewrite Hfr. intros [|Hx']; [done|]. apply Hts. by apply (to_disj _ _ H t c0 s a x).
    + intros t c k u (Hts & c0 & E & _ & ->)%HL [Hu Hus]%(Hcase _ _ _ _ E). destruct (to_closed _ _ H t c0 k u E Hu) as (? & ? & ?).
      split; [|done]. rewrite lookup_delete_ne by done. by apply lookup_insert_is_Some'; right.
    + intros t1 b1 k1 t2 b2 k2 u (_ & c1 & E1 & _ & N1)%HL (_ & c2 & E2 & _ & N2)%HL. rewrite N1, N2.
      intros [Hu1 _]%(Hcase _ _ _ _ E1) [Hu2 _]%(Hcase _ _ _ _ E2). by apply (to_parent _ _ H t1 c1 k1 t2 c2 k2 u).
    + destruct (to_root _ _ H) as (a0 & m1 & Ha0 & Hm1). rewrite lookup_delete_ne by done.
      destruct (decide (p = DirectorySector)) as [->|]; [eexists _, _; by rewrite lookup_insert_eq|]. rewrite lookup_insert_ne by done. eauto.
  - split; cbn [free]; [apply NoDup_filter, NoDup_seqZ|]. intros x [Hx|Hx]%Hfr; [by apply Hf|]. by destruct (to_used _ _ H s a x Hs Hx) as (_ & ? & ?).
Qed.

Lemma tree_ok_write m0 T s a n k bs bs' : tree_ok m0 T -> free_ok m0 T -> nodes T !! s = Some a -> a_content a = CFile bs ->
  let T' := MkTree (<[s := MkNode n (a_owned a ++ take k (free T)) (CFile bs')]> (nodes T)) (drop k (free T)) in
  tree_ok m0 T' /\ free_ok m0 T'.
Proof.
  intros H Hf Hs Hc. pose proof Hf as [Hnd Hfr]. rewrite <- (take_drop k (free T)) in Hnd. apply NoDup_app in Hnd as (_ & Hdis & Hnd).
  set (a' := MkNode n (a_owned a ++ take k (free T)) (CFile bs')).
  assert (forall t b, <[s := a']> (nodes T) !! t = Some b -> exists c, nodes T !! t = Some c /\ names_of b = names_of c /\
    forall x, x ∈ t :: a_owned b <-> x ∈ t :: a_owned c \/ (t = s /\ x ∈ take k (free T))) as HL.
  { intros t b [[<- <-]|[Hne Hb]]%lookup_insert_Some; [exists a|exists b]; (split; [done|]).
    - split; [unfold names_of; by rewrite Hc|]. intros x. cbn [a' a_owned]. set_solver.
    - split; [done|]. intros x. split; [tauto|]. intros [|[? _]]; [done|congruence]. }
  assert (forall t c x, nodes T !! t = Some c -> x ∈ t :: a_owned c -> x ∉ take k (free T)) as Hold.
  { intros t c x E Hx Hx'%elem_of_take. by destruct (to_used _ _ H t c x E Hx). }
  assert (forall x, x ∈ take k (free T) -> x <> m0 /\ 0 < x < NumSectors) as Hnew by (intros x Hx%elem_of_take; by apply Hfr).
  split.
  - constructor; cbn [nodes free].
    + intros t1 b1 t2 b2 x (c1 & E1 & _ & O1)%HL (c2 & E2 & _ & O2)%HL. rewrite O1, O2. intros [Hx1|[-> Hx1]] [Hx2|[-> Hx2]]; try done.
      * by apply (to_disj _ _ H t1 c1 t2 c2 x).
      * by destruct (Hold _ _ _ E1 Hx1).
      * by destruct (Hold _ _ _ E2 Hx2).
    + intros t b [[<- <-]|[_ Hb]]%lookup_insert_Some; [|by apply (to_self _ _ H)]. cbn [a' a_owned]. intros [Hx|Hx]%elem_of_app; [by apply (to_self _ _ H _ _ Hs)|].
      apply (Hold s a s Hs); [left|done].
    + intros t b x (c & E & _ & O)%HL. rewrite O. intros [Hx|[-> Hx]].
      * destruct (to_used _ _ H t c x E Hx) as (Hn & ?). split; [|done]. by intros Hx'%elem_of_drop.
      * split; [by apply Hdis|by apply Hnew].
    + intros t b k1 u (c & E & -> & _)%HL Hu. destruct (to_closed _ _ H t c k1 u E Hu) as (? & ?). split; [|done]. by apply lookup_insert_is_Some'; right.
    + intros t1 b1 k1 t2 b2 k2 u (c1 & E1 & -> & _)%HL (c2 & E2 & -> & _)%HL. by apply (to_parent _ _ H).
    + destruct (to_root _ _ H) as (a0 & m1 & Ha0 & Hm1). exists a0, m1. by rewrite lookup_insert_ne by congruence.
  - split; [done|]. cbn [free]. intros x Hx%elem_of_drop. by apply Hfr.
Qed.

Lemma formatted_tree_ok : tree_ok 3 formatted_tree.
Proof.
  assert (forall s a, nodes formatted_tree !! s = Some a -> (s = 1 /\ a = MkNode 2 [4; 5] (CDir ∅)) \/ (s = 2 /\ a = MkNode 8 (range 6 14) (CFile []))) as HL.
  { intros s a Hs. cbn [formatted_tree nodes] in Hs. apply lookup_insert_Some in Hs as [[<- <-]|[_ [<- <-]%lookup_singleton_Some]]; auto. }
  assert (forall s a x, nodes formatted_tree !! s = Some a -> x ∈ s :: a_owned a -> (s = 1 /\ (x = 1 \/ x = 4 \/ x = 5)) \/ (s = 2 /\ (x = 2 \/ 6 <= x < 14))) as HX.
  { intros s a x [[-> ->]|[-> ->]]%HL; cbn [a_owned]; [rewrite !elem_of_cons, elem_of_nil|rewrite elem_of_cons, elem_of_range]; tauto. }
  constructor.
  - intros s a s' a' x Hs Hs' H1%(HX _ _ _ Hs) H2%(HX _ _ _ Hs'). lia.
  - intros s a [[-> ->]|[-> ->]]%HL; cbn [a_owned]; [set_solver|rewrite elem_of_range; lia].
  - intros s a x Hs H1%(HX _ _ _ Hs). cbn [formatted_tree free]. rewrite elem_of_range. change NumSectors with 1024. lia.
  - intros s a k t [[-> ->]|[-> ->]]%HL; unfold names_of; cbn; by rewrite lookup_empty.
  - intros s a k s' a' k' t [[-> ->]|[-> ->]]%HL _; unfold names_of; cbn; by rewrite lookup_empty.
  - eexists _, _. cbn [formatted_tree nodes]. by rewrite lookup_insert_eq.
Qed.

(** * Directories in memory *)

Lemma for_ret_found {S R} ix (body : Z -> S -> res (S + R)) st r : for_ret ix body st = Ok (inr r) -> exists i st', body i st' = Ok (inr r).
Proof.
  revert st. induction ix as [|i ix IH]; intros st E; [done|]. cbn [for_ret] in E.
  destruct (body i st) as [[st'|r']| | | |] eqn:Eb; try done; [by eapply IH|]. injection E as ->. eauto.
Qed.

Lemma aget_member {A} (l : list A) i x : aget l i = Ok x -> x ∈ l.
Proof. intros [_ H]%aget_Ok. by eapply list_elem_of_lookup_2. Qed.

Lemma aset_all {A} (P : A -> Prop) (l l' : list A) i x : aset l i x = Ok l' -> Forall P l -> P x -> Forall P l'.
Proof. unfold aset. case_decide; [|done]. intros [= <-] Hl Hx. by apply Forall_insert. Qed.

(** The parts of an entry that dir_wf leaves open. *)
Definition entry_shape (e : DirectoryEntry) : Prop := length (pad1 e) = 3%nat /\ length (pad2 e) = 2%nat /\ is_i32 (sector e).

Lemma entries_shape d : dir_wf d -> Forall entry_wf (table d) <-> Forall entry_shape (table d).
Proof.
  intros [_ Hn _]. rewrite !Forall_forall. rewrite Forall_forall in Hn. unfold entry_wf, entry_shape. split.
  - intros H e He. destruct (H e He) as (? & ? & ? & ?). done.
  - intros H e He. destruct (H e He) as (? & ? & ?). specialize (Hn e He). done.
Qed.

Lemma AddInCurrentDir_shape d nm s b d' : AddInCurrentDir d nm s = Ok (b, d') -> Forall entry_shape (table d) -> is_i32 s ->
  Forall entry_shape (table d').
Proof.
  unfold AddInCurrentDir. intros E Hd Hs. apply bind_Ok in E as (k & _ & E). destruct (negb (k =? -1)); [by injection E as <- <-|].
  apply bind_Ok in E as ([u|d1] & Ef & E); [by injection E as <- <-|]. injection E as <- <-.
  apply for_ret_found in Ef as (i & [] & E). apply bind_Ok in E as (e & Ee%aget_member & E).
  destruct (negb (used e)); [|done]. apply bind_Ok in E as (nm' & _ & E). apply bind_Ok in E as (t & Et & E). injection E as <-. cbn [table].
  rewrite Forall_forall in Hd. destruct (Hd e Ee) as (? & ? & _). eapply aset_all; [exact Et|by apply Forall_forall|done].
Qed.

Lemma RemoveInCurrentDir_shape d nm b d' : RemoveInCurrentDir d nm = Ok (b, d') -> Forall entry_shape (table d) -> Forall entry_shape (table d').
Proof.
  unfold RemoveInCurrentDir. intros E Hd. apply bind_Ok in E as (k & _ & E). destruct (k =? -1); [by injection E as <- <-|].
  apply bind_Ok in E as (e & Ee%aget_member & E). apply bind_Ok in E as (t & Et & E). injection E as <- <-. cbn [table].
  eapply aset_all; [exact Et|done|]. rewrite Forall_forall in Hd. by destruct (Hd e Ee).
Qed.

(** Both calls on a directory as it is stored. *)
Lemma add_name d nm s : dir_ok d -> length nm = 9%nat -> is_i32 s ->
  let b := bool_decide (dir_map d !! cstr 9 nm = None /\ Z.of_nat (size (dir_map d)) < NumDirEntries) in
  exists d', AddInCurrentDir d nm s = Ok (b, d') /\ dir_ok d' /\ dsector d' = dsector d /\
    dir_map d' = if b then <[cstr 9 nm := s]> (dir_map d) else dir_map d.
Proof.
  intros (Hw & Ht & He & Hi) Hnm Hs. destruct (AddInCurrentDir_spec d nm s Hw Hnm) as (b & d' & E & Hw' & Hd' & Ht' & Hb & Hm).
  rewrite Ht in *. exists d'. change NumDirEntries with 10. rewrite <- Hb. split; [done|]. split; [|done].
  split; [done|]. split; [congruence|]. split; [|by rewrite Hd']. apply entries_shape; [done|]. eapply AddInCurrentDir_shape; [done| |done]. by apply entries_shape.
Qed.

Lemma remove_name d nm : dir_ok d -> length nm = 9%nat ->
  exists d', RemoveInCurrentDir d nm = Ok (bool_decide (is_Some (dir_map d !! cstr 9 nm)), d') /\ dir_ok d' /\ dsector d' = dsector d /\
    dir_map d' = delete (cstr 9 nm) (dir_map d).
Proof.
  intros (Hw & Ht & He & Hi) Hnm. destruct (RemoveInCurrentDir_spec d nm Hw Hnm) as (d' & E & Hw' & Hd' & Ht' & Hm).
  exists d'. split; [done|]. split; [|done]. split; [done|]. split; [congruence|]. split; [|by rewrite Hd'].
  apply entries_shape; [done|]. eapply RemoveInCurrentDir_shape; [done|]. by apply entries_shape.
Qed.

(** * The tree on the disk *)

Section Disk.
Context {St : Type} {SS : SectorStore St} {HP : Heap St}.
Implicit Types (st : St) (h : FileHeader) (T : fstree).

Definition content_ok st s h bl (c : content) : Prop :=
  match c with
  | CDir m => ftype h = TYPE_DIR /\ limit h = 204 /\ exists d, file_holds_dir st h bl d /\ dsector d = s /\ dir_map d = m
  | CFile bytes => ftype h <> TYPE_DIR /\ take (Z.to_nat (limit h)) (file_bytes st bl) = bytes
  end.

(** Node [a] is stored: its header [h] in sector [s], its data in the sectors [bl]. *)
Record inode_ok st s h bl (a : anode) : Prop := {
  io_header : store_sector st s = encode h;
  io_i32 : Forall is_i32 (header_ints h);
  io_holds : holds st h bl;
  io_self : selfSector h = s;
  io_blocks : length bl = a_blocks a;
  io_owned : forall x, x ∈ a_owned a <-> x ∈ bl \/ ((24 < length bl)%nat /\ x = indirect h);
  io_content : content_ok st s h bl (a_content a)
}.

(** The disk and the FileSystem object stand for the tree [T]; [m0] is the sector of the map. *)
Record fs_stored st (fs : FileSystem) T (m0 : Z) : Prop := {
  st_wf : store_wf st;
  st_map : exists fm, map_on_disk st (hdr (freeMapFile fs)) m0 fm (free T);
  st_seek : rewound fs;
  st_tree : tree_ok m0 T;
  st_nodes : forall s a, nodes T !! s = Some a -> exists h bl, inode_ok st s h bl a;
  st_root : exists bl a, nodes T !! DirectorySector = Some a /\ inode_ok st DirectorySector (hdr (directoryFile fs)) bl a
}.

Lemma map_free_ok st mh m0 fm T : map_on_disk st mh m0 fm (free T) -> free_ok m0 T.
Proof.
  intros Hm. pose proof (md_free _ _ _ _ _ Hm) as Hf. split; [by eapply free_map_NoDup|].
  intros x Hx. split; [intros ->; by apply (md_m _ _ _ _ _ Hm)|by eapply free_map_range].
Qed.

Lemma inode_frame st st' s h bl a l : inode_ok st s h bl a -> same_outside st st' l ->
  0 <= s < NumSectors -> (forall x, x ∈ s :: a_owned a -> x ∉ l) -> inode_ok st' s h bl a.
Proof.
  intros [] Ho Hs Hl.
  assert (forall b, b ∈ bl -> store_sector st' b = store_sector st b) as Hbl.
  { intros b Hb. pose proof (holds_block _ _ _ _ io_holds0 Hb). apply Ho; [lia|]. apply Hl. rewrite elem_of_cons, io_owned0. tauto. }
  assert (holds st' h bl) as Hh.
  { apply (holds_frame st); [done|]. intros Hlen. destruct (ho_ind _ _ _ io_holds0 Hlen) as (? & _). apply Ho; [lia|].
    apply Hl. rewrite elem_of_cons, io_owned0. tauto. }
  constructor; try done.
  - rewrite Ho; [done|done|]. apply Hl. left.
  - unfold content_ok in *. destruct (a_content a) as [m|bytes].
    + destruct io_content0 as (Ht & Hlim & d & (_ & Hl204 & Hd & Hb) & Hds & Hm). split; [done|]. split; [done|]. exists d. split; [|done].
      split; [done|]. split; [done|]. split; [done|]. by rewrite (file_bytes_ext st st').
    + destruct io_content0 as [Ht Hb]. split; [done|]. by rewrite (file_bytes_ext st st').
Qed.

Lemma eq_outside st st' : store_eq st st' -> same_outside st st' [].
Proof. intros He t Ht _. by apply He. Qed.

Lemma node_range m0 T s a : tree_ok m0 T -> nodes T !! s = Some a -> 0 < s < NumSectors.
Proof. intros H Hs. destruct (to_used _ _ H s a s Hs) as (_ & _ & ?); [left|done]. Qed.

Lemma stored_eq st st' fs T m0 : fs_stored st fs T m0 -> store_wf st' -> store_eq st st' -> fs_stored st' fs T m0.
Proof.
  intros [] Hw He. pose proof (eq_outside _ _ He) as Ho.
  assert (forall s h bl a, nodes T !! s = Some a -> inode_ok st s h bl a -> inode_ok st' s h bl a) as Hi.
  { intros s h bl a Hs Hi. pose proof (node_range _ _ _ _ st_tree0 Hs). eapply inode_frame; [done|done|lia|]. intros x _. apply not_elem_of_nil. }
  constructor; try done.
  - destruct st_map0 as [fm Hm]. exists fm. pose proof (map_sector_range _ _ _ _ _ Hm). eapply map_on_disk_frame; [done|apply He; lia..].
  - intros s a Hs. destruct (st_nodes0 s a Hs) as (h & bl & ?). exists h, bl. by apply Hi.
  - destruct st_root0 as (bl & a & Ha & ?). exists bl, a. split; [done|]. by apply Hi.
Qed.

Lemma stored_view st fs T m0 : fs_stored st fs T m0 -> view_ok st (view T).
Proof.
  intros []. constructor.
  - intros s n (a & Ha & <-)%view_lookup. destruct (st_nodes0 s a Ha) as (h & bl & []). pose proof (node_range _ _ _ _ st_tree0 Ha) as Hs.
    unfold kind, node_stored. unfold content_ok in io_content0. destruct (a_content a).
    + destruct io_content0 as (? & ? & d & ? & ? & ?). exists h, bl, d. split_and!; [lia|lia|done..].
    + destruct io_content0 as [? ?]. exists h. pose proof (ho_len _ _ _ io_holds0). split_and!; [lia|lia|done..].
  - intros s m k t (a & Ha & Hk)%view_lookup Hm. unfold view. rewrite lookup_fmap, fmap_is_Some. unfold kind in Hk.
    apply (to_closed _ _ st_tree0 s a k t Ha). unfold names_of. by destruct (a_content a); simplify_eq.
Qed.

(** Loading the root directory and walking it. *)
Lemma lookup_ok st fs T m0 path : fs_stored st fs T m0 -> is_cstring path ->
  exists d st1, root_directory fs st = Ok (d, st1) /\ dir_ok d /\ dsector d = DirectorySector /\ dir_map d = root_names T /\
    fs_stored st1 fs T m0 /\ store_eq st st1 /\
    match walk T path false with
    | Some r => exists st2, Find d path st1 = Ok (r, st2) /\ fs_stored st2 fs T m0 /\ store_eq st st2
    | None => Find d path st1 = Undefined
    end.
Proof.
  intros H Hc. pose proof H as []. destruct st_root0 as (bl & a & Ha & []).
  destruct (to_root _ _ st_tree0) as (a' & m & Ha' & Hm). replace a' with a in * by congruence. rewrite Hm in io_content0.
  destruct io_content0 as (_ & _ & d0 & Hd0 & Hds0 & Hdm0).
  destruct (root_directory_ok st fs bl m st_wf0) as (d & st1 & E1 & Hd & Hds & Hdm & Hw1 & He1); [by exists d0|].
  assert (root_names T = m) as Hrn by (unfold root_names; rewrite Ha; cbn; unfold names_of; by rewrite Hm).
  pose proof (stored_eq _ _ _ _ _ H Hw1 He1) as H1. exists d, st1. do 3 (split; [done|]). split; [congruence|]. do 2 (split; [done|]).
  pose proof (Find_ok st1 (view T) d path Hw1 (stored_view _ _ _ _ H1) Hd) as Hf. rewrite Hdm, Hds, <- Hrn in Hf. unfold walk.
  assert (forall k t, root_names T !! k = Some t -> is_Some (view T !! t)) as Hcl.
  { intros k t. apply (vo_closed _ _ (stored_view _ _ _ _ H1) DirectorySector). by eapply root_view. }
  specialize (Hf Hcl Hc). destruct (resolve _ _ _ _ _) as [r|]; [|done]. destruct Hf as (st2 & E2 & Hw2 & He2).
  exists st2. assert (store_eq st st2) by (by etrans). split; [done|]. split; [by eapply stored_eq|done].
Qed.

(** * Changing a directory *)

Lemma inode_apart st s h bl a m0 T : tree_ok m0 T -> nodes T !! s = Some a -> inode_ok st s h bl a -> header_apart h bl.
Proof.
  intros H Hs []. pose proof (node_range _ _ _ _ H Hs). pose proof (to_self _ _ H s a Hs) as Hn. rewrite io_owned0 in Hn.
  unfold header_apart. rewrite io_self0. split; [lia|]. split; [tauto|]. intros Hl ->. tauto.
Qed.

Lemma open_parent_ok st fs T m0 p a m : fs_stored st fs T m0 -> nodes T !! p = Some a -> a_content a = CDir m ->
  exists d h bl st', open_parent p st = Ok ((d, MkOpen h 0), st') /\ dir_ok d /\ dsector d = p /\ dir_map d = m /\
    fs_stored st' fs T m0 /\ store_eq st st' /\ inode_ok st' p h bl a.
Proof.
  intros H Hp Hm. pose proof H as []. pose proof (node_range _ _ _ _ st_tree0 Hp) as Hr. destruct (st_nodes0 p a Hp) as (h & bl & Hi).
  pose proof Hi as []. rewrite Hm in io_content0. destruct io_content0 as (_ & _ & d & Hd & Hds & Hdm).
  destruct (Directory_sized_shape 10 st) as (d0 & E0 & Hs0 & _ & Ht0); [lia|].
  destruct (OpenFile_new_ok st p h) as (st1 & E1 & Hw1 & He1); [done|lia|done|done|].
  destruct (dir_FetchFrom_ok st1 (MkOpen h 0) bl d d0) as (st2 & E2 & Hw2 & He2); [done|by eapply file_holds_dir_eq|done|by apply Ht0|].
  assert (store_eq st st2) as He by (by etrans). exists d, h, bl, st2. split.
  - unfold open_parent, Directory_new. rewrite (bind_M_Ok _ _ _ _ _ E0), (bind_M_Ok _ _ _ _ _ E1), (bind_M_Ok _ _ _ _ _ E2). done.
  - split; [apply Hd|]. do 2 (split; [done|]). split; [by eapply stored_eq|]. split; [done|].
    eapply inode_frame; [exact Hi|by apply eq_outside|lia|]. intros x _. apply not_elem_of_nil.
Qed.

Lemma write_dir_ok st p h bl a m d fuel : store_wf st -> inode_ok st p h bl a -> header_apart h bl -> a_content a = CDir m ->
  dir_ok d -> dsector d = p ->
  exists st', Directory.WriteBack (S fuel) d (MkOpen h 0) st = Ok (MkOpen h 0, st') /\ store_wf st' /\
    inode_ok st' p h bl (with_names a (dir_map d)) /\ same_outside st st' (p :: bl).
Proof.
  intros Hw [] Ha Hm Hd Hds. rewrite Hm in io_content0. destruct io_content0 as (Hty & Hlim & _).
  pose proof (ho_limit _ _ _ io_holds0) as Hcap.
  destruct (dir_WriteBack_ok st (MkOpen h 0) bl d fuel) as (st' & E & Hw' & Hf & Hs & Ho); [done|done|done|cbn [hdr]; lia|done|].
  assert (with_limit h 204 = h) as Hh by (rewrite <- Hlim; by destruct h). cbn [hdr with_hdr] in *. rewrite Hh, io_self0 in *.
  exists st'. split; [done|]. split; [done|]. split; [|done]. constructor; try done; [apply Hf|]. cbn [with_names a_content]. split; [done|]. split; [done|]. by exists d.
Qed.

(** The root directory in memory. *)
Definition is_root_of (d : Directory) T : Prop := dir_ok d /\ dsector d = DirectorySector /\ dir_map d = root_names T.

Lemma find_parent st fs T m0 d path p : fs_stored st fs T m0 -> is_root_of d T -> is_cstring path -> walk T path true = Some p ->
  exists nm nm' st', new_buffer FileNameMaxLen st = Ok (nm, st) /\ namex (path_fuel path) d path true nm st = Ok ((p, nm'), st') /\
    fs_stored st' fs T m0 /\ store_eq st st' /\ length nm' = 9%nat /\ (p <> -1 -> cstr 9 nm' = path_key path).
Proof.
  intros H (Hd & Hds & Hdm) Hc Hw. destruct (new_buffer_ok FileNameMaxLen st) as (nm & E & Hnm). exists nm.
  pose proof (stored_view _ _ _ _ H) as Hv. pose proof H as [].
  pose proof (namex_ok (path_fuel path) st (view T) d path true nm st_wf0 Hv Hd) as Hx. rewrite Hdm, Hds in Hx.
  unfold walk in Hw. rewrite Hw in Hx. destruct Hx as (st' & nm' & E' & Hw' & He & Hl & Hk); [|done|done|unfold path_fuel; lia|].
  { intros k t. apply (vo_closed _ _ Hv DirectorySector). by eapply root_view. }
  exists nm', st'. split; [done|]. split; [done|]. split; [by eapply stored_eq|done].
Qed.

(** Directory::Add of a path that leads nowhere yet. *)
Lemma Add_ok st fs T m0 d path s p a m fuel : fs_stored st fs T m0 -> is_root_of d T -> is_cstring path -> is_i32 s ->
  walk T path true = Some p -> nodes T !! p = Some a -> a_content a = CDir m -> m !! path_key path = None ->
  if Z.of_nat (size m) <? NumDirEntries then
    exists h bl st', Directory.Add (S fuel) d path s st = Ok (true, st') /\ store_wf st' /\ inode_ok st p h bl a /\
      inode_ok st' p h bl (with_names a (<[path_key path := s]> m)) /\ same_outside st st' (p :: bl)
  else exists st', Directory.Add (S fuel) d path s st = Ok (false, st') /\ fs_stored st' fs T m0 /\ store_eq st st'.
Proof.
  intros H Hd Hc Hs Hw Hp Hm Hk. pose proof (node_range _ _ _ _ (st_tree _ _ _ _ H) Hp) as Hr.
  destruct (find_parent st fs T m0 d path p H Hd Hc Hw) as (nm & nm' & st1 & E0 & E1 & H1 & He1 & Hl & Hnm).
  destruct (open_parent_ok st1 fs T m0 p a m H1 Hp Hm) as (pd & h & bl & st2 & E2 & Hpd & Hps & Hpm & H2 & He2 & Hi2).
  destruct (add_name pd nm' s Hpd Hl Hs) as (pd' & E3 & Hpd' & Hps' & Hpm'). rewrite Hnm, Hpm in E3, Hpm' by lia.
  assert (store_eq st st2) as He by (by etrans). unfold Directory.Add.
  rewrite (bind_M_Ok _ _ _ _ _ E0), (bind_M_Ok _ _ _ _ _ E1). rewrite (proj2 (Z.eqb_neq p (-1))) by lia.
  rewrite (bind_M_Ok _ _ _ _ _ E2), E3. mstep. destruct (Z.ltb_spec (Z.of_nat (size m)) NumDirEntries) as [Hlt|Hge].
  - rewrite bool_decide_true in Hpm' |- * by done.
    destruct (write_dir_ok st2 p h bl a m pd' fuel) as (st3 & E4 & Hw3 & Hi3 & Ho3); [apply H2|done|by eapply inode_apart; [apply H2|..]|done|done|congruence|].
    exists h, bl, st3. rewrite (bind_M_Ok _ _ _ _ _ E4). split; [done|]. split; [done|]. split.
    + eapply inode_frame; [exact Hi2|apply eq_outside; by symmetry|lia|]. intros x _. apply not_elem_of_nil.
    + split; [by rewrite Hpm' in Hi3|]. eapply same_outside_trans; [|exact Ho3]. intros t Ht _. by apply He.
  - rewrite bool_decide_false by lia. exists st2. done.
Qed.

(** Directory::Remove of the name of a node. *)
Lemma Remove_ok st fs T m0 d path s p a m fuel : fs_stored st fs T m0 -> is_root_of d T -> is_cstring path ->
  walk T path true = Some p -> nodes T !! p = Some a -> a_content a = CDir m -> m !! path_key path = Some s ->
  exists h bl st', Directory.Remove (S fuel) d path st = Ok (true, st') /\ store_wf st' /\ inode_ok st p h bl a /\
    inode_ok st' p h bl (with_names a (delete (path_key path) m)) /\ same_outside st st' (p :: bl).
Proof.
  intros H Hd Hc Hw Hp Hm Hk. pose proof (node_range _ _ _ _ (st_tree _ _ _ _ H) Hp) as Hr.
  destruct (find_parent st fs T m0 d path p H Hd Hc Hw) as (nm & nm' & st1 & E0 & E1 & H1 & He1 & Hl & Hnm).
  destruct (open_parent_ok st1 fs T m0 p a m H1 Hp Hm) as (pd & h & bl & st2 & E2 & Hpd & Hps & Hpm & H2 & He2 & Hi2).
  destruct (remove_name pd nm' Hpd Hl) as (pd' & E3 & Hpd' & Hps' & Hpm'). rewrite Hnm, Hpm in E3, Hpm' by lia.
  assert (store_eq st st2) as He by (by etrans). unfold Directory.Remove.
  rewrite (bind_M_Ok _ _ _ _ _ E0), (bind_M_Ok _ _ _ _ _ E1). rewrite (proj2 (Z.eqb_neq p (-1))) by lia.
  rewrite (bind_M_Ok _ _ _ _ _ E2), E3, bool_decide_true by (by rewrite Hk). mstep.
  destruct (write_dir_ok st2 p h bl a m pd' fuel) as (st3 & E4 & Hw3 & Hi3 & Ho3); [apply H2|done|by eapply inode_apart; [apply H2|..]|done|done|congruence|].
  exists h, bl, st3. rewrite (bind_M_Ok _ _ _ _ _ E4). split; [done|]. split; [done|]. split.
  - eapply inode_frame; [exact Hi2|apply eq_outside; by symmetry|lia|]. intros x _. apply not_elem_of_nil.
  - split; [by rewrite Hpm' in Hi3|]. eapply same_outside_trans; [|exact Ho3]. intros t Ht _. by apply He.
Qed.

(** * Creating *)

Lemma open_map_ok st fs T m0 : fs_stored st fs T m0 ->
  exists fm st', PBitmap_open (freeMapFile fs) NumSectors st = Ok (fm, st') /\ free_map fm (free T) /\ fs_stored st' fs T m0 /\ store_eq st st'.
Proof.
  intros H. pose proof H as []. destruct st_map0 as [fm Hm]. pose proof Hm as [].
  destruct new_map_shape as (b & Eb & Hb1 & Hb2 & Hb3). unfold PBitmap_new in Eb.
  destruct (PBitmap_FetchFrom_ok st (freeMapFile fs) b fm (free T) m0) as (st' & E & Hw & He); [done..|].
  exists fm, st'. unfold PBitmap_open. rewrite Eb, bind_lift_Ok. split; [done|]. split; [done|]. split; [by eapply stored_eq|done].
Qed.

Lemma inode_frame_free st st' s h bl a l m0 T : tree_ok m0 T -> nodes T !! s = Some a -> inode_ok st s h bl a -> same_outside st st' l ->
  (forall x, x ∈ l -> x ∈ free T \/ x = m0 \/ x = 0) -> inode_ok st' s h bl a.
Proof.
  intros H Hs Hi Ho Hl. pose proof (node_range _ _ _ _ H Hs). eapply inode_frame; [exact Hi|exact Ho|lia|].
  intros x Hx Hx'%Hl. destruct (to_used _ _ H s a x Hs Hx) as (? & ? & ?). destruct Hx' as [?|[?|?]]; [done|done|lia].
Qed.

Lemma inode_same st s h bl a h' bl' a' : inode_ok st s h bl a -> inode_ok st s h' bl' a' -> h = h'.
Proof.
  intros [H1 H2 _ _ _ _ _] [H1' H2' _ _ _ _ _]. assert (decode (encode h) = decode (encode h')) as E by congruence.
  rewrite !decode_encode in E by done. by injection E.
Qed.

(** The sectors of a node do not hold the data of another. *)
Lemma inode_disjoint st m0 T s a h bl t b x : tree_ok m0 T -> nodes T !! s = Some a -> inode_ok st s h bl a -> nodes T !! t = Some b -> t <> s ->
  x ∈ t :: a_owned b -> x ∉ s :: bl.
Proof.
  intros H Hs Hi Ht Hne Hx Hx'. apply Hne. apply (to_disj _ _ H t b s a x Ht Hs Hx). apply elem_of_cons in Hx' as [->|Hx']; [left|right].
  apply (io_owned _ _ _ _ _ Hi). by left.
Qed.

Lemma stored_create st st' fs T m0 s l cb p a m key n c h bl fm : fs_stored st fs T m0 -> free T = s :: l ++ cb ->
  nodes T !! p = Some a -> a_content a = CDir m -> m !! key = None -> names_of (MkNode n l c) = ∅ ->
  store_wf st' -> map_on_disk st' (hdr (freeMapFile fs)) m0 fm cb ->
  inode_ok st p h bl a -> inode_ok st' p h bl (with_names a (<[key := s]> m)) ->
  (exists h' bl', inode_ok st' s h' bl' (MkNode n l c)) ->
  same_outside st st' (p :: bl ++ 0 :: m0 :: s :: l) ->
  fs_stored st' fs (MkTree (<[s := MkNode n l c]> (<[p := with_names a (<[key := s]> m)]> (nodes T))) cb) m0.
Proof.
  intros H Hf Hp Hm Hk Hc Hw Hmap Hi Hi' (h' & bl' & Hs) Ho. pose proof H as []. destruct st_map0 as [fm0 Hm0].
  pose proof (map_free_ok _ _ _ _ _ Hm0) as Hfr.
  pose proof (tree_ok_create m0 T s l cb p n c a m key st_tree0 Hfr Hf Hp Hm Hk Hc) as Ht.
  assert (forall t b h1 bl1, nodes T !! t = Some b -> t <> p -> inode_ok st t h1 bl1 b -> inode_ok st' t h1 bl1 b) as Hother.
  { intros t b h1 bl1 Hb Hne Hib. pose proof (node_range _ _ _ _ st_tree0 Hb). eapply inode_frame; [exact Hib|exact Ho|lia|].
    intros x Hx. pose proof (inode_disjoint st m0 T p a h bl t b x st_tree0 Hp Hi Hb Hne Hx) as Hd.
    destruct (to_used _ _ st_tree0 t b x Hb Hx) as (Hxf & Hxm & Hxr). rewrite Hf in Hxf. set_unfold. intros [->|[?|[->|[->|?]]]]; [tauto|tauto|lia|tauto|tauto]. }
  assert (nodes T !! s = None) as Hsn by (eapply free_not_node; [done|rewrite Hf; left]).
  constructor; try done; cbn [nodes free].
  - by exists fm.
  - intros t b [[<- <-]|[Hts [[<- <-]|[Htp Hb]]%lookup_insert_Some]]%lookup_insert_Some; [by exists h', bl'|by exists h, bl|].
    destruct (st_nodes0 t b Hb) as (h1 & bl1 & Hb1). exists h1, bl1. by apply Hother.
  - destruct st_root0 as (bl1 & a1 & Ha1 & Hr). rewrite lookup_insert_ne by congruence. destruct (decide (p = DirectorySector)) as [->|Hne].
    + rewrite lookup_insert_eq. pose proof (inode_same _ _ _ _ _ _ _ _ Hr Hi) as ->. eauto.
    + rewrite lookup_insert_ne by done. exists bl1, a1. split; [done|]. by apply Hother.
Qed.

Lemma header_write_ok st s h bl : store_wf st -> 0 <= s < NumSectors -> holds st h bl ->
  exists st', FileHdr.WriteBack h s st = Ok (tt, st') /\ store_wf st' /\ store_sector st' s = encode h /\ same_outside st st' [s].
Proof.
  intros Hw Hs Hh. destruct (store_write_ok st s (encode h)) as (st' & E & Hw' & H); [done|done|rewrite header_encode_length by apply Hh; done|].
  exists st'. split; [done|]. split; [done|]. split; [rewrite H by done; by rewrite decide_True|].
  intros t Ht Hn. rewrite H by done. rewrite decide_False; [done|]. set_solver.
Qed.

Lemma create_file_header st s fm b fuel : store_wf st -> 0 < s < NumSectors ->
  exists h st', create_header fuel s TYPE_FILE fm b st = Ok ((true, fm), st') /\ store_wf st' /\
    inode_ok st' s h [] (MkNode 0 [] (CFile [])) /\ same_outside st st' [s].
Proof.
  intros Hw Hs. destruct (new_header_ok s TYPE_FILE st) as (h & E & Hh & Hself & Hty & Hlim & Hi); [by apply sector_is_i32; lia|done|].
  destruct (header_write_ok st s h [] Hw ltac:(lia) Hh) as (st' & E' & Hw' & Hsec & Ho). exists h, st'.
  unfold create_header. rewrite (bind_M_Ok _ _ _ _ _ E). change (TYPE_FILE =? TYPE_DIR) with false. change (TYPE_FILE =? TYPE_FILE) with true. cbv iota.
  rewrite (bind_M_Ok _ _ _ _ _ E'). split; [done|]. split; [done|]. split; [|done]. constructor; try done.
  - apply (holds_frame st); [done|]. cbn. lia.
  - intros x. cbn. split; [intros []%not_elem_of_nil|]. intros [Hx|[? _]]; [done|lia].
  - cbn [a_content content_ok]. split; [by rewrite Hty|]. by destruct (Z.to_nat _).
Qed.

Lemma create_dir_header st s fm b b1 b2 cb fuel : store_wf st -> 0 < s < NumSectors -> free_map fm (b1 :: b2 :: cb) -> s <> b1 -> s <> b2 ->
  exists h fm' st', create_header (S fuel) s TYPE_DIR fm b st = Ok ((true, fm'), st') /\ store_wf st' /\ free_map fm' cb /\
    inode_ok st' s h [b1; b2] (MkNode 2 [b1; b2] (CDir ∅)) /\ same_outside st st' [s; b1; b2].
Proof.
  intros Hw Hs Hfm H1 H2. assert (is_i32 s) as Hsi by (apply sector_is_i32; lia).
  destruct (new_header_ok s TYPE_DIR st) as (h0 & E0 & Hh0 & Hself0 & Hty0 & Hlim0 & Hi0); [done|done|].
  destruct (Allocate_empty st h0 fm (b1 :: b2 :: cb) DirectoryFileSize 2) as (h1 & fm1 & E1 & Hh1 & Hf1 & Hl1 & Hs1 & Ht1 & Hin1 & Hc1 & Hi1);
    [done..|cbn; lia|lia|]. cbn [take drop] in *.
  destruct (header_write_ok st s h1 [b1; b2] Hw ltac:(lia) Hh1) as (st1 & E2 & Hw1 & Hsec1 & Ho1).
  destruct (Directory_at_ok s st1 Hsi) as (d & E3 & Hd & Hds & Hdm).
  destruct (OpenFile_new_ok st1 s h1) as (st2 & E4 & Hw2 & He2); [done|lia|done|done|].
  assert (holds st2 h1 [b1; b2]) as Hh2 by (apply (holds_frame st); [done|cbn; lia]).
  assert (header_apart h1 [b1; b2]) as Ha.
  { unfold header_apart. rewrite Hs1, Hself0. split; [lia|]. split; [set_solver|cbn; lia]. }
  destruct (dir_WriteBack_ok st2 (MkOpen h1 0) [b1; b2] d fuel) as (st3 & E5 & Hw3 & Hfd & Hsec3 & Ho3); [done|done|done|cbn [hdr]; lia|done|].
  assert (selfSector h1 = s) as Hse by congruence. assert (ftype h1 = TYPE_DIR) as Hte by congruence. cbn [hdr with_hdr] in *. rewrite Hse in Hsec3, Ho3. exists (with_limit h1 204), fm1, st3. unfold create_header.
  rewrite (bind_M_Ok _ _ _ _ _ E0). change (TYPE_DIR =? TYPE_DIR) with true. cbv iota.
  rewrite (bind_M_Ok _ _ _ _ _ E1), (bind_M_Ok _ _ _ _ _ E2), (bind_M_Ok _ _ _ _ _ E3), (bind_M_Ok _ _ _ _ _ E4), (bind_M_Ok _ _ _ _ _ E5).
  split; [done|]. split; [done|]. split; [done|]. split.
  - constructor; try done.
    + unfold header_ints in *. cbn [with_limit limit capacity nsectors selfSector ftype createTime modifyTime dataSectors app] in *.
      apply Forall_cons in Hi1 as [_ Hi1]. by apply Forall_cons.
    + apply Hfd.
    + intros x. cbn. split; [tauto|]. intros [Hx|[? _]]; [done|lia].
    + cbn [a_content content_ok with_limit ftype limit]. split; [done|]. split; [done|]. exists d. done.
  - intros t Ht Hn. rewrite Ho3, He2, Ho1; [done|done|set_solver|done|done|done].
Qed.

(** The map goes back to its file after a request. *)
Lemma map_back_ok st fs m0 fm cb fm' cb' fuel : store_wf st -> map_on_disk st (hdr (freeMapFile fs)) m0 fm cb -> rewound fs ->
  free_map fm' cb' -> m0 ∉ cb' ->
  exists st', PBitmap_WriteBack (S fuel) fm' (freeMapFile fs) st = Ok (freeMapFile fs, st') /\ store_wf st' /\
    map_on_disk st' (hdr (freeMapFile fs)) m0 fm' cb' /\ same_outside st st' [0; m0].
Proof.
  intros Hw Hm [Hs _] Hf Hn. destruct (map_write_back st _ m0 fm cb fm' cb' fuel Hw Hm Hf Hn) as (st' & E & Hw' & Hm' & Ho).
  exists st'. unfold PBitmap_WriteBack. destruct (freeMapFile fs) as [mh pos]. cbn in Hs. subst pos. rewrite (bind_M_Ok _ _ _ _ _ E). done.
Qed.

(** The outcome of a request as the tree says it. *)
Definition answers {A} (fs : FileSystem) (m0 : Z) (run : res ((A * FileSystem) * St)) (spec : option (res (A * fstree))) : Prop :=
  match spec with
  | None => True
  | Some (Ok (r, T')) => exists st', run = Ok ((r, fs), st') /\ fs_stored st' fs T' m0
  | Some AssertFail => run = AssertFail
  | Some Undefined => run = Undefined
  | _ => False
  end.

Lemma uninit_bool_ok st : exists b, uninit_bool st = Ok (b, st).
Proof. destruct (new_buffer_ok 1 st) as (bs & E & _). eexists. unfold uninit_bool. by rewrite (bind_M_Ok _ _ _ _ _ E). Qed.

Lemma MkFS_eta fs : MkFS (freeMapFile fs) (directoryFile fs) = fs.
Proof. by destruct fs. Qed.

(** The part of Create that makes the header of [s] and stores the map, once the name is in
    the directory. *)
Lemma create_tail_ok st st1 st2 fs T m0 type p a m key s l cb n c h bl h' bl' fm fm' b : fs_stored st fs T m0 -> free T = s :: l ++ cb ->
  nodes T !! p = Some a -> a_content a = CDir m -> m !! key = None -> names_of (MkNode n l c) = ∅ ->
  inode_ok st p h bl a -> inode_ok st1 p h bl (with_names a (<[key := s]> m)) -> same_outside st st1 (p :: bl) ->
  create_header 2 s type fm b st1 = Ok ((true, fm'), st2) -> store_wf st2 -> free_map fm' cb ->
  inode_ok st2 s h' bl' (MkNode n l c) -> same_outside st1 st2 (s :: l) ->
  exists st', ('(success, freeMap) ← create_header 2 s type fm b;
      mapFile ← PBitmap_WriteBack 2 freeMap (freeMapFile fs);
      mret (success, MkFS mapFile (directoryFile fs))) st1 = Ok ((true, fs), st') /\
    fs_stored st' fs (MkTree (<[s := MkNode n l c]> (<[p := with_names a (<[key := s]> m)]> (nodes T))) cb) m0.
Proof.
  intros H Hf Hp Hm Hk Hcn Hi Hi1 Ho1 E2 Hw2 Hfm' Hi2 Ho2. pose proof H as []. destruct st_map0 as [fm0 Hmap0].
  pose proof (map_free_ok _ _ _ _ _ Hmap0) as [_ Hrange]. rewrite Hf in Hrange. pose proof (map_sector_range _ _ _ _ _ Hmap0) as Hmr.
  pose proof (md_m _ _ _ _ _ Hmap0) as Hm0. rewrite Hf in Hm0, Hmap0. destruct (Hrange s) as [Hsm Hsr]; [left|].
  assert (0 ∉ s :: l ++ cb) as H0 by (intros Hx; destruct (Hrange 0 Hx); lia).
  pose proof (node_range _ _ _ _ st_tree0 Hp) as Hpr.
  assert (forall x, x ∈ p :: bl -> x <> m0 /\ 0 < x) as Hpbl.
  { intros x Hx. destruct (to_used _ _ st_tree0 p a x Hp) as (_ & ? & ?); [|split; [done|lia]].
    revert Hx. rewrite !elem_of_cons, (io_owned _ _ _ _ _ Hi). tauto. }
  assert (map_on_disk st2 (hdr (freeMapFile fs)) m0 fm0 (s :: l ++ cb)) as Hmap2.
  { eapply map_on_disk_frame; [exact Hmap0| |].
    - rewrite Ho2, Ho1; [done|done| |done|set_solver]. intros Hx%Hpbl. lia.
    - rewrite Ho2, Ho1; [done|lia| |lia|set_solver]. intros Hx%Hpbl. tauto. }
  destruct (map_back_ok st2 fs m0 fm0 (s :: l ++ cb) fm' cb 1) as (st3 & E3 & Hw3 & Hmap3 & Ho3); [done..|set_solver|].
  rewrite (bind_M_Ok _ _ _ _ _ E2), (bind_M_Ok _ _ _ _ _ E3), MkFS_eta. exists st3. split; [reflexivity|].
  apply (stored_create st st3 fs T m0 s l cb p a m key n c h bl fm'); try done.
  - eapply (inode_frame st2); [|exact Ho3|lia|].
    + eapply (inode_frame st1); [exact Hi1|exact Ho2|lia|].
      intros x Hx Hx'. destruct (to_used _ _ st_tree0 p a x Hp Hx) as (Hn & _). rewrite Hf in Hn. set_solver.
    + intros x Hx Hx'. destruct (to_used _ _ st_tree0 p a x Hp Hx) as (_ & ? & ?). set_unfold. destruct Hx' as [?|[?|[]]]; [lia|done].
  - exists h', bl'. eapply (inode_frame st2); [exact Hi2|exact Ho3|lia|]. intros x Hx Hx'. cbn [a_owned] in Hx.
    assert (x ∈ s :: l ++ cb) as Hx2 by set_solver. destruct (Hrange x Hx2) as [? ?]. set_unfold. destruct Hx' as [?|[?|[]]]; [lia|done].
  - intros t Ht Hn. rewrite Ho3, Ho2, Ho1; [done|done|set_solver|done|set_solver|done|set_solver].
Qed.

(** Create from Add on, for a path that is free, when a sector is left for the header. *)
Lemma create_rest_ok st fs T m0 d path type s cb p a m fm b : fs_stored st fs T m0 -> is_root_of d T -> is_cstring path ->
  free T = s :: cb -> free_map fm cb -> walk T path true = Some p -> nodes T !! p = Some a -> a_content a = CDir m -> m !! path_key path = None ->
  Z.of_nat (size m) < NumDirEntries -> forall T', spec_create T path type = Some (Ok (Done true, T')) -> walk T path false = Some (-1) ->
  exists st', (added ← Directory.Add 2 d path s;
      if negb added then mret (false, fs)
      else
        '(success, freeMap) ← create_header 2 s type fm b;
        mapFile ← PBitmap_WriteBack 2 freeMap (freeMapFile fs);
        mret (success, MkFS mapFile (directoryFile fs))) st = Ok ((true, fs), st') /\ fs_stored st' fs T' m0.
Proof.
  intros H Hd Hc Hf Hfm Hw Hp Hm Hk Hlt T' HT Hnone. destruct (st_map _ _ _ _ H) as [fm0 Hmap0].
  pose proof (map_free_ok _ _ _ _ _ Hmap0) as [Hnd Hrange]. rewrite Hf in Hnd, Hrange. destruct (Hrange s) as [_ Hsr]; [left|].
  pose proof (Add_ok st fs T m0 d path s p a m 1 H Hd Hc (sector_is_i32 s ltac:(lia)) Hw Hp Hm Hk) as HA.
  rewrite (proj2 (Z.ltb_lt _ _)) in HA by done. destruct HA as (h & bl & st1 & E1 & Hw1 & Hi & Hi1 & Ho1). rewrite (bind_M_Ok _ _ _ _ _ E1). cbn [negb].
  assert (names_of a = m) as Hna by (unfold names_of; by rewrite Hm).
  unfold spec_create in HT. rewrite Hnone, Hf, Hw in HT. cbn [negb Z.eqb mbind option_bind] in HT. rewrite Hp, Hna in HT. change (negb (-1 =? -1)) with false in HT. cbv iota in HT.
  rewrite (proj2 (Z.ltb_lt _ _)) in HT by done. cbn [default from_option] in HT. assert (s ∉ cb) as Hscb by (by apply NoDup_cons in Hnd as [? _]).
  destruct (Z.eqb_spec type TYPE_FILE) as [->|Hnf]; [|destruct (Z.eqb_spec type TYPE_DIR) as [->|]; [|done]].
  - injection HT as <-. destruct (create_file_header st1 s fm b 2 Hw1 Hsr) as (h' & st2 & E2 & Hw2 & Hi2 & Ho2).
    eapply (create_tail_ok st st1 st2 fs T m0 TYPE_FILE p a m (path_key path) s [] cb); done.
  - destruct cb as [|b1 [|b2 cb]]; [done|done|]. injection HT as <-.
    destruct (create_dir_header st1 s fm b b1 b2 cb 1 Hw1 Hsr Hfm) as (h' & fm' & st2 & E2 & Hw2 & Hf2 & Hi2 & Ho2); [set_solver|set_solver|].
    eapply (create_tail_ok st st1 st2 fs T m0 TYPE_DIR p a m (path_key path) s [b1; b2] cb); done.
Qed.

Lemma node_of_walk m0 T path r : tree_ok m0 T -> walk T path false = Some r -> r <> -1 -> exists a, nodes T !! r = Some a.
Proof.
  intros H Hr Hne. destruct (walk_parent m0 T path r H Hr) as (p & _ & [[_ ?]|(a & mp & Ha & Hc & Hk)]); [done|].
  destruct (mp !! path_key path) as [t|] eqn:E; cbn in Hk; [|done]. subst t.
  destruct (to_closed _ _ H p a (path_key path) r Ha) as ([? ?] & _); [by unfold names_of; rewrite Hc|]. eauto.
Qed.

(** Where a new name goes, Create succeeds or nothing is said. *)
Lemma spec_create_new T path type s cb p a : walk T path false = Some (-1) -> free T = s :: cb ->
  walk T path true = Some p -> nodes T !! p = Some a -> Z.of_nat (size (names_of a)) < NumDirEntries ->
  match spec_create T path type with Some (Ok (rep, _)) => rep = Done true | Some _ => False | None => True end.
Proof.
  intros Er Hf Hp Ha Hlt. unfold spec_create. rewrite Er, Hf, Hp. cbn [mbind option_bind]. rewrite Ha, (proj2 (Z.ltb_lt _ _)) by exact Hlt.
  change (negb (-1 =? -1)) with false. cbv iota zeta. destruct (type =? TYPE_FILE); [done|]. destruct (type =? TYPE_DIR); [|done].
  by destruct cb as [|? [|? ?]].
Qed.

Lemma spec_create_no T path type : walk T path false = Some (-1) ->
  (free T = [] \/ match walk T path true ≫= (nodes T !!.) with Some a => NumDirEntries <= Z.of_nat (size (names_of a)) | None => True end) ->
  spec_create T path type = Some (Ok (Done false, T)).
Proof.
  intros Er Hc. unfold spec_create. rewrite Er. change (negb (-1 =? -1)) with false. cbv iota.
  destruct (free T) as [|s cb]; [done|]. destruct Hc as [|Hc]; [done|].
  destruct (walk T path true ≫= _) as [a|]; [|done]. by rewrite (proj2 (Z.ltb_ge _ _)).
Qed.

(** Create after the look-up has failed and the map is in memory. *)
Lemma Create_new_ok st fs T m0 d path type fm b : fs_stored st fs T m0 -> is_root_of d T -> is_cstring path ->
  walk T path false = Some (-1) -> free_map fm (free T) -> forall p, walk T path true = Some p ->
  (p = -1 \/ exists a m, nodes T !! p = Some a /\ a_content a = CDir m /\ m !! path_key path = None) ->
  match spec_create T path type with
  | None => True
  | Some (Ok (r, T')) => exists b' st', r = Done b' /\ fs_stored st' fs T' m0 /\
      ('(sector, freeMap) ← lift (Bitmap.FindAndSet fm);
       if sector =? -1 then mret (false, fs)
       else
         added ← Directory.Add 2 d path sector;
         if negb added then mret (false, fs)
         else
           '(success, freeMap) ← create_header 2 sector type freeMap b;
           mapFile ← PBitmap_WriteBack 2 freeMap (freeMapFile fs);
           mret (success, MkFS mapFile (directoryFile fs))) st = Ok ((b', fs), st')
  | _ => False
  end.
Proof.
  intros H Hd Hc Er Hfm p Hp Hcase. destruct (free T) as [|s cb] eqn:Hf.
  { rewrite spec_create_no by auto. exists false, st. split; [done|]. split; [exact H|].
    rewrite (Bitmap.FindAndSet_nil fm) by apply Hfm. rewrite bind_lift_Ok. reflexivity. }
  destruct Hfm as (Hfl & Hnb & H0). destruct (Bitmap.FindAndSet_cons fm s cb Hfl) as (fm' & E4 & Hfl' & Hnb' & Hs & _).
  assert (free_map fm' cb) as Hfm' by (split; [exact Hfl'|split; [congruence|by intros Hx; apply H0; right]]).
  rewrite E4. assert ((s =? -1) = false) as Hs1 by lia.
  destruct Hcase as [->|(a & m & Ha & Hcm & Hk)].
  { rewrite spec_create_no; [|exact Er|right; rewrite Hp; cbn [mbind option_bind]; by rewrite (no_node m0 T) by apply H].
    destruct (find_parent st fs T m0 d path (-1) H Hd Hc Hp) as (nm & nm' & st4 & E5 & E6 & H4 & _). exists false, st4.
    split; [done|]. split; [exact H4|]. rewrite bind_lift_Ok, Hs1.
    assert (Directory.Add 2 d path s st = Ok (false, st4)) as EA.
    { unfold Directory.Add. rewrite (bind_M_Ok _ _ _ _ _ E5), (bind_M_Ok _ _ _ _ _ E6). reflexivity. }
    rewrite (bind_M_Ok _ _ _ _ _ EA). reflexivity. }
  assert (names_of a = m) as Hna by (unfold names_of; by rewrite Hcm).
  destruct (Z.lt_ge_cases (Z.of_nat (size m)) NumDirEntries) as [Hlt|Hge].
  - pose proof (create_rest_ok st fs T m0 d path type s cb p a m fm' b H Hd Hc Hf Hfm' Hp Ha Hcm Hk Hlt) as HR.
    pose proof (spec_create_new T path type s cb p a Er Hf Hp Ha ltac:(by rewrite Hna)) as Hs'.
    destruct (spec_create T path type) as [[[rep T']| | | |]|]; [|exact Hs'..]. subst rep.
    destruct (HR T' eq_refl Er) as (st4 & E4' & H4). exists true, st4. split; [done|]. split; [exact H4|]. rewrite bind_lift_Ok, Hs1. exact E4'.
  - rewrite spec_create_no; [|exact Er|right; rewrite Hp; cbn [mbind option_bind]; by rewrite Ha, Hna].
    pose proof (Add_ok st fs T m0 d path s p a m 1 H Hd Hc (sector_is_i32 s ltac:(rewrite <- Hnb; lia)) Hp Ha Hcm Hk) as HA.
    rewrite (proj2 (Z.ltb_ge _ _)) in HA by done. destruct HA as (st4 & E5 & H4 & _). exists false, st4.
    split; [done|]. split; [exact H4|]. rewrite bind_lift_Ok, Hs1, (bind_M_Ok _ _ _ _ _ E5). reflexivity.
Qed.

Lemma answers_run (fs : FileSystem) m0 (k : M St (bool * FileSystem)) st spec :
  answers fs m0 (match k st with Ok ((b, fs'), st') => Ok ((Done b, fs'), st') | AssertFail => AssertFail | Undefined => Undefined
    | OutOfFuel => OutOfFuel | Exited => Exited end) spec ->
  answers fs m0 (('(b, fs') ← k; mret (Done b, fs')) st) spec.
Proof. unfold mbind, M_bind. destruct (k st) as [[[? ?] ?]| | | |]; intros Ha; exact Ha. Qed.

Lemma Create_ok st fs T m0 path type : fs_stored st fs T m0 -> is_cstring path ->
  answers fs m0 (serve fs (RCreate path type) st) (spec_create T path type).
Proof.
  intros H Hc. unfold serve, Create. destruct (uninit_bool_ok st) as [b Eb].
  destruct (lookup_ok st fs T m0 path H Hc) as (d & st1 & E1 & Hd & Hds & Hdm & H1 & He1 & HF).
  apply answers_run. rewrite (bind_M_Ok _ _ _ _ _ Eb), (bind_M_Ok _ _ _ _ _ E1).
  destruct (walk T path false) as [r|] eqn:Er.
  2:{ unfold spec_create. rewrite Er. unfold mbind at 1, M_bind at 1. rewrite HF. done. }
  destruct HF as (st2 & E2 & H2 & He2). rewrite (bind_M_Ok _ _ _ _ _ E2).
  destruct (Z.eqb_spec r (-1)) as [->|Hne]; cbn [negb].
  2:{ unfold spec_create. rewrite Er, (proj2 (Z.eqb_neq r (-1))) by done. cbn [negb]. by exists st2. }
  destruct (open_map_ok st2 fs T m0 H2) as (fm & st3 & E3 & Hfm & H3 & He3). erewrite bind_M_Ok by exact E3.
  destruct (walk_parent m0 T path (-1) (st_tree _ _ _ _ H) Er) as (p & Hp & Hcase).
  assert (p = -1 \/ exists a m, nodes T !! p = Some a /\ a_content a = CDir m /\ m !! path_key path = None) as Hnew.
  { destruct Hcase as [[-> _]|(a & m & Ha & Hcm & Hk)]; [by left|right]. exists a, m. split; [done|]. split; [done|].
    destruct (m !! path_key path) as [t|] eqn:Et; [|done]. cbn in Hk. subst t.
    destruct (to_closed _ _ (st_tree _ _ _ _ H) p a (path_key path) (-1) Ha) as ([? Hx] & _); [by unfold names_of; rewrite Hcm|].
    by rewrite (no_node m0 T) in Hx by apply H. }
  pose proof (Create_new_ok st3 fs T m0 d path type fm b H3 (conj Hd (conj Hds Hdm)) Hc Er Hfm p Hp Hnew) as HN.
  unfold answers. destruct (spec_create T path type) as [[[rep T']| | | |]|]; [|destruct HN..|exact I].
  destruct HN as (b' & st' & -> & H' & E'). rewrite E'. exists st'. split; [reflexivity|exact H'].
Qed.

(** * Removing *)

Lemma stored_remove st st' fs T m0 s a p b m key h bl fm' : fs_stored st fs T m0 ->
  nodes T !! s = Some a -> nodes T !! p = Some b -> a_content b = CDir m -> m !! key = Some s ->
  store_wf st' -> map_on_disk st' (hdr (freeMapFile fs)) m0 fm' (freed_list T s a) ->
  inode_ok st p h bl b -> inode_ok st' p h bl (with_names b (delete key m)) ->
  same_outside st st' (p :: bl ++ [0; m0]) ->
  fs_stored st' fs (MkTree (delete s (<[p := with_names b (delete key m)]> (nodes T))) (freed_list T s a)) m0.
Proof.
  intros H Hs Hp Hm Hk Hw Hmap Hi Hi' Ho. pose proof H as []. destruct st_map0 as [fm0 Hm0].
  pose proof (map_free_ok _ _ _ _ _ Hm0) as Hfr.
  destruct (tree_ok_remove m0 T s a p b m key st_tree0 Hfr Hs Hp Hm Hk) as [Ht _].
  destruct (to_closed _ _ st_tree0 p b key s Hp) as (_ & Hsp & Hsr); [unfold names_of; by rewrite Hm|].
  assert (forall t c h1 bl1, nodes T !! t = Some c -> t <> p -> inode_ok st t h1 bl1 c -> inode_ok st' t h1 bl1 c) as Hother.
  { intros t c h1 bl1 Hc Hne Hic. pose proof (node_range _ _ _ _ st_tree0 Hc). eapply inode_frame; [exact Hic|exact Ho|lia|].
    intros x Hx. pose proof (inode_disjoint st m0 T p b h bl t c x st_tree0 Hp Hi Hc Hne Hx) as Hd.
    destruct (to_used _ _ st_tree0 t c x Hc Hx) as (_ & Hxm & Hxr). set_unfold. intros [->|[?|[->|[->|[]]]]]; [tauto|tauto|lia|tauto]. }
  constructor; try done; cbn [nodes free].
  - by exists fm'.
  - intros t c [Hts [[<- <-]|[Htp Hc]]%lookup_insert_Some]%lookup_delete_Some; [by exists h, bl|].
    destruct (st_nodes0 t c Hc) as (h1 & bl1 & Hb1). exists h1, bl1. by apply Hother.
  - destruct st_root0 as (bl1 & a1 & Ha1 & Hr). rewrite lookup_delete_ne by done. destruct (decide (p = DirectorySector)) as [->|Hne].
    + rewrite lookup_insert_eq. pose proof (inode_same _ _ _ _ _ _ _ _ Hr Hi) as ->. eauto.
    + rewrite lookup_insert_ne by done. exists bl1, a1. split; [done|]. by apply Hother.
Qed.

Lemma filter_members {A} (P Q : A -> Prop) `{!forall x, Decision (P x), !forall x, Decision (Q x)} (l : list A) :
  (forall x, x ∈ l -> P x <-> Q x) -> filter P l = filter Q l.
Proof.
  induction l as [|x l IH]; intros Heq; [done|]. rewrite !filter_cons, IH by (intros; apply Heq; by right).
  destruct (Heq x ltac:(left)) as [? ?]. repeat case_decide; tauto.
Qed.

(** The map once the sectors of [s] are given back. *)
Lemma free_map_cleared fm fm' T m0 s a l : tree_ok m0 T -> nodes T !! s = Some a -> free_map fm (free T) -> cleared fm fm' l ->
  (forall x, x ∈ l <-> x ∈ s :: a_owned a) -> free_map fm' (freed_list T s a).
Proof.
  intros Ht Hs (Hf & Hn & H0) (Hw & Hn' & Hb) Hl. pose proof (to_used _ _ Ht s a 0 Hs) as Hu. split; [|split; [congruence|]].
  - split; [exact Hw|]. unfold Bitmap.clear_bits, freed_list. rewrite Hn', Hn. apply filter_members. intros x Hx%elem_of_range.
    rewrite Hb, andb_false_iff, bool_decide_eq_false, (Bitmap.free_list_bit fm (free T)), Hl, elem_of_cons by (lia || done).
    destruct (decide (x ∈ s :: a_owned a)) as [Hd|Hd]; rewrite elem_of_cons in Hd; tauto.
  - unfold freed_list. rewrite list_elem_of_filter, <- elem_of_cons. intros [[?|Hx] _]; [done|]. destruct (Hu Hx) as (_ & _ & ?). lia.
Qed.

(** Giving back the sectors of a node and that of its header. *)
Lemma give_back_ok st m0 T s a h bl fm : store_wf st -> tree_ok m0 T -> nodes T !! s = Some a -> inode_ok st s h bl a ->
  free_map fm (free T) -> ~ (24 < a_blocks a < 56)%nat ->
  exists h' fm1 fm2 st', Deallocate h fm st = Ok ((h', fm1), st') /\ Bitmap.Clear fm1 s = Ok fm2 /\
    store_wf st' /\ store_eq st st' /\ free_map fm2 (freed_list T s a).
Proof.
  intros Hw Ht Hs [] Hf Hb. pose proof Hf as (Hfl & Hnb & H0). pose proof (node_range _ _ _ _ Ht Hs) as Hr. pose proof (ho_max _ _ _ io_holds0) as Hmax.
  destruct (Deallocate_spec st h bl fm) as (h' & fm1 & st' & E & Hw' & _ & Hc & Ha & _); [done|done|apply Hfl|done| |].
  { intros x Hx. destruct (to_used _ _ Ht s a x Hs) as (Hn & _ & Hxr); [right; apply io_owned0; by left|].
    destruct (Bitmap.bit fm x) eqn:Ex; [done|]. apply (Bitmap.free_list_bit fm (free T)) in Ex; [done|done|lia]. }
  pose proof Hc as (Hw1 & Hn1 & _). destruct (Bitmap.Clear_correct fm1 s Hw1 ltac:(lia)) as (fm2 & E2 & Hw2 & Hn2 & Hb2).
  exists h', fm1, fm2, st'. split; [done|]. split; [done|]. split; [done|]. split.
  - intros t Ht'. apply Ha; [done|]. lia.
  - apply (free_map_cleared fm fm2 T m0 s a (freed h bl ++ [s])); [done..| |].
    + eapply cleared_trans; [exact Hc|]. split; [done|]. split; [done|]. intros j Hj. rewrite Hb2, andb_comm by done. f_equal.
      destruct (Z.eqb_spec j s) as [->|]; [rewrite bool_decide_false|rewrite bool_decide_true]; set_solver.
    + intros x. rewrite elem_of_app, elem_of_freed, list_elem_of_singleton, elem_of_cons, io_owned0 by lia. rewrite <- io_blocks0 in Hb. tauto.
Qed.

Lemma Remove_found_ok st fs T m0 d path s a p b m fm fm2 : fs_stored st fs T m0 -> is_root_of d T -> is_cstring path ->
  nodes T !! s = Some a -> walk T path true = Some p -> nodes T !! p = Some b -> a_content b = CDir m -> m !! path_key path = Some s ->
  free_map fm (free T) -> free_map fm2 (freed_list T s a) ->
  exists st', (_ ← Directory.Remove 2 d path;
      mapFile ← PBitmap_WriteBack 2 fm2 (freeMapFile fs);
      mret (true, MkFS mapFile (directoryFile fs))) st = Ok ((true, fs), st') /\
    fs_stored st' fs (MkTree (delete s (<[p := with_names b (delete (path_key path) m)]> (nodes T))) (freed_list T s a)) m0.
Proof.
  intros H Hd Hc Hs Hw Hp Hm Hk Hf Hf2. pose proof H as []. destruct st_map0 as [fm0 Hmap0]. pose proof (map_free_ok _ _ _ _ _ Hmap0) as Hfr.
  destruct (Remove_ok st fs T m0 d path s p b m 1 H Hd Hc Hw Hp Hm Hk) as (h & bl & st1 & E1 & Hw1 & Hi & Hi1 & Ho1).
  assert (forall x, x ∈ p :: bl -> x <> m0 /\ 0 < x < NumSectors) as Hpbl.
  { intros x Hx. apply (to_used _ _ st_tree0 p b x Hp). revert Hx. rewrite !elem_of_cons, (io_owned _ _ _ _ _ Hi). tauto. }
  assert (m0 ∉ freed_list T s a) as Hm0.
  { destruct (tree_ok_remove m0 T s a p b m (path_key path) st_tree0 Hfr Hs Hp Hm Hk) as [_ [_ Hx]]. intros Hx'. by destruct (Hx m0 Hx'). }
  pose proof (map_sector_range _ _ _ _ _ Hmap0) as Hmr.
  assert (map_on_disk st1 (hdr (freeMapFile fs)) m0 fm0 (free T)) as Hmap1.
  { eapply map_on_disk_frame; [exact Hmap0| |]; (apply Ho1; [lia|]); intros Hx%Hpbl; lia. }
  destruct (map_back_ok st1 fs m0 fm0 (free T) fm2 (freed_list T s a) 1) as (st2 & E2 & Hw2 & Hmap2 & Ho2); [done..|].
  exists st2. rewrite (bind_M_Ok _ _ _ _ _ E1), (bind_M_Ok _ _ _ _ _ E2), MkFS_eta. split; [reflexivity|].
  apply (stored_remove st st2 fs T m0 s a p b m (path_key path) h bl fm2); try done.
  - eapply (inode_frame st1); [exact Hi1|exact Ho2|pose proof (node_range _ _ _ _ st_tree0 Hp); lia|].
    intros x Hx Hx'. destruct (to_used _ _ st_tree0 p b x Hp Hx) as (_ & ? & ?). set_unfold. destruct Hx' as [?|[?|[]]]; [lia|done].
  - intros t Ht Hn. rewrite Ho2, Ho1; [done|done|set_solver|done|set_solver].
Qed.

Lemma Remove_serve_ok st fs T m0 path : fs_stored st fs T m0 -> is_cstring path ->
  answers fs m0 (serve fs (RRemove path) st) (spec_remove T path).
Proof.
  intros H Hc. unfold serve, FileSys.Remove. destruct (lookup_ok st fs T m0 path H Hc) as (d & st1 & E1 & Hd & Hds & Hdm & H1 & He1 & HF).
  apply answers_run. rewrite (bind_M_Ok _ _ _ _ _ E1). unfold spec_remove. destruct (walk T path false) as [s|] eqn:Er.
  2:{ unfold mbind at 1, M_bind at 1. rewrite HF. done. }
  destruct HF as (st2 & E2 & H2 & He2). rewrite (bind_M_Ok _ _ _ _ _ E2).
  destruct (Z.eqb_spec s (-1)) as [->|Hne].
  { rewrite (no_node m0 T) by apply H. exists st2. split; [reflexivity|exact H2]. }
  destruct (walk_parent m0 T path s (st_tree _ _ _ _ H) Er) as (p & Hp & [[_ ?]|(b & m & Hb & Hm & Hk)]); [done|].
  destruct (m !! path_key path) as [t|] eqn:Et; cbn in Hk; [subst t|done].
  assert (names_of b = m) as Hnb by (unfold names_of; by rewrite Hm).
  destruct (to_closed _ _ (st_tree _ _ _ _ H) p b (path_key path) s Hb) as ([a Ha] & _); [by rewrite Hnb|].
  rewrite Ha, Hp. cbn [mbind option_bind]. rewrite Hb, Hnb. destruct (decide (24 < a_blocks a < 56)%nat) as [|Hblk]; [exact I|].
  cbn [default from_option]. fold (freed_list T s a). pose proof (node_range _ _ _ _ (st_tree _ _ _ _ H) Ha) as Hr.
  destruct (st_nodes _ _ _ _ H2 s a Ha) as (h & bl & Hi).
  destruct (header_FetchFrom_ok st2 s h) as (st3 & E3 & Hw3 & He3); [apply H2|lia|apply Hi|apply Hi|]. rewrite (bind_M_Ok _ _ _ _ _ E3).
  pose proof (stored_eq _ _ _ _ _ H2 Hw3 He3) as H3. destruct (open_map_ok st3 fs T m0 H3) as (fm & st4 & E4 & Hfm & H4 & He4).
  erewrite bind_M_Ok by exact E4.
  assert (inode_ok st4 s h bl a) as Hi4 by (eapply inode_frame; [exact Hi|apply eq_outside; by etrans|lia|intros x _; apply not_elem_of_nil]).
  destruct (give_back_ok st4 m0 T s a h bl fm (st_wf _ _ _ _ H4) (st_tree _ _ _ _ H) Ha Hi4 Hfm Hblk) as (h' & fm1 & fm2 & st5 & E5 & E6 & Hw5 & He5 & Hf2).
  rewrite (bind_M_Ok _ _ _ _ _ E5), E6, bind_lift_Ok. pose proof (stored_eq _ _ _ _ _ H4 Hw5 He5) as H5.
  destruct (Remove_found_ok st5 fs T m0 d path s a p b m fm fm2 H5 (conj Hd (conj Hds Hdm)) Hc Ha Hp Hb Hm Et Hfm Hf2) as (st6 & E7 & H6).
  rewrite E7. exists st6. split; [reflexivity|exact H6].
Qed.

(** * Opening and reading *)

Lemma Open_ok st fs T m0 path : fs_stored st fs T m0 -> is_cstring path ->
  match walk T path false with
  | None => FileSys.Open fs path st = Undefined
  | Some s =>
      match nodes T !! s with
      | None => exists st', FileSys.Open fs path st = Ok (None, st') /\ fs_stored st' fs T m0
      | Some a => exists h bl st', FileSys.Open fs path st = Ok (Some (MkOpen h 0), st') /\ fs_stored st' fs T m0 /\ inode_ok st' s h bl a
      end
  end.
Proof.
  intros H Hc. destruct (lookup_ok st fs T m0 path H Hc) as (d & st1 & E1 & _ & _ & _ & H1 & He1 & HF). unfold FileSys.Open.
  rewrite (bind_M_Ok _ _ _ _ _ E1). destruct (walk T path false) as [s|] eqn:Er.
  2:{ unfold mbind at 1, M_bind at 1. by rewrite HF. }
  destruct HF as (st2 & E2 & H2 & He2). rewrite (bind_M_Ok _ _ _ _ _ E2). destruct (nodes T !! s) as [a|] eqn:Ha.
  - pose proof (node_range _ _ _ _ (st_tree _ _ _ _ H) Ha) as Hr. rewrite (proj2 (Z.leb_le 0 s)) by lia.
    destruct (st_nodes _ _ _ _ H2 s a Ha) as (h & bl & Hi).
    destruct (OpenFile_new_ok st2 s h) as (st3 & E3 & Hw3 & He3); [apply H2|lia|apply Hi|apply Hi|]. rewrite (bind_M_Ok _ _ _ _ _ E3).
    exists h, bl, st3. split; [reflexivity|]. split; [by eapply stored_eq|].
    eapply inode_frame; [exact Hi|by apply eq_outside|lia|]. intros x _. apply not_elem_of_nil.
  - destruct (decide (s = -1)) as [->|Hne]; [by exists st2|].
    destruct (node_of_walk m0 T path s (st_tree _ _ _ _ H) Er Hne) as [a ?]. congruence.
Qed.

Lemma slice_of_take {A} (l : list A) limit pos n : (pos + n <= limit)%nat -> slice pos n (take limit l) = slice pos n l.
Proof. intros H. unfold slice. rewrite skipn_firstn_comm, take_take. f_equal. lia. Qed.

Lemma read_result_take l limit n pos : 0 <= limit -> read_result (take (Z.to_nat limit) l) limit n pos = read_result l limit n pos.
Proof.
  intros Hl. unfold read_result. destruct (_ || _) eqn:E; [done|].
  apply orb_false_iff in E as [[?%Z.leb_gt ?%Z.ltb_ge]%orb_false_iff ?%Z.leb_gt]. rewrite slice_of_take by lia. done.
Qed.

(** A file's bytes are as many as its limit says. *)
Lemma file_content st s h bl a bytes : store_wf st -> inode_ok st s h bl a -> a_content a = CFile bytes ->
  ftype h <> TYPE_DIR /\ bytes = take (Z.to_nat (limit h)) (file_bytes st bl) /\ Z.of_nat (length bytes) = limit h.
Proof.
  intros Hw [] Hc. rewrite Hc in io_content0. destruct io_content0 as [Ht <-]. split; [done|]. split; [done|].
  pose proof io_holds0 as []. rewrite length_take, file_bytes_length by (by eapply sectors_ok_holds). lia.
Qed.

Lemma Read_serve_ok st fs T m0 path numBytes position : fs_stored st fs T m0 -> is_cstring path -> numBytes <= 8192 ->
  answers fs m0 (serve fs (RRead path numBytes position) st) (spec_read T path numBytes position).
Proof.
  intros H Hc Hn. pose proof (Open_ok st fs T m0 path H Hc) as HO. unfold serve, spec_read. destruct (walk T path false) as [s|].
  2:{ unfold mbind at 1, M_bind at 1. rewrite HO. done. }
  destruct (nodes T !! s) as [a|] eqn:Ha.
  2:{ destruct HO as (st' & E & H'). rewrite (bind_M_Ok _ _ _ _ _ E). exists st'. split; [reflexivity|exact H']. }
  destruct HO as (h & bl & st1 & E & H1 & Hi). rewrite (bind_M_Ok _ _ _ _ _ E). destruct a as [nb owned [m|bytes]]; [exact I|].
  destruct (file_content st1 s h bl _ bytes (st_wf _ _ _ _ H1) Hi eq_refl) as (_ & Hb & Hl). pose proof (io_holds _ _ _ _ _ Hi) as Hh.
  destruct (ReadAt_ok st1 (MkOpen h 0) bl numBytes position (st_wf _ _ _ _ H1) Hh Hn) as (st2 & E2 & Hw2 & He2). cbn [hdr] in E2.
  rewrite Hl, Hb, read_result_take by apply Hh. rewrite (bind_M_Ok _ _ _ _ _ E2).
  destruct (read_result _ _ _ _) as [n bs]. exists st2. split; [reflexivity|by eapply stored_eq].
Qed.

(** * Writing *)

Lemma holds_ints st h bl : holds st h bl -> is_i32 (selfSector h) -> is_i32 (ftype h) -> is_i32 (createTime h) -> is_i32 (modifyTime h) ->
  Forall is_i32 (header_ints h).
Proof.
  intros [] Hs Ht Hc Hm. unfold header_ints. repeat (apply Forall_cons; split; [solve [done|unfold is_i32; lia]|]).
  apply Forall_lookup. intros i x Hx. pose proof (lookup_lt_Some _ _ _ Hx) as Hi. destruct (decide (i < 24)%nat) as [Hd|Hd].
  - rewrite ho_direct0 in Hx by done. injection Hx as <-. destruct (bl !! i) as [y|] eqn:Ey; [|done]. rewrite Forall_lookup in ho_range0.
    specialize (ho_range0 i y Ey). apply sector_is_i32. cbn. lia.
  - replace i with 24%nat in Hx by lia. assert (indirect h = x) as <- by (unfold indirect; by rewrite Hx).
    destruct (decide (24 < length bl)%nat) as [Hb|Hb]; [destruct (ho_ind0 Hb); apply sector_is_i32; lia|by rewrite ho_none0 by lia].
Qed.

(** The sectors that a write adds are the first that were free. *)
Lemma elem_of_added bl cb N k x : (N + new_indirect bl N <= length cb)%nat ->
  (new_indirect bl N = 1%nat -> k ∈ take (N + 1) cb /\ k ∉ new_blocks bl cb N) ->
  x ∈ take (N + new_indirect bl N) cb <-> x ∈ new_blocks bl cb N \/ (new_indirect bl N = 1%nat /\ x = k).
Proof.
  unfold new_blocks. set (d := direct_part bl N). assert (d <= N)%nat as Hd by (unfold d, direct_part; lia).
  assert (new_indirect bl N = 0%nat \/ new_indirect bl N = 1%nat) as Hni by (unfold new_indirect; case_decide; auto).
  destruct Hni as [-> | ->]; intros Hl Hk.
  - rewrite !Nat.add_0_r, take_take_drop. replace (d + (N - d))%nat with N by lia. split; [by left|]. intros [|[? _]]; done.
  - destruct (Hk eq_refl) as [Hk1 Hk2]. clear Hk.
    assert (take (N + 1) cb = take d cb ++ take 1 (drop d cb) ++ take (N - d) (drop (d + 1) cb)) as E.
    { rewrite <- drop_drop, take_take_drop, take_take_drop. f_equal. lia. }
    rewrite E in Hk1 |- *. destruct (lookup_lt_is_Some_2 cb d) as [y Hy]; [lia|].
    assert (take 1 (drop d cb) = [y]) as E1 by (by rewrite (drop_S cb y d) by done). rewrite E1 in Hk1 |- *. set_solver.
Qed.

Lemma write_owned st' h h' bl cb N owned : holds st' h' (bl ++ new_blocks bl cb N) -> (N + new_indirect bl N <= length cb)%nat ->
  ((length bl <= 24)%nat -> indirect h = 0) -> 0 ∉ cb -> (indirect h' = indirect h \/ indirect h' ∈ cb) -> indirect h' ∉ drop (N + new_indirect bl N) cb ->
  (forall x, x ∈ owned <-> x ∈ bl \/ ((24 < length bl)%nat /\ x = indirect h)) ->
  forall x, x ∈ owned ++ take (N + new_indirect bl N) cb <->
    x ∈ bl ++ new_blocks bl cb N \/ ((24 < length (bl ++ new_blocks bl cb N))%nat /\ x = indirect h').
Proof.
  intros Hh Hl H0 Hz Hi Hd Ho x. pose proof (ho_ind _ _ _ Hh) as Hind. rewrite length_app, new_blocks_length in * by done.
  assert (indirect h' ∈ cb -> indirect h' ∈ take (N + new_indirect bl N) cb) as Ht.
  { intros Hin. rewrite <- (take_drop (N + new_indirect bl N) cb) in Hin. apply elem_of_app in Hin as [|]; [done|contradiction]. }
  rewrite !elem_of_app, Ho, (elem_of_added bl cb N (indirect h')) by
    (done || (intros E; rewrite E in Ht; unfold new_indirect in E; case_decide; [|done]; destruct Hind as (Hp & Hn & _); [lia|];
      rewrite elem_of_app in Hn; destruct Hi as [Hi|Hi]; [rewrite H0 in Hi by lia; lia|tauto])).
  destruct (decide (24 < length bl)%nat) as [Hb|Hb].
  - assert (new_indirect bl N = 0%nat) as En by (unfold new_indirect; rewrite decide_False; lia). rewrite En, Nat.add_0_r in *.
    assert (indirect h' = indirect h) as ->.
    { destruct Hi as [|Hi]; [done|]. exfalso. destruct Hind as (_ & Hn & _); [lia|]. apply Hn, elem_of_app. right.
      apply Ht in Hi. rewrite <- (Nat.add_0_r N), <- En in Hi. apply (elem_of_added bl cb N 0) in Hi; [|rewrite En; lia|by rewrite En].
      destruct Hi as [|[? _]]; [done|congruence]. }
    assert (24 < length bl + N)%nat by lia. assert (0%nat <> 1%nat) by lia. tauto.
  - unfold new_indirect. case_decide as Hdd; intuition (try lia; try done).
Qed.

Lemma inode_file_ok st m0 T s a h bl : tree_ok m0 T -> free_ok m0 T -> 0 < m0 -> nodes T !! s = Some a -> inode_ok st s h bl a ->
  file_ok st h bl m0 (free T).
Proof.
  intros H Hf Hm0 Hs Hi. pose proof Hi as []. pose proof (node_range _ _ _ _ H Hs) as Hr.
  assert (forall x, x ∈ bl \/ ((24 < length bl)%nat /\ x = indirect h) -> x ∉ free T /\ x <> m0 /\ 0 < x) as Hu.
  { intros x Hx%io_owned0. destruct (to_used _ _ H s a x Hs ltac:(by right)) as (? & ? & ?). split_and!; [done|done|lia]. }
  destruct (to_used _ _ H s a s Hs ltac:(left)) as (Hs1 & Hs2 & _).
  assert (indirect h ∉ free T /\ indirect h <> m0) as [Hi1 Hi2].
  { destruct (decide (24 < length bl)%nat) as [Hb|Hb]; [destruct (Hu (indirect h)) as (? & ? & _); [by right|done]|].
    rewrite (ho_none _ _ _ io_holds0) by lia. split; [|lia]. intros Hx. destruct Hf as [_ Hf]. destruct (Hf 0 Hx). lia. }
  constructor; [done|by eapply inode_apart|..].
  - rewrite io_self0. split; [|done]. intros Hx. by destruct (Hu m0 ltac:(by left)) as (_ & ? & _).
  - rewrite io_self0. split; [lia|done].
  - intros x Hx. by destruct (Hu x ltac:(by left)).
  - done.
Qed.

(** Node [s] after a write. *)
Definition written (a : anode) (cb : list Z) (N all : nat) (bytes : list Z) : anode :=
  MkNode (a_blocks a + N) (a_owned a ++ take all cb) (CFile bytes).

Lemma write_inode st st' f' s a h bl m0 T mh from numBytes position N bytes :
  let all := (N + new_indirect bl N)%nat in
  store_wf st -> 0 ∉ free T -> (all <= length (free T))%nat -> inode_ok st s h bl a -> a_content a = CFile bytes ->
  0 <= position <= limit h -> 0 <= numBytes ->
  write_post st st' (MkOpen h 0) f' bl (bl ++ new_blocks bl (free T) N) mh m0 (free T) (drop all (free T)) from numBytes position ->
  inode_ok st' s (hdr f') (bl ++ new_blocks bl (free T) N)
    (written a (free T) N all (take (Z.to_nat position) bytes ++ take (Z.to_nat numBytes) from)).
Proof.
  intros all Hw H0 Hall Hi Hc Hp Hn (Hw' & Hlim & Hself & (Hty & Hct & Hmt & Hind) & Hfo & Hst & _ & Hbytes & _).
  destruct (file_content st s h bl a bytes Hw Hi Hc) as (Hnd & Hb & Hl). pose proof Hi as []. cbn [hdr] in *.
  pose proof (io_i32 _ _ _ _ _ Hi) as Hi32. unfold header_ints in Hi32. rewrite Forall_forall in Hi32.
  constructor; cbn [written a_blocks a_owned a_content].
  - by rewrite <- Hst, io_self0.
  - eapply holds_ints; [apply Hfo|rewrite Hself|rewrite Hty|rewrite Hct|rewrite Hmt]; apply Hi32; cbn [app]; rewrite !elem_of_cons; tauto.
  - apply Hfo.
  - congruence.
  - rewrite length_app, new_blocks_length by done. lia.
  - eapply (write_owned st' h); [apply Hfo|done|apply io_holds0|done|done|apply (fo_ind _ _ _ _ _ Hfo)|done].
  - split; [by rewrite Hty|]. rewrite Hlim, Hbytes. f_equal. rewrite Hb, take_take. f_equal. lia.
Qed.

Lemma stored_write st st' fs T m0 s a h' bl' k n bs bs' fm' : fs_stored st fs T m0 -> nodes T !! s = Some a -> a_content a = CFile bs ->
  let a' := MkNode n (a_owned a ++ take k (free T)) (CFile bs') in
  store_wf st' -> map_on_disk st' (hdr (freeMapFile fs)) m0 fm' (drop k (free T)) -> inode_ok st' s h' bl' a' ->
  (forall x, x ∈ bl' \/ x = indirect h' -> x = 0 \/ x ∈ a_owned a') ->
  same_outside st st' (s :: 0 :: m0 :: indirect h' :: bl') ->
  fs_stored st' fs (MkTree (<[s := a']> (nodes T)) (drop k (free T))) m0.
Proof.
  intros H Hs Hc a' Hw Hmap Hi' Hin Ho. pose proof H as []. destruct st_map0 as [fm0 Hm0].
  pose proof (map_free_ok _ _ _ _ _ Hm0) as Hfr. destruct (tree_ok_write m0 T s a n k bs bs' st_tree0 Hfr Hs Hc) as [Ht _].
  assert (forall t b h1 bl1, nodes T !! t = Some b -> t <> s -> inode_ok st t h1 bl1 b -> inode_ok st' t h1 bl1 b) as Hother.
  { intros t b h1 bl1 Hb Hne Hib. pose proof (node_range _ _ _ _ st_tree0 Hb). eapply inode_frame; [exact Hib|exact Ho|lia|].
    intros x Hx. destruct (to_used _ _ st_tree0 t b x Hb Hx) as (Hxf & Hxm & Hxr).
    assert (x ∉ s :: a_owned a) as Hd by (intros Hx'; apply Hne; by apply (to_disj _ _ st_tree0 t b s a x)).
    assert (x <> 0 -> x ∉ a_owned a' -> x ∉ indirect h' :: bl') as Hd2.
    { intros Hx0 Hn Hx'. destruct (Hin x) as [|]; [|done..]. apply elem_of_cons in Hx' as [|]; tauto. }
    assert (x ∉ a_owned a') as Hd3 by (cbn [a' a_owned]; rewrite elem_of_app; intros [|Hx'%elem_of_take]; [apply Hd; by right|done]).
    specialize (Hd2 ltac:(lia) Hd3). rewrite !elem_of_cons in *. intros [?|[?|[?|?]]]; [tauto|lia|tauto|tauto]. }
  assert (s <> DirectorySector) as Hsr by (intros ->; destruct (to_root _ _ st_tree0) as (? & ? & ? & ?); congruence).
  constructor; try done; cbn [nodes free].
  - by exists fm'.
  - intros t b [[<- <-]|[Hts Hb]]%lookup_insert_Some; [by exists h', bl'|].
    destruct (st_nodes0 t b Hb) as (h1 & bl1 & Hb1). exists h1, bl1. by apply Hother.
  - destruct st_root0 as (bl1 & a1 & Ha1 & Hr). rewrite lookup_insert_ne by done. exists bl1, a1. split; [done|]. by apply Hother.
Qed.

Lemma wanted_sectors h bl last N : capacity h = Z.of_nat (length bl) * 128 ->
  sectors_wanted h last = data_wanted (length bl) last /\ new_indirect bl N = indirect_wanted (length bl) N.
Proof. intros E. unfold sectors_wanted, data_wanted. by rewrite E. Qed.

Lemma Write_file_ok st fs T m0 s a h bl bytes data numBytes position : fs_stored st fs T m0 -> nodes T !! s = Some a ->
  inode_ok st s h bl a -> a_content a = CFile bytes -> 0 < numBytes <= Z.of_nat (length data) -> is_i32 (8192 + numBytes) ->
  0 <= position <= Z.of_nat (length bytes) ->
  let N := data_wanted (a_blocks a) (position + numBytes) in
  let all := (N + indirect_wanted (a_blocks a) N)%nat in
  if decide (position + numBytes <= MaxFileSize /\ (all <= length (free T))%nat) then
    exists f' st', WriteAt 2 (MkOpen h 0) data numBytes position st = Ok ((numBytes, f'), st') /\
      fs_stored st' fs (MkTree (<[s := written a (free T) N all (take (Z.to_nat position) bytes ++ take (Z.to_nat numBytes) data)]> (nodes T))
        (drop all (free T))) m0
  else WriteAt 2 (MkOpen h 0) data numBytes position st = AssertFail.
Proof.
  intros H Hs Hi Hc Hn Hi32 Hp N all. pose proof H as []. destruct st_map0 as [fm Hmap]. pose proof (map_free_ok _ _ _ _ _ Hmap) as Hfr.
  pose proof (map_sector_range _ _ _ _ _ Hmap) as Hm0. destruct (file_content st s h bl a bytes st_wf0 Hi Hc) as (_ & _ & Hl). rewrite Hl in Hp.
  assert (0 ∉ free T) as H0 by (intros H0; destruct Hfr as [_ Hfr]; destruct (Hfr 0 H0); lia).
  pose proof (inode_file_ok st m0 T s a h bl st_tree0 Hfr ltac:(lia) Hs Hi) as Hfo. pose proof (io_holds _ _ _ _ _ Hi) as Hh.
  assert (capacity h = Z.of_nat (length bl) * 128) as Hcap by (rewrite (ho_cap _ _ _ Hh), (ho_n _ _ _ Hh); done).
  pose proof (WriteAt_cases st (MkOpen h 0) bl (hdr (freeMapFile fs)) m0 fm (free T) data numBytes position 0 st_wf0 Hmap Hfo Hn Hi32 Hp) as HW.
  cbv zeta in HW. cbn [hdr] in HW. destruct (wanted_sectors h bl (position + numBytes) N Hcap) as [Es En].
  rewrite (io_blocks _ _ _ _ _ Hi) in Es, En. rewrite Es in HW. fold N in HW. rewrite En in HW. fold all in HW.
  destruct (decide _) as [[_ Hall]|]; [|exact HW]. destruct HW as (f' & st' & E & Hpost). exists f', st'. split; [exact E|].
  assert (all = (N + new_indirect bl N)%nat) as Hall' by (by rewrite En). rewrite Hall' in Hpost, Hall.
  pose proof (write_inode st st' f' s a h bl m0 T _ data numBytes position N bytes st_wf0 H0 Hall Hi Hc Hp ltac:(lia) Hpost) as Hi'.
  destruct Hpost as (Hw' & _ & _ & _ & _ & _ & (fm' & Hmap') & _ & Ho). rewrite <- Hall' in *. cbn [hdr] in Ho. rewrite (io_self _ _ _ _ _ Hi) in Ho.
  eapply (stored_write st st' fs T m0 s a _ _ all _ bytes); [done..| |exact Hmap'|exact Hi'| |exact Ho]; [done|].
  intros x [Hx|Hx].
  - right. apply (io_owned _ _ _ _ _ Hi'). by left.
  - pose proof (io_holds _ _ _ _ _ Hi') as Hh'. destruct (decide (24 < length (bl ++ new_blocks bl (free T) N))%nat) as [Hb|Hb].
    + right. apply (io_owned _ _ _ _ _ Hi'). by right.
    + left. rewrite Hx. apply (ho_none _ _ _ Hh'). lia.
Qed.

Lemma Write_serve_ok st fs T m0 path data numBytes position : fs_stored st fs T m0 -> is_cstring path ->
  numBytes <= Z.of_nat (length data) -> is_i32 (8192 + numBytes) ->
  answers fs m0 (serve fs (RWrite path data numBytes position) st) (spec_write T path data numBytes position).
Proof.
  intros H Hc Hn Hi32. pose proof (Open_ok st fs T m0 path H Hc) as HO. unfold serve, spec_write. destruct (walk T path false) as [s|].
  2:{ unfold mbind at 1, M_bind at 1. rewrite HO. done. }
  destruct (nodes T !! s) as [a|] eqn:Ha.
  2:{ destruct HO as (st' & E & H'). rewrite (bind_M_Ok _ _ _ _ _ E). exists st'. split; [reflexivity|exact H']. }
  destruct HO as (h & bl & st1 & E & H1 & Hi). rewrite (bind_M_Ok _ _ _ _ _ E). destruct a as [nb owned [m|bytes]]; [exact I|].
  destruct (file_content st1 s h bl _ bytes (st_wf _ _ _ _ H1) Hi eq_refl) as (_ & _ & Hl).
  destruct ((numBytes <=? 0) || _ || _) eqn:Eg.
  - pose proof (WriteAt_nothing st1 (MkOpen h 0) data numBytes position 1) as E1. cbn [hdr] in E1. rewrite (bind_M_Ok _ _ _ _ _ (E1 ltac:(lia))).
    exists st1. split; [reflexivity|exact H1].
  - apply orb_false_iff in Eg as [[?%Z.leb_gt ?%Z.ltb_ge]%orb_false_iff ?%Z.ltb_ge].
    pose proof (Write_file_ok st1 fs T m0 s _ h bl bytes data numBytes position H1 Ha Hi eq_refl ltac:(lia) Hi32 ltac:(lia)) as HW. cbn [a_blocks] in HW.
    destruct (decide _) as [Hd|Hd] in HW; [rewrite (decide_True (P := _ /\ _)) by exact Hd|rewrite (decide_False (P := _ /\ _)) by exact Hd].
    + destruct HW as (f' & st' & E2 & Hst2). rewrite (bind_M_Ok _ _ _ _ _ E2). exists st'. split; [reflexivity|exact Hst2].
    + unfold answers. by rewrite (bind_M_AssertFail _ _ _ HW).
Qed.

(** * Every request *)

(** Starting again finds the file system as it was. *)
Lemma Mount_ok st fs T m0 : fs_stored st fs T m0 ->
  exists st', FileSystem_new 2 false st = Ok (fs, st') /\ fs_stored st' fs T m0.
Proof.
  intros H. pose proof H as []. destruct st_map0 as [fm Hmap]. destruct st_root0 as (bl & a & _ & Hr).
  destruct (OpenFile_new_ok st FreeMapSector (hdr (freeMapFile fs))) as (st1 & E1 & Hw1 & He1); [done|done|apply Hmap|apply Hmap|].
  destruct (OpenFile_new_ok st1 DirectorySector (hdr (directoryFile fs))) as (st2 & E2 & Hw2 & He2);
    [done|done|rewrite He1 by done; apply Hr|apply Hr|].
  exists st2. cbn [FileSystem_new]. rewrite (bind_M_Ok _ _ _ _ _ E1), (bind_M_Ok _ _ _ _ _ E2). destruct st_seek0 as [S1 S2]. split.
  - destruct fs as [[mh mp] [dh dp]]. cbn in S1, S2. subst. reflexivity.
  - eapply stored_eq; [exact H|exact Hw2|by etrans].
Qed.

Lemma serve_ok st fs T m0 r : fs_stored st fs T m0 -> request_ok r -> answers fs m0 (serve fs r st) (spec_serve T r).
Proof.
  intros H Hr. destruct r as [path type|path|path data n pos|path n pos|]; cbn [request_ok spec_serve] in *.
  - by apply Create_ok.
  - by apply Remove_serve_ok.
  - destruct Hr as (? & ? & ?). by apply Write_serve_ok.
  - destruct Hr as (? & ?). by apply Read_serve_ok.
  - destruct (Mount_ok st fs T m0 H) as (st' & E & H'). cbn [serve answers]. rewrite (bind_M_Ok _ _ _ _ _ E).
    exists st'. split; [reflexivity|exact H'].
Qed.

Lemma answers_bind {A B} fs m0 (m : M St (A * FileSystem)) (k : A * FileSystem -> M St (B * FileSystem)) st spec spec' :
  answers fs m0 (m st) spec -> (forall a T' st', fs_stored st' fs T' m0 -> answers fs m0 (k (a, fs) st') (spec' (a, T'))) ->
  answers fs m0 ((m ≫= k) st) (and_then spec spec').
Proof.
  intros Hm Hk. unfold mbind, M_bind. destruct spec as [[[a T']| | | |]|]; cbn [answers and_then] in *; try done; [|by rewrite Hm..].
  destruct Hm as (st' & -> & H'). by apply Hk.
Qed.

Lemma serve_all_ok fs m0 rs st T : fs_stored st fs T m0 -> Forall request_ok rs ->
  answers fs m0 (serve_all fs rs st) (spec_serve_all T rs).
Proof.
  revert st T. induction rs as [|r rs IH]; intros st T H Hrs; [by exists st|]. apply Forall_cons in Hrs as [Hr Hrs].
  cbn [serve_all spec_serve_all]. apply answers_bind; [by apply serve_ok|]. intros a T' st' H'.
  apply answers_bind; [by apply IH|]. intros l T'' st'' H''. by exists st''.
Qed.

(** What formatting leaves is the tree with the root and the pipe. *)
Lemma formatted_stored st fs : store_wf st -> formatted st fs -> fs_stored st fs formatted_tree 3.
Proof.
  intros Hw (Hs & Hmap & (d & Hd & Hds & Hdm) & (B1 & I1 & T1 & L1 & S1) & _ & h & (B2 & I2 & H2 & A2 & S2) & L2 & C2 & T2).
  assert (inode_ok st DirectorySector (hdr (directoryFile fs)) [4; 5] (MkNode 2 [4; 5] (CDir ∅))) as Hroot.
  { constructor; try done; [apply Hd| |cbn [a_content content_ok]; split; [done|]; split; [done|]; by exists d].
    intros x. cbn [a_owned length]. split; [by left|]. intros [|[? _]]; [done|lia]. }
  assert (inode_ok st PipeSector h (range 6 14) (MkNode 8 (range 6 14) (CFile []))) as Hpipe.
  { constructor; try done.
    - intros x. cbn [a_owned]. change (length (range 6 14)) with 8%nat. split; [by left|]. intros [|[? _]]; [done|lia].
    - cbn [a_content content_ok]. rewrite T2, L2. done. }
  constructor; try done; cbn [formatted_tree nodes free].
  - apply formatted_tree_ok.
  - intros s a [[<- <-]|[_ [<- <-]%lookup_singleton_Some]]%lookup_insert_Some; eauto.
  - exists [4; 5], (MkNode 2 [4; 5] (CDir ∅)). split; [by rewrite lookup_insert_eq|done].
Qed.

(** * Properties *)

(** C2. The file system is the tree: on a disk that has just been formatted, every sequence of
    creations, removals, reads and writes by path and restarts of Nachos gives the answers
    that it gives on the tree of directories and files, with the same bytes read, the same
    requests refused, the same assertion failing when the disk is full, and leaves the disk
    standing for the resulting tree; up to a request of which the tree promises nothing. *)
Theorem file_system_refines_tree st rs : store_wf st -> Forall request_ok rs ->
  exists fs st0, FileSystem_new 2 true st = Ok (fs, st0) /\
    answers fs 3 (serve_all fs rs st0) (spec_serve_all formatted_tree rs).
Proof.
  intros Hw Hrs. destruct (format_ok st 1 Hw) as (fs & st0 & E & Hw0 & Hf). exists fs, st0. split; [exact E|].
  apply serve_all_ok; [by apply formatted_stored|done].
Qed.
End Disk.

(** ** Concrete inputs *)

#[local] Existing Instance SynchDisk.sample_instance.
#[local] Existing Instance OpenFile.sample_heap.

(** "/d", "/d/f" and "/g". *)
Definition path_d : list Z := [47; 100].
Definition path_df : list Z := [47; 100; 47; 102].
Definition path_g : list Z := [47; 103].
Definition sample_requests : list request :=
  [RCreate path_d TYPE_DIR; RCreate path_df TYPE_FILE; RWrite path_df (range 0 200) 200 0; RRead path_df 5 198;
   RCreate path_df TYPE_FILE; RCreate path_g TYPE_FILE; RMount; RWrite path_df [7; 8] 2 100; RRead path_df 100 99;
   RRemove path_df; RRead path_df 1 0; RRemove path_df].
Definition sample_replies : list reply :=
  [Done true; Done true; Wrote 200; Bytes 2 [198; 199]; Done false; Done true; Done true; Wrote 2; Bytes 3 [99; 7; 8];
   Done true; NoFile; Done false].

Example file_system_refines_tree_witness : exists fs st0 st',
  FileSystem_new 2 true (SynchDisk.sample_disk ∅) = Ok (fs, st0) /\
  serve_all fs sample_requests st0 = Ok ((sample_replies, fs), st').
Proof.
  destruct (file_system_refines_tree (SynchDisk.sample_disk ∅) sample_requests) as (fs & st0 & E & H).
  - apply SynchDisk.sample_disk_wf. intros t bs H. rewrite lookup_empty in H. discriminate H.
  - repeat constructor; by_compute.
  - assert (match spec_serve_all formatted_tree sample_requests with Some (Ok (l, _)) => l = sample_replies | _ => False end) as Hs
      by (vm_compute; reflexivity).
    destruct (spec_serve_all formatted_tree sample_requests) as [[[l T]| | | |]|]; try destruct Hs.
    destruct H as (st' & E' & _). exists fs, st0, st'. split; [exact E|exact E'].
Defined.
End FileTree.
