(* ===== verification/Dump.v ===== *)
(** Dump: what the file system prints of itself.

    Directory::List and FileSystem::List print the names of the root directory;
    FileSystem::Print prints the headers, the map and the whole tree of directories.  Text
    that is printed is a list of items.  The listing has the names of the root; the dump ends
    on every disk that stands for a tree, changes nothing and has exactly the names that can
    be reached. *)

From S2P Require Import Prelude Bitmap Disk SectorStore SynchDisk FileHdr OpenFile Directory FileSys FileTree.
From stdpp Require Import base numbers list gmap.
#[local] Open Scope Z_scope.

Module Dump.
Import Disk FileHdr OpenFile Directory FileSys.

(** What is printed: a character of a file, a name, an error of a command; of a dump the
    numbers of a header, a sector, the bits that are set, a name with its sector, the title
    of a directory and the line after it. *)
Inductive item :=
| Char (c : Z) | Name (nm : list Z) | NoInput | NoOutput | NoFileToPrint
| HeaderLine (limit capacity nsectors : Z) | Block (s : Z) | BitsSet (l : list Z) | NameSector (nm : list Z) (s : Z) | Contents | Blank.

(** The characters that [%s] prints of an array; nothing says what follows one without NUL. *)
Fixpoint until_nul (bs : list Z) : res (list Z) :=
  match bs with
  | [] => Undefined
  | x :: bs => if x =? 0 then Ok [] else l ← until_nul bs; Ok (x :: l)
  end.

(** Directory::List: the names in use, in the order of the table. *)
Definition dir_List (d : Directory) : res (list item) :=
  for_each (range 0 (tableSize d))
    (fun i l => e ← aget (table d) i; if used e then nm ← until_nul (name e); Ok (l ++ [Name nm]) else Ok l) [].

(** Bitmap::Print *)
Definition bits_Print (b : Bitmap.Bitmap) : res (list item) :=
  l ← for_each (range 0 (Bitmap.numBits b)) (fun i l => t ← Bitmap.Test b i; if (t : bool) then Ok (l ++ [i]) else Ok l) [];
  Ok [BitsSet l].

Section Ops.
Context {St : Type} {SS : SectorStore St} {HP : Heap St}.

(** FileSystem::List *)
Definition List (fs : FileSystem) : M St (list item) :=
  directory ← root_directory fs;
  lift (dir_List directory).

(** FileHeader::Print *)
Definition hdr_Print (h : FileHeader) : M St (list item) :=
  l ← lift (for_each (range 0 (Z.min (nsectors h) NumDirect))
              (fun i l => s ← aget (dataSectors h) i; if 0 <? s then Ok (l ++ [Block s]) else Ok l) []);
  l2 ← (if NumDirect <? u32 (nsectors h) then
          k ← lift (aget (dataSectors h) NumDirect);
          bs ← store_read k;
          mret (map Block (List.filter (fun s => negb (s =? 0)) (take 32 (bytes_to_ints bs))))
        else mret []);
  mret (HeaderLine (limit h) (capacity h) (nsectors h) :: l ++ l2).

(** The turns [ix] of the loop of Directory::Print; [print] is the call for a directory below. *)
Fixpoint print_entries (print : Directory -> M St (list item)) (d : Directory) (ix : list Z) : M St (list item) :=
  match ix with
  | [] => mret []
  | i :: ix =>
      e ← lift (aget (table d) i);
      l ← (if used e then
             nm ← lift (until_nul (name e));
             hdr ← FileHdr.FetchFrom (sector e);
             l1 ← hdr_Print hdr;
             l2 ← (if getFileType hdr =? TYPE_DIR then
                     subdir ← Directory_new;
                     subdirfile ← OpenFile_new (sector e);
                     subdir ← Directory.FetchFrom subdir subdirfile;
                     print subdir
                   else mret []);
             mret (NameSector nm (sector e) :: l1 ++ l2)
           else mret []);
      r ← print_entries print d ix;
      mret (l ++ r)
  end.

(** Directory::Print; [fuel] bounds the depth of the tree. *)
Fixpoint dir_Print (fuel : nat) (d : Directory) : M St (list item) :=
  match fuel with
  | O => fun _ => OutOfFuel
  | S fuel => l ← print_entries (dir_Print fuel) d (range 0 (tableSize d)); mret (Contents :: l ++ [Blank])
  end.

(** FileSystem::Print *)
Definition Print (fuel : nat) (fs : FileSystem) : M St (list item) :=
  freeMap ← PBitmap_open (freeMapFile fs) NumSectors;
  directory ← Directory_sized NumDirEntries;
  bitHdr ← FileHdr.FetchFrom FreeMapSector;
  l1 ← hdr_Print bitHdr;
  dirHdr ← FileHdr.FetchFrom DirectorySector;
  l2 ← hdr_Print dirHdr;
  l3 ← lift (bits_Print freeMap);
  directory ← Directory.FetchFrom directory (directoryFile fs);
  l4 ← dir_Print fuel directory;
  mret (l1 ++ l2 ++ l3 ++ l4).
End Ops.

Import FileTree.

(** ** Listing *)

(** Names of nine characters fill their array, and List may print on past them. *)
Definition short_names (T : fstree) : bool :=
  forallb (fun e : list Z * Z => (length e.1 <? 9)%nat) (map_to_list (root_names T)).

Lemma until_nul_short n bs : (length (cstr n bs) < n)%nat -> (n <= length bs)%nat -> until_nul bs = Ok (cstr n bs).
Proof.
  revert bs. induction n as [|n IH]; intros bs Hl Hb; [lia|]. destruct bs as [|x bs]; [cbn in Hb; lia|]. cbn [until_nul cstr length] in *.
  destruct (x =? 0); [done|]. cbn [length] in Hl. by rewrite IH by lia.
Qed.

Lemma entries_short d : dir_wf d -> forallb (fun e : list Z * Z => (length e.1 <? 9)%nat) (map_to_list (dir_map d)) = true ->
  forall e, e ∈ entries (table d) -> (length e.1 < 9)%nat.
Proof.
  intros Hw Hs e He. rewrite List.forallb_forall in Hs. apply Nat.ltb_lt, Hs. apply list_elem_of_In.
  unfold dir_map. by rewrite map_to_list_to_map by apply Hw.
Qed.

Lemma dir_List_ok d : dir_wf d -> (forall e, e ∈ entries (table d) -> (length e.1 < 9)%nat) ->
  dir_List d = Ok (map (fun e => Name e.1) (entries (table d))).
Proof.
  intros [Hn Hl _] Hs. unfold dir_List. rewrite Hn.
  match goal with |- for_each _ ?b _ = _ => destruct (for_each_inv
    (fun i l => l = map (fun e => Name e.1) (entries (take (Z.to_nat i) (table d)))) b 0 (Z.of_nat (length (table d))) []) as (l & -> & ->) end;
    [lia|done| |by rewrite Nat2Z.id, take_ge by lia].
  intros i l Hi ->. destruct (aget_in (table d) i) as (e & He & ->); [lia|]. cbn [mbind res_bind].
  replace (Z.to_nat (i + 1)) with (S (Z.to_nat i)) by lia. rewrite (take_S_r _ _ e) by done. rewrite entries_app, entries_cons.
  destruct (used e) eqn:Hu; [|exists (map (fun e => Name e.1) (entries (take (Z.to_nat i) (table d)))); by rewrite app_nil_r].
  rewrite (until_nul_short 9); cbn [mbind res_bind]; [rewrite map_app; eauto| |].
  - apply (Hs (name_of e, sector e)). unfold entries. apply list_elem_of_fmap. exists e. split; [done|].
    apply list_elem_of_filter. split; [done|]. by eapply list_elem_of_lookup_2.
  - rewrite Forall_lookup in Hl. rewrite (Hl _ _ He). lia.
Qed.

(** ** The tree below the root *)

(** A directory that can be reached, after those on the way to it. *)
Inductive chain T : list Z -> Prop :=
| chain_root : chain T [DirectorySector]
| chain_down p l a k s : chain T (p :: l) -> nodes T !! p = Some a -> names_of a !! k = Some s -> chain T (s :: p :: l).

(** Name [k], of sector [s], is in directory [p] or below it. *)
Inductive shows T (p : Z) (k : list Z) (s : Z) : Prop :=
| shows_here a : nodes T !! p = Some a -> names_of a !! k = Some s -> shows T p k s
| shows_below a k0 s0 : nodes T !! p = Some a -> names_of a !! k0 = Some s0 -> shows T s0 k s -> shows T p k s.

(** A way to a directory is the only one. *)
Lemma chain_unique m0 T l : tree_ok m0 T -> chain T l -> forall l', chain T l' -> head l' = head l -> l' = l.
Proof.
  intros H. induction 1 as [|p l a k s Hc IH Ha Hk]; intros l' Hl' Hh.
  - inversion Hl' as [|p' l0 a' k' s' Hc' Ha' Hk' E]; subst; [done|]. cbn in Hh. injection Hh as ->.
    destruct (to_closed _ _ H _ _ _ _ Ha' Hk') as (_ & _ & []); done.
  - inversion Hl' as [E|p' l0 a' k' s' Hc' Ha' Hk' E]; subst; cbn in Hh; injection Hh as Hs.
    + destruct (to_closed _ _ H _ _ _ _ Ha Hk) as (_ & _ & []); done.
    + subst s'. destruct (to_parent _ _ H _ _ _ _ _ _ _ Ha' Ha Hk' Hk) as [-> _]. f_equal. by apply IH.
Qed.

Lemma chain_suffix T l1 s l2 : chain T (l1 ++ s :: l2) -> chain T (s :: l2).
Proof.
  induction l1 as [|x l1 IH]; intros Hc; [done|]. apply IH. cbn [app] in Hc. inversion Hc as [E|p' l0 a' k' s' Hc' Ha' Hk' E]; subst; [|congruence].
  by destruct l1.
Qed.

Lemma chain_NoDup m0 T l : tree_ok m0 T -> chain T l -> NoDup l.
Proof.
  intros H Hc. induction l as [|s l IH]; [constructor|]. constructor.
  - intros (l1 & l2 & ->)%list_elem_of_split. pose proof (chain_suffix T (s :: l1) s l2 Hc) as Hc2.
    pose proof (chain_unique m0 T _ H Hc _ Hc2 eq_refl) as E. apply (f_equal length) in E. cbn in E. rewrite length_app in E. cbn in E. lia.
  - inversion Hc; subst; [constructor|by apply IH].
Qed.

Lemma chain_sector m0 T l s : tree_ok m0 T -> chain T l -> s ∈ l -> s ∈ range 1 1024.
Proof.
  intros H Hc (l1 & l2 & ->)%list_elem_of_split. apply chain_suffix in Hc. rewrite elem_of_range.
  assert (exists a, nodes T !! s = Some a) as [a Ha].
  { inversion Hc; subst; [destruct (to_root _ _ H) as (a & ? & Ha & _); by exists a|].
    by match goal with Hn : names_of _ !! _ = Some s, Hp : nodes T !! _ = Some _ |- _ => destruct (to_closed _ _ H _ _ _ _ Hp Hn) as ([b ?] & _); exists b end. }
  pose proof (node_range _ _ _ _ H Ha) as Hr. change NumSectors with 1024 in Hr. lia.
Qed.

(** No way is longer than the disk has sectors. *)
Lemma chain_bounded m0 T l : tree_ok m0 T -> chain T l -> (length l <= 1023)%nat.
Proof.
  intros H Hc. change 1023%nat with (length (range 1 1024)). apply submseteq_length, NoDup_submseteq; [by eapply chain_NoDup|].
  intros s Hs. by eapply chain_sector.
Qed.

(** No name is so long that more than itself may be printed. *)
Definition all_short (T : fstree) : bool :=
  forallb (fun n : Z * anode => forallb (fun e : list Z * Z => (length e.1 <? 9)%nat) (map_to_list (names_of n.2))) (map_to_list (nodes T)).

Lemma all_short_node T p a : all_short T = true -> nodes T !! p = Some a ->
  forallb (fun e : list Z * Z => (length e.1 <? 9)%nat) (map_to_list (names_of a)) = true.
Proof.
  intros H Hp. unfold all_short in H. rewrite List.forallb_forall in H. apply (H (p, a)). apply list_elem_of_In. by apply elem_of_map_to_list.
Qed.

(** The entries of the indirect table that are not 0 are the sectors after the first 24. *)
Lemma table_entries bl : (length bl <= 56)%nat -> Forall (fun s => s <> 0) (drop 24 bl) ->
  List.filter (fun s => negb (s =? 0)) (map (fun j => default 0 (bl !! (24 + j)%nat)) (seq 0 32)) = drop 24 bl.
Proof.
  intros Hl Hz. assert (map (fun j => default 0 (bl !! (24 + j)%nat)) (seq 0 32) = drop 24 bl ++ replicate (32 - length (drop 24 bl)) 0) as ->.
  { apply list_eq. intros i. rewrite list_lookup_fmap. destruct (decide (i < 32)%nat) as [Hi|Hi].
    - rewrite lookup_seq_lt by done. cbn [fmap option_fmap option_map]. rewrite Nat.add_0_l. destruct (bl !! (24 + i)%nat) as [x|] eqn:E.
      + rewrite lookup_app_l, lookup_drop by (apply lookup_lt_Some in E; rewrite length_drop; lia). symmetry. exact E.
      + apply lookup_ge_None in E. rewrite lookup_app_r by (rewrite length_drop; lia). rewrite lookup_replicate_2; [done|]. rewrite length_drop. lia.
    - rewrite lookup_seq_ge by lia. rewrite lookup_app_r by (rewrite length_drop; lia). rewrite lookup_ge_None_2; [done|]. rewrite length_replicate, length_drop. lia. }
  rewrite List.filter_app. assert (forall n, List.filter (fun s => negb (s =? 0)) (replicate n 0) = []) as -> by (induction n; done).
  rewrite app_nil_r. induction Hz as [|x l Hx _ IH]; [done|]. cbn [List.filter]. rewrite (proj2 (Z.eqb_neq x 0)) by done. cbn [negb]. by rewrite IH.
Qed.

Section Proofs.
Context {St : Type} {SS : SectorStore St} {HP : Heap St}.
Implicit Types (st : St) (T : fstree).

Lemma List_ok st fs T m0 : fs_stored st fs T m0 -> short_names T = true ->
  exists l st', List fs st = Ok (l, st') /\ fs_stored st' fs T m0 /\ l ≡ₚ map (fun e => Name e.1) (map_to_list (root_names T)).
Proof.
  intros H Hs. destruct (lookup_ok st fs T m0 [] H) as (d & st1 & E & Hd & _ & Hm & H1 & _); [apply Forall_nil; exact I|].
  unfold short_names in Hs. rewrite <- Hm in Hs |- *. destruct Hd as [Hw _]. unfold List. rewrite (bind_M_Ok _ _ _ _ _ E).
  rewrite (dir_List_ok d Hw) by (by apply entries_short). eexists _, st1. split; [reflexivity|]. split; [done|].
  unfold dir_map. by rewrite map_to_list_to_map by apply Hw.
Qed.


(** ** The dump *)

(** A header is printed as its numbers and all its sectors, in order. *)
Lemma hdr_Print_ok st h bl : store_wf st -> holds st h bl ->
  exists st', hdr_Print h st = Ok (HeaderLine (limit h) (capacity h) (nsectors h) :: map Block bl, st') /\ store_wf st' /\ store_eq st st'.
Proof.
  intros Hw Hh. pose proof Hh as []. unfold hdr_Print. change NumDirect with 24. rewrite u32_id by (unfold is_u32; lia).
  match goal with |- context [lift (for_each ?ix ?b ?s)] => assert (for_each ix b s = Ok (map Block (take 24 bl))) as E end.
  { rewrite ho_n0. match goal with |- for_each _ ?b _ = _ => destruct (for_each_inv (fun i l => l = map Block (take (Z.to_nat i) bl)) b
      0 (Z.min (Z.of_nat (length bl)) 24) []) as (l & -> & ->) end; [lia|done| |].
    - intros i l Hi ->. destruct (lookup_lt_is_Some_2 bl (Z.to_nat i)) as [s Hs]; [lia|].
      assert (dataSectors h !! Z.to_nat i = Some s) as Hd by (rewrite ho_direct0 by lia; by rewrite Hs).
      rewrite (aget_Some (dataSectors h) i s) by (done || lia). cbn [mbind res_bind]. rewrite Forall_lookup in ho_range0. specialize (ho_range0 _ _ Hs).
      rewrite (proj2 (Z.ltb_lt 0 s)) by lia. eexists. split; [done|]. replace (Z.to_nat (i + 1)) with (S (Z.to_nat i)) by lia.
      by rewrite (take_S_r _ _ s), map_app by done.
    - do 2 f_equal. destruct (decide (length bl <= 24)%nat); [rewrite !take_ge by lia; done|]. f_equal. lia. }
  rewrite E, bind_lift_Ok. destruct (Z.ltb_spec 24 (nsectors h)) as [Hlt|Hge].
  - destruct ho_ind0 as (Hk & _ & _); [lia|].
    assert (aget (dataSectors h) 24 = Ok (indirect h)) as Ei.
    { destruct (lookup_lt_is_Some_2 (dataSectors h) 24) as [k Ek]; [lia|]. rewrite (aget_Some _ 24 k) by (done || lia). unfold indirect. by rewrite Ek. }
    destruct (store_read_ok st (indirect h)) as (st' & E2 & Hw' & He); [done|lia|]. exists st'. split; [|done].
    rewrite (bind_M_Ok _ _ st st' (map Block (drop 24 bl))).
    + rewrite <- map_app, take_drop. done.
    + rewrite Ei, bind_lift_Ok, (bind_M_Ok _ _ _ _ _ E2). fold (FileHdr.table st (indirect h)). rewrite (table_holds st h bl) by (done || lia).
      unfold mret, M_ret. do 3 f_equal. rewrite take_ge by (rewrite length_map, length_seq; lia). apply table_entries; [lia|].
      apply Forall_drop. eapply Forall_impl; [exact ho_range0|]. cbn. lia.
  - exists st. rewrite bind_ret_Ok. rewrite app_nil_r, take_ge by lia. done.
Qed.

Lemma entry_name d i e : dir_wf d -> table d !! i = Some e -> used e = true -> dir_map d !! name_of e = Some (sector e).
Proof.
  intros Hw Hi Hu. apply elem_of_list_to_map; [apply Hw|]. apply list_elem_of_fmap. exists e. split; [done|].
  apply list_elem_of_filter. split; [done|]. by eapply list_elem_of_lookup_2.
Qed.

Lemma name_entry d k s : dir_wf d -> dir_map d !! k = Some s -> exists i e, table d !! i = Some e /\ used e = true /\ k = name_of e /\ s = sector e.
Proof.
  intros Hw Hk. apply elem_of_list_to_map in Hk; [|apply Hw]. apply list_elem_of_fmap in Hk as (e & E & [Hu Hin]%list_elem_of_filter).
  injection E as -> ->. apply list_elem_of_lookup in Hin as [i Hi]. by exists i, e.
Qed.

(** What the turn for a used entry prints, besides the header's lines. *)
Definition printed T (e : DirectoryEntry) (l : list item) : Prop :=
  forall nm s, NameSector nm s ∈ l <-> (nm = name_of e /\ s = sector e) \/ shows T (sector e) nm s.

Lemma in_header nm s l c n bl : NameSector nm s ∈ HeaderLine l c n :: map Block bl <-> False.
Proof.
  split; [|done]. intros [E|(x & E & _)%list_elem_of_fmap]%elem_of_cons; discriminate E.
Qed.

Lemma print_entry_ok fs T m0 p d a m (print : Directory -> M St (list item)) i e st : fs_stored st fs T m0 ->
  nodes T !! p = Some a -> a_content a = CDir m -> dir_ok d -> dir_map d = m -> all_short T = true ->
  (forall st k s0 b mb d', fs_stored st fs T m0 -> m !! k = Some s0 -> nodes T !! s0 = Some b -> a_content b = CDir mb -> dir_ok d' -> dir_map d' = mb ->
     exists l st', print d' st = Ok (l, st') /\ fs_stored st' fs T m0 /\ forall nm s, NameSector nm s ∈ l <-> shows T s0 nm s) ->
  table d !! i = Some e -> used e = true ->
  exists l st', (nm ← lift (until_nul (name e)); hdr ← FileHdr.FetchFrom (sector e); l1 ← hdr_Print hdr;
      l2 ← (if getFileType hdr =? TYPE_DIR then
              subdir ← Directory_new; subdirfile ← OpenFile_new (sector e); subdir ← Directory.FetchFrom subdir subdirfile; print subdir
            else mret []);
      mret (NameSector nm (sector e) :: l1 ++ l2)) st = Ok (l, st') /\ fs_stored st' fs T m0 /\ printed T e l.
Proof.
  intros H Hp Hm Hd Hdm Hsh Hrec Hi Hu. pose proof Hd as (Hw & Hsz & Hen & _). assert (names_of a = m) as Hna by (unfold names_of; by rewrite Hm).
  pose proof (entry_name d i e Hw Hi Hu) as Hk. rewrite Hdm in Hk.
  assert (until_nul (name e) = Ok (name_of e)) as En.
  { apply (until_nul_short 9); [|pose proof (dw_names d Hw) as Hn; rewrite Forall_lookup in Hn; rewrite (Hn _ _ Hi); lia].
    pose proof (all_short_node T p a Hsh Hp) as Hs. rewrite Hna, <- Hdm in Hs. apply (entries_short d Hw Hs (name_of e, sector e)).
    apply list_elem_of_fmap. exists e. split; [done|]. apply list_elem_of_filter. split; [done|]. by eapply list_elem_of_lookup_2. }
  rewrite En, bind_lift_Ok. destruct (to_closed _ _ (st_tree _ _ _ _ H) p a (name_of e) (sector e) Hp) as ([b Hb] & _); [by rewrite Hna|].
  pose proof (node_range _ _ _ _ (st_tree _ _ _ _ H) Hb) as Hr. destruct (st_nodes _ _ _ _ H _ _ Hb) as (h & bl & Hin).
  destruct (header_FetchFrom_ok st (sector e) h) as (st1 & E1 & Hw1 & He1); [apply H|lia|apply Hin|apply Hin|]. rewrite (bind_M_Ok _ _ _ _ _ E1).
  destruct (hdr_Print_ok st1 h bl) as (st2 & E2 & Hw2 & He2); [done|by eapply holds_store_eq; [|apply Hin]|]. rewrite (bind_M_Ok _ _ _ _ _ E2).
  assert (fs_stored st2 fs T m0) as H2 by (eapply stored_eq; [exact H|exact Hw2|by etrans]). unfold getFileType.
  pose proof (io_content _ _ _ _ _ Hin) as Hct. destruct (a_content b) as [mb|bytes] eqn:Hcb.
  - destruct Hct as (Hty & _). rewrite Hty. change (TYPE_DIR =? TYPE_DIR) with true. cbv iota.
    destruct (open_parent_ok st2 fs T m0 (sector e) b mb H2 Hb Hcb) as (d' & h' & bl' & st3 & E3 & Hd' & _ & Hm' & H3 & _).
    destruct (Hrec st3 (name_of e) (sector e) b mb d' H3 Hk Hb Hcb Hd' Hm') as (l & st4 & E4 & H4 & Hl).
    exists (NameSector (name_of e) (sector e) :: (HeaderLine (limit h) (capacity h) (nsectors h) :: map Block bl) ++ l), st4.
    rewrite (bind_M_Ok _ _ st2 st4 l); [split; [reflexivity|]; split; [done|]|].
    + intros nm s. rewrite elem_of_cons, elem_of_app, in_header, Hl. split; [intros [E|[[]|]]; [left; injection E as -> ->; done|by right]|].
      intros [[-> ->]|]; [by left|by right; right].
    + unfold open_parent in E3. revert E3. unfold mbind, M_bind. destruct (Directory_new st2) as [[d0 st2']| | | |]; [|done..].
      destruct (OpenFile_new (sector e) st2') as [[f0 st2'']| | | |]; [|done..]. destruct (Directory.FetchFrom d0 f0 st2'') as [[d1 st2''']| | | |]; [|done..].
      by intros [= <- _ <-].
  - destruct Hct as (Hty & _). rewrite (proj2 (Z.eqb_neq _ _)) by done. rewrite bind_ret_Ok. eexists _, st2. split; [reflexivity|]. split; [done|].
    intros nm s. rewrite app_nil_r, elem_of_cons, in_header. split; [intros [E|[]]; left; by injection E as -> ->|].
    intros [[-> ->]|Hs]; [by left|]. exfalso. assert (names_of b = ∅) as Hnb by (unfold names_of; by rewrite Hcb).
    destruct Hs as [b' Hb' Hk'|b' k0 s0 Hb' Hk' _]; (assert (b' = b) as -> by congruence; by rewrite Hnb, lookup_empty in Hk').
Qed.

Lemma print_entries_ok fs T m0 p d a m print ix : nodes T !! p = Some a -> a_content a = CDir m -> dir_ok d -> dir_map d = m -> all_short T = true ->
  (forall st k s0 b mb d', fs_stored st fs T m0 -> m !! k = Some s0 -> nodes T !! s0 = Some b -> a_content b = CDir mb -> dir_ok d' -> dir_map d' = mb ->
     exists l st', print d' st = Ok (l, st') /\ fs_stored st' fs T m0 /\ forall nm s, NameSector nm s ∈ l <-> shows T s0 nm s) ->
  Forall (fun i => 0 <= i < 10) ix -> forall st, fs_stored st fs T m0 ->
  exists l st', print_entries print d ix st = Ok (l, st') /\ fs_stored st' fs T m0 /\
    forall nm s, NameSector nm s ∈ l <-> exists i e, i ∈ ix /\ table d !! Z.to_nat i = Some e /\ used e = true /\
      ((nm = name_of e /\ s = sector e) \/ shows T (sector e) nm s).
Proof.
  intros Hp Hm Hd Hdm Hsh Hrec Hix. pose proof Hd as (Hw & Hsz & Hen & _). induction Hix as [|i ix Hi Hix IH]; intros st H.
  { exists [], st. split; [done|]. split; [done|]. intros nm s. split; [by intros []%not_elem_of_nil|]. by intros (i & e & []%not_elem_of_nil & _). }
  assert (names_of a = m) as Hna by (unfold names_of; by rewrite Hm). cbn [print_entries].
  destruct (aget_in (table d) i) as (e & He & ->); [pose proof (dw_size d Hw); lia|]. rewrite bind_lift_Ok.
  assert (exists l st1, (if used e then
      nm ← lift (until_nul (name e)); hdr ← FileHdr.FetchFrom (sector e); l1 ← hdr_Print hdr;
      l2 ← (if getFileType hdr =? TYPE_DIR then
              subdir ← Directory_new; subdirfile ← OpenFile_new (sector e); subdir ← Directory.FetchFrom subdir subdirfile; print subdir
            else mret []);
      mret (NameSector nm (sector e) :: l1 ++ l2) else mret []) st = Ok (l, st1) /\ fs_stored st1 fs T m0 /\
      if used e then printed T e l else l = []) as (l & st1 & E1 & H1 & Hl).
  { destruct (used e) eqn:Hu; [|by exists [], st]. eapply print_entry_ok; try done. }
  rewrite (bind_M_Ok _ _ _ _ _ E1). destruct (IH st1 H1) as (r & st2 & E2 & H2 & Hr). rewrite (bind_M_Ok _ _ _ _ _ E2).
  exists (l ++ r), st2. split; [done|]. split; [done|]. intros nm s. rewrite elem_of_app, Hr. split.
  - intros [Hin|(i' & e' & Hin & ?)]; [|exists i', e'; split; [by right|done]].
    destruct (used e) eqn:Hu; [|subst l; by apply elem_of_nil in Hin]. apply Hl in Hin. exists i, e. split; [left|done].
  - intros (i' & e' & Hin & He' & Hu' & Hor). apply elem_of_cons in Hin as [->|Hin]; [left|right; eauto 10].
    replace e' with e in * by congruence. rewrite Hu' in Hl. by apply Hl.
Qed.

(** The recursion ends: no way down is longer than the disk has sectors. *)
Lemma dir_Print_ok fs T m0 fuel : all_short T = true -> forall st p ps a m d, fs_stored st fs T m0 -> chain T (p :: ps) ->
  (1024 <= length (p :: ps) + fuel)%nat -> nodes T !! p = Some a -> a_content a = CDir m -> dir_ok d -> dir_map d = m ->
  exists l st', dir_Print fuel d st = Ok (l, st') /\ fs_stored st' fs T m0 /\ forall nm s, NameSector nm s ∈ l <-> shows T p nm s.
Proof.
  intros Hsh. induction fuel as [|fuel IH]; intros st p ps a m d H Hc Hf Hp Hm Hd Hdm.
  { pose proof (chain_bounded m0 T _ (st_tree _ _ _ _ H) Hc). lia. }
  assert (names_of a = m) as Hna by (unfold names_of; by rewrite Hm). pose proof Hd as (Hw & Hsz & _).
  destruct (print_entries_ok fs T m0 p d a m (dir_Print fuel) (range 0 (tableSize d)) Hp Hm Hd Hdm Hsh) with (st := st)
    as (l & st1 & E & H1 & Hl); [| |done|].
  - intros st' k s0 b mb d' H' Hk Hb Hcb Hd' Hdm'. apply (IH st' s0 (p :: ps) b mb d'); try done; [|cbn [length] in *; lia].
    apply (chain_down T p ps a k s0); [done|done|by rewrite Hna].
  - apply Forall_forall. intros i. rewrite elem_of_range. lia.
  - cbn [dir_Print]. rewrite (bind_M_Ok _ _ _ _ _ E). eexists _, st1. split; [reflexivity|]. split; [done|].
    intros nm s. rewrite elem_of_cons, elem_of_app, list_elem_of_singleton, Hl. split.
    + intros [?|[(i & e & _ & Hi & Hu & Hor)|?]]; [done| |done]. pose proof (entry_name d _ e Hw Hi Hu) as Hk. rewrite Hdm, <- Hna in Hk.
      destruct Hor as [[-> ->]|Hs]; [by eapply shows_here|by eapply shows_below].
    + intros Hs. right; left. destruct Hs as [a' Ha' Hk|a' k0 s0 Ha' Hk Hs]; replace a' with a in * by congruence; rewrite Hna, <- Hdm in Hk;
        destruct (name_entry d _ _ Hw Hk) as (i & e & Hi & Hu & -> & ->); exists (Z.of_nat i), e; rewrite Nat2Z.id, elem_of_range;
        (split; [pose proof (lookup_lt_Some _ _ _ Hi); pose proof (dw_size d Hw); lia|]); auto.
Qed.

(** The map is printed as the sectors in use. *)
Lemma bits_Print_ok fm cb : free_map fm cb -> exists l, bits_Print fm = Ok [BitsSet l] /\ forall x, x ∈ l <-> 0 <= x < NumSectors /\ x ∉ cb.
Proof.
  intros (Hf & Hn & _). pose proof Hf as [Hw _]. unfold bits_Print. rewrite Hn.
  match goal with |- context [for_each _ ?b _] => destruct (for_each_inv
    (fun i l => forall x, x ∈ l <-> 0 <= x < i /\ x ∉ cb) b 0 NumSectors []) as (l & -> & Hl) end; [done| | |by exists l].
  - intros x. split; [by intros []%not_elem_of_nil|lia].
  - intros i l Hi Hl. rewrite Bitmap.Test_spec by (done || lia). cbn [mbind res_bind]. pose proof (Bitmap.free_list_bit fm cb i Hf ltac:(lia)) as Hb.
    destruct (Bitmap.bit fm i) eqn:Ebit; eexists; (split; [done|]); intros x; rewrite ?elem_of_app, ?list_elem_of_singleton, Hl.
    + assert (i ∉ cb) by (rewrite <- Hb; done). split; [intros [? | ->]; [split; [lia|tauto]|split; [lia|done]]|].
      intros [? ?]. destruct (decide (x = i)); [by right|left]. split; [lia|done].
    + assert (i ∈ cb) by (by apply Hb). split; [intros [? ?]; split; [lia|done]|]. intros [? ?]. destruct (decide (x = i)); [congruence|]. split; [lia|done].
Qed.

(** What a dump of the tree shows: the sectors in use, and every name that can be reached, with
    its sector. *)
Definition dump_of T (l : list item) : Prop :=
  (exists u, BitsSet u ∈ l /\ forall x, x ∈ u <-> 0 <= x < NumSectors /\ x ∉ free T) /\
  forall nm s, NameSector nm s ∈ l <-> shows T DirectorySector nm s.

Lemma header_sectors : 0 <= FreeMapSector < NumSectors /\ 0 <= DirectorySector < NumSectors.
Proof. done. Qed.

Lemma Print_dump_ok st fs T m0 : fs_stored st fs T m0 -> all_short T = true ->
  exists l st', Print 1024 fs st = Ok (l, st') /\ fs_stored st' fs T m0 /\ dump_of T l.
Proof.
  intros H Hsh. destruct (open_map_ok st fs T m0 H) as (fm & st1 & E1 & Hfm & H1 & _). unfold Print. rewrite (bind_M_Ok _ _ _ _ _ E1).
  destruct (Directory_sized_shape NumDirEntries st1) as (d0 & E0 & Hs0 & _ & Ht0); [done|]. rewrite (bind_M_Ok _ _ _ _ _ E0).
  destruct (st_map _ _ _ _ H1) as [fm1 Hmap1].
  destruct (header_FetchFrom_ok st1 FreeMapSector (hdr (freeMapFile fs))) as (st2 & E2 & Hw2 & He2);
    [exact (st_wf _ _ _ _ H1)|exact (proj1 header_sectors)|exact (md_hdr _ _ _ _ _ Hmap1)|exact (md_i32 _ _ _ _ _ Hmap1)|].
  rewrite (bind_M_Ok _ _ _ _ _ E2). pose proof (stored_eq _ _ _ _ _ H1 Hw2 He2) as H2. destruct (st_map _ _ _ _ H2) as [fm2 Hmap2].
  destruct (hdr_Print_ok st2 (hdr (freeMapFile fs)) [m0]) as (st3 & E3 & Hw3 & He3); [exact Hw2|exact (md_holds _ _ _ _ _ Hmap2)|]. rewrite (bind_M_Ok _ _ _ _ _ E3).
  pose proof (stored_eq _ _ _ _ _ H2 Hw3 He3) as H3. destruct (st_root _ _ _ _ H3) as (bl & a & Ha & Hi).
  destruct (header_FetchFrom_ok st3 DirectorySector (hdr (directoryFile fs))) as (st4 & E4 & Hw4 & He4);
    [exact Hw3|exact (proj2 header_sectors)|exact (io_header _ _ _ _ _ Hi)|exact (io_i32 _ _ _ _ _ Hi)|].
  rewrite (bind_M_Ok _ _ _ _ _ E4). pose proof (stored_eq _ _ _ _ _ H3 Hw4 He4) as H4. destruct (st_root _ _ _ _ H4) as (bl4 & a4 & Ha4 & Hi4).
  destruct (hdr_Print_ok st4 (hdr (directoryFile fs)) bl4) as (st5 & E5 & Hw5 & He5); [exact Hw4|exact (io_holds _ _ _ _ _ Hi4)|]. rewrite (bind_M_Ok _ _ _ _ _ E5).
  pose proof (stored_eq _ _ _ _ _ H4 Hw5 He5) as H5. destruct (bits_Print_ok fm _ Hfm) as (u & Eu & Hu). rewrite Eu, bind_lift_Ok.
  destruct (st_root _ _ _ _ H5) as (bl5 & a5 & Ha5 & Hi5). destruct (to_root _ _ (st_tree _ _ _ _ H)) as (a' & m & Ha' & Hm).
  replace a5 with a' in * by congruence. pose proof (io_content _ _ _ _ _ Hi5) as Hct. rewrite Hm in Hct. destruct Hct as (_ & _ & d & Hd & _ & Hdm).
  destruct (dir_FetchFrom_ok st5 (directoryFile fs) bl5 d d0) as (st6 & E6 & Hw6 & He6); [exact Hw5|exact Hd|exact Hs0|by apply Ht0|]. rewrite (bind_M_Ok _ _ _ _ _ E6).
  pose proof (stored_eq _ _ _ _ _ H5 Hw6 He6) as H6.
  destruct (dir_Print_ok fs T m0 1024 Hsh st6 DirectorySector [] a' m d H6 (chain_root T) ltac:(cbn; lia) Ha' Hm) as (l & st7 & E7 & H7 & Hl); [apply Hd|done|].
  rewrite (bind_M_Ok _ _ _ _ _ E7). eexists _, st7. split; [reflexivity|]. split; [done|]. split.
  - exists u. split; [|done]. rewrite !elem_of_app. right; right; left. left.
  - intros nm s. rewrite !elem_of_app, !in_header, Hl, list_elem_of_singleton. split; [intros [[]|[[]|[?|?]]]; done|tauto].
Qed.
End Proofs.
End Dump.
