(* ===== verification/Commands.v ===== *)
(** Commands: what the command line of nachos asks of the file system.

    The arguments are read twice, by main and by the constructor of Kernel, each for its own
    flags.  Then main removes, copies, lists and prints files, in that order.  A file of the
    UNIX side is its bytes; text that is printed is a list of items. *)

From S2P Require Import Prelude Bitmap Disk SectorStore SynchDisk FileHdr OpenFile Directory FileSys FileTree Dump.
From Stdlib Require Import String Ascii.
From stdpp Require Import base numbers list gmap.
#[local] Open Scope Z_scope.

Module Commands.
Import Disk FileHdr OpenFile Directory FileSys.
Import Dump(item, Char, Name, NoInput, NoOutput, NoFileToPrint, short_names, all_short, dump_of, List_ok, Print_dump_ok).

(** * The command line *)

(** A C string, from a literal of the source. *)
Definition str (s : string) : list Z := map (fun a => Z.of_nat (nat_of_ascii a)) (list_ascii_of_string s).
(** [strcmp(a, b) == 0] *)
Definition same (a b : list Z) : bool := bool_decide (a = b).

(** What the first loop of main sets; [texts] counts the texts that it prints. *)
Record MainFlags := MkMain {
  debugArg : list Z; userProgName : option (list Z); threadTestFlag : bool; consoleTestFlag : bool; networkTestFlag : bool;
  copyFileNames : option (list Z * list Z); printFileName : option (list Z); removeFileName : option (list Z);
  dirListFlag : bool; dumpFlag : bool; texts : nat
}.
Definition main_defaults : MainFlags := MkMain [] None false false false None None None false false 0.

Definition set_debug s m := MkMain s (userProgName m) (threadTestFlag m) (consoleTestFlag m) (networkTestFlag m) (copyFileNames m) (printFileName m) (removeFileName m) (dirListFlag m) (dumpFlag m) (texts m).
Definition set_prog s m := MkMain (debugArg m) (Some s) (threadTestFlag m) (consoleTestFlag m) (networkTestFlag m) (copyFileNames m) (printFileName m) (removeFileName m) (dirListFlag m) (dumpFlag m) (texts m).
Definition set_threads m := MkMain (debugArg m) (userProgName m) true (consoleTestFlag m) (networkTestFlag m) (copyFileNames m) (printFileName m) (removeFileName m) (dirListFlag m) (dumpFlag m) (texts m).
Definition set_console m := MkMain (debugArg m) (userProgName m) (threadTestFlag m) true (networkTestFlag m) (copyFileNames m) (printFileName m) (removeFileName m) (dirListFlag m) (dumpFlag m) (texts m).
Definition set_network m := MkMain (debugArg m) (userProgName m) (threadTestFlag m) (consoleTestFlag m) true (copyFileNames m) (printFileName m) (removeFileName m) (dirListFlag m) (dumpFlag m) (texts m).
Definition set_copy u n m := MkMain (debugArg m) (userProgName m) (threadTestFlag m) (consoleTestFlag m) (networkTestFlag m) (Some (u, n)) (printFileName m) (removeFileName m) (dirListFlag m) (dumpFlag m) (texts m).
Definition set_print s m := MkMain (debugArg m) (userProgName m) (threadTestFlag m) (consoleTestFlag m) (networkTestFlag m) (copyFileNames m) (Some s) (removeFileName m) (dirListFlag m) (dumpFlag m) (texts m).
Definition set_remove s m := MkMain (debugArg m) (userProgName m) (threadTestFlag m) (consoleTestFlag m) (networkTestFlag m) (copyFileNames m) (printFileName m) (Some s) (dirListFlag m) (dumpFlag m) (texts m).
Definition set_list m := MkMain (debugArg m) (userProgName m) (threadTestFlag m) (consoleTestFlag m) (networkTestFlag m) (copyFileNames m) (printFileName m) (removeFileName m) true (dumpFlag m) (texts m).
Definition set_dump m := MkMain (debugArg m) (userProgName m) (threadTestFlag m) (consoleTestFlag m) (networkTestFlag m) (copyFileNames m) (printFileName m) (removeFileName m) (dirListFlag m) true (texts m).
Definition add_text m := MkMain (debugArg m) (userProgName m) (threadTestFlag m) (consoleTestFlag m) (networkTestFlag m) (copyFileNames m) (printFileName m) (removeFileName m) (dirListFlag m) (dumpFlag m) (S (texts m)).

(** The loop of main over [argv[1..]]. *)
Fixpoint parse_main (m : MainFlags) (argv : list (list Z)) : res MainFlags :=
  match argv with
  | [] => Ok m
  | a :: rest =>
      if same a (str "-d") then match rest with x :: rest => parse_main (set_debug x m) rest | [] => AssertFail end
      else if same a (str "-z") then parse_main (add_text m) rest
      else if same a (str "-x") then match rest with x :: rest => parse_main (set_prog x m) rest | [] => AssertFail end
      else if same a (str "-K") then parse_main (set_threads m) rest
      else if same a (str "-C") then parse_main (set_console m) rest
      else if same a (str "-N") then parse_main (set_network m) rest
      else if same a (str "-cp") then match rest with x :: y :: rest => parse_main (set_copy x y m) rest | _ => AssertFail end
      else if same a (str "-p") then match rest with x :: rest => parse_main (set_print x m) rest | [] => AssertFail end
      else if same a (str "-r") then match rest with x :: rest => parse_main (set_remove x m) rest | [] => AssertFail end
      else if same a (str "-l") then parse_main (set_list m) rest
      else if same a (str "-D") then parse_main (set_dump m) rest
      else if same a (str "-u") then parse_main (add_text m) rest
      else parse_main m rest
  end.

(** What the constructor of Kernel sets: [seed] is what RandomInit was given last, and
    [reliability] the text that atof reads, nothing for the default 1. *)
Record KernelFlags := MkKernel {
  randomSlice : bool; seed : option Z; debugUserProg : bool; consoleIn : option (list Z); consoleOut : option (list Z);
  formatFlag : bool; reliability : option (list Z); hostName : Z; usages : nat
}.
Definition kernel_defaults : KernelFlags := MkKernel false None false None None false None 0 0.

Definition set_seed z k := MkKernel true (Some z) (debugUserProg k) (consoleIn k) (consoleOut k) (formatFlag k) (reliability k) (hostName k) (usages k).
Definition set_step k := MkKernel (randomSlice k) (seed k) true (consoleIn k) (consoleOut k) (formatFlag k) (reliability k) (hostName k) (usages k).
Definition set_in s k := MkKernel (randomSlice k) (seed k) (debugUserProg k) (Some s) (consoleOut k) (formatFlag k) (reliability k) (hostName k) (usages k).
Definition set_out s k := MkKernel (randomSlice k) (seed k) (debugUserProg k) (consoleIn k) (Some s) (formatFlag k) (reliability k) (hostName k) (usages k).
Definition set_format k := MkKernel (randomSlice k) (seed k) (debugUserProg k) (consoleIn k) (consoleOut k) true (reliability k) (hostName k) (usages k).
Definition set_reliability s k := MkKernel (randomSlice k) (seed k) (debugUserProg k) (consoleIn k) (consoleOut k) (formatFlag k) (Some s) (hostName k) (usages k).
Definition set_host z k := MkKernel (randomSlice k) (seed k) (debugUserProg k) (consoleIn k) (consoleOut k) (formatFlag k) (reliability k) z (usages k).
Definition add_usage k := MkKernel (randomSlice k) (seed k) (debugUserProg k) (consoleIn k) (consoleOut k) (formatFlag k) (reliability k) (hostName k) (S (usages k)).

(** [atoi]: blanks, a sign, digits; a number out of range is undefined. *)
Definition is_blank (c : Z) : bool := (c =? 32) || ((9 <=? c) && (c <=? 13)).
Definition is_digit (c : Z) : bool := (48 <=? c) && (c <=? 57).
Fixpoint skip_blanks (s : list Z) : list Z := match s with c :: s' => if is_blank c then skip_blanks s' else s | [] => [] end.
Fixpoint digits (n : Z) (s : list Z) : Z := match s with c :: s' => if is_digit c then digits (10 * n + (c - 48)) s' else n | [] => n end.
Definition atoi (s : list Z) : res Z :=
  let z := match skip_blanks s with
           | c :: s' => if c =? 45 then - digits 0 s' else if c =? 43 then digits 0 s' else digits 0 (c :: s')
           | [] => 0
           end in
  if (- 2 ^ 31 <=? z) && (z <? 2 ^ 31) then Ok z else Undefined.

(** The loop of the constructor. *)
Fixpoint parse_kernel (k : KernelFlags) (argv : list (list Z)) : res KernelFlags :=
  match argv with
  | [] => Ok k
  | a :: rest =>
      if same a (str "-rs") then match rest with x :: rest => z ← atoi x; parse_kernel (set_seed z k) rest | [] => AssertFail end
      else if same a (str "-s") then parse_kernel (set_step k) rest
      else if same a (str "-ci") then match rest with x :: rest => parse_kernel (set_in x k) rest | [] => AssertFail end
      else if same a (str "-co") then match rest with x :: rest => parse_kernel (set_out x k) rest | [] => AssertFail end
      else if same a (str "-f") then parse_kernel (set_format k) rest
      else if same a (str "-n") then match rest with x :: rest => parse_kernel (set_reliability x k) rest | [] => AssertFail end
      else if same a (str "-m") then match rest with x :: rest => z ← atoi x; parse_kernel (set_host z k) rest | [] => AssertFail end
      else if same a (str "-u") then parse_kernel (add_usage k) rest
      else parse_kernel k rest
  end.

(** Debug: the flags whose messages are printed. *)
Definition IsEnabled (enableFlags : option (list Z)) (flag : Z) : bool :=
  match enableFlags with
  | Some l => bool_decide (flag ∈ l) || (flag =? 0) || bool_decide (43 ∈ l)
  | None => false
  end.

(** ** What a command line says *)

Inductive opt :=
| ODebug (s : list Z) | OCopyright | OExec (s : list Z) | OThreads | OConsole | ONetwork | OCopy (u n : list Z)
| OPrint (s : list Z) | ORemove (s : list Z) | OList | ODump | OUsage
| OSeed (s : list Z) | OStep | OConsoleIn (s : list Z) | OConsoleOut (s : list Z) | OFormat | OReliability (s : list Z) | OHost (s : list Z).

Definition render (o : opt) : list (list Z) :=
  match o with
  | ODebug s => [str "-d"; s] | OCopyright => [str "-z"] | OExec s => [str "-x"; s] | OThreads => [str "-K"]
  | OConsole => [str "-C"] | ONetwork => [str "-N"] | OCopy u n => [str "-cp"; u; n] | OPrint s => [str "-p"; s]
  | ORemove s => [str "-r"; s] | OList => [str "-l"] | ODump => [str "-D"] | OUsage => [str "-u"]
  | OSeed s => [str "-rs"; s] | OStep => [str "-s"] | OConsoleIn s => [str "-ci"; s] | OConsoleOut s => [str "-co"; s]
  | OFormat => [str "-f"] | OReliability s => [str "-n"; s] | OHost s => [str "-m"; s]
  end.
Definition command_line (os : list opt) : list (list Z) := concat (map render os).

Definition main_effect (m : MainFlags) (o : opt) : MainFlags :=
  match o with
  | ODebug s => set_debug s m | OCopyright => add_text m | OExec s => set_prog s m | OThreads => set_threads m
  | OConsole => set_console m | ONetwork => set_network m | OCopy u n => set_copy u n m | OPrint s => set_print s m
  | ORemove s => set_remove s m | OList => set_list m | ODump => set_dump m | OUsage => add_text m
  | _ => m
  end.
Definition kernel_effect (k : KernelFlags) (o : opt) : res KernelFlags :=
  match o with
  | OSeed s => z ← atoi s; Ok (set_seed z k) | OStep => Ok (set_step k) | OConsoleIn s => Ok (set_in s k)
  | OConsoleOut s => Ok (set_out s k) | OFormat => Ok (set_format k) | OReliability s => Ok (set_reliability s k)
  | OHost s => z ← atoi s; Ok (set_host z k) | OUsage => Ok (add_usage k)
  | _ => Ok k
  end.
Fixpoint kernel_effects (k : KernelFlags) (os : list opt) : res KernelFlags :=
  match os with [] => Ok k | o :: os => k ← kernel_effect k o; kernel_effects k os end.

(** The flags that each of the two readers knows. *)
Definition main_flags : list (list Z) := map str ["-d"; "-z"; "-x"; "-K"; "-C"; "-N"; "-cp"; "-p"; "-r"; "-l"; "-D"; "-u"]%string.
Definition kernel_flags : list (list Z) := map str ["-rs"; "-s"; "-ci"; "-co"; "-f"; "-n"; "-m"; "-u"]%string.

(** Each reader skips the flags of the other, but then reads their values as flags: a value
    must not look like one. *)
Definition plain (o : opt) : Prop :=
  match o with
  | ODebug s | OExec s | OPrint s | ORemove s => s ∉ kernel_flags
  | OCopy u n => u ∉ kernel_flags /\ n ∉ kernel_flags
  | OSeed s | OConsoleIn s | OConsoleOut s | OReliability s | OHost s => s ∉ main_flags
  | _ => True
  end.

Lemma same_member a s (l : list (list Z)) : a ∉ l -> s ∈ l -> same a s = false.
Proof. intros Ha Hs. apply bool_decide_eq_false. by intros ->. Qed.

Lemma main_skips a m rest : a ∉ main_flags -> parse_main m (a :: rest) = parse_main m rest.
Proof. intros H. cbn [parse_main]. by rewrite !(same_member a _ main_flags H) by (unfold main_flags; cbn [map]; set_solver). Qed.

Lemma kernel_skips a k rest : a ∉ kernel_flags -> parse_kernel k (a :: rest) = parse_kernel k rest.
Proof. intros H. cbn [parse_kernel]. by rewrite !(same_member a _ kernel_flags H) by (unfold kernel_flags; cbn [map]; set_solver). Qed.

Lemma flag_plain a (l : list (list Z)) : bool_decide (a ∈ l) = false -> a ∉ l.
Proof. by intros ?%bool_decide_eq_false. Qed.

Lemma parse_main_opt o m rest : plain o -> parse_main m (render o ++ rest) = parse_main (main_effect m o) rest.
Proof.
  destruct o; cbn [plain render app main_effect]; intros H; try reflexivity;
    rewrite main_skips by (apply flag_plain; vm_compute; reflexivity); try reflexivity; by rewrite main_skips.
Qed.

Lemma parse_kernel_opt o k rest : plain o -> parse_kernel k (render o ++ rest) = (k ← kernel_effect k o; parse_kernel k rest).
Proof.
  destruct o; cbn [plain render app kernel_effect mbind res_bind]; intros H; try reflexivity;
    try (rewrite kernel_skips by (apply flag_plain; vm_compute; reflexivity); try reflexivity).
  all: try (by rewrite kernel_skips).
  all: try (destruct H as [H1 H2]; by rewrite !kernel_skips).
  - transitivity (z ← atoi s; parse_kernel (set_seed z k) rest); [reflexivity|by destruct (atoi s)].
  - transitivity (z ← atoi s; parse_kernel (set_host z k) rest); [reflexivity|by destruct (atoi s)].
Qed.

Lemma parse_main_all os m : Forall plain os -> parse_main m (command_line os) = Ok (fold_left main_effect os m).
Proof.
  intros H. revert m. induction H as [|o os Ho _ IH]; intros m; [done|]. unfold command_line. cbn [map concat].
  rewrite parse_main_opt by done. apply IH.
Qed.

Lemma parse_kernel_all os k : Forall plain os -> parse_kernel k (command_line os) = kernel_effects k os.
Proof.
  intros H. revert k. induction H as [|o os Ho _ IH]; intros k; [done|]. unfold command_line. cbn [map concat kernel_effects].
  rewrite parse_kernel_opt by done. destruct (kernel_effect k o); [|done..]. apply IH.
Qed.

(** A value that looks like a flag of the other reader: the file to print is taken for the
    request to format the disk. *)
Lemma print_argument_formats : let argv := [str "-p"; str "-f"] in
  parse_main main_defaults argv = Ok (set_print (str "-f") main_defaults) /\
  parse_kernel kernel_defaults argv = Ok (set_format kernel_defaults).
Proof. split; reflexivity. Qed.

(** * The commands *)

Definition TransferSize : Z := 128.

Section Run.
Context {St : Type} {SS : SectorStore St} {HP : Heap St}.

(** The loop of Print; [fuel] bounds its turns. *)
Fixpoint print_loop (fuel : nat) (f : OpenFile) : M St (list item) :=
  match fuel with
  | O => fun _ => OutOfFuel
  | S fuel =>
      '(amountRead, buffer, f) ← Read f TransferSize;
      if 0 <? amountRead then
        l ← print_loop fuel f; mret (map Char (take (Z.to_nat amountRead) buffer) ++ l)
      else mret []
  end.

Definition Print (fuel : nat) (fs : FileSystem) (name : list Z) : M St (list item) :=
  f ← Open fs name;
  match f with None => mret [NoFileToPrint] | Some f => print_loop fuel f end.

(** The loop of Copy over the bytes of the UNIX file that are left: ReadPartial gives up to
    [TransferSize] of them, or 0 at the end. *)
Fixpoint copy_loop (turns fuel : nat) (f : OpenFile) (left : list Z) : M St unit :=
  match turns with
  | O => fun _ => OutOfFuel
  | S turns =>
      let buffer := take (Z.to_nat TransferSize) left in
      let amountRead := Z.of_nat (length buffer) in
      if 0 <? amountRead then
        '(_, f) ← Write fuel f buffer amountRead;
        copy_loop turns fuel f (drop (Z.to_nat TransferSize) left)
      else mret tt
  end.

(** [unix] has the files of the UNIX side.  The length of the file is passed as its type. *)
Definition Copy (fuel : nat) (unix : list Z -> option (list Z)) (fs : FileSystem) (from to : list Z) : M St (list item * FileSystem) :=
  match unix from with
  | None => mret ([NoInput], fs)
  | Some bytes =>
      let fileLength := Z.of_nat (length bytes) in
      '(created, fs) ← Create fuel fs to fileLength;
      if negb created then mret ([NoOutput], fs)
      else
        f ← Open fs to;
        match f with
        | None => fun _ => AssertFail
        | Some f => _ ← copy_loop (S (length bytes)) fuel f bytes; mret ([], fs)
        end
  end.

(** The part of main that works on files. *)
Definition file_commands (fuel : nat) (unix : list Z -> option (list Z)) (m : MainFlags) (fs : FileSystem) : M St (list item * FileSystem) :=
  fs ← match removeFileName m with Some s => '(_, fs) ← FileSys.Remove fuel fs s; mret fs | None => mret fs end;
  '(l1, fs) ← match copyFileNames m with Some (u, n) => Copy fuel unix fs u n | None => mret ([], fs) end;
  l4 ← (if dumpFlag m then Dump.Print 1024 fs else mret []);
  l2 ← (if dirListFlag m then Dump.List fs else mret []);
  l3 ← match printFileName m with Some s => Print 57 fs s | None => mret [] end;
  mret (l1 ++ l4 ++ l2 ++ l3, fs).

(** nachos with these arguments, as far as its files go. *)
Definition nachos (fuel : nat) (unix : list Z -> option (list Z)) (argv : list (list Z)) : M St (list item * FileSystem) :=
  m ← lift (parse_main main_defaults argv);
  k ← lift (parse_kernel kernel_defaults argv);
  fs ← FileSystem_new fuel (formatFlag k);
  file_commands fuel unix m fs.
End Run.

(** * What they do to the tree *)

Import FileTree.

Definition spec_print (T : fstree) (path : list Z) : option (res (list item * fstree)) :=
  match walk T path false with
  | None => Some Undefined
  | Some s =>
      match nodes T !! s with
      | None => Some (Ok ([NoFileToPrint], T))
      | Some (MkNode _ _ (CDir _)) => None
      | Some (MkNode _ _ (CFile bytes)) => Some (Ok (map Char bytes, T))
      end
  end.

(** Only an empty file is copied as one. *)
Definition spec_copy (unix : list Z -> option (list Z)) (T : fstree) (from to : list Z) : option (res (list item * fstree)) :=
  match unix from with
  | None => Some (Ok ([NoInput], T))
  | Some bytes =>
      and_then (spec_create T to (Z.of_nat (length bytes))) (fun '(r, T) =>
        match r with
        | Done false => Some (Ok ([NoOutput], T))
        | _ => match bytes with [] => Some (Ok ([], T)) | _ => None end
        end)
  end.

Definition spec_remove_flag (T : fstree) (m : MainFlags) : option (res (reply * fstree)) :=
  match removeFileName m with Some s => spec_remove T s | None => Some (Ok (Done false, T)) end.
Definition spec_copy_flag unix (T : fstree) (m : MainFlags) : option (res (list item * fstree)) :=
  match copyFileNames m with Some (u, n) => spec_copy unix T u n | None => Some (Ok ([], T)) end.
Definition spec_print_flag (T : fstree) (m : MainFlags) : option (res (list item * fstree)) :=
  match printFileName m with Some s => spec_print T s | None => Some (Ok ([], T)) end.

(** What is printed before and after the dump and the list of names, and the tree at the end. *)
Definition spec_commands unix (T : fstree) (m : MainFlags) : option (res (list item * list item * fstree)) :=
  and_then (spec_remove_flag T m) (fun '(_, T) =>
  and_then (spec_copy_flag unix T m) (fun '(l1, T) =>
  if (dumpFlag m && negb (all_short T)) || (dirListFlag m && negb (short_names T)) then None
  else and_then (spec_print_flag T m) (fun '(l3, T) => Some (Ok (l1, l3, T))))).

(** The names of the root directory, in some order. *)
Definition listed (T : fstree) (m : MainFlags) (l : list item) : Prop :=
  if dirListFlag m then l ≡ₚ map (fun e => Name e.1) (map_to_list (root_names T)) else l = [].
Definition dumped (T : fstree) (m : MainFlags) (l : list item) : Prop := if dumpFlag m then dump_of T l else l = [].

Section Proofs.
Context {St : Type} {SS : SectorStore St} {HP : Heap St}.
Implicit Types (st : St) (T : fstree).

(** ** Printing *)

Lemma print_loop_ok fuel st h bl pos : store_wf st -> holds st h bl -> 0 <= pos ->
  limit h - pos + TransferSize <= Z.of_nat fuel * TransferSize -> (0 < fuel)%nat ->
  exists st', print_loop fuel (MkOpen h pos) st = Ok (map Char (drop (Z.to_nat pos) (take (Z.to_nat (limit h)) (file_bytes st bl))), st') /\
    store_wf st' /\ store_eq st st'.
Proof.
  change TransferSize with 128. revert st pos. induction fuel as [|fuel IH]; intros st pos Hw Hh Hp Hf H0; [lia|].
  destruct (ReadAt_ok st (MkOpen h pos) bl 128 pos) as (st1 & E & Hw1 & He1); [done|done|lia|]. cbn [hdr] in E. cbn [print_loop].
  pose proof (sectors_ok_holds _ _ _ Hw Hh) as Hok. pose proof (file_bytes_length _ _ Hok) as Hlen. pose proof Hh as [].
  unfold read_result in E. rewrite (proj2 (Z.leb_gt 128 0)), (proj2 (Z.ltb_ge pos 0)) in E by lia. cbn [orb] in E.
  assert (forall n bs, ReadAt (MkOpen h pos) 128 pos st = Ok ((n, bs), st1) -> Read (MkOpen h pos) 128 st = Ok (((n, bs), MkOpen h (pos + n)), st1)) as HR.
  { intros n bs ER. unfold Read. cbn [seekPosition hdr]. by rewrite (bind_M_Ok _ _ _ _ _ ER). }
  destruct (Z.leb_spec (limit h) pos) as [Hge|Hlt].
  - rewrite (bind_M_Ok _ _ _ _ _ (HR _ _ E)). change (0 <? 0) with false. cbv iota. exists st1. split; [|done].
    rewrite drop_ge by (rewrite length_take; lia). reflexivity.
  - set (n := Z.min 128 (limit h - pos)) in *. rewrite (bind_M_Ok _ _ _ _ _ (HR _ _ E)). rewrite (proj2 (Z.ltb_lt 0 n)) by lia.
    destruct (IH st1 (pos + n)) as (st2 & E2 & Hw2 & He2); [done|by eapply holds_store_eq|lia|lia|lia|].
    rewrite (bind_M_Ok _ _ _ _ _ E2). exists st2. split; [|split; [done|by etrans]].
    f_equal. f_equal. rewrite <- map_app. f_equal. rewrite (file_bytes_ext st st1) by (intros b Hb; apply He1; pose proof (holds_block _ _ _ _ Hh Hb); lia). unfold slice.
    rewrite take_take, Nat.min_id. replace (Z.to_nat (pos + n)) with (Z.to_nat pos + Z.to_nat n)%nat by lia. rewrite <- drop_drop.
    rewrite <- (take_drop (Z.to_nat n) (drop (Z.to_nat pos) (take (Z.to_nat (limit h)) (file_bytes st bl)))) at 2. f_equal.
    fold (slice (Z.to_nat pos) (Z.to_nat n) (file_bytes st bl)). rewrite <- (slice_of_take _ (Z.to_nat (limit h))) by lia. reflexivity.
Qed.

Lemma Print_ok st fs T m0 path : fs_stored st fs T m0 -> is_cstring path ->
  answers fs m0 ((l ← Print 57 fs path; mret (l, fs)) st) (spec_print T path).
Proof.
  intros H Hc. pose proof (Open_ok st fs T m0 path H Hc) as HO. unfold spec_print. destruct (walk T path false) as [s|].
  2:{ unfold Print, mbind, M_bind. rewrite HO. done. }
  destruct (nodes T !! s) as [a|] eqn:Ha.
  2:{ destruct HO as (st' & E & H'). exists st'. split; [|exact H']. unfold Print.
      rewrite (bind_M_Ok _ _ st st' [NoFileToPrint]); [reflexivity|]. by rewrite (bind_M_Ok _ _ _ _ _ E). }
  destruct HO as (h & bl & st1 & E & H1 & Hi). destruct a as [nb owned [m|bytes]]; [exact I|].
  destruct (file_content st1 s h bl _ bytes (st_wf _ _ _ _ H1) Hi eq_refl) as (_ & -> & Hl). pose proof (io_holds _ _ _ _ _ Hi) as Hh.
  pose proof Hh as []. destruct (print_loop_ok 57 st1 h bl 0) as (st2 & E2 & Hw2 & He2);
    [apply H1|done|done|change TransferSize with 128; lia|lia|]. change (Z.to_nat 0) with 0%nat in E2. rewrite drop_0 in E2.
  exists st2. split; [|by eapply stored_eq]. unfold Print. erewrite bind_M_Ok; [reflexivity|]. by rewrite (bind_M_Ok _ _ _ _ _ E).
Qed.

(** ** Copying *)

(** A name that Create has just made leads to its file. *)
Lemma resolve_new v s n cs : v !! s = None -> forall m cur p mp, v !! cur = Some (NDir m) -> resolve v m cur cs true = Some p ->
  v !! p = Some (NDir mp) -> mp !! last_key cs = None -> v !! (-1) = None ->
  let ins t m := if decide (t = p) then <[last_key cs := s]> m else m in
  resolve (<[s := n]> (<[p := NDir (<[last_key cs := s]> mp)]> v)) (ins cur m) cur cs false = Some s.
Proof.
  intros Hs. induction cs as [|c [|c2 cs] IH]; intros m cur p mp Hcur Hr Hp Hk Hneg ins; [done| |].
  - injection Hr as <-. assert (mp = m) as -> by congruence. unfold ins. rewrite decide_True by done. cbn. by rewrite lookup_insert_eq.
  - rewrite resolve_cons in Hr |- *. assert (ins cur m !! key_of c = m !! key_of c) as ->.
    { unfold ins. case_decide as Hd; [|done]. subst cur. assert (mp = m) as -> by congruence. rewrite lookup_insert_ne; [done|].
      intros E. rewrite <- E, Hk in Hr. injection Hr as <-. congruence. }
    destruct (m !! key_of c) as [t|]; [|injection Hr as <-; congruence].
    destruct (v !! t) as [[m'|]|] eqn:Ht; [|injection Hr as <-; congruence..].
    assert (t <> s) as Hts by congruence. rewrite lookup_insert_ne by done.
    specialize (IH m' t p mp Ht Hr Hp Hk Hneg). cbv zeta beta in IH. destruct (Z.eq_dec t p) as [->|Hne].
    + rewrite lookup_insert_eq. assert (m' = mp) as -> by congruence. by rewrite decide_True in IH by done.
    + rewrite lookup_insert_ne, Ht by done. by rewrite decide_False in IH by done.
Qed.

Lemma walk_created m0 T s p a m n l c path fr : tree_ok m0 T -> nodes T !! s = None -> walk T path true = Some p ->
  nodes T !! p = Some a -> a_content a = CDir m -> m !! path_key path = None -> c = CFile [] ->
  walk (MkTree (<[s := MkNode n l c]> (<[p := with_names a (<[path_key path := s]> m)]> (nodes T))) fr) path false = Some s.
Proof.
  intros H Hs Hw Hp Hm Hk ->. unfold walk in *. unfold path_key in *.
  assert (view T !! s = None) as Hvs by (unfold view; by rewrite lookup_fmap, Hs).
  assert (view T !! p = Some (NDir m)) as Hvp by (unfold view, kind; rewrite lookup_fmap, Hp; cbn; by rewrite Hm).
  assert (view T !! (-1) = None) as Hneg by (unfold view; by rewrite lookup_fmap, (no_node m0 T)).
  pose proof (resolve_new (view T) s NFile (components path) Hvs (root_names T) DirectorySector p m (root_view _ _ H) Hw Hvp Hk Hneg) as HR.
  cbv zeta in HR. unfold view. cbn [nodes]. rewrite !fmap_insert. cbn [kind a_content with_names]. fold (view T).
  replace (root_names _) with (if decide (DirectorySector = p) then <[last_key (components path) := s]> (root_names T) else root_names T); [exact HR|].
  assert (s <> DirectorySector) as Hsr by (intros ->; destruct (to_root _ _ H) as (? & ? & ? & _); congruence).
  unfold root_names. cbn [nodes]. rewrite (lookup_insert_ne _ s) by done. case_decide as Hd.
  - subst p. rewrite lookup_insert_eq, Hp. cbn. unfold names_of. by rewrite Hm.
  - by rewrite lookup_insert_ne by done.
Qed.

Lemma spec_create_leads m0 T path T' : tree_ok m0 T -> free_ok m0 T -> spec_create T path TYPE_FILE = Some (Ok (Done true, T')) ->
  exists s, walk T' path false = Some s /\ nodes T' !! s = Some (MkNode 0 [] (CFile [])).
Proof.
  intros H Hf. unfold spec_create. destruct (walk T path false) as [r|] eqn:Er; [|done].
  destruct (Z.eqb_spec r (-1)) as [->|]; cbn [negb]; [|done]. destruct (free T) as [|s cb] eqn:Efr; [done|].
  destruct (walk_parent m0 T path (-1) H Er) as (p & Hp & Hcase). rewrite Hp. cbn [mbind option_bind].
  destruct (nodes T !! p) as [a|] eqn:Ha; [|done]. destruct (_ <? _); [|done]. change (TYPE_FILE =? TYPE_FILE) with true. cbv iota.
  intros [= <-]. exists s. cbn [nodes]. split; [|by rewrite lookup_insert_eq].
  destruct Hcase as [[-> _]|(a' & m & Ha' & Hm & Hk)]; [by rewrite (no_node m0 T) in Ha|]. replace a' with a in * by congruence.
  cbn [default from_option]. assert (names_of a = m) as -> by (unfold names_of; by rewrite Hm).
  apply (walk_created m0 T s p a m); try done; [apply (free_not_node m0); [done|]; rewrite Efr; left|].
  destruct (m !! path_key path) as [t|] eqn:Et; [|done]. cbn in Hk. subst t.
  destruct (to_closed _ _ H p a (path_key path) (-1) Ha) as ([? Hx] & _); [by unfold names_of; rewrite Hm|]. by rewrite (no_node m0 T) in Hx.
Qed.

Lemma stored_tree_ok st fs T m0 : fs_stored st fs T m0 -> tree_ok m0 T /\ free_ok m0 T.
Proof. intros H. destruct (st_map _ _ _ _ H) as [fm Hm]. split; [apply H|]. by eapply map_free_ok. Qed.

Lemma Copy_ok st fs T m0 unix from to : fs_stored st fs T m0 -> is_cstring to ->
  answers fs m0 (Copy 2 unix fs from to st) (spec_copy unix T from to).
Proof.
  intros H Hc. unfold Copy, spec_copy. destruct (unix from) as [bytes|]; [|exists st; split; [reflexivity|exact H]].
  pose proof (Create_ok st fs T m0 to (Z.of_nat (length bytes)) H Hc) as HC. unfold serve in HC.
  pose proof (stored_tree_ok _ _ _ _ H) as [Ht Hf].
  destruct (spec_create T to (Z.of_nat (length bytes))) as [[[r T']| | | |]|] eqn:Hs; cbn [answers and_then] in HC |- *; [|try (exfalso; exact HC)..|exact I].
  - destruct HC as (st1 & E & H1). unfold mbind at 1, M_bind at 1 in E. unfold mbind at 1, M_bind at 1.
    destruct (Create 2 fs to _ st) as [[[b fs1] st1']| | | |]; [|discriminate E..]. injection E as <- -> ->.
    destruct b; cbn [negb]; [|exists st1; split; [reflexivity|exact H1]]. destruct bytes as [|x bytes]; [|exact I].
    destruct (spec_create_leads m0 T to T' Ht Hf Hs) as (s & Hw & Hn). pose proof (Open_ok st1 fs T' m0 to H1 Hc) as HO. rewrite Hw, Hn in HO.
    destruct HO as (h & bl & st2 & E2 & H2 & _). exists st2. split; [|exact H2]. rewrite (bind_M_Ok _ _ _ _ _ E2). reflexivity.
  - unfold mbind at 1, M_bind at 1 in HC. unfold mbind at 1, M_bind at 1. by destruct (Create 2 fs to _ st) as [[[? ?] ?]| | | |].
  - unfold mbind at 1, M_bind at 1 in HC. unfold mbind at 1, M_bind at 1. by destruct (Create 2 fs to _ st) as [[[? ?] ?]| | | |].
Qed.

(** ** All commands *)

(** The file names that main was given are C strings. *)
Definition names_ok (m : MainFlags) : Prop :=
  (forall s, removeFileName m = Some s -> is_cstring s) /\ (forall u n, copyFileNames m = Some (u, n) -> is_cstring n) /\
  (forall s, printFileName m = Some s -> is_cstring s).

(** What a run of the commands does, given what they do to the tree. *)
Definition commands_answer (fs : FileSystem) m0 (m : MainFlags) (run : res ((list item * FileSystem) * St))
    (spec : option (res (list item * list item * fstree))) : Prop :=
  match spec with
  | None => True
  | Some (Ok (l1, l3, T')) => exists l4 l2 st', run = Ok ((l1 ++ l4 ++ l2 ++ l3, fs), st') /\ fs_stored st' fs T' m0 /\ dumped T' m l4 /\ listed T' m l2
  | Some AssertFail => run = AssertFail
  | Some Undefined => run = Undefined
  | _ => False
  end.

Lemma remove_flag_ok st fs T m0 m : fs_stored st fs T m0 -> names_ok m ->
  match spec_remove_flag T m with
  | None => True
  | Some (Ok (_, T')) => exists st', match removeFileName m with Some s => '(_, fs) ← FileSys.Remove 2 fs s; mret fs | None => mret fs end st = Ok (fs, st') /\ fs_stored st' fs T' m0
  | Some AssertFail => match removeFileName m with Some s => '(_, fs) ← FileSys.Remove 2 fs s; mret fs | None => mret fs end st = AssertFail
  | Some Undefined => match removeFileName m with Some s => '(_, fs) ← FileSys.Remove 2 fs s; mret fs | None => mret fs end st = Undefined
  | _ => False
  end.
Proof.
  intros H (Hr & _). unfold spec_remove_flag. destruct (removeFileName m) as [s|]; [|exists st; split; [reflexivity|exact H]].
  pose proof (Remove_serve_ok st fs T m0 s H (Hr s eq_refl)) as HR. unfold answers, serve in HR.
  destruct (spec_remove T s) as [[[r T']| | | |]|]; [|unfold mbind at 1, M_bind at 1|unfold mbind at 1, M_bind at 1|exact HR|exact HR|exact I].
  - destruct HR as (st' & E & H'). exists st'. split; [|exact H']. unfold mbind, M_bind in E |- *.
    destruct (FileSys.Remove 2 fs s st) as [[[? ?] ?]| | | |]; [|discriminate E..]. by injection E as _ -> ->.
  - unfold mbind, M_bind in HR. by destruct (FileSys.Remove 2 fs s st) as [[[? ?] ?]| | | |].
  - unfold mbind, M_bind in HR. by destruct (FileSys.Remove 2 fs s st) as [[[? ?] ?]| | | |].
Qed.

Lemma copy_flag_ok st fs T m0 unix m : fs_stored st fs T m0 -> names_ok m ->
  answers fs m0 (match copyFileNames m with Some (u, n) => Copy 2 unix fs u n | None => mret ([], fs) end st) (spec_copy_flag unix T m).
Proof.
  intros H (_ & Hn & _). unfold spec_copy_flag. destruct (copyFileNames m) as [[u n]|]; [|exists st; split; [reflexivity|exact H]].
  by apply Copy_ok; [|eapply Hn].
Qed.

Lemma dump_flag_ok st fs T m0 m : fs_stored st fs T m0 -> dumpFlag m && negb (all_short T) = false ->
  exists l st', (if dumpFlag m then Dump.Print 1024 fs else mret []) st = Ok (l, st') /\ fs_stored st' fs T m0 /\ dumped T m l.
Proof.
  intros H Hs. unfold dumped. destruct (dumpFlag m); [|exists [], st; split; [reflexivity|by split]].
  apply negb_false_iff in Hs. by apply Print_dump_ok.
Qed.

Lemma list_flag_ok st fs T m0 m : fs_stored st fs T m0 -> dirListFlag m && negb (short_names T) = false ->
  exists l st', (if dirListFlag m then Dump.List fs else mret []) st = Ok (l, st') /\ fs_stored st' fs T m0 /\ listed T m l.
Proof.
  intros H Hs. unfold listed. destruct (dirListFlag m); [|exists [], st; split; [reflexivity|by split]].
  apply negb_false_iff in Hs. by apply List_ok.
Qed.

Lemma print_flag_ok st fs T m0 m : fs_stored st fs T m0 -> names_ok m ->
  answers fs m0 ((l ← match printFileName m with Some s => Print 57 fs s | None => mret [] end; mret (l, fs)) st) (spec_print_flag T m).
Proof.
  intros H (_ & _ & Hp). unfold spec_print_flag. destruct (printFileName m) as [s|]; [|exists st; split; [reflexivity|exact H]].
  by apply Print_ok; [|apply Hp].
Qed.

Lemma spec_print_flag_same T m l T' : spec_print_flag T m = Some (Ok (l, T')) -> T' = T.
Proof. unfold spec_print_flag, spec_print. repeat case_match; intros; by simplify_eq. Qed.

Lemma file_commands_ok st fs T m0 unix m : fs_stored st fs T m0 -> names_ok m ->
  commands_answer fs m0 m (file_commands 2 unix m fs st) (spec_commands unix T m).
Proof.
  intros H Hn. unfold spec_commands, file_commands. pose proof (remove_flag_ok st fs T m0 m H Hn) as HR.
  destruct (spec_remove_flag T m) as [[[r T1]| | | |]|]; cbn [and_then commands_answer];
    [|by rewrite (bind_M_AssertFail _ _ _ HR)|by rewrite (bind_M_Undefined _ _ _ HR)|exact HR|exact HR|exact I].
  destruct HR as (st1 & E1 & H1). rewrite (bind_M_Ok _ _ _ _ _ E1). pose proof (copy_flag_ok st1 fs T1 m0 unix m H1 Hn) as HC.
  destruct (spec_copy_flag unix T1 m) as [[[l1 T2]| | | |]|]; cbn [and_then commands_answer answers] in HC |- *;
    [|by rewrite (bind_M_AssertFail _ _ _ HC)|by rewrite (bind_M_Undefined _ _ _ HC)|exact HC|exact HC|exact I].
  destruct HC as (st2 & E2 & H2). rewrite (bind_M_Ok _ _ _ _ _ E2). destruct (_ || _) eqn:Hs; [exact I|].
  apply orb_false_iff in Hs as [Hs1 Hs2]. destruct (dump_flag_ok st2 fs T2 m0 m H2 Hs1) as (l4 & st2' & E2' & H2' & Hd). rewrite (bind_M_Ok _ _ _ _ _ E2').
  destruct (list_flag_ok st2' fs T2 m0 m H2' Hs2) as (l2 & st3 & E3 & H3 & Hl). rewrite (bind_M_Ok _ _ _ _ _ E3).
  pose proof (print_flag_ok st3 fs T2 m0 m H3 Hn) as Hpr. unfold mbind at 1, M_bind at 1 in Hpr. unfold mbind at 1, M_bind at 1.
  destruct (spec_print_flag T2 m) as [[[l3 T3]| | | |]|] eqn:Esp; cbn [and_then commands_answer answers] in Hpr |- *; [| |  |exact Hpr|exact Hpr|exact I].
  - apply spec_print_flag_same in Esp as ->. destruct Hpr as (st4 & E4 & H4). exists l4, l2, st4.
    destruct (_ st3) as [[l st5]| | | |] in E4 |- *; [|discriminate E4..]. injection E4 as -> ->. done.
  - by destruct (_ st3) as [[l st5]| | | |] in Hpr |- *.
  - by destruct (_ st3) as [[l st5]| | | |] in Hpr |- *.
Qed.

Lemma commands_start (fs : FileSystem) m0 m (start : M St FileSystem) k st st' spec : start st = Ok (fs, st') ->
  commands_answer fs m0 m (k fs st') spec -> commands_answer fs m0 m ((start ≫= k) st) spec.
Proof. intros E H. by rewrite (bind_M_Ok _ _ _ _ _ E). Qed.

(** The values of an option; on a command line they are C strings. *)
Definition values (o : opt) : list (list Z) :=
  match o with
  | ODebug s | OExec s | OPrint s | ORemove s | OSeed s | OConsoleIn s | OConsoleOut s | OReliability s | OHost s => [s]
  | OCopy u n => [u; n]
  | _ => []
  end.
Definition value_ok (o : opt) : Prop := plain o /\ Forall is_cstring (values o).

Lemma effects_names_ok os m : names_ok m -> Forall value_ok os -> names_ok (fold_left main_effect os m).
Proof.
  intros Hm H. revert m Hm. induction H as [|o os [_ Ho] _ IH]; intros m Hm; [done|]. cbn [fold_left]. apply IH.
  destruct Hm as (Hr & Hc & Hp). destruct o; cbn [main_effect values] in *; try (by split);
    rewrite ?Forall_cons in Ho; split_and!; cbn; intros; simplify_eq; naive_solver.
Qed.

(** * Properties *)

(** C28. Main and the constructor of Kernel read the same arguments, each skipping what is the
    other's: every list of options that is written out on a command line is read back by
    both as that list, provided that no value looks like a flag of the other reader. *)
Theorem command_line_roundtrip os : Forall plain os ->
  parse_main main_defaults (command_line os) = Ok (fold_left main_effect os main_defaults) /\
  parse_kernel kernel_defaults (command_line os) = kernel_effects kernel_defaults os.
Proof. intros H. split; [by apply parse_main_all|by apply parse_kernel_all]. Qed.

End Proofs.

(** ** Concrete inputs *)

#[local] Existing Instance SynchDisk.sample_instance.
#[local] Existing Instance OpenFile.sample_heap.

(** nachos -f -cp empty /a -l -p /a -m 1 *)
Definition sample_options : list opt := [OFormat; OCopy (str "empty") (str "/a"); OList; OPrint (str "/a"); OHost (str "1")].
Definition sample_unix (name : list Z) : option (list Z) := if same name (str "empty") then Some [] else None.

Lemma sample_options_ok : Forall value_ok sample_options.
Proof.
  repeat (apply Forall_cons; split); try apply Forall_nil_2; (split; [|by_compute]); cbn [plain]; try exact I;
    try split; apply flag_plain; vm_compute; reflexivity.
Qed.

Example command_line_roundtrip_witness :
  parse_main main_defaults (command_line sample_options) =
    Ok (MkMain [] None false false false (Some (str "empty", str "/a")) (Some (str "/a")) None true false 0) /\
  parse_kernel kernel_defaults (command_line sample_options) = Ok (MkKernel false None false None None true None 1 0).
Proof.
  destruct (command_line_roundtrip sample_options) as [E1 E2]; [eapply Forall_impl; [exact sample_options_ok|]; intros o [H _]; exact H|].
  rewrite E1, E2. split; vm_compute; reflexivity.
Defined.

(** After "Hi" has been written to /a: nachos -l -p /a *)
Definition hi_requests : list request := [RCreate (str "/a") TYPE_FILE; RWrite (str "/a") [72; 105] 2 0].
Definition list_print : list opt := [OList; OPrint (str "/a")].

Lemma list_print_ok : Forall value_ok list_print.
Proof.
  repeat (apply Forall_cons; split); try apply Forall_nil_2; (split; [|by_compute]); cbn [plain]; try exact I; apply flag_plain; vm_compute; reflexivity.
Qed.


(** Copying a file of three bytes gives Create the type 3: no header is written, Open takes the
    zeros of the sector for one that says sector 0, and writing the bytes puts the header of
    the copy there: the header of the free map is lost. *)
Definition abc_unix (name : list Z) : option (list Z) := Some (str "abc").
Example copy_overwrites_map_header :
  match nachos 2 abc_unix (command_line [OFormat; OCopy (str "abc") (str "/a")]) (SynchDisk.sample_disk ∅) with
  | Ok (_, st') => match FileHdr.FetchFrom FreeMapSector st' with Ok (h, _) => limit h = 3 /\ dataSectors h = 15 :: replicate 24 0 | _ => False end
  | _ => False
  end.
Proof. vm_compute. by split. Qed.
End Commands.
