(* ===== verification/Mips.v ===== *)
(** Mips: the instruction simulator of src/code/machine/mipssim.h and mipssim.cc.

    A register is an [int], kept as the integer it denotes; [i32] writes out the
    wrap-around of the int the code assigns.  The class [Cpu] is what the simulator uses of
    the machine around it: the register file, ReadMem, WriteMem and RaiseException
    (Machine.v gives the instance).  The build has SIM_FIX defined; the two's-complement
    wrap of int addition, negation and left shift is the one the code's own overflow
    checks rely on. *)

From S2P Require Import Prelude.
From stdpp Require Import base numbers list.
#[local] Open Scope Z_scope.

(** The codes of ExceptionType (src/code/machine/machine.h). *)
Definition NoException : Z := 0.
Definition SyscallException : Z := 1.
Definition PageFaultException : Z := 2.
Definition ReadOnlyException : Z := 3.
Definition BusErrorException : Z := 4.
Definition AddressErrorException : Z := 5.
Definition OverflowException : Z := 6.
Definition IllegalInstrException : Z := 7.

(** Register numbers (src/code/machine/machine.h). *)
Definition R31 : Z := 31.
Definition HiReg : Z := 32.
Definition LoReg : Z := 33.
Definition PCReg : Z := 34.
Definition NextPCReg : Z := 35.
Definition PrevPCReg : Z := 36.
Definition LoadReg : Z := 37.
Definition LoadValueReg : Z := 38.
Definition BadVAddrReg : Z := 39.
Definition NumTotalRegs : Z := 40.

(** The register file of a machine state. *)
Class Registers (St : Type) := {
  regs : St -> list Z;
  set_regs : list Z -> St -> St;
  regs_set st l : regs (set_regs l st) = l;
  set_set st l l' : set_regs l (set_regs l' st) = set_regs l st;
  set_get st : set_regs (regs st) st = st
}.

(** What the simulator uses of the machine; ReadMem answers FALSE as [None]. *)
Class Cpu (St : Type) := {
  cpu_registers :: Registers St;
  ReadMem : Z -> Z -> M St (option Z);
  WriteMem : Z -> Z -> Z -> M St bool;
  RaiseException : Z -> Z -> M St unit
}.

Module Mips.

Inductive opcode :=
| OP_ADD | OP_ADDI | OP_ADDIU | OP_ADDU | OP_AND | OP_ANDI | OP_BEQ | OP_BGEZ | OP_BGEZAL
| OP_BGTZ | OP_BLEZ | OP_BLTZ | OP_BLTZAL | OP_BNE | OP_DIV | OP_DIVU | OP_J | OP_JAL | OP_JALR
| OP_JR | OP_LB | OP_LBU | OP_LH | OP_LHU | OP_LUI | OP_LW | OP_LWL | OP_LWR | OP_MFHI | OP_MFLO
| OP_MTHI | OP_MTLO | OP_MULT | OP_MULTU | OP_NOR | OP_OR | OP_ORI | OP_RFE | OP_SB | OP_SH
| OP_SLL | OP_SLLV | OP_SLT | OP_SLTI | OP_SLTIU | OP_SLTU | OP_SRA | OP_SRAV | OP_SRL | OP_SRLV
| OP_SUB | OP_SUBU | OP_SW | OP_SWL | OP_SWR | OP_XOR | OP_XORI | OP_SYSCALL | OP_UNIMP | OP_RES
| SPECIAL | BCOND.

#[export] Instance opcode_eq_dec : EqDecision opcode.
Proof. solve_decision. Defined.

Inductive format := IFMT | JFMT | RFMT.

#[export] Instance format_eq_dec : EqDecision format.
Proof. solve_decision. Defined.

Definition opTable : list (opcode * format) :=
  [(SPECIAL, RFMT); (BCOND, IFMT); (OP_J, JFMT); (OP_JAL, JFMT);
   (OP_BEQ, IFMT); (OP_BNE, IFMT); (OP_BLEZ, IFMT); (OP_BGTZ, IFMT);
   (OP_ADDI, IFMT); (OP_ADDIU, IFMT); (OP_SLTI, IFMT); (OP_SLTIU, IFMT);
   (OP_ANDI, IFMT); (OP_ORI, IFMT); (OP_XORI, IFMT); (OP_LUI, IFMT);
   (OP_UNIMP, IFMT); (OP_UNIMP, IFMT); (OP_UNIMP, IFMT); (OP_UNIMP, IFMT);
   (OP_RES, IFMT); (OP_RES, IFMT); (OP_RES, IFMT); (OP_RES, IFMT);
   (OP_RES, IFMT); (OP_RES, IFMT); (OP_RES, IFMT); (OP_RES, IFMT);
   (OP_RES, IFMT); (OP_RES, IFMT); (OP_RES, IFMT); (OP_RES, IFMT);
   (OP_LB, IFMT); (OP_LH, IFMT); (OP_LWL, IFMT); (OP_LW, IFMT);
   (OP_LBU, IFMT); (OP_LHU, IFMT); (OP_LWR, IFMT); (OP_RES, IFMT);
   (OP_SB, IFMT); (OP_SH, IFMT); (OP_SWL, IFMT); (OP_SW, IFMT);
   (OP_RES, IFMT); (OP_RES, IFMT); (OP_SWR, IFMT); (OP_RES, IFMT);
   (OP_UNIMP, IFMT); (OP_UNIMP, IFMT); (OP_UNIMP, IFMT); (OP_UNIMP, IFMT);
   (OP_RES, IFMT); (OP_RES, IFMT); (OP_RES, IFMT); (OP_RES, IFMT);
   (OP_UNIMP, IFMT); (OP_UNIMP, IFMT); (OP_UNIMP, IFMT); (OP_UNIMP, IFMT);
   (OP_RES, IFMT); (OP_RES, IFMT); (OP_RES, IFMT); (OP_RES, IFMT)].

Definition specialTable : list opcode :=
  [OP_SLL; OP_RES; OP_SRL; OP_SRA; OP_SLLV; OP_RES; OP_SRLV; OP_SRAV;
   OP_JR; OP_JALR; OP_RES; OP_RES; OP_SYSCALL; OP_UNIMP; OP_RES; OP_RES;
   OP_MFHI; OP_MTHI; OP_MFLO; OP_MTLO; OP_RES; OP_RES; OP_RES; OP_RES;
   OP_MULT; OP_MULTU; OP_DIV; OP_DIVU; OP_RES; OP_RES; OP_RES; OP_RES;
   OP_ADD; OP_ADDU; OP_SUB; OP_SUBU; OP_AND; OP_OR; OP_XOR; OP_NOR;
   OP_RES; OP_RES; OP_SLT; OP_SLTU; OP_RES; OP_RES; OP_RES; OP_RES;
   OP_RES; OP_RES; OP_RES; OP_RES; OP_RES; OP_RES; OP_RES; OP_RES;
   OP_RES; OP_RES; OP_RES; OP_RES; OP_RES; OP_RES; OP_RES; OP_RES].

Record Instruction := MkInstr { opCode : opcode; rs : Z; rt : Z; rd : Z; extra : Z }.

(** [Instruction::Decode] on the 32-bit [value]. *)
Definition decode_extra (value : Z) (f : format) : Z :=
  match f with
  | IFMT =>
      let extra := Z.land value (Z.ones 16) in
      if negb (Z.land extra (2 ^ 15) =? 0) then i32 (Z.lor extra (Z.shiftl (Z.ones 16) 16)) else extra
  | RFMT => Z.land (Z.shiftr value 6) (Z.ones 5)
  | JFMT => Z.land value (Z.ones 26)
  end.

Definition decode_bcond (value : Z) : opcode :=
  let i := Z.land value (Z.shiftl (Z.ones 5) 16) in
  if i =? 0 then OP_BLTZ else if i =? 2 ^ 16 then OP_BGEZ
  else if i =? 2 ^ 20 then OP_BLTZAL else if i =? 2 ^ 20 + 2 ^ 16 then OP_BGEZAL else OP_UNIMP.

Definition Decode (value : Z) : res Instruction :=
  let rs := Z.land (Z.shiftr value 21) (Z.ones 5) in
  let rt := Z.land (Z.shiftr value 16) (Z.ones 5) in
  let rd := Z.land (Z.shiftr value 11) (Z.ones 5) in
  '(op, f) ← aget opTable (Z.land (Z.shiftr value 26) (Z.ones 6));
  let extra := decode_extra value f in
  op ← (match op with
        | SPECIAL => aget specialTable (Z.land value (Z.ones 6))
        | BCOND => Ok (decode_bcond value)
        | _ => Ok op
        end);
  Ok (MkInstr op rs rt rd extra).

(** [Mult]: the loop over the bits of [a], with a [break] ([inr]). *)
Record mult_state := MkMult { ma : Z; bHi : Z; bLo : Z; hi : Z; lo : Z }.

Definition mult_step (s : mult_state) : mult_state + mult_state :=
  let s1 :=
    if negb (Z.land (ma s) 1 =? 0) then
      let lo' := u32 (lo s + bLo s) in
      let hi' := if lo' <? bLo s then u32 (hi s + 1) else hi s in
      MkMult (ma s) (bHi s) (bLo s) (u32 (hi' + bHi s)) lo'
    else s in
  if negb (Z.land (ma s) 1 =? 0) && (Z.land (u32 (ma s)) (Z.shiftl (Z.ones 31) 1) =? 0) then inr s1
  else
    let bHi' := u32 (Z.shiftl (bHi s1) 1) in
    let bHi' := if negb (Z.land (bLo s1) (2 ^ 31) =? 0) then Z.lor bHi' 1 else bHi' in
    inl (MkMult (Z.shiftr (ma s1) 1) bHi' (u32 (Z.shiftl (bLo s1) 1)) (hi s1) (lo s1)).

Fixpoint mult_loop (n : nat) (s : mult_state) : mult_state :=
  match n with
  | O => s
  | S n => match mult_step s with inl s => mult_loop n s | inr s => s end
  end.

(** The pair ([*hiPtr], [*loPtr]). *)
Definition Mult (a b : Z) (signedArith : bool) : Z * Z :=
  if (a =? 0) || (b =? 0) then (0, 0)
  else
    let negative := signedArith && xorb (a <? 0) (b <? 0) in
    let a := if signedArith && (a <? 0) then i32 (- a) else a in
    let b := if signedArith && (b <? 0) then i32 (- b) else b in
    let s := mult_loop 32 (MkMult a 0 (u32 b) 0 0) in
    let '(h, l) :=
      if negative then
        let h := u32 (Z.lnot (hi s)) in
        let l := u32 (u32 (Z.lnot (lo s)) + 1) in
        (if l =? 0 then u32 (h + 1) else h, l)
      else (hi s, lo s) in
    (i32 h, i32 l).

(** [x & SIGN_BIT], [IndexToAddr(x)] *)
Definition sign_bit (x : Z) : bool := Z.testbit (u32 x) 31.
Definition IndexToAddr (x : Z) : Z := i32 (Z.shiftl x 2).

(** The merges of LWL, LWR, SWL and SWR; [byte] is the offset in the aligned word. *)
Definition lwl_merge (byte value old : Z) : Z :=
  match 3 - byte with
  | 0 => value
  | 1 => i32 (Z.lor (Z.land old (Z.ones 8)) (Z.shiftl value 8))
  | 2 => i32 (Z.lor (Z.land old (Z.ones 16)) (Z.shiftl value 16))
  | _ => i32 (Z.lor (Z.land old (Z.ones 24)) (Z.shiftl value 24))
  end.
Definition lwr_merge (byte value old : Z) : Z :=
  match 3 - byte with
  | 0 => i32 (Z.lor (Z.land (u32 old) (Z.shiftl (Z.ones 24) 8)) (Z.land (Z.shiftr value 24) (Z.ones 8)))
  | 1 => i32 (Z.lor (Z.land (u32 old) (Z.shiftl (Z.ones 16) 16)) (Z.land (Z.shiftr value 16) (Z.ones 16)))
  | 2 => i32 (Z.lor (Z.land (u32 old) (Z.shiftl (Z.ones 8) 24)) (Z.land (Z.shiftr value 8) (Z.ones 24)))
  | _ => value
  end.
Definition swl_merge (byte value reg : Z) : Z :=
  match 3 - byte with
  | 0 => reg
  | 1 => i32 (Z.lor (Z.land (u32 value) (Z.shiftl (Z.ones 8) 24)) (Z.land (Z.shiftr reg 8) (Z.ones 24)))
  | 2 => i32 (Z.lor (Z.land (u32 value) (Z.shiftl (Z.ones 16) 16)) (Z.land (Z.shiftr reg 16) (Z.ones 16)))
  | _ => i32 (Z.lor (Z.land (u32 value) (Z.shiftl (Z.ones 24) 8)) (Z.land (Z.shiftr reg 24) (Z.ones 8)))
  end.
Definition swr_merge (byte value reg : Z) : Z :=
  match 3 - byte with
  | 0 => i32 (Z.lor (Z.land value (Z.ones 24)) (Z.shiftl reg 24))
  | 1 => i32 (Z.lor (Z.land value (Z.ones 16)) (Z.shiftl reg 16))
  | 2 => i32 (Z.lor (Z.land value (Z.ones 8)) (Z.shiftl reg 8))
  | _ => reg
  end.

Section Registers.
Context {St : Type} {R : Registers St}.

Definition reg (n : Z) : M St Z := fun st => (r ← aget (regs st) n; Ok (r, st)).
Definition set_reg (n v : Z) : M St unit := fun st => (l ← aset (regs st) n v; Ok (tt, set_regs l st)).

(** [DelayedLoad] *)
Definition DelayedLoad (nextReg nextValue : Z) : M St unit :=
  l ← reg LoadReg; v ← reg LoadValueReg; _ ← set_reg l v;
  _ ← set_reg LoadReg nextReg; _ ← set_reg LoadValueReg nextValue;
  set_reg 0 0.

(** The end of [OneInstruction]: the program counters advance. *)
Definition advance (pcAfter : Z) : M St unit :=
  pc ← reg PCReg; _ ← set_reg PrevPCReg pc;
  next ← reg NextPCReg; _ ← set_reg PCReg next; set_reg NextPCReg pcAfter.
End Registers.

Section Ops.
Context {St : Type} {CPU : Cpu St}.

(** How [OneInstruction] leaves its switch: a return, or the code after it with [pcAfter],
    [nextLoadReg] and [nextLoadValue]. *)
Inductive exec := Return | Continue (pcAfter nextLoadReg nextLoadValue : Z).

Definition raise (which badVAddr : Z) : M St exec := _ ← RaiseException which badVAddr; mret Return.

(** Arithmetic that may raise: ADD, ADDI and SUB. *)
Definition exec_add (i : Instruction) (pcAfter : Z) : M St exec :=
  a ← reg (rs i); b ← reg (rt i);
  let sum := i32 (a + b) in
  if negb (xorb (sign_bit a) (sign_bit b)) && xorb (sign_bit a) (sign_bit sum) then raise OverflowException 0
  else _ ← set_reg (rd i) sum; mret (Continue pcAfter 0 0).

Definition exec_addi (i : Instruction) (pcAfter : Z) : M St exec :=
  a ← reg (rs i);
  let sum := i32 (a + extra i) in
  if negb (xorb (sign_bit a) (sign_bit (extra i))) && xorb (sign_bit (extra i)) (sign_bit sum)
  then raise OverflowException 0
  else _ ← set_reg (rt i) sum; mret (Continue pcAfter 0 0).

Definition exec_sub (i : Instruction) (pcAfter : Z) : M St exec :=
  a ← reg (rs i); b ← reg (rt i);
  let diff := i32 (a - b) in
  if xorb (sign_bit a) (sign_bit b) && xorb (sign_bit a) (sign_bit diff) then raise OverflowException 0
  else _ ← set_reg (rd i) diff; mret (Continue pcAfter 0 0).

(** [registers[rd] = f(registers[rs], registers[rt])] and the like. *)
Definition exec_rd (i : Instruction) (pcAfter : Z) (f : Z -> Z -> Z) : M St exec :=
  a ← reg (rs i); b ← reg (rt i); _ ← set_reg (rd i) (f a b); mret (Continue pcAfter 0 0).
Definition exec_rt (i : Instruction) (pcAfter : Z) (f : Z -> Z) : M St exec :=
  a ← reg (rs i); _ ← set_reg (rt i) (f a); mret (Continue pcAfter 0 0).
(** [registers[to] = registers[from]] *)
Definition exec_move (from to pcAfter : Z) : M St exec :=
  a ← reg from; _ ← set_reg to a; mret (Continue pcAfter 0 0).

(** Conditional branches, the linking ones first storing the return address. *)
Definition exec_branch (i : Instruction) (pcAfter : Z) (link : bool) (cond : Z -> Z -> bool) : M St exec :=
  _ ← (if link then n ← reg NextPCReg; set_reg R31 (i32 (n + 4)) else mret tt);
  a ← reg (rs i); b ← reg (rt i);
  if cond a b then n ← reg NextPCReg; mret (Continue (i32 (n + IndexToAddr (extra i))) 0 0)
  else mret (Continue pcAfter 0 0).

Definition exec_jump (i : Instruction) (pcAfter : Z) (link : bool) : M St exec :=
  _ ← (if link then n ← reg NextPCReg; set_reg R31 (i32 (n + 4)) else mret tt);
  mret (Continue (i32 (Z.lor (Z.land (u32 pcAfter) (Z.shiftl (Z.ones 4) 28)) (IndexToAddr (extra i)))) 0 0).

Definition exec_jr (i : Instruction) (link : bool) : M St exec :=
  _ ← (if link then n ← reg NextPCReg; set_reg (rd i) (i32 (n + 4)) else mret tt);
  a ← reg (rs i); mret (Continue a 0 0).

(** DIV: the int quotient that does not exist, INT_MIN / -1, is undefined. *)
Definition exec_div (i : Instruction) (pcAfter : Z) : M St exec :=
  a ← reg (rs i); b ← reg (rt i);
  if b =? 0 then _ ← set_reg LoReg 0; _ ← set_reg HiReg 0; mret (Continue pcAfter 0 0)
  else if (a =? - 2 ^ 31) && (b =? -1) then lift Undefined
  else _ ← set_reg LoReg (a /c b); _ ← set_reg HiReg (a %c b); mret (Continue pcAfter 0 0).

Definition exec_divu (i : Instruction) (pcAfter : Z) : M St exec :=
  a ← reg (rs i); b ← reg (rt i);
  if u32 b =? 0 then _ ← set_reg LoReg 0; _ ← set_reg HiReg 0; mret (Continue pcAfter 0 0)
  else
    _ ← set_reg LoReg (i32 (u32 a / u32 b)); _ ← set_reg HiReg (i32 (u32 a mod u32 b));
    mret (Continue pcAfter 0 0).

Definition exec_mult (i : Instruction) (pcAfter : Z) (signedArith : bool) : M St exec :=
  a ← reg (rs i); b ← reg (rt i);
  let '(h, l) := Mult a b signedArith in
  _ ← set_reg HiReg h; _ ← set_reg LoReg l; mret (Continue pcAfter 0 0).

(** Loads: the value goes to the register one instruction later. *)
Definition exec_load (i : Instruction) (pcAfter size mask : Z) (extend : Z -> Z) : M St exec :=
  a ← reg (rs i);
  let tmp := i32 (a + extra i) in
  if negb (Z.land tmp mask =? 0) then raise AddressErrorException tmp
  else
    v ← ReadMem tmp size;
    match v with
    | None => mret Return
    | Some value => mret (Continue pcAfter (rt i) (extend value))
    end.

Definition extend_lb (signed : bool) (value : Z) : Z :=
  if negb (Z.land value (2 ^ 7) =? 0) && signed then i32 (Z.lor (u32 value) (Z.shiftl (Z.ones 24) 8))
  else Z.land value (Z.ones 8).
Definition extend_lh (signed : bool) (value : Z) : Z :=
  if negb (Z.land value (2 ^ 15) =? 0) && signed then i32 (Z.lor (u32 value) (Z.shiftl (Z.ones 16) 16))
  else Z.land value (Z.ones 16).

(** LWL and LWR merge with the register, or with the load that is still pending for it. *)
Definition exec_lwx (i : Instruction) (pcAfter : Z) (merge : Z -> Z -> Z -> Z) : M St exec :=
  a ← reg (rs i);
  let tmp := i32 (a + extra i) in
  let byte := Z.land tmp 3 in
  v ← ReadMem (i32 (tmp - byte)) 4;
  match v with
  | None => mret Return
  | Some value =>
      l ← reg LoadReg;
      old ← (if l =? rt i then reg LoadValueReg else reg (rt i));
      mret (Continue pcAfter (rt i) (merge byte value old))
  end.

Definition exec_store (i : Instruction) (pcAfter size : Z) : M St exec :=
  a ← reg (rs i); v ← reg (rt i);
  ok ← WriteMem (i32 (a + extra i)) size v;
  mret (if (ok : bool) then Continue pcAfter 0 0 else Return).

Definition exec_swx (i : Instruction) (pcAfter : Z) (merge : Z -> Z -> Z -> Z) : M St exec :=
  a ← reg (rs i);
  let tmp := i32 (a + extra i) in
  let byte := Z.land tmp 3 in
  v ← ReadMem (i32 (tmp - byte)) 4;
  match v with
  | None => mret Return
  | Some value =>
      r ← reg (rt i);
      ok ← WriteMem (i32 (tmp - byte)) 4 (merge byte value r);
      mret (if (ok : bool) then Continue pcAfter 0 0 else Return)
  end.

Definition uimm (i : Instruction) : Z := Z.land (extra i) (Z.ones 16).
Definition b2i (b : bool) : Z := if b then 1 else 0.

(** The switch of [OneInstruction]. *)
Definition execute (i : Instruction) (pcAfter : Z) : M St exec :=
  match opCode i with
  | OP_ADD => exec_add i pcAfter
  | OP_ADDI => exec_addi i pcAfter
  | OP_ADDIU => exec_rt i pcAfter (fun a => i32 (a + extra i))
  | OP_ADDU => exec_rd i pcAfter (fun a b => i32 (a + b))
  | OP_AND => exec_rd i pcAfter Z.land
  | OP_ANDI => exec_rt i pcAfter (fun a => Z.land a (uimm i))
  | OP_BEQ => exec_branch i pcAfter false Z.eqb
  | OP_BGEZAL => exec_branch i pcAfter true (fun a _ => negb (sign_bit a))
  | OP_BGEZ => exec_branch i pcAfter false (fun a _ => negb (sign_bit a))
  | OP_BGTZ => exec_branch i pcAfter false (fun a _ => 0 <? a)
  | OP_BLEZ => exec_branch i pcAfter false (fun a _ => a <=? 0)
  | OP_BLTZAL => exec_branch i pcAfter true (fun a _ => sign_bit a)
  | OP_BLTZ => exec_branch i pcAfter false (fun a _ => sign_bit a)
  | OP_BNE => exec_branch i pcAfter false (fun a b => negb (a =? b))
  | OP_DIV => exec_div i pcAfter
  | OP_DIVU => exec_divu i pcAfter
  | OP_JAL => exec_jump i pcAfter true
  | OP_J => exec_jump i pcAfter false
  | OP_JALR => exec_jr i true
  | OP_JR => exec_jr i false
  | OP_LB => exec_load i pcAfter 1 0 (extend_lb true)
  | OP_LBU => exec_load i pcAfter 1 0 (extend_lb false)
  | OP_LH => exec_load i pcAfter 2 1 (extend_lh true)
  | OP_LHU => exec_load i pcAfter 2 1 (extend_lh false)
  | OP_LUI => _ ← set_reg (rt i) (i32 (Z.shiftl (extra i) 16)); mret (Continue pcAfter 0 0)
  | OP_LW => exec_load i pcAfter 4 3 (fun v => v)
  | OP_LWL => exec_lwx i pcAfter lwl_merge
  | OP_LWR => exec_lwx i pcAfter lwr_merge
  | OP_MFHI => exec_move HiReg (rd i) pcAfter
  | OP_MFLO => exec_move LoReg (rd i) pcAfter
  | OP_MTHI => exec_move (rs i) HiReg pcAfter
  | OP_MTLO => exec_move (rs i) LoReg pcAfter
  | OP_MULT => exec_mult i pcAfter true
  | OP_MULTU => exec_mult i pcAfter false
  | OP_NOR => exec_rd i pcAfter (fun a b => Z.lnot (Z.lor a b))
  | OP_OR => exec_rd i pcAfter Z.lor
  | OP_ORI => exec_rt i pcAfter (fun a => Z.lor a (uimm i))
  | OP_SB => exec_store i pcAfter 1
  | OP_SH => exec_store i pcAfter 2
  | OP_SLL => exec_rd i pcAfter (fun _ b => i32 (Z.shiftl b (extra i)))
  | OP_SLLV => exec_rd i pcAfter (fun a b => i32 (Z.shiftl b (Z.land a (Z.ones 5))))
  | OP_SLT => exec_rd i pcAfter (fun a b => b2i (a <? b))
  | OP_SLTI => exec_rt i pcAfter (fun a => b2i (a <? extra i))
  | OP_SLTIU => exec_rt i pcAfter (fun a => b2i (u32 a <? u32 (extra i)))
  | OP_SLTU => exec_rd i pcAfter (fun a b => b2i (u32 a <? u32 b))
  | OP_SRA => exec_rd i pcAfter (fun _ b => Z.shiftr b (extra i))
  | OP_SRAV => exec_rd i pcAfter (fun a b => Z.shiftr b (Z.land a (Z.ones 5)))
  | OP_SRL => exec_rd i pcAfter (fun _ b => Z.shiftr b (extra i))
  | OP_SRLV => exec_rd i pcAfter (fun a b => Z.shiftr b (Z.land a (Z.ones 5)))
  | OP_SUB => exec_sub i pcAfter
  | OP_SUBU => exec_rd i pcAfter (fun a b => i32 (a - b))
  | OP_SW => exec_store i pcAfter 4
  | OP_SWL => exec_swx i pcAfter swl_merge
  | OP_SWR => exec_swx i pcAfter swr_merge
  | OP_SYSCALL => raise SyscallException 0
  | OP_XOR => exec_rd i pcAfter Z.lxor
  | OP_XORI => exec_rt i pcAfter (fun a => Z.lxor a (uimm i))
  | OP_RES => raise IllegalInstrException 0
  | OP_UNIMP => raise IllegalInstrException 0
  | OP_RFE => lift AssertFail
  | SPECIAL => lift AssertFail
  | BCOND => lift AssertFail
  end.

Definition OneInstruction : M St unit :=
  pc ← reg PCReg;
  raw ← ReadMem pc 4;
  match raw with
  | None => mret tt
  | Some raw =>
      instr ← lift (Decode (u32 raw));
      next ← reg NextPCReg;
      e ← execute instr (i32 (next + 4));
      match e with
      | Return => mret tt
      | Continue pcAfter nextLoadReg nextLoadValue =>
          _ ← DelayedLoad nextLoadReg nextLoadValue; advance pcAfter
      end
  end.
End Ops.


(** * Multiplication *)

Lemma land_1 x : Z.land x 1 = x mod 2.
Proof. change 1 with (Z.ones 1). by rewrite Z.land_ones by lia. Qed.

Lemma land_1_odd x : negb (Z.land x 1 =? 0) = Z.odd x.
Proof. rewrite land_1, Zmod_odd. by destruct (Z.odd x). Qed.

(** [x & 0xfffffffe] is zero for a word with no bit above the lowest. *)
Lemma land_high x : is_u32 x -> (Z.land x (Z.shiftl (Z.ones 31) 1) =? 0) = (x <? 2).
Proof.
  intros Hx. unfold is_u32 in Hx. apply eq_true_iff_eq. rewrite Z.eqb_eq, Z.ltb_lt. split.
  - intros H. destruct (Z.lt_ge_cases x 2) as [|Hge]; [done|]. exfalso.
    assert (Z.testbit (Z.land x (Z.shiftl (Z.ones 31) 1)) (Z.log2 x) = false) as Hb by (by rewrite H, Z.testbit_0_l).
    pose proof (Z.log2_le_mono 2 x Hge) as Hl. change (Z.log2 2) with 1 in Hl.
    assert (Z.log2 x < 32) by (apply Z.log2_lt_pow2; lia).
    rewrite Z.land_spec, Z.bit_log2, Z.shiftl_spec, Z.ones_spec_low in Hb by lia. done.
  - intros H. assert (x = 0 \/ x = 1) as [->| ->] by lia; done.
Qed.

Lemma high_bit x : is_u32 x -> negb (Z.land x (2 ^ 31) =? 0) = (2 ^ 31 <=? x).
Proof.
  intros Hx. unfold is_u32 in Hx.
  assert (Z.land x (2 ^ 31) = (x / 2 ^ 31) * 2 ^ 31) as ->.
  { rewrite <- Z.shiftr_div_pow2, <- Z.shiftl_mul_pow2 by lia. apply Z.bits_inj_iff'. intros n Hn.
    rewrite Z.land_spec, Z.shiftl_spec by lia.
    destruct (Z.lt_ge_cases n 31).
    - rewrite Z.pow2_bits_false, (Z.testbit_neg_r _ (n - 31)) by lia. apply andb_false_r.
    - rewrite Z.shiftr_spec by lia. replace (n - 31 + 31) with n by lia.
      destruct (Z.eq_dec n 31) as [->|]; [by rewrite Z.pow2_bits_true, andb_true_r by lia|].
      rewrite Z.pow2_bits_false, andb_false_r by lia. symmetry.
      rewrite <- (Z.mod_small x (2 ^ 32)) by lia. apply Z.mod_pow2_bits_high. lia. }
  apply eq_true_iff_eq. rewrite negb_true_iff, Z.eqb_neq, Z.leb_le.
  pose proof (Z.div_mod x (2 ^ 31)). pose proof (Z.mod_pos_bound x (2 ^ 31)). nia.
Qed.

Lemma lor_even_1 x : x mod 2 = 0 -> Z.lor x 1 = x + 1.
Proof.
  intros Hx. pose proof (Z.add_lor_land x 1) as H. rewrite land_1, Hx in H. lia.
Qed.

(** The double words of the loop. *)
Definition acc (s : mult_state) : Z := hi s * 2 ^ 32 + lo s.
Definition addend (s : mult_state) : Z := bHi s * 2 ^ 32 + bLo s.
Definition words_ok (s : mult_state) : Prop := is_u32 (hi s) /\ is_u32 (lo s) /\ is_u32 (bHi s) /\ is_u32 (bLo s).

(** Before turn [i]: the product of the low [i] bits of [a] is accumulated. *)
Definition mult_inv (a b i : Z) (s : mult_state) : Prop :=
  words_ok s /\ ma s = a / 2 ^ i /\ addend s = (b * 2 ^ i) mod 2 ^ 64 /\
  acc s = (a mod 2 ^ i * b) mod 2 ^ 64.

Definition add_step (s : mult_state) : mult_state :=
  let lo' := u32 (lo s + bLo s) in
  let hi' := if lo' <? bLo s then u32 (hi s + 1) else hi s in
  MkMult (ma s) (bHi s) (bLo s) (u32 (hi' + bHi s)) lo'.

Lemma add_step_acc s : words_ok s -> acc (add_step s) = (acc s + addend s) mod 2 ^ 64 /\ words_ok (add_step s).
Proof.
  intros (H1 & H2 & H3 & H4). unfold words_ok, acc, addend, add_step. cbn [hi lo bHi bLo].
  split; [|split_and!; auto with nachos].
  unfold is_u32, u32 in *. change (2 ^ 64) with (2 ^ 32 * 2 ^ 32).
  destruct (Z.ltb_spec ((lo s + bLo s) mod 2 ^ 32) (bLo s)) as [Hc|Hc];
    Z.div_mod_to_equations; nia.
Qed.

Definition shift_step (s : mult_state) : mult_state :=
  let bHi' := u32 (Z.shiftl (bHi s) 1) in
  let bHi' := if negb (Z.land (bLo s) (2 ^ 31) =? 0) then Z.lor bHi' 1 else bHi' in
  MkMult (Z.shiftr (ma s) 1) bHi' (u32 (Z.shiftl (bLo s) 1)) (hi s) (lo s).

Lemma shift_step_addend s : words_ok s ->
  addend (shift_step s) = (2 * addend s) mod 2 ^ 64 /\ acc (shift_step s) = acc s /\ words_ok (shift_step s) /\
  ma (shift_step s) = ma s / 2.
Proof.
  intros (H1 & H2 & H3 & H4). unfold words_ok, acc, addend, shift_step. cbn [hi lo bHi bLo ma].
  rewrite high_bit by done. rewrite !Z.shiftl_mul_pow2, Z.shiftr_div_pow2 by lia. change (2 ^ 1) with 2.
  assert (u32 (bHi s * 2) mod 2 = 0) as Hev by (unfold u32; Z.div_mod_to_equations; lia).
  rewrite (lor_even_1 _ Hev). pose proof (u32_range (bHi s * 2)) as Hu.
  unfold is_u32, u32 in *. change (2 ^ 64) with (2 ^ 32 * 2 ^ 32).
  destruct (Z.leb_spec (2 ^ 31) (bLo s)); split_and!; try lia; Z.div_mod_to_equations; nia.
Qed.

Lemma mult_step_eq s : mult_step s =
  let s1 := if Z.odd (ma s) then add_step s else s in
  if Z.odd (ma s) && (u32 (ma s) <? 2) then inr s1 else inl (shift_step s1).
Proof.
  unfold mult_step. rewrite land_1_odd. rewrite land_high by auto with nachos. by destruct (Z.odd (ma s)).
Qed.

Lemma mod_pow2_succ a i : 0 <= i ->
  a mod 2 ^ (i + 1) = a mod 2 ^ i + (if Z.odd (a / 2 ^ i) then 2 ^ i else 0).
Proof.
  intros Hi. rewrite Z.pow_add_r, Z.rem_mul_r by lia. change (2 ^ 1) with 2.
  rewrite Zmod_odd. destruct (Z.odd (a / 2 ^ i)); lia.
Qed.

Lemma mult_inv_step a b i s : 0 <= i -> mult_inv a b i s ->
  mult_inv a b (i + 1) (shift_step (if Z.odd (ma s) then add_step s else s)).
Proof.
  intros Hi (Hw & Hm & Ha & Hacc). set (s1 := if Z.odd (ma s) then add_step s else s).
  assert (words_ok s1 /\ ma s1 = ma s /\ addend s1 = addend s /\ acc s1 = (a mod 2 ^ (i + 1) * b) mod 2 ^ 64)
    as (Hw1 & Hm1 & Ha1 & Hacc1).
  { unfold s1. rewrite mod_pow2_succ, <- Hm by done. destruct (Z.odd (ma s)).
    - destruct (add_step_acc s Hw) as [E Hw1]. split_and!; [done|done|done|]. rewrite E, Hacc, Ha.
      rewrite <- Zplus_mod. f_equal. ring.
    - split_and!; try done. rewrite Z.add_0_r. done. }
  destruct (shift_step_addend s1 Hw1) as (E1 & E2 & E3 & E4).
  split; [done|]. split; [|split].
  - rewrite E4, Hm1, Hm, Z.div_div by lia. by rewrite Z.pow_add_r by lia.
  - rewrite E1, Ha1, Ha, Zmult_mod_idemp_r. f_equal. rewrite Z.pow_add_r by lia. ring.
  - by rewrite E2.
Qed.

Lemma mult_loop_ok a b n i s : is_i32 a -> 0 <= i -> i + Z.of_nat n = 32 -> mult_inv a b i s ->
  acc (mult_loop n s) = (u32 a * b) mod 2 ^ 64 /\ words_ok (mult_loop n s).
Proof.
  intros Ha. revert i s. induction n as [|n IH]; intros i s Hi Hn Hinv.
  - assert (i = 32) as -> by lia. destruct Hinv as (Hw & _ & _ & Hacc). by cbn [mult_loop].
  - cbn [mult_loop]. rewrite mult_step_eq. cbv zeta.
    destruct (Z.odd (ma s) && (u32 (ma s) <? 2)) eqn:Hb.
    2:{ apply (IH (i + 1)); [lia|lia|]. by apply mult_inv_step. }
    apply andb_true_iff in Hb as [Hodd Hlt%Z.ltb_lt]. rewrite Hodd. destruct Hinv as (Hw & Hm & Had & Hacc).
    destruct (add_step_acc s Hw) as [E Hw1]. split; [|done]. rewrite E, Hacc, Had, <- Zplus_mod. f_equal.
    assert (0 < 2 ^ i) by lia.
    assert (ma s = 1) as Hma.
    { assert (is_i32 (ma s)) as Hr. { rewrite Hm. unfold is_i32 in *. split.
        - apply Z.div_le_lower_bound; [lia|]. nia.
        - apply Z.div_lt_upper_bound; nia. }
      unfold is_i32 in Hr. unfold u32 in Hlt. rewrite <- Z.negb_even in Hodd.
      pose proof (Z.mod_pos_bound (ma s) (2 ^ 32) ltac:(lia)).
      pose proof (Zmod_odd (ma s)) as Ho. rewrite <- Z.negb_even, Hodd in Ho.
      clear - Hr Hlt Ho H0. Z.div_mod_to_equations. lia. }
    rewrite Hma in Hm. pose proof (Z.div_mod a (2 ^ i) ltac:(lia)) as Hdm. pose proof (Z.mod_pos_bound a (2 ^ i) ltac:(lia)).
    rewrite (u32_id a) by (unfold is_u32; unfold is_i32 in Ha; lia). rewrite Hdm at 2. rewrite <- Hm. ring.
Qed.

Lemma i32_word h : is_u32 h -> u32 (i32 h) = h.
Proof. intros. by rewrite u32_i32, u32_id. Qed.

(** The two's complement of a double word. *)
Lemma negate_words h l : is_u32 h -> is_u32 l ->
  let l' := u32 (u32 (Z.lnot l) + 1) in
  let h' := u32 (Z.lnot h) in
  (if l' =? 0 then u32 (h' + 1) else h') * 2 ^ 32 + l' = (- (h * 2 ^ 32 + l)) mod 2 ^ 64.
Proof.
  intros Hh Hl. cbv zeta. unfold Z.lnot, u32, is_u32 in *. change (2 ^ 64) with (2 ^ 32 * 2 ^ 32).
  assert (Z.pred (- l) mod 2 ^ 32 = 2 ^ 32 - 1 - l) as -> by (Z.div_mod_to_equations; lia).
  assert (Z.pred (- h) mod 2 ^ 32 = 2 ^ 32 - 1 - h) as -> by (Z.div_mod_to_equations; lia).
  destruct (Z.eqb_spec ((2 ^ 32 - 1 - l + 1) mod 2 ^ 32) 0); Z.div_mod_to_equations; nia.
Qed.

Definition double_word (p : Z * Z) : Z := u32 (fst p) * 2 ^ 32 + u32 (snd p).

Lemma mult_init a b : is_u32 b -> mult_inv a b 0 (MkMult a 0 b 0 0).
Proof.
  intros Hb. unfold is_u32 in Hb. split; [|split; [|split]].
  - unfold words_ok. cbn [hi lo bHi bLo]. unfold is_u32. lia.
  - cbn [ma]. change (2 ^ 0) with 1. by rewrite Z.div_1_r.
  - unfold addend. cbn [bHi bLo]. change (2 ^ 0) with 1. rewrite Z.mod_small by lia. lia.
  - unfold acc. cbn [hi lo]. change (2 ^ 0) with 1. by rewrite Z.mod_1_r.
Qed.

Lemma Mult_spec a b signed : is_i32 a -> is_i32 b ->
  double_word (Mult a b signed) = (if signed then a * b else u32 a * u32 b) mod 2 ^ 64 /\
  is_i32 (fst (Mult a b signed)) /\ is_i32 (snd (Mult a b signed)).
Proof.
  intros Ha Hb. unfold Mult.
  destruct ((a =? 0) || (b =? 0)) eqn:Hz.
  { split; [|done]. apply orb_true_iff in Hz as [->%Z.eqb_eq| ->%Z.eqb_eq]; destruct signed;
      rewrite ?Z.mul_0_l, ?Z.mul_0_r; try done; change (u32 0) with 0; by rewrite ?Z.mul_0_l, ?Z.mul_0_r. }
  set (a1 := if signed && (a <? 0) then i32 (- a) else a).
  set (b1 := if signed && (b <? 0) then i32 (- b) else b).
  assert (is_i32 a1) as Ha1 by (unfold a1; destruct (_ && _); auto with nachos).
  destruct (mult_loop_ok a1 (u32 b1) 32 0 (MkMult a1 0 (u32 b1) 0 0)) as [Hacc (Hh & Hl & _)];
    [done|lia|lia|apply mult_init; auto with nachos|].
  set (s := mult_loop 32 _) in *. cbv zeta. clearbody s.
  assert (double_word (i32 (hi s), i32 (lo s)) = acc s) as Hd
    by (unfold double_word; cbn [fst snd]; by rewrite !i32_word).
  destruct signed; cbn [andb] in *.
  - assert (u32 a1 = Z.abs a /\ u32 b1 = Z.abs b) as [Ea Eb].
    { unfold a1, b1, is_i32, i32, u32 in *.
      destruct (Z.ltb_spec a 0), (Z.ltb_spec b 0); split; Z.div_mod_to_equations; lia. }
    rewrite Ea, Eb in Hacc.
    destruct (xorb (a <? 0) (b <? 0)) eqn:Hs.
    + pose proof (negate_words (hi s) (lo s) Hh Hl) as Hn. cbv zeta in Hn.
      split; [|split; apply i32_range].
      unfold double_word. cbn [fst snd]. rewrite !i32_word by (try case_match; auto with nachos).
      rewrite Hn. unfold acc in Hacc. rewrite Hacc.
      assert (a * b = - (Z.abs a * Z.abs b)) as ->.
      { destruct (Z.ltb_spec a 0), (Z.ltb_spec b 0); try discriminate Hs; nia. }
      rewrite <- (Z.sub_0_l (_ mod _)), <- (Z.sub_0_l (_ * _)). by rewrite Zminus_mod_idemp_r.
    + split; [|split; apply i32_range]. rewrite Hd, Hacc. f_equal.
      destruct (Z.ltb_spec a 0), (Z.ltb_spec b 0); try discriminate Hs; nia.
  - split; [|split; apply i32_range]. by rewrite Hd, Hacc.
Qed.

(** * Decoding *)

(** The operations the switch of OneInstruction handles. *)
Definition handled (op : opcode) : Prop := op <> OP_RFE /\ op <> SPECIAL /\ op <> BCOND.

#[export] Instance handled_dec op : Decision (handled op).
Proof. unfold handled. apply _. Defined.

(** Shifts by a constant. *)
Definition is_shift (op : opcode) : bool :=
  match op with OP_SLL | OP_SRL | OP_SRA => true | _ => false end.

Lemma tables_handled : Forall handled specialTable /\
  Forall (fun p => p = (SPECIAL, RFMT) \/ fst p = BCOND \/ (handled (fst p) /\ is_shift (fst p) = false)) opTable.
Proof. split; by_compute. Qed.

Lemma land_ones_range x n : 0 <= n -> 0 <= Z.land x (Z.ones n) < 2 ^ n.
Proof. intros. rewrite Z.land_ones by lia. apply Z.mod_pos_bound. lia. Qed.

Lemma decode_bcond_handled value : handled (decode_bcond value).
Proof. unfold decode_bcond. repeat case_match; by_compute. Qed.

(** A sign-extended 16-bit field, as the number it denotes. *)
Lemma decode_imm value : decode_extra value IFMT =
  let x := value mod 2 ^ 16 in if x <? 2 ^ 15 then x else x - 2 ^ 16.
Proof.
  unfold decode_extra. rewrite Z.land_ones by lia. set (x := value mod 2 ^ 16).
  pose proof (Z.mod_pos_bound value (2 ^ 16) ltac:(lia)) as Hx. fold x in Hx. clearbody x.
  assert (Z.land x (2 ^ 15) = (x / 2 ^ 15) * 2 ^ 15) as ->.
  { rewrite <- Z.shiftr_div_pow2, <- Z.shiftl_mul_pow2 by lia. apply Z.bits_inj_iff'. intros n Hn.
    rewrite Z.land_spec, Z.shiftl_spec by lia.
    destruct (Z.lt_ge_cases n 15).
    - rewrite Z.pow2_bits_false, (Z.testbit_neg_r _ (n - 15)) by lia. apply andb_false_r.
    - rewrite Z.shiftr_spec by lia. replace (n - 15 + 15) with n by lia.
      destruct (Z.eq_dec n 15) as [->|]; [by rewrite Z.pow2_bits_true, andb_true_r by lia|].
      rewrite Z.pow2_bits_false, andb_false_r by lia. symmetry.
      rewrite <- (Z.mod_small x (2 ^ 16)) by lia. apply Z.mod_pow2_bits_high. lia. }
  destruct (Z.ltb_spec x (2 ^ 15)).
  - rewrite Z.div_small by lia. done.
  - replace (x / 2 ^ 15) with 1 by (apply Z.div_unique with (x - 2 ^ 15); lia).
    change (negb (1 * 2 ^ 15 =? 0)) with true. cbv iota.
    assert (Z.lor x (Z.shiftl (Z.ones 16) 16) = x + (2 ^ 16 - 1) * 2 ^ 16) as ->.
    { rewrite Z.shiftl_mul_pow2 by lia. change (Z.ones 16) with (2 ^ 16 - 1).
      assert (Z.land x ((2 ^ 16 - 1) * 2 ^ 16) = 0) as Hl.
      { apply Z.bits_inj_iff'. intros n Hn. rewrite Z.land_spec, Z.bits_0.
        destruct (Z.lt_ge_cases n 16).
        - by rewrite Z.mul_pow2_bits_low, andb_false_r by lia.
        - rewrite <- (Z.mod_small x (2 ^ 16)), Z.mod_pow2_bits_high by lia. done. }
      pose proof (Z.add_lor_land x ((2 ^ 16 - 1) * 2 ^ 16)). lia. }
    unfold i32. Z.div_mod_to_equations. lia.
Qed.

Lemma decode_extra_range value f : is_i32 (decode_extra value f).
Proof.
  destruct f; [rewrite decode_imm; pose proof (Z.mod_pos_bound value (2 ^ 16)); cbv zeta; unfold is_i32; destruct (_ <? _) eqn:E; lia| |];
    unfold decode_extra, is_i32; [pose proof (land_ones_range value 26)|pose proof (land_ones_range (Z.shiftr value 6) 5)]; lia.
Qed.

Record instr_ok (i : Instruction) : Prop := {
  io_op : handled (opCode i);
  io_rs : 0 <= rs i < 32;
  io_rt : 0 <= rt i < 32;
  io_rd : 0 <= rd i < 32;
  io_extra : is_i32 (extra i);
  io_shift : is_shift (opCode i) = true -> 0 <= extra i < 32
}.

Lemma Decode_ok value : exists i, Decode value = Ok i /\ instr_ok i.
Proof.
  unfold Decode. destruct tables_handled as [Hsp Hop].
  destruct (aget_in opTable (Z.land (Z.shiftr value 26) (Z.ones 6))) as ([op f] & Hl & ->).
  { pose proof (land_ones_range (Z.shiftr value 26) 6). change (Z.of_nat (length opTable)) with (2 ^ 6). lia. }
  cbn [mbind res_bind]. pose proof (Forall_lookup_1 _ _ _ _ Hop Hl) as Hh. cbn [fst] in Hh.
  assert (exists op', (match op with
        | SPECIAL => aget specialTable (Z.land value (Z.ones 6))
        | BCOND => Ok (decode_bcond value)
        | _ => Ok op end) = Ok op' /\ handled op' /\ (is_shift op' = true -> f = RFMT)) as (op' & -> & Hop' & Hsh).
  { destruct Hh as [[= -> ->]|[->|[Hh Hns]]].
    - destruct (aget_in specialTable (Z.land value (Z.ones 6))) as (op' & Hl' & ->).
      { pose proof (land_ones_range value 6). change (Z.of_nat (length specialTable)) with (2 ^ 6). lia. }
      exists op'. split; [done|]. split; [apply (Forall_lookup_1 _ _ _ _ Hsp Hl')|done].
    - eexists. split; [done|]. split; [apply decode_bcond_handled|].
      unfold decode_bcond. repeat case_match; done.
    - exists op. split; [|split; [done|congruence]]. destruct Hh as (? & ? & ?). by destruct op. }
  cbn [mbind res_bind]. eexists. split; [done|].
  constructor; cbn [opCode rs rt rd extra]; [done| | | |apply decode_extra_range|intros Hs; rewrite (Hsh Hs)];
    apply (land_ones_range _ 5); lia.
Qed.

(** * The registers *)

Definition regs_ok (l : list Z) : Prop :=
  length l = 40%nat /\ Forall is_i32 l /\ 0 <= default 0 (l !! 37%nat) < 32.

(** Bitwise operations on ints give ints. *)
Lemma is_i32_bits z : is_i32 z <-> forall n, 31 <= n -> Z.testbit z n = Z.testbit z 31.
Proof.
  unfold is_i32. split.
  - intros Hz n Hn. destruct (Z.lt_ge_cases z 0).
    + rewrite <- (Z.lnot_involutive z), !(Z.lnot_spec (Z.lnot z)) by lia. f_equal.
      assert (0 <= Z.lnot z < 2 ^ 31) as Hl by (unfold Z.lnot; lia).
      rewrite <- (Z.mod_small _ _ Hl), !Z.mod_pow2_bits_high by lia. done.
    + rewrite <- (Z.mod_small z (2 ^ 31)), !Z.mod_pow2_bits_high by lia. done.
  - intros H. assert (Z.shiftr z 31 = if Z.testbit z 31 then -1 else 0) as Hs.
    { apply Z.bits_inj_iff'. intros n Hn. rewrite Z.shiftr_spec, H by lia.
      destruct (Z.testbit z 31); [by rewrite Z.bits_m1 by lia|by rewrite Z.bits_0]. }
    rewrite Z.shiftr_div_pow2 in Hs by lia. pose proof (Z.div_mod z (2 ^ 31) ltac:(lia)).
    pose proof (Z.mod_pos_bound z (2 ^ 31) ltac:(lia)). destruct (Z.testbit z 31); lia.
Qed.

Lemma is_i32_land a b : is_i32 a -> is_i32 b -> is_i32 (Z.land a b).
Proof. rewrite !is_i32_bits. intros Ha Hb n Hn. by rewrite !Z.land_spec, Ha, Hb. Qed.
Lemma is_i32_lor a b : is_i32 a -> is_i32 b -> is_i32 (Z.lor a b).
Proof. rewrite !is_i32_bits. intros Ha Hb n Hn. by rewrite !Z.lor_spec, Ha, Hb. Qed.
Lemma is_i32_lxor a b : is_i32 a -> is_i32 b -> is_i32 (Z.lxor a b).
Proof. rewrite !is_i32_bits. intros Ha Hb n Hn. by rewrite !Z.lxor_spec, Ha, Hb. Qed.
Lemma is_i32_lnot a : is_i32 a -> is_i32 (Z.lnot a).
Proof. unfold is_i32, Z.lnot. lia. Qed.
Lemma is_i32_shiftr a n : is_i32 a -> 0 <= n -> is_i32 (Z.shiftr a n).
Proof.
  unfold is_i32. intros Ha Hn. rewrite Z.shiftr_div_pow2 by lia. assert (0 < 2 ^ n) by lia.
  split; [apply Z.div_le_lower_bound; nia|apply Z.div_lt_upper_bound; nia].
Qed.
Lemma is_i32_ones n z : 0 <= n <= 31 -> is_i32 (Z.land z (Z.ones n)).
Proof.
  intros Hn. pose proof (land_ones_range z n ltac:(lia)). pose proof (Z.pow_le_mono_r 2 n 31 ltac:(lia) ltac:(lia)).
  unfold is_i32. lia.
Qed.
Lemma is_i32_b2i b : is_i32 (b2i b).
Proof. by destruct b. Qed.
Lemma is_i32_quot a b : is_i32 a -> is_i32 b -> b <> 0 -> ~ (a = - 2 ^ 31 /\ b = -1) -> is_i32 (a /c b) /\ is_i32 (a %c b).
Proof.
  unfold is_i32. intros Ha Hb H0 Hn. pose proof (Z.quot_rem a b H0). pose proof (Z.rem_bound_abs a b H0).
  pose proof (Z.quot_abs a b H0) as Hq. pose proof (Z.div_le_upper_bound (Z.abs a) (Z.abs b) (Z.abs a)).
  pose proof (Z.div_pos (Z.abs a) (Z.abs b)). rewrite Z.quot_div_nonneg in Hq by lia.
  split; [|lia]. destruct (Z.eq_dec (Z.abs b) 1) as [Hb1|Hb1].
  - assert (b = 1 \/ b = -1) as [->| ->] by lia; [rewrite Z.quot_1_r; lia|]. change (-1) with (- (1)).
    rewrite Z.quot_opp_r, Z.quot_1_r by lia. lia.
  - pose proof (Z.div_lt_upper_bound (Z.abs a) (Z.abs b) (2 ^ 31)). lia.
Qed.

Create HintDb i32.
#[export] Hint Resolve i32_range is_i32_land is_i32_lor is_i32_lxor is_i32_lnot is_i32_b2i : i32.

Definition access_size (size : Z) : Prop := size = 1 \/ size = 2 \/ size = 4.

Lemma regs_ok_get l n : regs_ok l -> 0 <= n < 40 -> exists v, aget l n = Ok v /\ l !! Z.to_nat n = Some v /\ is_i32 v.
Proof.
  intros (Hl & Hi & _) Hn. destruct (aget_in l n) as (v & Hv & E); [lia|]. exists v.
  split_and!; [done|done|]. apply (Forall_lookup_1 _ _ _ _ Hi Hv).
Qed.

Lemma regs_ok_set l n v : regs_ok l -> 0 <= n < 40 -> is_i32 v -> (n = 37 -> 0 <= v < 32) ->
  regs_ok (<[Z.to_nat n := v]> l).
Proof.
  intros (Hl & Hi & Hr) Hn Hv Hc. split_and!.
  - by rewrite length_insert.
  - by apply Forall_insert.
  - destruct (decide (n = 37)) as [->|]; [rewrite list_lookup_insert_eq by lia; simpl; lia|].
    rewrite list_lookup_insert_ne by lia. lia.
  - destruct (decide (n = 37)) as [->|]; [rewrite list_lookup_insert_eq by lia; simpl; lia|].
    rewrite list_lookup_insert_ne by lia. lia.
Qed.

Section Runs.
Context {St : Type} {RG : Registers St}.

(** What else must hold of the machine ([Inv], which register writes keep), and whether the
    kernel may answer an exception by a failed ASSERT or by ending the simulation. *)
Context (Inv : St -> Prop) (Inv_regs : forall l st, Inv st -> Inv (set_regs l st)).
Context (may_fail may_exit : Prop).

Definition ready (st : St) : Prop := regs_ok (regs st) /\ Inv st.

(** The run returned a value in [Q] and a good state, or the kernel stopped it. *)
Definition ends {A} (r : res (A * St)) (Q : A -> Prop) : Prop :=
  match r with
  | Ok (a, st') => ready st' /\ Q a
  | AssertFail => may_fail
  | Exited => may_exit
  | _ => False
  end.

Definition safe {A} (m : M St A) (Q : A -> Prop) : Prop := forall st, ready st -> ends (m st) Q.

Lemma safe_ret {A} (a : A) (Q : A -> Prop) : Q a -> safe (mret a) Q.
Proof. intros H st Hst. done. Qed.

Lemma safe_bind {A B} (m : M St A) (f : A -> M St B) Q R : safe m Q -> (forall a, Q a -> safe (f a) R) -> safe (x ← m; f x) R.
Proof.
  intros Hm Hf st Hst. specialize (Hm st Hst). unfold mbind, M_bind.
  destruct (m st) as [[a st1]| | | |]; try done. destruct Hm as [Hst1 Ha]. by apply Hf.
Qed.

Lemma safe_reg n : 0 <= n < 40 -> safe (reg n) is_i32.
Proof.
  intros Hn st Hst. destruct (regs_ok_get _ n (proj1 Hst) Hn) as (v & E & _ & Hv).
  unfold reg. rewrite E. done.
Qed.

Lemma safe_set_reg n v : 0 <= n < 40 -> is_i32 v -> (n = 37 -> 0 <= v < 32) -> safe (set_reg n v) (fun _ => True).
Proof.
  intros Hn Hv Hc st Hst. unfold set_reg. destruct Hst as ((Hl & Hst) & HI). rewrite aset_in by lia. cbn [mbind res_bind ends].
  split; [|done]. split; [rewrite regs_set; by apply regs_ok_set|by apply Inv_regs].
Qed.
End Runs.

Section Safe.
Context {St : Type} {CPU : Cpu St}.

Context (Inv : St -> Prop) (Inv_regs : forall l st, Inv st -> Inv (set_regs l st)).
Context (may_fail may_exit : Prop).
#[local] Notation ready := (ready Inv).
#[local] Notation ends := (ends Inv may_fail may_exit).
#[local] Notation safe := (safe Inv may_fail may_exit).
#[local] Notation safe_ret := (safe_ret Inv may_fail may_exit).
#[local] Notation safe_bind := (safe_bind Inv may_fail may_exit).
#[local] Notation safe_reg := (safe_reg Inv may_fail may_exit).
#[local] Notation safe_set_reg := (safe_set_reg Inv Inv_regs may_fail may_exit).

Ltac safe_step :=
  first [apply safe_ret | eapply safe_bind; [first [apply safe_reg; lia | eassumption]|intros ? ?; cbv beta in *]].

(** What the bus promises: reads give ints, and the registers stay good. *)
Context (bus_read : forall addr size, is_i32 addr -> access_size size -> safe (ReadMem addr size) (fun o => match o with Some v => is_i32 v | None => True end)).
Context (bus_write : forall addr size v, is_i32 addr -> access_size size -> safe (WriteMem addr size v) (fun _ => True)).
Context (bus_raise : forall which addr, which <> PageFaultException -> is_i32 addr -> safe (RaiseException which addr) (fun _ => True)).

Definition exec_ok (e : exec) : Prop :=
  match e with Return => True | Continue pc r v => is_i32 pc /\ 0 <= r < 32 /\ is_i32 v end.

Lemma safe_raise which addr : which <> PageFaultException -> is_i32 addr -> safe (raise which addr) exec_ok.
Proof. intros Hw Ha. eapply safe_bind; [by apply bus_raise|]. intros. by apply safe_ret. Qed.

Lemma continue_ok pc : is_i32 pc -> exec_ok (Continue pc 0 0).
Proof. intros. split; [done|]. split; [lia|done]. Qed.

Lemma safe_set_then {A} n v (m : M St A) Q : 0 <= n < 37 -> is_i32 v -> safe m Q -> safe (_ ← set_reg n v; m) Q.
Proof. intros Hn Hv Hm. eapply safe_bind; [apply safe_set_reg; [lia|done|lia]|]. by intros _ _. Qed.

Context (i : Instruction) (Hi : instr_ok i) (pcAfter : Z) (Hpc : is_i32 pcAfter).

Ltac reads := destruct Hi; eapply safe_bind; [apply safe_reg; lia|]; intros a Ha; cbv beta in Ha |- *.
Ltac reads2 := reads; eapply safe_bind; [apply safe_reg; lia|]; intros b Hb; cbv beta in Hb |- *.
Ltac finish := first [apply safe_raise; done | apply safe_set_then; [lia|auto with i32|apply safe_ret; by apply continue_ok]].

Lemma safe_exec_add : safe (exec_add i pcAfter) exec_ok.
Proof. unfold exec_add. reads2. case_match; finish. Qed.
Lemma safe_exec_addi : safe (exec_addi i pcAfter) exec_ok.
Proof. unfold exec_addi. reads. case_match; finish. Qed.
Lemma safe_exec_sub : safe (exec_sub i pcAfter) exec_ok.
Proof. unfold exec_sub. reads2. case_match; finish. Qed.
Lemma safe_exec_rd f : (forall a b, is_i32 a -> is_i32 b -> is_i32 (f a b)) -> safe (exec_rd i pcAfter f) exec_ok.
Proof. intros Hf. unfold exec_rd. reads2. finish. Qed.
Lemma safe_exec_rt f : (forall a, is_i32 a -> is_i32 (f a)) -> safe (exec_rt i pcAfter f) exec_ok.
Proof. intros Hf. unfold exec_rt. reads. finish. Qed.
Lemma safe_exec_move from to : 0 <= from < 37 -> 0 <= to < 37 -> safe (exec_move from to pcAfter) exec_ok.
Proof. intros. unfold exec_move. eapply safe_bind; [apply safe_reg; lia|]. intros a Ha. cbv beta in Ha. finish. Qed.

Lemma safe_link {A} (link : bool) to (m : M St A) Q : 0 <= to < 32 -> safe m Q ->
  safe (_ ← (if link then n ← reg NextPCReg; set_reg to (i32 (n + 4)) else mret tt); m) Q.
Proof.
  intros Hto Hm. eapply (safe_bind _ _ (fun _ => True)); [|by intros _ _]. destruct link; [|by apply safe_ret].
  eapply safe_bind; [apply safe_reg; unfold NextPCReg; lia|]. intros n Hn. apply safe_set_reg; [lia|apply i32_range|lia].
Qed.

Lemma safe_exec_branch link cond : safe (exec_branch i pcAfter link cond) exec_ok.
Proof.
  unfold exec_branch. apply safe_link; [unfold R31; lia|]. reads2. case_match.
  - eapply safe_bind; [apply safe_reg; unfold NextPCReg; lia|]. intros n Hn. apply safe_ret. apply continue_ok, i32_range.
  - apply safe_ret. by apply continue_ok.
Qed.
Lemma safe_exec_jump link : safe (exec_jump i pcAfter link) exec_ok.
Proof. unfold exec_jump. apply safe_link; [unfold R31; lia|]. apply safe_ret, continue_ok, i32_range. Qed.
Lemma safe_exec_jr link : safe (exec_jr i link) exec_ok.
Proof. unfold exec_jr. apply safe_link; [apply Hi|]. reads. apply safe_ret. by apply continue_ok. Qed.

Lemma safe_exec_divu : safe (exec_divu i pcAfter) exec_ok.
Proof.
  unfold exec_divu. reads2. unfold LoReg, HiReg. case_match.
  - apply safe_set_then; [lia|done|]. apply safe_set_then; [lia|done|]. apply safe_ret. by apply continue_ok.
  - apply safe_set_then; [lia|auto with i32|]. finish.
Qed.

Lemma safe_exec_mult signed : safe (exec_mult i pcAfter signed) exec_ok.
Proof.
  unfold exec_mult. reads2. destruct (Mult_spec a b signed Ha Hb) as (_ & Hh & Hl).
  destruct (Mult a b signed) as [h l]. cbn [fst snd] in *. unfold LoReg, HiReg.
  apply safe_set_then; [lia|done|]. finish.
Qed.

Lemma safe_exec_load size mask ext : access_size size -> (forall v, is_i32 v -> is_i32 (ext v)) -> safe (exec_load i pcAfter size mask ext) exec_ok.
Proof.
  intros Hsz He. unfold exec_load. reads. case_match; [apply safe_raise; [done|apply i32_range]|].
  eapply safe_bind; [apply bus_read; [apply i32_range|done]|]. intros [v|] Hv; cbv beta in Hv; apply safe_ret; [|done]. split; [done|]. split; [lia|by apply He].
Qed.

Lemma safe_exec_lwx merge : (forall byte v old, is_i32 v -> is_i32 old -> is_i32 (merge byte v old)) ->
  safe (exec_lwx i pcAfter merge) exec_ok.
Proof.
  intros Hm. unfold exec_lwx. reads. eapply safe_bind; [apply bus_read; [apply i32_range|unfold access_size; lia]|]. intros [v|] Hv; cbv beta in Hv; [|by apply safe_ret].
  eapply safe_bind; [apply safe_reg; unfold LoadReg; lia|]. intros l Hl. cbv beta in Hl.
  eapply (safe_bind _ _ is_i32); [case_match; apply safe_reg; unfold LoadValueReg; lia|].
  intros old Ho. apply safe_ret. split; [done|]. split; [lia|by apply Hm].
Qed.

Lemma safe_write_end (m : M St bool) : safe m (fun _ => True) ->
  safe (ok ← m; mret (if (ok : bool) then Continue pcAfter 0 0 else Return)) exec_ok.
Proof. intros Hm. eapply safe_bind; [exact Hm|]. intros [] _; apply safe_ret; [by apply continue_ok|done]. Qed.

Lemma safe_exec_store size : access_size size -> safe (exec_store i pcAfter size) exec_ok.
Proof. intros Hsz. unfold exec_store. reads2. apply safe_write_end. apply bus_write; [apply i32_range|done]. Qed.

Lemma safe_exec_swx merge : safe (exec_swx i pcAfter merge) exec_ok.
Proof.
  unfold exec_swx. reads. eapply safe_bind; [apply bus_read; [apply i32_range|unfold access_size; lia]|]. intros [v|] _; [|by apply safe_ret].
  eapply safe_bind; [apply safe_reg; lia|]. intros r _. apply safe_write_end, bus_write; [apply i32_range|]. unfold access_size. lia.
Qed.

(** The one fault: the int quotient INT_MIN / -1. *)
Definition div_faults (st : St) : Prop :=
  opCode i = OP_DIV /\ regs st !! Z.to_nat (rs i) = Some (- 2 ^ 31) /\ regs st !! Z.to_nat (rt i) = Some (-1).

Lemma exec_div_cases st : ready st -> opCode i = OP_DIV ->
  (div_faults st /\ exec_div i pcAfter st = Undefined) \/
  (~ div_faults st /\ ends (exec_div i pcAfter st) exec_ok).
Proof.
  intros Hst Hop. destruct Hi.
  destruct (regs_ok_get _ (rs i) (proj1 Hst)) as (a & Ea & La & Ha); [lia|].
  destruct (regs_ok_get _ (rt i) (proj1 Hst)) as (b & Eb & Lb & Hb); [lia|].
  unfold exec_div. rewrite (bind_M_Ok (reg (rs i)) _ st st a) by (unfold reg; by rewrite Ea).
  rewrite (bind_M_Ok (reg (rt i)) _ st st b) by (unfold reg; by rewrite Eb).
  unfold div_faults. rewrite La, Lb.
  assert (safe (_ ← set_reg LoReg 0; _ ← set_reg HiReg 0; mret (Continue pcAfter 0 0)) exec_ok) as H0.
  { unfold LoReg, HiReg. apply safe_set_then; [lia|done|]. apply safe_set_then; [lia|done|]. apply safe_ret. by apply continue_ok. }
  destruct (Z.eqb_spec b 0) as [->|Hb0]; [right; split; [intros (_ & _ & [=])|by apply H0]|].
  destruct ((a =? - 2 ^ 31) && (b =? -1)) eqn:Hf.
  - left. apply andb_true_iff in Hf as [->%Z.eqb_eq ->%Z.eqb_eq]. done.
  - assert (~ (a = - 2 ^ 31 /\ b = -1)) as Hn.
    { intros [-> ->]. discriminate Hf. }
    right. split; [intros (_ & [= ?] & [= ?]); by apply Hn|].
    destruct (is_i32_quot a b Ha Hb Hb0 Hn) as [Hq Hr].
    assert (safe (_ ← set_reg LoReg (a /c b); _ ← set_reg HiReg (a %c b); mret (Continue pcAfter 0 0)) exec_ok) as H1.
    { unfold LoReg, HiReg. apply safe_set_then; [lia|done|]. apply safe_set_then; [lia|done|]. apply safe_ret. by apply continue_ok. }
    by apply H1.
Qed.

Lemma merges_i32 byte v old : is_i32 v -> is_i32 old -> is_i32 (lwl_merge byte v old) /\ is_i32 (lwr_merge byte v old).
Proof. intros. unfold lwl_merge, lwr_merge. split; repeat case_match; auto with i32. Qed.

Lemma extend_i32 s v : is_i32 v -> is_i32 (extend_lb s v) /\ is_i32 (extend_lh s v).
Proof.
  intros. unfold extend_lb, extend_lh.
  split; case_match; try apply i32_range; apply is_i32_ones; lia.
Qed.

Lemma execute_cases st : ready st ->
  (div_faults st /\ execute i pcAfter st = Undefined) \/
  (~ div_faults st /\ ends (execute i pcAfter st) exec_ok).
Proof.
  intros Hst. destruct (decide (opCode i = OP_DIV)) as [Hop|Hop].
  { pose proof (exec_div_cases st Hst Hop) as H. unfold execute. by rewrite Hop. }
  right. split; [by intros [? _]|].
  assert (safe (execute i pcAfter) exec_ok) as Hs; [|by apply Hs].
  pose proof (io_op _ Hi) as (H1 & H2 & H3). pose proof (io_extra _ Hi) as Hx. pose proof Hi as [_ Hrs Hrt Hrd _ _].
  assert (is_i32 (uimm i)) as Hu by (apply is_i32_ones; lia).
  assert (forall a, 0 <= Z.land a (Z.ones 5)) as H5 by (intros a; pose proof (land_ones_range a 5); lia).
  unfold execute. destruct (opCode i) eqn:Heq; try done;
    first [ apply safe_exec_add | apply safe_exec_addi | apply safe_exec_sub | apply safe_exec_branch | apply safe_exec_jump
          | apply safe_exec_jr | apply safe_exec_divu | apply safe_exec_mult | apply safe_exec_store | apply safe_exec_swx
          | apply safe_raise; done | idtac ].
  all: try (apply safe_exec_rd; intros; auto with i32).
  all: try (apply safe_exec_rt; intros; auto with i32).
  all: try (apply safe_exec_move; unfold HiReg, LoReg; lia).
  all: try (apply safe_exec_load; [unfold access_size; lia|intros; try apply extend_i32; done]).
  all: try (unfold access_size; lia).
  all: try (apply safe_exec_lwx; intros; by apply merges_i32).
  all: try (apply is_i32_shiftr; [done|]; first [apply H5|apply (io_shift _ Hi); by rewrite Heq]).
  all: try (apply safe_set_then; [lia|apply i32_range|apply safe_ret; by apply continue_ok]).
Qed.
End Safe.

(** * The end of an instruction *)

Section Complete.
Context {St : Type} {R : Registers St}.

Lemma reg_ok st n v : 0 <= n -> regs st !! Z.to_nat n = Some v -> reg n st = Ok (v, st).
Proof. intros Hn E. unfold reg. by erewrite aget_Some. Qed.

Lemma set_reg_ok st n v : 0 <= n < Z.of_nat (length (regs st)) -> set_reg n v st = Ok (tt, set_regs (<[Z.to_nat n := v]> (regs st)) st).
Proof. intros Hn. unfold set_reg. by rewrite aset_in. Qed.

Definition loaded_regs (l : list Z) (r v : Z) : list Z :=
  <[0%nat := 0]> (<[38%nat := v]> (<[37%nat := r]> (<[Z.to_nat (default 0 (l !! 37%nat)) := default 0 (l !! 38%nat)]> l))).

(** The registers after the delayed load and the advance of the program counters. *)
Definition completed_regs (l : list Z) (pcAfter r v : Z) : list Z :=
  let l := loaded_regs l r v in
  <[35%nat := pcAfter]> (<[34%nat := default 0 (l !! 35%nat)]> (<[36%nat := default 0 (l !! 34%nat)]> l)).

Lemma set_step {A} st m (k : M St A) n x : length m = 40%nat -> 0 <= n < 40 ->
  (_ ← set_reg n x; k) (set_regs m st) = k (set_regs (<[Z.to_nat n := x]> m) st).
Proof. intros Hm Hn. erewrite bind_M_Ok; [|apply set_reg_ok; rewrite regs_set; lia]. by rewrite regs_set, set_set. Qed.

Lemma set_last st m n x : length m = 40%nat -> 0 <= n < 40 ->
  set_reg n x (set_regs m st) = Ok (tt, set_regs (<[Z.to_nat n := x]> m) st).
Proof. intros Hm Hn. rewrite set_reg_ok by (rewrite regs_set; lia). by rewrite regs_set, set_set. Qed.

Lemma get_step {A} st m (k : Z -> M St A) n : length m = 40%nat -> 0 <= n < 40 ->
  (y ← reg n; k y) (set_regs m st) = k (default 0 (m !! Z.to_nat n)) (set_regs m st).
Proof.
  intros Hm Hn. destruct (lookup_lt_is_Some_2 m (Z.to_nat n)) as [x Hx]; [lia|].
  erewrite bind_M_Ok; [|apply reg_ok; [lia|by rewrite regs_set]]. by rewrite Hx.
Qed.

Lemma DelayedLoad_ok st l r v : length l = 40%nat -> 0 <= default 0 (l !! 37%nat) < 32 ->
  DelayedLoad r v (set_regs l st) = Ok (tt, set_regs (loaded_regs l r v) st).
Proof.
  intros Hl Hd. unfold DelayedLoad, LoadReg, LoadValueReg.
  rewrite !get_step by lia. change (Z.to_nat 37) with 37%nat. change (Z.to_nat 38) with 38%nat.
  rewrite set_step by lia. rewrite set_step by (rewrite ?length_insert; lia).
  rewrite set_step by (rewrite ?length_insert; lia). rewrite set_last by (rewrite ?length_insert; lia). done.
Qed.

Lemma complete_ok st pcAfter r v : regs_ok (regs st) ->
  (_ ← DelayedLoad r v; advance pcAfter) st = Ok (tt, set_regs (completed_regs (regs st) pcAfter r v) st).
Proof.
  intros (Hl & _ & Hd). rewrite <- (set_get st) at 1. rewrite (bind_M_Ok _ _ _ _ _ (DelayedLoad_ok st (regs st) r v Hl Hd)).
  unfold advance, PCReg, PrevPCReg, NextPCReg. unfold completed_regs. cbv zeta.
  assert (length (loaded_regs (regs st) r v) = 40%nat) as Hl' by (unfold loaded_regs; by rewrite !length_insert).
  set (m := loaded_regs (regs st) r v) in *. clearbody m.
  rewrite get_step, set_step by lia. rewrite get_step, set_step by (rewrite ?length_insert; lia).
  rewrite set_last by (rewrite ?length_insert; lia).
  change (Z.to_nat 34) with 34%nat. change (Z.to_nat 35) with 35%nat. change (Z.to_nat 36) with 36%nat.
  by rewrite list_lookup_insert_ne by lia.
Qed.

(** Each register afterwards. *)
Lemma completed_lookup l pcAfter r v k : regs_ok l -> (k < 40)%nat ->
  completed_regs l pcAfter r v !! k = Some (
    if decide (k = 35%nat) then pcAfter else if decide (k = 34%nat) then default 0 (l !! 35%nat)
    else if decide (k = 36%nat) then default 0 (l !! 34%nat) else if decide (k = 0%nat) then 0
    else if decide (k = 38%nat) then v else if decide (k = 37%nat) then r
    else if decide (k = Z.to_nat (default 0 (l !! 37%nat))) then default 0 (l !! 38%nat)
    else default 0 (l !! k)).
Proof.
  intros (Hl & _ & Hd) Hk. destruct (lookup_lt_is_Some_2 l k) as [x Hx]; [lia|].
  unfold completed_regs, loaded_regs. cbv zeta.
  rewrite (list_lookup_insert_ne _ 0 34), (list_lookup_insert_ne _ 0 35), (list_lookup_insert_ne _ 38 34),
    (list_lookup_insert_ne _ 38 35), (list_lookup_insert_ne _ 37 34), (list_lookup_insert_ne _ 37 35) by lia.
  rewrite !(list_lookup_insert_ne l (Z.to_nat _)) by lia.
  repeat case_decide; subst;
    repeat first [rewrite list_lookup_insert_eq by (rewrite ?length_insert; lia); done | rewrite list_lookup_insert_ne by lia].
  by rewrite Hx.
Qed.

End Complete.


(** * Words as arithmetic *)

Lemma sign_bit_neg x : is_i32 x -> sign_bit x = (x <? 0).
Proof.
  intros Hx. unfold sign_bit, is_i32, u32 in *. rewrite Z.mod_pow2_bits_low by lia.
  destruct (Z.ltb_spec x 0).
  - rewrite <- (Z.lnot_involutive x), Z.lnot_spec by lia.
    assert (0 <= Z.lnot x < 2 ^ 31) as Hl by (unfold Z.lnot; lia).
    rewrite <- (Z.mod_small _ _ Hl), Z.mod_pow2_bits_high by lia. done.
  - rewrite <- (Z.mod_small x (2 ^ 31)), Z.mod_pow2_bits_high by lia. done.
Qed.

(** Fields that do not overlap are added. *)
Lemma lor_fields a b n : 0 <= n -> 0 <= b < 2 ^ n -> Z.lor (a * 2 ^ n) b = a * 2 ^ n + b.
Proof.
  intros Hn Hb. assert (Z.land (a * 2 ^ n) b = 0) as Hl.
  { apply Z.bits_inj_iff'. intros k Hk. rewrite Z.land_spec, Z.bits_0. destruct (Z.lt_ge_cases k n).
    - by rewrite Z.mul_pow2_bits_low by lia.
    - rewrite <- (Z.mod_small b (2 ^ n)), Z.mod_pow2_bits_high by lia. apply andb_false_r. }
  pose proof (Z.add_lor_land (a * 2 ^ n) b). lia.
Qed.

Lemma land_field x m n : 0 <= n -> 0 <= m -> Z.land x (Z.shiftl (Z.ones m) n) = (x / 2 ^ n) mod 2 ^ m * 2 ^ n.
Proof.
  intros Hn Hm. rewrite <- Z.land_ones, <- Z.shiftr_div_pow2, <- Z.shiftl_mul_pow2 by lia.
  apply Z.bits_inj_iff'. intros k Hk. rewrite Z.land_spec, !Z.shiftl_spec by lia.
  destruct (Z.lt_ge_cases k n); [by rewrite !(Z.testbit_neg_r _ (k - n)), andb_false_r by lia|].
  rewrite Z.land_spec, Z.shiftr_spec by lia. by replace (k - n + n) with k by lia.
Qed.

(** A word of four bytes, low byte first, as the int it is. *)
Definition word (b0 b1 b2 b3 : Z) : Z := i32 (word_of_bytes b0 b1 b2 b3).

(** LWL and LWR as arithmetic on the low and high parts; [n] bits are kept. *)
Definition keep_low (n old value : Z) : Z := i32 (old mod 2 ^ n + value * 2 ^ n).
Definition keep_high (n old value : Z) : Z := i32 (u32 old / 2 ^ n * 2 ^ n + value / 2 ^ (32 - n) mod 2 ^ n).

Lemma keep_low_eq n old value : 0 <= n -> i32 (Z.lor (Z.land old (Z.ones n)) (Z.shiftl value n)) = keep_low n old value.
Proof.
  intros Hn. unfold keep_low. rewrite Z.land_ones, Z.shiftl_mul_pow2, Z.lor_comm by lia.
  rewrite lor_fields by (try lia; apply Z.mod_pos_bound; lia). f_equal. lia.
Qed.

Lemma keep_high_eq m n k old value : 0 <= n <= 32 -> m = 32 - n -> k = 32 - n ->
  i32 (Z.lor (Z.land (u32 old) (Z.shiftl (Z.ones m) n)) (Z.land (Z.shiftr value k) (Z.ones n))) = keep_high n old value.
Proof.
  intros Hn -> ->. unfold keep_high. rewrite land_field, Z.land_ones, Z.shiftr_div_pow2 by lia.
  pose proof (u32_range old) as Hu. unfold is_u32 in Hu.
  rewrite (Z.mod_small (u32 old / 2 ^ n)).
  2:{ split; [apply Z.div_pos; lia|]. apply Z.div_lt_upper_bound; [lia|]. rewrite <- Z.pow_add_r by lia.
      replace (n + (32 - n)) with 32 by lia. lia. }
  rewrite lor_fields by (try lia; apply Z.mod_pos_bound; lia). done.
Qed.

Lemma lwl_cases value old : lwl_merge 3 value old = value /\ lwl_merge 2 value old = keep_low 8 old value /\
  lwl_merge 1 value old = keep_low 16 old value /\ lwl_merge 0 value old = keep_low 24 old value.
Proof. split_and!; [done|by apply keep_low_eq..]. Qed.

Lemma lwr_cases value old : lwr_merge 0 value old = value /\ lwr_merge 1 value old = keep_high 24 old value /\
  lwr_merge 2 value old = keep_high 16 old value /\ lwr_merge 3 value old = keep_high 8 old value.
Proof. split_and!; [done|by apply keep_high_eq..]. Qed.

Lemma swl_cases value r : swl_merge 3 value r = r /\ swl_merge 2 value r = keep_high 24 value r /\
  swl_merge 1 value r = keep_high 16 value r /\ swl_merge 0 value r = keep_high 8 value r.
Proof. split_and!; [done|by apply keep_high_eq..]. Qed.

Lemma swr_cases value r : swr_merge 0 value r = r /\ swr_merge 1 value r = keep_low 8 value r /\
  swr_merge 2 value r = keep_low 16 value r /\ swr_merge 3 value r = keep_low 24 value r.
Proof. split_and!; [done|by apply keep_low_eq..]. Qed.

(** An equation between words, by the words modulo 2^32. *)
Lemma i32_ext x y : x mod 2 ^ 32 = y mod 2 ^ 32 -> i32 x = i32 y.
Proof. intros H. rewrite <- (i32_u32 x), <- (i32_u32 y). unfold u32. by rewrite H. Qed.

Lemma i32_eq x : exists e, i32 x = x + e * 2 ^ 32.
Proof. exists (- ((x + 2 ^ 31) / 2 ^ 32)). unfold i32. pose proof (Z.div_mod (x + 2 ^ 31) (2 ^ 32)). lia. Qed.

Lemma i32_add_mul x k : i32 (x + k * 2 ^ 32) = i32 x.
Proof. apply i32_ext. by rewrite Z_mod_plus_full. Qed.

(** LWR then LWL: the high bytes of the first word under the low bytes of the second. *)
Lemma keep_both n old v v' : n = 8 \/ n = 16 \/ n = 24 ->
  keep_low n (keep_high n old v) v' = i32 (v / 2 ^ (32 - n) mod 2 ^ n + v' * 2 ^ n).
Proof.
  intros Hn. unfold keep_low, keep_high. do 2 f_equal.
  set (y := v / 2 ^ (32 - n) mod 2 ^ n). set (x := u32 old / 2 ^ n).
  assert (0 <= y < 2 ^ n) by (apply Z.mod_pos_bound; lia).
  destruct (i32_eq (x * 2 ^ n + y)) as [e ->].
  replace (x * 2 ^ n + y + e * 2 ^ 32) with (y + (x + e * 2 ^ (32 - n)) * 2 ^ n).
  - rewrite Z_mod_plus_full. by apply Z.mod_small.
  - destruct Hn as [->|[->| ->]]; lia.
Qed.

(** The high bytes of a word. *)
Lemma word_high n lo hi : n = 8 \/ n = 16 \/ n = 24 -> 0 <= lo < 2 ^ (32 - n) -> 0 <= hi < 2 ^ n ->
  i32 (lo + hi * 2 ^ (32 - n)) / 2 ^ (32 - n) mod 2 ^ n = hi.
Proof.
  intros Hn Hlo Hhi. destruct (i32_eq (lo + hi * 2 ^ (32 - n))) as [e ->].
  replace (lo + hi * 2 ^ (32 - n) + e * 2 ^ 32) with (lo + (hi + e * 2 ^ n) * 2 ^ (32 - n))
    by (destruct Hn as [->|[->| ->]]; lia).
  rewrite Z.div_add, Z.div_small, Z.add_0_l, Z_mod_plus_full by lia. by apply Z.mod_small.
Qed.

(** The low bytes of a word, shifted up. *)
Lemma word_low n x lo hi : n = 8 \/ n = 16 \/ n = 24 ->
  i32 (x + i32 (lo + hi * 2 ^ (32 - n)) * 2 ^ n) = i32 (x + lo * 2 ^ n).
Proof.
  intros Hn. destruct (i32_eq (lo + hi * 2 ^ (32 - n))) as [e ->].
  replace (x + (lo + hi * 2 ^ (32 - n) + e * 2 ^ 32) * 2 ^ n)
    with (x + lo * 2 ^ n + (hi + e * 2 ^ n) * 2 ^ 32) by (destruct Hn as [->|[->| ->]]; lia).
  apply i32_add_mul.
Qed.

Lemma unaligned_word n lo0 hi0 lo1 hi1 old : n = 8 \/ n = 16 \/ n = 24 ->
  0 <= lo0 < 2 ^ (32 - n) -> 0 <= hi0 < 2 ^ n ->
  keep_low n (keep_high n old (i32 (lo0 + hi0 * 2 ^ (32 - n)))) (i32 (lo1 + hi1 * 2 ^ (32 - n))) = i32 (hi0 + lo1 * 2 ^ n).
Proof. intros Hn Hl Hh. rewrite keep_both, word_high, word_low by done. done. Qed.

(** SWR on the first word and SWL on the second: the register between the bytes kept. *)
Lemma unaligned_store n lo0 hi0 lo1 hi1 rlo rhi : n = 8 \/ n = 16 \/ n = 24 ->
  0 <= lo0 < 2 ^ n -> 0 <= lo1 < 2 ^ n -> 0 <= rlo < 2 ^ (32 - n) -> 0 <= rhi < 2 ^ n -> 0 <= hi1 < 2 ^ (32 - n) ->
  let r := i32 (rlo + rhi * 2 ^ (32 - n)) in
  keep_low n (i32 (lo0 + hi0 * 2 ^ n)) r = i32 (lo0 + rlo * 2 ^ n) /\
  keep_high n (i32 (lo1 + hi1 * 2 ^ n)) r = i32 (rhi + hi1 * 2 ^ n).
Proof.
  intros Hn H0 H1 Hr Hrh Hh1 r. split.
  - unfold keep_low, r. destruct (i32_eq (lo0 + hi0 * 2 ^ n)) as [e ->].
    replace (lo0 + hi0 * 2 ^ n + e * 2 ^ 32) with (lo0 + (hi0 + e * 2 ^ (32 - n)) * 2 ^ n)
      by (destruct Hn as [->|[->| ->]]; lia).
    rewrite Z_mod_plus_full, Z.mod_small by lia. by apply word_low.
  - unfold keep_high, r. rewrite word_high by done. rewrite u32_i32, u32_id.
    2:{ unfold is_u32. destruct Hn as [->|[->| ->]]; simpl in *; lia. }
    rewrite Z.div_add, Z.div_small by lia. f_equal. lia.
Qed.

(** The three ways to cut a word in two. *)
Lemma split8 b0 b1 b2 b3 : word b0 b1 b2 b3 = i32 (b0 + (b1 + b2 * 2 ^ 8 + b3 * 2 ^ 16) * 2 ^ 8).
Proof. unfold word, word_of_bytes. f_equal. lia. Qed.
Lemma split16 b0 b1 b2 b3 : word b0 b1 b2 b3 = i32 (b0 + b1 * 2 ^ 8 + (b2 + b3 * 2 ^ 8) * 2 ^ 16).
Proof. unfold word, word_of_bytes. f_equal. lia. Qed.
Lemma split24 b0 b1 b2 b3 : word b0 b1 b2 b3 = i32 (b0 + b1 * 2 ^ 8 + b2 * 2 ^ 16 + b3 * 2 ^ 24).
Proof. done. Qed.

(** * Properties *)

(** Mult computes the double-length product: for all ints the two result words are
    the 64-bit two's-complement product, signed or unsigned, in at most 32 turns. *)
Theorem mult_is_64_bit_product a b signed : is_i32 a -> is_i32 b ->
  double_word (Mult a b signed) = (if signed then a * b else u32 a * u32 b) mod 2 ^ 64 /\
  is_i32 (fst (Mult a b signed)) /\ is_i32 (snd (Mult a b signed)).
Proof. apply Mult_spec. Qed.

(** Decode is total and what it gives is executable: for every word the register
    fields are register numbers, the immediate is an int (sign-extended for the immediate
    format), shift amounts are below 32, and the operation is one the switch of
    OneInstruction handles, so its default ASSERT(FALSE) cannot be reached. *)
Theorem decode_total value : exists i, Decode value = Ok i /\ instr_ok i.
Proof. apply Decode_ok. Qed.

(** Unaligned access: LWR at an address and LWL three bytes further load the word that
    lies across the two aligned words, whatever the register held, and SWR with SWL store
    it there and keep the other bytes. *)
Theorem unaligned_access o b0 b1 b2 b3 b4 b5 b6 b7 r0 r1 r2 r3 old :
  Forall is_byte [b0; b1; b2; b3; b4; b5; b6; b7; r0; r1; r2; r3] ->
  let w0 := word b0 b1 b2 b3 in let w1 := word b4 b5 b6 b7 in let r := word r0 r1 r2 r3 in
  let load o w w' := lwl_merge ((o + 3) mod 4) w' (lwr_merge o w old) in
  (o = 0 -> load o w0 w0 = word b0 b1 b2 b3 /\ swr_merge 0 w0 r = r /\ swl_merge 3 w0 r = r) /\
  (o = 1 -> load o w0 w1 = word b1 b2 b3 b4 /\ swr_merge 1 w0 r = word b0 r0 r1 r2 /\ swl_merge 0 w1 r = word r3 b5 b6 b7) /\
  (o = 2 -> load o w0 w1 = word b2 b3 b4 b5 /\ swr_merge 2 w0 r = word b0 b1 r0 r1 /\ swl_merge 1 w1 r = word r2 r3 b6 b7) /\
  (o = 3 -> load o w0 w1 = word b3 b4 b5 b6 /\ swr_merge 3 w0 r = word b0 b1 b2 r0 /\ swl_merge 2 w1 r = word r1 r2 r3 b7).
Proof.
  intros Hb w0 w1 r load. repeat (apply Forall_cons in Hb as [? Hb]). clear Hb. unfold is_byte in *.
  destruct (lwl_cases w1 (lwr_merge o w0 old)) as (_ & L2 & L1 & L0).
  destruct (lwr_cases w0 old) as (_ & R1 & R2 & R3).
  destruct (swl_cases w1 r) as (_ & S2 & S1 & S0). destruct (swr_cases w0 r) as (_ & T1 & T2 & T3).
  unfold load, w0, w1, r in *.
  split; [intros ->; done|]. split; [|split]; intros ->.
  - rewrite T1, S0. change ((1 + 3) mod 4) with 0. rewrite L0, R1. split; [|split].
    + rewrite (split8 b0), (split8 b4). rewrite (split24 b1). apply (unaligned_word 24); [tauto|simpl; lia..].
    + rewrite (split8 b0 b1), (split24 r0), (split8 b0 r0).
      apply (unaligned_store 8 b0 _ b4 (b5 + b6 * 2 ^ 8 + b7 * 2 ^ 16) _ r3); [tauto|simpl; lia..].
    + rewrite (split8 b4), (split24 r0), (split8 r3).
      apply (unaligned_store 8 b0 (b1 + b2 * 2 ^ 8 + b3 * 2 ^ 16) b4 _ _ r3); [tauto|simpl; lia..].
  - rewrite T2, S1. change ((2 + 3) mod 4) with 1. rewrite L1, R2. split; [|split].
    + rewrite (split16 b0), (split16 b4), (split16 b2). apply (unaligned_word 16); [tauto|simpl; lia..].
    + rewrite (split16 b0 b1 b2), (split16 r0), (split16 b0 b1 r0).
      apply (unaligned_store 16 _ _ (b4 + b5 * 2 ^ 8) (b6 + b7 * 2 ^ 8) _ (r2 + r3 * 2 ^ 8)); [tauto|simpl; lia..].
    + rewrite (split16 b4), (split16 r0), (split16 r2).
      apply (unaligned_store 16 (b0 + b1 * 2 ^ 8) (b2 + b3 * 2 ^ 8) _ _ (r0 + r1 * 2 ^ 8) _); [tauto|simpl; lia..].
  - rewrite T3, S2. change ((3 + 3) mod 4) with 2. rewrite L2, R3. split; [|split].
    + rewrite (split24 b0), (split24 b4), (split8 b3). apply (unaligned_word 8); [tauto|simpl; lia..].
    + rewrite (split24 b0 b1 b2 b3), (split8 r0), (split24 b0 b1 b2 r0).
      apply (unaligned_store 24 _ _ (b4 + b5 * 2 ^ 8 + b6 * 2 ^ 16) b7 _ (r1 + r2 * 2 ^ 8 + r3 * 2 ^ 16)); [tauto|simpl; lia..].
    + rewrite (split24 b4), (split8 r0), (split24 r1).
      apply (unaligned_store 24 (b0 + b1 * 2 ^ 8 + b2 * 2 ^ 16) b3 _ _ r0 _); [tauto|simpl; lia..].
Qed.

Section Instruction.
Context {St : Type} {CPU : Cpu St}.
Context (Inv : St -> Prop) (Inv_regs : forall l st, Inv st -> Inv (set_regs l st)).
Context (may_fail may_exit : Prop).
#[local] Notation safe := (safe Inv may_fail may_exit).
#[local] Notation ends := (ends Inv may_fail may_exit).
#[local] Notation ready := (ready Inv).
Context (bus_read : forall addr size, is_i32 addr -> access_size size -> safe (ReadMem addr size) (fun o => match o with Some v => is_i32 v | None => True end)).
Context (bus_write : forall addr size v, is_i32 addr -> access_size size -> safe (WriteMem addr size v) (fun _ => True)).
Context (bus_raise : forall which addr, which <> PageFaultException -> is_i32 addr -> safe (RaiseException which addr) (fun _ => True)).

Lemma completed_regs_ok l pcAfter r v : regs_ok l -> is_i32 pcAfter -> 0 <= r < 32 -> is_i32 v ->
  regs_ok (completed_regs l pcAfter r v).
Proof.
  intros Hl Hp Hr Hv. assert (length (completed_regs l pcAfter r v) = 40%nat) as Hlen.
  { unfold completed_regs, loaded_regs. rewrite !length_insert. apply Hl. }
  assert (forall k, is_i32 (default 0 (l !! k))) as Hd.
  { intros k. destruct (l !! k) as [x|] eqn:E; [|done]. destruct Hl as (_ & Hi & _). apply (Forall_lookup_1 _ _ _ _ Hi E). }
  split; [done|]. split.
  - apply Forall_lookup. intros k x Hx. assert (k < 40)%nat as Hk by (rewrite <- Hlen; by eapply lookup_lt_Some).
    rewrite completed_lookup in Hx by done. injection Hx as <-. repeat case_decide; auto; unfold is_i32 in *; lia.
  - rewrite completed_lookup by (done || lia). done.
Qed.

Lemma one_instruction_cases st : ready st ->
  ends (OneInstruction st) (fun _ => True) \/
  (OneInstruction st = Undefined /\ exists pc raw st1 i, reg PCReg st = Ok (pc, st) /\
     ReadMem pc 4 st = Ok (Some raw, st1) /\ Decode (u32 raw) = Ok i /\ div_faults i st1).
Proof.
  intros Hst. destruct (regs_ok_get _ PCReg (proj1 Hst) ltac:(unfold PCReg; lia)) as (pc & E0 & L0 & Hpc).
  apply reg_ok in L0; [|unfold PCReg; lia]. unfold OneInstruction. rewrite (bind_M_Ok _ _ _ _ _ L0).
  pose proof (bus_read pc 4 Hpc ltac:(unfold access_size; lia) st Hst) as Hread.
  destruct (ReadMem pc 4 st) as [[raw st1]| | | |] eqn:E1; try (left; unfold mbind, M_bind; rewrite E1; exact Hread).
  rewrite (bind_M_Ok _ _ _ _ _ E1). destruct Hread as [Hst1 Hraw].
  destruct raw as [raw|]; [|left; done].
  destruct (Decode_ok (u32 raw)) as (i & Ei & Hi). rewrite Ei, bind_lift_Ok.
  destruct (regs_ok_get _ NextPCReg (proj1 Hst1) ltac:(unfold NextPCReg; lia)) as (next & _ & L2 & Hnext).
  apply reg_ok in L2; [|unfold NextPCReg; lia]. rewrite (bind_M_Ok _ _ _ _ _ L2).
  destruct (execute_cases Inv Inv_regs may_fail may_exit bus_read bus_write bus_raise i Hi (i32 (next + 4)) (i32_range _) st1 Hst1)
    as [[Hdiv Hu]|(_ & He)].
  - right. split; [|by exists pc, raw, st1, i]. unfold mbind, M_bind. by rewrite Hu.
  - left. destruct (execute i (i32 (next + 4)) st1) as [[e st3]| | | |] eqn:E3;
      try (unfold mbind, M_bind; rewrite E3; exact He).
    rewrite (bind_M_Ok _ _ _ _ _ E3). destruct He as [Hst3 He]. destruct e as [|pcAfter r v]; [done|].
    destruct He as (Hp & Hr & Hv). rewrite complete_ok by apply Hst3. split; [|done].
    split; [rewrite regs_set; apply completed_regs_ok; [apply Hst3|done..]|apply Inv_regs, Hst3].
Qed.

End Instruction.

(** What ends an instruction: the load that was pending reaches its register, the
    load just issued becomes pending, the old program counter is kept for debugging, the
    delay slot runs next and the branch target after it, R0 is 0, and no other register
    changes. *)
Theorem instruction_end {St} `{CPU : Cpu St} (st : St) pcAfter r v : regs_ok (regs st) ->
  exists st', (_ ← DelayedLoad r v; advance pcAfter) st = Ok (tt, st') /\
    forall k, (k < 40)%nat -> regs st' !! k = Some (
      if decide (k = Z.to_nat NextPCReg) then pcAfter
      else if decide (k = Z.to_nat PCReg) then default 0 (regs st !! Z.to_nat NextPCReg)
      else if decide (k = Z.to_nat PrevPCReg) then default 0 (regs st !! Z.to_nat PCReg)
      else if decide (k = 0%nat) then 0
      else if decide (k = Z.to_nat LoadValueReg) then v else if decide (k = Z.to_nat LoadReg) then r
      else if decide (k = Z.to_nat (default 0 (regs st !! Z.to_nat LoadReg)))
      then default 0 (regs st !! Z.to_nat LoadValueReg) else default 0 (regs st !! k)).
Proof.
  intros Hst. rewrite complete_ok by done. eexists. split; [done|]. intros k Hk.
  rewrite regs_set. by apply completed_lookup.
Qed.

(** C39. The overflow trap is exact: ADD, ADDI and SUB raise OverflowException, writing no
    register, exactly when the mathematical sum or difference is not an int, and otherwise
    store it. *)
Theorem overflow_trap_exact {St} `{CPU : Cpu St} (st : St) i pcAfter a b : instr_ok i ->
  reg (rs i) st = Ok (a, st) -> reg (rt i) st = Ok (b, st) -> is_i32 a -> is_i32 b ->
  exec_add i pcAfter st = (if decide (is_i32 (a + b)) then _ ← set_reg (rd i) (a + b); mret (Continue pcAfter 0 0)
                           else raise OverflowException 0) st /\
  exec_sub i pcAfter st = (if decide (is_i32 (a - b)) then _ ← set_reg (rd i) (a - b); mret (Continue pcAfter 0 0)
                           else raise OverflowException 0) st /\
  exec_addi i pcAfter st = (if decide (is_i32 (a + extra i)) then _ ← set_reg (rt i) (a + extra i); mret (Continue pcAfter 0 0)
                            else raise OverflowException 0) st.
Proof.
  intros Hi Ea Eb Ha Hb. pose proof (io_extra _ Hi) as Hx.
  unfold exec_add, exec_sub, exec_addi. rewrite !(bind_M_Ok _ _ _ _ _ Ea), !(bind_M_Ok _ _ _ _ _ Eb).
  rewrite !sign_bit_neg by (try done; apply i32_range). unfold is_i32 in *.
  assert (forall x, (- 2 ^ 31 <= x < 2 ^ 31 -> i32 x = x) /\ (2 ^ 31 <= x < 2 ^ 32 -> i32 x = x - 2 ^ 32) /\
    (- 2 ^ 32 <= x < - 2 ^ 31 -> i32 x = x + 2 ^ 32)) as Hw by (intros x; unfold i32; Z.div_mod_to_equations; lia).
  split_and!; case_decide as Hd.
  all: match goal with |- context [i32 ?x] => destruct (Hw x) as (W1 & W2 & W3) end.
  all: try (rewrite !W1 by done).
  all: repeat match goal with |- context [?x <? 0] => destruct (Z.ltb_spec x 0) end; cbn [xorb negb andb]; try done; lia.
Qed.

(** SRL is not the logical shift of the architecture: the code shifts a signed [int],
    so the value stored is the arithmetic shift, and it differs from the logical one
    exactly for a negative operand and a shift amount other than 0. *)
Theorem srl_shifts_arithmetically {St} `{CPU : Cpu St} (st : St) i pcAfter a b : instr_ok i -> opCode i = OP_SRL ->
  reg (rs i) st = Ok (a, st) -> reg (rt i) st = Ok (b, st) -> is_i32 b ->
  execute i pcAfter st = (_ ← set_reg (rd i) (Z.shiftr b (extra i)); mret (Continue pcAfter 0 0)) st /\
  (Z.shiftr b (extra i) = i32 (Z.shiftr (u32 b) (extra i)) <-> 0 <= b \/ extra i = 0).
Proof.
  intros Hi Hop Ea Eb Hb. split.
  - unfold execute. rewrite Hop. unfold exec_rd. by rewrite (bind_M_Ok _ _ _ _ _ Ea), (bind_M_Ok _ _ _ _ _ Eb).
  - pose proof (io_shift _ Hi) as Hs. rewrite Hop in Hs. specialize (Hs eq_refl). rewrite !Z.shiftr_div_pow2 by lia.
    unfold is_i32 in Hb. destruct (Z.lt_ge_cases b 0) as [Hneg|Hpos].
    + assert (u32 b = b + 2 ^ 32) as -> by (unfold u32; Z.div_mod_to_equations; lia).
      destruct (Z.eq_dec (extra i) 0) as [->|Hne].
      * change (2 ^ 0) with 1. rewrite !Z.div_1_r. split; [tauto|]. intros _. unfold i32. Z.div_mod_to_equations. lia.
      * assert (2 ^ 1 <= 2 ^ extra i) by (apply Z.pow_le_mono_r; lia).
        assert (0 <= (b + 2 ^ 32) / 2 ^ extra i < 2 ^ 31) as Hr.
        { split; [apply Z.div_pos; lia|]. apply Z.div_lt_upper_bound; nia. }
        rewrite i32_id by (unfold is_i32; lia). assert (b / 2 ^ extra i < 0) by (apply Z.div_lt_upper_bound; lia). lia.
    + rewrite u32_id by (unfold is_u32; lia). split; [by left|]. intros _. symmetry. apply i32_id.
      unfold is_i32. assert (0 < 2 ^ extra i) by lia. split; [pose proof (Z.div_pos b (2 ^ extra i)); lia|].
      apply Z.div_lt_upper_bound; nia.
Qed.

(** ** Concrete inputs *)

(** A machine whose memory is one word, the instruction [tword], that ignores writes and
    exceptions. *)
Record toy := MkToy { tregs : list Z; tword : Z }.

#[local] Instance toy_registers : Registers toy.
Proof. refine {| regs := tregs; set_regs := fun l t => MkToy l (tword t) |}; try done. by intros []. Defined.

#[local] Instance toy_cpu : Cpu toy :=
  {| ReadMem := fun _ _ t => Ok (Some (i32 (tword t)), t); WriteMem := fun _ _ _ t => Ok (true, t);
     RaiseException := fun _ _ t => Ok (tt, t) |}.

(** ADD r3, r1, r2 at PC 0, with 5 and 6 in r1 and r2. *)
Definition toy_add : toy := MkToy ([0; 5; 6] ++ replicate 32 0 ++ [4; 0; 0; 0; 0]) (Z.shiftl 1 21 + Z.shiftl 2 16 + Z.shiftl 3 11 + 32).

Lemma toy_regs_ok : regs_ok (regs toy_add).
Proof. split; [reflexivity|]. split; [by_compute|]. simpl. lia. Qed.

Example mult_is_64_bit_product_witness : double_word (Mult (-3) 7 true) = 2 ^ 64 - 21.
Proof. destruct (mult_is_64_bit_product (-3) 7 true) as [E _]; [done|done|]. rewrite E. reflexivity. Defined.


Example instruction_end_witness : exists st', (_ ← DelayedLoad 4 9; advance 8) toy_add = Ok (tt, st') /\
  regs st' !! 34%nat = Some 4 /\ regs st' !! 37%nat = Some 4 /\ regs st' !! 1%nat = Some 5.
Proof.
  destruct (instruction_end (CPU := toy_cpu) toy_add 8 4 9 toy_regs_ok) as (st' & E & H). exists st'.
  split; [exact E|]. split_and!; rewrite H by lia; reflexivity.
Defined.

Example unaligned_access_witness :
  let load o w w' := lwl_merge ((o + 3) mod 4) w' (lwr_merge o w (-1)) in
  load 1 (word 1 2 3 4) (word 5 6 7 8) = word 2 3 4 5.
Proof.
  intros load. destruct (unaligned_access 1 1 2 3 4 5 6 7 8 0 0 0 0 (-1)) as (_ & H & _); [by_compute|].
  apply H. reflexivity.
Defined.

Definition toy_instr (op : opcode) : Instruction := MkInstr op 1 2 3 4.

Lemma toy_instr_ok op : handled op -> instr_ok (toy_instr op).
Proof. intros. constructor; cbn [toy_instr opCode rs rt rd extra]; try done; lia. Qed.

Example overflow_trap_exact_witness :
  exec_add (toy_instr OP_ADD) 8 toy_add = (_ ← set_reg 3 11; mret (Continue 8 0 0)) toy_add.
Proof.
  destruct (overflow_trap_exact (CPU := toy_cpu) toy_add (toy_instr OP_ADD) 8 5 6) as (E & _).
  - apply toy_instr_ok. by_compute.
  - reflexivity.
  - reflexivity.
  - done.
  - done.
  - rewrite decide_True in E by done. exact E.
Defined.

(** Shifting -16 right by 4 "logically" leaves -1. *)
Example srl_shifts_arithmetically_witness :
  let st := MkToy ([0; 5; -16] ++ replicate 37 0) 0 in
  execute (toy_instr OP_SRL) 8 st = (_ ← set_reg 3 (-1); mret (Continue 8 0 0)) st.
Proof.
  intros st. destruct (srl_shifts_arithmetically (CPU := toy_cpu) st (toy_instr OP_SRL) 8 5 (-16)) as [E _].
  - apply toy_instr_ok. by_compute.
  - reflexivity.
  - reflexivity.
  - reflexivity.
  - done.
  - exact E.
Defined.
End Mips.
