(* ===== verification/TLB.v ===== *)
(** TLB: the translation lookaside buffer of src/code/machine/TLBManager.h and TLBManager.cc.

    Four rows (sets) of four entries; the two low bits of the virtual page number choose the
    row and the others are the tag.  A row is the array [tlbPtr[TLBI]]; each operation works
    on the one row its page falls in.  The theorems see the buffer as a partial map from
    virtual pages to the frame and the thread they were filled with. *)

From S2P Require Import Prelude.
From stdpp Require Import base numbers list gmap.
#[local] Open Scope Z_scope.

(** The sizes of src/code/machine/memory.h. *)
Definition PageSize : Z := 128.
Definition NumPhysPages : Z := 128.
Definition NumVirtualPages : Z := 1024.
Definition PhysicalMemorySize : Z := NumPhysPages * PageSize.

Module TLB.

Record TLBEntry := MkTLBEntry { Tag : Z; PPN : Z; valid : bool; threadId : Z; lru : Z }.

(** [tlbPtr] *)
Definition TLBManager : Type := list (list TLBEntry).

(** The constructor; [raw] is what the new entries hold before they are initialised. *)
Definition TLBManager_new (raw : Z -> Z -> TLBEntry) : TLBManager :=
  map (fun i => map (fun j => let e := raw i j in MkTLBEntry (Tag e) (PPN e) false (-1) (lru e)) (range 0 4)) (range 0 4).

Definition TLBI (vpn : Z) : Z := Z.land vpn 3.
Definition TLBT (vpn : Z) : Z := Z.land (Z.shiftr vpn 2) (Z.ones 30).
Definition set_lru (x : Z) (e : TLBEntry) : TLBEntry := MkTLBEntry (Tag e) (PPN e) (valid e) (threadId e) x.

(** [tlbPtr[TLBI][i].valid && tlbPtr[TLBI][i].Tag == TLBT] *)
Definition hit (tag : Z) (e : TLBEntry) : bool := valid e && (Tag e =? tag).

(** The search loop of [translate], on one row: the frame found and the row after it. *)
Definition row_translate (tag : Z) (row : list TLBEntry) : res (option Z * list TLBEntry) :=
  r ← for_ret (range 0 4) (fun i row =>
        e ← aget row i;
        if hit tag e then row' ← aset row i (set_lru 0 e); Ok (inr (Some (PPN e), row'))
        else Ok (inl row)) row;
  Ok (match r with inl row => (None, row) | inr p => p end).

Definition translate (t : TLBManager) (virtAddr : Z) : res (Z * TLBManager) :=
  let vpn := u32 virtAddr / PageSize in
  let offset := u32 virtAddr mod PageSize in
  row ← aget t (TLBI vpn);
  '(p, row) ← row_translate (TLBT vpn) row;
  t ← aset t (TLBI vpn) row;
  Ok (match p with Some ppn => i32 (ppn * PageSize + offset) | None => -1 end, t).

(** The loop of [update] that ages the row and chooses the entry to replace. *)
Definition row_victim (row : list TLBEntry) : res (list TLBEntry * Z) :=
  r ← for_ret (range 0 4) (fun i '(row, index) =>
        e ← aget row i;
        if valid e then
          row ← aset row i (set_lru (u32 (lru e + 1)) e);
          x ← aget row i; y ← aget row index;
          Ok (inl (row, if lru y <? lru x then i else index))
        else Ok (inr (row, i))) (row, 0);
  Ok (match r with inl p => p | inr p => p end).

(** [tid] is the pid of the current thread. *)
Definition update (t : TLBManager) (virtAddr pageFrame tid : Z) : res TLBManager :=
  let vpn := u32 virtAddr / PageSize in
  row ← aget t (TLBI vpn);
  '(row, index) ← row_victim row;
  row ← aset row index (MkTLBEntry (TLBT vpn) pageFrame true tid 0);
  aset t (TLBI vpn) row.

Definition invalidEntry (t : TLBManager) (tid vpn : Z) : res TLBManager :=
  row ← aget t (TLBI vpn);
  row ← for_each (range 0 4) (fun i row =>
          e ← aget row i;
          if hit (TLBT vpn) e && (threadId e =? tid)
          then aset row i (MkTLBEntry (Tag e) (PPN e) false (threadId e) (lru e))
          else Ok row) row;
  aset t (TLBI vpn) row.

(** * The buffer as a partial map *)

Definition page_of (e : TLBEntry) : Z * Z := (PPN e, threadId e).

(** The frame and thread cached for a tag in a row, and for a page in the buffer. *)
Definition row_find (row : list TLBEntry) (tag : Z) : option (Z * Z) := page_of <$> head (filter (fun e => hit tag e) row).
Definition find (t : list (list TLBEntry)) (vpn : Z) : option (Z * Z) :=
  match t !! Z.to_nat (TLBI vpn) with Some row => row_find row (TLBT vpn) | None => None end.

(** No tag is cached twice in a row. *)
Record row_wf (row : list TLBEntry) : Prop := {
  rw_len : length row = 4%nat;
  rw_uniq i j e e' : row !! i = Some e -> row !! j = Some e' -> valid e = true -> valid e' = true -> Tag e = Tag e' -> i = j
}.
Definition tlb_wf (t : list (list TLBEntry)) : Prop := length t = 4%nat /\ Forall row_wf t.

(** Two entries that differ at most in their age. *)
Definition same_page (e e' : TLBEntry) : Prop := valid e = valid e' /\ Tag e = Tag e' /\ page_of e = page_of e'.

#[export] Instance same_page_equiv : Equivalence same_page.
Proof. split; unfold same_page; repeat intro; intuition congruence. Qed.

(** What an entry contributes to a lookup. *)
Lemma hit_true tag e : hit tag e = true <-> valid e = true /\ Tag e = tag.
Proof. unfold hit. rewrite andb_true_iff, Z.eqb_eq. done. Qed.

#[export] Instance hit_same_page : Proper (eq ==> same_page ==> eq) hit.
Proof. intros tag _ <- e e' (Hv & Ht & _). unfold hit. by rewrite Hv, Ht. Qed.

Lemma row_find_Some row tag p : row_wf row ->
  row_find row tag = Some p <-> exists i e, row !! i = Some e /\ hit tag e = true /\ page_of e = p.
Proof.
  intros [_ Hu]. unfold row_find. split.
  - intros Hf. apply fmap_Some in Hf as (e & He & ->).
    assert (e ∈ filter (fun e => hit tag e) row) as Hin.
    { destruct (filter (fun e => hit tag e) row) as [|a l]; simpl in He; [done|]. injection He as ->. left. }
    apply list_elem_of_filter in Hin as [Hh Hin]. apply list_elem_of_lookup in Hin as [i Hi].
    exists i, e. split; [done|]. split; [by apply Is_true_eq_true|done].
  - intros (i & e & Hi & Hh & <-).
    assert (e ∈ filter (fun e => hit tag e) row) as Hin.
    { apply list_elem_of_filter. split; [by apply Is_true_eq_left|]. by eapply list_elem_of_lookup_2. }
    destruct (filter (fun e => hit tag e) row) as [|a l] eqn:Ef; [by apply elem_of_nil in Hin|]. simpl.
    assert (a ∈ filter (fun e => hit tag e) row) as Ha by (rewrite Ef; left).
    apply list_elem_of_filter in Ha as [Hha Hina]. apply list_elem_of_lookup in Hina as [j Hj].
    apply Is_true_eq_true in Hha. apply hit_true in Hh as [? ?]. apply hit_true in Hha as [? ?].
    assert (i = j) as -> by (eapply Hu; eauto; congruence). f_equal. congruence.
Qed.

Lemma row_wf_same row row' : Forall2 same_page row row' -> row_wf row -> row_wf row'.
Proof.
  intros Hs [Hl Hu]. pose proof (Forall2_length _ _ _ Hs). split; [congruence|].
  intros i j e e' Hi Hj Hv Hv' Ht.
  destruct (Forall2_lookup_r _ _ _ _ _ Hs Hi) as (a & Ha & (Hav & Hat & _)).
  destruct (Forall2_lookup_r _ _ _ _ _ Hs Hj) as (b & Hb & (Hbv & Hbt & _)).
  eapply Hu; [exact Ha|exact Hb|congruence..].
Qed.

Lemma row_find_same row row' tag : Forall2 same_page row row' -> row_find row' tag = row_find row tag.
Proof.
  intros Hs. unfold row_find. induction Hs as [|e e' row row' He Hs IH]; [done|].
  rewrite !filter_cons. rewrite (hit_same_page tag tag eq_refl e e' He).
  case_decide; [|done]. simpl. by destruct He as (_ & _ & ->).
Qed.
(** * One row *)

Ltac split_row row Hl :=
  destruct row as [|?e0 [|?e1 [|?e2 [|?e3 [|? ?]]]]]; simpl in Hl; try discriminate Hl; clear Hl.

(** Indexing an array of four. *)
Section Four.
Context {A : Type} (a b c d x : A).

Lemma aget_0 : aget [a; b; c; d] 0 = Ok a.
Proof. reflexivity. Qed.

Lemma aget_1 : aget [a; b; c; d] 1 = Ok b.
Proof. reflexivity. Qed.

Lemma aget_2 : aget [a; b; c; d] 2 = Ok c.
Proof. reflexivity. Qed.

Lemma aget_3 : aget [a; b; c; d] 3 = Ok d.
Proof. reflexivity. Qed.

Lemma aset_0 : aset [a; b; c; d] 0 x = Ok [x; b; c; d].
Proof. reflexivity. Qed.

Lemma aset_1 : aset [a; b; c; d] 1 x = Ok [a; x; c; d].
Proof. reflexivity. Qed.

Lemma aset_2 : aset [a; b; c; d] 2 x = Ok [a; b; x; d].
Proof. reflexivity. Qed.

Lemma aset_3 : aset [a; b; c; d] 3 x = Ok [a; b; c; x].
Proof. reflexivity. Qed.
End Four.
Lemma lru_set x e : lru (set_lru x e) = x.
Proof. done. Qed.

Create Rewrite HintDb row.
#[export] Hint Rewrite @aget_0 @aget_1 @aget_2 @aget_3 @aset_0 @aset_1 @aset_2 @aset_3 lru_set : row.

Lemma same_set_lru x e : same_page e (set_lru x e).
Proof. done. Qed.
#[local] Hint Resolve same_set_lru : core.

Ltac row_step := repeat (progress (cbn -[hit Z.eqb Z.ltb aget aset u32 Z.add set_lru]; autorewrite with row)).

Lemma row_translate_spec row tag : length row = 4%nat ->
  exists row', row_translate tag row = Ok (fst <$> row_find row tag, row') /\ Forall2 same_page row row'.
Proof.
  intros Hl. split_row row Hl. unfold row_translate, row_find. change (range 0 4) with [0; 1; 2; 3].
  rewrite !filter_cons. row_step. destruct (hit tag e0).
  { row_step. by eexists; split; [reflexivity|repeat constructor]. }
  row_step. destruct (hit tag e1).
  { row_step. by eexists; split; [reflexivity|repeat constructor]. }
  row_step. destruct (hit tag e2).
  { row_step. by eexists; split; [reflexivity|repeat constructor]. }
  row_step. destruct (hit tag e3); row_step; by eexists; split; [reflexivity|repeat constructor].
Qed.

(** The entry [update] replaces: a free one when there is one, otherwise one that no other
    entry of the row exceeds in age. *)
Definition victim (row : list TLBEntry) (k : Z) : Prop :=
  exists e, row !! Z.to_nat k = Some e /\
    (valid e = false \/
     (Forall (fun x => valid x = true) row /\ (Forall (fun x => 0 <= lru x < 2 ^ 32 - 1) row -> Forall (fun x => lru x <= lru e) row))).

Ltac same_rows := repeat first [apply Forall2_nil_2 | apply Forall2_cons_2; [repeat split; done|]].
Ltac free_entry :=
  do 2 eexists; split_and!; [reflexivity|lia|lia|same_rows|eexists; split; [reflexivity|by left]].
Ltac oldest_entry Hu :=
  do 2 eexists; split_and!; [reflexivity|lia|lia|same_rows|]; eexists; split; [reflexivity|]; right;
  split; [by repeat constructor|]; intros Hr; repeat (apply Forall_cons in Hr as [? Hr]);
  rewrite !Hu in * by done; repeat constructor; cbn; try lia.

Lemma row_victim_spec row : length row = 4%nat ->
  exists row' k, row_victim row = Ok (row', k) /\ 0 <= k < 4 /\ Forall2 same_page row row' /\ victim row k.
Proof.
  intros Hl. split_row row Hl. unfold row_victim, victim. change (range 0 4) with [0; 1; 2; 3].
  assert (forall x, 0 <= x < 2 ^ 32 - 1 -> u32 (x + 1) = x + 1) as Hu by (intros; apply u32_id; unfold is_u32; lia).
  row_step. destruct (valid e0) eqn:V0; [|row_step; free_entry].
  row_step. rewrite Z.ltb_irrefl. row_step. destruct (valid e1) eqn:V1; [|row_step; free_entry].
  row_step. destruct (Z.ltb_spec (u32 (lru e0 + 1)) (u32 (lru e1 + 1))) as [C1|C1]; row_step;
  (destruct (valid e2) eqn:V2; [|row_step; free_entry]); row_step;
  match goal with |- context [?a <? ?b] => destruct (Z.ltb_spec a b) as [C2|C2] end; row_step;
  (destruct (valid e3) eqn:V3; [|row_step; free_entry]); row_step;
  match goal with |- context [?a <? ?b] => destruct (Z.ltb_spec a b) as [C3|C3] end; row_step; oldest_entry Hu.
Qed.

Lemma row_find_replace row k e tag : row_wf row -> (k < 4)%nat -> valid e = true -> row_find row (Tag e) = None ->
  row_wf (<[k := e]> row) /\
  row_find (<[k := e]> row) tag =
    if decide (tag = Tag e) then Some (page_of e)
    else match row !! k with Some old => if hit tag old then None else row_find row tag | None => None end.
Proof.
  intros Hw Hk Hv Hnone. pose proof (rw_len _ Hw) as Hl.
  assert (forall i x, row !! i = Some x -> valid x = true -> Tag x <> Tag e) as Hfresh.
  { intros i x Hi Hx Ht. assert (row_find row (Tag e) = Some (page_of x)) as E; [|by rewrite Hnone in E].
    apply row_find_Some; [done|]. exists i, x. split; [done|]. split; [|done]. by apply hit_true. }
  assert (row_wf (<[k := e]> row)) as Hw'.
  { split; [by rewrite length_insert|]. intros i j x y Hi Hj Hx Hy Ht. destruct (decide (i = k)) as [->|Hik], (decide (j = k)) as [->|Hjk].
    - done.
    - rewrite list_lookup_insert_eq in Hi by lia. injection Hi as <-. rewrite list_lookup_insert_ne in Hj by done.
      exfalso. by eapply Hfresh.
    - rewrite list_lookup_insert_eq in Hj by lia. injection Hj as <-. rewrite list_lookup_insert_ne in Hi by done.
      exfalso. by eapply Hfresh.
    - rewrite list_lookup_insert_ne in Hi by done. rewrite list_lookup_insert_ne in Hj by done. by eapply (rw_uniq _ Hw). }
  split; [done|]. apply option_eq. intros p. rewrite row_find_Some by done. split.
  - intros (i & x & Hi & Hh & <-). destruct (decide (i = k)) as [->|Hik].
    + rewrite list_lookup_insert_eq in Hi by lia. injection Hi as <-. apply hit_true in Hh as [_ <-].
      by rewrite decide_True.
    + rewrite list_lookup_insert_ne in Hi by done. pose proof Hh as [Hxv Hxt]%hit_true.
      rewrite decide_False by (intros ->; by eapply Hfresh).
      destruct (lookup_lt_is_Some_2 row k) as [old Hold]; [lia|]. rewrite Hold.
      destruct (hit tag old) eqn:Ho.
      { apply hit_true in Ho as [Hov Hot]. exfalso. apply Hik. eapply (rw_uniq _ Hw); eauto. congruence. }
      apply row_find_Some; [done|]. by exists i, x.
  - case_decide as Ht.
    + intros [= <-]. exists k, e. rewrite list_lookup_insert_eq by lia. split; [done|]. split; [|done]. by apply hit_true.
    + destruct (row !! k) as [old|] eqn:Hold; [|done]. destruct (hit tag old) eqn:Ho; [done|].
      rewrite row_find_Some by done. intros (i & x & Hi & Hh & <-). exists i, x. split; [|done].
      rewrite list_lookup_insert_ne; [done|]. intros <-. congruence.
Qed.
(** * The whole buffer *)

(** The page of a virtual address. *)
Definition page (virtAddr : Z) : Z := u32 virtAddr / PageSize.
Definition is_page (v : Z) : Prop := is_u32 v.

Lemma page_range va : is_page (page va).
Proof. pose proof (u32_range va). unfold is_page, page, is_u32, PageSize in *. Z.div_mod_to_equations. lia. Qed.

Lemma TLBI_range vpn : 0 <= TLBI vpn < 4.
Proof. unfold TLBI. change 3 with (Z.ones 2). rewrite Z.land_ones by lia. apply Z.mod_pos_bound. lia. Qed.

Lemma page_split v w : is_page v -> is_page w -> TLBI v = TLBI w -> TLBT v = TLBT w -> v = w.
Proof.
  unfold is_page, is_u32, TLBI, TLBT. change 3 with (Z.ones 2). rewrite !Z.land_ones, !Z.shiftr_div_pow2 by lia.
  intros. Z.div_mod_to_equations. lia.
Qed.

Lemma get_row t vpn : tlb_wf t -> exists row, t !! Z.to_nat (TLBI vpn) = Some row /\ aget t (TLBI vpn) = Ok row /\ row_wf row.
Proof.
  intros [Hl Hw]. pose proof (TLBI_range vpn). destruct (aget_in t (TLBI vpn)) as (row & Hr & Hg); [lia|].
  exists row. split_and!; [done|done|]. by eapply Forall_lookup_1.
Qed.

Lemma set_row t vpn row : tlb_wf t -> row_wf row ->
  exists t', aset t (TLBI vpn) row = Ok t' /\ tlb_wf t' /\
    forall v, find t' v = if decide (TLBI v = TLBI vpn) then row_find row (TLBT v) else find t v.
Proof.
  intros [Hl Hw] Hr. pose proof (TLBI_range vpn). rewrite aset_in by lia. eexists. split; [reflexivity|].
  split; [split; [by rewrite length_insert|by apply Forall_insert]|].
  intros v. unfold find. pose proof (TLBI_range v). case_decide as Hv.
  - rewrite Hv, list_lookup_insert_eq by lia. done.
  - rewrite list_lookup_insert_ne by lia. done.
Qed.

Lemma find_row t vpn row v : t !! Z.to_nat (TLBI vpn) = Some row -> TLBI v = TLBI vpn -> find t v = row_find row (TLBT v).
Proof. intros E Ev. unfold find. by rewrite Ev, E. Qed.

Lemma translate_spec t va : tlb_wf t ->
  exists t', translate t va = Ok (match find t (page va) with Some (f, _) => i32 (f * PageSize + u32 va mod PageSize) | None => -1 end, t') /\
    tlb_wf t' /\ forall v, find t' v = find t v.
Proof.
  intros Ht. unfold translate. fold (page va). destruct (get_row t (page va) Ht) as (row & Hr & -> & Hw). cbn [mbind res_bind].
  destruct (row_translate_spec row (TLBT (page va)) (rw_len _ Hw)) as (row' & -> & Hs). cbn [mbind res_bind].
  destruct (set_row t (page va) row' Ht (row_wf_same _ _ Hs Hw)) as (t' & -> & Ht' & Hf). cbn [mbind res_bind].
  exists t'. split; [|split; [done|]].
  - rewrite (find_row t (page va) row (page va) Hr eq_refl). by destruct (row_find row _) as [[f tid]|].
  - intros v. rewrite Hf. case_decide as Hv; [|done]. rewrite (row_find_same _ _ _ Hs). by rewrite (find_row t (page va) row v Hr Hv).
Qed.

(** The entry [k] of the row is the one that caches the tag. *)
Definition holds_at (row : list TLBEntry) (k tag : Z) : bool :=
  match row !! Z.to_nat k with Some e => hit tag e | None => false end.

(** [update] on a page that is not cached: the page is cached, and at most the page of the
    replaced entry is lost. *)
Lemma update_spec t va frame tid : tlb_wf t -> find t (page va) = None ->
  exists t' row k, update t va frame tid = Ok t' /\ tlb_wf t' /\ t !! Z.to_nat (TLBI (page va)) = Some row /\ victim row k /\
    forall v, is_page v -> find t' v =
      if decide (v = page va) then Some (frame, tid)
      else if (TLBI v =? TLBI (page va)) && holds_at row k (TLBT v) then None else find t v.
Proof.
  intros Ht Hnone. unfold update. fold (page va). destruct (get_row t (page va) Ht) as (row & Hr & -> & Hw). cbn [mbind res_bind].
  destruct (row_victim_spec row (rw_len _ Hw)) as (row' & k & -> & Hk & Hs & Hvic). cbn [mbind res_bind].
  pose proof (row_wf_same _ _ Hs Hw) as Hw'. rewrite aset_in by (rewrite (rw_len _ Hw'); lia). cbn [mbind res_bind].
  rewrite (find_row t (page va) row (page va) Hr eq_refl), <- (row_find_same _ _ _ Hs) in Hnone.
  set (e := MkTLBEntry (TLBT (page va)) frame true tid 0).
  pose proof (fun tag => row_find_replace row' (Z.to_nat k) e tag Hw' ltac:(lia) eq_refl Hnone) as Hrep.
  destruct (set_row t (page va) _ Ht (proj1 (Hrep 0))) as (t' & -> & Ht' & Hf).
  exists t', row, k. split_and!; try done. intros v Hv. rewrite Hf. pose proof (page_range va) as Hp.
  case_decide as Hi.
  - rewrite (proj2 (Hrep (TLBT v))). cbn [Tag page_of PPN threadId e]. rewrite (row_find_same _ _ _ Hs).
    case_decide as He1; [rewrite decide_True by (by apply page_split); done|]. rewrite decide_False by (intros ->; done).
    destruct (row' !! Z.to_nat k) as [old|] eqn:Hold.
    2: { apply lookup_ge_None in Hold. rewrite (rw_len _ Hw') in Hold. lia. }
    destruct (Forall2_lookup_r _ _ _ _ _ Hs Hold) as (old' & Hold' & Hsame).
    rewrite <- (hit_same_page (TLBT v) _ eq_refl _ _ Hsame). unfold holds_at. rewrite Hold', (proj2 (Z.eqb_eq _ _) Hi). cbn [andb].
    destruct (hit (TLBT v) old'); [done|]. by rewrite (find_row t (page va) row v Hr Hi).
  - rewrite decide_False by (intros ->; done). by rewrite (proj2 (Z.eqb_neq _ _) Hi).
Qed.

(** What [invalidEntry] does to one entry. *)
Definition invalidate (tag tid : Z) (e : TLBEntry) : TLBEntry :=
  if hit tag e && (threadId e =? tid) then MkTLBEntry (Tag e) (PPN e) false (threadId e) (lru e) else e.

Lemma row_invalid row tag tid : length row = 4%nat ->
  for_each (range 0 4) (fun i row =>
    e ← aget row i;
    if hit tag e && (threadId e =? tid) then aset row i (MkTLBEntry (Tag e) (PPN e) false (threadId e) (lru e)) else Ok row) row
  = Ok (map (invalidate tag tid) row).
Proof.
  intros Hl. split_row row Hl. change (range 0 4) with [0; 1; 2; 3]. cbn [map]. unfold invalidate.
  row_step. destruct (hit tag e0 && _); row_step; (destruct (hit tag e1 && _); row_step);
    (destruct (hit tag e2 && _); row_step); (destruct (hit tag e3 && _); row_step); done.
Qed.

Lemma invalidate_fields tag tid e : Tag (invalidate tag tid e) = Tag e /\ page_of (invalidate tag tid e) = page_of e /\
  (valid (invalidate tag tid e) = valid e && negb (hit tag e && (threadId e =? tid))).
Proof. unfold invalidate. destruct (hit tag e && _) eqn:E; cbn; [by rewrite andb_false_r|by rewrite andb_true_r]. Qed.

Lemma row_find_invalid row tag tid tag' : row_wf row ->
  row_wf (map (invalidate tag tid) row) /\
  row_find (map (invalidate tag tid) row) tag' =
    match row_find row tag' with Some (f, t) => if (tag' =? tag) && (t =? tid) then None else Some (f, t) | None => None end.
Proof.
  intros Hw. assert (row_wf (map (invalidate tag tid) row)) as Hw'.
  { split; [rewrite length_map; apply Hw|]. intros i j x y Hi Hj Hx Hy Ht.
    apply list_lookup_fmap_Some in Hi as (a & -> & Ha). apply list_lookup_fmap_Some in Hj as (b & -> & Hb).
    destruct (invalidate_fields tag tid a) as (Ta & _ & Va). destruct (invalidate_fields tag tid b) as (Tb & _ & Vb).
    rewrite Va in Hx. rewrite Vb in Hy. apply andb_true_iff in Hx as [? _]. apply andb_true_iff in Hy as [? _].
    eapply (rw_uniq _ Hw); eauto. congruence. }
  split; [done|]. apply option_eq. intros p. rewrite row_find_Some by done. split.
  - intros (i & x & Hi & Hh & <-). apply list_lookup_fmap_Some in Hi as (a & -> & Ha).
    destruct (invalidate_fields tag tid a) as (Ta & Pa & Va). apply hit_true in Hh as [Hv Ht]. rewrite Ta in Ht.
    rewrite Va in Hv. apply andb_true_iff in Hv as [Hv Hn]. rewrite Pa.
    assert (row_find row tag' = Some (page_of a)) as ->.
    { apply row_find_Some; [done|]. exists i, a. split; [done|]. split; [|done]. by apply hit_true. }
    unfold page_of. unfold hit in Hn. rewrite Hv, Ht in Hn. cbn [andb] in Hn. destruct ((tag' =? tag) && (threadId a =? tid)); done.
  - destruct (row_find row tag') as [[f t]|] eqn:E; [|done]. destruct ((tag' =? tag) && (t =? tid)) eqn:Et; [done|]. intros [= <-].
    apply row_find_Some in E as (i & a & Ha & Hh & [= <- <-]); [|done]. exists i, (invalidate tag tid a).
    destruct (invalidate_fields tag tid a) as (Ta & Pa & Va). split; [by apply list_lookup_fmap_Some; eauto|]. split; [|done].
    apply hit_true in Hh as [Hv Ht]. apply hit_true. rewrite Ta, Va. split; [|done]. unfold hit. rewrite Hv, Ht. cbn [andb]. by rewrite Et.
Qed.

Lemma invalidEntry_spec t tid vpn : tlb_wf t -> is_page vpn ->
  exists t', invalidEntry t tid vpn = Ok t' /\ tlb_wf t' /\
    forall v, is_page v -> find t' v =
      match find t v with Some (f, o) => if (v =? vpn) && (o =? tid) then None else Some (f, o) | None => None end.
Proof.
  intros Ht Hp. unfold invalidEntry. destruct (get_row t vpn Ht) as (row & Hr & -> & Hw). cbn [mbind res_bind].
  rewrite row_invalid by apply Hw. cbn [mbind res_bind].
  pose proof (fun tag => row_find_invalid row (TLBT vpn) tid tag Hw) as Hi.
  destruct (set_row t vpn _ Ht (proj1 (Hi 0))) as (t' & -> & Ht' & Hf). exists t'. split_and!; try done.
  intros v Hv. rewrite Hf. case_decide as Hiv.
  - rewrite (proj2 (Hi (TLBT v))), (find_row t vpn row v Hr Hiv). destruct (row_find row (TLBT v)) as [[f o]|]; [|done].
    destruct (Z.eqb_spec (TLBT v) (TLBT vpn)) as [Ht1|Ht1], (Z.eqb_spec v vpn) as [->|Hne]; try done. by apply page_split in Hiv.
  - destruct (find t v) as [[f o]|]; [|done]. destruct (Z.eqb_spec v vpn) as [->|]; done.
Qed.

Lemma new_wf raw : tlb_wf (TLBManager_new raw) /\ forall v, find (TLBManager_new raw) v = None.
Proof.
  unfold TLBManager_new. change (range 0 4) with [0; 1; 2; 3]. cbn [map]. split.
  - split; [done|]. repeat constructor; cbn; intros i j x y Hi Hj Hx;
      repeat (destruct i as [|i]; [injection Hi as <-; done|]); done.
  - intros v. unfold find. pose proof (TLBI_range v).
    assert (TLBI v = 0 \/ TLBI v = 1 \/ TLBI v = 2 \/ TLBI v = 3) as [->|[->|[->| ->]]] by lia; reflexivity.
Qed.
(** * Runs

    The machine looks an address up and, on a miss, fills the buffer from the page table
    ([Access] carries the frame the table gives and the pid of the running thread); the
    kernel invalidates pages. *)
Inductive op := Access (virtAddr frame tid : Z) | Invalidate (tid vpn : Z).

Definition step (t : TLBManager) (o : op) : res (Z * TLBManager) :=
  match o with
  | Access va frame tid =>
      '(r, t) ← translate t va;
      if 0 <=? r then Ok (r, t) else t ← update t va frame tid; Ok (-1, t)
  | Invalidate tid vpn => t ← invalidEntry t tid vpn; Ok (0, t)
  end.

Fixpoint run (t : TLBManager) (os : list op) : res (list Z * TLBManager) :=
  match os with
  | [] => Ok ([], t)
  | o :: os => '(r, t) ← step t o; '(rs, t) ← run t os; Ok (r :: rs, t)
  end.

Definition op_ok (o : op) : Prop :=
  match o with Access _ frame _ => 0 <= frame < NumPhysPages | Invalidate _ vpn => is_page vpn end.

(** The answers a run may give: [m] maps each page to its latest fill, unless that was
    invalidated by the thread that made it. *)
Fixpoint answers (m : gmap Z (Z * Z)) (os : list op) (rs : list Z) : Prop :=
  match os, rs with
  | [], [] => True
  | Access va frame tid :: os, r :: rs =>
      (r = -1 /\ answers (<[page va := (frame, tid)]> m) os rs) \/
      (exists f o, m !! page va = Some (f, o) /\ r = f * PageSize + u32 va mod PageSize /\ answers m os rs)
  | Invalidate tid vpn :: os, r :: rs =>
      r = 0 /\ answers (match m !! vpn with Some (f, o) => if o =? tid then delete vpn m else m | None => m end) os rs
  | _, _ => False
  end.

Definition backed (t : TLBManager) (m : gmap Z (Z * Z)) : Prop :=
  forall v f o, is_page v -> find t v = Some (f, o) -> m !! v = Some (f, o) /\ 0 <= f < NumPhysPages.

Lemma run_answers os t m : Forall op_ok os -> tlb_wf t -> backed t m ->
  exists rs t', run t os = Ok (rs, t') /\ tlb_wf t' /\ answers m os rs.
Proof.
  revert t m. induction os as [|o os IH]; intros t m Hos Ht Hb; [by exists [], t|].
  apply Forall_cons in Hos as [Ho Hos]. cbn [run]. destruct o as [va frame tid|tid vpn]; cbn [step].
  - destruct (translate_spec t va Ht) as (t1 & -> & Ht1 & Hf1). cbn [mbind res_bind]. pose proof (page_range va) as Hp.
    assert (backed t1 m) as Hb1 by (intros v f o Hv; rewrite Hf1; auto).
    destruct (find t (page va)) as [[f o]|] eqn:E.
    + destruct (Hb _ _ _ Hp E) as [Hm Hfr]. unfold NumPhysPages, PageSize in *.
      pose proof (Z.mod_pos_bound (u32 va) 128 ltac:(lia)). rewrite i32_id by (unfold is_i32; lia).
      rewrite (proj2 (Z.leb_le _ _)) by lia. cbn [mbind res_bind].
      destruct (IH t1 m Hos Ht1 Hb1) as (rs & t' & -> & Ht' & Ha). cbn [mbind res_bind]. do 2 eexists. split; [reflexivity|].
      split; [done|]. right. exists f, o. done.
    + cbn [Z.leb Z.compare]. destruct (update_spec t1 va frame tid Ht1) as (t2 & row & k & -> & Ht2 & _ & _ & Hf2); [by rewrite Hf1|].
      cbn [mbind res_bind]. destruct (IH t2 (<[page va := (frame, tid)]> m) Hos Ht2) as (rs & t' & -> & Ht' & Ha).
      { intros v f o Hv Hfv. rewrite Hf2 in Hfv by done. case_decide as Hd.
        - injection Hfv as <- <-. subst v. rewrite lookup_insert_eq. done.
        - rewrite lookup_insert_ne by done. destruct (_ && _); [done|]. by apply Hb1. }
      cbn [mbind res_bind]. do 2 eexists. split; [reflexivity|]. split; [done|]. by left.
  - destruct (invalidEntry_spec t tid vpn Ht Ho) as (t1 & -> & Ht1 & Hf1). cbn [mbind res_bind].
    destruct (IH t1 (match m !! vpn with Some (f, o) => if o =? tid then delete vpn m else m | None => m end) Hos Ht1)
      as (rs & t' & -> & Ht' & Ha).
    { intros v f o Hv Hfv. rewrite Hf1 in Hfv by done. destruct (find t v) as [[f' o']|] eqn:E; [|done].
      destruct (Hb _ _ _ Hv E) as [Hm Hr]. destruct (Z.eqb_spec v vpn) as [->|Hne]; cbn [andb] in Hfv.
      - rewrite Hm. destruct (o' =? tid); [done|]. by injection Hfv as <- <-.
      - injection Hfv as <- <-. split; [|done]. destruct (m !! vpn) as [[f2 o2]|]; [|done]. destruct (o2 =? tid); [|done].
        by rewrite lookup_delete_ne. }
    cbn [mbind res_bind]. do 2 eexists. split; [reflexivity|]. split; [done|]. done.
Qed.

(** * Properties *)

(** C20. The buffer is a cache of its fills: in any run of lookups with fill on a miss and
    of invalidations, from the new buffer, no array is indexed out of range and every
    lookup misses (-1) or answers the address in the frame of the latest fill of that page
    that its thread has not invalidated; which thread looks up plays no role. *)
Theorem tlb_hits_latest_fill raw os : Forall op_ok os ->
  exists rs t, run (TLBManager_new raw) os = Ok (rs, t) /\ answers empty os rs.
Proof.
  intros Hos. destruct (new_wf raw) as [Hw Hn]. destruct (run_answers os (TLBManager_new raw) empty Hos Hw) as (rs & t & E & _ & Ha).
  { intros v f o _ Hv. by rewrite Hn in Hv. }
  by exists rs, t.
Qed.

(** A fill after a miss is seen by the next lookup; it replaces a free entry of the row
    when there is one and otherwise one whose age no other exceeds, and every other cached
    page stays. *)
Theorem tlb_fill_replaces_oldest t va frame tid : tlb_wf t -> find t (page va) = None -> 0 <= frame < NumPhysPages ->
  exists t' row k, update t va frame tid = Ok t' /\ tlb_wf t' /\
    t !! Z.to_nat (TLBI (page va)) = Some row /\ victim row k /\
    (exists t2, translate t' va = Ok (frame * PageSize + u32 va mod PageSize, t2)) /\
    forall v, is_page v -> v <> page va ->
      find t' v = if (TLBI v =? TLBI (page va)) && holds_at row k (TLBT v) then None else find t v.
Proof.
  intros Ht Hn Hfr. destruct (update_spec t va frame tid Ht Hn) as (t' & row & k & E & Ht' & Hr & Hv & Hf).
  exists t', row, k. split_and!; try done.
  - destruct (translate_spec t' va Ht') as (t2 & E2 & _). rewrite Hf, decide_True in E2 by (done || apply page_range).
    unfold NumPhysPages, PageSize in *. pose proof (Z.mod_pos_bound (u32 va) 128 ltac:(lia)).
    rewrite i32_id in E2 by (unfold is_i32; lia). by exists t2.
  - intros v Hpv Hne. by rewrite Hf, decide_False by done.
Qed.

(** ** Concrete inputs *)

Definition raw_entries (i j : Z) : TLBEntry := MkTLBEntry 7 i true j 9.

(** Thread 1 caches page 0 in frame 5; thread 2 hits it. *)
Example tlb_hits_latest_fill_witness :
  let os := [Access 8 5 1; Access 12 6 2; Invalidate 1 0; Access 4 6 2] in
  run (TLBManager_new raw_entries) os ≫= (fun p => Ok (fst p)) = Ok [-1; 652; 0; -1] /\
  exists rs t, run (TLBManager_new raw_entries) os = Ok (rs, t) /\ answers empty os rs.
Proof. split; [reflexivity|]. apply (tlb_hits_latest_fill raw_entries). repeat constructor; vm_compute; discriminate. Defined.

Example tlb_fill_replaces_oldest_witness :
  exists t', update (TLBManager_new raw_entries) 8 5 1 = Ok t' /\ tlb_wf t'.
Proof.
  destruct (tlb_fill_replaces_oldest (TLBManager_new raw_entries) 8 5 1) as (t' & row & k & E & Hw & _).
  - apply new_wf.
  - apply new_wf.
  - by_compute.
  - exists t'. split; [exact E|exact Hw].
Defined.
End TLB.
