(* ===== verification/Machine.v ===== *)
(** Machine: the simulated hardware of src/code/machine/machine.h, machine.cc, translate.h
    and translate.cc (the build has USE_TLB defined and a little-endian host, so
    WordToHost and its relatives are the identity).

    The machine holds the registers, main memory, the translation buffer and the page table
    register, a pointer: page tables live in a store shared with the kernel, which updates
    them in place.  The exception handler is the kernel's and is an argument of the
    operations that trap. *)

From S2P Require Import Prelude Mips TLB.
From stdpp Require Import base numbers list gmap.
#[local] Open Scope Z_scope.

Module Machine.

Record TranslationEntry := MkEntry {
  virtualPage : Z; physicalPage : Z; valid : bool; readOnly : bool; use : bool; dirty : bool
}.

Inductive MachineStatus := IdleMode | SystemMode | UserMode.

Record Machine := MkMachine {
  registers : list Z;
  mainMemory : list Z;
  tlbManager : TLB.TLBManager;
  pageTable : Z;
  pageTableSize : Z
}.

(** The constructor; [raw] is uninitialised memory and the size of a page table that is not
    there is never set. *)
Definition Machine_new (raw : Z -> Z -> TLB.TLBEntry) (rawSize : Z) : Machine :=
  MkMachine (replicate (Z.to_nat NumTotalRegs) 0) (replicate (Z.to_nat PhysicalMemorySize) 0)
    (TLB.TLBManager_new raw) 0 rawSize.

(** The machine, the page tables by address, the status and the running thread's pid of
    the kernel, and the rest of the kernel's state. *)
Record World (K : Type) := MkWorld {
  machine : Machine;
  pageTables : gmap Z (list TranslationEntry);
  status : MachineStatus;
  currentPid : Z;
  kernel : K
}.
Arguments MkWorld {K}.
Arguments machine {K}.
Arguments pageTables {K}.
Arguments status {K}.
Arguments currentPid {K}.
Arguments kernel {K}.

Section Ops.
Context {K : Type}.
Implicit Types w : World K.

Definition set_machine (m : Machine) w : World K := MkWorld m (pageTables w) (status w) (currentPid w) (kernel w).
Definition set_registers (l : list Z) w : World K :=
  let m := machine w in set_machine (MkMachine l (mainMemory m) (tlbManager m) (pageTable m) (pageTableSize m)) w.
Definition set_memory (b : list Z) w : World K :=
  let m := machine w in set_machine (MkMachine (registers m) b (tlbManager m) (pageTable m) (pageTableSize m)) w.
Definition set_tlb (t : TLB.TLBManager) w : World K :=
  let m := machine w in set_machine (MkMachine (registers m) (mainMemory m) t (pageTable m) (pageTableSize m)) w.
Definition set_tables (p : gmap Z (list TranslationEntry)) w : World K :=
  MkWorld (machine w) p (status w) (currentPid w) (kernel w).
Definition setStatus (s : MachineStatus) w : World K := MkWorld (machine w) (pageTables w) s (currentPid w) (kernel w).
Definition modify (f : World K -> World K) : M (World K) unit := fun w => Ok (tt, f w).

#[export] Instance world_registers : Registers (World K).
Proof.
  refine {| regs := fun w => registers (machine w); set_regs := set_registers |}; try done.
  by intros [[] ? ? ? ?].
Defined.

Definition ReadRegister (num : Z) : M (World K) Z :=
  _ ← lift (ASSERT ((0 <=? num) && (num <? NumTotalRegs))); Mips.reg num.
Definition WriteRegister (num value : Z) : M (World K) unit :=
  _ ← lift (ASSERT ((0 <=? num) && (num <? NumTotalRegs))); Mips.set_reg num value.

(** The exception ([inl]) or the physical address ([inr]) of a reference. *)
Definition Translate (virtAddr size : Z) (writing : bool) : M (World K) (Z + Z) :=
  let vpn := u32 virtAddr / PageSize in
  let offset := u32 virtAddr mod PageSize in
  if ((size =? 4) && negb (Z.land virtAddr 3 =? 0)) || ((size =? 2) && negb (Z.land virtAddr 1 =? 0))
  then mret (inl AddressErrorException)
  else
    w ← get_state;
    '(r, t) ← lift (TLB.translate (tlbManager (machine w)) virtAddr);
    _ ← modify (set_tlb t);
    if 0 <=? r then mret (inr r)
    else if pageTableSize (machine w) <=? vpn then mret (inl AddressErrorException)
    else
      table ← lift (deref (pageTables w !! pageTable (machine w)));
      entry ← lift (aget table vpn);
      if negb (valid entry) then mret (inl PageFaultException)
      else if readOnly entry && writing then mret (inl ReadOnlyException)
      else
        let pageFrame := u32 (physicalPage entry) in
        if NumPhysPages <=? pageFrame then mret (inl BusErrorException)
        else
          t ← lift (TLB.update t virtAddr pageFrame (currentPid w));
          _ ← modify (set_tlb t);
          _ ← (if writing then
                 table ← lift (aset table vpn (MkEntry (virtualPage entry) (physicalPage entry) (valid entry) (readOnly entry) (use entry) true));
                 modify (set_tables (<[pageTable (machine w) := table]> (pageTables w)))
               else mret tt);
          let physAddr := i32 (pageFrame * PageSize + offset) in
          _ ← lift (ASSERT ((0 <=? physAddr) && (physAddr + size <=? PhysicalMemorySize)));
          mret (inr physAddr).

(** The [switch (size)] of ReadMem and of WriteMem, on the bytes of memory: [char] is
    signed. *)
Definition load (mem : list Z) (p size : Z) : res Z :=
  if size =? 1 then b ← aget mem p; Ok (if b <? 128 then b else b - 256)
  else if size =? 2 then b0 ← aget mem p; b1 ← aget mem (p + 1); Ok (b0 + b1 * 2 ^ 8)
  else if size =? 4 then
    b0 ← aget mem p; b1 ← aget mem (p + 1); b2 ← aget mem (p + 2); b3 ← aget mem (p + 3); Ok (i32 (word_of_bytes b0 b1 b2 b3))
  else AssertFail.

Definition store (mem : list Z) (p size value : Z) : res (list Z) :=
  let w := u32 value in
  if size =? 1 then aset mem p (w mod 2 ^ 8)
  else if size =? 2 then mem ← aset mem p (w mod 2 ^ 8); aset mem (p + 1) ((w / 2 ^ 8) mod 2 ^ 8)
  else if size =? 4 then
    mem ← aset mem p (w mod 2 ^ 8); mem ← aset mem (p + 1) ((w / 2 ^ 8) mod 2 ^ 8);
    mem ← aset mem (p + 2) ((w / 2 ^ 16) mod 2 ^ 8); aset mem (p + 3) ((w / 2 ^ 24) mod 2 ^ 8)
  else AssertFail.

Context (ExceptionHandler : Z -> M (World K) unit).

Definition RaiseException (which badVAddr : Z) : M (World K) unit :=
  _ ← Mips.set_reg BadVAddrReg badVAddr;
  _ ← Mips.DelayedLoad 0 0;
  _ ← modify (setStatus SystemMode);
  _ ← ExceptionHandler which;
  modify (setStatus UserMode).

(** The address to access, [None] when the reference is given up.  After a page fault the
    reference is translated again and the answer is used unseen: when that fails too,
    [physicalAddress] was never set. *)
Definition reference (addr size : Z) (writing : bool) : M (World K) (option Z) :=
  r ← Translate addr size writing;
  match r with
  | inr p => mret (Some p)
  | inl e =>
      _ ← RaiseException e addr;
      if e =? PageFaultException then
        r ← Translate addr size writing;
        match r with inr p => mret (Some p) | inl _ => lift Undefined end
      else mret None
  end.

Definition ReadMem (addr size : Z) : M (World K) (option Z) :=
  p ← reference addr size false;
  match p with
  | None => mret None
  | Some p => w ← get_state; value ← lift (load (mainMemory (machine w)) p size); mret (Some value)
  end.

Definition WriteMem (addr size value : Z) : M (World K) bool :=
  p ← reference addr size true;
  match p with
  | None => mret false
  | Some p => w ← get_state; mem ← lift (store (mainMemory (machine w)) p size value); _ ← modify (set_memory mem); mret true
  end.

#[export] Instance machine_cpu : Cpu (World K) :=
  {| Mips.ReadMem := ReadMem; Mips.WriteMem := WriteMem; Mips.RaiseException := RaiseException |}.
End Ops.
(** * Translation *)

Section Translation.
Context {K : Type}.
Implicit Types w : World K.

(** What the hardware relies on: all of main memory, a buffer that caches no page twice and
    only frames that exist, and a page table as long as the register says. *)
Record mem_ok (m : Machine) : Prop := {
  mo_len : Z.of_nat (length (mainMemory m)) = PhysicalMemorySize;
  mo_bytes : Forall is_byte (mainMemory m);
  mo_tlb : TLB.tlb_wf (tlbManager m);
  mo_frames v f o : TLB.is_page v -> TLB.find (tlbManager m) v = Some (f, o) -> 0 <= f < NumPhysPages
}.
Definition table_ok w (table : list TranslationEntry) : Prop :=
  pageTables w !! pageTable (machine w) = Some table /\ 0 <= pageTableSize (machine w) <= Z.of_nat (length table).

Definition misaligned (virtAddr size : Z) : bool :=
  ((size =? 4) && negb (Z.land virtAddr 3 =? 0)) || ((size =? 2) && negb (Z.land virtAddr 1 =? 0)).
Definition offset (virtAddr : Z) : Z := u32 virtAddr mod PageSize.

(** The page table entry of an address in the table's range. *)
Definition table_entry w (table : list TranslationEntry) (virtAddr : Z) : option TranslationEntry :=
  if pageTableSize (machine w) <=? TLB.page virtAddr then None else table !! Z.to_nat (TLB.page virtAddr).

(** What the page table alone says of a reference. *)
Definition walk w table (virtAddr : Z) (writing : bool) : Z + Z :=
  match table_entry w table virtAddr with
  | None => inl AddressErrorException
  | Some e =>
      if negb (valid e) then inl PageFaultException
      else if readOnly e && writing then inl ReadOnlyException
      else if NumPhysPages <=? u32 (physicalPage e) then inl BusErrorException
      else inr (u32 (physicalPage e))
  end.

(** The translation: alignment first, then the buffer, and only then the page table. *)
Definition translation w table (virtAddr size : Z) (writing : bool) : Z + Z :=
  if misaligned virtAddr size then inl AddressErrorException
  else match TLB.find (tlbManager (machine w)) (TLB.page virtAddr) with
  | Some (f, _) => inr (f * PageSize + offset virtAddr)
  | None => match walk w table virtAddr writing with inl e => inl e | inr f => inr (f * PageSize + offset virtAddr) end
  end.

(** The frame a reference adds to the buffer. *)
Definition filled w table (virtAddr size : Z) (writing : bool) : option Z :=
  if misaligned virtAddr size then None
  else match TLB.find (tlbManager (machine w)) (TLB.page virtAddr), walk w table virtAddr writing with
  | None, inr f => Some f
  | _, _ => None
  end.

Definition set_dirty (e : TranslationEntry) : TranslationEntry :=
  MkEntry (virtualPage e) (physicalPage e) (valid e) (readOnly e) (use e) true.
Definition touched (table : list TranslationEntry) (vpn : Z) : list TranslationEntry := alter set_dirty (Z.to_nat vpn) table.

Lemma alter_insert_eq {A} (f : A -> A) (l : list A) (i : nat) x : l !! i = Some x -> alter f i l = <[i := f x]> l.
Proof. intros E. rewrite list_insert_alter. apply list_alter_ext; [|done]. intros y Hy. congruence. Qed.

Lemma offset_range va : 0 <= offset va < PageSize.
Proof. apply Z.mod_pos_bound. unfold PageSize. lia. Qed.

Lemma land3 x : Z.land x 3 = x mod 4.
Proof. change 3 with (Z.ones 2). by rewrite Z.land_ones by lia. Qed.

Lemma aligned_fits va size f : Mips.access_size size -> misaligned va size = false -> 0 <= f < NumPhysPages ->
  0 <= f * PageSize + offset va /\ f * PageSize + offset va + size <= PhysicalMemorySize.
Proof.
  intros Hs Ha Hf. pose proof (offset_range va). unfold offset, NumPhysPages, PhysicalMemorySize, NumPhysPages, PageSize in *.
  unfold misaligned in Ha. rewrite land3, Mips.land_1 in Ha. unfold u32 in *.
  destruct Hs as [->|[->| ->]]; cbn [Z.eqb Pos.eqb andb orb negb] in Ha; [lia| |];
    rewrite ?orb_false_r in Ha; apply negb_false_iff, Z.eqb_eq in Ha; Z.div_mod_to_equations; lia.
Qed.

Lemma frame_addr f va : 0 <= f < NumPhysPages -> i32 (f * PageSize + offset va) = f * PageSize + offset va.
Proof. intros. pose proof (offset_range va). unfold NumPhysPages, PageSize in *. apply i32_id. unfold is_i32. lia. Qed.

Lemma walk_frame w table va writing f : walk w table va writing = inr f ->
  0 <= f < NumPhysPages /\ exists e, table_entry w table va = Some e /\ valid e = true /\ readOnly e && writing = false /\ f = u32 (physicalPage e).
Proof.
  unfold walk. destruct (table_entry w table va) as [e|]; [|done]. destruct (valid e) eqn:Hv; [|done]. cbn [negb].
  destruct (readOnly e && writing) eqn:Hr; [done|]. destruct (Z.leb_spec NumPhysPages (u32 (physicalPage e))); [done|].
  intros [= <-]. pose proof (u32_range (physicalPage e)). unfold is_u32 in *. split; [lia|]. by exists e.
Qed.

(** What a reference leaves behind: the buffer still caches pages it cached before, perhaps
    without one, and the page it filled; the dirty bit is set for a page it filled for
    writing; nothing else changes. *)
Definition after w table va size writing w' : Prop :=
  exists t p, w' = set_tables p (set_tlb t w) /\
    mem_ok (machine w') /\
    match filled w table va size writing with
    | None => p = pageTables w /\ forall v, TLB.find t v = TLB.find (tlbManager (machine w)) v
    | Some f =>
        p = (if writing then <[pageTable (machine w) := touched table (TLB.page va)]> (pageTables w) else pageTables w) /\
        TLB.find t (TLB.page va) = Some (f, currentPid w) /\
        forall v, TLB.is_page v -> v <> TLB.page va ->
          TLB.find t v = TLB.find (tlbManager (machine w)) v \/ TLB.find t v = None
    end.

Lemma mem_ok_tlb (m : Machine) t : mem_ok m -> TLB.tlb_wf t ->
  (forall v f o, TLB.is_page v -> TLB.find t v = Some (f, o) -> 0 <= f < NumPhysPages) ->
  mem_ok (MkMachine (registers m) (mainMemory m) t (pageTable m) (pageTableSize m)).
Proof. intros [] Ht Hf. by constructor. Qed.

Lemma Translate_spec w table va size writing : mem_ok (machine w) -> table_ok w table -> Mips.access_size size ->
  exists w', Translate va size writing w = Ok (translation w table va size writing, w') /\ after w table va size writing w'.
Proof.
  intros Hm [Ht Hsz] Hs. unfold Translate, translation, after, filled. fold (TLB.page va) (offset va) (misaligned va size).
  destruct (misaligned va size) eqn:Hal.
  { exists w. split; [done|]. exists (tlbManager (machine w)), (pageTables w). split_and!; try done. by destruct w as [[] ? ? ? ?]. }
  unfold get_state. unfold mbind at 1, M_bind at 1.
  destruct (TLB.translate_spec _ va (mo_tlb _ Hm)) as (t & -> & Htw & Hf). rewrite bind_lift_Ok. cbv beta iota.
  rewrite (bind_M_Ok (modify (set_tlb t)) _ w (set_tlb t w) tt) by done. fold (offset va).
  pose proof (TLB.page_range va) as Hpg. pose proof (offset_range va) as Hoff.
  assert (forall v f o, TLB.is_page v -> TLB.find t v = Some (f, o) -> 0 <= f < NumPhysPages) as Hfr.
  { intros v f o Hv E. rewrite Hf in E. by eapply (mo_frames _ Hm). }
  assert (mem_ok (machine (set_tlb t w))) as Hm' by (by apply mem_ok_tlb).
  assert (set_tlb t w = set_tables (pageTables w) (set_tlb t w)) as Hsame by done.
  destruct (TLB.find (tlbManager (machine w)) (TLB.page va)) as [[f o]|] eqn:Ec.
  { pose proof (mo_frames _ Hm _ _ _ Hpg Ec) as Hfo. rewrite frame_addr by done.
    destruct (aligned_fits va size f Hs Hal Hfo). rewrite (proj2 (Z.leb_le _ _)) by lia.
    eexists. split; [done|]. exists t, (pageTables w). split_and!; try done. }
  cbn [Z.leb Z.compare]. unfold walk, table_entry.
  destruct (Z.leb_spec (pageTableSize (machine w)) (TLB.page va)) as [Hle|Hlt].
  { eexists. split; [done|]. exists t, (pageTables w). split_and!; done. }
  rewrite Ht. unfold deref at 1. rewrite bind_lift_Ok.
  destruct (aget_in table (TLB.page va)) as (e & He & ->). { unfold TLB.is_page, is_u32 in Hpg. lia. }
  rewrite bind_lift_Ok, He. destruct (valid e) eqn:Hv; cbn [negb].
  2: { eexists. split; [done|]. exists t, (pageTables w). split_and!; done. }
  destruct (readOnly e && writing) eqn:Hro.
  { eexists. split; [done|]. exists t, (pageTables w). split_and!; done. }
  destruct (Z.leb_spec NumPhysPages (u32 (physicalPage e))) as [Hbig|Hfo].
  { eexists. split; [done|]. exists t, (pageTables w). split_and!; done. }
  set (f := u32 (physicalPage e)) in *. assert (0 <= f < NumPhysPages) as Hfo' by (pose proof (u32_range (physicalPage e)); unfold is_u32 in *; lia).
  destruct (TLB.update_spec t va f (currentPid w) Htw) as (t' & row & k & -> & Htw' & _ & _ & Hf'); [by rewrite Hf|].
  rewrite bind_lift_Ok. rewrite (bind_M_Ok (modify (set_tlb t')) _ _ (set_tlb t' w) tt) by done.
  assert (mem_ok (machine (set_tlb t' w))) as Hm2.
  { apply mem_ok_tlb; [done|done|]. intros v g o Hv0 E. rewrite Hf' in E by done. case_decide; [by injection E as <- _|].
    destruct ((TLB.TLBI v =? _) && _); [done|]. exact (Hfr _ _ _ Hv0 E). }
  pose proof (aligned_fits va size f Hs Hal Hfo') as [Hlo Hhi]. rewrite frame_addr by done.
  assert (TLB.find t' (TLB.page va) = Some (f, currentPid w)) as Hnew by (by rewrite Hf', decide_True).
  assert (forall v, TLB.is_page v -> v <> TLB.page va -> TLB.find t' v = TLB.find (tlbManager (machine w)) v \/ TLB.find t' v = None) as Hold.
  { intros v Hv0 Hne. rewrite Hf', decide_False by done. destruct ((TLB.TLBI v =? _) && _); [by right|]. left. apply Hf. }
  assert (ASSERT ((0 <=? f * PageSize + offset va) && (f * PageSize + offset va + size <=? PhysicalMemorySize)) = Ok tt) as Has.
  { apply ASSERT_true. apply andb_true_iff. split; apply Z.leb_le; lia. }
  destruct writing.
  - rewrite aset_in by (unfold TLB.is_page, is_u32 in Hpg; lia).
    erewrite (bind_M_Ok (table ← lift (Ok _); modify _)) by reflexivity. rewrite Has, bind_lift_Ok.
    eexists. split; [done|]. exists t', (<[pageTable (machine w) := touched table (TLB.page va)]> (pageTables w)). split.
    + unfold touched. rewrite (alter_insert_eq _ _ _ _ He). unfold set_dirty. by rewrite Hv.
    + split_and!; done.
  - rewrite bind_ret_Ok, Has, bind_lift_Ok. eexists. split; [done|]. exists t', (pageTables w). split_and!; done.
Qed.
End Translation.
(** * Memory *)

(** What a read of [size] bytes gives back of an int: a signed char, an unsigned short, the
    int. *)
Definition clip (size v : Z) : Z :=
  if size =? 1 then (if u32 v mod 2 ^ 8 <? 128 then u32 v mod 2 ^ 8 else u32 v mod 2 ^ 8 - 256)
  else if size =? 2 then u32 v mod 2 ^ 16 else i32 v.

Lemma aget_byte mem p : Forall is_byte mem -> 0 <= p < Z.of_nat (length mem) -> exists b, aget mem p = Ok b /\ is_byte b.
Proof.
  intros Hb Hp. destruct (aget_in mem p Hp) as (b & Hl & Hg). exists b. split; [done|]. by eapply Forall_lookup_1.
Qed.

Lemma load_ok mem p size : Mips.access_size size -> Forall is_byte mem -> 0 <= p -> p + size <= Z.of_nat (length mem) ->
  exists v, load mem p size = Ok v /\ is_i32 v.
Proof.
  intros Hs Hb Hp He. unfold load. destruct Hs as [->|[->| ->]]; cbn [Z.eqb Pos.eqb].
  - destruct (aget_byte mem p Hb) as (b & -> & Hx); [lia|]. eexists. split; [done|]. unfold is_byte, is_i32 in *. case_match; lia.
  - destruct (aget_byte mem p Hb) as (b & -> & Hx); [lia|]. destruct (aget_byte mem (p + 1) Hb) as (c & -> & Hy); [lia|].
    eexists. split; [done|]. unfold is_byte, is_i32 in *. lia.
  - destruct (aget_byte mem p Hb) as (b & -> & _); [lia|]. destruct (aget_byte mem (p + 1) Hb) as (c & -> & _); [lia|].
    destruct (aget_byte mem (p + 2) Hb) as (d & -> & _); [lia|]. destruct (aget_byte mem (p + 3) Hb) as (e & -> & _); [lia|].
    eexists. split; [done|]. apply i32_range.
Qed.

(** One byte written. *)
Lemma aset_byte mem p x : Forall is_byte mem -> is_byte x -> 0 <= p < Z.of_nat (length mem) ->
  exists mem', aset mem p x = Ok mem' /\ length mem' = length mem /\ Forall is_byte mem' /\
    forall q, 0 <= q -> aget mem' q = if decide (q = p) then Ok x else aget mem q.
Proof.
  intros Hb Hx Hp. rewrite aset_in by done. eexists. split; [done|]. split; [by rewrite length_insert|].
  split; [by apply Forall_insert|]. intros q Hq. unfold aget. rewrite !(decide_True (P := 0 <= q)) by done. destruct (decide (q = p)) as [E|E].
  - subst q. by rewrite list_lookup_insert_eq by lia.
  - by rewrite list_lookup_insert_ne by lia.
Qed.

Lemma mod_byte x : is_byte (x mod 2 ^ 8).
Proof. unfold is_byte. apply Z.mod_pos_bound. lia. Qed.

Ltac write_byte p H :=
  match goal with |- context [aset ?mem ?q ?x] =>
    let m := fresh "mem" in let L := fresh "L" in let B := fresh "B" in
    destruct (aset_byte mem q x) as (m & -> & L & B & H); [assumption|apply mod_byte|lia|]; cbn [mbind res_bind]
  end.

Ltac decide_eqs :=
  repeat match goal with |- context [decide (?a = ?b)] =>
    first [rewrite (decide_True (P := a = b)) by lia | rewrite (decide_False (P := a = b)) by lia] end.

Lemma store_ok mem p size v : Mips.access_size size -> Forall is_byte mem -> 0 <= p -> p + size <= Z.of_nat (length mem) ->
  exists mem', store mem p size v = Ok mem' /\ length mem' = length mem /\ Forall is_byte mem' /\
    load mem' p size = Ok (clip size v) /\
    forall q, 0 <= q -> ~ (p <= q < p + size) -> aget mem' q = aget mem q.
Proof.
  intros Hs Hb Hp He. unfold store, load, clip. set (w := u32 v). pose proof (u32_range v) as Hw. fold w in Hw. unfold is_u32 in Hw.
  destruct Hs as [->|[->| ->]]; cbn [Z.eqb Pos.eqb].
  - write_byte p H0. exists mem0. split_and!; try done.
    + rewrite H0 by lia. decide_eqs. done.
    + intros q Hq Hn. rewrite H0 by lia. decide_eqs. done.
  - write_byte p H0. write_byte p H1. exists mem1. split_and!; [done|congruence|done| |].
    + rewrite !H1, !H0 by lia. decide_eqs. cbn [mbind res_bind].
      f_equal. Z.div_mod_to_equations. lia.
    + intros q Hq Hn. rewrite H1, H0 by lia. decide_eqs. done.
  - write_byte p H0. write_byte p H1. write_byte p H2. write_byte p H3. exists mem3. split_and!; [done|congruence|done| |].
    + rewrite !H3, !H2, !H1, !H0 by lia. decide_eqs.
      cbn [mbind res_bind]. f_equal. change (2 ^ 8) with 256. rewrite <- (i32_u32 v), <- (word_of_int_to_bytes v). done.
    + intros q Hq Hn. rewrite H3, H2, H1, H0 by lia. decide_eqs. done.
Qed.
Section Bus.
Context {K : Type}.
Implicit Types w : World K.

Lemma after_table w table va size writing w' : table_ok w table -> after w table va size writing w' ->
  exists table', table_ok w' table' /\
    table' = match filled w table va size writing with Some _ => if writing then touched table (TLB.page va) else table | None => table end.
Proof.
  intros [Ht Hs] (t & p & -> & _ & H). destruct (filled w table va size writing) as [f|].
  - destruct H as (-> & _). eexists. split; [|reflexivity]. destruct writing; split; try done; cbn.
    + by rewrite lookup_insert_eq.
    + unfold touched. by rewrite length_alter.
  - destruct H as (-> & _). eexists. split; [|reflexivity]. done.
Qed.

(** An address that translated does so again, from the buffer. *)
Lemma after_cached w table va size writing w' p : translation w table va size writing = inr p ->
  after w table va size writing w' -> forall table' writing', translation w' table' va size writing' = inr p.
Proof.
  intros Htr (t & q & -> & _ & H) table' writing'. unfold translation, filled in *.
  destruct (misaligned va size); [done|]. cbn [machine set_tables set_tlb set_machine tlbManager].
  destruct (TLB.find (tlbManager (machine w)) (TLB.page va)) as [[f o]|] eqn:E.
  - destruct H as [_ H]. by rewrite H, E.
  - destruct (walk w table va writing) as [e|f]; [done|]. destruct H as (_ & H & _). by rewrite H.
Qed.

Lemma translation_bounds w table va size writing p : mem_ok (machine w) -> Mips.access_size size ->
  translation w table va size writing = inr p -> 0 <= p /\ p + size <= PhysicalMemorySize.
Proof.
  intros Hm Hs. unfold translation. destruct (misaligned va size) eqn:Ha; [done|].
  destruct (TLB.find _ _) as [[f o]|] eqn:E.
  - intros [= <-]. apply aligned_fits; try done. eapply mo_frames; [done|apply TLB.page_range|done].
  - destruct (walk w table va writing) as [e|f] eqn:Ew; [done|]. intros [= <-].
    destruct (walk_frame _ _ _ _ _ Ew) as [Hf _]. by apply aligned_fits.
Qed.

Lemma mem_ok_memory w mem : mem_ok (machine w) -> length mem = length (mainMemory (machine w)) -> Forall is_byte mem ->
  mem_ok (machine (set_memory mem w)).
Proof. intros [] Hl Hb. constructor; cbn; try done. by rewrite Hl. Qed.

Lemma reference_mapped EH w table va size writing p : mem_ok (machine w) -> table_ok w table -> Mips.access_size size ->
  translation w table va size writing = inr p ->
  exists w', reference EH va size writing w = Ok (Some p, w') /\ after w table va size writing w'.
Proof.
  intros Hm Ht Hs Htr. destruct (Translate_spec w table va size writing Hm Ht Hs) as (w' & E & Ha). rewrite Htr in E.
  exists w'. split; [|done]. unfold reference. by rewrite (bind_M_Ok _ _ _ _ _ E).
Qed.

Lemma WriteMem_mapped EH w table va size v p : mem_ok (machine w) -> table_ok w table -> Mips.access_size size ->
  translation w table va size true = inr p ->
  exists w1 mem, after w table va size true w1 /\ store (mainMemory (machine w)) p size v = Ok mem /\
    WriteMem EH va size v w = Ok (true, set_memory mem w1) /\ mem_ok (machine (set_memory mem w1)).
Proof.
  intros Hm Ht Hs Htr. destruct (reference_mapped EH _ _ _ _ _ _ Hm Ht Hs Htr) as (w1 & E & Ha).
  destruct (translation_bounds _ _ _ _ _ _ Hm Hs Htr) as [Hp He].
  pose proof Ha as (t & q & Hw1 & Hm1 & _).
  assert (mainMemory (machine w1) = mainMemory (machine w)) as Hmem by (by rewrite Hw1).
  destruct (store_ok (mainMemory (machine w)) p size v Hs (mo_bytes _ Hm) Hp) as (mem & Es & Hl & Hb & _).
  { rewrite (mo_len _ Hm). done. }
  exists w1, mem. split; [done|]. split; [done|]. split; [|apply mem_ok_memory; [done|by rewrite Hmem|done]].
  unfold WriteMem. rewrite (bind_M_Ok _ _ _ _ _ E). unfold get_state. unfold mbind at 1, M_bind at 1. rewrite Hmem, Es. done.
Qed.

Lemma ReadMem_mapped EH w table va size p : mem_ok (machine w) -> table_ok w table -> Mips.access_size size ->
  translation w table va size false = inr p ->
  exists w1 v, after w table va size false w1 /\ load (mainMemory (machine w)) p size = Ok v /\ is_i32 v /\
    ReadMem EH va size w = Ok (Some v, w1).
Proof.
  intros Hm Ht Hs Htr. destruct (reference_mapped EH _ _ _ _ _ _ Hm Ht Hs Htr) as (w1 & E & Ha).
  destruct (translation_bounds _ _ _ _ _ _ Hm Hs Htr) as [Hp He].
  pose proof Ha as (t & q & Hw1 & Hm1 & _).
  assert (mainMemory (machine w1) = mainMemory (machine w)) as Hmem by (by rewrite Hw1).
  destruct (load_ok (mainMemory (machine w)) p size Hs (mo_bytes _ Hm) Hp) as (v & El & Hv).
  { rewrite (mo_len _ Hm). done. }
  exists w1, v. split_and!; try done. unfold ReadMem. rewrite (bind_M_Ok _ _ _ _ _ E). unfold get_state. unfold mbind at 1, M_bind at 1.
  rewrite Hmem, El. done.
Qed.

Lemma after_mem_ok w table va size writing w' : after w table va size writing w' -> mem_ok (machine w').
Proof. by intros (t & p & _ & H & _). Qed.

Lemma write_read EH w table va size v p : mem_ok (machine w) -> table_ok w table -> Mips.access_size size ->
  translation w table va size true = inr p ->
  exists w1 w2, WriteMem EH va size v w = Ok (true, w1) /\ ReadMem EH va size w1 = Ok (Some (clip size v), w2) /\
    forall q, 0 <= q -> ~ (p <= q < p + size) -> aget (mainMemory (machine w2)) q = aget (mainMemory (machine w)) q.
Proof.
  intros Hm Ht Hs Htr. destruct (WriteMem_mapped EH w table va size v p Hm Ht Hs Htr) as (w1 & mem & Ha & Es & E1 & Hm1).
  destruct (translation_bounds _ _ _ _ _ _ Hm Hs Htr) as [Hp He].
  destruct (store_ok (mainMemory (machine w)) p size v Hs (mo_bytes _ Hm) Hp) as (mem' & Es' & _ & _ & Hld & Hout).
  { rewrite (mo_len _ Hm). done. }
  rewrite Es in Es'. injection Es' as <-. destruct (after_table _ _ _ _ _ _ Ht Ha) as (table' & Ht' & _).
  pose proof (after_cached _ _ _ _ _ _ _ Htr Ha table' false) as Htr'.
  destruct (ReadMem_mapped EH (set_memory mem w1) table' va size p Hm1 Ht' Hs Htr') as (w2 & x & Ha2 & El & _ & E2).
  cbn [machine set_memory set_machine mainMemory] in El. rewrite Hld in El. injection El as <-.
  exists (set_memory mem w1), w2. split; [done|]. split; [done|]. intros q Hq Hn.
  destruct Ha2 as (t & r & -> & _). cbn. by apply Hout.
Qed.
End Bus.
(** * User mode under a kernel

    What the machine needs of the kernel's exception handler: it keeps the invariant
    [KInv] of the kernel's part of the world, which the machine's own steps keep too, it
    ends as the kernel may end, and a page fault it returns from has been repaired. *)
Definition inv {K} (KInv : World K -> Prop) (w : World K) : Prop :=
  mem_ok (machine w) /\ (exists table, table_ok w table) /\ KInv w.

Record kernel_ok {K} (EH : Z -> M (World K) unit) (KInv : World K -> Prop) (may_fail may_exit : Prop) : Prop := {
  ko_regs l w : KInv w -> KInv (set_registers l w);
  ko_mem b w : KInv w -> KInv (set_memory b w);
  ko_tlb t w : KInv w -> KInv (set_tlb t w);
  ko_status s w : KInv w -> KInv (setStatus s w);
  ko_dirty w table v : KInv w -> table_ok w table ->
    KInv (set_tables (<[pageTable (machine w) := touched table v]> (pageTables w)) w);
  ko_handler which w : which <> PageFaultException -> Mips.ready (inv KInv) w ->
    Mips.ends (inv KInv) may_fail may_exit (EH which w) (fun _ => True);
  ko_fault w va table e : Mips.ready (inv KInv) w -> registers (machine w) !! Z.to_nat BadVAddrReg = Some va ->
    table_ok w table -> table_entry w table va = Some e -> valid e = false ->
    Mips.ends (inv KInv) may_fail may_exit (EH PageFaultException w) (fun _ => True) /\
    forall w' table' writing, EH PageFaultException w = Ok (tt, w') -> table_ok w' table' ->
      exists f, walk w' table' va writing = inr f
}.

Lemma loaded_regs_ok l : Mips.regs_ok l ->
  Mips.regs_ok (Mips.loaded_regs l 0 0) /\ Mips.loaded_regs l 0 0 !! Z.to_nat BadVAddrReg = l !! Z.to_nat BadVAddrReg.
Proof.
  intros Hl. pose proof Hl as (Hlen & Hi & Hr). unfold Mips.loaded_regs.
  assert (is_i32 (default 0 (l !! 38%nat))) as Hd.
  { destruct (l !! 38%nat) as [x|] eqn:E; [|done]. apply (Forall_lookup_1 _ _ _ _ Hi E). }
  set (r := default 0 (l !! 37%nat)) in *. split.
  - apply (Mips.regs_ok_set _ 0); [|lia|done|lia]. apply (Mips.regs_ok_set _ 38); [|lia|done|lia].
    apply (Mips.regs_ok_set _ 37); [|lia|done|lia]. apply Mips.regs_ok_set; [done|lia|done|lia].
  - unfold BadVAddrReg. change (Z.to_nat 39) with 39%nat. rewrite !list_lookup_insert_ne by lia. done.
Qed.

Section Safety.
Context {K : Type} (EH : Z -> M (World K) unit) (KInv : World K -> Prop) (may_fail may_exit : Prop).
Context (HK : kernel_ok EH KInv may_fail may_exit).
#[local] Notation safe := (Mips.safe (inv KInv) may_fail may_exit).
#[local] Notation ready := (Mips.ready (inv KInv)).
#[local] Notation ends := (Mips.ends (inv KInv) may_fail may_exit).

Lemma mem_ok_registers (m : Machine) l : mem_ok m ->
  mem_ok (MkMachine l (mainMemory m) (tlbManager m) (pageTable m) (pageTableSize m)).
Proof. by intros []. Qed.

Lemma inv_regs l (w : World K) : inv KInv w -> inv KInv (set_registers l w).
Proof.
  intros (Hm & (table & Ht) & Hk). split; [by apply mem_ok_registers|]. split; [by exists table|]. by apply (ko_regs _ _ _ _ HK).
Qed.

Lemma ready_status s (w : World K) : ready w -> ready (setStatus s w).
Proof.
  intros (Hr & Hm & (table & Ht) & Hk). split; [done|]. split; [done|]. split; [by exists table|]. by apply (ko_status _ _ _ _ HK).
Qed.

Lemma ready_after (w : World K) table va size writing w' : ready w -> table_ok w table -> after w table va size writing w' ->
  ready w' /\ (exists table', table_ok w' table').
Proof.
  intros (Hr & Hm & _ & Hk) Ht Ha. destruct (after_table _ _ _ _ _ _ Ht Ha) as (table' & Ht' & _).
  split; [|by exists table']. pose proof Ha as (t & p & -> & Hm' & H). split; [done|]. split; [done|]. split; [by exists table'|].
  pose proof (ko_tlb _ _ _ _ HK t _ Hk) as Hkt. destruct (filled w table va size writing) as [f|]; destruct H as [-> _].
  - destruct writing; [|done]. exact (ko_dirty _ _ _ _ HK (set_tlb t w) table (TLB.page va) Hkt Ht).
  - done.
Qed.

(** RaiseException up to the handler, and the handler's return. *)
Definition trapped (w : World K) (addr : Z) (w1 : World K) : Prop :=
  exists l, w1 = setStatus SystemMode (set_registers l w) /\ Mips.regs_ok l /\ l !! Z.to_nat BadVAddrReg = Some addr.

Lemma RaiseException_spec which addr (w : World K) : ready w -> is_i32 addr ->
  exists w1, trapped w addr w1 /\ RaiseException EH which addr w = (_ ← EH which; modify (setStatus UserMode)) w1.
Proof.
  intros [Hr Hi] Ha. unfold RaiseException. pose proof Hr as (Hl & _ & Hload).
  set (l1 := <[Z.to_nat BadVAddrReg := addr]> (registers (machine w))).
  assert (Mips.regs_ok l1) as Hr1 by (apply Mips.regs_ok_set; [done|unfold BadVAddrReg; lia|done|by unfold BadVAddrReg]).
  rewrite (bind_M_Ok (Mips.set_reg BadVAddrReg addr) _ w (set_registers l1 w) tt).
  2: { apply (Mips.set_reg_ok (R := world_registers)). unfold BadVAddrReg. cbn in *. lia. }
  destruct (loaded_regs_ok l1 Hr1) as [Hr2 Hb].
  rewrite (bind_M_Ok (Mips.DelayedLoad 0 0) _ _ (set_registers (Mips.loaded_regs l1 0 0) w) tt).
  2: { exact (Mips.DelayedLoad_ok (R := world_registers) w l1 0 0 (proj1 Hr1) (proj2 (proj2 Hr1))). }
  exists (setStatus SystemMode (set_registers (Mips.loaded_regs l1 0 0) w)). split; [|reflexivity].
  eexists. split; [reflexivity|]. split; [done|]. rewrite Hb. unfold l1, BadVAddrReg. rewrite list_lookup_insert_eq; [done|].
  cbn in Hl |- *. lia.
Qed.

Lemma ready_trapped w addr w1 : ready w -> trapped w addr w1 -> ready w1.
Proof.
  intros [_ Hi] (l & -> & Hl & _). apply ready_status. split; [done|]. by apply inv_regs.
Qed.

Lemma safe_return which w1 : ends (EH which w1) (fun _ => True) ->
  ends ((_ ← EH which; modify (setStatus UserMode)) w1) (fun _ => True).
Proof.
  intros He. unfold mbind, M_bind.
  destruct (EH which w1) as [[[] w2]| | | |]; try done. split; [|done]. apply ready_status. apply He.
Qed.

Lemma bus_raise which addr : which <> PageFaultException -> is_i32 addr -> safe (RaiseException EH which addr) (fun _ => True).
Proof.
  intros Hne Ha w Hw. destruct (RaiseException_spec which addr w Hw Ha) as (w1 & Ht & ->).
  apply safe_return, (ko_handler _ _ _ _ HK); [done|]. by eapply ready_trapped.
Qed.

Lemma translation_fault (w : World K) table va size writing : translation w table va size writing = inl PageFaultException ->
  exists e, filled w table va size writing = None /\ table_entry w table va = Some e /\ valid e = false.
Proof.
  unfold translation, filled. destruct (misaligned va size); [done|].
  destruct (TLB.find (tlbManager (machine w)) (TLB.page va)) as [[f o]|]; [done|].
  unfold walk. destruct (table_entry w table va) as [e|]; [|done]. destruct (valid e) eqn:Hv; cbn [negb].
  - destruct (readOnly e && writing); [done|]. by destruct (NumPhysPages <=? u32 (physicalPage e)).
  - intros _. by exists e.
Qed.

Lemma translation_aligned (w : World K) table va size writing :
  translation w table va size writing = inl PageFaultException -> misaligned va size = false.
Proof. unfold translation. by destruct (misaligned va size). Qed.

Lemma walk_translation (w : World K) table va size writing f : misaligned va size = false -> walk w table va writing = inr f ->
  exists p, translation w table va size writing = inr p.
Proof. intros Ha Hf. unfold translation. rewrite Ha, Hf. destruct (TLB.find _ _) as [[]|]; by eexists. Qed.

(** The reference a bus access makes: when it yields an address, that is in memory. *)
Lemma safe_reference addr size writing : is_i32 addr -> Mips.access_size size ->
  safe (reference EH addr size writing) (fun o => match o with Some p => 0 <= p /\ p + size <= PhysicalMemorySize | None => True end).
Proof.
  intros Ha Hs w Hw. pose proof Hw as (_ & Hm & (table & Ht) & _). unfold reference.
  destruct (Translate_spec w table addr size writing Hm Ht Hs) as (w1 & E & Haft). rewrite (bind_M_Ok _ _ _ _ _ E).
  destruct (ready_after w table addr size writing w1 Hw Ht Haft) as [Hw1 _].
  destruct (translation w table addr size writing) as [e|p] eqn:Etr.
  2: { split; [done|]. by eapply translation_bounds. }
  destruct (RaiseException_spec e addr w1 Hw1 Ha) as (w2 & Htrap & Er). pose proof (ready_trapped _ _ _ Hw1 Htrap) as Hw2.
  destruct (decide (e = PageFaultException)) as [->|Hne].
  2: { pose proof (bus_raise e addr Hne Ha w1 Hw1) as Hend.
    destruct (RaiseException EH e addr w1) as [[[] w3]| | | |] eqn:E3; try (unfold mbind, M_bind; rewrite E3; exact Hend).
    rewrite (bind_M_Ok _ _ _ _ _ E3). rewrite (proj2 (Z.eqb_neq _ _) Hne). split; [apply Hend|done]. }
  destruct (translation_fault w table addr size writing Etr) as (entry & Hef & Ete & Hv).
  pose proof Htrap as (l & -> & Hl & Hbad). pose proof Haft as (t & pts & -> & _ & Hpt). rewrite Hef in Hpt. destruct Hpt as [-> _].
  destruct (ko_fault _ _ _ _ HK _ addr table entry Hw2 Hbad Ht Ete Hv) as [Hend Hfix].
  pose proof (safe_return PageFaultException _ Hend) as Hret. rewrite <- Er in Hret.
  match type of Hret with ends (RaiseException _ _ _ ?x) _ => set (w1 := x) in * end.
  destruct (RaiseException EH PageFaultException addr w1) as [[[] w3]| | | |] eqn:E3;
    try (unfold mbind, M_bind; rewrite E3; exact Hret).
  rewrite (bind_M_Ok _ _ _ _ _ E3). destruct Hret as [Hw3 _]. rewrite Z.eqb_refl.
  pose proof Hw3 as (_ & Hm3 & (table3 & Ht3) & _).
  destruct (Translate_spec w3 table3 addr size writing Hm3 Ht3 Hs) as (w4 & E4 & Haft4). rewrite (bind_M_Ok _ _ _ _ _ E4).
  destruct (ready_after w3 table3 addr size writing w4 Hw3 Ht3 Haft4) as [Hw4 _].
  assert (exists p, translation w3 table3 addr size writing = inr p) as [p Hp].
  2: { rewrite Hp. split; [done|]. by eapply translation_bounds. }
  unfold mbind, M_bind in Er.
  match type of Er with _ = match EH _ ?x with _ => _ end => destruct (EH PageFaultException x) as [[[] w2']| | | |] eqn:Eh; try done end.
  change (Ok (tt, w3) = Ok (tt, setStatus UserMode w2')) in Er. injection Er as ->.
  destruct (Hfix w2' table3 writing eq_refl Ht3) as [f Hf]. by apply (walk_translation _ _ _ _ _ f (translation_aligned _ _ _ _ _ Etr)).
Qed.

Lemma bus_read addr size : is_i32 addr -> Mips.access_size size ->
  safe (ReadMem EH addr size) (fun o => match o with Some v => is_i32 v | None => True end).
Proof.
  intros Ha Hs. unfold ReadMem. eapply Mips.safe_bind; [by apply safe_reference|]. intros [p|] Hp; [|by apply Mips.safe_ret].
  intros w Hw. cbv beta in Hp. pose proof Hw as (_ & Hm & _).
  destruct (load_ok (mainMemory (machine w)) p size Hs (mo_bytes _ Hm)) as (v & El & Hv); [apply Hp|rewrite (mo_len _ Hm); apply Hp|].
  unfold get_state. unfold mbind at 1, M_bind at 1. rewrite El. done.
Qed.

Lemma bus_write addr size v : is_i32 addr -> Mips.access_size size -> safe (WriteMem EH addr size v) (fun _ => True).
Proof.
  intros Ha Hs. unfold WriteMem. eapply Mips.safe_bind; [by apply safe_reference|]. intros [p|] Hp; [|by apply Mips.safe_ret].
  intros w Hw. cbv beta in Hp. pose proof Hw as (Hr & Hm & Ht & Hk).
  destruct (store_ok (mainMemory (machine w)) p size v Hs (mo_bytes _ Hm)) as (mem & Es & Hl & Hb & _); [apply Hp|rewrite (mo_len _ Hm); apply Hp|].
  unfold get_state. unfold mbind at 1, M_bind at 1. rewrite Es. split; [|done]. split; [done|].
  split; [by apply mem_ok_memory|]. split; [exact Ht|by apply (ko_mem _ _ _ _ HK)].
Qed.
End Safety.
(** * Properties *)

Lemma user_instruction {K} (EH : Z -> M (World K) unit) KInv may_fail may_exit (w : World K) :
  kernel_ok EH KInv may_fail may_exit -> Mips.ready (inv KInv) w ->
  Mips.ends (inv KInv) may_fail may_exit (Mips.OneInstruction (CPU := machine_cpu EH) w) (fun _ => True) \/
  (Mips.OneInstruction (CPU := machine_cpu EH) w = Undefined /\
   exists pc raw w1 i, ReadMem EH pc 4 w = Ok (Some raw, w1) /\ Mips.Decode (u32 raw) = Ok i /\
     Mips.div_faults (CPU := machine_cpu EH) i w1).
Proof.
  intros HK Hw.
  destruct (Mips.one_instruction_cases (CPU := machine_cpu EH) (inv KInv)) with (may_fail := may_fail) (may_exit := may_exit) (st := w)
    as [H|(Hu & pc & raw & w1 & i & _ & H)].
  - intros l st. by apply (inv_regs EH KInv may_fail may_exit HK).
  - intros. by apply bus_read.
  - intros. by apply bus_write.
  - intros. by apply bus_raise.
  - done.
  - by left.
  - right. split; [done|]. by exists pc, raw, w1, i.
Qed.

(** C11. User code cannot break the machine: under any kernel whose handler keeps the
    invariant and repairs the page faults it returns from, one instruction from a good
    state ends in a good state, or is stopped by the kernel in a way it may; no register,
    memory byte or table entry is accessed out of range, the ASSERT of Translate holds, and
    the address used after a page fault was set.  The one exception is DIV of INT_MIN by
    -1. *)
Theorem user_instruction_safe {K} (EH : Z -> M (World K) unit) KInv may_fail may_exit (w : World K) :
  kernel_ok EH KInv may_fail may_exit -> Mips.ready (inv KInv) w ->
  Mips.ends (inv KInv) may_fail may_exit (Mips.OneInstruction (CPU := machine_cpu EH) w) (fun _ => True) \/
  (Mips.OneInstruction (CPU := machine_cpu EH) w = Undefined /\
   exists pc raw w1 i, ReadMem EH pc 4 w = Ok (Some raw, w1) /\ Mips.Decode (u32 raw) = Ok i /\
     Mips.div_faults (CPU := machine_cpu EH) i w1).
Proof. apply user_instruction. Qed.


(** What WriteMem stores at a mapped address ReadMem gives back, as the access size
    clips it, and no byte outside the reference changes. *)
Theorem write_then_read {K} (EH : Z -> M (World K) unit) (w : World K) table va size v p :
  mem_ok (machine w) -> table_ok w table -> Mips.access_size size -> translation w table va size true = inr p ->
  exists w1 w2, WriteMem EH va size v w = Ok (true, w1) /\ ReadMem EH va size w1 = Ok (Some (clip size v), w2) /\
    forall q, 0 <= q -> ~ (p <= q < p + size) -> aget (mainMemory (machine w2)) q = aget (mainMemory (machine w)) q.
Proof. apply write_read. Qed.

(** Protection and dirty bits are lost behind the buffer: when a page is cached, an
    aligned write to it goes through even when its entry is read-only or invalid, and no
    entry is marked dirty. *)
Theorem cached_write_unchecked {K} (w : World K) table va size f o :
  mem_ok (machine w) -> table_ok w table -> Mips.access_size size -> misaligned va size = false ->
  TLB.find (tlbManager (machine w)) (TLB.page va) = Some (f, o) ->
  exists w', Translate va size true w = Ok (inr (f * PageSize + offset va), w') /\ pageTables w' = pageTables w.
Proof.
  intros Hm Ht Hs Ha Hf. destruct (Translate_spec w table va size true Hm Ht Hs) as (w' & E & t & p & -> & _ & H).
  exists (set_tables p (set_tlb t w)). rewrite E. unfold translation. unfold filled in H. rewrite Ha, Hf in *.
  split; [done|]. apply H.
Qed.

(** ** Concrete inputs *)

(** A world with one page, in frame 3, and a kernel that refuses every exception. *)
Definition sample_entry : TranslationEntry := MkEntry 0 3 true false false false.
Definition sample_machine : Machine :=
  let m := Machine_new TLB.raw_entries 0 in MkMachine (registers m) (mainMemory m) (tlbManager m) 1 1.
Definition sample_world : World unit := MkWorld sample_machine {[ 1 := [sample_entry] ]} UserMode 0 tt.
Definition refuse (which : Z) : M (World unit) unit := lift AssertFail.

Lemma sample_mem_ok : mem_ok sample_machine.
Proof.
  constructor.
  - cbn -[replicate Z.to_nat]. rewrite length_replicate. reflexivity.
  - cbn -[replicate Z.to_nat]. apply Forall_replicate. by_compute.
  - exact (proj1 (TLB.new_wf TLB.raw_entries)).
  - intros v f o _ Hf. pose proof (proj2 (TLB.new_wf TLB.raw_entries) v) as E. cbn [sample_machine tlbManager] in Hf.
    unfold Machine_new in Hf. cbn [tlbManager] in Hf. congruence.
Qed.

Lemma sample_table_ok : table_ok sample_world [sample_entry].
Proof. split; [reflexivity|]. cbn. lia. Qed.

Lemma refuse_ok : kernel_ok refuse (fun _ => True) True False.
Proof. constructor; try done. Qed.

Lemma sample_ready : Mips.ready (inv (fun _ => True)) sample_world.
Proof.
  split; [|split; [exact sample_mem_ok|split; [by exists [sample_entry]; apply sample_table_ok|exact I]]].
  split; [reflexivity|]. split; [|by_compute]. cbn -[replicate Z.to_nat]. apply Forall_replicate. by_compute.
Qed.

Example user_instruction_safe_witness :
  Mips.ends (inv (fun _ => True)) True False (Mips.OneInstruction (CPU := machine_cpu refuse) sample_world) (fun _ => True) \/
  Mips.OneInstruction (CPU := machine_cpu refuse) sample_world = Undefined.
Proof.
  destruct (user_instruction_safe refuse (fun _ => True) True False sample_world refuse_ok sample_ready) as [H|[H _]]; [left|right]; exact H.
Defined.


Example write_then_read_witness : exists w1 w2, WriteMem refuse 8 4 (-2) sample_world = Ok (true, w1) /\
  ReadMem refuse 8 4 w1 = Ok (Some (-2), w2).
Proof.
  destruct (write_then_read refuse sample_world [sample_entry] 8 4 (-2) (3 * 128 + 8) sample_mem_ok sample_table_ok) as (w1 & w2 & E1 & E2 & _).
  - right; right. reflexivity.
  - reflexivity.
  - exists w1, w2. split; [exact E1|exact E2].
Defined.

(** The page is read-only and cached: the write is let through. *)
Definition cached_world : World unit :=
  set_tables {[ 1 := [MkEntry 0 3 true true false false] ]}
    (set_tlb (match TLB.update (TLB.TLBManager_new TLB.raw_entries) 0 3 0 with Ok t => t | _ => [] end) sample_world).

Lemma cached_mem_ok : mem_ok (machine cached_world).
Proof.
  destruct (TLB.new_wf TLB.raw_entries) as [Hw Hn].
  destruct (TLB.update_spec (TLB.TLBManager_new TLB.raw_entries) 0 3 0 Hw (Hn _)) as (t & row & k & E & Ht & _ & _ & Hf).
  unfold cached_world. rewrite E. apply (mem_ok_tlb sample_machine t sample_mem_ok Ht).
  intros v f o Hv Hfo. rewrite Hf in Hfo by done. case_decide; [by injection Hfo as <- _|].
  destruct ((TLB.TLBI v =? _) && _); [done|]. by rewrite Hn in Hfo.
Qed.

Example cached_write_unchecked_witness : exists w', Translate 8 4 true cached_world = Ok (inr (3 * 128 + 8), w') /\
  pageTables w' = {[ 1 := [MkEntry 0 3 true true false false] ]}.
Proof.
  destruct (cached_write_unchecked cached_world [MkEntry 0 3 true true false false] 8 4 3 0) as (w' & E & H).
  - exact cached_mem_ok.
  - split; [reflexivity|cbn; lia].
  - right; right. reflexivity.
  - reflexivity.
  - reflexivity.
  - exists w'. split; [exact E|exact H].
Defined.
End Machine.
