(* ===== verification/VM.v ===== *)
(** VM: virtual memory, src/code/vm/ (SwappingLRU, PhyMemManager, VirtMemManager,
    MemoryManager) and src/code/userprog/addrspace.h, addrspace.cc.

    The world is the machine's (Machine.v) with the kernel state below.  Address spaces and
    page tables are objects: [virtMemTable], the running thread's [space] and the machine's
    page table register hold their addresses (0 is NULL), so the fault handler updates in
    place the table the machine walks, and a victim's table may be that same table.  The
    executables are reached through the class [ExeFiles], which states of them what
    OpenFile.v proves of the file system's files. *)

From S2P Require Import Prelude Bitmap Mips TLB Machine SectorStore OpenFile.
From stdpp Require Import base numbers list gmap.
#[local] Open Scope Z_scope.

(** The files of the running programs.  [exe_ok f m] : [m] gives the open file of each
    address space (by the address of the object), and the file system [f] can serve them. *)
Class ExeFiles (F File : Type) := {
  exe_Open : list Z -> M F (option File);
  exe_ReadAt : File -> Z -> Z -> M F (Z * list Z);
  exe_WriteAt : File -> list Z -> Z -> Z -> M F (Z * File);
  exe_ok : F -> gmap Z File -> Prop;
  exe_bytes : F -> File -> list Z;
  exe_bytes_byte f m a file : exe_ok f m -> m !! a = Some file -> Forall is_byte (exe_bytes f file);
  exe_close f m a : exe_ok f m -> exe_ok f (delete a m);
  exe_read_ok f m a file n pos : exe_ok f m -> m !! a = Some file -> n <= 8192 -> 0 <= pos ->
    exists f', exe_ReadAt file n pos f =
        Ok (OpenFile.read_result (exe_bytes f file) (Z.of_nat (length (exe_bytes f file))) n pos, f') /\
      exe_ok f' m /\ forall b g, m !! b = Some g -> exe_bytes f' g = exe_bytes f g;
  exe_write_ok f m a file bs n pos : exe_ok f m -> m !! a = Some file -> 0 < n <= 8192 -> Z.of_nat (length bs) = n -> Forall is_byte bs -> 0 <= pos ->
    match exe_WriteAt file bs n pos f with
    | Ok (k, file', f') =>
        exe_ok f' (<[a := file']> m) /\
        if decide (pos <= Z.of_nat (length (exe_bytes f file)))
        then k = n /\ exe_bytes f' file' = take (Z.to_nat pos) (exe_bytes f file) ++ bs
        else k = 0 /\ file' = file /\ exe_bytes f' file' = exe_bytes f file
    | AssertFail => True
    | _ => False
    end
}.

Module VM.

Definition THREAD_COUNT_MAX : Z := 128.
Definition MAX_VIRT_PAGES : Z := 4096.
Definition UserStackSize : Z := 1024.
Definition NOFFMAGIC : Z := 12246957.
Definition StackReg : Z := 29.

(** [sizeof(NoffHeader)], the build having RDATA: the magic number and four segments. *)
Definition NoffHeaderSize : Z := 52.

(** * SwappingLRU *)

Record SwappingLRU := MkLRU { lastUsedTimeTable : list Z; tableSize : Z }.

Definition SwappingLRU_new (size : Z) : SwappingLRU := MkLRU (replicate (Z.to_nat size) (-1)) size.

(** [min] and [target] are not set before the first turn. *)
Definition findOneElementToSwap (l : SwappingLRU) : res Z :=
  r ← for_each (range 0 (tableSize l)) (fun i best =>
        x ← aget (lastUsedTimeTable l) i;
        if i =? 0 then Ok (Some (x, i))
        else '(min, _) ← deref best; Ok (if x <? min then Some (x, i) else best)) None;
  '(_, target) ← deref r; Ok target.

Definition updateElementWeight (l : SwappingLRU) (index ticks : Z) : res SwappingLRU :=
  t ← aset (lastUsedTimeTable l) index ticks; Ok (MkLRU t (tableSize l)).

(** * PhyMemManager *)

Record PhyMemPageEntry := MkPhyPage { mainThreadId : Z; virtualPage : Z }.

Record PhyMemManager := MkPhy {
  phyPageNums : Z; phyMemoryMap : Bitmap.Bitmap; phyMemPageTable : list PhyMemPageEntry; swappingStrategy : SwappingLRU
}.

(** [raw] is the array of new entries, which have no constructor. *)
Definition PhyMemManager_new (raw : list PhyMemPageEntry) (pageNums : Z) : res PhyMemManager :=
  b ← Bitmap.Bitmap_new pageNums; Ok (MkPhy pageNums b raw (SwappingLRU_new pageNums)).

Definition findOneEmptyPage (p : PhyMemManager) : res (Z * PhyMemManager) :=
  '(page, b) ← Bitmap.FindAndSet (phyMemoryMap p);
  Ok (page, MkPhy (phyPageNums p) b (phyMemPageTable p) (swappingStrategy p)).

Definition swapOnePage (p : PhyMemManager) : res Z := findOneElementToSwap (swappingStrategy p).

Definition clearOnePage (p : PhyMemManager) (phyPage : Z) : res PhyMemManager :=
  b ← Bitmap.Clear (phyMemoryMap p) phyPage; Ok (MkPhy (phyPageNums p) b (phyMemPageTable p) (swappingStrategy p)).

Definition isPageValid (p : PhyMemManager) (phyPage : Z) : res bool := Bitmap.Test (phyMemoryMap p) phyPage.

Definition getMainThread (p : PhyMemManager) (phyPage : Z) : res Z :=
  t ← Bitmap.Test (phyMemoryMap p) phyPage;
  if (t : bool) then e ← aget (phyMemPageTable p) phyPage; Ok (mainThreadId e) else Ok (-1).

Definition getVirtualPage (p : PhyMemManager) (phyPage : Z) : res Z :=
  t ← Bitmap.Test (phyMemoryMap p) phyPage;
  if (t : bool) then e ← aget (phyMemPageTable p) phyPage; Ok (virtualPage e) else Ok (-1).

Definition set_page (p : PhyMemManager) (phyPage : Z) (f : PhyMemPageEntry -> PhyMemPageEntry) : res PhyMemManager :=
  t ← Bitmap.Test (phyMemoryMap p) phyPage;
  if (t : bool) then
    e ← aget (phyMemPageTable p) phyPage; l ← aset (phyMemPageTable p) phyPage (f e);
    Ok (MkPhy (phyPageNums p) (phyMemoryMap p) l (swappingStrategy p))
  else Ok p.

Definition setMainThreadId (p : PhyMemManager) (phyPage tid : Z) : res PhyMemManager :=
  set_page p phyPage (fun e => MkPhyPage tid (virtualPage e)).
Definition setVirtualPage (p : PhyMemManager) (phyPage vpn : Z) : res PhyMemManager :=
  set_page p phyPage (fun e => MkPhyPage (mainThreadId e) vpn).

Definition updatePageWeight (p : PhyMemManager) (phyPage ticks : Z) : res PhyMemManager :=
  t ← Bitmap.Test (phyMemoryMap p) phyPage;
  if (t : bool) then
    l ← updateElementWeight (swappingStrategy p) phyPage ticks;
    Ok (MkPhy (phyPageNums p) (phyMemoryMap p) (phyMemPageTable p) l)
  else Ok p.

(** * The kernel's state *)

Record VirtMemManager := MkVirt { virtPageNums : Z; virtMemTableSize : Z; virtMemTable : list Z }.

Definition VirtMemManager_new (size : Z) : res VirtMemManager :=
  _ ← ASSERT (0 <? size); Ok (MkVirt 0 size (replicate (Z.to_nat size) 0)).

Record AddrSpace (File : Type) := MkSpace { pageTable : Z; threadId : Z; numPages : Z; exeFileId : File }.
Arguments MkSpace {File}.
Arguments pageTable {File}.
Arguments threadId {File}.
Arguments numPages {File}.
Arguments exeFileId {File}.

(** [spaces]: the AddrSpace objects by address; [space]: [kernel->currentThread->space]. *)
Record Kernel (F File : Type) := MkKernel {
  phyMemManager : PhyMemManager;
  virtMemManager : VirtMemManager;
  spaces : gmap Z (AddrSpace File);
  space : Z;
  files : F;
  totalTicks : Z;
  numPageFaults : Z
}.
Arguments MkKernel {F File}.
Arguments phyMemManager {F File}.
Arguments virtMemManager {F File}.
Arguments spaces {F File}.
Arguments space {F File}.
Arguments files {F File}.
Arguments totalTicks {F File}.
Arguments numPageFaults {F File}.

Section Ops.
Context {F File : Type} {EX : ExeFiles F File} {HP : Heap F}.
#[local] Notation K := (Kernel F File).
#[local] Notation W := (Machine.World K).

Definition set_kernel (k : K) (w : W) : W :=
  Machine.MkWorld (Machine.machine w) (Machine.pageTables w) (Machine.status w) (Machine.currentPid w) k.
Definition with_phys (p : PhyMemManager) (k : K) : K :=
  MkKernel p (virtMemManager k) (spaces k) (space k) (files k) (totalTicks k) (numPageFaults k).
Definition with_virt (v : VirtMemManager) (k : K) : K :=
  MkKernel (phyMemManager k) v (spaces k) (space k) (files k) (totalTicks k) (numPageFaults k).
Definition with_spaces (s : gmap Z (AddrSpace File)) (k : K) : K :=
  MkKernel (phyMemManager k) (virtMemManager k) s (space k) (files k) (totalTicks k) (numPageFaults k).
Definition with_space (s : Z) (k : K) : K :=
  MkKernel (phyMemManager k) (virtMemManager k) (spaces k) s (files k) (totalTicks k) (numPageFaults k).
Definition with_files (f : F) (k : K) : K :=
  MkKernel (phyMemManager k) (virtMemManager k) (spaces k) (space k) f (totalTicks k) (numPageFaults k).
Definition with_faults (n : Z) (k : K) : K :=
  MkKernel (phyMemManager k) (virtMemManager k) (spaces k) (space k) (files k) (totalTicks k) n.

Definition kget : M W K := fun w => Ok (Machine.kernel w, w).
Definition kset (f : K -> K) : M W unit := fun w => Ok (tt, set_kernel (f (Machine.kernel w)) w).

(** A call on the physical memory manager, and one on the file system. *)
Definition phys {A} (f : PhyMemManager -> res (A * PhyMemManager)) : M W A :=
  k ← kget; '(a, p) ← lift (f (phyMemManager k)); _ ← kset (with_phys p); mret a.
Definition phys_ (f : PhyMemManager -> res PhyMemManager) : M W unit :=
  k ← kget; p ← lift (f (phyMemManager k)); kset (with_phys p).
Definition file_call {A} (f : M F A) : M W A :=
  k ← kget; '(a, s) ← lift (f (files k)); _ ← kset (with_files s); mret a.

(** [pageTable[vpn]] for a page table object. *)
Definition entry (table vpn : Z) : M W Machine.TranslationEntry :=
  w ← get_state; t ← lift (deref (Machine.pageTables w !! table)); lift (aget t vpn).
Definition set_entry (table vpn : Z) (e : Machine.TranslationEntry) : M W unit :=
  w ← get_state; t ← lift (deref (Machine.pageTables w !! table)); t ← lift (aset t vpn e);
  Machine.modify (Machine.set_tables (<[table := t]> (Machine.pageTables w))).

(** * VirtMemManager and AddrSpace *)

(** The address of the space of a thread, NULL when there is none. *)
Definition getAddrSpaceOfThread (tid : Z) : M W Z :=
  k ← kget;
  if (0 <=? tid) && (tid <? virtMemTableSize (virtMemManager k))
  then lift (aget (virtMemTable (virtMemManager k)) tid) else mret 0.

(** The object at an address. *)
Definition the_space (a : Z) : M W (AddrSpace File) := k ← kget; lift (deref (spaces k !! a)).

(** [new TranslationEntry[numPages]], initialised. *)
Definition new_table (n : Z) : list Machine.TranslationEntry :=
  map (fun i => Machine.MkEntry i (-1) false false false false) (range 0 n).

(** An address no object has. *)
Definition new_address {V} (m : gmap Z V) : Z := fresh (dom m ∪ {[0]}).

(** The word at offset [4 * i] of the header. *)
Definition noff_word (header : list Z) (i : nat) : Z := nth i (bytes_to_ints header) 0.

(** The constructor of AddrSpace: [None] when the file cannot be opened, the members then
    being unset. *)
Definition AddrSpace_new (tid : Z) (fileName : list Z) : M W (option (AddrSpace File)) :=
  executable ← file_call (exe_Open fileName);
  match executable with
  | None => mret None
  | Some executable =>
      '(n, bs) ← file_call (exe_ReadAt executable NoffHeaderSize 0);
      k ← kget;
      let header := bs ++ drop (length bs) (uninit (files k) (Z.to_nat NoffHeaderSize)) in
      _ ← lift (ASSERT (noff_word header 0 =? NOFFMAGIC));
      let size := u32 (noff_word header 3 + noff_word header 9 + noff_word header 6 + noff_word header 12 + UserStackSize) in
      let n := divRoundUp size PageSize in
      w ← get_state;
      let a := new_address (Machine.pageTables w) in
      _ ← Machine.modify (Machine.set_tables (<[a := new_table n]> (Machine.pageTables w)));
      mret (Some (MkSpace a tid n executable))
  end.

(** [delete entry]: the destructor frees the page table and the file. *)
Definition AddrSpace_delete (s : AddrSpace File) : M W unit :=
  w ← get_state; Machine.modify (Machine.set_tables (delete (pageTable s) (Machine.pageTables w))).

(** When the file could not be opened, [getNumPages] reads a member that was never set. *)
Definition createAddrSpace (mainThreadId : Z) (filename : list Z) : M W Z :=
  k ← kget;
  old ← lift (aget (virtMemTable (virtMemManager k)) mainThreadId);
  if negb (old =? 0) then mret old
  else
    s ← AddrSpace_new mainThreadId filename;
    match s with
    | None => lift Undefined
    | Some s =>
        k ← kget;
        let v := virtMemManager k in
        if MAX_VIRT_PAGES <? i32 (virtPageNums v + numPages s) then _ ← AddrSpace_delete s; mret 0
        else
          let a := new_address (spaces k) in
          table ← lift (aset (virtMemTable v) mainThreadId a);
          _ ← kset (with_spaces (<[a := s]> (spaces k)));
          _ ← kset (with_virt (MkVirt (i32 (virtPageNums v + numPages s)) (virtMemTableSize v) table));
          mret a
    end.

Definition deleteAddrSpace (tid : Z) : M W unit :=
  k ← kget;
  let v := virtMemManager k in
  if (0 <=? tid) && (tid <? virtMemTableSize v) then
    a ← lift (aget (virtMemTable v) tid);
    if a =? 0 then mret tt
    else
      s ← the_space a;
      _ ← mfor (range 0 (numPages s)) (fun i _ =>
            e ← entry (pageTable s) i;
            if Machine.valid e then phys_ (fun p => clearOnePage p (Machine.physicalPage e)) else mret tt) tt;
      _ ← AddrSpace_delete s;
      k ← kget;
      _ ← kset (with_spaces (delete a (spaces k)));
      table ← lift (aset (virtMemTable (virtMemManager k)) tid 0);
      kset (with_virt (MkVirt (virtPageNums v) (virtMemTableSize v) table))
  else mret tt.

Definition InitRegisters (s : AddrSpace File) : M W unit :=
  _ ← mfor (range 0 NumTotalRegs) (fun i _ => Machine.WriteRegister i 0) tt;
  _ ← Machine.WriteRegister PCReg 0;
  _ ← Machine.WriteRegister NextPCReg 4;
  Machine.WriteRegister StackReg (i32 (numPages s * PageSize - 16)).

Definition RestoreState (s : AddrSpace File) : M W unit :=
  Machine.modify (fun w => let m := Machine.machine w in
    Machine.set_machine (Machine.MkMachine (Machine.registers m) (Machine.mainMemory m) (Machine.tlbManager m) (pageTable s) (numPages s)) w).

(** Execute up to [kernel->machine->Run()]. *)
Definition Execute (a : Z) : M W unit :=
  _ ← kset (with_space a); s ← the_space a; _ ← InitRegisters s; RestoreState s.

(** AddrSpace::Translate, for the kernel's own use: the exception or the address. *)
Definition Translate (s : AddrSpace File) (vaddr : Z) (isReadWrite : bool) : M W (Z + Z) :=
  let vpn := u32 vaddr / PageSize in
  let offset := u32 vaddr mod PageSize in
  if NumVirtualPages <=? vpn then mret (inl AddressErrorException)
  else
    pte ← entry (pageTable s) vpn;
    if isReadWrite && Machine.readOnly pte then mret (inl ReadOnlyException)
    else
      let pfn := Machine.physicalPage pte in
      if NumPhysPages <=? pfn then mret (inl BusErrorException)
      else
        _ ← set_entry (pageTable s) vpn (Machine.MkEntry (Machine.virtualPage pte) (Machine.physicalPage pte) (Machine.valid pte)
              (Machine.readOnly pte) true (isReadWrite || Machine.dirty pte));
        let paddr := u32 (pfn * PageSize + offset) in
        _ ← lift (ASSERT (paddr <? PhysicalMemorySize));
        mret (inr paddr).

(** * MemoryManager *)

(** The bytes of a frame, and bytes read into it. *)
Definition frame_bytes (p : Z) : M W (list Z) :=
  w ← get_state;
  let mem := Machine.mainMemory (Machine.machine w) in
  if decide (0 <= p * PageSize /\ p * PageSize + PageSize <= Z.of_nat (length mem))
  then mret (slice (Z.to_nat (p * PageSize)) (Z.to_nat PageSize) mem) else lift Undefined.
Definition fill_frame (p : Z) (bs : list Z) : M W unit :=
  w ← get_state;
  let mem := Machine.mainMemory (Machine.machine w) in
  if decide (0 <= p * PageSize /\ p * PageSize + Z.of_nat (length bs) <= Z.of_nat (length mem))
  then Machine.modify (Machine.set_memory (splice (Z.to_nat (p * PageSize)) bs mem)) else lift Undefined.

(** Where a page is in its file. *)
Definition file_position (vpn : Z) : Z := u32 (vpn * PageSize + NoffHeaderSize).

(** A dirty victim is written back to its file; the buffer is told, the arguments of
    [invalidEntry] in the order of the code. *)
Definition write_back (swapPhyPage swapThreadId swapVirtPage : Z) : M W unit :=
  a ← getAddrSpaceOfThread swapThreadId;
  s ← the_space a;
  bs ← frame_bytes swapPhyPage;
  '(_, file) ← file_call (exe_WriteAt (exeFileId s) bs PageSize (file_position swapVirtPage));
  k ← kget;
  _ ← kset (with_spaces (<[a := MkSpace (pageTable s) (threadId s) (numPages s) file]> (spaces k)));
  w ← get_state;
  t ← lift (TLB.invalidEntry (Machine.tlbManager (Machine.machine w)) swapVirtPage swapThreadId);
  Machine.modify (Machine.set_tlb t).

Definition set_valid (b : bool) (e : Machine.TranslationEntry) : Machine.TranslationEntry :=
  Machine.MkEntry (Machine.virtualPage e) (Machine.physicalPage e) b (Machine.readOnly e) (Machine.use e) (Machine.dirty e).

(** Takes a frame from the page that the replacement strategy chooses. *)
Definition evict : M W Z :=
  k ← kget;
  swapPhyPage ← lift (swapOnePage (phyMemManager k));
  swapThreadId ← lift (getMainThread (phyMemManager k) swapPhyPage);
  swapVirtPage ← lift (getVirtualPage (phyMemManager k) swapPhyPage);
  a ← getAddrSpaceOfThread swapThreadId;
  s ← the_space a;
  e ← entry (pageTable s) swapVirtPage;
  _ ← (if Machine.dirty e then write_back swapPhyPage swapThreadId swapVirtPage else mret tt);
  e ← entry (pageTable s) swapVirtPage;
  _ ← set_entry (pageTable s) swapVirtPage (set_valid false e);
  mret swapPhyPage.

Definition pageFaultHandler (vpn : Z) : M W unit :=
  w ← get_state;
  let currentThreadId := Machine.currentPid w in
  a ← getAddrSpaceOfThread currentThreadId;
  s ← the_space a;
  e ← entry (pageTable s) vpn;
  if Machine.valid e then mret tt
  else
    free ← phys findOneEmptyPage;
    swapPhyPage ← (if free =? -1 then evict else mret free);
    _ ← phys_ (fun p => setVirtualPage p swapPhyPage vpn);
    _ ← phys_ (fun p => setMainThreadId p swapPhyPage currentThreadId);
    k ← kget;
    _ ← phys_ (fun p => updatePageWeight p swapPhyPage (totalTicks k));
    e ← entry (pageTable s) vpn;
    _ ← set_entry (pageTable s) vpn (set_valid true e);
    e ← entry (pageTable s) vpn;
    _ ← set_entry (pageTable s) vpn (Machine.MkEntry (Machine.virtualPage e) swapPhyPage (Machine.valid e) (Machine.readOnly e) (Machine.use e) (Machine.dirty e));
    k ← kget;
    current ← the_space (space k);
    '(_, bs) ← file_call (exe_ReadAt (exeFileId current) PageSize (file_position vpn));
    fill_frame swapPhyPage bs.

(** * The exception handler (src/code/userprog/exception.cc, ksyscall.h) *)

Definition SC_Halt : Z := 0.
Definition SC_Add : Z := 42.

Definition SysAdd (op1 op2 : Z) : Z := i32 (op1 + op2).

Definition PageFaultHandler : M W unit :=
  addr ← Machine.ReadRegister BadVAddrReg;
  let vpn := i32 (u32 addr / PageSize) in
  _ ← pageFaultHandler vpn;
  kset (fun k => with_faults (numPageFaults k + 1) k).

(** SysHalt ends the simulation; what no case handles reaches ASSERTNOTREACHED. *)
Definition ExceptionHandler (which : Z) : M W unit :=
  type ← Machine.ReadRegister 2;
  if which =? SyscallException then
    if type =? SC_Halt then lift Exited
    else if type =? SC_Add then
      op1 ← Machine.ReadRegister 4; op2 ← Machine.ReadRegister 5;
      _ ← Machine.WriteRegister 2 (SysAdd op1 op2);
      pc ← Machine.ReadRegister PCReg; _ ← Machine.WriteRegister PrevPCReg pc;
      pc ← Machine.ReadRegister PCReg; _ ← Machine.WriteRegister PCReg (i32 (pc + 4));
      pc ← Machine.ReadRegister PCReg; Machine.WriteRegister NextPCReg (i32 (pc + 4))
    else lift AssertFail
  else if which =? PageFaultException then PageFaultHandler
  else lift AssertFail.
End Ops.
End VM.
