(* ===== verification/VMInv.v ===== *)
(** VMInv: the invariant of virtual memory and the page fault handler's correctness (VM.v).

    The frames' owner table, the page tables of all threads and the bitmap of frames always
    agree; the handler keeps them so, whichever frame it takes.  The invariant is stated
    with an optional hole: a frame that is taken and not yet mapped, as it is halfway
    through the handler. *)

From S2P Require Import Prelude Bitmap Mips TLB Machine SectorStore OpenFile VM.
From stdpp Require Import base numbers list gmap.
#[local] Open Scope Z_scope.

Module VMInv.
Import VM.

(** * The replacement strategy *)

Definition least_time (l : list Z) (target : Z) : Prop :=
  exists m, l !! Z.to_nat target = Some m /\ (forall j x, 0 <= j -> l !! Z.to_nat j = Some x -> m <= x /\ (j < target -> m < x)).

Lemma findOneElementToSwap_spec l : 0 < tableSize l -> Z.of_nat (length (lastUsedTimeTable l)) = tableSize l ->
  exists t, findOneElementToSwap l = Ok t /\ 0 <= t < tableSize l /\ least_time (lastUsedTimeTable l) t.
Proof.
  intros Hpos Hlen. unfold findOneElementToSwap.
  set (tb := lastUsedTimeTable l) in *.
  match goal with |- context [for_each _ ?b _] => set (body := b) end.
  destruct (for_each_inv (fun i best => match best with
    | None => i = 0
    | Some (m, t) => 0 <= t < i /\ tb !! Z.to_nat t = Some m /\
        forall j x, 0 <= j < i -> tb !! Z.to_nat j = Some x -> m <= x /\ (j < t -> m < x)
    end) body 0 (tableSize l) None) as (r & -> & Hr); [lia|done| |].
  - intros i best Hi Hb. unfold body. destruct (aget_in tb i) as (x & Hx & ->); [lia|]. cbn [mbind res_bind].
    destruct (Z.eqb_spec i 0) as [->|Hne].
    + eexists. split; [done|]. split; [lia|]. split; [done|]. intros j y Hj Hy. assert (j = 0) as -> by lia.
      rewrite Hx in Hy. injection Hy as <-. lia.
    + destruct best as [[m t]|]; [|lia]. destruct Hb as (Ht & Hm & Hmin). cbn [deref mbind res_bind].
      destruct (Z.ltb_spec x m).
      * eexists. split; [done|]. split; [lia|]. split; [done|]. intros j y Hj Hy.
        destruct (decide (j = i)) as [->|]; [rewrite Hx in Hy; injection Hy as <-; lia|].
        destruct (Hmin j y ltac:(lia) Hy). lia.
      * eexists. split; [done|]. split; [lia|]. split; [done|]. intros j y Hj Hy.
        destruct (decide (j = i)) as [->|]; [rewrite Hx in Hy; injection Hy as <-; lia|].
        apply (Hmin j y ltac:(lia) Hy).
  - destruct r as [[m t]|]; [|lia]. cbn. destruct Hr as (Ht & Hm & Hmin). exists t. split; [done|]. split; [done|].
    exists m. split; [done|]. intros j x Hj Hx. apply Hmin; [|done]. apply lookup_lt_Some in Hx. lia.
Qed.

Section Inv.
Context {F File : Type} {EX : ExeFiles F File} {HP : Heap F}.
#[local] Notation K := (Kernel F File).
#[local] Notation W := (Machine.World K).
Implicit Types (k : K) (pts : gmap Z (list Machine.TranslationEntry)).

(** * The views *)

(** The address of a thread's space. *)
Definition space_addr k (t : Z) : option Z :=
  if decide (0 <= t < virtMemTableSize (virtMemManager k)) then
    match virtMemTable (virtMemManager k) !! Z.to_nat t with
    | Some a => if decide (a = 0) then None else Some a
    | None => None
    end
  else None.

(** The page table entry of page [v] of thread [t]. *)
Definition pte k pts (t v : Z) : option Machine.TranslationEntry :=
  match space_addr k t with
  | Some a =>
      match spaces k !! a with
      | Some s => match pts !! pageTable s with Some table => if decide (0 <= v) then table !! Z.to_nat v else None | None => None end
      | None => None
      end
  | None => None
  end.

Definition in_use k (p : Z) : Prop := 0 <= p < NumPhysPages /\ Bitmap.bit (phyMemoryMap (phyMemManager k)) p = true.
Definition owner k (p : Z) : option PhyMemPageEntry := phyMemPageTable (phyMemManager k) !! Z.to_nat p.

Record phys_ok k : Prop := {
  po_wf : Bitmap.wf (phyMemoryMap (phyMemManager k));
  po_bits : Bitmap.numBits (phyMemoryMap (phyMemManager k)) = NumPhysPages;
  po_table : Z.of_nat (length (phyMemPageTable (phyMemManager k))) = NumPhysPages;
  po_lru : Z.of_nat (length (lastUsedTimeTable (swappingStrategy (phyMemManager k)))) = NumPhysPages;
  po_size : tableSize (swappingStrategy (phyMemManager k)) = NumPhysPages
}.

Record spaces_ok k pts : Prop := {
  so_len : Z.of_nat (length (virtMemTable (virtMemManager k))) = virtMemTableSize (virtMemManager k);
  so_max : virtMemTableSize (virtMemManager k) = THREAD_COUNT_MAX;
  so_space t a : space_addr k t = Some a ->
    exists s table, spaces k !! a = Some s /\ pts !! pageTable s = Some table /\ Z.of_nat (length table) = numPages s;
  so_inj t t' a a' s s' : space_addr k t = Some a -> space_addr k t' = Some a' ->
    spaces k !! a = Some s -> spaces k !! a' = Some s' -> pageTable s = pageTable s' -> t = t';
  so_files : exe_ok (files k) (exeFileId <$> spaces k)
}.

(** Every valid entry names a frame that is in use and owned by that page, and every frame
    in use but the hole is mapped by its owner. *)
Record vm_inv (hole : option Z) k pts : Prop := {
  vi_phys : phys_ok k;
  vi_spaces : spaces_ok k pts;
  vi_entry t v e : pte k pts t v = Some e -> Machine.readOnly e = false /\
    (Machine.valid e = true -> in_use k (Machine.physicalPage e) /\ owner k (Machine.physicalPage e) = Some (MkPhyPage t v) /\
      hole <> Some (Machine.physicalPage e));
  vi_frame p : in_use k p -> hole <> Some p ->
    exists t v e, owner k p = Some (MkPhyPage t v) /\ pte k pts t v = Some e /\ Machine.valid e = true /\ Machine.physicalPage e = p;
  vi_hole p : hole = Some p -> in_use k p
}.

Definition vm_ok (w : W) : Prop := vm_inv None (Machine.kernel w) (Machine.pageTables w).

(** The running thread has a space, its own, and the machine walks that space's table. *)
Definition current_ok (w : W) : Prop :=
  exists s, space_addr (Machine.kernel w) (Machine.currentPid w) = Some (space (Machine.kernel w)) /\
    spaces (Machine.kernel w) !! space (Machine.kernel w) = Some s /\
    Machine.pageTable (Machine.machine w) = pageTable s /\ Machine.pageTableSize (Machine.machine w) = numPages s.

(** * Reading and writing one entry *)

(** Page [v] of thread [t] is entry [e] of [table], the table of space [s] at [a]. *)
Record maps k pts (t v a : Z) (s : AddrSpace File) table e : Prop := {
  mp_addr : space_addr k t = Some a;
  mp_space : spaces k !! a = Some s;
  mp_table : pts !! pageTable s = Some table;
  mp_range : 0 <= v;
  mp_entry : table !! Z.to_nat v = Some e
}.

Lemma pte_maps k pts t v e : pte k pts t v = Some e -> exists a s table, maps k pts t v a s table e.
Proof.
  unfold pte. destruct (space_addr k t) as [a|] eqn:E1; [|done]. destruct (spaces k !! a) as [s|] eqn:E2; [|done].
  destruct (pts !! pageTable s) as [table|] eqn:E3; [|done]. case_decide; [|done]. intros E. by exists a, s, table.
Qed.

Lemma maps_pte k pts t v a s table e : maps k pts t v a s table e -> pte k pts t v = Some e.
Proof. intros [E1 E2 E3 Hr E]. unfold pte. rewrite E1, E2, E3. by rewrite decide_True by done. Qed.

Lemma maps_length k pts t v a s table e : maps k pts t v a s table e -> 0 <= v < Z.of_nat (length table).
Proof. intros [_ _ _ Hr E]. apply lookup_lt_Some in E. lia. Qed.

(** Another table in the place of [s]'s. *)
Definition put_entry pts (s : AddrSpace File) table v e := <[pageTable s := <[Z.to_nat v := e]> table]> pts : gmap Z (list Machine.TranslationEntry).

Lemma pte_put k pts t v a s table e e' : spaces_ok k pts -> maps k pts t v a s table e ->
  spaces_ok k (put_entry pts s table v e') /\
  maps k (put_entry pts s table v e') t v a s (<[Z.to_nat v := e']> table) e' /\
  forall t' v', pte k (put_entry pts s table v e') t' v' = if decide (t' = t /\ v' = v) then Some e' else pte k pts t' v'.
Proof.
  intros Hs Hm. pose proof (maps_length _ _ _ _ _ _ _ _ Hm) as Hv. destruct Hm as [E1 E2 E3 Hr E]. unfold put_entry.
  split_and!.
  - destruct Hs as [Hl Hmx Hsp Hinj Hf]. constructor; try done. intros t' a' Ha'.
    destruct (Hsp t' a' Ha') as (s' & table' & Hs' & Ht' & Hlen). exists s'.
    destruct (decide (pageTable s' = pageTable s)) as [Heq|Hne].
    + exists (<[Z.to_nat v := e']> table). rewrite Heq, lookup_insert_eq, length_insert. split_and!; try done.
      rewrite Heq in Ht'. congruence.
    + exists table'. by rewrite lookup_insert_ne.
  - constructor; try done; [by rewrite lookup_insert_eq|]. rewrite list_lookup_insert_eq; [done|lia].
  - intros t' v'. unfold pte. destruct (space_addr k t') as [a'|] eqn:Ea; [|case_decide as Hd; [destruct Hd; congruence|done]].
    destruct (decide (t' = t)) as [->|Hne].
    + assert (a' = a) as -> by congruence. rewrite E2, lookup_insert_eq, E3. destruct (decide (0 <= v')) as [Hv'|Hv'].
      * destruct (decide (v' = v)) as [->|Hvv].
        { rewrite decide_True by done. apply list_lookup_insert_eq. lia. }
        rewrite decide_False by naive_solver. apply list_lookup_insert_ne. lia.
      * rewrite decide_False by (intros [_ ->]; lia). done.
    + rewrite decide_False by naive_solver. destruct (spaces k !! a') as [s'|] eqn:Es'; [|done].
      rewrite lookup_insert_ne; [done|]. intros Heq. apply Hne. by apply (so_inj _ _ Hs t' t a' a s' s).
Qed.

Lemma entry_ok (w : W) t v a s table e : maps (Machine.kernel w) (Machine.pageTables w) t v a s table e ->
  entry (pageTable s) v w = Ok (e, w).
Proof.
  intros [E1 E2 E3 Hr E]. unfold entry, get_state. unfold mbind, M_bind. rewrite E3. cbn. by rewrite (aget_Some _ _ _ Hr E).
Qed.

Lemma set_entry_ok (w : W) t v a s table e e' : maps (Machine.kernel w) (Machine.pageTables w) t v a s table e ->
  set_entry (pageTable s) v e' w = Ok (tt, Machine.set_tables (put_entry (Machine.pageTables w) s table v e') w).
Proof.
  intros Hm. pose proof (maps_length _ _ _ _ _ _ _ _ Hm) as Hv. destruct Hm as [E1 E2 E3 Hr E].
  unfold set_entry, get_state. unfold mbind, M_bind. rewrite E3. cbn. by rewrite aset_in.
Qed.

Lemma getAddrSpaceOfThread_ok (w : W) t a : spaces_ok (Machine.kernel w) (Machine.pageTables w) ->
  space_addr (Machine.kernel w) t = Some a -> getAddrSpaceOfThread t w = Ok (a, w).
Proof.
  intros Hs. unfold space_addr, getAddrSpaceOfThread. case_decide as Hr; [|done].
  unfold kget. unfold mbind, M_bind. rewrite (proj2 (Z.leb_le _ _)), (proj2 (Z.ltb_lt _ _)) by lia. cbn [andb].
  destruct (virtMemTable (virtMemManager (Machine.kernel w)) !! Z.to_nat t) as [b|] eqn:E; [|done]. case_decide; [done|].
  intros [= <-]. by rewrite (aget_Some _ _ _ (proj1 Hr) E).
Qed.

Lemma the_space_ok (w : W) a s : spaces (Machine.kernel w) !! a = Some s -> the_space a w = Ok (s, w).
Proof. intros E. unfold the_space, kget. unfold mbind, M_bind. by rewrite E. Qed.

(** * What the steps of the handler do to the invariant *)

(** Frames, owners and times after a frame is taken, and after it is given to a page. *)
Definition same_views k k' : Prop :=
  virtMemManager k' = virtMemManager k /\ spaces k' = spaces k /\ files k' = files k.

Lemma pte_same k k' pts t v : same_views k k' -> pte k' pts t v = pte k pts t v.
Proof. intros (E1 & E2 & _). unfold pte, space_addr. by rewrite E1, E2. Qed.

Lemma spaces_ok_same k k' pts : same_views k k' -> spaces_ok k pts -> spaces_ok k' pts.
Proof.
  intros (E1 & E2 & E3) [H1 H2 H3 H4 H5]. assert (forall t, space_addr k' t = space_addr k t) as Ha by (intros; unfold space_addr; by rewrite E1).
  constructor; rewrite ?E1, ?E2, ?E3; try done.
  - intros t a. rewrite Ha. apply H3.
  - intros t t' a a' s s'. rewrite !Ha. apply H4.
Qed.

Lemma take_frame k pts : vm_inv None k pts ->
  (exists p, findOneEmptyPage (phyMemManager k) = Ok (-1, phyMemManager k) /\ p = -1 /\ forall j, 0 <= j < NumPhysPages -> in_use k j) \/
  (exists p phys, findOneEmptyPage (phyMemManager k) = Ok (p, phys) /\ 0 <= p < NumPhysPages /\ ~ in_use k p /\
     (forall j, 0 <= j < p -> in_use k j) /\ vm_inv (Some p) (with_phys phys k) pts).
Proof.
  intros [[Hwf Hnb Htb Hlr Hsz] Hsp Hen Hfr _]. unfold findOneEmptyPage.
  destruct (Bitmap.FindAndSet_correct _ Hwf) as ([p b] & -> & [(-> & -> & Hall)|(Hp & Hbp & Hlt & Hwf' & Hnb' & Hb')]).
  - left. exists (-1). cbn. rewrite Hnb in Hall. split; [by destruct (phyMemManager k)|]. split; [done|]. intros j Hj. split; [done|]. by apply Hall.
  - right. rewrite Hnb in *. exists p. eexists. split; [reflexivity|]. split; [done|].
    split; [intros [_ Hu]; congruence|]. split; [intros j Hj; split; [lia|by apply Hlt]|].
    set (k' := with_phys _ k). assert (same_views k k') as Hsame by done.
    assert (forall j, in_use k' j <-> (0 <= j < NumPhysPages /\ (j = p \/ in_use k j))) as Hin.
    { intros j. unfold in_use. cbn [phyMemManager with_phys phyMemoryMap k']. split.
      - intros [Hj Hbj]. rewrite Hb' in Hbj by lia. split; [done|]. apply orb_true_iff in Hbj as [?%Z.eqb_eq|?]; [by left|by right].
      - intros [Hj Hor]. split; [done|]. rewrite Hb' by lia. apply orb_true_iff. destruct Hor as [->|[_ ?]]; [left; apply Z.eqb_refl|by right]. }
    constructor.
    + constructor; cbn; first [done|congruence].
    + by eapply spaces_ok_same.
    + intros t v e He. rewrite (pte_same _ _ _ _ _ Hsame) in He. destruct (Hen _ _ _ He) as [Hro Hv]. split; [done|].
      intros Hval. destruct (Hv Hval) as ([Hr Hu] & Ho & _). split; [apply Hin; split; [done|right; done]|]. split; [done|].
      intros [= Heq]. rewrite <- Heq in Hu. congruence.
    + intros j Hj Hne. apply Hin in Hj as [Hr [->|Hj]]; [done|]. destruct (Hfr j Hj ltac:(done)) as (t & v & e & ? & ? & ? & ?).
      exists t, v, e. rewrite (pte_same _ _ _ _ _ Hsame). done.
    + intros j [= <-]. apply Hin. split; [done|by left].
Qed.

Lemma release_frame k pts p t v a s table e : vm_inv None k pts -> in_use k p -> maps k pts t v a s table e ->
  Machine.valid e = true -> Machine.physicalPage e = p ->
  vm_inv (Some p) k (put_entry pts s table v (set_valid false e)).
Proof.
  intros [Hph Hsp Hen Hfr _] Hu Hm Hv Hp. destruct (pte_put k pts t v a s table e (set_valid false e) Hsp Hm) as (Hsp' & Hm' & Hpte).
  pose proof (maps_pte _ _ _ _ _ _ _ _ Hm) as He. destruct (Hen _ _ _ He) as [Hro Hown]. destruct (Hown Hv) as (_ & Ho & _). rewrite Hp in Ho.
  constructor; try done.
  - intros t' v' e'. rewrite Hpte. case_decide as Hd.
    + intros [= <-]. split; [done|]. done.
    + intros He'. destruct (Hen _ _ _ He') as [Hro' Hv']. split; [done|]. intros Hval. destruct (Hv' Hval) as (Hu' & Ho' & _).
      split; [done|]. split; [done|]. intros [= Heq]. rewrite <- Heq, Ho in Ho'. injection Ho' as -> ->. by apply Hd.
  - intros q Hq Hne. destruct (Hfr q Hq ltac:(done)) as (t' & v' & e' & Ho' & He' & Hv' & Hp'). exists t', v', e'. split; [done|].
    rewrite Hpte. rewrite decide_False; [done|]. intros [-> ->]. rewrite He in He'. injection He' as <-. congruence.
  - intros q [= <-]. done.
Qed.

Lemma claim_frame k k' pts p t v a s table e e' : vm_inv (Some p) k pts -> maps k pts t v a s table e -> Machine.valid e = false ->
  Machine.readOnly e' = Machine.readOnly e -> Machine.valid e' = true -> Machine.physicalPage e' = p ->
  same_views k k' -> phys_ok k' -> phyMemoryMap (phyMemManager k') = phyMemoryMap (phyMemManager k) ->
  (forall q, 0 <= q -> owner k' q = if decide (q = p) then Some (MkPhyPage t v) else owner k q) ->
  vm_inv None k' (put_entry pts s table v e').
Proof.
  intros [Hph Hsp Hen Hfr Hho] Hm Hv Hro Hv' Hp Hsame Hph' Hmap How.
  destruct (pte_put k pts t v a s table e e' Hsp Hm) as (Hsp' & Hm' & Hpte).
  pose proof (maps_pte _ _ _ _ _ _ _ _ Hm) as He. pose proof (Hho p eq_refl) as Hpu.
  assert (forall q, in_use k' q <-> in_use k q) as Hin by (intros q; unfold in_use; by rewrite Hmap).
  constructor; try done.
  - by eapply spaces_ok_same.
  - intros t' v' x. rewrite (pte_same _ _ _ _ _ Hsame), Hpte. case_decide as Hd.
    + destruct Hd as [-> ->]. intros [= <-]. split; [rewrite Hro; apply (Hen _ _ _ He)|]. intros _. rewrite Hp.
      split; [by apply Hin|]. split; [|done]. rewrite How by (apply Hpu). by rewrite decide_True.
    + intros Hx. destruct (Hen _ _ _ Hx) as [Hrx Hvx]. split; [done|]. intros Hval. destruct (Hvx Hval) as (Hu & Ho & Hh).
      split; [by apply Hin|]. split; [|done]. rewrite How by (apply Hu). rewrite decide_False; [done|]. intros Heq. apply Hh. by rewrite Heq.
  - intros q Hq _. apply Hin in Hq. destruct (decide (q = p)) as [->|Hne].
    + exists t, v, e'. rewrite (pte_same _ _ _ _ _ Hsame), Hpte, How by (apply Hq). rewrite !decide_True by done. done.
    + destruct (Hfr q Hq) as (t' & v' & x & Ho & Hx & Hvx & Hpx); [congruence|]. exists t', v', x.
      rewrite (pte_same _ _ _ _ _ Hsame), Hpte, How by (apply Hq). rewrite decide_False by done.
      rewrite decide_False; [done|]. intros [-> ->]. congruence.
Qed.

(** * Eviction *)

(** The kernel with another open file in the space at [a]. *)
Definition put_file k (a : Z) (s : AddrSpace File) file f : K :=
  with_spaces (<[a := MkSpace (pageTable s) (threadId s) (numPages s) file]> (spaces k)) (with_files f k).

Lemma put_file_space k a s file f b s' : spaces k !! a = Some s -> spaces (put_file k a s file f) !! b = Some s' ->
  exists s0, spaces k !! b = Some s0 /\ pageTable s' = pageTable s0 /\ numPages s' = numPages s0.
Proof.
  intros Ha. cbn. destruct (decide (b = a)) as [->|Hne].
  - rewrite lookup_insert_eq. intros [= <-]. by exists s.
  - rewrite lookup_insert_ne by done. intros E. by exists s'.
Qed.

Lemma put_file_pte k a s file f pts t v : spaces k !! a = Some s -> pte (put_file k a s file f) pts t v = pte k pts t v.
Proof.
  intros Ha. unfold pte. change (space_addr (put_file k a s file f) t) with (space_addr k t).
  destruct (space_addr k t) as [b|]; [|done]. cbn. destruct (decide (b = a)) as [->|Hne].
  - by rewrite lookup_insert_eq, Ha.
  - by rewrite lookup_insert_ne.
Qed.

Lemma phys_ok_same k k' : phyMemManager k' = phyMemManager k -> phys_ok k -> phys_ok k'.
Proof. intros E []. constructor; by rewrite E. Qed.

Lemma put_file_inv hole k pts a s file f : vm_inv hole k pts -> spaces k !! a = Some s ->
  exe_ok f (<[a := file]> (exeFileId <$> spaces k)) -> vm_inv hole (put_file k a s file f) pts.
Proof.
  intros [Hph [H1 H2 H3 H4 H5] Hen Hfr Hho] Ha Hf. constructor; try done.
  - by apply (phys_ok_same k).
  - constructor; try done.
    + intros t b Hb. destruct (H3 t b Hb) as (s' & table & Hs' & Ht & Hl). cbn. destruct (decide (b = a)) as [->|Hne].
      * eexists _, table. rewrite lookup_insert_eq. split; [done|]. cbn. rewrite Ha in Hs'. by injection Hs' as ->.
      * exists s', table. by rewrite lookup_insert_ne.
    + intros t t' b b' x x' Hb Hb' Hx Hx' Heq.
      destruct (put_file_space _ _ _ _ _ _ _ Ha Hx) as (y & Hy & Ep & _). destruct (put_file_space _ _ _ _ _ _ _ Ha Hx') as (y' & Hy' & Ep' & _).
      apply (H4 t t' b b' y y'); [done..|congruence].
    + cbn. by rewrite fmap_insert.
  - intros t v e. rewrite put_file_pte by done. apply Hen.
  - intros p Hp Hh. destruct (Hfr p Hp Hh) as (t & v & e & ? & ? & ? & ?). exists t, v, e. by rewrite put_file_pte.
Qed.

Lemma frame_bytes_ok (w : W) p : Machine.mem_ok (Machine.machine w) -> 0 <= p < NumPhysPages ->
  frame_bytes p w = Ok (slice (Z.to_nat (p * PageSize)) (Z.to_nat PageSize) (Machine.mainMemory (Machine.machine w)), w).
Proof.
  intros Hm Hp. unfold frame_bytes, get_state. unfold mbind, M_bind. pose proof (Machine.mo_len _ Hm) as Hl.
  rewrite decide_True; [done|]. unfold PhysicalMemorySize, NumPhysPages, PageSize in *. lia.
Qed.

Lemma Forall_slice {A} (P : A -> Prop) off n (l : list A) : Forall P l -> Forall P (slice off n l).
Proof. intros H. unfold slice. by apply Forall_take, Forall_drop. Qed.

(** The world with another translation buffer and another kernel. *)
Definition put_kernel (t : TLB.TLBManager) k (w : W) : W := Machine.set_tlb t (set_kernel k w).

Lemma invalid_mem_ok (m : Machine.Machine) tid vpn : Machine.mem_ok m -> TLB.is_page vpn ->
  exists t, TLB.invalidEntry (Machine.tlbManager m) tid vpn = Ok t /\
    Machine.mem_ok (Machine.MkMachine (Machine.registers m) (Machine.mainMemory m) t (Machine.pageTable m) (Machine.pageTableSize m)).
Proof.
  intros Hm Hv. destruct (TLB.invalidEntry_spec (Machine.tlbManager m) tid vpn (Machine.mo_tlb _ Hm) Hv) as (t & E & Ht & Hf).
  exists t. split; [done|]. apply Machine.mem_ok_tlb; [done|done|]. intros v f o Hp E'. rewrite Hf in E' by done.
  destruct (TLB.find (Machine.tlbManager m) v) as [[g o']|] eqn:Eg; [|done].
  destruct ((v =? vpn) && (o' =? tid)); [done|]. injection E' as <- _. by eapply (Machine.mo_frames _ Hm).
Qed.

(** What [evict] has done when it returns: the frame [p] of page [v] of thread [t] is free
    for the caller; that page is no longer valid; if it was dirty, its bytes went to its
    file and the buffer was asked to forget page [t] of thread [v]. *)
Definition evicted (w w' : W) (p t v : Z) (e : Machine.TranslationEntry) : Prop :=
  exists a s table k' tlb', w' = Machine.set_tables (put_entry (Machine.pageTables w) s table v (set_valid false e)) (put_kernel tlb' k' w) /\
    maps (Machine.kernel w) (Machine.pageTables w) t v a s table e /\
    Machine.mem_ok (Machine.machine w') /\
    if Machine.dirty e then
      TLB.invalidEntry (Machine.tlbManager (Machine.machine w)) v t = Ok tlb' /\
      exists n file f,
        exe_WriteAt (exeFileId s) (slice (Z.to_nat (p * PageSize)) (Z.to_nat PageSize) (Machine.mainMemory (Machine.machine w))) PageSize (file_position v)
          (files (Machine.kernel w)) = Ok (n, file, f) /\ k' = put_file (Machine.kernel w) a s file f
    else tlb' = Machine.tlbManager (Machine.machine w) /\ k' = Machine.kernel w.

Lemma file_position_nonneg v : 0 <= file_position v.
Proof. unfold file_position. apply u32_range. Qed.

Lemma write_back_ok (w : W) p t v a s table e : vm_ok w -> Machine.mem_ok (Machine.machine w) -> 0 <= p < NumPhysPages ->
  maps (Machine.kernel w) (Machine.pageTables w) t v a s table e -> 0 <= t < THREAD_COUNT_MAX ->
  write_back p t v w = AssertFail \/
  exists n file f tlb',
    exe_WriteAt (exeFileId s) (slice (Z.to_nat (p * PageSize)) (Z.to_nat PageSize) (Machine.mainMemory (Machine.machine w))) PageSize (file_position v)
      (files (Machine.kernel w)) = Ok (n, file, f) /\
    TLB.invalidEntry (Machine.tlbManager (Machine.machine w)) v t = Ok tlb' /\
    write_back p t v w = Ok (tt, put_kernel tlb' (put_file (Machine.kernel w) a s file f) w) /\
    Machine.mem_ok (Machine.machine (put_kernel tlb' (put_file (Machine.kernel w) a s file f) w)) /\
    vm_inv None (put_file (Machine.kernel w) a s file f) (Machine.pageTables w).
Proof.
  intros Hvm Hm Hp Hmap Ht. pose proof (vi_spaces _ _ _ Hvm) as Hsp. pose proof (mp_space _ _ _ _ _ _ _ _ Hmap) as Hs.
  unfold write_back.
  rewrite (bind_M_Ok _ _ _ _ _ (getAddrSpaceOfThread_ok w t a Hsp (mp_addr _ _ _ _ _ _ _ _ Hmap))).
  rewrite (bind_M_Ok _ _ _ _ _ (the_space_ok w a s Hs)). rewrite (bind_M_Ok _ _ _ _ _ (frame_bytes_ok w p Hm Hp)).
  set (bs := slice _ _ _). unfold file_call, kget, kset, get_state.
  pose proof (exe_write_ok (files (Machine.kernel w)) (exeFileId <$> spaces (Machine.kernel w)) a (exeFileId s) bs PageSize (file_position v)
    (so_files _ _ Hsp)) as Hw.
  specialize (Hw ltac:(by rewrite lookup_fmap, Hs) ltac:(unfold PageSize; lia)).
  specialize (Hw ltac:(unfold bs; rewrite slice_length; pose proof (Machine.mo_len _ Hm); unfold PhysicalMemorySize, NumPhysPages, PageSize in *; lia)).
  specialize (Hw ltac:(apply Forall_slice, (Machine.mo_bytes _ Hm)) (file_position_nonneg v)).
  destruct (exe_WriteAt (exeFileId s) bs PageSize (file_position v) (files (Machine.kernel w))) as [[[n file] f]| | | |] eqn:Ew; try done.
  2: { left. unfold mbind, M_bind. by rewrite Ew. }
  right. destruct Hw as [Hok _].
  destruct (invalid_mem_ok (Machine.machine w) v t Hm) as (tlb' & Et & Hm').
  { unfold TLB.is_page, is_u32, THREAD_COUNT_MAX in *. lia. }
  exists n, file, f, tlb'. split; [done|]. split; [done|]. split.
  - unfold mbind, M_bind. rewrite Ew. cbn. rewrite Et. done.
  - split; [exact Hm'|]. by apply put_file_inv.
Qed.

Lemma Test_in_use k p : phys_ok k -> in_use k p -> Bitmap.Test (phyMemoryMap (phyMemManager k)) p = Ok true.
Proof.
  intros Hph [Hr Hb]. rewrite Bitmap.Test_spec; [by rewrite Hb|apply Hph|]. by rewrite (po_bits _ Hph).
Qed.

Lemma owner_ok k p t v : phys_ok k -> in_use k p -> owner k p = Some (MkPhyPage t v) ->
  getMainThread (phyMemManager k) p = Ok t /\ getVirtualPage (phyMemManager k) p = Ok v.
Proof.
  intros Hph Hu Ho. unfold getMainThread, getVirtualPage. rewrite (Test_in_use _ _ Hph Hu). cbn [mbind res_bind].
  by rewrite (aget_Some _ _ _ (proj1 (proj1 Hu)) Ho).
Qed.

Lemma space_addr_range k pts t a : spaces_ok k pts -> space_addr k t = Some a -> 0 <= t < THREAD_COUNT_MAX.
Proof. intros Hs. unfold space_addr. case_decide; [|done]. by rewrite <- (so_max _ _ Hs). Qed.

(** Eviction, when every frame is in use: the least recently loaded frame is taken. *)
Lemma evict_ok (w : W) : vm_ok w -> Machine.mem_ok (Machine.machine w) ->
  (forall p, 0 <= p < NumPhysPages -> in_use (Machine.kernel w) p) ->
  exists p t v e, 0 <= p < NumPhysPages /\ least_time (lastUsedTimeTable (swappingStrategy (phyMemManager (Machine.kernel w)))) p /\
    owner (Machine.kernel w) p = Some (MkPhyPage t v) /\ pte (Machine.kernel w) (Machine.pageTables w) t v = Some e /\
    Machine.valid e = true /\ Machine.physicalPage e = p /\
    ((Machine.dirty e = true /\ evict w = AssertFail) \/
     exists w', evict w = Ok (p, w') /\ evicted w w' p t v e /\ vm_inv (Some p) (Machine.kernel w') (Machine.pageTables w')).
Proof.
  intros Hvm Hm Hall. pose proof (vi_phys _ _ _ Hvm) as Hph.
  destruct (findOneElementToSwap_spec (swappingStrategy (phyMemManager (Machine.kernel w)))) as (p & Ep & Hp & Hleast).
  { rewrite (po_size _ Hph). unfold NumPhysPages. lia. }
  { rewrite (po_size _ Hph). apply Hph. }
  rewrite (po_size _ Hph) in Hp. pose proof (Hall p Hp) as Hu.
  destruct (vi_frame _ _ _ Hvm p Hu ltac:(done)) as (t & v & e & Ho & He & Hv & Hpp).
  exists p, t, v, e. do 6 (split; [done|]).
  destruct (pte_maps _ _ _ _ _ He) as (a & s & table & Hmap). pose proof (vi_spaces _ _ _ Hvm) as Hsp.
  pose proof (space_addr_range _ _ _ _ Hsp (mp_addr _ _ _ _ _ _ _ _ Hmap)) as Ht.
  destruct (owner_ok _ _ _ _ Hph Hu Ho) as [Egm Egv].
  unfold evict. rewrite (bind_M_Ok kget _ w w (Machine.kernel w)) by done.
  unfold swapOnePage. rewrite Ep, bind_lift_Ok, Egm, bind_lift_Ok, Egv, bind_lift_Ok.
  rewrite (bind_M_Ok _ _ _ _ _ (getAddrSpaceOfThread_ok w t a Hsp (mp_addr _ _ _ _ _ _ _ _ Hmap))).
  rewrite (bind_M_Ok _ _ _ _ _ (the_space_ok w a s (mp_space _ _ _ _ _ _ _ _ Hmap))).
  rewrite (bind_M_Ok _ _ _ _ _ (entry_ok w _ _ _ _ _ _ Hmap)).
  destruct (Machine.dirty e) eqn:Hd.
  - destruct (write_back_ok w p t v a s table e Hvm Hm Hp Hmap Ht) as [Hf|(n & file & f & tlb' & Ew & Et & Ewb & Hm' & Hvm')].
    { left. split; [done|]. by apply bind_M_AssertFail. }
    right. cbv iota. set (w1 := put_kernel tlb' (put_file (Machine.kernel w) a s file f) w) in *.
    cbv iota. rewrite (bind_M_Ok _ _ _ _ _ Ewb).
    set (s' := MkSpace (pageTable s) (threadId s) (numPages s) file).
    assert (maps (Machine.kernel w1) (Machine.pageTables w1) t v a s' table e) as Hmap'.
    { destruct Hmap. constructor; try done. cbn. by rewrite lookup_insert_eq. }
    rewrite (bind_M_Ok _ _ _ _ _ (entry_ok w1 _ _ _ _ _ _ Hmap')).
    rewrite (bind_M_Ok _ _ _ _ _ (set_entry_ok w1 _ _ _ _ _ _ (set_valid false e) Hmap')).
    eexists. split; [reflexivity|]. split.
    + exists a, s, table, (put_file (Machine.kernel w) a s file f), tlb'. split; [done|]. split; [done|]. split; [exact Hm'|].
      rewrite Hd. split; [done|]. by exists n, file, f.
    + apply (release_frame _ _ p t v a s' table e Hvm'); [exact Hu|exact Hmap'|done|done].
  - right. rewrite bind_ret_Ok. rewrite (bind_M_Ok _ _ _ _ _ (entry_ok w _ _ _ _ _ _ Hmap)).
    rewrite (bind_M_Ok _ _ _ _ _ (set_entry_ok w _ _ _ _ _ _ (set_valid false e) Hmap)).
    eexists. split; [reflexivity|]. split.
    + exists a, s, table, (Machine.kernel w), (Machine.tlbManager (Machine.machine w)).
      split; [by destruct w as [[] ? ? ? ?]|]. split; [done|]. split; [done|]. by rewrite Hd.
    + by apply (release_frame _ _ p t v a s table e).
Qed.

(** * The frame is given to the page *)

Lemma phys_step (w : W) f p' : f (phyMemManager (Machine.kernel w)) = Ok p' ->
  phys_ f w = Ok (tt, set_kernel (with_phys p' (Machine.kernel w)) w).
Proof. intros E. unfold phys_, kget. unfold mbind, M_bind. by rewrite E. Qed.

Lemma set_page_ok k p f o : phys_ok k -> in_use k p -> owner k p = Some o ->
  set_page (phyMemManager k) p f = Ok (MkPhy (phyPageNums (phyMemManager k)) (phyMemoryMap (phyMemManager k))
    (<[Z.to_nat p := f o]> (phyMemPageTable (phyMemManager k))) (swappingStrategy (phyMemManager k))).
Proof.
  intros Hph Hu Ho. unfold set_page. rewrite (Test_in_use _ _ Hph Hu). cbn [mbind res_bind].
  rewrite (aget_Some _ _ _ (proj1 (proj1 Hu)) Ho). cbn [mbind res_bind]. rewrite aset_in; [done|]. rewrite (po_table _ Hph). apply Hu.
Qed.

(** The three calls that record the new page of the frame. *)
Definition assigned k (p t v : Z) : K :=
  with_phys (MkPhy (phyPageNums (phyMemManager k)) (phyMemoryMap (phyMemManager k))
    (<[Z.to_nat p := MkPhyPage t v]> (phyMemPageTable (phyMemManager k)))
    (MkLRU (<[Z.to_nat p := totalTicks k]> (lastUsedTimeTable (swappingStrategy (phyMemManager k)))) (tableSize (swappingStrategy (phyMemManager k))))) k.

Lemma assign_ok {A} (w : W) p t v (rest : M W A) : phys_ok (Machine.kernel w) -> in_use (Machine.kernel w) p ->
  (_ ← phys_ (fun m => setVirtualPage m p v);
   _ ← phys_ (fun m => setMainThreadId m p t);
   k ← kget;
   _ ← phys_ (fun m => updatePageWeight m p (totalTicks k)); rest) w
  = rest (set_kernel (assigned (Machine.kernel w) p t v) w).
Proof.
  intros Hph Hu. destruct (lookup_lt_is_Some_2 (phyMemPageTable (phyMemManager (Machine.kernel w))) (Z.to_nat p)) as [o Ho].
  { pose proof (po_table _ Hph). destruct Hu. lia. }
  rewrite (bind_M_Ok _ _ _ _ _ (phys_step w _ _ (set_page_ok _ p _ o Hph Hu Ho))).
  set (w1 := set_kernel _ w).
  assert (phys_ok (Machine.kernel w1)) as Hph1 by (destruct Hph; constructor; cbn; try done; by rewrite length_insert).
  assert (owner (Machine.kernel w1) p = Some (MkPhyPage (mainThreadId o) v)) as Ho1.
  { unfold owner. cbn. apply list_lookup_insert_eq. apply lookup_lt_Some in Ho. done. }
  rewrite (bind_M_Ok _ _ _ _ _ (phys_step w1 _ _ (set_page_ok _ p _ _ Hph1 Hu Ho1))).
  set (w2 := set_kernel _ w1). rewrite (bind_M_Ok kget _ w2 w2 (Machine.kernel w2)) by done.
  assert (updatePageWeight (phyMemManager (Machine.kernel w2)) p (totalTicks (Machine.kernel w2)) =
    Ok (phyMemManager (assigned (Machine.kernel w) p t v))) as E.
  { unfold updatePageWeight. assert (phys_ok (Machine.kernel w2)) as Hph2 by (destruct Hph1; constructor; cbn in *; try done; by rewrite length_insert).
    rewrite (Test_in_use _ _ Hph2 Hu). cbn [mbind res_bind]. unfold updateElementWeight. rewrite aset_in.
    - cbn. by rewrite list_insert_insert_eq.
    - rewrite (po_lru _ Hph2). apply Hu. }
  rewrite (bind_M_Ok _ _ _ _ _ (phys_step w2 _ _ E)). reflexivity.
Qed.

Lemma assigned_ok k p t v : phys_ok k -> in_use k p ->
  phys_ok (assigned k p t v) /\ same_views k (assigned k p t v) /\
  phyMemoryMap (phyMemManager (assigned k p t v)) = phyMemoryMap (phyMemManager k) /\
  forall q, 0 <= q -> owner (assigned k p t v) q = if decide (q = p) then Some (MkPhyPage t v) else owner k q.
Proof.
  intros Hph [Hr Hb]. split; [destruct Hph; constructor; cbn; try done; by rewrite length_insert|].
  split; [done|]. split; [done|]. intros q Hq. unfold owner, assigned. cbn. case_decide as Hd.
  - subst q. apply list_lookup_insert_eq. pose proof (po_table _ Hph). lia.
  - apply list_lookup_insert_ne. lia.
Qed.

(** The bytes the handler reads into the frame of page [v]. *)
Definition page_bytes (content : list Z) (v : Z) : list Z :=
  snd (OpenFile.read_result content (Z.of_nat (length content)) PageSize (file_position v)).

Lemma page_bytes_ok content v : Forall is_byte content -> Forall is_byte (page_bytes content v) /\ Z.of_nat (length (page_bytes content v)) <= PageSize.
Proof.
  intros Hb. unfold page_bytes, OpenFile.read_result. destruct (_ || _); cbn [snd]; [split; [constructor|unfold PageSize; cbn; lia]|].
  split; [by apply Forall_slice|]. rewrite slice_length. unfold PageSize. lia.
Qed.

Lemma fill_frame_ok (w : W) p bs : Machine.mem_ok (Machine.machine w) -> 0 <= p < NumPhysPages -> Forall is_byte bs -> Z.of_nat (length bs) <= PageSize ->
  let mem := splice (Z.to_nat (p * PageSize)) bs (Machine.mainMemory (Machine.machine w)) in
  fill_frame p bs w = Ok (tt, Machine.set_memory mem w) /\ Machine.mem_ok (Machine.machine (Machine.set_memory mem w)).
Proof.
  intros Hm Hp Hb Hl mem. pose proof (Machine.mo_len _ Hm) as Hlen.
  assert (0 <= p * PageSize /\ p * PageSize + Z.of_nat (length bs) <= Z.of_nat (length (Machine.mainMemory (Machine.machine w)))) as Hr.
  { unfold PhysicalMemorySize, NumPhysPages, PageSize in *. lia. }
  split.
  - unfold fill_frame, get_state. unfold mbind, M_bind. by rewrite decide_True.
  - apply Machine.mem_ok_memory; [done|apply splice_length; lia|]. unfold mem, splice.
    apply Forall_app_2; [apply Forall_take, (Machine.mo_bytes _ Hm)|]. apply Forall_app_2; [done|]. apply Forall_drop, (Machine.mo_bytes _ Hm).
Qed.

(** * The page fault handler *)

Lemma put_kernel_machine t k (w : W) : Machine.machine (put_kernel t k w) =
  Machine.MkMachine (Machine.registers (Machine.machine w)) (Machine.mainMemory (Machine.machine w)) t (Machine.pageTable (Machine.machine w)) (Machine.pageTableSize (Machine.machine w)).
Proof. done. Qed.

(** What a victim's eviction leaves of the rest of the world. *)
Lemma evicted_views (w w1 : W) p t v e : spaces_ok (Machine.kernel w) (Machine.pageTables w) -> evicted w w1 p t v e ->
  (forall t' v', pte (Machine.kernel w1) (Machine.pageTables w1) t' v' =
     if decide (t' = t /\ v' = v) then Some (set_valid false e) else pte (Machine.kernel w) (Machine.pageTables w) t' v') /\
  phyMemManager (Machine.kernel w1) = phyMemManager (Machine.kernel w) /\
  (current_ok w -> current_ok w1) /\
  (exists tlb, Machine.machine w1 = Machine.machine (Machine.set_tlb tlb w)) /\
  Machine.status w1 = Machine.status w /\ Machine.currentPid w1 = Machine.currentPid w /\ space (Machine.kernel w1) = space (Machine.kernel w).
Proof.
  intros Hsp (a & s & table & k' & tlb' & -> & Hmap & _ & Hcase). cbn [Machine.kernel Machine.pageTables Machine.set_tables put_kernel Machine.set_tlb Machine.set_machine set_kernel Machine.status Machine.currentPid].
  destruct (pte_put _ _ t v a s table e (set_valid false e) Hsp Hmap) as (_ & _ & Hpte).
  pose proof (mp_space _ _ _ _ _ _ _ _ Hmap) as Hs.
  destruct (Machine.dirty e).
  - destruct Hcase as (_ & n & file & f & _ & ->). split; [intros; by rewrite put_file_pte|].
    split; [done|]. split; [|split; [by exists tlb'|done]].
    intros (s0 & Ha & Hs0 & Hp & Hn). unfold current_ok.
    cbn [Machine.kernel Machine.pageTables Machine.set_tables put_kernel Machine.set_tlb Machine.set_machine set_kernel Machine.machine Machine.pageTable Machine.pageTableSize Machine.currentPid].
    change (space (put_file (Machine.kernel w) a s file f)) with (space (Machine.kernel w)).
    destruct (decide (space (Machine.kernel w) = a)) as [Heq|Hne].
    + eexists. split; [exact Ha|]. split; [rewrite Heq; cbn; by rewrite lookup_insert_eq|]. cbn. rewrite Heq, Hs in Hs0. injection Hs0 as ->. done.
    + exists s0. split; [exact Ha|]. split; [cbn; by rewrite lookup_insert_ne|]. done.
  - destruct Hcase as [-> ->]. split; [done|]. split; [done|]. split; [|split; [by eexists|done]]. intros (s0 & H). by exists s0.
Qed.

(** The frame the handler takes: the first free one, or the victim's. *)
Definition chosen (w w1 : W) (p : Z) : Prop :=
  0 <= p < NumPhysPages /\
  ((~ in_use (Machine.kernel w) p /\ (forall j, 0 <= j < p -> in_use (Machine.kernel w) j) /\
    exists phys, findOneEmptyPage (phyMemManager (Machine.kernel w)) = Ok (p, phys) /\ w1 = set_kernel (with_phys phys (Machine.kernel w)) w) \/
   ((forall j, 0 <= j < NumPhysPages -> in_use (Machine.kernel w) j) /\
    least_time (lastUsedTimeTable (swappingStrategy (phyMemManager (Machine.kernel w)))) p /\
    exists t v e, owner (Machine.kernel w) p = Some (MkPhyPage t v) /\ pte (Machine.kernel w) (Machine.pageTables w) t v = Some e /\
      Machine.valid e = true /\ Machine.physicalPage e = p /\ evicted w w1 p t v e)).

(** The page mapped in the frame. *)
Definition loaded (e : Machine.TranslationEntry) (p : Z) : Machine.TranslationEntry :=
  Machine.MkEntry (Machine.virtualPage e) p true (Machine.readOnly e) (Machine.use e) (Machine.dirty e).

(** From the world [w1] in which the frame was taken: the frame's owner and time, the page's
    entry and the frame's bytes, and nothing else. *)
Definition loaded_world (w1 w' : W) (p vpn : Z) (e : Machine.TranslationEntry) : Prop :=
  exists s table f,
    maps (Machine.kernel w1) (Machine.pageTables w1) (Machine.currentPid w1) vpn (space (Machine.kernel w1)) s table e /\
    exe_ReadAt (exeFileId s) PageSize (file_position vpn) (files (Machine.kernel w1)) =
      Ok (OpenFile.read_result (exe_bytes (files (Machine.kernel w1)) (exeFileId s)) (Z.of_nat (length (exe_bytes (files (Machine.kernel w1)) (exeFileId s)))) PageSize (file_position vpn), f) /\
    w' = Machine.set_memory (splice (Z.to_nat (p * PageSize)) (page_bytes (exe_bytes (files (Machine.kernel w1)) (exeFileId s)) vpn) (Machine.mainMemory (Machine.machine w1)))
      (set_kernel (with_files f (assigned (Machine.kernel w1) p (Machine.currentPid w1) vpn))
        (Machine.set_tables (put_entry (Machine.pageTables w1) s table vpn (loaded e p)) w1)).

Lemma files_inv hole k pts f : vm_inv hole k pts -> exe_ok f (exeFileId <$> spaces k) -> vm_inv hole (with_files f k) pts.
Proof.
  intros [Hph [H1 H2 H3 H4 H5] Hen Hfr Hho] Hf. constructor; try done. by apply (phys_ok_same k).
Qed.

Lemma put_put pts (s : AddrSpace File) table v e e' :
  put_entry (put_entry pts s table v e) s (<[Z.to_nat v := e]> table) v e' = put_entry pts s table v e'.
Proof. unfold put_entry. by rewrite insert_insert_eq, list_insert_insert_eq. Qed.

(** The second half of the handler, the frame being taken. *)
Lemma load_page_ok (w1 : W) p vpn a s table e : vm_inv (Some p) (Machine.kernel w1) (Machine.pageTables w1) ->
  Machine.mem_ok (Machine.machine w1) -> current_ok w1 ->
  maps (Machine.kernel w1) (Machine.pageTables w1) (Machine.currentPid w1) vpn a s table e -> Machine.valid e = false ->
  exists w', (_ ← phys_ (fun m => setVirtualPage m p vpn);
    _ ← phys_ (fun m => setMainThreadId m p (Machine.currentPid w1));
    k ← kget;
    _ ← phys_ (fun m => updatePageWeight m p (totalTicks k));
    e ← entry (pageTable s) vpn;
    _ ← set_entry (pageTable s) vpn (set_valid true e);
    e ← entry (pageTable s) vpn;
    _ ← set_entry (pageTable s) vpn (Machine.MkEntry (Machine.virtualPage e) p (Machine.valid e) (Machine.readOnly e) (Machine.use e) (Machine.dirty e));
    k ← kget;
    current ← the_space (space k);
    '(_, bs) ← file_call (exe_ReadAt (exeFileId current) PageSize (file_position vpn));
    fill_frame p bs) w1 = Ok (tt, w') /\ loaded_world w1 w' p vpn e /\
    vm_ok w' /\ Machine.mem_ok (Machine.machine w') /\ current_ok w'.
Proof.
  intros Hinv Hm Hcur Hmap Hv. pose proof (vi_hole _ _ _ Hinv p eq_refl) as Hu. pose proof (vi_phys _ _ _ Hinv) as Hph.
  pose proof (vi_spaces _ _ _ Hinv) as Hsp.
  destruct Hcur as (s0 & Ha & Hs0 & Hpt & Hnp). assert (space (Machine.kernel w1) = a) as Hsa by (pose proof (mp_addr _ _ _ _ _ _ _ _ Hmap); congruence).
  assert (s0 = s) as -> by (pose proof (mp_space _ _ _ _ _ _ _ _ Hmap); congruence). rewrite Hsa in *.
  rewrite (assign_ok w1 p _ vpn _ Hph Hu). set (cur := Machine.currentPid w1) in *.
  set (w2 := set_kernel _ w1). destruct (assigned_ok (Machine.kernel w1) p cur vpn Hph Hu) as (Hph2 & Hsame2 & Hmap2 & How2).
  assert (maps (Machine.kernel w2) (Machine.pageTables w2) cur vpn a s table e) as Hm2 by (destruct Hmap; by constructor).
  rewrite (bind_M_Ok _ _ _ _ _ (entry_ok w2 _ _ _ _ _ _ Hm2)).
  rewrite (bind_M_Ok _ _ _ _ _ (set_entry_ok w2 _ _ _ _ _ _ (set_valid true e) Hm2)). set (w3 := Machine.set_tables _ w2).
  assert (spaces_ok (Machine.kernel w2) (Machine.pageTables w2)) as Hsp2 by (by eapply spaces_ok_same).
  destruct (pte_put _ _ cur vpn a s table e (set_valid true e) Hsp2 Hm2) as (Hsp3 & Hm3 & _).
  assert (maps (Machine.kernel w3) (Machine.pageTables w3) cur vpn a s (<[Z.to_nat vpn := set_valid true e]> table) (set_valid true e)) as Hm3' by exact Hm3.
  rewrite (bind_M_Ok _ _ _ _ _ (entry_ok w3 _ _ _ _ _ _ Hm3')).
  rewrite (bind_M_Ok _ _ _ _ _ (set_entry_ok w3 _ _ _ _ _ _ (loaded e p) Hm3')). cbv beta.
  set (w4 := Machine.set_tables _ w3). rewrite (bind_M_Ok kget _ w4 w4 (Machine.kernel w4)) by done.
  assert (space (Machine.kernel w4) = a) as -> by exact Hsa.
  assert (spaces (Machine.kernel w4) !! a = Some s) as Hs4 by exact Hs0. rewrite (bind_M_Ok _ _ _ _ _ (the_space_ok w4 a s Hs4)).
  destruct (exe_read_ok (files (Machine.kernel w1)) (exeFileId <$> spaces (Machine.kernel w1)) a (exeFileId s) PageSize (file_position vpn)
    (so_files _ _ Hsp)) as (f & Er & Hf & _); [by rewrite lookup_fmap, Hs0|unfold PageSize; lia|apply file_position_nonneg|].
  set (content := exe_bytes (files (Machine.kernel w1)) (exeFileId s)) in *.
  assert (file_call (exe_ReadAt (exeFileId s) PageSize (file_position vpn)) w4 =
    Ok (OpenFile.read_result content (Z.of_nat (length content)) PageSize (file_position vpn), set_kernel (with_files f (Machine.kernel w4)) w4)) as Efc.
  { unfold file_call. rewrite (bind_M_Ok kget _ w4 w4 (Machine.kernel w4)) by done.
    change (files (Machine.kernel w4)) with (files (Machine.kernel w1)). rewrite Er. done. }
  rewrite (bind_M_Ok _ _ _ _ _ Efc). set (w5 := set_kernel _ w4).
  assert (Forall is_byte content) as Hcb. { apply (exe_bytes_byte _ _ a _ (so_files _ _ Hsp)). by rewrite lookup_fmap, Hs0. }
  destruct (page_bytes_ok content vpn Hcb) as [Hbb Hbl].
  assert (Machine.mem_ok (Machine.machine w5)) as Hm5 by exact Hm.
  destruct (fill_frame_ok w5 p (page_bytes content vpn) Hm5 (proj1 Hu) Hbb Hbl) as [Ef Hm6].
  exists (Machine.set_memory (splice (Z.to_nat (p * PageSize)) (page_bytes content vpn) (Machine.mainMemory (Machine.machine w5))) w5).
  split; [unfold page_bytes in Ef |- *; destruct (OpenFile.read_result _ _ _ _) as [n bs]; exact Ef|].
  assert (put_entry (put_entry (Machine.pageTables w1) s table vpn (set_valid true e)) s (<[Z.to_nat vpn:=set_valid true e]> table) vpn (loaded e p)
    = put_entry (Machine.pageTables w1) s table vpn (loaded e p)) as Hpp by apply put_put.
  split; [|split; [|split; [exact Hm6|]]].
  - exists s, table, f. split; [by rewrite Hsa|]. split; [exact Er|].
    unfold w5, w4. cbn [Machine.set_tables Machine.pageTables w3 w2 set_kernel]. rewrite Hpp. reflexivity.
  - unfold vm_ok. cbn -[put_entry assigned with_files]. rewrite Hpp. apply files_inv; [|exact Hf].
    apply (claim_frame (Machine.kernel w1) (assigned (Machine.kernel w1) p cur vpn) _ p cur vpn a s table e (loaded e p)); done.
  - exists s. split; [exact (eq_trans Ha (f_equal Some (eq_sym Hsa)))|]. split; [cbn; by rewrite Hsa|]. split; [exact Hpt|exact Hnp].
Qed.

(** The page that would lose its frame is dirty. *)
Definition dirty_victim (w : W) : Prop :=
  (forall j, 0 <= j < NumPhysPages -> in_use (Machine.kernel w) j) /\
  exists p t v e, 0 <= p < NumPhysPages /\ least_time (lastUsedTimeTable (swappingStrategy (phyMemManager (Machine.kernel w)))) p /\
    owner (Machine.kernel w) p = Some (MkPhyPage t v) /\ pte (Machine.kernel w) (Machine.pageTables w) t v = Some e /\ Machine.dirty e = true.

Lemma page_fault_ok (w : W) vpn e : vm_ok w -> Machine.mem_ok (Machine.machine w) -> current_ok w ->
  pte (Machine.kernel w) (Machine.pageTables w) (Machine.currentPid w) vpn = Some e -> Machine.valid e = false ->
  (pageFaultHandler vpn w = AssertFail /\ dirty_victim w) \/
  exists p w1 w', pageFaultHandler vpn w = Ok (tt, w') /\ chosen w w1 p /\ vm_inv (Some p) (Machine.kernel w1) (Machine.pageTables w1) /\
    loaded_world w1 w' p vpn e /\
    vm_ok w' /\ Machine.mem_ok (Machine.machine w') /\ current_ok w'.
Proof.
  intros Hvm Hm Hcur He Hv. destruct (pte_maps _ _ _ _ _ He) as (a & s & table & Hmap). pose proof (vi_spaces _ _ _ Hvm) as Hsp.
  unfold pageFaultHandler. rewrite (bind_M_Ok get_state _ w w w) by done.
  rewrite (bind_M_Ok _ _ _ _ _ (getAddrSpaceOfThread_ok w _ a Hsp (mp_addr _ _ _ _ _ _ _ _ Hmap))).
  rewrite (bind_M_Ok _ _ _ _ _ (the_space_ok w a s (mp_space _ _ _ _ _ _ _ _ Hmap))).
  rewrite (bind_M_Ok _ _ _ _ _ (entry_ok w _ _ _ _ _ _ Hmap)). rewrite Hv.
  destruct (take_frame _ _ Hvm) as [(p0 & Efind & _ & Hall)|(p & phys & Efind & Hp & Hfree & Hlow & Hinv)].
  - assert (VM.phys findOneEmptyPage w = Ok (-1, w)) as Ep.
    { unfold VM.phys. rewrite (bind_M_Ok kget _ w w (Machine.kernel w)) by done. rewrite Efind. destruct w as [? ? ? ? []]. done. }
    rewrite (bind_M_Ok _ _ _ _ _ Ep). cbn [Z.eqb Pos.eqb].
    destruct (evict_ok w Hvm Hm Hall) as (p & t & v & ev & Hp & Hleast & Ho & Hev & Hvv & Hpp & [[Hd Ee]|(w1 & Ee & Hev1 & Hinv)]).
    { left. split; [by apply bind_M_AssertFail|]. split; [done|]. by exists p, t, v, ev. }
    right. rewrite (bind_M_Ok _ _ _ _ _ Ee).
    destruct (evicted_views w w1 p t v ev Hsp Hev1) as (Hpte & Hphys & Hcur1 & (tlb & Hmach) & _ & Hpid & Hspace).
    assert (pte (Machine.kernel w1) (Machine.pageTables w1) (Machine.currentPid w1) vpn = Some e) as He1.
    { rewrite Hpte, Hpid. rewrite decide_False; [done|]. intros [Ht Hvp]. rewrite Ht, Hvp in He. congruence. }
    destruct (pte_maps _ _ _ _ _ He1) as (a1 & s1 & table1 & Hmap1).
    assert (pageTable s = pageTable s1) as Hps.
    { pose proof (Hcur1 Hcur) as (sd & Hda & Hds & Hdp & _). destruct Hcur as (sc & Hca & Hcs & Hcp & _).
      assert (sc = s) as -> by (destruct Hmap; congruence). assert (sd = s1) as -> by (destruct Hmap1; congruence).
      rewrite Hmach in Hdp. cbn in Hdp. congruence. }
    assert (Machine.mem_ok (Machine.machine w1)) as Hm1 by (by destruct Hev1 as (? & ? & ? & ? & ? & _ & _ & H & _)).
    destruct (load_page_ok w1 p vpn a1 s1 table1 e Hinv Hm1 (Hcur1 Hcur) Hmap1 Hv) as (w' & E & Hl & H). rewrite Hps, <- Hpid.
    exists p, w1, w'. split; [exact E|]. split; [|done]. split; [done|]. right. split; [done|]. split; [done|]. by exists t, v, ev.
  - right. set (w1 := set_kernel (with_phys phys (Machine.kernel w)) w).
    assert (VM.phys findOneEmptyPage w = Ok (p, w1)) as Ep.
    { unfold VM.phys. rewrite (bind_M_Ok kget _ w w (Machine.kernel w)) by done. rewrite Efind. done. }
    rewrite (bind_M_Ok _ _ _ _ _ Ep). rewrite (proj2 (Z.eqb_neq _ _)) by lia. rewrite bind_ret_Ok.
    assert (maps (Machine.kernel w1) (Machine.pageTables w1) (Machine.currentPid w1) vpn a s table e) as Hmap1 by (destruct Hmap; by constructor).
    destruct (load_page_ok w1 p vpn a s table e Hinv Hm Hcur Hmap1 Hv) as (w' & E & Hl & H).
    exists p, w1, w'. split; [exact E|]. split; [|done]. split; [done|]. left. split; [done|]. split; [done|]. by exists phys.
Qed.

(** * The handler's effect, seen from the pages *)

Lemma loaded_pte (w1 w' : W) p vpn e : spaces_ok (Machine.kernel w1) (Machine.pageTables w1) -> loaded_world w1 w' p vpn e ->
  forall t v, pte (Machine.kernel w') (Machine.pageTables w') t v =
    if decide (t = Machine.currentPid w1 /\ v = vpn) then Some (loaded e p) else pte (Machine.kernel w1) (Machine.pageTables w1) t v.
Proof.
  intros Hsp (s & table & f & Hmap & _ & ->) t v.
  destruct (pte_put _ _ _ _ _ _ _ _ (loaded e p) Hsp Hmap) as (_ & _ & H). exact (H t v).
Qed.

Lemma chosen_rest (w w1 : W) p : spaces_ok (Machine.kernel w) (Machine.pageTables w) -> chosen w w1 p ->
  Machine.currentPid w1 = Machine.currentPid w /\ Machine.status w1 = Machine.status w /\
  exists tlb, Machine.machine w1 = Machine.machine (Machine.set_tlb tlb w).
Proof.
  intros Hsp (_ & [(_ & _ & phys & _ & ->)|(_ & _ & t & v & e & _ & _ & _ & _ & Hev)]).
  - split; [done|]. split; [done|]. exists (Machine.tlbManager (Machine.machine w)). by destruct w as [[] ? ? ? ?].
  - destruct (evicted_views w w1 p t v e Hsp Hev) as (_ & _ & _ & Hm & Hst & Hpid & _). done.
Qed.

Lemma loaded_memory (w w1 w' : W) p vpn e : spaces_ok (Machine.kernel w) (Machine.pageTables w) -> chosen w w1 p -> loaded_world w1 w' p vpn e ->
  exists s, spaces (Machine.kernel w1) !! space (Machine.kernel w1) = Some s /\ Machine.mainMemory (Machine.machine w') =
    splice (Z.to_nat (p * PageSize)) (page_bytes (exe_bytes (files (Machine.kernel w1)) (exeFileId s)) vpn) (Machine.mainMemory (Machine.machine w)).
Proof.
  intros Hsp Hch (s & table & f & Hmap & _ & ->). destruct (chosen_rest w w1 p Hsp Hch) as (_ & _ & tlb & Hm).
  exists s. split; [by destruct Hmap|]. cbn -[put_entry assigned with_files splice page_bytes]. rewrite Hm. reflexivity.
Qed.

(** A frame has one page. *)
Lemma frame_unique hole k pts t v e t' v' e' : vm_inv hole k pts -> pte k pts t v = Some e -> pte k pts t' v' = Some e' ->
  Machine.valid e = true -> Machine.valid e' = true -> Machine.physicalPage e = Machine.physicalPage e' -> t = t' /\ v = v'.
Proof.
  intros Hi He He' Hv Hv' Hp. destruct (vi_entry _ _ _ Hi _ _ _ He) as [_ H]. destruct (vi_entry _ _ _ Hi _ _ _ He') as [_ H'].
  destruct (H Hv) as (_ & Ho & _). destruct (H' Hv') as (_ & Ho' & _). rewrite <- Hp, Ho in Ho'. by injection Ho'.
Qed.

Lemma chosen_pte (w w1 : W) p t v : vm_ok w -> chosen w w1 p ->
  pte (Machine.kernel w1) (Machine.pageTables w1) t v =
    match pte (Machine.kernel w) (Machine.pageTables w) t v with
    | Some x => if Machine.valid x && (Machine.physicalPage x =? p) then Some (set_valid false x) else Some x
    | None => None
    end.
Proof.
  intros Hvm (Hp & [(Hfree & _ & phys & _ & ->)|(_ & _ & t0 & v0 & e & Ho & He & Hv & Hpp & Hev)]).
  - change (pte (Machine.kernel (set_kernel (with_phys phys (Machine.kernel w)) w)) (Machine.pageTables (set_kernel (with_phys phys (Machine.kernel w)) w)) t v)
      with (pte (Machine.kernel w) (Machine.pageTables w) t v).
    destruct (pte (Machine.kernel w) (Machine.pageTables w) t v) as [x|] eqn:E; [|done].
    destruct (Machine.valid x) eqn:Hx; [|done]. destruct (Z.eqb_spec (Machine.physicalPage x) p) as [Heq|]; [|done]. exfalso.
    apply Hfree. rewrite <- Heq. destruct (vi_entry _ _ _ Hvm _ _ _ E) as [_ H]. by apply H.
  - destruct (evicted_views w w1 p t0 v0 e (vi_spaces _ _ _ Hvm) Hev) as (-> & _). case_decide as Hd.
    + destruct Hd as [-> ->]. rewrite He, Hv, Hpp, Z.eqb_refl. done.
    + destruct (pte (Machine.kernel w) (Machine.pageTables w) t v) as [x|] eqn:E; [|done].
      destruct (Machine.valid x) eqn:Hx; [|done]. destruct (Z.eqb_spec (Machine.physicalPage x) p) as [Heq|]; [|done]. exfalso.
      apply Hd. apply (frame_unique _ _ _ t v x t0 v0 e Hvm E He Hx Hv). congruence.
Qed.

Lemma least_time_unique l p q : 0 <= p -> 0 <= q -> least_time l p -> least_time l q -> p = q.
Proof.
  intros Hp Hq (m & Em & Hm) (n & En & Hn). destruct (Hm q n Hq En). destruct (Hn p m Hp Em). lia.
Qed.
End Inv.

(** * Properties *)

Section Properties.
Context {F File : Type} {EX : ExeFiles F File} {HP : Heap F}.
#[local] Notation W := (Machine.World (Kernel F File)).

(** C8. A page fault is repaired and the invariant kept: on an invalid page of the running
    thread the handler takes the first free frame or, when there is none, the frame loaded
    longest ago; afterwards the frame belongs to the page, holds the page's bytes of the
    running thread's executable, as an eviction's write-back left it (and what it held before beyond the end of the file), the evicted page is
    invalid and every other page is as it was; owners, tables and bitmap agree again.  The
    handler can fail only in an ASSERT of the write-back of a dirty page. *)
Theorem page_fault_repairs (w : W) vpn e : vm_ok w -> Machine.mem_ok (Machine.machine w) -> current_ok w ->
  pte (Machine.kernel w) (Machine.pageTables w) (Machine.currentPid w) vpn = Some e -> Machine.valid e = false ->
  (pageFaultHandler vpn w = AssertFail /\ dirty_victim w) \/
  exists p w1 w', pageFaultHandler vpn w = Ok (tt, w') /\ chosen w w1 p /\
    vm_ok w' /\ Machine.mem_ok (Machine.machine w') /\ current_ok w' /\
    (exists s, spaces (Machine.kernel w1) !! space (Machine.kernel w1) = Some s /\ Machine.mainMemory (Machine.machine w') =
       splice (Z.to_nat (p * PageSize)) (page_bytes (exe_bytes (files (Machine.kernel w1)) (exeFileId s)) vpn) (Machine.mainMemory (Machine.machine w))) /\
    forall t v, pte (Machine.kernel w') (Machine.pageTables w') t v =
      if decide (t = Machine.currentPid w /\ v = vpn) then Some (loaded e p)
      else match pte (Machine.kernel w) (Machine.pageTables w) t v with
           | Some x => if Machine.valid x && (Machine.physicalPage x =? p) then Some (set_valid false x) else Some x
           | None => None
           end.
Proof.
  intros Hvm Hm Hcur He Hv.
  destruct (page_fault_ok w vpn e Hvm Hm Hcur He Hv) as [H|(p & w1 & w' & E & Hch & Hinv & Hl & Hvm' & Hm' & Hcur')]; [by left|right].
  exists p, w1, w'. split_and!; try done.
  - eapply loaded_memory; [apply Hvm|done|done].
  - intros t v. rewrite (loaded_pte w1 w' p vpn e (vi_spaces _ _ _ Hinv) Hl).
    destruct (chosen_rest w w1 p (vi_spaces _ _ _ Hvm) Hch) as (-> & _). case_decide; [done|]. by apply chosen_pte.
Qed.

(** The translation buffer outlives an eviction: when the victim page is clean and
    cached, the handler takes its frame for the faulting page but leaves the buffer as it
    is, so the invalid page still translates, to the frame that now holds another page. *)
Theorem evicted_page_stays_cached (w : W) vpn e p t v ev o : vm_ok w -> Machine.mem_ok (Machine.machine w) -> current_ok w ->
  pte (Machine.kernel w) (Machine.pageTables w) (Machine.currentPid w) vpn = Some e -> Machine.valid e = false ->
  (forall j, 0 <= j < NumPhysPages -> in_use (Machine.kernel w) j) -> 0 <= p < NumPhysPages ->
  least_time (lastUsedTimeTable (swappingStrategy (phyMemManager (Machine.kernel w)))) p ->
  owner (Machine.kernel w) p = Some (MkPhyPage t v) -> pte (Machine.kernel w) (Machine.pageTables w) t v = Some ev ->
  Machine.dirty ev = false -> TLB.find (Machine.tlbManager (Machine.machine w)) v = Some (p, o) ->
  exists w', pageFaultHandler vpn w = Ok (tt, w') /\
    pte (Machine.kernel w') (Machine.pageTables w') t v = Some (set_valid false ev) /\
    pte (Machine.kernel w') (Machine.pageTables w') (Machine.currentPid w) vpn = Some (loaded e p) /\
    TLB.find (Machine.tlbManager (Machine.machine w')) v = Some (p, o).
Proof.
  intros Hvm Hm Hcur He Hv Hall Hp Hleast Ho Hev Hd Hf.
  destruct (page_fault_ok w vpn e Hvm Hm Hcur He Hv) as [(_ & _ & q & t' & v' & e' & Hq & Hl & Ho' & He' & Hd')|(q & w1 & w' & E & Hch & Hinv & Hl & _)].
  { assert (q = p) as -> by (apply (least_time_unique _ _ _ (proj1 Hq) (proj1 Hp) Hl Hleast)). congruence. }
  pose proof Hch as (Hq & [(Hfree & _)|(_ & Hl2 & t' & v' & e' & Ho' & He' & Hv' & Hpp & Hevd)]); [exfalso; by apply Hfree, Hall|].
  assert (q = p) as -> by (apply (least_time_unique _ _ _ (proj1 Hq) (proj1 Hp) Hl2 Hleast)).
  rewrite Ho in Ho'. injection Ho' as <- <-. rewrite Hev in He'. injection He' as <-.
  pose proof (loaded_pte w1 w' p vpn e (vi_spaces _ _ _ Hinv) Hl) as Hpte. pose proof (chosen_rest w w1 p (vi_spaces _ _ _ Hvm) Hch) as (Hpid & _).
  exists w'. split; [done|]. rewrite Hpid in Hpte. split; [|split].
  - rewrite Hpte, decide_False; [|intros [-> ->]; congruence]. rewrite (chosen_pte w w1 p t v Hvm Hch), Hev, Hv', Hpp, Z.eqb_refl. done.
  - by rewrite Hpte, decide_True.
  - destruct Hl as (s & table & f & _ & _ & ->). destruct Hevd as (a & s' & table' & k' & tlb' & -> & _ & _ & Hcase).
    rewrite Hd in Hcase. destruct Hcase as [-> _]. exact Hf.
Qed.
End Properties.
End VMInv.
