(* ===== verification/Spaces.v ===== *)
(** Spaces: creating and deleting address spaces (VM.v) keeps the invariant of virtual
    memory (VMInv.v). *)

From S2P Require Import Prelude Bitmap Mips TLB Machine SectorStore OpenFile VM VMInv.
From stdpp Require Import base numbers list gmap.
#[local] Open Scope Z_scope.

Module Spaces.
Import VM VMInv.

Section Spaces.
Context {F File : Type} {EX : ExeFiles F File} {HP : Heap F}.
#[local] Notation K := (Kernel F File).
#[local] Notation W := (Machine.World K).
Implicit Types (k : K) (w : W).

(** * Deletion *)

(** The frames of the first [i] pages of a table. *)
Definition frames_below (table : list Machine.TranslationEntry) (i p : Z) : Prop :=
  exists v e, 0 <= v < i /\ table !! Z.to_nat v = Some e /\ Machine.valid e = true /\ Machine.physicalPage e = p.

(** The bitmap [b'] is [b] without those frames. *)
Definition cleared (b b' : Bitmap.Bitmap) table (i : Z) : Prop :=
  Bitmap.wf b' /\ Bitmap.numBits b' = Bitmap.numBits b /\
  forall p, 0 <= p -> Bitmap.bit b' p = true <-> Bitmap.bit b p = true /\ ~ frames_below table i p.

Definition with_bitmap (b : Bitmap.Bitmap) k : K :=
  with_phys (MkPhy (phyPageNums (phyMemManager k)) b (phyMemPageTable (phyMemManager k)) (swappingStrategy (phyMemManager k))) k.

Lemma cleared_none b table : Bitmap.wf b -> cleared b b table 0.
Proof. intros Hb. split; [done|]. split; [done|]. intros p Hp. split; [|tauto]. intros H. split; [done|]. intros (v & e & ? & _). lia. Qed.

Lemma frames_below_succ table i p e : 0 <= i -> table !! Z.to_nat i = Some e ->
  frames_below table (i + 1) p <-> frames_below table i p \/ (Machine.valid e = true /\ Machine.physicalPage e = p).
Proof.
  intros Hi He. split.
  - intros (v & x & Hv & Hx & Hvx & Hp). destruct (decide (v = i)) as [->|Hne].
    + right. assert (x = e) as -> by congruence. done.
    + left. exists v, x. split; [lia|done].
  - intros [(v & x & Hv & H)|[Hv Hp]]; [exists v, x; split; [lia|done]|]. exists i, e. split; [lia|done].
Qed.

Lemma clear_step b b' table i e : cleared b b' table i -> 0 <= i -> table !! Z.to_nat i = Some e -> Machine.valid e = true ->
  0 <= Machine.physicalPage e < Bitmap.numBits b ->
  exists b2, Bitmap.Clear b' (Machine.physicalPage e) = Ok b2 /\ cleared b b2 table (i + 1).
Proof.
  intros (Hwf & Hn & Hb) Hi He Hv Hr. destruct (Bitmap.Clear_correct b' (Machine.physicalPage e) Hwf) as (b2 & E & Hwf2 & Hn2 & Hb2); [lia|].
  exists b2. split; [done|]. split; [done|]. split; [congruence|]. intros p Hp. rewrite Hb2, (frames_below_succ _ _ _ e) by done.
  rewrite andb_true_iff, negb_true_iff, Z.eqb_neq, Hb by done. intuition congruence.
Qed.

(** The loop of deleteAddrSpace. *)
Lemma clear_frames w t a s table : vm_ok w -> space_addr (Machine.kernel w) t = Some a -> spaces (Machine.kernel w) !! a = Some s ->
  Machine.pageTables w !! pageTable s = Some table ->
  exists b, mfor (range 0 (numPages s)) (fun i _ =>
      e ← entry (pageTable s) i;
      if Machine.valid e then phys_ (fun p => clearOnePage p (Machine.physicalPage e)) else mret tt) tt w
    = Ok (tt, set_kernel (with_bitmap b (Machine.kernel w)) w) /\
    cleared (phyMemoryMap (phyMemManager (Machine.kernel w))) b table (numPages s).
Proof.
  intros Hvm Ha Hs Ht. destruct (so_space _ _ (vi_spaces _ _ _ Hvm) t a Ha) as (s' & tb & Hs' & Ht' & Hlen).
  assert (s' = s) as -> by congruence. assert (tb = table) as -> by congruence.
  match goal with |- context [mfor _ ?b _] => set (body := b) end.
  destruct (mfor_inv (fun i _ x => exists b, x = set_kernel (with_bitmap b (Machine.kernel w)) w /\
    cleared (phyMemoryMap (phyMemManager (Machine.kernel w))) b table i) body 0 (numPages s) tt w) as ([] & w' & E & b & -> & Hc).
  - lia.
  - exists (phyMemoryMap (phyMemManager (Machine.kernel w))). split; [by destruct w as [? ? ? ? [[] ? ? ? ? ? ?]]|]. apply cleared_none, (vi_phys _ _ _ Hvm).
  - intros i [] x Hi (b & -> & Hc). destruct (lookup_lt_is_Some_2 table (Z.to_nat i)) as [e He]; [lia|].
    assert (maps (Machine.kernel w) (Machine.pageTables w) t i a s table e) as Hm by (constructor; [done..|lia|done]).
    set (x := set_kernel (with_bitmap b (Machine.kernel w)) w).
    assert (maps (Machine.kernel x) (Machine.pageTables x) t i a s table e) as Hmx by (destruct Hm; by constructor).
    unfold body. rewrite (bind_M_Ok _ _ _ _ _ (entry_ok x _ _ _ _ _ _ Hmx)).
    destruct (Machine.valid e) eqn:Hv.
    + destruct (vi_entry _ _ _ Hvm t i e (maps_pte _ _ _ _ _ _ _ _ Hm)) as [_ H]. destruct (H Hv) as ([Hr _] & _ & _).
      destruct (clear_step _ b table i e Hc ltac:(lia) He Hv) as (b2 & E2 & Hc2); [by rewrite (po_bits _ (vi_phys _ _ _ Hvm))|].
      exists tt. eexists. split; [|exists b2; split; [reflexivity|exact Hc2]].
      rewrite (phys_step x _ (MkPhy (phyPageNums (phyMemManager (Machine.kernel w))) b2 (phyMemPageTable (phyMemManager (Machine.kernel w))) (swappingStrategy (phyMemManager (Machine.kernel w))))); [done|].
      unfold clearOnePage. cbn [x Machine.kernel set_kernel with_bitmap with_phys phyMemManager phyMemoryMap]. by rewrite E2.
    + exists tt, x. split; [done|]. exists b. split; [done|]. destruct Hc as (H1 & H2 & H3). split; [done|]. split; [done|].
      intros p Hp. rewrite H3 by done. rewrite (frames_below_succ _ i _ e) by (done || lia). rewrite Hv. intuition congruence.
  - exists b. done.
Qed.

(** What is left when the space of thread [t] is gone. *)
Definition deleted k (t a : Z) (b : Bitmap.Bitmap) : K :=
  with_virt (MkVirt (virtPageNums (virtMemManager k)) (virtMemTableSize (virtMemManager k)) (<[Z.to_nat t := 0]> (virtMemTable (virtMemManager k))))
    (with_spaces (delete a (spaces k)) (with_bitmap b k)).

Lemma deleted_addr k t a b t' : 0 <= t < Z.of_nat (length (virtMemTable (virtMemManager k))) ->
  space_addr (deleted k t a b) t' = if decide (t' = t) then None else space_addr k t'.
Proof.
  intros Ht. unfold space_addr. cbn. destruct (decide (0 <= t' < virtMemTableSize (virtMemManager k))) as [Hr|]; [|by case_decide].
  case_decide as Hd.
  - subst t'. rewrite list_lookup_insert_eq by lia. done.
  - by rewrite list_lookup_insert_ne by lia.
Qed.

Lemma deleted_pte k pts t a s b t' v : spaces_ok k pts -> space_addr k t = Some a -> spaces k !! a = Some s ->
  pte (deleted k t a b) (delete (pageTable s) pts) t' v = if decide (t' = t) then None else pte k pts t' v.
Proof.
  intros Hsp Ha Hs. pose proof (space_addr_range _ _ _ _ Hsp Ha) as Ht. rewrite <- (so_max _ _ Hsp), <- (so_len _ _ Hsp) in Ht.
  unfold pte. rewrite deleted_addr by done. case_decide as Hd; [done|].
  destruct (space_addr k t') as [a'|] eqn:Ha'; [|done]. destruct (so_space _ _ Hsp t' a' Ha') as (s' & tb & Hs' & Ht' & _).
  assert (pageTable s' <> pageTable s) as Hne. { intros Heq. apply Hd. by apply (so_inj _ _ Hsp t' t a' a s' s). }
  cbn. rewrite lookup_delete_ne by (intros ->; congruence). rewrite Hs'. by rewrite lookup_delete_ne.
Qed.

Lemma deleted_inv k pts t a s table b : vm_inv None k pts -> space_addr k t = Some a -> spaces k !! a = Some s ->
  pts !! pageTable s = Some table -> cleared (phyMemoryMap (phyMemManager k)) b table (numPages s) ->
  vm_inv None (deleted k t a b) (delete (pageTable s) pts) /\
  forall p, in_use (deleted k t a b) p <-> in_use k p /\ (forall v, owner k p <> Some (MkPhyPage t v)).
Proof.
  intros Hvm Ha Hs Ht (Hwf & Hn & Hb). pose proof Hvm as [Hph Hsp Hen Hfr _].
  destruct (so_space _ _ Hsp t a Ha) as (s' & tb & Hs' & Ht' & Hlen). assert (s' = s) as -> by congruence. assert (tb = table) as -> by congruence.
  pose proof (space_addr_range _ _ _ _ Hsp Ha) as Hr. rewrite <- (so_max _ _ Hsp), <- (so_len _ _ Hsp) in Hr.
  assert (forall v e, pte k pts t v = Some e <-> 0 <= v < numPages s /\ table !! Z.to_nat v = Some e) as Hpt.
  { intros v e. unfold pte. rewrite Ha, Hs, Ht. case_decide; [|split; [done|lia]]. split; [|tauto]. intros He. split; [|done].
    apply lookup_lt_Some in He. lia. }
  assert (forall p, in_use (deleted k t a b) p <-> in_use k p /\ (forall v, owner k p <> Some (MkPhyPage t v))) as Hin.
  { intros p. unfold in_use. change (phyMemoryMap (phyMemManager (deleted k t a b))) with b. split.
    - intros [Hp Hbit]. apply Hb in Hbit as [Hbit Hno]; [|lia]. split; [done|]. intros v Ho. apply Hno.
      destruct (Hfr p (conj Hp Hbit) ltac:(done)) as (t1 & v1 & e & Ho1 & He & Hv & Hpp). rewrite Ho in Ho1. injection Ho1 as <- <-.
      apply Hpt in He as [Hv0 He]. by exists v, e.
    - intros [[Hp Hbit] Hno]. split; [done|]. apply Hb; [lia|]. split; [done|]. intros (v & e & Hv & He & Hval & Hpp).
      destruct (Hen t v e) as [_ H]; [by apply Hpt|]. destruct (H Hval) as (_ & Ho & _). rewrite Hpp in Ho. by apply (Hno v). }
  split; [|done]. constructor; try done.
  - destruct Hph. constructor; cbn; try done. congruence.
  - destruct Hsp as [H1 H2 H3 H4 H5]. constructor; try done.
    + cbn. by rewrite length_insert.
    + intros t' a' Ha'. rewrite deleted_addr in Ha' by done. case_decide as Hd; [done|].
      destruct (H3 t' a' Ha') as (s' & tb & Hs1 & Ht1 & Hl1). exists s', tb.
      assert (pageTable s' <> pageTable s) as Hne. { intros Heq. apply Hd. by apply (H4 t' t a' a s' s). }
      cbn. rewrite lookup_delete_ne by (intros ->; congruence). by rewrite lookup_delete_ne.
    + intros t1 t2 a1 a2 s1 s2 Ha1 Ha2 Hs1 Hs2. rewrite deleted_addr in Ha1, Ha2 by done. cbn in Hs1, Hs2.
      case_decide; [done|]. case_decide; [done|]. apply lookup_delete_Some in Hs1 as [_ Hs1]. apply lookup_delete_Some in Hs2 as [_ Hs2].
      by apply (H4 t1 t2 a1 a2 s1 s2).
    + cbn. rewrite fmap_delete. by apply exe_close.
  - intros t' v e. rewrite (deleted_pte _ _ _ _ _ _ _ _ Hsp Ha Hs). case_decide as Hd; [done|]. intros He. destruct (Hen _ _ _ He) as [Hro H].
    split; [done|]. intros Hv. destruct (H Hv) as (Hu & Ho & _). split; [|done]. apply Hin. split; [done|].
    intros u Hu'. rewrite Ho in Hu'. by injection Hu'.
  - intros p Hp _. apply Hin in Hp as [Hp Hno]. destruct (Hfr p Hp ltac:(done)) as (t' & v & e & Ho & He & Hv & Hpp).
    exists t', v, e. split; [done|]. rewrite (deleted_pte _ _ _ _ _ _ _ _ Hsp Ha Hs), decide_False; [done|]. intros ->. by apply (Hno v).
Qed.

(** deleteAddrSpace on a thread that has a space. *)
Lemma deleteAddrSpace_ok w t a : vm_ok w -> space_addr (Machine.kernel w) t = Some a ->
  exists (s : AddrSpace File) b, spaces (Machine.kernel w) !! a = Some s /\ deleteAddrSpace t w =
      Ok (tt, Machine.set_tables (delete (pageTable s) (Machine.pageTables w)) (set_kernel (deleted (Machine.kernel w) t a b) w)) /\
    vm_inv None (deleted (Machine.kernel w) t a b) (delete (pageTable s) (Machine.pageTables w)) /\
    forall p, in_use (deleted (Machine.kernel w) t a b) p <->
      in_use (Machine.kernel w) p /\ (forall v, owner (Machine.kernel w) p <> Some (MkPhyPage t v)).
Proof.
  intros Hvm Ha. pose proof (vi_spaces _ _ _ Hvm) as Hsp.
  destruct (so_space _ _ Hsp t a Ha) as (s & table & Hs & Ht & Hlen).
  destruct (clear_frames w t a s table Hvm Ha Hs Ht) as (b & Eloop & Hc).
  destruct (deleted_inv _ _ t a s table b Hvm Ha Hs Ht Hc) as [Hinv Hin].
  exists s, b. split; [done|]. split; [|done]. unfold deleteAddrSpace. rewrite (bind_M_Ok kget _ w w (Machine.kernel w)) by done.
  pose proof Ha as Ha'. unfold space_addr in Ha'. case_decide as Hr; [|done].
  rewrite (proj2 (Z.leb_le _ _)), (proj2 (Z.ltb_lt _ _)) by lia. cbn [andb].
  destruct (virtMemTable (virtMemManager (Machine.kernel w)) !! Z.to_nat t) as [x|] eqn:Ex; [|done].
  case_decide as Hx; [done|]. injection Ha' as ->. rewrite (aget_Some _ _ _ (proj1 Hr) Ex), bind_lift_Ok.
  rewrite (proj2 (Z.eqb_neq _ _) Hx). rewrite (bind_M_Ok _ _ _ _ _ (the_space_ok w a s Hs)). rewrite (bind_M_Ok _ _ _ _ _ Eloop).
  unfold AddrSpace_delete, get_state, Machine.modify, kget, kset. unfold mbind, M_bind. cbn -[delete]. rewrite aset_in; [done|].
  rewrite (so_len _ _ Hsp). exact Hr.
Qed.

(** * Creation *)

Lemma new_address_fresh {V} (m : gmap Z V) : m !! new_address m = None /\ new_address m <> 0.
Proof.
  unfold new_address. pose proof (is_fresh (dom m ∪ {[0]})) as H. split.
  - apply not_elem_of_dom. set_solver.
  - set_solver.
Qed.

Lemma new_table_lookup n v : 0 <= n -> 0 <= v ->
  new_table n !! Z.to_nat v = if decide (v < n) then Some (Machine.MkEntry v (-1) false false false false) else None.
Proof.
  intros Hn Hv. unfold new_table. rewrite list_lookup_fmap. unfold range. case_decide as Hd.
  - rewrite lookup_seqZ_lt by lia. cbn. do 2 f_equal. lia.
  - by rewrite lookup_seqZ_ge by lia.
Qed.

Lemma new_table_length n : 0 <= n -> Z.of_nat (length (new_table n)) = n.
Proof. intros Hn. unfold new_table. rewrite length_map. unfold range. rewrite length_seqZ. lia. Qed.

Lemma file_call_ok {A} w (f : M F A) x s : f (files (Machine.kernel w)) = Ok (x, s) ->
  file_call f w = Ok (x, set_kernel (with_files s (Machine.kernel w)) w).
Proof. intros E. unfold file_call. rewrite (bind_M_Ok kget _ w w (Machine.kernel w)) by done. by rewrite E. Qed.

(** The pages an executable's header asks for. *)
Definition header_pages (header : list Z) : Z :=
  divRoundUp (u32 (noff_word header 3 + noff_word header 9 + noff_word header 6 + noff_word header 12 + UserStackSize)) PageSize.

Lemma header_pages_nonneg header : 0 <= header_pages header.
Proof.
  unfold header_pages. pose proof (u32_range (noff_word header 3 + noff_word header 9 + noff_word header 6 + noff_word header 12 + UserStackSize)) as H.
  unfold is_u32 in H. rewrite divRoundUp_spec by (unfold PageSize; lia). unfold PageSize. apply Z.div_pos; lia.
Qed.

(** The kernel with a new space [s] at [a] for thread [t]. *)
Definition created k (t a : Z) (s : AddrSpace File) : K :=
  with_virt (MkVirt (i32 (virtPageNums (virtMemManager k) + numPages s)) (virtMemTableSize (virtMemManager k)) (<[Z.to_nat t := a]> (virtMemTable (virtMemManager k))))
    (with_spaces (<[a := s]> (spaces k)) k).

Lemma created_addr k t a s t' : 0 <= t < virtMemTableSize (virtMemManager k) -> a <> 0 ->
  Z.of_nat (length (virtMemTable (virtMemManager k))) = virtMemTableSize (virtMemManager k) ->
  space_addr (created k t a s) t' = if decide (t' = t) then Some a else space_addr k t'.
Proof.
  intros Ht Ha Hl. unfold space_addr. cbn. destruct (decide (0 <= t' < virtMemTableSize (virtMemManager k))) as [Hr|Hr].
  - case_decide as Hd.
    + subst t'. rewrite list_lookup_insert_eq by lia. by rewrite decide_False.
    + by rewrite list_lookup_insert_ne by lia.
  - rewrite decide_False; [done|]. intros ->. done.
Qed.

Lemma created_inv k pts t a b n file : vm_inv None k pts -> 0 <= t < THREAD_COUNT_MAX -> space_addr k t = None ->
  spaces k !! a = None -> a <> 0 -> pts !! b = None -> 0 <= n ->
  exe_ok (files k) (<[a := file]> (exeFileId <$> spaces k)) ->
  let k' := created k t a (MkSpace b t n file) in let pts' := <[b := new_table n]> pts in
  vm_inv None k' pts' /\
  forall t' v, pte k' pts' t' v =
    if decide (t' = t) then (if decide (0 <= v < n) then Some (Machine.MkEntry v (-1) false false false false) else None) else pte k pts t' v.
Proof.
  intros Hvm Ht Hnone Ha Ha0 Hb Hn Hf k' pts'. pose proof Hvm as [Hph Hsp Hen Hfr _].
  assert (forall t', space_addr k' t' = if decide (t' = t) then Some a else space_addr k t') as Hsa.
  { intros t'. apply created_addr; [by rewrite (so_max _ _ Hsp)|done|apply Hsp]. }
  assert (forall t', t' <> t -> forall a' s', space_addr k t' = Some a' -> spaces k !! a' = Some s' -> a' <> a /\ pageTable s' <> b) as Hother.
  { intros t' _ a' s' Ha' Hs'. destruct (so_space _ _ Hsp t' a' Ha') as (s1 & tb & Hs1 & Ht1 & _). split; [congruence|].
    intros Heq. congruence. }
  assert (forall t' v, pte k' pts' t' v =
    if decide (t' = t) then (if decide (0 <= v < n) then Some (Machine.MkEntry v (-1) false false false false) else None) else pte k pts t' v) as Hpte.
  { intros t' v. unfold pte. rewrite Hsa. case_decide as Hd.
    - cbn. rewrite lookup_insert_eq. cbn. unfold pts'. rewrite lookup_insert_eq. destruct (decide (0 <= v)).
      + rewrite new_table_lookup by lia. repeat case_decide; done || lia.
      + by rewrite decide_False by lia.
    - destruct (space_addr k t') as [a'|] eqn:Ea; [|done]. destruct (so_space _ _ Hsp t' a' Ea) as (s1 & tb & Hs1 & Ht1 & _).
      destruct (Hother t' Hd a' s1 Ea Hs1) as [Hne Hne']. cbn. rewrite lookup_insert_ne by done. rewrite Hs1. unfold pts'. by rewrite lookup_insert_ne. }
  split; [|done]. constructor; try done.
  - by apply (phys_ok_same k).
  - pose proof Hsp as [H1 H2 H3 H4 H5]. constructor; try done.
    + cbn. by rewrite length_insert.
    + intros t' a'. rewrite Hsa. case_decide as Hd.
      * intros [= <-]. eexists _, (new_table n). cbn. rewrite lookup_insert_eq. split; [done|]. cbn. unfold pts'. rewrite lookup_insert_eq.
        split; [done|]. by apply new_table_length.
      * intros Ea. destruct (H3 t' a' Ea) as (s1 & tb & Hs1 & Ht1 & Hl1). destruct (Hother t' Hd a' s1 Ea Hs1) as [Hne Hne'].
        exists s1, tb. cbn. rewrite lookup_insert_ne by done. split; [done|]. unfold pts'. by rewrite lookup_insert_ne.
    + intros t1 t2 a1 a2 s1 s2. rewrite !Hsa. cbn. case_decide as Hd1; case_decide as Hd2; intros E1 E2 Hs1 Hs2 Heq.
      * congruence.
      * injection E1 as <-. rewrite lookup_insert_eq in Hs1. injection Hs1 as <-. cbn in Heq.
        destruct (H3 t2 a2 E2) as (s3 & tb & Hs3 & Ht3 & _). assert (a2 <> a) as Hne by congruence.
        rewrite lookup_insert_ne in Hs2 by done. destruct (Hother t2 Hd2 a2 s2 E2 Hs2). congruence.
      * injection E2 as <-. rewrite lookup_insert_eq in Hs2. injection Hs2 as <-. cbn in Heq.
        destruct (H3 t1 a1 E1) as (s3 & tb & Hs3 & Ht3 & _). assert (a1 <> a) as Hne by congruence.
        rewrite lookup_insert_ne in Hs1 by done. destruct (Hother t1 Hd1 a1 s1 E1 Hs1). congruence.
      * destruct (H3 t1 a1 E1) as (s3 & _ & Hs3 & _). destruct (H3 t2 a2 E2) as (s4 & _ & Hs4 & _).
        rewrite lookup_insert_ne in Hs1 by congruence. rewrite lookup_insert_ne in Hs2 by congruence. by apply (H4 t1 t2 a1 a2 s1 s2).
    + cbn. by rewrite fmap_insert.
  - intros t' v e. rewrite Hpte. case_decide; [|apply Hen]. case_decide; [|done]. by intros [= <-].
  - intros p Hp _. destruct (Hfr p Hp ltac:(done)) as (t' & v & e & Ho & He & H). exists t', v, e. split; [done|]. rewrite Hpte, decide_False; [done|].
    intros ->. unfold pte in He. by rewrite Hnone in He.
Qed.

Lemma table_slot k pts t : spaces_ok k pts -> 0 <= t < THREAD_COUNT_MAX ->
  exists x, aget (virtMemTable (virtMemManager k)) t = Ok x /\ space_addr k t = if decide (x = 0) then None else Some x.
Proof.
  intros Hsp Ht. destruct (aget_in (virtMemTable (virtMemManager k)) t) as (x & Hx & E); [rewrite (so_len _ _ Hsp), (so_max _ _ Hsp); done|].
  exists x. split; [done|]. unfold space_addr. rewrite decide_True by (by rewrite (so_max _ _ Hsp)). by rewrite Hx.
Qed.

(** The header as read into the uninitialised [noffH]. *)
Definition header_of (content : list Z) (f : F) : list Z :=
  let bs := snd (OpenFile.read_result content (Z.of_nat (length content)) NoffHeaderSize 0) in
  bs ++ drop (length bs) (uninit f (Z.to_nat NoffHeaderSize)).

(** The constructor, the executable being opened and read. *)
Lemma AddrSpace_new_ok w t name file f1 f2 : exe_Open name (files (Machine.kernel w)) = Ok (Some file, f1) ->
  exe_ReadAt file NoffHeaderSize 0 f1 =
    Ok (OpenFile.read_result (exe_bytes f1 file) (Z.of_nat (length (exe_bytes f1 file))) NoffHeaderSize 0, f2) ->
  let header := header_of (exe_bytes f1 file) f2 in let n := header_pages header in let b := new_address (Machine.pageTables w) in
  AddrSpace_new t name w =
    if noff_word header 0 =? NOFFMAGIC
    then Ok (Some (MkSpace b t n file), Machine.set_tables (<[b := new_table n]> (Machine.pageTables w)) (set_kernel (with_files f2 (Machine.kernel w)) w))
    else AssertFail.
Proof.
  intros Eo Er header n b. unfold AddrSpace_new. rewrite (bind_M_Ok _ _ _ _ _ (file_call_ok w _ _ _ Eo)). cbv beta iota.
  set (w1 := set_kernel _ w). assert (files (Machine.kernel w1) = f1) as Ef1 by done. rewrite <- Ef1 in Er at 1.
  rewrite (bind_M_Ok _ _ _ _ _ (file_call_ok w1 _ _ _ Er)). unfold header, header_of in *.
  destruct (OpenFile.read_result _ _ _ _) as [m bs]. cbn [snd] in *. cbv beta iota.
  set (w2 := set_kernel _ w1). rewrite (bind_M_Ok kget _ w2 w2 (Machine.kernel w2)) by done. change (files (Machine.kernel w2)) with f2.
  destruct (noff_word _ 0 =? NOFFMAGIC); [|done]. cbn [ASSERT]. rewrite bind_lift_Ok.
  rewrite (bind_M_Ok get_state _ w2 w2 w2) by done. reflexivity.
Qed.

(** The rest of createAddrSpace. *)
Definition install (t : Z) (s : option (AddrSpace File)) : M W Z :=
  match s with
  | None => lift Undefined
  | Some s =>
      k ← kget;
      let v := virtMemManager k in
      if MAX_VIRT_PAGES <? i32 (virtPageNums v + numPages s) then _ ← AddrSpace_delete s; mret 0
      else
        let a := new_address (spaces k) in
        table ← lift (aset (virtMemTable v) t a);
        _ ← kset (with_spaces (<[a := s]> (spaces k)));
        _ ← kset (with_virt (MkVirt (i32 (virtPageNums v + numPages s)) (virtMemTableSize v) table));
        mret a
  end.

Lemma create_none w t name : vm_ok w -> 0 <= t < THREAD_COUNT_MAX -> space_addr (Machine.kernel w) t = None ->
  createAddrSpace t name w = (s ← AddrSpace_new t name; install t s) w.
Proof.
  intros Hvm Ht Hnone. destruct (table_slot _ _ t (vi_spaces _ _ _ Hvm) Ht) as (x & Ex & Hx). rewrite Hnone in Hx. case_decide; [subst x|done].
  unfold createAddrSpace. rewrite (bind_M_Ok kget _ w w (Machine.kernel w)) by done. by rewrite Ex, bind_lift_Ok.
Qed.

Lemma install_ok w t s : 0 <= t < THREAD_COUNT_MAX -> spaces_ok (Machine.kernel w) (delete (pageTable s) (Machine.pageTables w)) ->
  let a := new_address (spaces (Machine.kernel w)) in
  install t (Some s) w =
    if MAX_VIRT_PAGES <? i32 (virtPageNums (virtMemManager (Machine.kernel w)) + numPages s)
    then Ok (0, Machine.set_tables (delete (pageTable s) (Machine.pageTables w)) w)
    else Ok (a, set_kernel (created (Machine.kernel w) t a s) w).
Proof.
  intros Ht Hsp a. unfold install. rewrite (bind_M_Ok kget _ w w (Machine.kernel w)) by done. cbv zeta.
  destruct (MAX_VIRT_PAGES <? _).
  - unfold AddrSpace_delete. done.
  - rewrite aset_in by (by rewrite (so_len _ _ Hsp), (so_max _ _ Hsp)). by rewrite bind_lift_Ok.
Qed.

(** createAddrSpace for a thread that has no space: what [exe_Open] answers decides. *)
Definition create_spec w (t : Z) (name : list Z) : Prop :=
  let a := new_address (spaces (Machine.kernel w)) in let b := new_address (Machine.pageTables w) in
  match exe_Open name (files (Machine.kernel w)) with
  | Ok (None, _) => createAddrSpace t name w = Undefined
  | Ok (Some file, f1) =>
      exe_ok f1 (<[a := file]> (exeFileId <$> spaces (Machine.kernel w))) ->
      exists f2, let header := header_of (exe_bytes f1 file) f2 in let n := header_pages header in
      let k2 := with_files f2 (Machine.kernel w) in
      if noff_word header 0 =? NOFFMAGIC then
        if MAX_VIRT_PAGES <? i32 (virtPageNums (virtMemManager (Machine.kernel w)) + n)
        then createAddrSpace t name w = Ok (0, set_kernel k2 w) /\ vm_ok (set_kernel k2 w)
        else exists w', createAddrSpace t name w = Ok (a, w') /\ vm_ok w' /\
          w' = Machine.set_tables (<[b := new_table n]> (Machine.pageTables w)) (set_kernel (created k2 t a (MkSpace b t n file)) w) /\
          forall t' v, pte (Machine.kernel w') (Machine.pageTables w') t' v =
            if decide (t' = t) then (if decide (0 <= v < n) then Some (Machine.MkEntry v (-1) false false false false) else None)
            else pte (Machine.kernel w) (Machine.pageTables w) t' v
      else createAddrSpace t name w = AssertFail
  | AssertFail => createAddrSpace t name w = AssertFail
  | Undefined => createAddrSpace t name w = Undefined
  | OutOfFuel => createAddrSpace t name w = OutOfFuel
  | Exited => createAddrSpace t name w = Exited
  end.

Lemma createAddrSpace_ok w t name : vm_ok w -> 0 <= t < THREAD_COUNT_MAX -> space_addr (Machine.kernel w) t = None ->
  create_spec w t name.
Proof.
  intros Hvm Ht Hnone. unfold create_spec. cbv zeta. rewrite (create_none w t name Hvm Ht Hnone).
  set (a := new_address (spaces (Machine.kernel w))). set (b := new_address (Machine.pageTables w)).
  destruct (exe_Open name (files (Machine.kernel w))) as [[[file|] f1]| | | |] eqn:Eo;
    try (unfold mbind, M_bind, AddrSpace_new, file_call, kget; unfold mbind, M_bind; rewrite Eo; done).
  intros Hok. pose proof (lookup_insert_eq (exeFileId <$> spaces (Machine.kernel w)) a file) as Hla.
  destruct (exe_read_ok f1 _ a file NoffHeaderSize 0 Hok Hla) as (f2 & Er & Hok2 & _); [unfold NoffHeaderSize; lia|lia|].
  exists f2. set (n := header_pages (header_of (exe_bytes f1 file) f2)).
  destruct (new_address_fresh (spaces (Machine.kernel w))) as [Hfa Hfa0]. destruct (new_address_fresh (Machine.pageTables w)) as [Hfb _].
  fold a in Hfa, Hfa0. fold b in Hfb.
  assert (vm_inv None (with_files f2 (Machine.kernel w)) (Machine.pageTables w)) as Hvm2.
  { apply (files_inv None _ _ f2 Hvm). pose proof (exe_close f2 _ a Hok2) as Hd. rewrite delete_insert_id in Hd; [done|]. by rewrite lookup_fmap, Hfa. }
  assert (0 <= n) as Hn0 by apply header_pages_nonneg.
  pose proof (created_inv _ _ t a b n file Hvm2 Ht Hnone Hfa Hfa0 Hfb Hn0 Hok2) as Hcr. cbv zeta in Hcr.
  pose proof (AddrSpace_new_ok w t name file f1 f2 Eo Er) as En. cbv zeta in En. fold b n in En.
  destruct (noff_word _ 0 =? NOFFMAGIC); [|by apply bind_M_AssertFail]. rewrite (bind_M_Ok _ _ _ _ _ En).
  rewrite install_ok; [|done|].
  2: { cbn. rewrite delete_insert_id by done. exact (vi_spaces _ _ _ Hvm2). }
  cbn [numPages pageTable]. fold a.
  destruct (MAX_VIRT_PAGES <? _).
  - split; [|exact Hvm2]. cbn. rewrite delete_insert_id by done. by destruct w.
  - eexists. split; [reflexivity|]. split; [exact (proj1 Hcr)|]. split; [reflexivity|exact (proj2 Hcr)].
Qed.

(** A thread that has a space keeps it. *)
Lemma createAddrSpace_again w t a name : vm_ok w -> space_addr (Machine.kernel w) t = Some a -> createAddrSpace t name w = Ok (a, w).
Proof.
  intros Hvm Ha. pose proof (vi_spaces _ _ _ Hvm) as Hsp.
  destruct (table_slot _ _ t Hsp (space_addr_range _ _ _ _ Hsp Ha)) as (x & Ex & Hx). rewrite Ha in Hx. case_decide as Hd; [done|]. injection Hx as <-.
  unfold createAddrSpace. rewrite (bind_M_Ok kget _ w w (Machine.kernel w)) by done. rewrite Ex, bind_lift_Ok. by rewrite (proj2 (Z.eqb_neq _ _) Hd).
Qed.
End Spaces.

(** * Properties *)

Section Properties.
Context {F File : Type} {EX : ExeFiles F File} {HP : Heap F}.
#[local] Notation W := (Machine.World (Kernel F File)).

(** Creating an address space: a thread that has one keeps it and nothing changes; for
    one that has none, the answer of Open, the magic number of the header and the page
    count decide between the failures and success, and on success the thread has exactly the
    pages its header asks for, all invalid, every other thread has the pages it had, and the
    invariant of virtual memory holds. *)
Theorem create_address_space (w : W) t name : vm_ok w -> 0 <= t < THREAD_COUNT_MAX ->
  match space_addr (Machine.kernel w) t with
  | Some a => createAddrSpace t name w = Ok (a, w)
  | None => create_spec w t name
  end.
Proof.
  intros Hvm Ht. destruct (space_addr (Machine.kernel w) t) eqn:E; [by apply createAddrSpace_again|by apply createAddrSpace_ok].
Qed.

(** Deleting an address space frees exactly the frames that hold the thread's pages:
    the other frames in use and the other threads' pages stay, the invariant of virtual
    memory holds, and the count of virtual pages is not lowered. *)
Theorem delete_address_space (w : W) t a : vm_ok w -> space_addr (Machine.kernel w) t = Some a ->
  exists w', deleteAddrSpace t w = Ok (tt, w') /\ vm_ok w' /\
    (forall p, in_use (Machine.kernel w') p <-> in_use (Machine.kernel w) p /\ forall v, owner (Machine.kernel w) p <> Some (MkPhyPage t v)) /\
    (forall t' v, pte (Machine.kernel w') (Machine.pageTables w') t' v =
       if decide (t' = t) then None else pte (Machine.kernel w) (Machine.pageTables w) t' v) /\
    virtPageNums (virtMemManager (Machine.kernel w')) = virtPageNums (virtMemManager (Machine.kernel w)).
Proof.
  intros Hvm Ha. destruct (deleteAddrSpace_ok w t a Hvm Ha) as (s & b & Hs & E & Hinv & Hin).
  eexists. split; [exact E|]. split; [exact Hinv|]. split; [exact Hin|]. split; [|done].
  intros t' v. exact (deleted_pte _ _ _ _ _ _ _ _ (vi_spaces _ _ _ Hvm) Ha Hs).
Qed.
End Properties.
End Spaces.
