(* ===== verification/UserMode.v ===== *)
(** UserMode: user programs under the kernel's exception handler: the handler of VM.v meets
    the contract the machine of Machine.v states of its kernel, so the machine's safety
    holds of the composed system. *)

From S2P Require Import Prelude Bitmap Mips TLB Machine SectorStore OpenFile VM VMInv.
From stdpp Require Import base numbers list gmap.
#[local] Open Scope Z_scope.

Module UserMode.
Import VM VMInv.
#[local] Existing Instance Machine.world_registers.

Section Contract.
Context {F File : Type} {EX : ExeFiles F File} {HP : Heap F}.
#[local] Notation K := (Kernel F File).
#[local] Notation W := (Machine.World K).
Implicit Types (k : K) (w : W).

(** The kernel's invariant: virtual memory agrees with itself, and the machine walks the
    running thread's table. *)
Definition kernel_inv w : Prop := vm_ok w /\ current_ok w.

#[local] Notation ready := (Mips.ready (Machine.inv kernel_inv)).
#[local] Notation ends := (Mips.ends (Machine.inv kernel_inv) True True).
#[local] Notation safe := (Mips.safe (Machine.inv kernel_inv) True True).

(** The hardware's dirty bit. *)
Lemma pte_touched k pts a table v t u : pts !! a = Some table ->
  pte k (<[a := Machine.touched table v]> pts) t u = pte k pts t u \/
  pte k (<[a := Machine.touched table v]> pts) t u = Machine.set_dirty <$> pte k pts t u.
Proof.
  intros Ha. unfold pte. destruct (space_addr k t) as [b|]; [|by left]. destruct (spaces k !! b) as [s|]; [|by left].
  destruct (decide (pageTable s = a)) as [->|Hne]; [|left; by rewrite lookup_insert_ne].
  rewrite lookup_insert_eq, Ha. destruct (decide (0 <= u)); [|by left]. unfold Machine.touched.
  destruct (decide (Z.to_nat v = Z.to_nat u)) as [Heq|Hne]; [right; rewrite Heq; apply list_lookup_alter_eq|left; by apply list_lookup_alter_ne].
Qed.

Lemma touched_inv hole k pts a table v : vm_inv hole k pts -> pts !! a = Some table ->
  vm_inv hole k (<[a := Machine.touched table v]> pts).
Proof.
  intros [Hph [H1 H2 H3 H4 H5] Hen Hfr Hho] Ha. constructor; try done.
  - constructor; try done. intros t b Hb. destruct (H3 t b Hb) as (s & tb & Hs & Ht & Hl). exists s.
    destruct (decide (pageTable s = a)) as [Heq|Hne].
    + exists (Machine.touched table v). rewrite Heq, lookup_insert_eq. rewrite Heq in Ht. split_and!; try done. unfold Machine.touched. rewrite length_alter. congruence.
    + exists tb. by rewrite lookup_insert_ne.
  - intros t u e He. destruct (pte_touched k pts a table v t u Ha) as [E|E]; rewrite E in He; [by apply Hen|].
    apply fmap_Some in He as (e0 & He0 & ->). apply (Hen _ _ _ He0).
  - intros p Hp Hh. destruct (Hfr p Hp Hh) as (t & u & e & Ho & He & Hv & Hpp).
    destruct (pte_touched k pts a table v t u Ha) as [E|E]; rewrite He in E; [by exists t, u, e|by exists t, u, (Machine.set_dirty e)].
Qed.

Lemma faults_inv hole k pts n : vm_inv hole k pts -> vm_inv hole (with_faults n k) pts.
Proof.
  intros [Hph [H1 H2 H3 H4 H5] Hen Hfr Hho]. constructor; try done. by apply (phys_ok_same k).
Qed.

(** Register access by the handler. *)
Lemma safe_ReadRegister n : 0 <= n < 40 -> safe (Machine.ReadRegister n) is_i32.
Proof.
  intros Hn. unfold Machine.ReadRegister. rewrite (proj2 (Z.leb_le _ _)), (proj2 (Z.ltb_lt _ _)) by (unfold NumTotalRegs; lia).
  intros w Hw. cbn [ASSERT andb]. rewrite bind_lift_Ok. by apply Mips.safe_reg.
Qed.

Lemma kernel_inv_regs l w : Machine.inv kernel_inv w -> Machine.inv kernel_inv (Machine.set_registers l w).
Proof. intros (Hm & (table & Ht) & Hk). split; [by apply Machine.mem_ok_registers|]. split; [by exists table|exact Hk]. Qed.

Lemma safe_WriteRegister n v : 0 <= n < 37 -> is_i32 v -> safe (Machine.WriteRegister n v) (fun _ => True).
Proof.
  intros Hn Hv. unfold Machine.WriteRegister. rewrite (proj2 (Z.leb_le _ _)), (proj2 (Z.ltb_lt _ _)) by (unfold NumTotalRegs; lia).
  intros w Hw. cbn [ASSERT andb]. rewrite bind_lift_Ok. apply Mips.safe_set_reg; [apply kernel_inv_regs|lia|done|lia|done].
Qed.

Ltac reads := eapply Mips.safe_bind; [apply safe_ReadRegister; unfold PCReg; lia|]; intros ? ?; cbv beta in *.
Ltac writes := eapply Mips.safe_bind; [apply safe_WriteRegister; [unfold PCReg, PrevPCReg; lia|first [apply i32_range|done]]|]; intros _ _.

Lemma safe_system_call : safe (ExceptionHandler SyscallException) (fun _ => True).
Proof.
  unfold ExceptionHandler. reads. cbn [Z.eqb Pos.eqb SyscallException]. case_match; [by intros w Hw|]. case_match; [|by intros w Hw].
  reads. reads. writes. reads. writes. reads. writes. reads. apply safe_WriteRegister; [unfold NextPCReg; lia|apply i32_range].
Qed.

Lemma safe_other which : which <> SyscallException -> which <> PageFaultException -> safe (ExceptionHandler which) (fun _ => True).
Proof.
  intros H1 H2. unfold ExceptionHandler. reads. rewrite (proj2 (Z.eqb_neq _ _) H1), (proj2 (Z.eqb_neq _ _) H2). by intros w Hw.
Qed.

(** The entry the machine finds invalid is the running thread's. *)
Lemma table_entry_pte w table va e : current_ok w -> Machine.table_ok w table -> Machine.table_entry w table va = Some e ->
  pte (Machine.kernel w) (Machine.pageTables w) (Machine.currentPid w) (TLB.page va) = Some e.
Proof.
  intros (s & Ha & Hs & Hp & _) [Ht _] He. unfold pte. rewrite Ha, Hs, <- Hp, Ht. unfold Machine.table_entry in He.
  case_match; [done|]. pose proof (TLB.page_range va) as Hr. unfold TLB.is_page, is_u32 in Hr. rewrite decide_True by lia. done.
Qed.

Lemma fault_page va : i32 (u32 va / PageSize) = TLB.page va.
Proof.
  fold (TLB.page va). apply i32_id. pose proof (u32_range va). unfold TLB.page, is_i32, is_u32, PageSize in *. Z.div_mod_to_equations. lia.
Qed.

(** The world before and after the handler agree on what the machine needs. *)
Lemma handled_rest w w1 w' p vpn e : spaces_ok (Machine.kernel w) (Machine.pageTables w) -> chosen w w1 p -> loaded_world w1 w' p vpn e ->
  Machine.registers (Machine.machine w') = Machine.registers (Machine.machine w) /\
  Machine.currentPid w' = Machine.currentPid w /\ Machine.status w' = Machine.status w /\
  Machine.pageTable (Machine.machine w') = Machine.pageTable (Machine.machine w) /\
  Machine.pageTableSize (Machine.machine w') = Machine.pageTableSize (Machine.machine w).
Proof.
  intros Hsp (_ & Hc) (s & table & f & _ & _ & ->).
  destruct Hc as [(_ & _ & phys & _ & ->)|(_ & _ & t & v & ev & _ & _ & _ & _ & Hev)]; [done|].
  destruct (evicted_views w w1 p t v ev Hsp Hev) as (_ & _ & _ & (tlb & Hm) & Hst & Hpid & _).
  cbn -[put_entry assigned with_files]. rewrite Hm, Hst, Hpid. done.
Qed.

(** The handler repairs the fault: the machine's second walk succeeds. *)
Lemma repaired w w1 w' p vpn e va table' writing : vm_ok w -> vm_inv (Some p) (Machine.kernel w1) (Machine.pageTables w1) ->
  chosen w w1 p -> loaded_world w1 w' p vpn e -> current_ok w -> vm_ok w' -> current_ok w' -> vpn = TLB.page va ->
  vpn < Machine.pageTableSize (Machine.machine w) -> Machine.table_ok w' table' ->
  Machine.walk w' table' va writing = inr p.
Proof.
  intros Hvm Hinv Hch Hl Hcur Hvm' Hcur' -> Hlt Ht'. pose proof (vi_spaces _ _ _ Hvm) as Hsp.
  destruct (handled_rest w w1 w' p _ e Hsp Hch Hl) as (_ & Hpid & _ & Hpt & Hsz).
  pose proof (loaded_pte w1 w' p _ e (vi_spaces _ _ _ Hinv) Hl) as Hpte.
  assert (Machine.currentPid w1 = Machine.currentPid w) as Hpid1.
  { destruct Hl as (s & table & f & _ & _ & ->). exact Hpid. }
  specialize (Hpte (Machine.currentPid w') (TLB.page va)). rewrite Hpid, <- Hpid1 in Hpte. rewrite decide_True in Hpte by done.
  unfold Machine.walk, Machine.table_entry. rewrite Hsz. rewrite (proj2 (Z.leb_gt _ _)) by lia.
  destruct Hcur' as (s & Ha & Hs & Hp & _). unfold pte in Hpte. rewrite Hpid, <- Hpid1 in Ha. rewrite Ha, Hs, <- Hp, (proj1 Ht') in Hpte.
  case_decide; [|done]. rewrite Hpte. cbn [Machine.valid loaded negb].
  assert (Machine.readOnly e = false) as Hro.
  { destruct (vi_entry _ _ _ Hinv (Machine.currentPid w1) (TLB.page va) e) as [Hro _]; [|done].
    destruct Hl as (s1 & tb & f & Hm & _). by eapply maps_pte. }
  cbn [Machine.readOnly Machine.physicalPage loaded]. rewrite Hro. cbn [andb].
  destruct Hch as [Hpr _]. assert (u32 p = p) as -> by (apply u32_id; unfold is_u32, NumPhysPages in *; lia).
  by rewrite (proj2 (Z.leb_gt _ _)) by lia.
Qed.

(** * The handler meets the machine's contract *)

Lemma handler_ok : Machine.kernel_ok ExceptionHandler kernel_inv True True.
Proof.
  constructor; try done.
  - intros w table v [Hvm Hcur] [Ht _]. split; [exact (touched_inv None _ _ _ table v Hvm Ht)|exact Hcur].
  - intros which w Hne Hw. destruct (decide (which = SyscallException)) as [->|Hs]; [by apply safe_system_call|by apply safe_other].
  - intros w va table e Hw Hbad Ht He Hv. pose proof Hw as (Hr & Hm & _ & Hvm & Hcur).
    pose proof (table_entry_pte _ _ _ _ Hcur Ht He) as Hpte.
    assert (TLB.page va < Machine.pageTableSize (Machine.machine w)) as Hlt.
    { unfold Machine.table_entry in He. by destruct (Z.leb_spec (Machine.pageTableSize (Machine.machine w)) (TLB.page va)). }
    assert (ExceptionHandler PageFaultException w = (_ ← pageFaultHandler (TLB.page va); kset (fun k => with_faults (numPageFaults k + 1) k)) w) as ->.
    { unfold ExceptionHandler, PageFaultHandler. destruct (Mips.regs_ok_get _ 2 Hr ltac:(lia)) as (x & _ & Hx & _).
      assert (forall n y, 0 <= n < 40 -> Machine.registers (Machine.machine w) !! Z.to_nat n = Some y -> Machine.ReadRegister n w = Ok (y, w)) as Hrd.
      { intros n y Hn Hy. unfold Machine.ReadRegister. rewrite (proj2 (Z.leb_le _ _)), (proj2 (Z.ltb_lt _ _)) by (unfold NumTotalRegs; lia).
        cbn [ASSERT andb]. rewrite bind_lift_Ok. by apply (Mips.reg_ok (R := Machine.world_registers)); [lia|]. }
      rewrite (bind_M_Ok _ _ _ _ _ (Hrd 2 x ltac:(lia) Hx)). cbn [Z.eqb Pos.eqb PageFaultException SyscallException].
      rewrite (bind_M_Ok _ _ _ _ _ (Hrd BadVAddrReg va ltac:(unfold BadVAddrReg; lia) Hbad)). by rewrite fault_page. }
    destruct (page_fault_ok w (TLB.page va) e Hvm Hm Hcur Hpte Hv) as [[Ef _]|(p & w1 & w' & E & Hch & Hinv & Hl & Hvm' & Hm' & Hcur')].
    { assert ((_ ← pageFaultHandler (TLB.page va); kset (fun k => with_faults (numPageFaults k + 1) k)) w = AssertFail) as ->; [by apply bind_M_AssertFail|done]. }
    rewrite (bind_M_Ok _ _ _ _ _ E). cbn [kset].
    destruct (handled_rest w w1 w' p _ e (vi_spaces _ _ _ Hvm) Hch Hl) as (Hregs & _ & _ & _ & _).
    split.
    + split; [|done]. split; [cbn; by rewrite Hregs|]. split; [exact Hm'|]. split.
      * destruct Hcur' as (s & Ha & Hs & Hp & Hn). destruct (so_space _ _ (vi_spaces _ _ _ Hvm') _ _ Ha) as (s' & tb & Hs' & Htb & Hlen).
        exists tb. split; cbn; [rewrite Hp; congruence|]. rewrite Hn. assert (s' = s) as -> by congruence. lia.
      * split; [exact (faults_inv None _ _ _ Hvm')|exact Hcur'].
    + intros w2 table' writing [= <-] Ht'. exists p. exact (repaired w w1 w' p _ e va table' writing Hvm Hinv Hch Hl Hcur Hvm' Hcur' eq_refl Hlt Ht').
Qed.

(** * Machine::Run *)

(** [n] turns of the loop of Machine::Run, under the OneTick of the interrupt system. *)
Fixpoint Run (OneTick : M W unit) (n : nat) : M W unit :=
  match n with
  | O => mret tt
  | S n' => _ ← Mips.OneInstruction (CPU := Machine.machine_cpu ExceptionHandler); _ ← OneTick; Run OneTick n'
  end.

(** The next instruction of [w] is a DIV of INT_MIN by -1. *)
Definition overflowing_div w : Prop :=
  exists pc raw w1 i, Machine.ReadMem ExceptionHandler pc 4 w = Ok (Some raw, w1) /\ Mips.Decode (u32 raw) = Ok i /\
    Mips.div_faults (CPU := Machine.machine_cpu ExceptionHandler) i w1.

Lemma one_turn_safe (OneTick : M W unit) w : safe OneTick (fun _ => True) -> ready w ->
  ends ((_ ← Mips.OneInstruction (CPU := Machine.machine_cpu ExceptionHandler); OneTick) w) (fun _ => True) \/
  (Mips.OneInstruction (CPU := Machine.machine_cpu ExceptionHandler) w = Undefined /\ overflowing_div w).
Proof.
  intros Ht Hw. destruct (Machine.user_instruction ExceptionHandler kernel_inv True True w handler_ok Hw) as [H|H]; [left|by right].
  unfold mbind, M_bind. destruct (Mips.OneInstruction w) as [[[] w1]| | | |]; try exact H. apply Ht. exact (proj1 H).
Qed.

Lemma Run_safe (OneTick : M W unit) n w : safe OneTick (fun _ => True) -> ready w ->
  match Run OneTick n w with
  | Undefined => exists m w', (m < n)%nat /\ Run OneTick m w = Ok (tt, w') /\ overflowing_div w'
  | r => ends r (fun _ => True)
  end.
Proof.
  intros Ht. revert w. induction n as [|n IH]; intros w Hw; [done|].
  destruct (one_turn_safe OneTick w Ht Hw) as [H|[E H]]; cbn [Run]; unfold mbind, M_bind in *.
  - destruct (Mips.OneInstruction w) as [[[] w1]| | | |] eqn:E1; try done. destruct (OneTick w1) as [[[] w2]| | | |] eqn:E2; try done.
    destruct H as [Hw2 _]. specialize (IH w2 Hw2). destruct (Run OneTick n w2) as [[[] w3]| | | |] eqn:E3; try exact IH.
    destruct IH as (m & w' & Hm & E & Hd). exists (S m), w'. split; [lia|]. split; [|done].
    cbn [Run]. unfold mbind, M_bind. by rewrite E1, E2.
  - rewrite E. exists 0%nat, w. split; [lia|]. done.
Qed.
End Contract.

End UserMode.
