(* ===== verification/Debugger.v ===== *)
(** Debugger: the debugger for user programs, Machine::Debugger and Machine::DumpState
    (src/code/machine/machine.cc), and the loop of Machine::Run that calls it.

    [cin] is a stream of characters with its state: once it is not good, every read fails and
    takes nothing, and nothing in the code ever clears it.  The machine's registers, the
    clock and what is printed are as in the other files: a list, an [int], a list of items. *)

From S2P Require Import Prelude.
From stdpp Require Import base numbers list.
#[local] Open Scope Z_scope.

Module Debugger.

(** * The input stream *)

Record Cin := MkCin { chars : list Z; good : bool }.

Definition newline : Z := 10.
Definition EOF : Z := -1.

(** The characters in front of the delimiter, at most [n] of them, and the others. *)
Fixpoint upto (n : nat) (l : list Z) : list Z * list Z :=
  match n, l with
  | S n, c :: l' => if c =? newline then ([], l) else let '(a, b) := upto n l' in (c :: a, b)
  | _, _ => ([], l)
  end.

(** [cin.get(buf, n)]: the string that is put into [buf].  The stream is not good any more
    when its end is met in front of the delimiter and of [n - 1] characters, or when no
    character was there to be taken. *)
Definition cin_get_line (n : nat) (s : Cin) : list Z * Cin :=
  if good s then
    let '(a, rest) := upto (n - 1) (chars s) in
    let ended := bool_decide (rest = []) && (length a <? n - 1)%nat in
    (a, MkCin rest (negb (bool_decide (a = []) || ended)))
  else ([], s).

(** [cin.get()] *)
Definition cin_get (s : Cin) : Z * Cin :=
  if good s then match chars s with [] => (EOF, MkCin [] false) | c :: l => (c, MkCin l true) end else (EOF, s).

Definition is_space (c : Z) : bool := (c =? 32) || ((9 <=? c) && (c <=? 13)).
Definition is_digit (c : Z) : bool := (48 <=? c) && (c <=? 57).

Fixpoint digits (acc : Z) (l : list Z) : Z :=
  match l with c :: l' => if is_digit c then digits (10 * acc + (c - 48)) l' else acc | [] => acc end.

Fixpoint skip_space (l : list Z) : list Z := match l with c :: l' => if is_space c then skip_space l' else l | [] => [] end.

(** [sscanf(buf, "%d", &num) == 1], and [num]; a number that is no [int] is not defined. *)
Definition sscanf_d (buf : list Z) : res (option Z) :=
  let l := skip_space buf in
  let '(sign, l) := match l with 45 :: l' => (-1, l') | 43 :: l' => (1, l') | _ => (1, l) end in
  match l with
  | c :: _ => if is_digit c then let n := sign * digits 0 l in if decide (is_i32 n) then Ok (Some n) else Undefined else Ok None
  | [] => Ok None
  end.

(** * The debugger *)

Inductive item :=
| Registers (values : list (Z * Z)) (special : list Z)
| Prompt (time : Z)
| Help
| Unknown (buf : list Z).

Record State := MkState { runUntilTime : Z; singleStep : bool; input : Cin; output : list item }.

Definition say (i : item) (s : State) : State := MkState (runUntilTime s) (singleStep s) (input s) (output s ++ [i]).

(** The general registers with their numbers, then Hi, Lo, PC, NextPC, PrevPC, Load, LoadV. *)
Definition DumpState (registers : list Z) (s : State) : State :=
  say (Registers (zip (seqZ 0 32) (take 32 registers)) (map (fun i => nth i registers 0) [32%nat; 33%nat; 34%nat; 35%nat; 36%nat; 37%nat; 38%nat])) s.

(** One turn of [while (!done)]; the result says whether it was the last. *)
Definition command (totalTicks : Z) (s : State) : res (bool * State) :=
  let s := say (Prompt totalTicks) s in
  let '(buf, c) := cin_get_line 80 (input s) in
  num ← sscanf_d buf;
  let '(done, s) :=
    match num with
    | Some n => (true, MkState n (singleStep s) c (output s))
    | None =>
        let s := MkState 0 (singleStep s) c (output s) in
        match buf with
        | [] => (true, s)
        | 99 :: _ => (true, MkState (runUntilTime s) false c (output s))
        | 63 :: _ => (false, say Help s)
        | _ => (false, say (Unknown buf) s)
        end
    end in
  let '(_, c) := cin_get (input s) in Ok (done, MkState (runUntilTime s) (singleStep s) c (output s)).

Fixpoint commands (fuel : nat) (totalTicks : Z) (s : State) : res State :=
  match fuel with
  | O => OutOfFuel
  | S fuel => '(done, s) ← command totalTicks s; if done : bool then Ok s else commands fuel totalTicks s
  end.

(** More turns than the stream has characters. *)
Definition Debugger (registers : list Z) (totalTicks : Z) (s : State) : res State :=
  commands (S (S (length (chars (input s))))) totalTicks (DumpState registers s).

(** The end of a turn of the loop of Machine::Run. *)
Definition after_instruction (registers : list Z) (totalTicks : Z) (s : State) : res State :=
  if singleStep s && (runUntilTime s <=? totalTicks) then Debugger registers totalTicks s else Ok s.

(** * Its turns *)

Lemma upto_line n line rest : newline ∉ line -> (length line <= n)%nat -> (length line < n)%nat \/ rest <> [] ->
  upto n (line ++ newline :: rest) = (line, newline :: rest).
Proof.
  revert n. induction line as [|c line IH]; intros n Hn Hl Hr; cbn.
  - by destruct n.
  - destruct n as [|n]; [cbn in Hl; lia|]. apply not_elem_of_cons in Hn as [Hc Hn].
    cbn. destruct (Z.eqb_spec c newline); [congruence|]. rewrite IH; [done|done|cbn in Hl; lia|cbn in Hl; destruct Hr; [left; cbn in *; lia|by right]].
Qed.

Lemma upto_length n l : (length (upto n l).1 + length (upto n l).2 = length l)%nat.
Proof.
  revert n. induction l as [|c l IH]; intros [|n]; cbn; try done. destruct (c =? newline); [done|].
  specialize (IH n). destruct (upto n l) as [a b]. cbn in *. lia.
Qed.

Lemma cin_get_line_length n s : (length (cin_get_line n s).1 + length (chars (cin_get_line n s).2) = length (chars s))%nat.
Proof.
  unfold cin_get_line. destruct (good s); [|done]. pose proof (upto_length (n - 1) (chars s)) as H.
  destruct (upto (n - 1) (chars s)) as [a b]. exact H.
Qed.

Lemma cin_get_length s : (length (chars (cin_get s).2) <= length (chars s))%nat.
Proof. unfold cin_get. destruct (good s); [|done]. destruct (chars s); cbn; lia. Qed.

(** A command that does not go on with the program has taken a character. *)
Lemma command_consumes time s s' : command time s = Ok (false, s') -> (length (chars (input s')) < length (chars (input s)))%nat.
Proof.
  unfold command. cbn [say input runUntilTime singleStep output]. pose proof (cin_get_line_length 80 (input s)) as Hl.
  destruct (cin_get_line 80 (input s)) as [buf c]. cbn [fst snd] in Hl. destruct (sscanf_d buf) as [num| | | |]; cbn [mbind res_bind]; try done.
  assert (forall s1, chars (input s1) = chars c -> buf <> [] -> (length (chars (cin_get (input s1)).2) < length (chars (input s)))%nat) as H.
  { intros s1 E Hb. pose proof (cin_get_length (input s1)) as Hg. rewrite E in Hg. destruct buf; [done|]. cbn in Hl. lia. }
  set (X := match num with Some n => _ | None => _ end). assert (chars (input X.2) = chars c /\ (X.1 = false -> buf <> [])) as [HX1 HX2].
  { unfold X. destruct num as [n|]; [done|]. destruct buf as [|b buf]; [done|]. repeat case_match; done. }
  clearbody X. destruct X as [done s1]. cbn [fst snd] in *. pose proof (H s1 HX1) as Hc. destruct (cin_get (input s1)) as [ch c']. cbn [snd] in Hc.
  intros [= -> <-]. cbn. by apply Hc, HX2.
Qed.

Lemma command_outcome time s : (exists b s', command time s = Ok (b, s')) \/ command time s = Undefined.
Proof.
  unfold command. destruct (cin_get_line 80 _) as [buf c]. assert ((exists o, sscanf_d buf = Ok o) \/ sscanf_d buf = Undefined) as H.
  { unfold sscanf_d. repeat case_match; eauto. }
  destruct H as [[num ->]| ->]; [left|by right]. cbn [mbind res_bind].
  destruct (match num with Some n => _ | None => _ end) as [d s1]. destruct (cin_get (input s1)) as [ch c']. eauto.
Qed.

Lemma commands_end fuel time s : (length (chars (input s)) < fuel)%nat ->
  (exists s', commands fuel time s = Ok s') \/ commands fuel time s = Undefined.
Proof.
  revert s. induction fuel as [|fuel IH]; intros s Hf; [lia|]. cbn [commands].
  destruct (command_outcome time s) as [(b & s' & E)|E]; rewrite E; [|by right]. cbn. destruct b; [by left; exists s'|].
  apply IH. pose proof (command_consumes time s s' E). lia.
Qed.

Lemma cin_get_line_line line rest : newline ∉ line -> line <> [] -> (length line < 79)%nat ->
  cin_get_line 80 (MkCin (line ++ newline :: rest) true) = (line, MkCin (newline :: rest) true).
Proof.
  intros Hn He Hl. unfold cin_get_line. cbn [good chars]. change (80 - 1)%nat with 79%nat.
  rewrite upto_line; [|done|lia|by left]. by rewrite (bool_decide_false (line = [])) by done.
Qed.

(** A line with a command that goes on with the program. *)
Lemma number_command time u b line rest out n : newline ∉ line -> line <> [] -> (length line < 79)%nat -> sscanf_d line = Ok (Some n) ->
  command time (MkState u b (MkCin (line ++ newline :: rest) true) out) = Ok (true, MkState n b (MkCin rest true) (out ++ [Prompt time])).
Proof.
  intros Hn He Hl Hs. unfold command. cbn [say input runUntilTime singleStep output]. rewrite cin_get_line_line, Hs by done. reflexivity.
Qed.

Lemma continue_command time u b line rest out : newline ∉ line -> (length line < 78)%nat ->
  command time (MkState u b (MkCin (99 :: line ++ newline :: rest) true) out) = Ok (true, MkState 0 false (MkCin rest true) (out ++ [Prompt time])).
Proof.
  intros Hn Hl. unfold command. cbn [say input runUntilTime singleStep output].
  change (99 :: line ++ newline :: rest) with ((99 :: line) ++ newline :: rest).
  rewrite cin_get_line_line; [reflexivity|by apply not_elem_of_cons|done|cbn; lia].
Qed.

(** An empty line goes on, too, but leaves the stream, and the line in it, behind. *)
Lemma return_command time u b rest out :
  command time (MkState u b (MkCin (newline :: rest) true) out) = Ok (true, MkState 0 b (MkCin (newline :: rest) false) (out ++ [Prompt time])).
Proof. reflexivity. Qed.

Lemma dead_command time u b l out :
  command time (MkState u b (MkCin l false) out) = Ok (true, MkState 0 b (MkCin l false) (out ++ [Prompt time])).
Proof. reflexivity. Qed.

Definition dump (registers : list Z) : item :=
  Registers (zip (seqZ 0 32) (take 32 registers)) (map (fun i => nth i registers 0) [32%nat; 33%nat; 34%nat; 35%nat; 36%nat; 37%nat; 38%nat]).

(** The debugger comes back from every input, unless a number in it is too large for an
    [int].  A number runs the program until that time, "c" to its end; an empty line executes
    one instruction and makes the stream useless: from then on the debugger, at every
    instruction, shows the state and its prompt and does not read what is typed. *)
Theorem Debugger_exact registers time u b out :
  (forall s, (exists s', Debugger registers time s = Ok s') \/ Debugger registers time s = Undefined) /\
  (forall line rest n, newline ∉ line -> line <> [] -> (length line < 79)%nat -> sscanf_d line = Ok (Some n) ->
     Debugger registers time (MkState u b (MkCin (line ++ newline :: rest) true) out) =
       Ok (MkState n b (MkCin rest true) (out ++ [dump registers] ++ [Prompt time]))) /\
  (forall line rest, newline ∉ line -> (length line < 78)%nat ->
     Debugger registers time (MkState u b (MkCin (99 :: line ++ newline :: rest) true) out) =
       Ok (MkState 0 false (MkCin rest true) (out ++ [dump registers] ++ [Prompt time]))) /\
  (forall rest, exists s1, Debugger registers time (MkState u true (MkCin (newline :: rest) true) out) = Ok s1 /\
     forall registers' time', 0 <= time' -> after_instruction registers' time' s1 =
       Ok (MkState 0 true (input s1) (output s1 ++ [dump registers'] ++ [Prompt time'])) /\ good (input s1) = false).
Proof.
  split_and!.
  - intros s. unfold Debugger. apply commands_end. cbn. lia.
  - intros line rest n Hn He Hl Hs. unfold Debugger, DumpState, say. cbn [commands input chars runUntilTime singleStep output].
    rewrite (number_command _ _ _ _ _ _ _ Hn He Hl Hs). cbn. by rewrite <- app_assoc.
  - intros line rest Hn Hl. unfold Debugger, DumpState, say. cbn [commands input chars runUntilTime singleStep output].
    rewrite (continue_command _ _ _ _ _ _ Hn Hl). cbn. by rewrite <- app_assoc.
  - intros rest. unfold Debugger, DumpState, say. cbn [commands input chars runUntilTime singleStep output]. rewrite return_command. cbn [mbind res_bind].
    eexists. split; [reflexivity|]. intros registers' time' Ht. unfold after_instruction. cbn [singleStep runUntilTime andb].
    rewrite (proj2 (Z.leb_le 0 time') Ht). unfold Debugger, DumpState, say. cbn [commands input chars runUntilTime singleStep output].
    rewrite dead_command. cbn. by rewrite <- !app_assoc.
Qed.

Example sscanf_d_numbers : map sscanf_d [[49; 50]; [32; 45; 55; 120]; [99]; []; [45]] = [Ok (Some 12); Ok (Some (-7)); Ok None; Ok None; Ok None].
Proof. reflexivity. Qed.
End Debugger.
