(* ===== verification/VMSamples.v ===== *)
(** VMSamples: virtual memory on concrete inputs: executables kept in memory, a machine
    whose 128 frames are all mapped, and the theorems of VMInv.v, Spaces.v and UserMode.v
    applied to them. *)

From S2P Require Import Prelude Bitmap Mips TLB Machine SectorStore OpenFile VM VMInv Spaces UserMode.
From stdpp Require Import base numbers list gmap.
#[local] Open Scope Z_scope.

Module VMSamples.
Import VM VMInv Spaces.
#[local] Existing Instance Machine.world_registers.

(** * Executables in memory *)

(** The NOFF header of a program of one segment of 64 bytes. *)
Definition sample_exe : list Z := ints_to_bytes [NOFFMAGIC; 0; 52; 64; 0; 0; 0; 0; 0; 0; 0; 0; 0] ++ replicate 64 7.

Definition mem_write (file bs : list Z) (n pos : Z) : Z * list Z :=
  if decide (pos <= Z.of_nat (length file)) then (n, take (Z.to_nat pos) file ++ bs) else (0, file).

#[export] Program Instance mem_files : ExeFiles unit (list Z) := {|
  exe_Open name := fun s => Ok (if decide (name = []) then None else Some sample_exe, s);
  exe_ReadAt file n pos := fun s => Ok (OpenFile.read_result file (Z.of_nat (length file)) n pos, s);
  exe_WriteAt file bs n pos := fun s => Ok (mem_write file bs n pos, s);
  exe_ok s m := forall (a : Z) file, m !! a = Some file -> Forall is_byte file;
  exe_bytes s file := file
|}.
Next Obligation. intros f m a file H Ha. exact (H a file Ha). Qed.
Next Obligation. intros f m a H b file Hb. apply lookup_delete_Some in Hb as [_ Hb]. exact (H b file Hb). Qed.
Next Obligation. intros f m a file n pos H Ha Hn Hp. exists f. done. Qed.
Next Obligation.
  intros f m a file bs n pos H Ha Hn Hl Hb Hp. cbn. unfold mem_write. case_decide as Hd.
  - split; [|done]. intros b g Hg. destruct (decide (b = a)) as [->|Hne].
    + rewrite lookup_insert_eq in Hg. injection Hg as <-. apply Forall_app_2; [|done]. apply Forall_take. exact (H a file Ha).
    + rewrite lookup_insert_ne in Hg by done. exact (H b g Hg).
  - split; [|done]. intros b g Hg. destruct (decide (b = a)) as [->|Hne].
    + rewrite lookup_insert_eq in Hg. injection Hg as <-. exact (H a file Ha).
    + rewrite lookup_insert_ne in Hg by done. exact (H b g Hg).
Qed.

#[export] Instance mem_heap : Heap unit := {| uninit _ n := replicate n 0; uninit_length _ n := length_replicate n 0 |}.

(** * A full machine *)

(** Thread 0 has 129 pages; page [v] is in frame [v], the last one has no frame. *)
Definition full_entry (v : Z) : Machine.TranslationEntry :=
  if v <? 128 then Machine.MkEntry v v true false false false else Machine.MkEntry v (-1) false false false false.
Definition full_table : list Machine.TranslationEntry := map full_entry (range 0 129).
Definition full_phys : PhyMemManager :=
  MkPhy 128 (Bitmap.MkBitmap 128 4 (replicate 4 4294967295)) (map (MkPhyPage 0) (range 0 128)) (MkLRU (range 10 138) 128).
Definition full_kernel : Kernel unit (list Z) :=
  MkKernel full_phys (MkVirt 129 128 (5 :: replicate 127 0)) {[ 5 := MkSpace 1 0 129 sample_exe ]} 5 tt 138 0.
Definition full_tlb : TLB.TLBManager :=
  match TLB.update (TLB.TLBManager_new TLB.raw_entries) 0 0 0 with Ok t => t | _ => [] end.
Definition full_world : Machine.World (Kernel unit (list Z)) :=
  let m := Machine.Machine_new TLB.raw_entries 0 in
  Machine.MkWorld (Machine.MkMachine (Machine.registers m) (Machine.mainMemory m) full_tlb 1 129) {[ 1 := full_table ]} Machine.UserMode 0 full_kernel.

Lemma full_addr t : space_addr full_kernel t = if decide (t = 0) then Some 5 else None.
Proof.
  unfold space_addr. cbn -[replicate lookup]. case_decide as Hr.
  - destruct (decide (t = 0)) as [->|Hne]; [done|]. rewrite lookup_cons_ne_0 by lia. rewrite lookup_replicate_2 by lia. done.
  - rewrite decide_False; [done|]. intros ->. lia.
Qed.

Lemma range_lookup a b i : 0 <= i < b - a -> range a b !! Z.to_nat i = Some (a + i).
Proof. intros Hi. unfold range. rewrite lookup_seqZ_lt by lia. f_equal. lia. Qed.

Lemma full_pte t v : pte full_kernel {[ 1 := full_table ]} t v = if decide (t = 0 /\ 0 <= v < 129) then Some (full_entry v) else None.
Proof.
  unfold pte. rewrite full_addr. destruct (decide (t = 0)) as [->|Hne]; [|by rewrite decide_False by naive_solver].
  change (spaces full_kernel) with ({[ 5 := MkSpace 1 0 129 sample_exe ]} : gmap Z (AddrSpace (list Z))). rewrite lookup_singleton_eq.
  change (pageTable (MkSpace 1 0 129 sample_exe)) with 1. rewrite lookup_singleton_eq.
  unfold full_table. rewrite list_lookup_fmap. repeat case_decide; try lia; try done.
  - rewrite range_lookup by lia. done.
  - unfold range. by rewrite lookup_seqZ_ge by lia.
Qed.

Lemma full_in_use p : in_use full_kernel p <-> 0 <= p < 128.
Proof.
  unfold in_use, NumPhysPages. split; [tauto|]. intros Hp. split; [done|].
  assert (Forall (fun q => Bitmap.bit (phyMemoryMap full_phys) q = true) (range 0 128)) as H by by_compute.
  rewrite Forall_forall in H. apply H. by apply elem_of_range.
Qed.

Lemma full_owner p : 0 <= p < 128 -> owner full_kernel p = Some (MkPhyPage 0 p).
Proof. intros Hp. unfold owner. cbn -[range lookup]. rewrite list_lookup_fmap, range_lookup by lia. done. Qed.

Lemma full_bitmap : Bitmap.wf (phyMemoryMap full_phys).
Proof.
  constructor; try by_compute. all: cbn; repeat constructor; by_compute.
Qed.

Lemma sample_exe_byte : Forall is_byte sample_exe.
Proof. by_compute. Qed.

Lemma full_vm_ok : vm_ok full_world.
Proof.
  constructor.
  - constructor; try reflexivity. exact full_bitmap.
  - constructor; try reflexivity.
    + intros t a. change (Machine.kernel full_world) with full_kernel. rewrite full_addr. case_decide; [|done]. intros [= <-].
      exists (MkSpace 1 0 129 sample_exe), full_table. done.
    + intros t t' a a' s s'. change (Machine.kernel full_world) with full_kernel. rewrite !full_addr. repeat case_decide; congruence.
    + intros a file. cbn -[sample_exe]. rewrite map_fmap_singleton. intros [_ <-]%lookup_singleton_Some. exact sample_exe_byte.
  - intros t v e. change (pte full_kernel {[ 1 := full_table ]} t v = Some e -> Machine.readOnly e = false /\ (Machine.valid e = true ->
      in_use full_kernel (Machine.physicalPage e) /\ owner full_kernel (Machine.physicalPage e) = Some (MkPhyPage t v) /\ None <> Some (Machine.physicalPage e))).
    rewrite full_pte. case_decide as Hd; [|done]. destruct Hd as [-> Hv]. intros [= <-]. unfold full_entry.
    destruct (Z.ltb_spec v 128); [|done]. split; [done|]. intros _. split; [by apply full_in_use; cbn; lia|]. split; [apply full_owner; cbn; lia|done].
  - intros p Hp _. apply full_in_use in Hp. exists 0, p, (full_entry p).
    change (owner full_kernel p = Some (MkPhyPage 0 p) /\ pte full_kernel {[ 1 := full_table ]} 0 p = Some (full_entry p) /\
      Machine.valid (full_entry p) = true /\ Machine.physicalPage (full_entry p) = p).
    rewrite full_owner, full_pte, decide_True by lia. unfold full_entry. by rewrite (proj2 (Z.ltb_lt _ _)) by lia.
  - done.
Qed.

Lemma full_mem_ok : Machine.mem_ok (Machine.machine full_world).
Proof.
  destruct (TLB.new_wf TLB.raw_entries) as [Hw Hn].
  destruct (TLB.update_spec (TLB.TLBManager_new TLB.raw_entries) 0 0 0 Hw (Hn _)) as (t & row & k & E & Ht & _ & _ & Hf).
  unfold full_world, full_tlb. rewrite E. apply (Machine.mem_ok_tlb (Machine.MkMachine _ _ (Machine.tlbManager Machine.sample_machine) 1 129)).
  - pose proof Machine.sample_mem_ok as []. by constructor.
  - exact Ht.
  - intros v f o Hv Hfo. rewrite Hf in Hfo by done. case_decide; [by injection Hfo as <- _|].
    destruct ((TLB.TLBI v =? _) && _); [done|]. by rewrite Hn in Hfo.
Qed.

Lemma full_current : current_ok full_world.
Proof. exists (MkSpace 1 0 129 sample_exe). done. Qed.

(** Frame 0 was loaded first. *)
Lemma full_least : least_time (range 10 138) 0.
Proof.
  exists 10. split; [reflexivity|]. intros j x Hj Hx. unfold range in Hx. apply lookup_seqZ in Hx as [-> _]. lia.
Qed.

Lemma full_ready : Mips.ready (Machine.inv UserMode.kernel_inv) full_world.
Proof.
  split; [|split; [exact full_mem_ok|split; [exists full_table; split; [reflexivity|by_compute]|split; [exact full_vm_ok|exact full_current]]]].
  split; [reflexivity|]. split; [|by_compute]. cbn -[replicate Z.to_nat]. apply Forall_replicate. by_compute.
Qed.

(** * The theorems on these inputs *)

Example page_fault_repairs_witness : exists w', pageFaultHandler 128 full_world = Ok (tt, w') /\
  pte (Machine.kernel w') (Machine.pageTables w') 0 128 = Some (Machine.MkEntry 128 0 true false false false).
Proof.
  destruct (page_fault_repairs full_world 128 (full_entry 128) full_vm_ok full_mem_ok full_current) as [[E _]|(p & w1 & w' & E & Hch & _ & _ & _ & _ & Hp)].
  - reflexivity.
  - reflexivity.
  - vm_compute in E. discriminate E.
  - exists w'. split; [exact E|]. rewrite Hp. rewrite decide_True by done.
    destruct Hch as (Hr & [(Hfree & _)|(_ & Hl & _)]); [by destruct Hfree; apply full_in_use|].
    rewrite (least_time_unique _ p 0 (proj1 Hr) (Z.le_refl 0) Hl full_least). reflexivity.
Defined.

Example evicted_page_stays_cached_witness : exists w', pageFaultHandler 128 full_world = Ok (tt, w') /\
  TLB.find (Machine.tlbManager (Machine.machine w')) 0 = Some (0, 0).
Proof.
  destruct (evicted_page_stays_cached full_world 128 (full_entry 128) 0 0 0 (full_entry 0) 0 full_vm_ok full_mem_ok full_current) as (w' & E & _ & _ & H).
  - reflexivity.
  - reflexivity.
  - intros j Hj. by apply full_in_use.
  - by_compute.
  - exact full_least.
  - by apply full_owner.
  - reflexivity.
  - reflexivity.
  - reflexivity.
  - exists w'. split; [exact E|exact H].
Defined.

Example create_address_space_witness : createAddrSpace 0 [1] full_world = Ok (5, full_world) /\
  exists w', createAddrSpace 3 [1] full_world = Ok (new_address (spaces full_kernel), w') /\ vm_ok w'.
Proof.
  split; [exact (create_address_space full_world 0 [1] full_vm_ok ltac:(by_compute))|].
  pose proof (create_address_space full_world 3 [1] full_vm_ok ltac:(by_compute)) as H.
  change (create_spec full_world 3 [1]) in H. unfold create_spec in H. cbv zeta in H.
  change (exe_Open [1] (files (Machine.kernel full_world))) with (Ok (Some sample_exe, tt)) in H. cbv iota in H.
  destruct H as (f2 & H).
  { intros a file Ha. destruct (decide (a = new_address (spaces (Machine.kernel full_world)))) as [->|Hne].
    - rewrite lookup_insert_eq in Ha. injection Ha as <-. exact sample_exe_byte.
    - rewrite lookup_insert_ne in Ha by done. cbn -[sample_exe] in Ha. rewrite map_fmap_singleton in Ha.
      apply lookup_singleton_Some in Ha as [_ <-]. exact sample_exe_byte. }
  destruct f2. change (exe_bytes tt sample_exe) with sample_exe in H.
  replace (noff_word (header_of sample_exe tt) 0 =? NOFFMAGIC) with true in H by (vm_compute; reflexivity).
  replace (MAX_VIRT_PAGES <? _) with false in H by (vm_compute; reflexivity).
  destruct H as (w' & E & Hvm & _). exists w'. split; [exact E|exact Hvm].
Defined.

Example delete_address_space_witness : exists w', deleteAddrSpace 0 full_world = Ok (tt, w') /\ vm_ok w' /\
  ~ in_use (Machine.kernel w') 3 /\ virtPageNums (virtMemManager (Machine.kernel w')) = 129.
Proof.
  destruct (delete_address_space full_world 0 5 full_vm_ok (full_addr 0)) as (w' & E & Hvm & Hin & _ & Hn).
  exists w'. split; [exact E|]. split; [exact Hvm|]. split; [|exact Hn]. intros Hu. apply Hin in Hu as [_ Hno].
  exact (Hno 3 (full_owner 3 ltac:(lia))).
Defined.

End VMSamples.
