(* ===== verification/UserPrograms.v ===== *)
(** UserPrograms: the C programs that run on the system, src/code/test/ (sort.c, matmult.c,
    segments.c, TLBtest.c, add.c, halt.c, shell.c) and src/code/shell/ (shell.c and the UNIX
    implementation of the system calls, nachos_syscall.c).

    What the kernel does under a user program is in UserMode.v, for any program; here are the
    programs themselves, as C code: an [int] array is a list reached by [aget] and [aset], a
    program is what it does up to its call of Exit or Halt.  The system calls are those of
    nachos_syscall.c, over UNIX calls that are parameters. *)

From S2P Require Import Prelude.
From stdpp Require Import base numbers list gmap sorting.
#[local] Open Scope Z_scope.

Module UserPrograms.

(** How a program ends. *)
Inductive ending := Exit (status : Z) | Halt.

(** * sort.c *)

Definition SIZE : Z := 1024.

Definition sort_init (size : Z) (A : list Z) : res (list Z) :=
  for_each (range 0 size) (fun i A => aset A i ((size - 1) - i)) A.

Definition sort_step (j : Z) (A : list Z) : res (list Z) :=
  x ← aget A j; y ← aget A (j + 1);
  if x >? y then
    tmp ← aget A j; y ← aget A (j + 1); A ← aset A j y; aset A (j + 1) tmp
  else Ok A.

Definition sort_loop (size : Z) (A : list Z) : res (list Z) :=
  for_each (range 0 size) (fun i A => for_each (range 0 (size - 1)) sort_step A) A.

Definition sort_check (size : Z) (A : list Z) : res ending :=
  r ← for_ret (range 0 size) (fun i _ => x ← aget A i; Ok (if negb (x =? i) then inr (Exit 1) else inl tt)) tt;
  Ok (match r with inr e => e | inl _ => Exit 0 end).

Definition sort_main : res ending :=
  A ← sort_init SIZE (replicate (Z.to_nat SIZE) 0); A ← sort_loop SIZE A; sort_check SIZE A.

(** * matmult.c *)

Definition Dim : Z := 20.
Abbreviation matrix := (list (list Z)).

Definition get2 (m : matrix) (i j : Z) : res Z := r ← aget m i; aget r j.
Definition set2 (m : matrix) (i j v : Z) : res matrix := r ← aget m i; r ← aset r j v; aset m i r.

Definition matmult_init (s : matrix * matrix * matrix) : res (matrix * matrix * matrix) :=
  for_each (range 0 Dim) (fun i => for_each (range 0 Dim) (fun j '(A, B, C) =>
    A ← set2 A i j i; B ← set2 B i j j; C ← set2 C i j 0; Ok (A, B, C))) s.

Definition matmult_loop (A B C : matrix) : res matrix :=
  for_each (range 0 Dim) (fun i => for_each (range 0 Dim) (fun j => for_each (range 0 Dim) (fun k C =>
    c ← get2 C i j; a ← get2 A i k; b ← get2 B k j; set2 C i j (i32 (c + i32 (a * b)))))) C.

Definition zeros : matrix := replicate (Z.to_nat Dim) (replicate (Z.to_nat Dim) 0).

Definition matmult_main : res ending :=
  '(A, B, C) ← matmult_init (zeros, zeros, zeros);
  C ← matmult_loop A B C;
  x ← get2 C (Dim - 1) (Dim - 1); Ok (Exit x).

(** * The small programs *)

Definition segments_N : Z := 5.
Definition segments_main : res (list Z * ending) :=
  uninitdata ← for_each (range 0 segments_N) (fun i u => aset u i i) (replicate (Z.to_nat segments_N) 0); Ok (uninitdata, Halt).

Definition halt_main : res ending := Ok Halt.

(** [Add(42, 23)], the call being a parameter. *)
Definition add_main (Add : Z -> Z -> res Z) : res (Z * ending) := result ← Add 42 23; Ok (result, Halt).

(** [for (i = 0; i < 1024; i *= 100)], at most [fuel] times. *)
Fixpoint TLBtest_loop (fuel : nat) (A : list Z) (i : Z) : res ending :=
  match fuel with
  | O => OutOfFuel
  | S fuel => if i <? 1024 then A ← aset A i i; TLBtest_loop fuel A (i32 (i * 100)) else Ok Halt
  end.
Definition TLBtest_main (fuel : nat) : res ending := TLBtest_loop fuel (replicate 1024 0) 0.

(** * Bubble sort *)

(** A pass carries the largest number so far. *)
Fixpoint bubble (x : Z) (l : list Z) : list Z :=
  match l with [] => [x] | y :: l' => if x >? y then y :: bubble x l' else x :: bubble y l' end.

Lemma aget_mid pre (x : Z) l : aget (pre ++ x :: l) (Z.of_nat (length pre)) = Ok x.
Proof. apply aget_Ok. split; [lia|]. rewrite Nat2Z.id. by apply list_lookup_middle. Qed.

Lemma aset_mid pre (x v : Z) l : aset (pre ++ x :: l) (Z.of_nat (length pre)) v = Ok (pre ++ v :: l).
Proof.
  rewrite aset_in by (rewrite length_app; simpl; lia). rewrite Nat2Z.id. f_equal.
  rewrite insert_app_r_alt by done. by rewrite Nat.sub_diag.
Qed.

Lemma sort_step_mid pre x y l : sort_step (Z.of_nat (length pre)) (pre ++ x :: y :: l) =
  Ok (if x >? y then pre ++ y :: x :: l else pre ++ x :: y :: l).
Proof.
  unfold sort_step. set (j := Z.of_nat (length pre)).
  assert (forall z, Z.of_nat (length (pre ++ [z])) = j + 1) as En by (intros; rewrite length_app; simpl; lia).
  assert (aget (pre ++ x :: y :: l) j = Ok x) as E0 by apply aget_mid.
  assert (aget (pre ++ x :: y :: l) (j + 1) = Ok y) as E1.
  { rewrite <- (En x). replace (pre ++ x :: y :: l) with ((pre ++ [x]) ++ y :: l) by (by rewrite <- app_assoc). apply aget_mid. }
  rewrite E0, E1. cbn [mbind res_bind]. destruct (x >? y); [|done].
  unfold j. rewrite aset_mid. cbn [mbind res_bind]. fold j. rewrite <- (En y).
  replace (pre ++ y :: y :: l) with ((pre ++ [y]) ++ y :: l) by (by rewrite <- app_assoc). rewrite aset_mid. by rewrite <- app_assoc.
Qed.

Lemma sort_pass pre x l : for_each (range (Z.of_nat (length pre)) (Z.of_nat (length pre + length l))) sort_step (pre ++ x :: l) = Ok (pre ++ bubble x l).
Proof.
  revert pre x. induction l as [|y l IH]; intros pre x; [by rewrite range_nil by (simpl; lia)|].
  rewrite range_cons by (simpl; lia). cbn [for_each]. rewrite sort_step_mid. cbn [mbind res_bind bubble].
  assert (forall z w, for_each (range (Z.of_nat (length pre) + 1) (Z.of_nat (length pre + length (y :: l)))) sort_step (pre ++ z :: w :: l) = Ok (pre ++ z :: bubble w l)) as H.
  { intros z w. specialize (IH (pre ++ [z]) w). rewrite <- !app_assoc, length_app in IH. cbn [app length] in *.
    replace (Z.of_nat (length pre) + 1) with (Z.of_nat (length pre + 1)) by lia.
    replace (length pre + S (length l))%nat with (length pre + 1 + length l)%nat by lia. exact IH. }
  destruct (x >? y); apply H.
Qed.

Lemma bubble_perm x l : bubble x l ≡ₚ x :: l.
Proof.
  revert x. induction l as [|y l IH]; intros x; [done|]. cbn [bubble]. destruct (x >? y); rewrite IH; [apply Permutation_swap|done].
Qed.

(** The carried number ends up behind all others. *)
Lemma bubble_last x l : exists l' m, bubble x l = l' ++ [m] /\ Forall (fun y => y <= m) (x :: l').
Proof.
  revert x. induction l as [|y l IH]; intros x; [exists [], x; split; [done|by repeat constructor]|]. cbn [bubble].
  destruct (Z.gtb_spec x y) as [Hxy|Hxy].
  - destruct (IH x) as (l' & m & -> & [Hx Hl]%Forall_cons). exists (y :: l'), m. split; [done|]. repeat constructor; [lia|lia|done].
  - destruct (IH y) as (l' & m & -> & [Hy Hl]%Forall_cons). exists (x :: l'), m. split; [done|]. repeat constructor; [lia|lia|done].
Qed.

(** A pass leaves alone what is sorted and not less than the rest. *)
Lemma bubble_sorted x l : StronglySorted Z.le (x :: l) -> bubble x l = x :: l.
Proof.
  revert x. induction l as [|y l IH]; intros x [Hs Hx]%StronglySorted_inv; [done|]. cbn [bubble].
  apply Forall_cons in Hx as [Hx _]. destruct (Z.gtb_spec x y); [lia|]. by rewrite IH.
Qed.

Lemma bubble_app x l1 l2 : StronglySorted Z.le l2 -> (forall a b, a ∈ x :: l1 -> b ∈ l2 -> a <= b) -> bubble x (l1 ++ l2) = bubble x l1 ++ l2.
Proof.
  intros Hs. revert x. induction l1 as [|y l1 IH]; intros x Hle; cbn [app].
  - rewrite bubble_sorted; [done|]. constructor; [done|]. apply Forall_forall. intros b Hb. apply Hle; [left|done].
  - cbn [bubble]. destruct (x >? y); rewrite IH; try done; intros a b Ha; apply Hle; set_solver.
Qed.

(** After [k] passes the [k] largest numbers are in place. *)
Lemma sort_passes k l1 l2 : (k <= length l1)%nat -> StronglySorted Z.le l2 -> (forall a b, a ∈ l1 -> b ∈ l2 -> a <= b) ->
  forall ix, length ix = k ->
  exists l1' l2', for_each ix (fun _ A => for_each (range 0 (Z.of_nat (length (l1 ++ l2)) - 1)) sort_step A) (l1 ++ l2) = Ok (l1' ++ l2') /\
    l1' ++ l2' ≡ₚ l1 ++ l2 /\ StronglySorted Z.le l2' /\ length l1' = (length l1 - k)%nat.
Proof.
  revert l1 l2. induction k as [|k IH]; intros l1 l2 Hk Hs Hle ix His.
  { destruct ix; [|done]. exists l1, l2. split_and!; [done..|lia]. }
  destruct ix as [|i ix]; [done|]. destruct l1 as [|x l1]; [simpl in Hk; lia|]. cbn [for_each].
  pose proof (sort_pass [] x (l1 ++ l2)) as Hp. cbn [app length Nat.add] in Hp.
  replace (Z.of_nat (length ((x :: l1) ++ l2)) - 1) with (Z.of_nat (length (l1 ++ l2))) by (cbn [app length]; lia).
  cbn [app]. change (Z.of_nat 0) with 0 in Hp. rewrite Hp. cbn [mbind res_bind].
  rewrite bubble_app by done. destruct (bubble_last x l1) as (l1' & m & E & [Hx Hm]%Forall_cons). rewrite E.
  pose proof (bubble_perm x l1) as Hperm. rewrite E in Hperm.
  assert (length l1' = length l1) as Hl by (apply Permutation_length in Hperm; rewrite length_app in Hperm; simpl in Hperm; lia).
  destruct (IH l1' (m :: l2)) with (ix := ix) as (a & b & E2 & Hp2 & Hs2 & Hl2).
  - simpl in Hk. lia.
  - constructor; [done|]. apply Forall_forall. intros b Hb. apply Hle; [|done]. rewrite <- Hperm. set_solver.
  - intros a b Ha [->|Hb]%elem_of_cons; [by eapply Forall_forall in Hm|]. apply Hle; [|done]. rewrite <- Hperm. set_solver.
  - simpl in His. lia.
  - rewrite <- app_assoc. cbn [app].
    replace (length (l1 ++ l2)) with (length (l1' ++ m :: l2) - 1)%nat by (rewrite !length_app; simpl; lia).
    replace (Z.of_nat (length (l1' ++ m :: l2) - 1)) with (Z.of_nat (length (l1' ++ m :: l2)) - 1) by (rewrite length_app; simpl; lia).
    exists a, b. split_and!; [exact E2| |done|simpl; lia].
    rewrite Hp2. transitivity ((l1' ++ [m]) ++ l2); [by rewrite <- app_assoc|]. by rewrite Hperm.
Qed.

Lemma sort_loop_sorts A : exists A', sort_loop (Z.of_nat (length A)) A = Ok A' /\ A' ≡ₚ A /\ StronglySorted Z.le A'.
Proof.
  destruct (sort_passes (length A) A []) with (ix := range 0 (Z.of_nat (length A))) as (l1 & l2 & E & Hp & Hs & Hl).
  - lia.
  - constructor.
  - intros a b _ Hb. by apply not_elem_of_nil in Hb.
  - unfold range. rewrite length_seqZ. lia.
  - rewrite app_nil_r in *. exists (l1 ++ l2). split_and!; [exact E|done|]. by destruct l1; [|simpl in Hl; lia].
Qed.

Lemma range_sorted a n : StronglySorted Z.le (seqZ a n).
Proof.
  revert a. unfold seqZ. generalize (Z.to_nat n). intros k a. induction k as [|k IH] in a |- *; [constructor|].
  cbn [seq fmap list_fmap]. rewrite <- fmap_S_seq, <- list_fmap_compose. constructor.
  - replace ((fun i => Z.add (Z.of_nat i) a) ∘ S <$> seq 0 k) with ((fun i => Z.add (Z.of_nat i) (a + 1)) <$> seq 0 k); [apply IH|].
    apply list_fmap_ext. intros i x _. unfold compose. lia.
  - apply Forall_forall. intros x (i & -> & Hi)%list_elem_of_fmap. unfold compose. lia.
Qed.

Lemma sort_loop_reverse n : 0 <= n -> sort_loop n (reverse (range 0 n)) = Ok (range 0 n).
Proof.
  intros Hn. destruct (sort_loop_sorts (reverse (range 0 n))) as (A' & E & Hp & Hs).
  assert (Z.of_nat (length (reverse (range 0 n))) = n) as Hl by (rewrite length_reverse; unfold range; rewrite length_seqZ; lia).
  rewrite Hl in E. rewrite E. f_equal.
  eapply (StronglySorted_unique Z.le); [done|apply range_sorted|]. rewrite Hp. apply reverse_Permutation.
Qed.

Lemma bind_res_Ok {A B} (m : res A) (f : A -> res B) a : m = Ok a -> (m ≫= f) = f a.
Proof. by intros ->. Qed.

Lemma sort_init_reverse : sort_init SIZE (replicate (Z.to_nat SIZE) 0) = Ok (reverse (range 0 SIZE)).
Proof. vm_compute. reflexivity. Qed.

Lemma sort_check_range : sort_check SIZE (range 0 SIZE) = Ok (Exit 0).
Proof. vm_compute. reflexivity. Qed.

(** sort.c sorts: its two loops turn any array, whatever its size, into a sorted
    permutation of it, with no index out of range; and the program, that starts from the
    numbers 1023 down to 0, finds every number in its place and calls Exit(0). *)
Theorem sort_program_sorts (A : list Z) :
  (exists A', sort_loop (Z.of_nat (length A)) A = Ok A' /\ A' ≡ₚ A /\ StronglySorted Z.le A') /\ sort_main = Ok (Exit 0).
Proof.
  split; [apply sort_loop_sorts|]. unfold sort_main. erewrite bind_res_Ok by exact sort_init_reverse.
  erewrite bind_res_Ok by (apply sort_loop_reverse; by vm_compute). exact sort_check_range.
Qed.

(** matmult.c: the product of the matrices is right in every place, no index is out of range
    and no [int] overflows; the program ends with the last element, 7220. *)
Theorem matmult_program : matmult_main = Ok (Exit 7220) /\
  ('(A, B, C) ← matmult_init (zeros, zeros, zeros); matmult_loop A B C) =
    Ok (map (fun i => map (fun j => Dim * (i * j)) (range 0 Dim)) (range 0 Dim)).
Proof. split; vm_compute; reflexivity. Qed.

(** segments.c fills its array. *)
Theorem segments_program : segments_main = Ok ([0; 1; 2; 3; 4], Halt).
Proof. reflexivity. Qed.

(** TLBtest.c never gets to its call of Halt: [i] is 0, and stays 0 when it is multiplied. *)
Theorem TLBtest_never_ends fuel : TLBtest_main fuel = OutOfFuel.
Proof.
  unfold TLBtest_main. set (A := replicate 1024 0). assert (aset A 0 0 = Ok A) as E by reflexivity. clearbody A.
  induction fuel as [|fuel IH]; [done|]. cbn [TLBtest_loop]. change (0 <? 1024) with true. rewrite E. exact IH.
Qed.
End UserPrograms.
