(* ===== verification/Shell.v ===== *)
(** Shell: the shell of src/code/shell/shell.c and of src/code/test/shell.c, and the system
    calls that the first one is linked with, src/code/shell/nachos_syscall.c.

    The UNIX calls are parameters ([Unix]); what the shell relies on is documented behaviour
    of read, write, vfork, execl and waitpid, stated in [Terminal]. *)

From S2P Require Import Prelude.
From stdpp Require Import base numbers list gmap.
#[local] Open Scope Z_scope.

Module Shell.

(** * UNIX

    A string argument is its bytes.  [u_spawn] is the pair of vfork and, in the child,
    execl of the shell on a command (and _exit if that fails): it returns what vfork returns
    to the parent.  [u_read] also returns the bytes that it put into the buffer. *)
Class Unix (St : Type) := {
  u_open : list Z -> Z -> M St Z;
  u_close : Z -> M St Z;
  u_read : Z -> Z -> M St (Z * list Z);
  u_write : Z -> list Z -> M St Z;
  u_lseek : Z -> Z -> Z -> M St Z;
  u_unlink : list Z -> M St Z;
  u_remove : list Z -> M St Z;
  u_spawn : list Z -> M St Z;
  u_waitpid : Z -> M St Z;
  u_getpid : M St Z
}.

(** Constants of the C library on Linux. *)
Definition O_RDONLY : Z := 0.
Definition O_WRONLY : Z := 1.
Definition O_RDWR : Z := 2.
Definition O_CREAT : Z := 0x40.
Definition O_TRUNC : Z := 0x200.
Definition O_APPEND : Z := 0x400.
Definition SEEK_SET : Z := 0.
Definition EPERM : Z := 1.

(** * nachos_syscall.c *)

Definition ConsoleInput : Z := 0.
Definition ConsoleOutput : Z := 1.
Definition RO : Z := 1.
Definition RW : Z := 2.
Definition APPEND : Z := 3.

Section Syscalls.
Context {St : Type} `{Unix St}.

Definition Exit (status : Z) : M St unit := lift Exited.
Definition Halt : M St unit := Exit 0.

(** An [int] sum that does not fit is undefined. *)
Definition Add (op1 op2 : Z) : M St Z := lift (if decide (is_i32 (op1 + op2)) then Ok (op1 + op2) else Undefined).

(** SpaceId is unsigned. *)
Definition Exec (exec_name : list Z) : M St Z :=
  child ← u_spawn exec_name; mret (if child <? 0 then EPERM else u32 child).

Definition Join (id : Z) : M St Z := u_waitpid (i32 id).

Definition Create (name : list Z) : M St Z :=
  fd ← u_open name (Z.lor (Z.lor O_TRUNC O_CREAT) O_WRONLY);
  if fd >? 0 then _ ← u_close fd; mret 1 else mret fd.

Definition Remove (name : list Z) : M St Z := u_remove name.

Definition Open (name : list Z) (mode : Z) : M St Z :=
  if mode =? RO then u_open name O_RDONLY
  else if mode =? RW then u_open name O_RDWR
  else if mode =? APPEND then u_open name O_APPEND
  else mret (-1).

Definition Write (buffer : list Z) (id : Z) : M St Z := u_write id buffer.
Definition Read (size id : Z) : M St (Z * list Z) := u_read id size.

(** The source passes the offset where lseek takes where to count from, and the other way
    round. *)
Definition Seek (position id : Z) : M St Z := u_lseek id SEEK_SET position.

Definition Delete (name : list Z) : M St Z := u_unlink name.
Definition Close (id : Z) : M St Z := u_close id.
Definition getSpaceID : M St Z := p ← u_getpid; mret (u32 p).
Definition getThreadID : M St Z := p ← u_getpid; mret (u32 p).

(** * The shell

    [banner] is what it says first and [exits] whether it knows "exit": the shell of
    src/code/test has neither. *)

Definition prompt : list Z := [45; 45].
Definition newline : Z := 10.
Definition exit_word : list Z := [101; 120; 105; 116].
(** "NachOS-SHELL ver 0.0\n" *)
Definition banner_text : list Z := [78; 97; 99; 104; 79; 83; 45; 83; 72; 69; 76; 76; 32; 118; 101; 114; 32; 48; 46; 48; 10].

(** The bytes of a string up to its end. *)
Fixpoint cstring (buffer : list Z) : list Z :=
  match buffer with [] => [] | c :: b => if c =? 0 then [] else c :: cstring b end.

(** [do { Read(&buffer[i], 1, input); } while (buffer[i++] != '\n');]  The buffer is full
    before the fuel is out. *)
Fixpoint read_line (fuel : nat) (buffer : list Z) (i : Z) : M St (list Z * Z) :=
  match fuel with
  | O => lift OutOfFuel
  | S fuel =>
      '(_, bytes) ← Read 1 ConsoleInput;
      buffer ← lift (match bytes with b :: _ => aset buffer i b | [] => Ok buffer end);
      c ← lift (aget buffer i);
      if c =? newline then mret (buffer, i + 1) else read_line fuel buffer (i + 1)
  end.

(** One turn of [while (1)]; the result is the buffer, that the next turn finds. *)
Definition shell_turn (exits : bool) (buffer : list Z) : M St (list Z) :=
  _ ← Write prompt ConsoleOutput;
  '(buffer, i) ← read_line (S (length buffer)) buffer 0;
  let i := i - 1 in
  buffer ← lift (aset buffer i 0);
  if exits && bool_decide (take 4 (cstring buffer) = exit_word) then _ ← Halt; mret buffer
  else if i >? 0 then newProc ← Exec (cstring buffer); _ ← Join newProc; mret buffer
  else mret buffer.

Fixpoint shell_turns (exits : bool) (n : nat) (buffer : list Z) : M St (list Z) :=
  match n with O => mret buffer | S n => buffer ← shell_turn exits buffer; shell_turns exits n buffer end.

Definition BufferSize : Z := 60.

(** [main], for [n] turns; [raw] is what the buffer holds before. *)
Definition shell_main (banner : bool) (n : nat) (raw : list Z) : M St (list Z) :=
  _ ← (if banner then Write banner_text ConsoleOutput else mret 0); shell_turns banner n raw.
End Syscalls.

(** * What UNIX does *)

(** What is seen of a session: text on the display, and commands that are run. *)
Inductive entry := Display (bytes : list Z) | Command (bytes : list Z).

(** The terminal: what will be typed, and what has been seen.  read waits for one byte and
    returns it; a command is run to its end by waitpid, and takes no input here. *)
Class Terminal (St : Type) `{Unix St} := {
  typed : St -> list Z;
  seen : St -> list entry;
  read_law s c rest : typed s = c :: rest ->
    exists s', u_read ConsoleInput 1 s = Ok ((1, [c]), s') /\ typed s' = rest /\ seen s' = seen s;
  write_law s bytes :
    exists s', u_write ConsoleOutput bytes s = Ok (Z.of_nat (length bytes), s') /\ typed s' = typed s /\ seen s' = seen s ++ [Display bytes];
  spawn_law s cmd :
    exists pid s', u_spawn cmd s = Ok (pid, s') /\ 0 < pid < 2 ^ 31 /\ typed s' = typed s /\ seen s' = seen s ++ [Command cmd];
  wait_law s pid : 0 < pid < 2 ^ 31 ->
    exists r s', u_waitpid pid s = Ok (r, s') /\ typed s' = typed s /\ seen s' = seen s
}.

Section Session.
Context {St : Type} `{Terminal St}.
Implicit Types (s : St) (line buffer junk : list Z).

Lemma aset_at pre (x v : Z) junk : aset (pre ++ x :: junk) (Z.of_nat (length pre)) v = Ok (pre ++ v :: junk).
Proof.
  rewrite aset_in by (rewrite length_app; simpl; lia). rewrite Nat2Z.id. f_equal.
  rewrite insert_app_r_alt by done. by rewrite Nat.sub_diag.
Qed.

Lemma aget_at pre (x : Z) junk : aget (pre ++ x :: junk) (Z.of_nat (length pre)) = Ok x.
Proof. apply aget_Ok. split; [lia|]. rewrite Nat2Z.id. by apply list_lookup_middle. Qed.

(** Reading one more byte of a line. *)
Lemma read_line_byte fuel pre x junk s c rest : typed s = c :: rest -> exists s',
  typed s' = rest /\ seen s' = seen s /\
  read_line (S fuel) (pre ++ x :: junk) (Z.of_nat (length pre)) s =
    (if c =? newline then mret (pre ++ c :: junk, Z.of_nat (length pre) + 1)
     else read_line fuel ((pre ++ [c]) ++ junk) (Z.of_nat (length (pre ++ [c])))) s'.
Proof.
  intros Hc. destruct (read_law s c rest Hc) as (s' & E & Ht & Hs). exists s'. split; [done|]. split; [done|].
  cbn [read_line]. erewrite bind_M_Ok by exact E. cbn beta iota. rewrite aset_at, bind_lift_Ok, aget_at, bind_lift_Ok.
  destruct (c =? newline); [done|]. rewrite <- app_assoc, length_app, Nat2Z.inj_add. done.
Qed.

Lemma read_line_ok fuel line pre junk s rest : newline ∉ line -> typed s = line ++ newline :: rest ->
  (length line < length junk)%nat -> (length junk < fuel)%nat ->
  exists s', read_line fuel (pre ++ junk) (Z.of_nat (length pre)) s =
      Ok ((pre ++ line ++ newline :: drop (S (length line)) junk, Z.of_nat (length pre + length line) + 1), s') /\
    typed s' = rest /\ seen s' = seen s.
Proof.
  revert fuel pre junk s. induction line as [|c line IH]; intros fuel pre junk s Hn Ht Hl Hf;
    (destruct junk as [|x junk]; [simpl in Hl; lia|]); (destruct fuel as [|fuel]; [lia|]).
  - destruct (read_line_byte fuel pre x junk s _ _ Ht) as (s' & Ht' & Hs' & ->). exists s'. split_and!; [|done..].
    rewrite Z.eqb_refl. cbn [app length drop]. by rewrite drop_0, Nat.add_0_r.
  - apply not_elem_of_cons in Hn as [Hc Hn]. destruct (read_line_byte fuel pre x junk s _ _ Ht) as (s' & Ht' & Hs' & ->).
    rewrite (proj2 (Z.eqb_neq c newline)) by congruence. simpl in Hl, Hf.
    destruct (IH fuel (pre ++ [c]) junk s' Hn Ht') as (s2 & E & Ht2 & Hs2); [lia..|].
    exists s2. split_and!; [|done|congruence]. rewrite E, <- app_assoc. cbn [app length drop]. do 3 f_equal. rewrite length_app. simpl. lia.
Qed.

(** A line that does not fit is written behind the end of the buffer. *)
Lemma read_line_overflow fuel line pre junk s c rest : newline ∉ line -> typed s = line ++ c :: rest ->
  length line = length junk -> (length junk < fuel)%nat -> read_line fuel (pre ++ junk) (Z.of_nat (length pre)) s = Undefined.
Proof.
  revert fuel pre junk s. induction line as [|b line IH]; intros fuel pre junk s Hn Ht Hl Hf;
    (destruct fuel as [|fuel]; [lia|]); (destruct junk as [|x junk]; try done).
  - cbn [read_line]. destruct (read_law s _ _ Ht) as (s' & E & _). erewrite bind_M_Ok by exact E. cbn beta iota.
    unfold aset. rewrite decide_False by (rewrite app_nil_r; lia). done.
  - apply not_elem_of_cons in Hn as [Hc Hn]. destruct (read_line_byte fuel pre x junk s _ _ Ht) as (s' & Ht' & Hs' & ->).
    rewrite (proj2 (Z.eqb_neq b newline)) by congruence. simpl in Hl, Hf. apply (IH _ _ _ s'); [done|done|lia|lia].
Qed.

Lemma cstring_app line junk : 0 ∉ line -> cstring (line ++ 0 :: junk) = line.
Proof.
  induction line as [|c line IH]; intros Hn; [done|]. apply not_elem_of_cons in Hn as [Hc Hn]. cbn.
  rewrite (proj2 (Z.eqb_neq c 0)) by done. by rewrite IH.
Qed.

(** A line that the buffer takes, as text. *)
Definition line_ok line : Prop := newline ∉ line /\ 0 ∉ line /\ Z.of_nat (length line) < BufferSize.

(** What a turn shows. *)
Definition turn_entries line : list entry := Display prompt :: match line with [] => [] | _ => [Command line] end.

(** A turn up to the end of the line, and what follows. *)
Lemma shell_turn_reads exits buffer s line rest : Z.of_nat (length buffer) = BufferSize -> line_ok line -> typed s = line ++ newline :: rest ->
  exists s' buffer', typed s' = rest /\ seen s' = seen s ++ [Display prompt] /\ Z.of_nat (length buffer') = BufferSize /\
    shell_turn exits buffer s =
      (if exits && bool_decide (take 4 line = exit_word) then _ ← Halt; mret buffer'
       else if Z.of_nat (length line) >? 0 then newProc ← Exec line; _ ← Join newProc; mret buffer'
       else mret buffer') s'.
Proof.
  intros Hb (Hn & Hnz & Hl) Ht. unfold shell_turn, Write.
  destruct (write_law s prompt) as (s1 & E1 & Ht1 & Hs1). erewrite bind_M_Ok by exact E1.
  destruct (read_line_ok (S (length buffer)) line [] buffer s1 rest Hn) as (s2 & E2 & Ht2 & Hs2); [by rewrite Ht1|lia|lia|].
  cbn [app length Nat.add] in E2. change (Z.of_nat 0) with 0 in E2. erewrite bind_M_Ok by exact E2. cbn beta iota.
  rewrite Z.add_simpl_r, aset_at, bind_lift_Ok, cstring_app by done.
  exists s2, (line ++ 0 :: drop (S (length line)) buffer). split_and!; [done|by rewrite Hs2, Hs1| |done].
  rewrite <- Hb, length_app. simpl. rewrite length_drop. lia.
Qed.

Lemma shell_turn_runs exits buffer s line rest : Z.of_nat (length buffer) = BufferSize -> line_ok line ->
  (exits = true -> take 4 line <> exit_word) -> typed s = line ++ newline :: rest ->
  exists buffer' s', shell_turn exits buffer s = Ok (buffer', s') /\ Z.of_nat (length buffer') = BufferSize /\
    typed s' = rest /\ seen s' = seen s ++ turn_entries line.
Proof.
  intros Hb Hl He Ht. destruct (shell_turn_reads exits buffer s line rest Hb Hl Ht) as (s1 & b & Ht1 & Hs1 & Hb1 & ->).
  assert (exits && bool_decide (take 4 line = exit_word) = false) as ->.
  { destruct exits; [|done]. apply bool_decide_eq_false. by apply He. }
  destruct line as [|c line]; [by exists b, s1|]. destruct (Z.gtb_spec (Z.of_nat (length (c :: line))) 0); [|simpl in *; lia].
  destruct (spawn_law s1 (c :: line)) as (pid & s2 & E2 & Hp & Ht2 & Hs2).
  destruct (wait_law s2 pid Hp) as (r & s3 & E3 & Ht3 & Hs3). exists b, s3.
  assert (Exec (c :: line) s1 = Ok (u32 pid, s2)) as EX.
  { unfold Exec. erewrite bind_M_Ok by exact E2. destruct (Z.ltb_spec pid 0); [lia|done]. }
  assert (Join (u32 pid) s2 = Ok (r, s3)) as EJ by (unfold Join; rewrite i32_u32, i32_id by (unfold is_i32; lia); exact E3).
  split_and!; [by erewrite bind_M_Ok by exact EX; erewrite bind_M_Ok by exact EJ|done|congruence|].
  by rewrite Hs3, Hs2, Hs1, <- app_assoc.
Qed.

Lemma shell_turns_run exits lines buffer s rest : Z.of_nat (length buffer) = BufferSize ->
  Forall (fun l => line_ok l /\ (exits = true -> take 4 l <> exit_word)) lines -> typed s = concat (map (fun l => l ++ [newline]) lines) ++ rest ->
  exists buffer' s', shell_turns exits (length lines) buffer s = Ok (buffer', s') /\ Z.of_nat (length buffer') = BufferSize /\
    typed s' = rest /\ seen s' = seen s ++ concat (map turn_entries lines).
Proof.
  intros Hb Hl. revert buffer s Hb. induction Hl as [|line lines [Hl He] _ IH]; intros buffer s Hb Ht.
  { exists buffer, s. split_and!; [done..|]. by rewrite app_nil_r. }
  cbn [map concat] in Ht. rewrite <- !app_assoc in Ht. cbn [app] in Ht.
  destruct (shell_turn_runs exits buffer s line _ Hb Hl He Ht) as (b1 & s1 & E1 & Hb1 & Ht1 & Hs1).
  destruct (IH b1 s1 Hb1 Ht1) as (b2 & s2 & E2 & Hb2 & Ht2 & Hs2). exists b2, s2. cbn [length shell_turns map concat].
  split_and!; [by erewrite bind_M_Ok by exact E1|done|done|]. by rewrite Hs2, Hs1, <- app_assoc.
Qed.

End Session.

(** * A session

    A UNIX where commands do nothing: what is typed, and what is seen. *)
Definition sample : Type := list Z * list entry.

#[export] Instance sample_unix : Unix sample := {|
  u_open _ _ := mret 3;
  u_close _ := mret 0;
  u_read _ n := fun '(i, o) => Ok ((Z.of_nat (length (take (Z.to_nat n) i)), take (Z.to_nat n) i), (drop (Z.to_nat n) i, o));
  u_write _ b := fun '(i, o) => Ok (Z.of_nat (length b), (i, o ++ [Display b]));
  u_lseek _ _ _ := mret 0;
  u_unlink _ := mret 0;
  u_remove _ := mret 0;
  u_spawn c := fun '(i, o) => Ok (100, (i, o ++ [Command c]));
  u_waitpid p := mret p;
  u_getpid := mret 99
|}.

#[export] Instance sample_terminal : Terminal sample.
Proof.
  refine {| typed := fst; seen := snd |}.
  - intros [i o] c rest E. simpl in E. subst i. eexists. by split.
  - intros [i o] b. eexists. by split.
  - intros [i o] cmd. eexists 100, _. by split.
  - intros [i o] pid _. eexists _, (i, o). by split.
Defined.

End Shell.
