(* ===== verification/Coff2Noff.v ===== *)
(** Coff2Noff: the tool that turns an executable of the MIPS compiler into one of Nachos.

    coff2noff reads a COFF file and writes a NOFF file: a header that says where each segment
    is, then the bytes of the segments.  The sizes of the structures are those of its
    Makefile: 32-bit, with RDATA, on a little-endian host, where SwapHeader changes nothing.
    [Exited] is an exit(1), before which the output file is unlinked. *)

From S2P Require Import Prelude TLB Directory VM Commands.
From Stdlib Require Import String.
From stdpp Require Import base numbers list.
#[local] Open Scope Z_scope.

Module Coff2Noff.
Import Directory Commands.

Definition MIPSELMAGIC : Z := 354.
Definition OMAGIC : Z := 263.
Definition NOFFMAGIC : Z := 12246957.

(** [struct scnhdr], the fields that the tool uses. *)
Record scnhdr := MkScn { s_name : list Z; s_paddr : Z; s_size : Z; s_scnptr : Z }.
Record Segment := MkSegment { virtualAddr : Z; inFileAddr : Z; size : Z }.
Record NoffHeader := MkNoff { noffMagic : Z; code : Segment; initData : Segment; readonlyData : Segment; uninitData : Segment }.

Definition segment_ints (s : Segment) : list Z := [virtualAddr s; inFileAddr s; size s].
Definition noff_ints (h : NoffHeader) : list Z :=
  noffMagic h :: segment_ints (code h) ++ segment_ints (initData h) ++ segment_ints (readonlyData h) ++ segment_ints (uninitData h).
Definition noff_bytes (h : NoffHeader) : list Z := ints_to_bytes (noff_ints h).

Definition sizeof_filehdr : Z := 20.
Definition sizeof_aouthdr : Z := 56.
Definition sizeof_scnhdr : Z := 40.
Definition sizeof_NoffHeader : Z := 52.

(** The two open files: the input with its position, the output with its position. *)
Record Files := MkFiles { input : list Z; in_pos : nat; output : list Z; out_pos : nat }.

(** [read] and [write] with the check for a short count.  The output can always be written.
    A negative count is a huge one for the system. *)
Definition Read (nBytes : Z) : M Files (list Z) := fun f =>
  if nBytes <? 0 then Undefined
  else if (in_pos f + Z.to_nat nBytes <=? length (input f))%nat || (nBytes =? 0) then
    Ok (slice (in_pos f) (Z.to_nat nBytes) (input f), MkFiles (input f) (in_pos f + Z.to_nat nBytes) (output f) (out_pos f))
  else Exited.

(** A hole that [lseek] left reads as zeros. *)
Definition Write (buf : list Z) : M Files unit := fun f =>
  let padded := output f ++ replicate (out_pos f - length (output f)) 0 in
  Ok (tt, MkFiles (input f) (in_pos f) (splice (out_pos f) buf padded) (out_pos f + length buf)).

Definition lseek_in (offset : Z) : M Files unit := fun f =>
  Ok (tt, if offset <? 0 then f else MkFiles (input f) (Z.to_nat offset) (output f) (out_pos f)).
Definition lseek_out (offset : Z) : M Files unit := fun f =>
  Ok (tt, if offset <? 0 then f else MkFiles (input f) (in_pos f) (output f) (Z.to_nat offset)).

Definition exit1 {A} : M Files A := fun _ => Exited.

(** A short of a structure, unsigned and signed, and its section headers. *)
Definition ushort (bs : list Z) (off : nat) : Z := nth off bs 0 + 256 * nth (S off) bs 0.
Definition short (bs : list Z) (off : nat) : Z := let u := ushort bs off in if u <? 2 ^ 15 then u else u - 2 ^ 16.
Definition scnhdr_of (bs : list Z) : scnhdr :=
  let w := bytes_to_ints (drop 8 bs) in MkScn (take 8 bs) (nth 0 w 0) (nth 2 w 0) (nth 3 w 0).
Fixpoint scnhdrs_of (n : nat) (bs : list Z) : list scnhdr :=
  match n with O => [] | S n => scnhdr_of (take 40 bs) :: scnhdrs_of n (drop 40 bs) end.

(** [!strcmp(sections[i].s_name, s)] *)
Definition named (s : scnhdr) (nm : string) : bool := same (cstr 8 (s_name s)) (str nm).

(** A sum of ints. *)
Definition add_int (a b : Z) : res Z := if (- 2 ^ 31 <=? a + b) && (a + b <? 2 ^ 31) then Ok (a + b) else Undefined.

Definition set_code s h := MkNoff (noffMagic h) s (initData h) (readonlyData h) (uninitData h).
Definition set_init s h := MkNoff (noffMagic h) (code h) s (readonlyData h) (uninitData h).
Definition set_readonly s h := MkNoff (noffMagic h) (code h) (initData h) s (uninitData h).
Definition set_uninit s h := MkNoff (noffMagic h) (code h) (initData h) (readonlyData h) s.

(** The bytes of a section go to the output; the position after them. *)
Definition copy_segment (s : scnhdr) (inNoffFile : Z) : M Files Z :=
  _ ← lseek_in (s_scnptr s);
  buffer ← Read (s_size s);
  _ ← Write buffer;
  lift (add_int inNoffFile (s_size s)).

(** One turn of the loop over the sections. *)
Definition copy_section (s : scnhdr) (noffH : NoffHeader) (inNoffFile : Z) : M Files (NoffHeader * Z) :=
  let seg := MkSegment (s_paddr s) inNoffFile (s_size s) in
  if s_size s =? 0 then mret (noffH, inNoffFile)
  else if named s ".text" then n ← copy_segment s inNoffFile; mret (set_code seg noffH, n)
  else if named s ".data" then n ← copy_segment s inNoffFile; mret (set_init seg noffH, n)
  else if named s ".rdata" then n ← copy_segment s inNoffFile; mret (set_readonly seg noffH, n)
  else if named s ".bss" then
    let u := uninitData noffH in
    if negb (size u =? 0) then
      e ← lift (add_int (virtualAddr u) (size u));
      if s_paddr s =? e then exit1
      else
        n ← lift (add_int (size u) (s_size s));
        mret (set_uninit (MkSegment (virtualAddr u) (inFileAddr u) n) noffH, inNoffFile)
    else mret (set_uninit (MkSegment (s_paddr s) (inFileAddr u) (s_size s)) noffH, inNoffFile)
  else exit1.

Fixpoint copy_sections (l : list scnhdr) (noffH : NoffHeader) (inNoffFile : Z) : M Files (NoffHeader * Z) :=
  match l with
  | [] => mret (noffH, inNoffFile)
  | s :: l => '(noffH, inNoffFile) ← copy_section s noffH inNoffFile; copy_sections l noffH inNoffFile
  end.

(** The header before the loop; [junk] is what the structure on the stack held. *)
Definition noff_start (junk : NoffHeader) : NoffHeader :=
  let unset s := MkSegment (virtualAddr s) (inFileAddr s) 0 in
  MkNoff NOFFMAGIC (unset (code junk)) (unset (initData junk)) (unset (readonlyData junk)) (unset (uninitData junk)).

(** main, from the first read. *)
Definition coff2noff (junk : NoffHeader) : M Files unit :=
  fileh ← Read sizeof_filehdr;
  if negb (ushort fileh 0 =? MIPSELMAGIC) then exit1
  else
    systemh ← Read sizeof_aouthdr;
    if negb (short systemh 0 =? OMAGIC) then exit1
    else
      let numsections := ushort fileh 2 in
      bs ← Read (numsections * sizeof_scnhdr);
      let sections := scnhdrs_of (Z.to_nat numsections) bs in
      _ ← lseek_out sizeof_NoffHeader;
      '(noffH, _) ← copy_sections sections (noff_start junk) sizeof_NoffHeader;
      _ ← lseek_out 0;
      Write (noff_bytes noffH).

(** * What the output is *)

(** A section whose bytes are copied, and those bytes. *)
Definition copied (s : scnhdr) : bool := negb (s_size s =? 0) && (named s ".text" || named s ".data" || named s ".rdata").
Definition section_bytes (file : list Z) (s : scnhdr) : list Z := slice (Z.to_nat (s_scnptr s)) (Z.to_nat (s_size s)) file.
Definition data_of (file : list Z) (l : list scnhdr) : list Z := flat_map (fun s => if copied s then section_bytes file s else []) l.

(** The sections that the tool takes: known names, bytes within the file; a second .bss must
    not be where the first one ends. *)
Fixpoint acceptable (file : list Z) (u : Segment) (l : list scnhdr) : bool :=
  match l with
  | [] => true
  | s :: l =>
      if s_size s =? 0 then acceptable file u l
      else if copied s then (s_scnptr s + s_size s <=? Z.of_nat (length file)) && acceptable file u l
      else if named s ".bss" then
        if size u =? 0 then acceptable file (MkSegment (s_paddr s) (inFileAddr u) (s_size s)) l
        else negb (s_paddr s =? virtualAddr u + size u) && acceptable file (MkSegment (virtualAddr u) (inFileAddr u) (size u + s_size s)) l
      else false
  end.

(** The segment of the header for the sections of a name: that of the last one. *)
Fixpoint last_segment (nm : string) (n : Z) (seg : Segment) (l : list scnhdr) : Segment :=
  match l with
  | [] => seg
  | s :: l =>
      if copied s then last_segment nm (n + s_size s) (if named s nm then MkSegment (s_paddr s) n (s_size s) else seg) l
      else last_segment nm n seg l
  end.
Fixpoint bss_segment (u : Segment) (l : list scnhdr) : Segment :=
  match l with
  | [] => u
  | s :: l =>
      if negb (s_size s =? 0) && named s ".bss" then
        bss_segment (if size u =? 0 then MkSegment (s_paddr s) (inFileAddr u) (s_size s)
                     else MkSegment (virtualAddr u) (inFileAddr u) (size u + s_size s)) l
      else bss_segment u l
  end.
Definition header_of (junk : NoffHeader) (l : list scnhdr) : NoffHeader :=
  let h := noff_start junk in
  MkNoff NOFFMAGIC (last_segment ".text" 52 (code h) l) (last_segment ".data" 52 (initData h) l)
    (last_segment ".rdata" 52 (readonlyData h) l) (bss_segment (uninitData h) l).

(** No negative numbers, and sums that are ints: with [total] bytes in all sections. *)
Definition total (l : list scnhdr) : Z := foldr (fun s n => s_size s + n) 0 l.
Definition sane (budget : Z) (s : scnhdr) : Prop := 0 <= s_size s /\ 0 <= s_scnptr s /\ 0 <= s_paddr s /\ s_paddr s + budget < 2 ^ 31.

Lemma named_unique s a b : str a <> str b -> named s a = true -> named s b = false.
Proof. unfold named, same. intros H E%bool_decide_eq_true. rewrite E. by apply bool_decide_eq_false. Qed.

(** The output file so far: nothing, or the place of the header and [data]. *)
Definition laid (f : Files) (data : list Z) : Prop :=
  out_pos f = (52 + length data)%nat /\ (output f = replicate 52 0 ++ data \/ (data = [] /\ output f = [])).

Lemma Write_laid f data bs : laid f data -> bs <> [] ->
  exists f', Write bs f = Ok (tt, f') /\ laid f' (data ++ bs) /\ input f' = input f /\ in_pos f' = in_pos f.
Proof.
  intros [Hp Ho] Hb. unfold Write. eexists. split; [reflexivity|]. split; [|done]. split; cbn [out_pos output]; [rewrite length_app; lia|]. left.
  assert (output f ++ replicate (out_pos f - length (output f)) 0 = replicate 52 0 ++ data) as ->.
  { rewrite Hp. destruct Ho as [-> | [-> ->]].
    - rewrite length_app, length_replicate. replace (52 + length data - (52 + length data))%nat with 0%nat by lia. by rewrite app_nil_r.
    - rewrite app_nil_r. reflexivity. }
  rewrite Hp. unfold splice. rewrite take_ge, drop_ge by (rewrite length_app, length_replicate; lia). by rewrite app_nil_r, app_assoc.
Qed.

Lemma add_int_ok a b : 0 <= a -> 0 <= b -> a + b < 2 ^ 31 -> add_int a b = Ok (a + b).
Proof. intros. unfold add_int. rewrite (proj2 (Z.leb_le _ _)), (proj2 (Z.ltb_lt _ _)) by lia. done. Qed.

Lemma section_bytes_length file s : 0 <= s_size s -> 0 <= s_scnptr s -> s_scnptr s + s_size s <= Z.of_nat (length file) ->
  length (section_bytes file s) = Z.to_nat (s_size s).
Proof. intros. unfold section_bytes. rewrite slice_length. lia. Qed.

Lemma Read_ok f n : 0 <= n ->
  Read n f = if decide (n = 0 \/ (in_pos f + Z.to_nat n <= length (input f))%nat) then
    Ok (slice (in_pos f) (Z.to_nat n) (input f), MkFiles (input f) (in_pos f + Z.to_nat n) (output f) (out_pos f)) else Exited.
Proof.
  intros Hn. unfold Read. rewrite (proj2 (Z.ltb_ge n 0)) by done. case_decide as Hd; [rewrite (proj2 (orb_true_iff _ _))|rewrite (proj2 (orb_false_iff _ _))]; try done.
  - destruct Hd as [->|Hd]; [by right|left]. by apply Nat.leb_le.
  - split; [apply Nat.leb_gt; lia|apply Z.eqb_neq; tauto].
Qed.

Lemma bind_M_Exited {S A B} (m : M S A) (k : A -> M S B) (s : S) : m s = Exited -> (m ≫= k) s = Exited.
Proof. intros E. unfold mbind, M_bind. by rewrite E. Qed.

Lemma copy_segment_ok f data s n : laid f data -> n = 52 + Z.of_nat (length data) -> 0 < s_size s -> 0 <= s_scnptr s -> n + s_size s < 2 ^ 31 ->
  if s_scnptr s + s_size s <=? Z.of_nat (length (input f)) then
    exists f', copy_segment s n f = Ok (n + s_size s, f') /\ laid f' (data ++ section_bytes (input f) s) /\ input f' = input f
  else copy_segment s n f = Exited.
Proof.
  intros Hl Hn Hs Hp Hb. unfold copy_segment. set (f1 := MkFiles (input f) (Z.to_nat (s_scnptr s)) (output f) (out_pos f)).
  assert (lseek_in (s_scnptr s) f = Ok (tt, f1)) as E0 by (unfold lseek_in; by rewrite (proj2 (Z.ltb_ge _ _)) by done).
  rewrite (bind_M_Ok _ _ _ _ _ E0). pose proof (Read_ok f1 (s_size s) ltac:(lia)) as ER. cbn [f1 in_pos input] in ER. fold (section_bytes (input f) s) in ER.
  destruct (Z.leb_spec (s_scnptr s + s_size s) (Z.of_nat (length (input f)))) as [Hin|Hout].
  - rewrite decide_True in ER by lia. rewrite (bind_M_Ok _ _ _ _ _ ER). pose proof (section_bytes_length (input f) s ltac:(lia) Hp ltac:(lia)) as Hlen.
    match type of ER with _ = Ok (_, ?f2) => destruct (Write_laid f2 data (section_bytes (input f) s)) as (f' & E & Hl' & Hi & _);
      [exact Hl|intros E; rewrite E in Hlen; cbn in Hlen; lia|] end.
    rewrite (bind_M_Ok _ _ _ _ _ E). rewrite add_int_ok by lia. exists f'. done.
  - rewrite decide_False in ER by lia. by apply bind_M_Exited.
Qed.

Lemma total_nonneg l b : Forall (sane b) l -> 0 <= total l.
Proof. induction 1 as [|s l [? _] _ IH]; cbn; [lia|]. unfold total in *. lia. Qed.

Lemma copied_named s : copied s = true -> named s ".bss" = false.
Proof.
  unfold copied. intros [_ [[H|H]%orb_true_iff|H]%orb_true_iff]%andb_true_iff; eapply named_unique; try exact H; by vm_compute.
Qed.

(** A turn on a section that is copied. *)
Lemma copy_section_copied s h n f data : copied s = true -> 0 <= s_size s -> laid f data -> n = 52 + Z.of_nat (length data) ->
  0 <= s_scnptr s -> n + s_size s < 2 ^ 31 ->
  let seg := MkSegment (s_paddr s) n (s_size s) in
  if s_scnptr s + s_size s <=? Z.of_nat (length (input f)) then
    exists h' f', copy_section s h n f = Ok ((h', n + s_size s), f') /\ laid f' (data ++ section_bytes (input f) s) /\ input f' = input f /\
      noffMagic h' = noffMagic h /\ code h' = (if named s ".text" then seg else code h) /\ initData h' = (if named s ".data" then seg else initData h) /\
      readonlyData h' = (if named s ".rdata" then seg else readonlyData h) /\ uninitData h' = uninitData h
  else copy_section s h n f = Exited.
Proof.
  intros Hc Hs Hl Hn Hp Hb seg. pose proof Hc as Hc'. unfold copied in Hc'. apply andb_true_iff in Hc' as [Hz%negb_true_iff Hnm]. unfold copy_section. rewrite Hz.
  assert (0 < s_size s) as Hs' by (apply Z.eqb_neq in Hz; lia). pose proof (copy_segment_ok f data s n Hl Hn Hs' Hp Hb) as HC.
  assert (forall a b, str a <> str b -> named s a = true -> named s b = false) as Hu by (intros; by eapply named_unique).
  destruct (named s ".text") eqn:E1; [|destruct (named s ".data") eqn:E2; [|destruct (named s ".rdata") eqn:E3; [|done]]].
  - rewrite (Hu ".text"%string ".data"%string ltac:(by vm_compute) E1), (Hu ".text"%string ".rdata"%string ltac:(by vm_compute) E1).
    destruct (_ <=? _); [destruct HC as (f' & E & ? & ?); rewrite (bind_M_Ok _ _ _ _ _ E); by exists (set_code seg h), f'|].
    by apply bind_M_Exited.
  - rewrite (Hu ".data"%string ".rdata"%string ltac:(by vm_compute) E2).
    destruct (_ <=? _); [destruct HC as (f' & E & ? & ?); rewrite (bind_M_Ok _ _ _ _ _ E); by exists (set_init seg h), f'|].
    by apply bind_M_Exited.
  - destruct (_ <=? _); [destruct HC as (f' & E & ? & ?); rewrite (bind_M_Ok _ _ _ _ _ E); by exists (set_readonly seg h), f'|].
    by apply bind_M_Exited.
Qed.

(** A turn on a section without bytes in the file. *)
Lemma copy_section_bss s h n f : s_size s <> 0 -> named s ".bss" = true -> named s ".text" = false -> named s ".data" = false ->
  named s ".rdata" = false -> 0 <= s_size s -> 0 <= s_paddr s ->
  let u := uninitData h in
  if size u =? 0 then copy_section s h n f = Ok ((set_uninit (MkSegment (s_paddr s) (inFileAddr u) (s_size s)) h, n), f)
  else 0 <= virtualAddr u -> 0 <= size u -> virtualAddr u + size u < 2 ^ 31 /\ size u + s_size s < 2 ^ 31 ->
    if s_paddr s =? virtualAddr u + size u then copy_section s h n f = Exited
    else copy_section s h n f = Ok ((set_uninit (MkSegment (virtualAddr u) (inFileAddr u) (size u + s_size s)) h, n), f).
Proof.
  intros Hz Nb N1 N2 N3 Hs Hv u. unfold copy_section. rewrite (proj2 (Z.eqb_neq (s_size s) 0)), N1, N2, N3, Nb by done. fold u.
  destruct (size u =? 0); cbn [negb]; [done|]. intros Hu1 Hu2 [Hu3 Hu4]. rewrite (add_int_ok (virtualAddr u)), bind_lift_Ok by lia.
  destruct (s_paddr s =? _); [done|]. by rewrite (add_int_ok (size u)), bind_lift_Ok by lia.
Qed.

(** What the loop leaves of the header. *)
Definition placed (h h' : NoffHeader) (n : Z) (l : list scnhdr) : Prop :=
  noffMagic h' = noffMagic h /\ code h' = last_segment ".text" n (code h) l /\ initData h' = last_segment ".data" n (initData h) l /\
  readonlyData h' = last_segment ".rdata" n (readonlyData h) l /\ uninitData h' = bss_segment (uninitData h) l.

(** The size of .bss so far and its end stay ints. *)
Definition bss_sane (u : Segment) (left : Z) : Prop := 0 <= size u /\ size u + left < 2 ^ 31 /\ (size u <> 0 -> 0 <= virtualAddr u /\ virtualAddr u + size u + left < 2 ^ 31).

Lemma copy_sections_ok b l h n f data : Forall (sane b) l -> laid f data -> n = 52 + Z.of_nat (length data) -> n + total l < 2 ^ 31 ->
  total l <= b -> bss_sane (uninitData h) (total l) ->
  if acceptable (input f) (uninitData h) l then
    exists h' n' f', copy_sections l h n f = Ok ((h', n'), f') /\ laid f' (data ++ data_of (input f) l) /\ placed h h' n l
  else copy_sections l h n f = Exited.
Proof.
  intros Hsane. revert h n f data. induction Hsane as [|s l (Hs & Hp & Hv & Hb) Hl IH]; intros h n f data Hla Hn Ht Htb Hu.
  { exists h, n, f. cbn. rewrite app_nil_r. split; [done|]. split; [done|]. by split_and!. }
  pose proof (total_nonneg l b Hl) as Htl. cbn [total foldr] in Ht, Htb, Hu. fold (total l) in Ht, Htb, Hu.
  cbn [acceptable copy_sections]. destruct (Z.eqb_spec (s_size s) 0) as [Hz|Hz].
  - specialize (IH h n f data Hla Hn ltac:(lia) ltac:(lia)). rewrite Hz, Z.add_0_l in Hu. specialize (IH Hu).
    assert (copy_section s h n f = Ok ((h, n), f)) as E by (unfold copy_section; by rewrite Hz).
    unfold placed. cbn [data_of flat_map last_segment bss_segment].
    assert (copied s = false) as -> by (unfold copied; by rewrite Hz). rewrite Hz. cbn [negb andb Z.eqb app].
    destruct (acceptable _ _ _); rewrite (bind_M_Ok _ _ _ _ _ E); exact IH.
  - destruct (copied s) eqn:Hc.
    + pose proof (copy_section_copied s h n f data Hc Hs Hla Hn Hp ltac:(lia)) as HC. cbv zeta in HC.
      destruct (Z.leb_spec (s_scnptr s + s_size s) (Z.of_nat (length (input f)))) as [Hin|Hout]; cbn [andb].
      2:{ by apply bind_M_Exited. }
      destruct HC as (h' & f' & E & Hla' & Hi & Hm & H1 & H2 & H3 & H4).
      assert (n + s_size s = 52 + Z.of_nat (length (data ++ section_bytes (input f) s))) as Hn' by (rewrite length_app, section_bytes_length by lia; lia).
      specialize (IH h' (n + s_size s) f' _ Hla' Hn' ltac:(lia) ltac:(lia)). rewrite Hi, H4 in IH.
      destruct Hu as (Hu1 & Hu2 & Hu3). specialize (IH ltac:(split; [lia|split; [lia|intros Hnz; specialize (Hu3 Hnz); lia]])).
      destruct (acceptable _ _ _); rewrite (bind_M_Ok _ _ _ _ _ E); [|exact IH]. destruct IH as (h2 & n2 & f2 & E2 & Hla2 & Hpl).
      exists h2, n2, f2. split; [exact E2|]. cbn [data_of flat_map]. rewrite Hc, app_assoc. split; [exact Hla2|].
      destruct Hpl as (G0 & G1 & G2 & G3 & G4). unfold placed. cbn [last_segment bss_segment]. rewrite Hc, (copied_named s Hc), andb_false_r.
      rewrite G0, G1, G2, G3, G4, Hm, H1, H2, H3, H4. done.
    + assert (named s ".text" = false /\ named s ".data" = false /\ named s ".rdata" = false) as (N1 & N2 & N3).
      { unfold copied in Hc. rewrite (proj2 (Z.eqb_neq _ _)) in Hc by done. cbn [negb andb] in Hc. by apply orb_false_iff in Hc as [[? ?]%orb_false_iff ?]. }
      destruct (named s ".bss") eqn:Nb.
      2:{ apply bind_M_Exited. unfold copy_section. by rewrite (proj2 (Z.eqb_neq _ _)), N1, N2, N3, Nb. }
      destruct Hu as (Hu1 & Hu2 & Hu3).
      assert (forall u', bss_sane u' (total l) ->
        copy_section s h n f = Ok ((set_uninit u' h, n), f) -> bss_segment (uninitData h) (s :: l) = bss_segment u' l ->
        if acceptable (input f) u' l then
          exists h' n' f', ('(noffH, inNoffFile) ← copy_section s h n; copy_sections l noffH inNoffFile) f = Ok ((h', n'), f') /\
            laid f' (data ++ data_of (input f) (s :: l)) /\ placed h h' n (s :: l)
        else ('(noffH, inNoffFile) ← copy_section s h n; copy_sections l noffH inNoffFile) f = Exited) as Hnext.
      { intros u' Hu' E Hbss. specialize (IH (set_uninit u' h) n f data Hla Hn ltac:(lia) ltac:(lia) Hu'). cbn [set_uninit uninitData] in IH.
        unfold placed. rewrite Hbss. cbn [data_of flat_map last_segment]. rewrite Hc. rewrite (bind_M_Ok _ _ _ _ _ E). exact IH. }
      cbn [bss_segment] in Hnext. rewrite (proj2 (Z.eqb_neq (s_size s) 0)), Nb in Hnext by done. cbn [negb andb] in Hnext.
      pose proof (copy_section_bss s h n f Hz Nb N1 N2 N3 Hs Hv) as E. cbv zeta in E. destruct (Z.eqb_spec (size (uninitData h)) 0) as [Hz0|Hz0].
      * apply Hnext; [|exact E|done]. split; [done|]. cbn. lia.
      * destruct (Hu3 Hz0) as [Hu4 Hu5]. specialize (E Hu4 Hu1 ltac:(lia)).
        destruct (Z.eqb_spec (s_paddr s) (virtualAddr (uninitData h) + size (uninitData h))) as [He|He]; cbn [negb andb]; [by apply bind_M_Exited|].
        apply Hnext; [|exact E|done]. split; cbn; [lia|]. split; lia.
Qed.

(** ** Where the segments are *)

(** The last section with a name whose bytes are copied. *)
Fixpoint chosen (nm : string) (l : list scnhdr) : option scnhdr :=
  match l with
  | [] => None
  | s :: l => match chosen nm l with Some s' => Some s' | None => if copied s && named s nm then Some s else None end
  end.

(** [seg] describes the last section with the name, and the output has its bytes there. *)
Definition located (file out : list Z) (l : list scnhdr) (nm : string) (seg : Segment) : Prop :=
  match chosen nm l with
  | Some s => virtualAddr seg = s_paddr s /\ size seg = s_size s /\
      slice (Z.to_nat (inFileAddr seg)) (Z.to_nat (size seg)) out = section_bytes file s
  | None => size seg = 0
  end.

Definition fits (file : list Z) (s : scnhdr) : Prop := copied s = true -> s_scnptr s + s_size s <= Z.of_nat (length file).

Lemma acceptable_fits file u l : acceptable file u l = true -> Forall (fits file) l.
Proof.
  revert u. induction l as [|s l IH]; intros u H; [constructor|]. cbn [acceptable] in H.
  destruct (s_size s =? 0) eqn:Hz; [constructor; [intros Hc; unfold copied in Hc; by rewrite Hz in Hc|by eapply IH]|].
  destruct (copied s) eqn:Hc; [apply andb_true_iff in H as [?%Z.leb_le ?]; constructor; [by intros _|by eapply IH]|].
  destruct (named s ".bss"); [|done]. destruct (size u =? 0); [constructor; [by unfold fits; rewrite Hc|by eapply IH]|].
  apply andb_true_iff in H as [_ H]. constructor; [by unfold fits; rewrite Hc|by eapply IH].
Qed.

Lemma last_segment_none nm n seg l : chosen nm l = None -> last_segment nm n seg l = seg.
Proof.
  revert n. induction l as [|s l IH]; intros n E; [done|]. cbn [chosen last_segment] in *. destruct (chosen nm l); [done|].
  destruct (copied s); cbn [andb] in E; [destruct (named s nm); [done|]|]; by apply IH.
Qed.

(** The copied bytes of a section start where the sections before it end. *)
Lemma last_segment_located file nm b l : Forall (sane b) l -> Forall (fits file) l -> forall hdr data seg,
  length hdr = 52%nat -> size seg = 0 \/ chosen nm l <> None ->
  located file (hdr ++ data ++ data_of file l) l nm (last_segment nm (52 + Z.of_nat (length data)) seg l).
Proof.
  intros Hs Hf. revert Hf. induction Hs as [|s l (Hs & Hp & _) Hl IH]; intros Hf hdr data seg Hh Hseg.
  { destruct Hseg as [|[]]; done. }
  apply Forall_cons in Hf as [Hfs Hf]. unfold located. cbn [last_segment data_of flat_map]. destruct (copied s) eqn:Hc; cbn [andb].
  2:{ assert (chosen nm (s :: l) = chosen nm l) as E by (cbn [chosen]; rewrite Hc; cbn [andb]; by destruct (chosen nm l)).
      rewrite E in Hseg |- *. by apply (IH Hf). }
  pose proof (section_bytes_length file s Hs Hp (Hfs Hc)) as Hlen.
  assert (52 + Z.of_nat (length data) + s_size s = 52 + Z.of_nat (length (data ++ section_bytes file s))) as En by (rewrite length_app; lia).
  assert (hdr ++ data ++ section_bytes file s ++ flat_map (fun s => if copied s then section_bytes file s else []) l =
    hdr ++ (data ++ section_bytes file s) ++ data_of file l) as Eo by (by rewrite <- app_assoc).
  rewrite En, Eo. cbn [chosen] in Hseg |- *. rewrite Hc in Hseg |- *. cbn [andb] in Hseg |- *. set (seg' := if named s nm then _ else seg).
  destruct (chosen nm l) as [s'|] eqn:El.
  - specialize (IH Hf hdr (data ++ section_bytes file s) seg' Hh ltac:(by right)). unfold located in IH. by rewrite El in IH.
  - rewrite last_segment_none by done. destruct (named s nm); [|by destruct Hseg]. unfold seg'. cbn [virtualAddr inFileAddr size].
    split; [done|]. split; [done|]. unfold slice. rewrite <- app_assoc. rewrite drop_app_ge by lia. rewrite drop_app_ge by lia.
    replace (Z.to_nat (52 + Z.of_nat (length data)) - length hdr - length data)%nat with 0%nat by lia. rewrite drop_0.
    rewrite take_app_le by lia. by rewrite take_ge by lia.
Qed.

(** ** The header *)

Definition seg_ok (s : Segment) : Prop := Forall is_i32 (segment_ints s).

Lemma last_segment_i32 nm b l n seg : Forall (sane b) l -> 0 <= b -> 0 <= n -> n + total l < 2 ^ 31 -> seg_ok seg -> seg_ok (last_segment nm n seg l).
Proof.
  intros Hl Hb0. revert n seg. induction Hl as [|s l (Hs & Hp & Hv & Hb) Hl IH]; intros n seg Hn Ht Hseg; [done|].
  pose proof (total_nonneg l b Hl). cbn [last_segment total foldr] in *. fold (total l) in Ht.
  destruct (copied s); [|apply IH; [lia|lia|done]]. apply IH; [lia|lia|]. destruct (named s nm); [|done].
  repeat constructor; cbn; lia.
Qed.

Lemma bss_segment_ok b l u : Forall (sane b) l -> 0 <= b -> 0 <= size u -> size u + total l < 2 ^ 31 -> seg_ok u ->
  seg_ok (bss_segment u l) /\ size (bss_segment u l) = size u + total (List.filter (fun s => named s ".bss") l).
Proof.
  intros Hl Hb0. revert u. induction Hl as [|s l (Hs & Hp & Hv & Hb) Hl IH]; intros u Hu Ht Hseg; [by split; [|cbn; lia]|].
  pose proof (total_nonneg l b Hl). cbn [bss_segment total foldr List.filter] in *. fold (total l) in Ht.
  destruct (Z.eqb_spec (s_size s) 0) as [Hz|Hz]; cbn [negb andb].
  { destruct (IH u Hu ltac:(lia) Hseg) as [? E]. split; [done|]. rewrite E. destruct (named s ".bss"); cbn [total foldr]; fold total; unfold total; lia. }
  destruct (named s ".bss"); [|by apply IH; [lia|lia|]]. apply Forall_cons in Hseg as [H1 Hseg]. apply Forall_cons in Hseg as [H2 _].
  destruct (Z.eqb_spec (size u) 0) as [E0|E0]; match goal with |- context [bss_segment ?u' l] => destruct (IH u') as [? E] end;
    cbn [size]; try lia; try (repeat constructor; cbn; unfold is_i32 in *; lia); split; try done; rewrite E; cbn [size total foldr]; fold total; unfold total; lia.
Qed.

Lemma noff_bytes_read h out : Forall is_i32 (noff_ints h) -> bytes_to_ints (take 52 (noff_bytes h ++ out)) = noff_ints h.
Proof.
  intros H. rewrite take_app_le, take_ge by done. by apply bytes_to_ints_to_bytes.
Qed.

(** * The whole file *)

Definition start (file : list Z) : Files := MkFiles file 0 [] 0.

(** The sections of a file with both headers. *)
Definition coff_sections (file : list Z) : option (list scnhdr) :=
  let n := Z.to_nat (ushort (slice 0 20 file) 2) in
  if decide (20 <= length file)%nat then
    if negb (ushort (slice 0 20 file) 0 =? MIPSELMAGIC) then None
    else if decide (76 <= length file)%nat then
      if negb (short (slice 20 56 file) 0 =? OMAGIC) then None
      else if decide (76 + n * 40 <= length file)%nat then Some (scnhdrs_of n (slice 76 (n * 40) file)) else None
    else None
  else None.

(** The numbers of the sections and of what was on the stack are ints without overflow. *)
Definition sections_sane (l : list scnhdr) : Prop := Forall (sane (total l)) l /\ 52 + total l < 2 ^ 31.
Definition junk_ok (junk : NoffHeader) : Prop := seg_ok (code junk) /\ seg_ok (initData junk) /\ seg_ok (readonlyData junk) /\ seg_ok (uninitData junk).

Lemma unset_ok s : seg_ok s -> seg_ok (MkSegment (virtualAddr s) (inFileAddr s) 0).
Proof. unfold seg_ok, segment_ints. cbn [virtualAddr inFileAddr size]. rewrite !Forall_cons. intros (? & ? & _). split_and!; done. Qed.

Lemma ushort_nonneg bs off : Forall is_byte bs -> 0 <= ushort bs off.
Proof.
  intros H. unfold ushort. assert (forall k, 0 <= nth k bs 0) as Hk.
  { intros k. destruct (nth_in_or_default k bs 0) as [Hi| ->]; [|lia]. rewrite Forall_forall in H. apply H. by apply list_elem_of_In. }
  pose proof (Hk off). pose proof (Hk (S off)). lia.
Qed.

(** The output of a run of the loop that succeeds. *)
Definition noff_output (junk : NoffHeader) (file : list Z) (l : list scnhdr) (out : list Z) : Prop :=
  exists h, out = noff_bytes h ++ data_of file l /\ bytes_to_ints (take 52 out) = noff_ints h /\ noffMagic h = NOFFMAGIC /\
    located file out l ".text" (code h) /\ located file out l ".data" (initData h) /\ located file out l ".rdata" (readonlyData h) /\
    uninitData h = bss_segment (uninitData (noff_start junk)) l /\ size (uninitData h) = total (List.filter (fun s => named s ".bss") l).

Lemma finish_ok junk file l f h n : junk_ok junk -> sections_sane l -> Forall (fits file) l -> laid f (data_of file l) ->
  placed (noff_start junk) h n l -> n = 52 ->
  exists f', (_ ← lseek_out 0; Write (noff_bytes h)) f = Ok (tt, f') /\ noff_output junk file l (output f').
Proof.
  intros (J1 & J2 & J3 & J4) [Hs Ht] Hf [_ Ho] (Hm & H1 & H2 & H3 & H4) ->.
  pose proof (total_nonneg _ _ Hs) as Ht0.
  assert (forall s, size (MkSegment (virtualAddr s) (inFileAddr s) 0) + total l < 2 ^ 31) as Hz by (intros; cbn; lia).
  destruct (bss_segment_ok _ l (uninitData (noff_start junk)) Hs Ht0 ltac:(cbn; lia) (Hz _) (unset_ok _ J4)) as [B1 B2].
  assert (Forall is_i32 (noff_ints h)) as Hi.
  { unfold noff_ints. rewrite Hm, H1, H2, H3, H4. apply Forall_cons. split; [unfold is_i32; cbn; unfold NOFFMAGIC; lia|]. rewrite !Forall_app.
    split_and!; [| | |exact B1]; (apply (last_segment_i32 _ (total l)); [done|lia|lia|lia|by apply unset_ok]). }
  set (f1 := MkFiles (input f) (in_pos f) (output f) 0). assert (lseek_out 0 f = Ok (tt, f1)) as E by done. rewrite (bind_M_Ok _ _ _ _ _ E).
  eexists. split; [reflexivity|]. exists h. cbn [output f1 out_pos]. change (0 - length (output f))%nat with 0%nat. cbn [replicate]. rewrite app_nil_r.
  assert (splice 0 (noff_bytes h) (output f) = noff_bytes h ++ data_of file l) as ->.
  { unfold splice. rewrite take_0. cbn [app]. f_equal. change (0 + length (noff_bytes h))%nat with 52%nat.
    destruct Ho as [-> | [-> ->]]; [|done]. by rewrite drop_app_ge by done. }
  split; [done|]. split; [by apply noff_bytes_read|]. split; [by rewrite Hm|]. rewrite H1, H2, H3.
  pose proof (fun nm seg => last_segment_located file nm _ l Hs Hf (noff_bytes h) [] seg eq_refl) as HL. cbn [app length] in HL.
  change (52 + Z.of_nat 0) with 52 in HL. split_and!; [by apply HL; left..|done|]. rewrite H4, B2. cbn. lia.
Qed.

(** The reads of the headers. *)
Lemma Read_head file k n : 0 <= n ->
  Read n (MkFiles file k [] 0) = if decide (n = 0 \/ (k + Z.to_nat n <= length file)%nat) then
    Ok (slice k (Z.to_nat n) file, MkFiles file (k + Z.to_nat n) [] 0) else Exited.
Proof. intros Hn. by rewrite Read_ok. Qed.

Lemma coff2noff_ok file junk : Forall is_byte file -> junk_ok junk ->
  (forall l, coff_sections file = Some l -> sections_sane l) ->
  match coff_sections file with
  | Some l =>
      if acceptable file (uninitData (noff_start junk)) l then
        exists f', coff2noff junk (start file) = Ok (tt, f') /\ noff_output junk file l (output f')
      else coff2noff junk (start file) = Exited
  | None => coff2noff junk (start file) = Exited
  end.
Proof.
  intros Hb Hj Hsane. unfold coff2noff, start. unfold coff_sections in *.
  pose proof (Read_head file 0 20 ltac:(lia)) as R1. change (Z.to_nat 20) with 20%nat in R1. cbn [Nat.add] in R1.
  destruct (decide (20 <= length file)%nat) as [H20|H20].
  2:{ rewrite decide_False in R1 by lia. by apply bind_M_Exited. }
  rewrite decide_True in R1 by lia. rewrite (bind_M_Ok _ _ _ _ _ R1). destruct (negb (ushort _ 0 =? MIPSELMAGIC)); [done|].
  pose proof (Read_head file 20 56 ltac:(lia)) as R2. change (Z.to_nat 56) with 56%nat in R2. cbn [Nat.add] in R2.
  destruct (decide (76 <= length file)%nat) as [H76|H76].
  2:{ rewrite decide_False in R2 by lia. by apply bind_M_Exited. }
  rewrite decide_True in R2 by lia. rewrite (bind_M_Ok _ _ _ _ _ R2). destruct (negb (short _ 0 =? OMAGIC)); [done|].
  set (n := ushort (slice 0 20 file) 2) in *. assert (0 <= n) as Hn by (apply ushort_nonneg; unfold slice; by apply Forall_take, Forall_drop).
  pose proof (Read_head file 76 (n * sizeof_scnhdr) ltac:(unfold sizeof_scnhdr; lia)) as R3. unfold sizeof_scnhdr in *.
  replace (Z.to_nat (n * 40)) with (Z.to_nat n * 40)%nat in R3 by lia. destruct (decide (76 + Z.to_nat n * 40 <= length file)%nat) as [Hh|Hh].
  2:{ rewrite decide_False in R3 by lia. by apply bind_M_Exited. }
  rewrite decide_True in R3 by lia. rewrite (bind_M_Ok _ _ _ _ _ R3). set (l := scnhdrs_of _ _) in *. destruct (Hsane l eq_refl) as [Hs Ht].
  set (f1 := MkFiles file (76 + Z.to_nat n * 40) [] 52). assert (lseek_out sizeof_NoffHeader (MkFiles file (76 + Z.to_nat n * 40) [] 0) = Ok (tt, f1)) as E1 by done.
  rewrite (bind_M_Ok _ _ _ _ _ E1). pose proof (copy_sections_ok (total l) l (noff_start junk) sizeof_NoffHeader f1 [] Hs) as HC.
  assert (laid f1 []) as Hla by (split; [done|by right]). cbn [f1 input] in HC.
  assert (bss_sane (uninitData (noff_start junk)) (total l)) as Hu by (split; cbn; lia).
  specialize (HC Hla eq_refl Ht ltac:(lia) Hu). destruct (acceptable file _ l) eqn:Ha; [|by apply bind_M_Exited].
  destruct HC as (h & n' & f2 & E2 & Hla2 & Hp). rewrite (bind_M_Ok _ _ _ _ _ E2). cbn [app] in Hla2.
  exact (finish_ok junk file l f2 h 52 Hj (conj Hs Ht) (acceptable_fits _ _ _ Ha) Hla2 Hp eq_refl).
Qed.

(** * Loading it *)

(** The sections that are copied follow each other in memory, from address [a]. *)
Fixpoint contiguous (a : Z) (l : list scnhdr) : Prop :=
  match l with
  | [] => True
  | s :: l => if copied s then s_paddr s = a /\ contiguous (a + s_size s) l else contiguous a l
  end.

Lemma data_of_lookup file b l a s i : Forall (sane b) l -> Forall (fits file) l -> contiguous a l -> 0 <= a -> s ∈ l -> copied s = true -> 0 <= i < s_size s ->
  a <= s_paddr s /\ data_of file l !! Z.to_nat (s_paddr s - a + i) = file !! Z.to_nat (s_scnptr s + i).
Proof.
  intros Hs. revert a. induction Hs as [|s' l (Hz & Hp & _) Hl IH]; intros a Hf Hc Ha Hin Hcs Hi; [by apply elem_of_nil in Hin|].
  apply Forall_cons in Hf as [Hfs Hf]. cbn [contiguous data_of flat_map] in *. destruct (copied s') eqn:Hc'.
  - destruct Hc as [Hpa Hc]. pose proof (section_bytes_length file s' Hz Hp (Hfs Hc')) as Hlen. apply elem_of_cons in Hin as [->|Hin].
    + split; [lia|]. rewrite lookup_app_l by lia. unfold section_bytes. rewrite lookup_slice by lia. f_equal. lia.
    + destruct (IH (a + s_size s') Hf Hc ltac:(lia) Hin Hcs Hi) as [Hle Hlk]. split; [lia|].
      rewrite lookup_app_r by lia. rewrite <- Hlk. f_equal. lia.
  - apply elem_of_cons in Hin as [->|Hin]; [congruence|]. cbn [app]. by apply (IH a).
Qed.

Lemma total_member s l b : Forall (sane b) l -> s ∈ l -> s_size s <= total l.
Proof.
  intros Hs Hin. induction Hs as [|s' l [Hz _] Hl IH]; [by apply elem_of_nil in Hin|]. pose proof (total_nonneg l b Hl).
  cbn [total foldr]. fold (total l). apply elem_of_cons in Hin as [->|Hin]; [lia|]. specialize (IH Hin). lia.
Qed.

(** * Properties *)


(** C18. The kernel can run what the converter writes: AddrSpace finds the magic number and the
    sizes of the segments in the header, and the page fault handler, which reads page [vpn] at
    file_position vpn and looks at no segment, finds there the bytes that the compiler put at
    those addresses, provided that the sections follow each other in memory from 0. *)
Theorem converted_program_loads file junk l f' : Forall is_byte file -> junk_ok junk -> coff_sections file = Some l -> sections_sane l ->
  contiguous 0 l -> coff2noff junk (start file) = Ok (tt, f') ->
  let header := take 52 (output f') in
  VM.noff_word header 0 = VM.NOFFMAGIC /\
  (exists h, noff_output junk file l (output f') /\ VM.noff_word header 3 = size (code h) /\ VM.noff_word header 6 = size (initData h) /\
    VM.noff_word header 9 = size (readonlyData h) /\ VM.noff_word header 12 = size (uninitData h) /\
    located file (output f') l ".text" (code h) /\ located file (output f') l ".data" (initData h) /\ located file (output f') l ".rdata" (readonlyData h)) /\
  forall s i, s ∈ l -> copied s = true -> 0 <= i < s_size s ->
    let a := s_paddr s + i in
    output f' !! Z.to_nat (VM.file_position (a / TLB.PageSize) + a mod TLB.PageSize) = file !! Z.to_nat (s_scnptr s + i).
Proof.
  intros Hb Hj Hl Hs Hc E header. pose proof (coff2noff_ok file junk Hb Hj) as HK. rewrite Hl in HK. specialize (HK ltac:(by intros ? [= <-])).
  destruct (acceptable file _ l) eqn:Ha; [|congruence]. destruct HK as (f2 & E2 & Ho). assert (f2 = f') as -> by congruence.
  pose proof Ho as (h & Hout & Hh & Hm & L1 & L2 & L3 & _ & _). unfold VM.noff_word, header. rewrite Hh. cbn [noff_ints segment_ints app nth].
  split; [by rewrite Hm|]. split; [by exists h|]. intros s i Hin Hcs Hi. set (a := s_paddr s + i). destruct Hs as [Hs Ht].
  destruct (data_of_lookup file (total l) l 0 s i Hs (acceptable_fits _ _ _ Ha) Hc ltac:(lia) Hin Hcs Hi) as [Hp Hd].
  pose proof (total_member s l _ Hs Hin) as Hle. rewrite Forall_forall in Hs. destruct (Hs s Hin) as (_ & _ & _ & Hb1).
  rewrite Hout, <- Hd. assert (VM.file_position (a / TLB.PageSize) + a mod TLB.PageSize = 52 + a) as ->.
  { unfold VM.file_position, VM.NoffHeaderSize, TLB.PageSize. pose proof (Z.div_mod a 128 ltac:(lia)). pose proof (Z.mod_pos_bound a 128 ltac:(lia)).
    rewrite u32_id by (unfold is_u32; lia). lia. }
  rewrite lookup_app_r by (change (length (noff_bytes h)) with 52%nat; lia). f_equal. change (length (noff_bytes h)) with 52%nat. lia.
Qed.

(** ** Concrete inputs *)

Definition scn_bytes (nm : string) (paddr sz ptr : Z) : list Z :=
  take 8 (str nm ++ replicate 8 0) ++ ints_to_bytes [paddr; paddr; sz; ptr; 0; 0; 0; 0].
(** A program of four bytes of code, two of data, and ten that are not initialised. *)
Definition sample_coff : list Z :=
  [98; 1; 3; 0] ++ replicate 16 0 ++ [7; 1] ++ replicate 54 0 ++
  scn_bytes ".text" 0 4 196 ++ scn_bytes ".data" 4 2 200 ++ scn_bytes ".bss" 6 10 0 ++ [1; 2; 3; 4; 5; 6].
Definition sample_scnhdrs : list scnhdr := scnhdrs_of 3 (slice 76 120 sample_coff).
Definition sample_junk : NoffHeader := let s := MkSegment 7 8 9 in MkNoff 1 s s s s.
Definition sample_noff : list Z :=
  ints_to_bytes ([NOFFMAGIC; 0; 52; 4; 4; 56; 2] ++ [7; 8; 0] ++ [6; 8; 10]) ++ [1; 2; 3; 4; 5; 6].

Lemma sample_sane : Forall is_byte sample_coff /\ junk_ok sample_junk /\ coff_sections sample_coff = Some sample_scnhdrs /\ sections_sane sample_scnhdrs.
Proof.
  split; [by_compute|]. split; [repeat split; by_compute|]. split; [vm_compute; reflexivity|].
  split; [|vm_compute; reflexivity]. repeat (apply Forall_cons; split); try apply Forall_nil_2; (split; [|split; [|split]]); vm_compute; congruence.
Qed.


Example converted_program_loads_witness : exists f', coff2noff sample_junk (start sample_coff) = Ok (tt, f') /\
  output f' !! Z.to_nat (VM.file_position (5 / TLB.PageSize) + 5 mod TLB.PageSize) = Some 6.
Proof.
  destruct sample_sane as (Hb & Hj & Hl & Hs). exists (MkFiles sample_coff 202 sample_noff 52).
  assert (coff2noff sample_junk (start sample_coff) = Ok (tt, MkFiles sample_coff 202 sample_noff 52)) as E by (vm_compute; reflexivity).
  assert (contiguous 0 sample_scnhdrs) as Hc by (vm_compute; auto).
  split; [exact E|]. destruct (converted_program_loads sample_coff sample_junk sample_scnhdrs (MkFiles sample_coff 202 sample_noff 52) Hb Hj Hl Hs Hc E)
    as (_ & _ & H).
  - apply (H (MkScn [46; 100; 97; 116; 97; 0; 0; 0] 4 2 200) 1).
    + vm_compute. right; left.
    + vm_compute. reflexivity.
    + vm_compute. split; congruence.
Defined.
End Coff2Noff.
