(* ===== verification/ByteOrder.v ===== *)
(** ByteOrder: the conversions between the byte order of the host and that of the machine and
    of executables, which is little-endian: WordToHost and its kin of src/code/machine/translate.cc
    (and of src/coff2noff/coff2noff.c, that has a copy), CheckEndian of machine.cc, and
    SwapHeader of userprog/addrspace.cc (and of the converter).

    The other files model the little-endian host of the Linux build, where all of this does
    nothing.  Here the host is a parameter, and the theorems say that it does not matter. *)

From S2P Require Import Prelude Machine Coff2Noff.
From stdpp Require Import base numbers list gmap.
#[local] Open Scope Z_scope.

Module ByteOrder.
Import Coff2Noff.

Section Host.
(** How the host keeps words in memory. *)
Variable HOST_IS_BIG_ENDIAN : bool.

Definition in_order {A} (l : list A) : list A := if HOST_IS_BIG_ENDIAN then reverse l else l.

(** The unsigned [int] or [short] that the host finds in bytes, and the bytes where it puts
    one. *)
Definition host_value (bs : list Z) : Z := foldr (fun b w => b + 2 ^ 8 * w) 0 (in_order bs).
Definition host_uint_bytes (w : Z) : list Z := in_order (int_to_bytes w).
Definition host_ushort_bytes (w : Z) : list Z := in_order [w mod 2 ^ 8; (w / 2 ^ 8) mod 2 ^ 8].

Definition WordToHost (word : Z) : Z :=
  if HOST_IS_BIG_ENDIAN then
    let result := Z.land (Z.shiftr word 24) 0xff in
    let result := Z.lor result (Z.land (Z.shiftr word 8) 0xff00) in
    let result := Z.lor result (Z.land (u32 (Z.shiftl word 8)) 0xff0000) in
    Z.lor result (Z.land (u32 (Z.shiftl word 24)) 0xff000000)
  else word.

Definition ShortToHost (shortword : Z) : Z :=
  if HOST_IS_BIG_ENDIAN then
    let result := Z.land (Z.shiftl shortword 8) 0xff00 in
    Z.lor result (Z.land (Z.shiftr shortword 8) 0xff)
  else shortword.

Definition WordToMachine (word : Z) : Z := WordToHost word.
Definition ShortToMachine (shortword : Z) : Z := ShortToHost shortword.

(** The flag may be wrong: [flag] is what the build says. *)
Definition CheckEndian (flag : bool) : res unit :=
  let intword := host_value [1; 2; 3; 4] in
  if flag then ASSERT (intword =? 0x01020304) else ASSERT (intword =? 0x04030201).

(** The last step of ReadMem and of WriteMem, [mainMemory] being bytes. *)
Definition host_load (mem : list Z) (p size : Z) : res Z :=
  if size =? 1 then b ← aget mem p; Ok (if b <? 128 then b else b - 256)
  else if size =? 2 then b0 ← aget mem p; b1 ← aget mem (p + 1); Ok (ShortToHost (host_value [b0; b1]))
  else if size =? 4 then
    b0 ← aget mem p; b1 ← aget mem (p + 1); b2 ← aget mem (p + 2); b3 ← aget mem (p + 3); Ok (i32 (WordToHost (host_value [b0; b1; b2; b3])))
  else AssertFail.

Fixpoint put_bytes (mem : list Z) (p : Z) (bs : list Z) : res (list Z) :=
  match bs with [] => Ok mem | b :: bs => mem ← aset mem p b; put_bytes mem (p + 1) bs end.
Definition host_store (mem : list Z) (p size value : Z) : res (list Z) :=
  if size =? 1 then aset mem p (u32 value mod 2 ^ 8)
  else if size =? 2 then put_bytes mem p (host_ushort_bytes (ShortToMachine (Z.land (u32 value) 0xffff)))
  else if size =? 4 then put_bytes mem p (host_uint_bytes (WordToMachine (u32 value)))
  else AssertFail.

(** A field of a header goes through WordToHost as an [unsigned int]. *)
Definition swap_int (x : Z) : Z := i32 (WordToHost (u32 x)).
Definition swap_segment (s : Segment) : Segment := MkSegment (swap_int (virtualAddr s)) (swap_int (inFileAddr s)) (swap_int (size s)).
Definition SwapHeader (noffH : NoffHeader) : NoffHeader :=
  MkNoff (swap_int (noffMagic noffH)) (swap_segment (code noffH)) (swap_segment (initData noffH))
    (swap_segment (readonlyData noffH)) (swap_segment (uninitData noffH)).

(** A header in the memory of the host, from the bytes of a file and back. *)
Fixpoint host_ints (bs : list Z) : list Z :=
  match bs with b0 :: b1 :: b2 :: b3 :: bs => i32 (host_value [b0; b1; b2; b3]) :: host_ints bs | _ => [] end.
Definition header_at (l : list Z) : NoffHeader :=
  let seg i := MkSegment (nth i l 0) (nth (S i) l 0) (nth (S (S i)) l 0) in MkNoff (nth 0 l 0) (seg 1%nat) (seg 4%nat) (seg 7%nat) (seg 10%nat).
Definition header_bytes (h : NoffHeader) : list Z := flat_map host_uint_bytes (noff_ints h).

(** The head of the constructor of AddrSpace, and the end of the converter. *)
Definition read_header (bytes : list Z) : NoffHeader :=
  let noffH := header_at (host_ints bytes) in
  if negb (noffMagic noffH =? NOFFMAGIC) && (WordToHost (u32 (noffMagic noffH)) =? NOFFMAGIC) then SwapHeader noffH else noffH.
Definition write_header (noffH : NoffHeader) : list Z := header_bytes (SwapHeader noffH).
End Host.

(** * Bytes and masks *)

Definition is_byte (b : Z) : Prop := 0 <= b < 2 ^ 8.

Lemma land_mask x k : 0 <= k -> Z.land x (Z.shiftl 255 k) = ((x / 2 ^ k) mod 2 ^ 8) * 2 ^ k.
Proof.
  intros Hk. rewrite <- (Z.land_ones (x / 2 ^ k) 8), <- Z.shiftr_div_pow2, <- Z.shiftl_mul_pow2 by lia.
  apply Z.bits_inj'. intros i Hi. rewrite Z.land_spec. destruct (Z.lt_ge_cases i k).
  - rewrite !Z.shiftl_spec_low by lia. by rewrite andb_false_r.
  - rewrite !Z.shiftl_spec, Z.land_spec, Z.shiftr_spec by lia. do 2 f_equal. lia.
Qed.

Lemma lor_above a b k : 0 <= k -> 0 <= a < 2 ^ k -> Z.lor a (b * 2 ^ k) = a + b * 2 ^ k.
Proof.
  intros Hk Ha. symmetry. apply Z.add_nocarry_lor. apply Z.bits_inj'. intros i Hi. rewrite Z.land_spec, Z.bits_0, <- Z.shiftl_mul_pow2 by lia.
  destruct (Z.lt_ge_cases i k); [by rewrite Z.shiftl_spec_low, andb_false_r by lia|].
  rewrite <- (Z.mod_small a (2 ^ k)) by lia. by rewrite Z.mod_pow2_bits_high by lia.
Qed.

Lemma WordToHost_bytes b0 b1 b2 b3 : is_byte b0 -> is_byte b1 -> is_byte b2 -> is_byte b3 ->
  WordToHost true (word_of_bytes b3 b2 b1 b0) = word_of_bytes b0 b1 b2 b3.
Proof.
  unfold is_byte. intros H0 H1 H2 H3. unfold WordToHost. rewrite !Z.shiftr_div_pow2, !Z.shiftl_mul_pow2 by lia.
  change 0xff with (Z.shiftl 255 0) at 1. change 0xff00 with (Z.shiftl 255 8). change 0xff0000 with (Z.shiftl 255 16).
  change 0xff000000 with (Z.shiftl 255 24). rewrite !land_mask by lia.
  unfold word_of_bytes, u32.
  assert ((b3 + b2 * 2 ^ 8 + b1 * 2 ^ 16 + b0 * 2 ^ 24) / 2 ^ 24 / 2 ^ 0 mod 2 ^ 8 * 2 ^ 0 = b0) as -> by (Z.to_euclidean_division_equations; lia).
  assert ((b3 + b2 * 2 ^ 8 + b1 * 2 ^ 16 + b0 * 2 ^ 24) / 2 ^ 8 / 2 ^ 8 mod 2 ^ 8 = b1) as -> by (Z.to_euclidean_division_equations; lia).
  assert ((b3 + b2 * 2 ^ 8 + b1 * 2 ^ 16 + b0 * 2 ^ 24) * 2 ^ 8 mod 2 ^ 32 / 2 ^ 16 mod 2 ^ 8 = b2) as -> by (Z.to_euclidean_division_equations; lia).
  assert ((b3 + b2 * 2 ^ 8 + b1 * 2 ^ 16 + b0 * 2 ^ 24) * 2 ^ 24 mod 2 ^ 32 / 2 ^ 24 mod 2 ^ 8 = b3) as -> by (Z.to_euclidean_division_equations; lia).
  by rewrite (lor_above b0 b1), (lor_above _ b2), (lor_above _ b3) by lia.
Qed.

Lemma ShortToHost_bytes b0 b1 : is_byte b0 -> is_byte b1 -> ShortToHost true (b1 + b0 * 2 ^ 8) = b0 + b1 * 2 ^ 8.
Proof.
  unfold is_byte. intros H0 H1. unfold ShortToHost. rewrite Z.shiftr_div_pow2, Z.shiftl_mul_pow2, Z.lor_comm by lia.
  change 0xff with (Z.shiftl 255 0) at 1. change 0xff00 with (Z.shiftl 255 8). rewrite !land_mask by lia.
  assert ((b1 + b0 * 2 ^ 8) / 2 ^ 8 / 2 ^ 0 mod 2 ^ 8 * 2 ^ 0 = b0) as -> by (Z.to_euclidean_division_equations; lia).
  assert ((b1 + b0 * 2 ^ 8) * 2 ^ 8 / 2 ^ 8 mod 2 ^ 8 = b1) as -> by (Z.to_euclidean_division_equations; lia).
  by rewrite lor_above by lia.
Qed.

(** What the host makes of little-endian bytes, it converts to their value. *)
Lemma word_converts big b0 b1 b2 b3 : is_byte b0 -> is_byte b1 -> is_byte b2 -> is_byte b3 ->
  WordToHost big (host_value big [b0; b1; b2; b3]) = word_of_bytes b0 b1 b2 b3.
Proof.
  intros H0 H1 H2 H3. destruct big; cbn [host_value in_order reverse rev_append foldr].
  - rewrite <- (WordToHost_bytes b0 b1 b2 b3) by done. f_equal. unfold host_value, in_order, word_of_bytes. cbn. lia.
  - unfold WordToHost, host_value, in_order, word_of_bytes. cbn. lia.
Qed.

Lemma short_converts big b0 b1 : is_byte b0 -> is_byte b1 -> ShortToHost big (host_value big [b0; b1]) = b0 + b1 * 2 ^ 8.
Proof.
  intros H0 H1. destruct big.
  - rewrite <- (ShortToHost_bytes b0 b1) by done. f_equal. unfold host_value, in_order. cbn. lia.
  - unfold ShortToHost, host_value, in_order. cbn. lia.
Qed.

Lemma word_split w : 0 <= w < 2 ^ 32 -> exists b0 b1 b2 b3, is_byte b0 /\ is_byte b1 /\ is_byte b2 /\ is_byte b3 /\
  w = word_of_bytes b0 b1 b2 b3 /\ b0 = w mod 2 ^ 8 /\ b1 = (w / 2 ^ 8) mod 2 ^ 8 /\ b2 = (w / 2 ^ 16) mod 2 ^ 8 /\ b3 = (w / 2 ^ 24) mod 2 ^ 8.
Proof.
  intros Hw. exists (w mod 2 ^ 8), ((w / 2 ^ 8) mod 2 ^ 8), ((w / 2 ^ 16) mod 2 ^ 8), ((w / 2 ^ 24) mod 2 ^ 8).
  unfold is_byte, word_of_bytes. split_and!; try done; Z.to_euclidean_division_equations; lia.
Qed.

Lemma int_to_bytes_word b0 b1 b2 b3 : is_byte b0 -> is_byte b1 -> is_byte b2 -> is_byte b3 ->
  int_to_bytes (word_of_bytes b0 b1 b2 b3) = [b0; b1; b2; b3].
Proof.
  unfold is_byte, int_to_bytes, word_of_bytes, u32. intros H0 H1 H2 H3. repeat f_equal; Z.to_euclidean_division_equations; lia.
Qed.

(** What it converts for the machine, it puts into memory as little-endian bytes. *)
Lemma word_stores big w : is_u32 w -> host_uint_bytes big (WordToMachine big w) = int_to_bytes w.
Proof.
  intros Hw. destruct big; [|done]. destruct (word_split w Hw) as (b0 & b1 & b2 & b3 & H0 & H1 & H2 & H3 & -> & _).
  unfold WordToMachine, host_uint_bytes, in_order. rewrite (WordToHost_bytes b3 b2 b1 b0) by done. by rewrite !int_to_bytes_word by done.
Qed.

Lemma short_stores big w : 0 <= w < 2 ^ 16 -> host_ushort_bytes big (ShortToMachine big w) = [w mod 2 ^ 8; (w / 2 ^ 8) mod 2 ^ 8].
Proof.
  intros Hw. destruct big; [|done]. unfold ShortToMachine, host_ushort_bytes, in_order.
  assert (w = (w / 2 ^ 8) mod 2 ^ 8 * 2 ^ 8 + w mod 2 ^ 8) as E by (Z.to_euclidean_division_equations; lia).
  assert (ShortToHost true w = (w / 2 ^ 8) mod 2 ^ 8 + w mod 2 ^ 8 * 2 ^ 8) as ->.
  { rewrite E at 1. rewrite Z.add_comm, ShortToHost_bytes by (apply Z.mod_pos_bound; lia). done. }
  clear E. unfold reverse. cbn [rev_append]. f_equal; [|f_equal]; Z.to_euclidean_division_equations; lia.
Qed.

(** * The machine does not depend on the host *)

Lemma host_load_machine big mem p size : Forall is_byte mem -> host_load big mem p size = Machine.Machine.load mem p size.
Proof.
  intros Hm. assert (forall i b, aget mem i = Ok b -> is_byte b) as Hb.
  { intros i b [_ E]%aget_Ok. rewrite Forall_lookup in Hm. by eapply Hm. }
  unfold host_load, Machine.Machine.load. destruct (size =? 1); [done|]. destruct (size =? 2); [|destruct (size =? 4); [|done]].
  - destruct (aget mem p) eqn:E0; try done. destruct (aget mem (p + 1)) eqn:E1; try done. cbn [mbind res_bind].
    by rewrite short_converts by eauto.
  - destruct (aget mem p) eqn:E0; try done. destruct (aget mem (p + 1)) eqn:E1; try done. destruct (aget mem (p + 2)) eqn:E2; try done.
    destruct (aget mem (p + 3)) eqn:E3; try done. cbn [mbind res_bind]. by rewrite word_converts by eauto.
Qed.

Lemma host_store_machine big mem p size v : host_store big mem p size v = Machine.Machine.store mem p size v.
Proof.
  unfold host_store, Machine.Machine.store. destruct (size =? 1); [done|]. destruct (size =? 2); [|destruct (size =? 4); [|done]].
  - change 0xffff with (Z.ones 16). rewrite Z.land_ones, short_stores by (try apply Z.mod_pos_bound; lia). cbn [put_bytes].
    assert (u32 v mod 2 ^ 16 mod 2 ^ 8 = u32 v mod 2 ^ 8) as -> by (Z.to_euclidean_division_equations; lia).
    assert (u32 v mod 2 ^ 16 / 2 ^ 8 mod 2 ^ 8 = u32 v / 2 ^ 8 mod 2 ^ 8) as -> by (Z.to_euclidean_division_equations; lia).
    destruct (aset mem p _) as [m| | | |]; try done. cbn. by destruct (aset m (p + 1) _).
  - rewrite word_stores by apply u32_range. unfold int_to_bytes. rewrite (u32_id (u32 v)) by apply u32_range. cbn [put_bytes].
    change 256 with (2 ^ 8).
    destruct (aset mem p _) as [m| | | |]; try done. cbn [mbind res_bind]. destruct (aset m (p + 1) _) as [m1| | | |]; try done. cbn [mbind res_bind].
    replace (p + 1 + 1) with (p + 2) by lia. destruct (aset m1 (p + 2) _) as [m2| | | |]; try done. cbn [mbind res_bind].
    replace (p + 2 + 1) with (p + 3) by lia. by destruct (aset m2 (p + 3) _).
Qed.

(** * Executables do not depend on the host *)

Definition header_ok (h : NoffHeader) : Prop := Forall is_i32 (noff_ints h).

Lemma int_bytes x : exists b0 b1 b2 b3, int_to_bytes x = [b0; b1; b2; b3] /\ u32 x = word_of_bytes b0 b1 b2 b3 /\
  is_byte b0 /\ is_byte b1 /\ is_byte b2 /\ is_byte b3.
Proof.
  destruct (word_split (u32 x) (u32_range x)) as (b0 & b1 & b2 & b3 & H0 & H1 & H2 & H3 & E & -> & -> & -> & ->).
  eexists _, _, _, _. split; [reflexivity|]. split_and!; [exact E|done..].
Qed.

(** The field that the host finds for a field written as little-endian bytes. *)
Definition seen (big : bool) (x : Z) : Z := i32 (host_value big (int_to_bytes x)).

Lemma swap_seen big x : is_i32 x -> swap_int big (seen big x) = x.
Proof.
  intros Hx. unfold swap_int, seen. destruct (int_bytes x) as (b0 & b1 & b2 & b3 & -> & E & H0 & H1 & H2 & H3).
  assert (is_u32 (host_value big [b0; b1; b2; b3])) as Hu.
  { unfold is_byte, is_u32, host_value, in_order in *. destruct big; cbn; lia. }
  rewrite u32_i32, u32_id by done. rewrite word_converts by done. rewrite <- E, i32_u32. by apply i32_id.
Qed.

Lemma seen_little x : is_i32 x -> seen false x = x.
Proof. intros Hx. rewrite <- (swap_seen false x Hx) at 2. unfold swap_int, WordToHost. rewrite i32_u32. symmetry. apply i32_id, i32_range. Qed.

Lemma host_ints_bytes big l : host_ints big (ints_to_bytes l) = map (seen big) l.
Proof.
  induction l as [|x l IH]; [done|]. unfold ints_to_bytes in *. cbn [flat_map map].
  destruct (int_bytes x) as (b0 & b1 & b2 & b3 & E & _). unfold seen at 1. rewrite E. cbn [app host_ints]. by rewrite IH.
Qed.

Definition map_segment (f : Z -> Z) (s : Segment) : Segment := MkSegment (f (virtualAddr s)) (f (inFileAddr s)) (f (size s)).
Definition map_header (f : Z -> Z) (h : NoffHeader) : NoffHeader :=
  MkNoff (f (noffMagic h)) (map_segment f (code h)) (map_segment f (initData h)) (map_segment f (readonlyData h)) (map_segment f (uninitData h)).

Lemma header_at_ints f h : header_at (map f (noff_ints h)) = map_header f h.
Proof. reflexivity. Qed.

Lemma map_header_id f h : (forall x, x ∈ noff_ints h -> f x = x) -> map_header f h = h.
Proof.
  intros H. destruct h as [m [a1 a2 a3] [b1 b2 b3] [c1 c2 c3] [d1 d2 d3]]. unfold map_header, map_segment. cbn in *.
  rewrite !H by set_solver. done.
Qed.

Lemma read_header_ok big h : header_ok h -> noffMagic h = NOFFMAGIC -> read_header big (noff_bytes h) = h.
Proof.
  intros Hh Hm. unfold read_header, noff_bytes. rewrite host_ints_bytes, header_at_ints. unfold header_ok in Hh. rewrite Forall_forall in Hh.
  destruct big.
  - cbn [map_header noffMagic]. rewrite Hm. cbn - [SwapHeader noff_ints].
    change (map_header (fun x => swap_int true (seen true x)) h = h). apply map_header_id. intros x Hx. by apply swap_seen, Hh.
  - rewrite map_header_id by (intros x Hx; by apply seen_little, Hh). by rewrite Hm.
Qed.

Lemma header_bytes_swap big h : header_bytes big (SwapHeader big h) = noff_bytes h.
Proof.
  unfold header_bytes, noff_bytes, ints_to_bytes. change (noff_ints (SwapHeader big h)) with (map (swap_int big) (noff_ints h)).
  induction (noff_ints h) as [|x l IH]; [done|]. cbn [map flat_map]. rewrite IH. f_equal.
  unfold swap_int, host_uint_bytes, in_order. pose proof (word_stores big (u32 x) (u32_range x)) as E.
  unfold host_uint_bytes, in_order, WordToMachine in E.
  assert (forall y, int_to_bytes (i32 y) = int_to_bytes y) as Hi by (intros y; unfold int_to_bytes; by rewrite u32_i32).
  assert (int_to_bytes (u32 x) = int_to_bytes x) as Hu by (unfold int_to_bytes; by rewrite (u32_id (u32 x)) by apply u32_range).
  rewrite Hi, E. exact Hu.
Qed.

(** * Properties *)

(** C19. The host's byte order does not show.  On a host of either order, when the build says
    which (CheckEndian stops the simulator otherwise): memory answers every read and takes
    every write as the little-endian machine of Machine.v does; the converter writes for a
    header the bytes that Coff2Noff.v gives; and the constructor of AddrSpace reads from
    these the header that was written, so that an executable made on one host runs on any. *)
Theorem byte_order_does_not_show big flag mem p size v h : Forall is_byte mem -> header_ok h -> noffMagic h = NOFFMAGIC ->
  CheckEndian big flag = (if bool_decide (flag = big) then Ok tt else AssertFail) /\
  host_load big mem p size = Machine.Machine.load mem p size /\
  host_store big mem p size v = Machine.Machine.store mem p size v /\
  write_header big h = noff_bytes h /\
  (forall big', read_header big' (write_header big h) = h).
Proof.
  intros Hm Hh Hn. split_and!.
  - by destruct big, flag.
  - by apply host_load_machine.
  - apply host_store_machine.
  - apply header_bytes_swap.
  - intros big'. unfold write_header. rewrite header_bytes_swap. by apply read_header_ok.
Qed.

Example byte_order_does_not_show_witness :
  host_load true [1; 2; 3; 4] 0 4 = Ok 0x04030201 /\
  (let s := MkSegment 0 52 (-1) in let h := MkNoff NOFFMAGIC s s s s in read_header false (write_header true h) = h).
Proof.
  destruct (byte_order_does_not_show true true [1; 2; 3; 4] 0 4 0
    (let s := MkSegment 0 52 (-1) in MkNoff NOFFMAGIC s s s s)) as (_ & H2 & _ & _ & H5).
  - repeat constructor; by vm_compute.
  - repeat constructor; by vm_compute.
  - reflexivity.
  - split; [rewrite H2; reflexivity|apply H5].
Defined.
End ByteOrder.
