(* ===== verification/Interrupt.v ===== *)
(** Interrupt: the simulated interrupt hardware and its clock, src/code/machine/interrupt.cc
    and interrupt.h, stats.h, timer.cc, and src/code/threads/alarm.cc.

    [World R] is the interrupt state and the statistics beside the rest [R] of the kernel.
    A [CallBackObj] is an object address; what [CallBack] does when it is called on it is a
    parameter, as are [currentThread->Yield()] and [machine->DelayedLoad(0, 0)].  The sorted
    list of pending interrupts is its sequence of items (CList.v proves that SortedList is
    that); every item is a new object, so the list never holds it yet.  The clock is an
    [int]: a tick past its range is undefined. *)

From Stdlib Require Import Sorted.
From S2P Require Import Prelude CList Mips Machine.
From stdpp Require Import base numbers list.
#[local] Open Scope Z_scope.

Module Interrupt.

Inductive IntStatus := IntOff | IntOn.
Inductive IntType := TimerInt | DiskInt | ConsoleWriteInt | ConsoleReadInt | NetworkSendInt | NetworkRecvInt.

#[export] Instance IntStatus_eq_dec : EqDecision IntStatus.
Proof. solve_decision. Defined.

Definition UserTick : Z := 1.
Definition SystemTick : Z := 10.
Definition ConsoleTime : Z := 100.
Definition NetworkTime : Z := 100.
Definition TimerTicks : Z := 100.

Record PendingInterrupt := MkPending { callOnInterrupt : Z; when : Z; type : IntType }.

Definition PendingCompare (x y : PendingInterrupt) : Z :=
  if when x <? when y then -1 else if when x >? when y then 1 else 0.

Record Statistics := MkStats {
  totalTicks : Z; idleTicks : Z; systemTicks : Z; userTicks : Z;
  numDiskReads : Z; numDiskWrites : Z; numConsoleCharsRead : Z; numConsoleCharsWritten : Z;
  numPageFaults : Z; numPacketsSent : Z; numPacketsRecvd : Z
}.
Definition Statistics_new : Statistics := MkStats 0 0 0 0 0 0 0 0 0 0 0.

Record Interrupt := MkInterrupt {
  level : IntStatus; pending : list PendingInterrupt; inHandler : bool; yieldOnReturn : bool; status : Machine.MachineStatus
}.
Definition Interrupt_new : Interrupt := MkInterrupt IntOff [] false false Machine.SystemMode.

Record World (R : Type) := MkWorld { interrupt : Interrupt; stats : Statistics; rest : R }.
Arguments MkWorld {R}.
Arguments interrupt {R}.
Arguments stats {R}.
Arguments rest {R}.

Section Ops.
Context {R : Type}.
#[local] Notation W := (World R).
Implicit Types (w : W).

Definition modify (f : W -> W) : M W unit := fun w => Ok (tt, f w).
Definition on_interrupt (f : Interrupt -> Interrupt) w : W := MkWorld (f (interrupt w)) (stats w) (rest w).
Definition on_stats (f : Statistics -> Statistics) w : W := MkWorld (interrupt w) (f (stats w)) (rest w).
Definition on_rest (f : R -> R) w : W := MkWorld (interrupt w) (stats w) (f (rest w)).

Definition with_level (l : IntStatus) (i : Interrupt) : Interrupt := MkInterrupt l (pending i) (inHandler i) (yieldOnReturn i) (status i).
Definition with_pending (p : list PendingInterrupt) (i : Interrupt) : Interrupt := MkInterrupt (level i) p (inHandler i) (yieldOnReturn i) (status i).
Definition with_inHandler (b : bool) (i : Interrupt) : Interrupt := MkInterrupt (level i) (pending i) b (yieldOnReturn i) (status i).
Definition with_yieldOnReturn (b : bool) (i : Interrupt) : Interrupt := MkInterrupt (level i) (pending i) (inHandler i) b (status i).
Definition with_status (s : Machine.MachineStatus) (i : Interrupt) : Interrupt := MkInterrupt (level i) (pending i) (inHandler i) (yieldOnReturn i) s.

(** The counters of ticks. *)
Definition with_ticks (t idle sys user : Z) (s : Statistics) : Statistics :=
  MkStats t idle sys user (numDiskReads s) (numDiskWrites s) (numConsoleCharsRead s) (numConsoleCharsWritten s)
    (numPageFaults s) (numPacketsSent s) (numPacketsRecvd s).

(** The sum of two [int]s. *)
Definition int_add (a b : Z) : res Z := if decide (is_i32 (a + b)) then Ok (a + b) else Undefined.

Definition now w : Z := totalTicks (stats w).
Definition pendings w : list PendingInterrupt := pending (interrupt w).

Definition ChangeLevel (old l : IntStatus) : M W unit := modify (on_interrupt (with_level l)).
Definition setStatus (s : Machine.MachineStatus) : M W unit := modify (on_interrupt (with_status s)).

Definition YieldOnReturn : M W unit :=
  w ← get_state; _ ← lift (ASSERT (inHandler (interrupt w))); modify (on_interrupt (with_yieldOnReturn true)).

(** [Halt] deletes the kernel and does not return. *)
Definition Halt : M W unit := lift Exited.

Definition Schedule (toCall fromNow : Z) (t : IntType) : M W unit :=
  w ← get_state;
  due ← lift (int_add (now w) fromNow);
  _ ← lift (ASSERT (0 <? fromNow));
  modify (on_interrupt (with_pending (CList.insert_sorted PendingCompare (MkPending toCall due t) (pendings w)))).

Section Handlers.
Variable CallBack : Z -> M W unit.
Variable DelayedLoad : M W unit.
Variable Yield : M W unit.

(** One turn of the loop of CheckIfDue: the first interrupt is taken off the list and its
    handler called. *)
Definition fire_one : M W unit :=
  w ← get_state;
  match pendings w with
  | [] => lift AssertFail
  | next :: others => _ ← modify (on_interrupt (with_pending others)); CallBack (callOnInterrupt next)
  end.

Fixpoint fire (fuel : nat) : M W unit :=
  match fuel with
  | O => lift OutOfFuel
  | S fuel =>
      _ ← fire_one;
      w ← get_state;
      match pendings w with
      | [] => mret tt
      | next :: _ => if when next <=? now w then fire fuel else mret tt
      end
  end.

(** The fuel is the number of interrupts pending: handlers only schedule new ones for
    later. *)
Definition CheckIfDue (advanceClock : bool) : M W bool :=
  w ← get_state;
  _ ← lift (ASSERT (bool_decide (level (interrupt w) = IntOff)));
  match pendings w with
  | [] => mret false
  | next :: _ =>
      if (when next >? now w) && negb advanceClock then mret false
      else
        _ ← (if when next >? now w then
               idle ← lift (int_add (idleTicks (stats w)) (when next - now w));
               modify (on_stats (fun s => with_ticks (when next) idle (systemTicks s) (userTicks s) s))
             else mret tt);
        _ ← DelayedLoad;
        _ ← modify (on_interrupt (with_inHandler true));
        w ← get_state;
        _ ← fire (length (pendings w));
        _ ← modify (on_interrupt (with_inHandler false));
        mret true
  end.

(** OneTick up to the point where the handlers have run and interrupts are on again. *)
Definition Tick : M W unit :=
  w ← get_state;
  _ ← (match status (interrupt w) with
       | Machine.SystemMode =>
           t ← lift (int_add (now w) SystemTick); c ← lift (int_add (systemTicks (stats w)) SystemTick);
           modify (on_stats (fun s => with_ticks t (idleTicks s) c (userTicks s) s))
       | _ =>
           t ← lift (int_add (now w) UserTick); c ← lift (int_add (userTicks (stats w)) UserTick);
           modify (on_stats (fun s => with_ticks t (idleTicks s) (systemTicks s) c s))
       end);
  _ ← ChangeLevel IntOn IntOff;
  _ ← CheckIfDue false;
  ChangeLevel IntOff IntOn.

Definition OneTick : M W unit :=
  w ← get_state;
  let oldStatus := status (interrupt w) in
  _ ← Tick;
  w ← get_state;
  if yieldOnReturn (interrupt w) then
    _ ← modify (on_interrupt (with_yieldOnReturn false));
    _ ← setStatus Machine.SystemMode;
    _ ← Yield;
    setStatus oldStatus
  else mret tt.

Definition SetLevel (l : IntStatus) : M W IntStatus :=
  w ← get_state;
  let old := level (interrupt w) in
  _ ← lift (ASSERT (bool_decide (l = IntOff) || negb (inHandler (interrupt w))));
  _ ← ChangeLevel old l;
  _ ← (if bool_decide (l = IntOn /\ old = IntOff) then OneTick else mret tt);
  mret old.

Definition Idle : M W unit :=
  _ ← setStatus Machine.IdleMode;
  fired ← CheckIfDue true;
  if (fired : bool) then setStatus Machine.SystemMode else Halt.

End Handlers.

(** * The timer (timer.cc) and the alarm (alarm.cc) *)

Record Timer := MkTimer { randomize : bool; callPeriodically : Z; disable : bool }.

(** [rand()] of the C library, on the state it keeps. *)
Variable rand : M W Z.

Definition SetInterrupt (this : Z) (t : Timer) : M W unit :=
  if disable t then mret tt
  else
    delay ← (if randomize t then r ← rand; mret (1 + (r %c (TimerTicks * 2))) else mret TimerTicks);
    Schedule this delay TimerInt.

Definition Timer_CallBack (CallBack : Z -> M W unit) (this : Z) (t : Timer) : M W unit :=
  _ ← CallBack (callPeriodically t); SetInterrupt this t.

(** The whole body of Alarm::CallBack is commented out. *)
Definition Alarm_CallBack : M W unit := mret tt.

(** The alarm's constructor: a timer at [this] that calls the alarm. *)
Definition Alarm_new (this alarm : Z) (doRandom : bool) : M W Timer :=
  let t := MkTimer doRandom alarm false in
  _ ← SetInterrupt this t; mret t.

End Ops.

(** * The pending interrupts *)

#[export] Instance PendingCompare_key : CList.KeyCompare PendingCompare when.
Proof.
  split; intros x y; unfold PendingCompare; destruct (Z.ltb_spec (when x) (when y)); try lia;
    rewrite Z.gtb_ltb; destruct (Z.ltb_spec (when y) (when x)); lia.
Qed.

#[local] Notation insert := (CList.insert_sorted PendingCompare).
#[local] Notation sorted := (CList.sorted when).

Definition is_due (t : Z) (d : PendingInterrupt) : Prop := when d <= t.
Definition is_later (t : Z) (d : PendingInterrupt) : Prop := t < when d.

#[export] Instance is_due_dec t d : Decision (is_due t d).
Proof. unfold is_due. apply _. Defined.

#[export] Instance is_later_dec t d : Decision (is_later t d).
Proof. unfold is_later. apply _. Defined.

Definition insert_all (l ds : list PendingInterrupt) : list PendingInterrupt := foldl (fun l d => insert d l) l ds.

Lemma insert_all_sorted l ds : sorted l -> sorted (insert_all l ds).
Proof. revert l. induction ds as [|d ds IH]; intros l Hl; [done|]. by apply IH, (CList.insert_sorted_sorted PendingCompare when). Qed.

Lemma insert_all_perm l ds : insert_all l ds ≡ₚ l ++ ds.
Proof.
  revert l. induction ds as [|d ds IH]; intros l; cbn; [by rewrite app_nil_r|].
  rewrite IH, (CList.insert_sorted_perm PendingCompare). by rewrite <- Permutation_middle.
Qed.

(** Later interrupts do not change which ones are due. *)
Lemma due_insert t d l : is_later t d -> filter (is_due t) (insert d l) = filter (is_due t) l.
Proof.
  intros Hd. assert (~ is_due t d) as Hn by (unfold is_due, is_later in *; lia).
  induction l as [|y l IH]; cbn [CList.insert_sorted]; [by rewrite filter_cons_False|].
  case_decide; [by rewrite filter_cons_False|]. rewrite !filter_cons. by rewrite IH.
Qed.

Lemma due_insert_all t l ds : Forall (is_later t) ds -> filter (is_due t) (insert_all l ds) = filter (is_due t) l.
Proof.
  intros Hds. revert l. induction Hds as [|d ds Hd _ IH]; intros l; [done|]. cbn. by rewrite IH, due_insert.
Qed.

Lemma none_due t l : sorted l -> filter (is_due t) l = [] <-> Forall (is_later t) l.
Proof.
  intros _. split.
  - intros E. apply Forall_forall. intros d Hd. destruct (decide (is_due t d)) as [Hle|Hle]; [|unfold is_due, is_later in *; lia].
    assert (d ∈ filter (is_due t) l) as H by (by apply list_elem_of_filter). rewrite E in H. by apply not_elem_of_nil in H.
  - intros H. apply list_filter_all_false. eapply Forall_impl; [exact H|]. unfold is_due, is_later. cbn. lia.
Qed.

Lemma first_later t d l : sorted (d :: l) -> is_later t d -> Forall (is_later t) (d :: l).
Proof.
  intros Hs Hd. apply Sorted.StronglySorted_inv in Hs as [_ Hf]. constructor; [done|].
  eapply Forall_impl; [exact Hf|]. unfold is_later in *. cbn. lia.
Qed.

(** * What a handler does to the interrupt system

    Handlers run with interrupts off: the clock stands still, and what they schedule is for
    later. *)

Section Devices.
Context {R : Type}.
#[local] Notation W := (World R).
Implicit Types (w : W).

Record handled w w' : Prop := {
  ha_level : level (interrupt w') = level (interrupt w);
  ha_in : inHandler (interrupt w') = inHandler (interrupt w);
  ha_status : status (interrupt w') = status (interrupt w);
  ha_now : now w' = now w;
  ha_idle : idleTicks (stats w') = idleTicks (stats w);
  ha_pending : exists ds, Forall (is_later (now w)) ds /\ pendings w' = insert_all (pendings w) ds
}.

Lemma handled_refl w : handled w w.
Proof. constructor; try done. by exists []. Qed.

Lemma insert_all_app l ds1 ds2 : insert_all l (ds1 ++ ds2) = insert_all (insert_all l ds1) ds2.
Proof. unfold insert_all. by rewrite foldl_app. Qed.

Lemma handled_trans w w1 w2 : handled w w1 -> handled w1 w2 -> handled w w2.
Proof.
  intros [A1 A2 A3 A4 A5 (ds1 & F1 & E1)] [B1 B2 B3 B4 B5 (ds2 & F2 & E2)]. constructor; try congruence.
  exists (ds1 ++ ds2). rewrite A4 in F2. split; [by apply Forall_app_2|]. by rewrite E2, E1, insert_all_app.
Qed.

Lemma Schedule_handled o n k w : (exists w', Schedule o n k w = Ok (tt, w') /\ handled w w' /\
    pendings w' = insert (MkPending o (now w + n) k) (pendings w) /\ 0 < n) \/
  (Schedule o n k w = AssertFail /\ n <= 0) \/ (Schedule o n k w = Undefined /\ ~ is_i32 (now w + n)).
Proof.
  unfold Schedule, get_state, modify, int_add. unfold mbind, M_bind. destruct (decide (is_i32 (now w + n))) as [Hi|Hi]; [|by right; right].
  cbn [lift]. destruct (Z.ltb_spec 0 n) as [Hn|Hn]; [left|by right; left]. cbn [ASSERT lift].
  eexists. split; [reflexivity|]. split; [|done]. constructor; try done.
  exists [MkPending o (now w + n) k]. split; [|done]. repeat constructor. unfold is_later. cbn. lia.
Qed.

(** The clock is not near the end of its range. *)
Definition clock_ok w : Prop := 0 <= now w < 2 ^ 30.

(** The handlers of the devices and the kernel's part of a reference to the machine. *)
Record devices_ok (CallBack : Z -> M W unit) (DelayedLoad : M W unit) (may_fail may_exit : Prop) : Prop := {
  dev_callback o w : inHandler (interrupt w) = true -> level (interrupt w) = IntOff -> clock_ok w ->
    match CallBack o w with Ok (_, w') => handled w w' | AssertFail => may_fail | Exited => may_exit | _ => False end;
  dev_load w : exists r, DelayedLoad w = Ok (tt, MkWorld (interrupt w) (stats w) r)
}.

Section Fire.
Context (CallBack : Z -> M W unit) (DelayedLoad : M W unit).

(** The handlers of [ds] have run, in that order, each when its interrupt was the first of
    the list. *)
Inductive fired : list PendingInterrupt -> W -> W -> Prop :=
| fired_nil w : fired [] w w
| fired_cons d ds others w w1 w2 : pendings w = d :: others ->
    CallBack (callOnInterrupt d) (on_interrupt (with_pending others) w) = Ok (tt, w1) ->
    fired ds w1 w2 -> fired (d :: ds) w w2.
End Fire.
End Devices.

Section CheckIfDue.
Context {R : Type}.
#[local] Notation W := (World R).
Context (CallBack : Z -> M W unit) (DelayedLoad : M W unit) (may_fail may_exit : Prop).
Context (HD : devices_ok CallBack DelayedLoad may_fail may_exit).
Implicit Types (w : W).

#[local] Notation fired := (fired CallBack).

(** A run of handlers that returned in a state that meets [Q], or was stopped. *)
Definition ends (r : res (unit * W)) (Q : W -> Prop) : Prop :=
  match r with Ok (_, w') => Q w' | AssertFail => may_fail | Exited => may_exit | _ => False end.

(** After the interrupts that are due: the clock has not moved and what is left is later. *)
Record settled w w' : Prop := {
  se_level : level (interrupt w') = level (interrupt w);
  se_status : status (interrupt w') = status (interrupt w);
  se_now : now w' = now w;
  se_idle : idleTicks (stats w') = idleTicks (stats w);
  se_sorted : sorted (pendings w');
  se_later : Forall (is_later (now w)) (pendings w')
}.

Lemma fire_one_ok w d others : pendings w = d :: others -> inHandler (interrupt w) = true -> level (interrupt w) = IntOff -> clock_ok w ->
  fire_one CallBack w = CallBack (callOnInterrupt d) (on_interrupt (with_pending others) w) /\
  ends (CallBack (callOnInterrupt d) (on_interrupt (with_pending others) w))
    (fun w1 => level (interrupt w1) = IntOff /\ inHandler (interrupt w1) = true /\ status (interrupt w1) = status (interrupt w) /\ now w1 = now w /\
       idleTicks (stats w1) = idleTicks (stats w) /\ exists ds, Forall (is_later (now w)) ds /\ pendings w1 = insert_all others ds).
Proof.
  intros Hp Hin Hl Hc. split; [unfold fire_one, get_state; unfold mbind, M_bind; by rewrite Hp|].
  pose proof (dev_callback _ _ _ _ HD (callOnInterrupt d) (on_interrupt (with_pending others) w) Hin Hl Hc) as H.
  destruct (CallBack _ _) as [[[] w1]| | | |]; try done. destruct H as [H1 H2 H3 H4 H5 H6]. cbn. rewrite H1, H2, H3, H4, H5. done.
Qed.

Lemma fire_ok n w d ds : sorted (pendings w) -> filter (is_due (now w)) (pendings w) = d :: ds -> (length ds < n)%nat ->
  inHandler (interrupt w) = true -> level (interrupt w) = IntOff -> clock_ok w ->
  ends (fire CallBack n w) (fun w' => fired (d :: ds) w w' /\ settled w w' /\ inHandler (interrupt w') = true).
Proof.
  revert w d ds. induction n as [|n IH]; intros w d ds Hs Hf Hn Hin Hl Hc; [lia|].
  destruct (pendings w) as [|d' others] eqn:Hp; [done|].
  destruct (decide (is_due (now w) d')) as [Hd|Hd].
  2: { exfalso. assert (is_later (now w) d') as Hd' by (unfold is_later, is_due in *; lia).
       apply (first_later _ _ _ Hs), (none_due _ _ Hs) in Hd'. congruence. }
  rewrite filter_cons_True in Hf by done. injection Hf as -> Hf.
  destruct (fire_one_ok w d others Hp Hin Hl Hc) as [Eone Hends]. cbn [fire]. unfold mbind, M_bind. rewrite Eone.
  destruct (CallBack (callOnInterrupt d) (on_interrupt (with_pending others) w)) as [[[] w1]| | | |] eqn:Ec; try exact Hends.
  destruct Hends as (Hl1 & Hin1 & Hst1 & Hn1 & Hid1 & news & Hlater & Hp1). unfold get_state.
  assert (sorted (pendings w1)) as Hs1 by (rewrite Hp1; apply insert_all_sorted; by apply Sorted.StronglySorted_inv in Hs as [? _]).
  assert (filter (is_due (now w1)) (pendings w1) = ds) as Hf1 by (rewrite Hn1, Hp1, due_insert_all by done; done).
  assert (clock_ok w1) as Hc1 by (unfold clock_ok in *; lia).
  assert (forall w2, settled w1 w2 -> settled w w2) as Hset by (intros w2 []; constructor; congruence).
  destruct ds as [|d2 ds].
  - assert (Forall (is_later (now w1)) (pendings w1)) as Hall by (by apply none_due).
    assert (ends (Ok (tt, w1)) (fun w' => fired [d] w w' /\ settled w w' /\ inHandler (interrupt w') = true)) as Hend.
    { split; [by eapply fired_cons; [exact Hp|exact Ec|constructor]|]. split; [|done]. apply Hset. constructor; done. }
    destruct (pendings w1) as [|e es]; [exact Hend|]. apply Forall_cons in Hall as [He _].
    rewrite (proj2 (Z.leb_gt _ _)) by (unfold is_later in He; lia). exact Hend.
  - destruct (pendings w1) as [|e es] eqn:Hp1'; [done|].
    assert (when e <=? now w1 = true) as ->.
    { apply Z.leb_le. destruct (decide (is_later (now w1) e)) as [He|He]; [|unfold is_later in He; lia]. exfalso.
      apply (first_later _ _ _ Hs1), (none_due _ _ Hs1) in He. congruence. }
    rewrite <- Hp1' in Hs1, Hf1. assert (length ds < n)%nat as Hlt by (cbn in Hn; lia).
    specialize (IH w1 d2 ds Hs1 Hf1 Hlt Hin1 Hl1 Hc1).
    destruct (fire CallBack n w1) as [[[] w2]| | | |]; try exact IH. destruct IH as (Hfi & Hse & Hin2).
    split; [by eapply fired_cons; [exact Hp|exact Ec|exact Hfi]|]. split; [by apply Hset|done].
Qed.

(** The time at which the interrupts are looked at: when the clock may be advanced, that of
    the next one. *)
Definition due_time (advanceClock : bool) w : Z :=
  match pendings w with
  | d :: _ => if advanceClock then Z.max (now w) (when d) else now w
  | [] => now w
  end.

(** The world in which the handlers start. *)
Definition handlers_start (t : Z) w (r : R) : W :=
  MkWorld (with_inHandler true (interrupt w))
    (with_ticks t (idleTicks (stats w) + (t - now w)) (systemTicks (stats w)) (userTicks (stats w)) (stats w)) r.

Record clock_inv w : Prop := {
  ci_level : level (interrupt w) = IntOff;
  ci_sorted : sorted (pendings w);
  ci_idle : 0 <= idleTicks (stats w) <= now w
}.

Definition due_interrupts (advanceClock : bool) w : list PendingInterrupt := filter (is_due (due_time advanceClock w)) (pendings w).

(** CheckIfDue has called the handlers of exactly the interrupts that were due. *)
Definition checked (advanceClock : bool) w (w' : W) : Prop :=
  exists r w1, fired (due_interrupts advanceClock w) (handlers_start (due_time advanceClock w) w r) w1 /\
    settled (handlers_start (due_time advanceClock w) w r) w1 /\ w' = on_interrupt (with_inHandler false) w1.

Lemma handlers_ok t w r d ds : level (interrupt w) = IntOff -> sorted (pendings w) -> filter (is_due t) (pendings w) = d :: ds ->
  clock_ok (handlers_start t w r) ->
  match (_ ← fire CallBack (length (pendings w)); _ ← modify (on_interrupt (with_inHandler false)); mret true) (handlers_start t w r) with
  | Ok (b, w') => b = true /\ exists w1, fired (d :: ds) (handlers_start t w r) w1 /\ settled (handlers_start t w r) w1 /\
      w' = on_interrupt (with_inHandler false) w1
  | AssertFail => may_fail | Exited => may_exit | _ => False
  end.
Proof.
  intros Hl Hs Hf Hc. assert (length ds < length (pendings w))%nat as Hlen.
  { pose proof (length_filter (is_due t) (pendings w)) as H. rewrite Hf in H. cbn in *. lia. }
  pose proof (fire_ok (length (pendings w)) (handlers_start t w r) d ds Hs Hf Hlen eq_refl Hl Hc) as H.
  unfold mbind, M_bind, modify. destruct (fire CallBack _ _) as [[[] w1]| | | |]; try exact H.
  destruct H as (H1 & H2 & _). split; [done|]. by exists w1.
Qed.

(** The clock of the world in which the handlers start. *)
Lemma advance_ok w next others : pendings w = next :: others -> 0 <= idleTicks (stats w) <= now w ->
  (now w < when next -> when next < 2 ^ 30) -> forall adv, (now w < when next -> adv = true) ->
  (if when next >? now w then
     idle ← lift (int_add (idleTicks (stats w)) (when next - now w));
     modify (on_stats (fun s => with_ticks (when next) idle (systemTicks s) (userTicks s) s))
   else mret tt) w
  = Ok (tt, MkWorld (interrupt w) (with_ticks (due_time adv w) (idleTicks (stats w) + (due_time adv w - now w)) (systemTicks (stats w)) (userTicks (stats w)) (stats w)) (rest w)).
Proof.
  intros Hp Hi Hb adv Hadv. unfold due_time. rewrite Hp, Z.gtb_ltb. destruct (Z.ltb_spec (now w) (when next)) as [Hlt|Hle].
  - rewrite (Hadv Hlt), Z.max_r by lia. unfold int_add. rewrite decide_True; [done|]. specialize (Hb Hlt). unfold is_i32. lia.
  - assert ((if adv then Z.max (now w) (when next) else now w) = now w) as -> by (destruct adv; lia).
    unfold mret, M_ret. do 2 f_equal. unfold now. rewrite Z.sub_diag, Z.add_0_r. by destruct w as [? [] ?].
Qed.

Lemma CheckIfDue_ok adv w : clock_inv w -> clock_ok (handlers_start (due_time adv w) w (rest w)) ->
  match due_interrupts adv w with
  | [] => CheckIfDue CallBack DelayedLoad adv w = Ok (false, w)
  | _ :: _ =>
      match CheckIfDue CallBack DelayedLoad adv w with
      | Ok (b, w') => b = true /\ checked adv w w'
      | AssertFail => may_fail | Exited => may_exit | _ => False
      end
  end.
Proof.
  intros [Hl Hs Hi] Hc. unfold CheckIfDue. rewrite (bind_M_Ok get_state _ w w w) by done.
  rewrite bool_decide_eq_true_2 by done. cbn [ASSERT]. rewrite !bind_lift_Ok.
  unfold checked, due_interrupts. destruct (pendings w) as [|next others] eqn:Hp; [done|].
  destruct ((when next >? now w) && negb adv) eqn:Hwait.
  { apply andb_true_iff in Hwait as [Hlt Ha]. rewrite Z.gtb_ltb in Hlt. apply Z.ltb_lt in Hlt. apply negb_true_iff in Ha as ->.
    assert (filter (is_due (due_time false w)) (next :: others) = []) as ->; [|done]. apply (none_due _ _ Hs).
    apply (first_later _ _ _ Hs). unfold due_time, is_later. rewrite Hp. done. }
  assert (now w < when next -> adv = true) as Hadv.
  { intros Hlt. rewrite Z.gtb_ltb, (proj2 (Z.ltb_lt _ _) Hlt) in Hwait. by destruct adv. }
  assert (now w < when next -> when next < 2 ^ 30) as Hb.
  { intros Hlt. unfold clock_ok, handlers_start, now in Hc. cbn in Hc. unfold due_time in Hc. rewrite Hp, (Hadv Hlt) in Hc. lia. }
  rewrite (bind_M_Ok _ _ _ _ _ (advance_ok w next others Hp Hi Hb adv Hadv)). set (w1 := MkWorld _ _ _).
  destruct (dev_load _ _ _ _ HD w1) as (r & Er). rewrite (bind_M_Ok _ _ _ _ _ Er).
  rewrite (bind_M_Ok (modify _) _ _ (handlers_start (due_time adv w) w r) tt) by done.
  rewrite (bind_M_Ok get_state _ _ (handlers_start (due_time adv w) w r) (handlers_start (due_time adv w) w r)) by done.
  destruct (filter (is_due (due_time adv w)) (next :: others)) as [|d ds] eqn:Hf.
  { exfalso. rewrite filter_cons_True in Hf; [done|]. unfold is_due, due_time. rewrite Hp.
    destruct adv; [lia|]. destruct (decide (now w < when next)) as [Hlt|]; [by specialize (Hadv Hlt)|lia]. }
  rewrite <- Hp in Hs, Hf. pose proof (handlers_ok (due_time adv w) w r d ds Hl Hs Hf Hc) as H.
  change (pendings (handlers_start (due_time adv w) w r)) with (pendings w).
  match type of H with match ?X with _ => _ end => destruct X as [[b w']| | | |]; try exact H end.
  destruct H as (-> & w2 & H). split; [done|]. by exists r, w2.
Qed.

(** [Idle] runs the next interrupt, whenever it is, and halts only when there is none. *)
Lemma Idle_ok w : clock_inv w -> clock_ok (handlers_start (due_time true w) w (rest w)) ->
  match pendings w with
  | [] => Idle CallBack DelayedLoad w = Exited
  | _ :: _ =>
      match Idle CallBack DelayedLoad w with
      | Ok (_, w') => exists w1, checked true (on_interrupt (with_status Machine.IdleMode) w) w1 /\ w' = on_interrupt (with_status Machine.SystemMode) w1
      | AssertFail => may_fail | Exited => may_exit | _ => False
      end
  end.
Proof.
  intros [Hl Hs Hi] Hc. set (wi := on_interrupt (with_status Machine.IdleMode) w).
  assert (clock_inv wi) as Hci by (by constructor).
  pose proof (CheckIfDue_ok true wi Hci Hc) as H. unfold Idle. rewrite (bind_M_Ok (setStatus _) _ w wi tt) by done.
  unfold due_interrupts in H. change (pendings wi) with (pendings w) in H.
  destruct (pendings w) as [|next others] eqn:Hp.
  - cbn in H. by rewrite (bind_M_Ok _ _ _ _ _ H).
  - rewrite filter_cons_True in H. 2: { unfold is_due, due_time. change (pendings wi) with (pendings w). rewrite Hp. lia. }
    unfold mbind, M_bind. destruct (CheckIfDue CallBack DelayedLoad true wi) as [[b w1]| | | |]; try exact H.
    destruct H as [-> H]. unfold setStatus, modify. by exists w1.
Qed.
End CheckIfDue.

(** * The timer keeps the machine going *)

Section TimerRuns.
Context {R : Type}.
#[local] Notation W := (World R).
Context (CallBack : Z -> M W unit) (DelayedLoad : M W unit) (rand : M W Z) (may_fail : Prop).
Context (HD : devices_ok CallBack DelayedLoad may_fail False).
Context (this alarm : Z) (doRandom : bool).
Implicit Types (w : W).

(** [this] is the timer that the constructor of Alarm makes. *)
Definition timer : Timer := MkTimer doRandom alarm false.
Definition timer_installed : Prop :=
  (forall w, CallBack this w = Timer_CallBack rand CallBack this timer w) /\ (forall w, CallBack alarm w = Alarm_CallBack w) /\
  (forall w, exists r x, rand w = Ok (r, MkWorld (interrupt w) (stats w) x) /\ 0 <= r).
Context (HT : timer_installed).

Definition timer_pending w : Prop := exists d, d ∈ pendings w /\ callOnInterrupt d = this /\ when d <= now w + 2 * TimerTicks.

Lemma rem_range r : 0 <= r -> 0 <= r %c 200 < 200.
Proof. intros. rewrite Z.rem_mod_nonneg by lia. apply Z.mod_pos_bound. lia. Qed.

Lemma SetInterrupt_pending w : clock_ok w -> exists w', SetInterrupt rand this timer w = Ok (tt, w') /\ timer_pending w'.
Proof.
  intros Hc. unfold SetInterrupt. cbn [disable timer randomize].
  assert (exists delay x, (if doRandom then r ← rand; mret (1 + (r %c (TimerTicks * 2))) else mret TimerTicks) w
    = Ok (delay, MkWorld (interrupt w) (stats w) x) /\ 0 < delay <= 2 * TimerTicks) as (delay & x & E & Hd).
  { destruct doRandom.
    - destruct (proj2 (proj2 HT) w) as (r & x & Er & Hr). exists (1 + (r %c 200)), x. rewrite (bind_M_Ok _ _ _ _ _ Er).
      split; [done|]. pose proof (rem_range r Hr). unfold TimerTicks. lia.
    - exists TimerTicks, (rest w). split; [by destruct w|]. unfold TimerTicks. lia. }
  rewrite (bind_M_Ok _ _ _ _ _ E). set (w1 := MkWorld _ _ _).
  destruct (Schedule_handled this delay TimerInt w1) as [(w' & Es & Hh & Hp & _)|[[_ Hn]|[_ Hn]]].
  - exists w'. split; [done|]. exists (MkPending this (now w1 + delay) TimerInt). rewrite Hp, (CList.insert_sorted_perm PendingCompare).
    split; [apply list_elem_of_here|]. split; [done|]. rewrite (ha_now _ _ Hh). cbn. lia.
  - lia.
  - exfalso. apply Hn. unfold is_i32, clock_ok in *. change (now w1) with (now w). unfold TimerTicks in Hd. lia.
Qed.

(** One handler call keeps a timer interrupt pending. *)
Lemma callback_keeps_timer w d others w1 : clock_ok w -> inHandler (interrupt w) = true -> level (interrupt w) = IntOff ->
  pendings w = d :: others -> timer_pending w ->
  CallBack (callOnInterrupt d) (on_interrupt (with_pending others) w) = Ok (tt, w1) ->
  timer_pending w1 /\ handled (on_interrupt (with_pending others) w) w1.
Proof.
  intros Hc Hin Hl Hp (t & Ht & Hthis & Hw) E. set (w0 := on_interrupt (with_pending others) w) in *.
  pose proof (dev_callback _ _ _ _ HD (callOnInterrupt d) w0 Hin Hl Hc) as Hh. rewrite E in Hh. split; [|done].
  rewrite Hp in Ht. apply elem_of_cons in Ht as [->|Ht].
  - rewrite Hthis, (proj1 HT) in E. unfold Timer_CallBack in E. cbn [callPeriodically timer] in E.
    rewrite (bind_M_Ok _ _ w0 w0 tt) in E by apply HT. destruct (SetInterrupt_pending w0 Hc) as (w2 & E2 & H2). congruence.
  - destruct Hh as [_ _ _ Hnow _ (ds & _ & Hpd)]. exists t. rewrite Hpd, insert_all_perm. split; [apply elem_of_app; by left|].
    split; [done|]. rewrite Hnow. done.
Qed.

Lemma fired_keeps_timer ds w w' : fired CallBack ds w w' -> clock_ok w -> inHandler (interrupt w) = true -> level (interrupt w) = IntOff ->
  timer_pending w -> timer_pending w'.
Proof.
  intros Hf. induction Hf as [w|d ds others w w1 w2 Hp E _ IH]; intros Hc Hin Hl Ht; [done|].
  destruct (callback_keeps_timer w d others w1 Hc Hin Hl Hp Ht E) as [Ht1 [H1 H2 _ H4 _ _]].
  cbn in H1, H2. apply IH; [|congruence..|done]. unfold clock_ok in *. rewrite H4. done.
Qed.

(** Where the clock stands after [Idle]. *)
Lemma due_time_bounds w : sorted (pendings w) -> timer_pending w -> now w <= due_time true w <= now w + 2 * TimerTicks /\
  (Forall (is_later (now w)) (pendings w) -> now w < due_time true w).
Proof.
  intros Hs (t & Ht & _ & Hw). unfold due_time. destruct (pendings w) as [|d others]; [by apply not_elem_of_nil in Ht|].
  assert (when d <= when t) as Hle.
  { apply elem_of_cons in Ht as [->|Ht]; [lia|]. apply Sorted.StronglySorted_inv in Hs as [_ Hf]. rewrite Forall_forall in Hf. by apply Hf. }
  unfold TimerTicks in *. split; [lia|]. intros [Hd _]%Forall_cons. unfold is_later in Hd. lia.
Qed.

(** The idle loop's invariant. *)
Definition idle_inv w : Prop := clock_inv w /\ timer_pending w.

Lemma Idle_step w : idle_inv w -> now w + 2 * TimerTicks < 2 ^ 30 ->
  Idle CallBack DelayedLoad w = AssertFail /\ may_fail \/
  exists w', Idle CallBack DelayedLoad w = Ok (tt, w') /\ idle_inv w' /\ now w' = due_time true w /\ Forall (is_later (now w')) (pendings w').
Proof.
  intros [Hci Ht] Hb. pose proof Hci as [Hl Hs Hi]. destruct (due_time_bounds w Hs Ht) as [Htime _].
  assert (clock_ok (handlers_start (due_time true w) w (rest w))) as Hc by (unfold clock_ok, handlers_start, now; cbn; unfold now in *; lia).
  pose proof (Idle_ok CallBack DelayedLoad may_fail False HD w Hci Hc) as H.
  destruct (pendings w) as [|next others] eqn:Hp; [destruct Ht as (d & Hd & _); rewrite Hp in Hd; by apply not_elem_of_nil in Hd|].
  destruct (Idle CallBack DelayedLoad w) as [[[] w']| | | |]; try done; [right|by left].
  destruct H as (w1 & (r & w2 & Hf & [S1 S2 S3 S4 S5 S6] & ->) & ->). eexists. split; [reflexivity|].
  set (w0 := handlers_start _ _ r) in *.
  assert (now w0 = due_time true w) as E0 by done. assert (level (interrupt w0) = IntOff) as El by exact Hl.
  assert (timer_pending w2) as Ht2.
  { apply (fired_keeps_timer _ _ _ Hf); [exact Hc|done|done|]. destruct Ht as (d & Hd & Hthis & Hw). exists d.
    split; [exact Hd|]. split; [done|]. rewrite E0. lia. }
  cbn. unfold now in *. cbn in *. split; [|split; [lia|]].
  - split; [|exact Ht2]. constructor; cbn; [congruence|exact S5|]. rewrite S4. unfold now in *. cbn. unfold w0, handlers_start. cbn. lia.
  - unfold pendings in *. cbn in *. by rewrite S3.
Qed.

(** [n] rounds of the idle loop of Thread::Sleep in which no thread becomes ready. *)
Fixpoint Idles (n : nat) : M W unit :=
  match n with O => mret tt | S n' => _ ← Idle CallBack DelayedLoad; Idles n' end.

Lemma Idles_ok n w : idle_inv w -> now w + Z.of_nat n * (2 * TimerTicks) < 2 ^ 30 ->
  Idles n w = AssertFail /\ may_fail \/
  exists w', Idles n w = Ok (tt, w') /\ idle_inv w' /\ now w + Z.of_nat n - 1 <= now w' <= now w + Z.of_nat n * (2 * TimerTicks) /\
    (Forall (is_later (now w)) (pendings w) -> now w + Z.of_nat n <= now w') /\ ((0 < n)%nat -> Forall (is_later (now w')) (pendings w')).
Proof.
  revert w. induction n as [|n IH]; intros w Hi Hb.
  - right. exists w. split; [done|]. split; [done|]. split; [lia|]. split; [lia|lia].
  - cbn [Idles]. destruct (Idle_step w Hi ltac:(unfold TimerTicks in *; lia)) as [[E Hm]|(w1 & E & Hi1 & Hn1 & Hlater)].
    { left. split; [by apply bind_M_AssertFail|done]. }
    rewrite (bind_M_Ok _ _ _ _ _ E). destruct Hi as [[_ Hs _] Ht]. destruct (due_time_bounds w Hs Ht) as [Htime Hstrict].
    destruct (IH w1 Hi1 ltac:(lia)) as [[E2 Hm]|(w' & E2 & Hi2 & Hn2 & Hst2 & Hl2)]; [by left|right].
    specialize (Hst2 Hlater). exists w'. split; [done|]. split; [done|]. split; [lia|]. split.
    + intros Hl. specialize (Hstrict Hl). lia.
    + intros _. destruct n; [cbn in E2; by injection E2 as <-|apply Hl2; lia].
Qed.
End TimerRuns.

(** * Properties *)

(** C15. CheckIfDue terminates, whatever the devices' handlers schedule: with handlers that
    leave the clock alone and schedule only for later, it calls the handlers of exactly the
    interrupts that are due (up to the next one, when the clock may be advanced), earliest
    first and in the order they were scheduled among equals, each once, and afterwards every
    pending interrupt is later than the clock; when none is due it changes nothing. *)
Theorem check_if_due_exact {R} (CallBack : Z -> M (World R) unit) (DelayedLoad : M (World R) unit) may_fail may_exit adv (w : World R) :
  devices_ok CallBack DelayedLoad may_fail may_exit -> clock_inv w -> clock_ok (handlers_start (due_time adv w) w (rest w)) ->
  match due_interrupts adv w with
  | [] => CheckIfDue CallBack DelayedLoad adv w = Ok (false, w)
  | _ :: _ =>
      match CheckIfDue CallBack DelayedLoad adv w with
      | Ok (b, w') => b = true /\ checked CallBack adv w w'
      | AssertFail => may_fail | Exited => may_exit | _ => False
      end
  end.
Proof. intros HD. by apply CheckIfDue_ok. Qed.

(** C24. Every interrupt is delivered: while no thread is ready and the alarm's timer runs,
    Interrupt::Idle never halts the machine, each call but the first advances the clock, by
    at most two timer periods, and after [n] calls no interrupt due within [n - 1] ticks is
    still pending (unless a handler stopped in an ASSERT). *)
Theorem idle_delivers_interrupts {R} (CallBack : Z -> M (World R) unit) DelayedLoad rand may_fail this alarm doRandom n (w : World R) :
  devices_ok CallBack DelayedLoad may_fail False -> timer_installed CallBack rand this alarm doRandom ->
  clock_inv w -> timer_pending this w -> now w + Z.of_nat n * (2 * TimerTicks) < 2 ^ 30 ->
  Idles CallBack DelayedLoad n w = AssertFail /\ may_fail \/
  exists w', Idles CallBack DelayedLoad n w = Ok (tt, w') /\
    now w + Z.of_nat n - 1 <= now w' <= now w + Z.of_nat n * (2 * TimerTicks) /\
    (forall d, (0 < n)%nat -> when d <= now w + Z.of_nat n - 1 -> d ∉ pendings w').
Proof.
  intros HD HT Hc Ht Hb. destruct (Idles_ok _ _ _ _ HD _ _ _ HT n w (conj Hc Ht) Hb) as [H|(w' & E & _ & Hn & _ & Hl)]; [by left|right].
  exists w'. split; [done|]. split; [done|]. intros d Hpos Hd Hin. specialize (Hl Hpos). rewrite Forall_forall in Hl.
  specialize (Hl d Hin). unfold is_later in Hl. lia.
Qed.

(** ** Concrete inputs *)

(** A machine with the alarm's timer at 1, the alarm at 2 and a console poll at 3. *)
Definition sample_rand : M (World unit) Z := fun w => Ok (123, w).
Definition sample_callback (o : Z) : M (World unit) unit :=
  if o =? 1 then (_ ← Alarm_CallBack; SetInterrupt sample_rand 1 (MkTimer true 2 false))
  else if o =? 3 then Schedule 3 ConsoleTime ConsoleReadInt else mret tt.
Definition sample_world : World unit :=
  MkWorld (MkInterrupt IntOff [MkPending 1 24 TimerInt; MkPending 3 100 ConsoleReadInt] false false Machine.SystemMode) Statistics_new tt.

Lemma sample_devices : devices_ok sample_callback (mret tt) False False.
Proof.
  constructor; [|intros w; exists (rest w); by destruct w].
  intros o w _ _ Hc. unfold sample_callback. destruct (o =? 1).
  - unfold Alarm_CallBack. rewrite bind_ret_Ok. unfold SetInterrupt. cbn [disable randomize].
    rewrite (bind_M_Ok _ _ w w 124) by done.
    destruct (Schedule_handled 1 124 TimerInt w) as [(w' & -> & H & _)|[[_ H]|[_ H]]]; [done|lia|].
    exfalso. apply H. unfold is_i32, clock_ok in *. lia.
  - destruct (o =? 3); [|apply handled_refl].
    destruct (Schedule_handled 3 ConsoleTime ConsoleReadInt w) as [(w' & -> & H & _)|[[_ H]|[_ H]]]; [done|done|].
    exfalso. apply H. unfold is_i32, clock_ok, ConsoleTime in *. lia.
Qed.

Lemma sample_clock : clock_inv sample_world.
Proof. constructor; [done| |cbn; lia]. cbn. repeat constructor. cbn. lia. Qed.

Example check_if_due_exact_witness : match CheckIfDue sample_callback (mret tt) true sample_world with
  | Ok (b, w') => b = true /\ checked sample_callback true sample_world w' | AssertFail => False | Exited => False | _ => False end.
Proof. apply (check_if_due_exact sample_callback (mret tt) False False true sample_world sample_devices sample_clock). by_compute. Defined.

Example idle_delivers_interrupts_witness : exists w', Idles sample_callback (mret tt) 1000 sample_world = Ok (tt, w') /\
  MkPending 3 100 ConsoleReadInt ∉ pendings w'.
Proof.
  destruct (idle_delivers_interrupts sample_callback (mret tt) sample_rand False 1 2 true 1000 sample_world) as [[_ []]|(w' & E & _ & H)].
  - exact sample_devices.
  - split; [|split]; [done|done|]. intros w. exists 123, (rest w). by destruct w.
  - exact sample_clock.
  - exists (MkPending 1 24 TimerInt). split; [apply list_elem_of_here|]. split; [done|]. by_compute.
  - by_compute.
  - exists w'. split; [exact E|]. apply H; [lia|by_compute].
Defined.
End Interrupt.
