(* ===== verification/Switch.v ===== *)
(** Switch: the context switch of the host, src/code/threads/switch.s (the part for the 386)
    and switch.h, with what thread.cc does for it: StackAllocate and CheckOverflow.

    The model has the registers and the memory of the host processor and the few
    instructions that SWITCH and ThreadRoot are made of.  Where the assembler puts the code
    is a parameter; so is all other code of the simulator, which runs between the switches.
    [context_switch_refines] says what the rest of the kernel relies on (Threads.v): every
    thread has a processor of its own, that stops while others run. *)

From S2P Require Import Prelude.
From stdpp Require Import base numbers list gmap.
#[local] Open Scope Z_scope.

Module Switch.

(** * The processor *)

Inductive reg := EAX | EBX | ECX | EDX | ESI | EDI | EBP | ESP.

Record Regs := MkRegs { eax : Z; ebx : Z; ecx : Z; edx : Z; esi : Z; edi : Z; ebp : Z; esp : Z }.

Definition getr (r : reg) (g : Regs) : Z :=
  match r with
  | EAX => eax g | EBX => ebx g | ECX => ecx g | EDX => edx g
  | ESI => esi g | EDI => edi g | EBP => ebp g | ESP => esp g
  end.

Definition setr (r : reg) (v : Z) (g : Regs) : Regs :=
  let '(MkRegs a b c d si di bp sp) := g in
  match r with
  | EAX => MkRegs v b c d si di bp sp | EBX => MkRegs a v c d si di bp sp
  | ECX => MkRegs a b v d si di bp sp | EDX => MkRegs a b c v si di bp sp
  | ESI => MkRegs a b c d v di bp sp | EDI => MkRegs a b c d si v bp sp
  | EBP => MkRegs a b c d si di v sp | ESP => MkRegs a b c d si di bp v
  end.

(** The memory of the UNIX process, as words at the addresses that are multiples of 4. *)
Record Host := MkHost { regs : Regs; pc : Z; mem : Z -> Z }.

Definition word_ok (a : Z) : bool := (a mod 4 =? 0) && (0 <=? a) && (a <? 2 ^ 32).
Definition upd (m : Z -> Z) (a v : Z) : Z -> Z := fun x => if x =? a then v else m x.

Definition load (a : Z) : M Host Z := fun s => if word_ok a then Ok (mem s a, s) else Undefined.
Definition store (a v : Z) : M Host unit := fun s =>
  if word_ok a then Ok (tt, MkHost (regs s) (pc s) (upd (mem s) a v)) else Undefined.
Definition get (r : reg) : M Host Z := fun s => Ok (getr r (regs s), s).
Definition set (r : reg) (v : Z) : M Host unit := fun s => Ok (tt, MkHost (setr r v (regs s)) (pc s) (mem s)).
Definition jump (a : Z) : M Host unit := fun s => Ok (tt, MkHost (regs s) a (mem s)).

(** [%r], [disp(%r)] and [_eax_save] *)
Inductive operand := Reg (r : reg) | Mem (disp : Z) (r : reg) | Eax_save.

(** The operands are in the order of the assembler: source, destination. *)
Inductive instr :=
| movl (src dst : operand)
| pushl (r : reg)
| popl (r : reg)
| call (r : reg)
| ret.

(** * The code *)

(** Offsets of the saved registers in a Thread. *)
Definition _ESP : Z := 0.
Definition _EAX : Z := 4.
Definition _EBX : Z := 8.
Definition _ECX : Z := 12.
Definition _EDX : Z := 16.
Definition _EBP : Z := 20.
Definition _ESI : Z := 24.
Definition _EDI : Z := 28.
Definition _PC : Z := 32.

Definition InitialPC : reg := ESI.
Definition InitialArg : reg := EDX.
Definition WhenDonePC : reg := EDI.
Definition StartupPC : reg := ECX.

Definition ThreadRoot_code : list instr :=
  [ pushl EBP; movl (Reg ESP) (Reg EBP); pushl InitialArg;
    call StartupPC; call InitialPC; call WhenDonePC;
    movl (Reg EBP) (Reg ESP); popl EBP; ret ].

Definition SWITCH_save : list instr :=
  [ movl (Reg EAX) Eax_save; movl (Mem 4 ESP) (Reg EAX);
    movl (Reg EBX) (Mem _EBX EAX); movl (Reg ECX) (Mem _ECX EAX); movl (Reg EDX) (Mem _EDX EAX);
    movl (Reg ESI) (Mem _ESI EAX); movl (Reg EDI) (Mem _EDI EAX); movl (Reg EBP) (Mem _EBP EAX);
    movl (Reg ESP) (Mem _ESP EAX);
    movl Eax_save (Reg EBX); movl (Reg EBX) (Mem _EAX EAX);
    movl (Mem 0 ESP) (Reg EBX); movl (Reg EBX) (Mem _PC EAX);
    movl (Mem 8 ESP) (Reg EAX) ].

Definition SWITCH_restore : list instr :=
  [ movl (Mem _EAX EAX) (Reg EBX); movl (Reg EBX) Eax_save;
    movl (Mem _EBX EAX) (Reg EBX); movl (Mem _ECX EAX) (Reg ECX); movl (Mem _EDX EAX) (Reg EDX);
    movl (Mem _ESI EAX) (Reg ESI); movl (Mem _EDI EAX) (Reg EDI); movl (Mem _EBP EAX) (Reg EBP);
    movl (Mem _ESP EAX) (Reg ESP);
    movl (Mem _PC EAX) (Reg EAX); movl (Reg EAX) (Mem 4 ESP); movl Eax_save (Reg EAX);
    ret ].

Definition SWITCH_code : list instr := SWITCH_save ++ SWITCH_restore.

(** * StackAllocate and CheckOverflow

    A Thread starts with [stackTop] and [machineState]; [stack] comes next. *)
Definition StackSize : Z := 8 * 1024.
Definition MachineStateSize : Z := 75.
Definition STACK_FENCEPOST : Z := 0xdedbeef.

Definition PCState : Z := _PC /c 4 - 1.
Definition FPState : Z := _EBP /c 4 - 1.
Definition InitialPCState : Z := _ESI /c 4 - 1.
Definition InitialArgState : Z := _EDX /c 4 - 1.
Definition WhenDonePCState : Z := _EDI /c 4 - 1.
Definition StartupPCState : Z := _ECX /c 4 - 1.

Definition stackTop_at (this : Z) : Z := this.
Definition machineState_at (this i : Z) : Z := this + 4 + 4 * i.
Definition stack_at (this : Z) : Z := this + 4 + 4 * MachineStateSize.

(** Where the assembler and the linker put things. *)
Class Image := MkImage {
  code : Z -> option (instr * Z);  (* the instruction at an address, and the address of the next *)
  _eax_save : Z; SWITCH : Z; ThreadRoot : Z; ThreadBegin : Z; ThreadFinish : Z
}.

Section Code.
Context {im : Image}.

(** [stack] is the array that AllocBoundedArray returned. *)
Definition StackAllocate (this stack func arg : Z) : M Host unit :=
  _ ← store (stack_at this) stack;
  _ ← store (stackTop_at this) (stack + 4 * (StackSize - 4));
  stackTop ← load (stackTop_at this);
  _ ← store (stackTop_at this) (stackTop - 4);
  _ ← store (stackTop - 4) ThreadRoot;
  _ ← store stack STACK_FENCEPOST;
  _ ← store (machineState_at this PCState) ThreadRoot;
  _ ← store (machineState_at this StartupPCState) ThreadBegin;
  _ ← store (machineState_at this InitialPCState) func;
  _ ← store (machineState_at this InitialArgState) arg;
  store (machineState_at this WhenDonePCState) ThreadFinish.

Definition CheckOverflow (this : Z) : M Host unit :=
  stack ← load (stack_at this);
  if stack =? 0 then mret tt else v ← load stack; lift (ASSERT (v =? STACK_FENCEPOST)).

(** * The instructions *)

Definition address (disp : Z) (r : reg) : M Host Z := b ← get r; mret (u32 (b + disp)).

Definition read_operand (o : operand) : M Host Z :=
  match o with
  | Reg r => get r
  | Mem disp r => a ← address disp r; load a
  | Eax_save => load _eax_save
  end.

Definition write_operand (o : operand) (v : Z) : M Host unit :=
  match o with
  | Reg r => set r v
  | Mem disp r => a ← address disp r; store a v
  | Eax_save => store _eax_save v
  end.

Definition push (v : Z) : M Host unit := sp ← get ESP; let sp := u32 (sp - 4) in _ ← set ESP sp; store sp v.
Definition pop : M Host Z := sp ← get ESP; v ← load sp; _ ← set ESP (u32 (sp + 4)); mret v.

(** An instruction, [next] being the address behind it. *)
Definition exec (i : instr) (next : Z) : M Host unit :=
  match i with
  | movl src dst => v ← read_operand src; _ ← write_operand dst v; jump next
  | pushl r => v ← get r; _ ← push v; jump next
  | popl r => v ← pop; _ ← set r v; jump next
  | call r => v ← get r; _ ← push next; jump v
  | ret => v ← pop; jump v
  end.

Definition step : M Host unit := fun s =>
  match code (pc s) with Some (i, next) => exec i next s | None => Undefined end.

Fixpoint steps (n : nat) : M Host unit :=
  match n with O => mret tt | S n => _ ← step; steps n end.

(** The instructions [l] are at [a], one behind the other. *)
Fixpoint placed (a : Z) (l : list instr) : Prop :=
  match l with [] => True | i :: l' => exists next, code a = Some (i, next) /\ placed next l' end.

(** A call of SWITCH runs the 27 instructions, the last one being [ret]. *)
Definition run_SWITCH : M Host unit := steps (length SWITCH_code).
(** The memory after the first half of SWITCH, that saves registers [g] of thread [t1]. *)
Definition saved (t1 : Z) (g : Regs) (m : Z -> Z) : Z -> Z :=
  let m := upd m _eax_save (eax g) in
  let m := upd m (t1 + _EBX) (ebx g) in
  let m := upd m (t1 + _ECX) (ecx g) in
  let m := upd m (t1 + _EDX) (edx g) in
  let m := upd m (t1 + _ESI) (esi g) in
  let m := upd m (t1 + _EDI) (edi g) in
  let m := upd m (t1 + _EBP) (ebp g) in
  let m := upd m (t1 + _ESP) (esp g) in
  let m := upd m (t1 + _EAX) (eax g) in
  upd m (t1 + _PC) (m (esp g)).

(** The registers that SWITCH takes from the object of thread [t2]. *)
Definition loaded (t2 : Z) (m : Z -> Z) : Regs :=
  MkRegs (m (t2 + _EAX)) (m (t2 + _EBX)) (m (t2 + _ECX)) (m (t2 + _EDX)) (m (t2 + _ESI)) (m (t2 + _EDI)) (m (t2 + _EBP)) (m (t2 + _ESP)).

(** The memory after the second half. *)
Definition restored (t2 : Z) (m : Z -> Z) : Z -> Z :=
  upd (upd m _eax_save (m (t2 + _EAX))) (m (t2 + _ESP) + 4) (m (t2 + _PC)).

End Code.

(** * Threads as seen from above

    Every word of the memory belongs to an [area]: it is shared by all threads, lies on the
    stack of one, is one of the nine words of a Thread object where SWITCH keeps its
    registers, or is the variable of SWITCH. *)
Inductive area := Shared | StackOf (t : Z) | Context (t : Z) | Scratch.

#[export] Instance area_eq_dec : EqDecision area.
Proof. solve_decision. Defined.

Definition offsets : list Z := [_ESP; _EAX; _EBX; _ECX; _EDX; _EBP; _ESI; _EDI; _PC].

(** What happens while the system runs: the running thread executes code of its own (any
    code: its registers become [g], its program counter [p], and it writes the words [ws]),
    it calls SWITCH, or it makes a new thread with StackAllocate.  The object and the stack
    are fresh; [raw] is what the allocator left where eax, ebx and ebp will be taken from. *)
Inductive event :=
| Run (g : Regs) (p : Z) (ws : list (Z * Z))
| Switch
| Fork (t stack func arg : Z) (raw : Z * Z * Z).

(** Threads with a processor each; one of them runs, the others are stopped. *)
Record System := MkSystem { current : Z; contexts : gmap Z (Regs * Z); memory : Z -> Z }.

Section System.
Context {im : Image}.
Variable area_of : Z -> area.

Definition writable (t w : Z) : bool :=
  word_ok w && match area_of w with Shared => true | StackOf t' => t' =? t | _ => false end.
Definition own_stack (t w : Z) : bool := word_ok w && bool_decide (area_of w = StackOf t).

(** An address where a Thread can be. *)
Definition thread_ok (t : Z) : bool :=
  (t mod 4 =? 0) && (0 <? t) && (stack_at t + 4 <=? 2 ^ 32)
  && forallb (fun d => bool_decide (area_of (t + d) = Context t)) offsets
  && bool_decide (area_of (stack_at t) = Shared).

Fixpoint write_all (ws : list (Z * Z)) (m : Z -> Z) : Z -> Z :=
  match ws with [] => m | (w, v) :: ws' => write_all ws' (upd m w v) end.

(** The system as the kernel thinks of it: to call SWITCH is to return from it, and another
    thread goes on.  The one trace of SWITCH is that the thread that goes on finds its own
    program counter in the top word of its stack, where the first argument was. *)
Definition system_event (e : event) (a : System) : option System :=
  let '(MkSystem cur ctx m) := a in
  match e with
  | Run g p ws =>
      if forallb (fun x => writable cur x.1) ws then Some (MkSystem cur (<[cur := (g, p)]> ctx) (write_all ws m)) else None
  | Switch =>
      '(g, p) ← ctx !! cur;
      let t2 := m (esp g + 8) in
      '(g2, p2) ← ctx !! t2;
      if (p =? SWITCH) && own_stack cur (esp g) && own_stack cur (esp g + 4) && own_stack cur (esp g + 8)
         && (m (esp g + 4) =? cur) && negb (t2 =? cur)
      then Some (MkSystem t2 (<[cur := (setr ESP (esp g + 4) g, m (esp g))]> ctx) (upd m (esp g2) p2))
      else None
  | Fork t stack func arg (a0, b0, bp0) =>
      let top := stack + 4 * (StackSize - 4) - 4 in
      if thread_ok t && bool_decide (ctx !! t = None) && own_stack t stack && own_stack t top && own_stack t (top + 4)
      then Some (MkSystem cur
             (<[t := (MkRegs a0 b0 ThreadBegin arg func ThreadFinish bp0 (top + 4), ThreadRoot)]> ctx)
             (upd (upd (upd m (stack_at t) stack) top ThreadRoot) stack STACK_FENCEPOST))
      else None
  end.

Fixpoint system_events (es : list event) (a : System) : option System :=
  match es with [] => Some a | e :: es' => a' ← system_event e a; system_events es' a' end.

(** The same events on the one processor. *)
Fixpoint stores (ws : list (Z * Z)) : M Host unit :=
  match ws with [] => mret tt | (w, v) :: ws' => _ ← store w v; stores ws' end.

Definition goes_on (g : Regs) (p : Z) : M Host unit := fun s => Ok (tt, MkHost g p (mem s)).

Definition host_event (e : event) : M Host unit :=
  match e with
  | Run g p ws => _ ← stores ws; goes_on g p
  | Switch => run_SWITCH
  | Fork t stack func arg (a0, b0, bp0) =>
      _ ← store (t + _EAX) a0; _ ← store (t + _EBX) b0; _ ← store (t + _EBP) bp0;
      StackAllocate t stack func arg
  end.

Fixpoint host_events (es : list event) : M Host unit :=
  match es with [] => mret tt | e :: es' => _ ← host_event e; host_events es' end.

(** What the memory holds of a thread that is stopped. *)
Definition suspended (m : Z -> Z) (t : Z) (g : Regs) (p : Z) : Prop :=
  let sp := m (t + _ESP) in
  own_stack t sp = true /\ own_stack t (sp + 4) = true /\ m sp = p /\ m (t + _PC) = p /\
  setr ESP (sp + 4) (loaded t m) = g.

Record represents (c : Host) (a : System) : Prop := {
  r_threads t : is_Some (contexts a !! t) -> thread_ok t = true;
  r_current : contexts a !! current a = Some (regs c, pc c);
  r_memory w : area_of w = Shared \/ (exists t, area_of w = StackOf t) -> mem c w = memory a w;
  r_others t g p : contexts a !! t = Some (g, p) -> t <> current a -> suspended (mem c) t g p
}.
End System.

Section Runs.
Context {im : Image}.
(** * What SWITCH does *)

Lemma word_ok_spec a : word_ok a = true <-> a mod 4 = 0 /\ 0 <= a < 2 ^ 32.
Proof. unfold word_ok. rewrite !andb_true_iff, Z.eqb_eq, Z.leb_le, Z.ltb_lt. tauto. Qed.

Lemma word_ok_u32 a : word_ok a = true -> u32 a = a.
Proof. intros [_ H]%word_ok_spec. by apply u32_id. Qed.

Lemma upd_eq m a v : upd m a v a = v.
Proof. unfold upd. by rewrite Z.eqb_refl. Qed.
Lemma upd_ne m a v x : x <> a -> upd m a v x = m x.
Proof. intros. unfold upd. by rewrite (proj2 (Z.eqb_neq x a)). Qed.

Lemma load_word a s : word_ok a = true -> load a s = Ok (mem s a, s).
Proof. unfold load. by intros ->. Qed.
Lemma store_word a v s : word_ok a = true -> store a v s = Ok (tt, MkHost (regs s) (pc s) (upd (mem s) a v)).
Proof. unfold store. by intros ->. Qed.

(** One instruction of a placed sequence. *)
Lemma steps_placed i l n g p m : placed p (i :: l) -> exists next, placed next l /\
  steps (S n) (MkHost g p m) = (exec i next ≫= fun _ => steps n) (MkHost g p m).
Proof. intros (next & E & Hl). exists next. split; [done|]. cbn [steps]. unfold mbind, M_bind, step. cbn [pc]. by rewrite E. Qed.

Lemma step_placed i l g p m : placed p (i :: l) -> exists next, placed next l /\ step (MkHost g p m) = exec i next (MkHost g p m).
Proof. intros (next & E & Hl). exists next. split; [done|]. unfold step. cbn [pc]. by rewrite E. Qed.

Lemma exec_load disp r d next g p m a : u32 (getr r g + disp) = a -> word_ok a = true ->
  exec (movl (Mem disp r) (Reg d)) next (MkHost g p m) = Ok (tt, MkHost (setr d (m a) g) next m).
Proof. intros <- H. unfold exec, read_operand, address, mbind, M_bind, get, mret, M_ret. cbn [regs]. by rewrite load_word. Qed.

Lemma exec_store disp r d next g p m a : u32 (getr r g + disp) = a -> word_ok a = true ->
  exec (movl (Reg d) (Mem disp r)) next (MkHost g p m) = Ok (tt, MkHost g next (upd m a (getr d g))).
Proof. intros <- H. unfold exec, read_operand, write_operand, address, mbind, M_bind, get, mret, M_ret. cbn [regs]. by rewrite store_word. Qed.

Lemma exec_load_eax d next g p m : word_ok _eax_save = true ->
  exec (movl Eax_save (Reg d)) next (MkHost g p m) = Ok (tt, MkHost (setr d (m _eax_save) g) next m).
Proof. intros H. unfold exec, read_operand, mbind, M_bind. by rewrite load_word. Qed.

Lemma exec_store_eax d next g p m : word_ok _eax_save = true ->
  exec (movl (Reg d) Eax_save) next (MkHost g p m) = Ok (tt, MkHost g next (upd m _eax_save (getr d g))).
Proof. intros H. unfold exec, read_operand, write_operand, mbind, M_bind, get. cbn [regs]. by rewrite store_word. Qed.

Lemma exec_ret next g p m : word_ok (esp g) = true ->
  exec ret next (MkHost g p m) = Ok (tt, MkHost (setr ESP (u32 (esp g + 4)) g) (m (esp g)) m).
Proof. intros H. unfold exec, pop, mbind, M_bind, get. cbn [getr regs]. by rewrite load_word. Qed.

(** An object whose first nine words are in memory. *)
Definition object_ok (t : Z) : Prop := t mod 4 = 0 /\ 0 <= t /\ t + 36 <= 2 ^ 32.

Lemma object_word t d : object_ok t -> d ∈ [_ESP; _EAX; _EBX; _ECX; _EDX; _EBP; _ESI; _EDI; _PC] ->
  u32 (t + d) = t + d /\ word_ok (t + d) = true.
Proof.
  intros (Hm & H0 & H1) Hd.
  assert (0 <= d <= 32 /\ d mod 4 = 0) as [Hr Hd4].
  { repeat (apply elem_of_cons in Hd as [->|Hd]; [by vm_compute|]). by apply elem_of_nil in Hd. }
  assert (word_ok (t + d) = true) as Hw; [|by rewrite word_ok_u32].
  apply word_ok_spec. split; [|lia]. rewrite Zplus_mod, Hm, Hd4. done.
Qed.

Lemma frame_word sp d : word_ok (sp + d) = true -> u32 (sp + d) = sp + d /\ word_ok (sp + d) = true.
Proof. intros H. split; [by apply word_ok_u32|done]. Qed.

(** What a word holds after the words of an object were written. *)
Ltac words := repeat first [rewrite upd_eq | rewrite upd_ne by (unfold _ESP, _EAX, _EBX, _ECX, _EDX, _EBP, _ESI, _EDI, _PC in *; lia)].

(** Runs the next instruction of a placed sequence, by one of the lemmas above. *)
Ltac instruction H tac :=
  match goal with |- context [steps (S ?k) (MkHost ?g ?p ?m)] =>
    let q := fresh "q" in let H' := fresh "H'" in let E := fresh "E" in
    destruct (steps_placed _ _ k g p m H) as (q & H' & E); rewrite E; clear E H; rename H' into H;
    erewrite bind_M_Ok by tac; cbn [setr getr eax ebx ecx edx esi edi ebp esp]
  end.

Ltac object_field Ht := apply (object_word _ _ Ht); set_solver.

Lemma SWITCH_save_steps n p l g m t1 :
  placed p (SWITCH_save ++ l) -> object_ok t1 -> word_ok _eax_save = true ->
  word_ok (esp g) = true -> word_ok (esp g + 4) = true -> word_ok (esp g + 8) = true ->
  m (esp g + 4) = t1 -> _eax_save <> esp g + 4 -> (_eax_save < t1 \/ t1 + 36 <= _eax_save) ->
  exists p' ra, placed p' l /\
    steps (14 + n) (MkHost g p m) = steps n (MkHost (setr EBX ra (setr EAX (saved t1 g m (esp g + 8)) g)) p' (saved t1 g m)).
Proof.
  intros Hp Ht He H0 H4 H8 E1 N Hout. destruct g as [a b c d si di bp sp].
  cbn [esp eax] in *. cbn [Nat.add]. unfold SWITCH_save in Hp. cbn [app] in Hp.
  instruction Hp ltac:(apply exec_store_eax; done).
  instruction Hp ltac:(apply exec_load with (a := sp + 4); apply (frame_word sp 4 H4)).
  rewrite upd_ne, E1 by done.
  do 7 instruction Hp ltac:(eapply exec_store; object_field Ht).
  instruction Hp ltac:(apply exec_load_eax; done). words.
  instruction Hp ltac:(eapply exec_store; object_field Ht).
  instruction Hp ltac:(apply exec_load with (a := sp); [rewrite Z.add_0_r; by apply word_ok_u32|done]).
  instruction Hp ltac:(eapply exec_store; object_field Ht).
  instruction Hp ltac:(apply exec_load with (a := sp + 8); apply (frame_word sp 8 H8)).
  eexists _, _. split; [exact Hp|]. reflexivity.
Qed.

Lemma SWITCH_restore_steps p g m t2 :
  placed p SWITCH_restore -> object_ok t2 -> word_ok _eax_save = true -> eax g = t2 ->
  let sp := m (t2 + _ESP) in
  word_ok sp = true -> word_ok (sp + 4) = true -> _eax_save <> sp -> _eax_save <> sp + 4 ->
  (_eax_save < t2 \/ t2 + 36 <= _eax_save) ->
  steps 13 (MkHost g p m) = Ok (tt, MkHost (setr ESP (sp + 4) (loaded t2 m)) (m sp) (restored t2 m)).
Proof.
  intros Hp Ht He Eg sp H0 H4 N0 N4 Hout. destruct g as [a b c d si di bp sp0]. cbn [eax] in Eg. subst a.
  unfold SWITCH_restore in Hp.
  instruction Hp ltac:(eapply exec_load; object_field Ht).
  instruction Hp ltac:(apply exec_store_eax; done).
  do 6 (instruction Hp ltac:(eapply exec_load; object_field Ht); words).
  instruction Hp ltac:(eapply exec_load; object_field Ht). words. fold sp.
  instruction Hp ltac:(eapply exec_load; object_field Ht). words.
  instruction Hp ltac:(apply exec_store with (a := sp + 4); apply (frame_word sp 4 H4)).
  instruction Hp ltac:(apply exec_load_eax; done). words.
  instruction Hp ltac:(apply exec_ret; exact H0). words.
  rewrite (word_ok_u32 _ H4). reflexivity.
Qed.

(** A whole call of SWITCH. *)
Lemma run_SWITCH_ok g m t1 t2 : placed SWITCH SWITCH_code ->
  word_ok _eax_save = true -> word_ok (esp g) = true -> word_ok (esp g + 4) = true -> word_ok (esp g + 8) = true ->
  m (esp g + 4) = t1 -> saved t1 g m (esp g + 8) = t2 -> _eax_save <> esp g + 4 ->
  object_ok t1 -> (_eax_save < t1 \/ t1 + 36 <= _eax_save) ->
  object_ok t2 -> (_eax_save < t2 \/ t2 + 36 <= _eax_save) ->
  let m1 := saved t1 g m in let sp := m1 (t2 + _ESP) in
  word_ok sp = true -> word_ok (sp + 4) = true -> _eax_save <> sp -> _eax_save <> sp + 4 ->
  run_SWITCH (MkHost g SWITCH m) = Ok (tt, MkHost (setr ESP (sp + 4) (loaded t2 m1)) (m1 sp) (restored t2 m1)).
Proof.
  intros Hp He H0 H4 H8 E1 E2 N Ht1 O1 Ht2 O2 m1 sp S0 S4 N0 N4. unfold run_SWITCH.
  destruct (SWITCH_save_steps 13 SWITCH SWITCH_restore g m t1) as (p' & ra & Hp' & E); [done..|].
  change (length SWITCH_code) with (14 + 13)%nat. rewrite E.
  apply SWITCH_restore_steps; try done. destruct g. cbn. exact E2.
Qed.

(** * The first run of a thread *)
Lemma exec_move s d next g p m : exec (movl (Reg s) (Reg d)) next (MkHost g p m) = Ok (tt, MkHost (setr d (getr s g) g) next m).
Proof. done. Qed.

Lemma push_ok v g p m : word_ok (esp g - 4) = true ->
  push v (MkHost g p m) = Ok (tt, MkHost (setr ESP (esp g - 4) g) p (upd m (esp g - 4) v)).
Proof.
  intros H. unfold push, mbind, M_bind, get, set. cbn [getr regs pc mem]. rewrite (word_ok_u32 _ H).
  by rewrite store_word by done.
Qed.

Lemma exec_push r next g p m : word_ok (esp g - 4) = true ->
  exec (pushl r) next (MkHost g p m) = Ok (tt, MkHost (setr ESP (esp g - 4) g) next (upd m (esp g - 4) (getr r g))).
Proof. intros H. unfold exec. erewrite bind_M_Ok by reflexivity. by erewrite bind_M_Ok by (by apply push_ok). Qed.

Lemma exec_call r next g p m : word_ok (esp g - 4) = true ->
  exec (call r) next (MkHost g p m) = Ok (tt, MkHost (setr ESP (esp g - 4) g) (getr r g) (upd m (esp g - 4) next)).
Proof. intros H. unfold exec. erewrite bind_M_Ok by reflexivity. by erewrite bind_M_Ok by (by apply push_ok). Qed.

(** A C function that was called in [s] has returned in [s']: it keeps the registers that
    the calling convention says, and takes its return address from the stack. *)
Definition returned (s s' : Host) : Prop :=
  pc s' = mem s (esp (regs s)) /\ esp (regs s') = esp (regs s) + 4 /\ ebx (regs s') = ebx (regs s) /\
  esi (regs s') = esi (regs s) /\ edi (regs s') = edi (regs s) /\ ebp (regs s') = ebp (regs s).

(** A new thread does what Fork promises: from the registers that StackAllocate made for
    it, ThreadRoot calls ThreadBegin; when that returns (it has no parameters, so the word
    above its return address is not its own), it calls [func] with [arg] as its argument; and
    when [func] returns, it calls ThreadFinish. *)
Theorem forked_thread_runs a b func arg bp top m :
  placed ThreadRoot ThreadRoot_code ->
  (forall k, k ∈ [4; 8; 12; 16] -> word_ok (top + 4 - k) = true) ->
  exists s1, steps 4 (MkHost (MkRegs a b ThreadBegin arg func ThreadFinish bp (top + 4)) ThreadRoot m) = Ok (tt, s1) /\
    pc s1 = ThreadBegin /\
    forall s1', returned s1 s1' -> mem s1' (esp (regs s1) + 4) = mem s1 (esp (regs s1) + 4) ->
      exists s2, step s1' = Ok (tt, s2) /\ pc s2 = func /\ mem s2 (esp (regs s2) + 4) = arg /\
      forall s2', returned s2 s2' -> exists s3, step s2' = Ok (tt, s3) /\ pc s3 = ThreadFinish.
Proof.
  intros Hp Hw. assert (word_ok (top + 4 - 4) = true /\ word_ok (top + 4 - 4 - 4) = true /\ word_ok (top + 4 - 4 - 4 - 4) = true) as (W1 & W2 & W3).
  { split_and!; [apply (Hw 4)|rewrite <- (Hw 8) by set_solver; f_equal; lia|rewrite <- (Hw 12) by set_solver; f_equal; lia]. set_solver. }
  unfold ThreadRoot_code in Hp.
  instruction Hp ltac:(by apply exec_push). instruction Hp ltac:(apply exec_move).
  instruction Hp ltac:(by apply exec_push). instruction Hp ltac:(by apply exec_call).
  eexists. split; [reflexivity|]. split; [reflexivity|].
  cbn [regs esp pc mem ebx esi edi ebp getr InitialArg edx]. rewrite !(Z.add_simpl_r top 4) in *.
  intros [[a1 b1 c1 d1 si1 di1 bp1 sp1] p1 m1] (Ep & Esp & _ & Esi & Edi & _) Em. cbn in Ep, Esp, Esi, Edi, Em |- *.
  rewrite Z.sub_add in Em, Esp. rewrite upd_eq in Ep. subst p1 sp1 si1 di1. rewrite upd_ne, upd_eq in Em by lia.
  destruct (step_placed _ _ (MkRegs a1 b1 c1 d1 func ThreadFinish bp1 (top - 4)) _ m1 Hp) as (q3 & Hp' & ->).
  rewrite exec_call by (cbn; rewrite <- W3; f_equal; lia).
  eexists. split; [reflexivity|]. split; [reflexivity|].
  cbn [regs setr esp pc mem ebx esi edi ebp getr]. rewrite Z.sub_add. split; [rewrite upd_ne by lia; exact Em|].
  intros [[a2 b2 c2 d2 si2 di2 bp2 sp2] p2 m2] (Ep & Esp & _ & _ & Edi & _). cbn in Ep, Esp, Edi |- *.
  rewrite Z.sub_add in Esp. rewrite upd_eq in Ep. subst p2 sp2 di2.
  destruct (step_placed _ _ (MkRegs a2 b2 c2 d2 si2 ThreadFinish bp2 (top - 4)) _ m2 Hp') as (q4 & _ & ->).
  rewrite exec_call by (cbn; rewrite <- W3; f_equal; lia). by eexists.
Qed.
(** * The simulation *)

Variable area_of : Z -> area.
#[local] Notation thread_ok := (thread_ok area_of).
#[local] Notation own_stack := (own_stack area_of).
#[local] Notation suspended := (suspended area_of).
#[local] Notation represents := (represents area_of).

Lemma thread_ok_spec t : thread_ok t = true -> object_ok t /\ 0 < t /\
  word_ok (stack_at t) = true /\ area_of (stack_at t) = Shared /\
  (forall d, d ∈ offsets -> area_of (t + d) = Context t).
Proof.
  unfold Switch.thread_ok. rewrite !andb_true_iff, Z.eqb_eq, Z.ltb_lt, Z.leb_le, bool_decide_eq_true, List.forallb_forall.
  unfold stack_at, MachineStateSize. intros ((((Hm & H0) & H1) & Ha) & Hs).
  split_and!; try done; [unfold object_ok; lia| |].
  - apply word_ok_spec. split; [|lia]. rewrite <- !Z.add_assoc, Zplus_mod, Hm. done.
  - intros d Hd. by apply (bool_decide_eq_true (_ = _)), Ha, list_elem_of_In.
Qed.

Lemma own_stack_spec t w : own_stack t w = true <-> word_ok w = true /\ area_of w = StackOf t.
Proof. unfold Switch.own_stack. by rewrite andb_true_iff, bool_decide_eq_true. Qed.

(** The variable of SWITCH is not among the saved words of a thread. *)
Lemma scratch_outside t : thread_ok t = true -> word_ok _eax_save = true -> area_of _eax_save = Scratch ->
  _eax_save < t \/ t + 36 <= _eax_save.
Proof.
  intros (Ho & _ & _ & _ & Ha)%thread_ok_spec [Hm _]%word_ok_spec HS. destruct Ho as (Hm' & _).
  destruct (decide (_eax_save < t \/ t + 36 <= _eax_save)) as [|N]; [done|exfalso].
  assert (exists d, d ∈ offsets /\ _eax_save = t + d) as (d & Hd & E); [|rewrite E, Ha in HS by done; done].
  exists (_eax_save - t). split; [|lia].
  assert (exists k, 0 <= k <= 8 /\ _eax_save - t = 4 * k) as (k & Hk & ->).
  { exists ((_eax_save - t) / 4). apply Z.mod_divide in Hm as [x Hx]; [|done]. apply Z.mod_divide in Hm' as [y Hy]; [|done].
    rewrite Hx, Hy in *. replace (x * 4 - y * 4) with ((x - y) * 4) by lia. rewrite Z.div_mul by done. lia. }
  assert (k = 0 \/ k = 1 \/ k = 2 \/ k = 3 \/ k = 4 \/ k = 5 \/ k = 6 \/ k = 7 \/ k = 8) as Hc by lia.
  repeat destruct Hc as [->|Hc]; [..|subst k]; by_compute.
Qed.

Lemma loaded_ext t m m' : (forall d, d ∈ offsets -> m' (t + d) = m (t + d)) -> loaded t m' = loaded t m.
Proof. intros H. unfold loaded. rewrite !H by set_solver. done. Qed.

(** A stopped thread stays as it is while its words are left alone. *)
Lemma suspended_frame m m' t g p : thread_ok t = true ->
  (forall w, area_of w = Context t \/ area_of w = StackOf t -> m' w = m w) -> suspended m t g p -> suspended m' t g p.
Proof.
  intros (_ & _ & _ & _ & Ha)%thread_ok_spec Hm. unfold Switch.suspended. intros (H0 & H4 & E & Ep & Eg).
  assert (forall d, d ∈ offsets -> m' (t + d) = m (t + d)) as Hd by (intros; apply Hm; left; by apply Ha).
  rewrite (loaded_ext _ _ _ Hd), !Hd by set_solver. split_and!; try done.
  rewrite Hm; [done|]. right. by apply own_stack_spec in H0 as [_ ?].
Qed.

(** The words that a call of SWITCH changes. *)
Lemma saved_frame t g m w : thread_ok t = true -> area_of _eax_save = Scratch ->
  area_of w <> Scratch -> area_of w <> Context t -> saved t g m w = m w.
Proof.
  intros (_ & _ & _ & _ & Ha)%thread_ok_spec HS N1 N2. unfold saved.
  assert (forall d, d ∈ offsets -> w <> t + d) as Hd by (intros d Hd ->; by rewrite Ha in N2).
  rewrite !upd_ne; try done; try (apply Hd; set_solver). intros ->. done.
Qed.

Lemma saved_loaded t g m : thread_ok t = true -> word_ok _eax_save = true -> area_of _eax_save = Scratch ->
  loaded t (saved t g m) = g.
Proof.
  intros Ht Hw HS. pose proof (scratch_outside t Ht Hw HS). unfold loaded, saved. words. by destruct g.
Qed.

(** The memory after StackAllocate in the new object at [t]. *)
Definition allocated (t stack func arg : Z) (m : Z -> Z) : Z -> Z :=
  let top := stack + 4 * (StackSize - 4) - 4 in
  let m := upd m (stack_at t) stack in
  let m := upd (upd m (t + _ESP) (top + 4)) (t + _ESP) top in
  let m := upd (upd m top ThreadRoot) stack STACK_FENCEPOST in
  let m := upd (upd m (t + _PC) ThreadRoot) (t + _ECX) ThreadBegin in
  upd (upd (upd m (t + _ESI) func) (t + _EDX) arg) (t + _EDI) ThreadFinish.

Lemma StackAllocate_ok t stack func arg g p m : thread_ok t = true ->
  word_ok stack = true -> word_ok (stack + 4 * (StackSize - 4) - 4) = true ->
  StackAllocate t stack func arg (MkHost g p m) = Ok (tt, MkHost g p (allocated t stack func arg m)).
Proof.
  intros (Ho & _ & Hs & _)%thread_ok_spec H0 Htop. unfold StackAllocate.
  assert (forall d, d ∈ offsets -> word_ok (t + d) = true) as Hw by (intros d Hd; by apply object_word).
  replace (stackTop_at t) with (t + _ESP) by (unfold stackTop_at, _ESP; lia).
  replace (machineState_at t PCState) with (t + _PC) by (unfold machineState_at; rewrite <- Z.add_assoc; reflexivity).
  replace (machineState_at t StartupPCState) with (t + _ECX) by (unfold machineState_at; rewrite <- Z.add_assoc; reflexivity).
  replace (machineState_at t InitialPCState) with (t + _ESI) by (unfold machineState_at; rewrite <- Z.add_assoc; reflexivity).
  replace (machineState_at t InitialArgState) with (t + _EDX) by (unfold machineState_at; rewrite <- Z.add_assoc; reflexivity).
  replace (machineState_at t WhenDonePCState) with (t + _EDI) by (unfold machineState_at; rewrite <- Z.add_assoc; reflexivity).
  do 2 (erewrite bind_M_Ok by (apply store_word; first [done|apply Hw; set_solver])).
  erewrite bind_M_Ok by (apply load_word, Hw; set_solver). cbn [mem]. rewrite upd_eq.
  do 7 (erewrite bind_M_Ok by (apply store_word; first [done|apply Hw; set_solver])).
  rewrite store_word by (apply Hw; set_solver). cbn [regs pc mem]. unfold allocated.
  do 3 f_equal. by rewrite Z.sub_add.
Qed.

(** Words outside the new thread's object and stack keep their contents, but for its field
    [stack]. *)
Lemma allocated_frame t stack func arg m w : thread_ok t = true -> area_of w <> Context t ->
  allocated t stack func arg m w =
  upd (upd (upd m (stack_at t) stack) (stack + 4 * (StackSize - 4) - 4) ThreadRoot) stack STACK_FENCEPOST w.
Proof.
  intros (_ & _ & _ & _ & Ha)%thread_ok_spec N. unfold allocated.
  assert (forall d, d ∈ offsets -> w <> t + d) as Hd by (intros d Hd ->; by rewrite Ha in N).
  rewrite 5 upd_ne by (apply Hd; set_solver).
  unfold upd. by rewrite !(proj2 (Z.eqb_neq w (t + _ESP))) by (apply Hd; set_solver).
Qed.

Hypothesis scratch_ok : word_ok _eax_save = true.
Hypothesis scratch_area : area_of _eax_save = Scratch.
Hypothesis code_placed : placed SWITCH SWITCH_code.

Lemma stores_ok ws t c : forallb (fun x => writable area_of t x.1) ws = true ->
  stores ws c = Ok (tt, MkHost (regs c) (pc c) (write_all ws (mem c))).
Proof.
  revert c. induction ws as [|[w v] ws IH]; intros c H; [by destruct c|]. cbn in H.
  apply andb_true_iff in H as [[Hw _]%andb_true_iff H]. cbn [stores].
  erewrite bind_M_Ok by (by apply store_word). by rewrite IH.
Qed.

(** Writes by thread [t] are seen, and hit nobody else. *)
Lemma write_all_frame ws t m w : forallb (fun x => writable area_of t x.1) ws = true ->
  (area_of w <> Shared /\ area_of w <> StackOf t) -> write_all ws m w = m w.
Proof.
  revert m. induction ws as [|[w' v] ws IH]; intros m H Hw; [done|]. cbn in *.
  apply andb_true_iff in H as [[_ Hw']%andb_true_iff H]. rewrite IH by done. apply upd_ne. intros ->.
  destruct Hw as [N1 N2]. destruct (area_of w') as [|t'| |] eqn:E; try done. apply Z.eqb_eq in Hw'. by subst.
Qed.

Lemma write_all_ext ws m m' w : m w = m' w -> write_all ws m w = write_all ws m' w.
Proof.
  revert m m'. induction ws as [|[w' v] ws IH]; intros m m' H; [done|]. cbn. apply IH. unfold upd. by destruct (w =? w').
Qed.

Lemma run_simulation g p ws c a a' : represents c a -> system_event area_of (Run g p ws) a = Some a' ->
  exists c', host_event (Run g p ws) c = Ok (tt, c') /\ represents c' a'.
Proof.
  destruct a as [cur ctx m]. intros [Rt Rc Rm Ro]. cbn in *. destruct (forallb _ ws) eqn:Hws; [|done]. intros [= <-].
  exists (MkHost g p (write_all ws (mem c))). split.
  { unfold host_event. erewrite bind_M_Ok by (by eapply stores_ok). done. }
  split; cbn.
  - intros t. destruct (decide (t = cur)) as [->|N]; [|rewrite lookup_insert_ne by done; apply Rt].
    intros _. apply Rt. by rewrite Rc.
  - by rewrite lookup_insert_eq.
  - intros w Hw. apply write_all_ext. by apply Rm.
  - intros t g' p' E N. rewrite lookup_insert_ne in E by done.
    eapply suspended_frame; [| |by apply Ro].
    + apply Rt. by rewrite E.
    + intros w Hw. eapply write_all_frame; [done|]. destruct Hw as [-> | ->]; split; try done. by intros [= ->].
Qed.

(** What SWITCH leaves of thread [t] when it saves it. *)
Lemma suspended_saved t g m : thread_ok t = true -> own_stack t (esp g) = true -> own_stack t (esp g + 4) = true ->
  suspended (saved t g m) t (setr ESP (esp g + 4) g) (m (esp g)).
Proof.
  intros Ht H0 H4. pose proof (saved_loaded t g m Ht scratch_ok scratch_area) as El.
  assert (saved t g m (t + _ESP) = esp g) as E.
  { change (saved t g m (t + _ESP)) with (esp (loaded t (saved t g m))). by rewrite El. }
  assert (saved t g m (esp g) = m (esp g)) as Em.
  { apply own_stack_spec in H0 as [_ Ha]. apply saved_frame; [done..| |]; by rewrite Ha. }
  unfold Switch.suspended. rewrite E, El, Em. split_and!; try done.
  rewrite <- Em. symmetry. unfold saved at 1. rewrite upd_ne; [unfold saved; by rewrite upd_eq|].
  intros Ee. apply own_stack_spec in H0 as [_ Ha]. apply thread_ok_spec in Ht as (_ & _ & _ & _ & Ht).
  rewrite Ee, Ht in Ha by set_solver. done.
Qed.

Lemma restored_frame t m w : area_of w <> Scratch -> w <> m (t + _ESP) + 4 -> restored t m w = m w.
Proof. intros Hs Hw. unfold restored. rewrite !upd_ne; [done| |done]. intros ->. done. Qed.

Lemma switch_simulation c a a' : represents c a -> system_event area_of Switch a = Some a' ->
  exists c', host_event Switch c = Ok (tt, c') /\ represents c' a'.
Proof.
  destruct a as [cur ctx am], c as [g p m]. intros [Rt Rc Rm Ro]. cbn [contexts current memory mem regs pc system_event] in *. rewrite Rc. cbn [mbind option_bind].
  destruct (ctx !! am (esp g + 8)) as [[g2 p2]|] eqn:E2; [|done]. cbn [mbind option_bind].
  set (t2 := am (esp g + 8)) in *. case_match eqn:Hc; [|done]. intros [= <-].
  rewrite !andb_true_iff, !Z.eqb_eq, negb_true_iff, Z.eqb_neq in Hc. destruct Hc as (((((-> & H0) & H4) & H8) & E4) & N).
  assert (forall w, own_stack cur w = true -> m w = am w) as Hm.
  { intros w [_ Hw]%own_stack_spec. apply Rm. by right; exists cur. }
  assert (thread_ok cur = true) as Hcur by (apply Rt; by rewrite Rc).
  assert (thread_ok t2 = true) as Ht2 by (apply Rt; by rewrite E2).
  assert (forall t w, own_stack t w = true -> saved cur g m w = m w) as Hs.
  { intros t w [_ Hw]%own_stack_spec. apply saved_frame; [done..| |]; by rewrite Hw. }
  assert (forall t w, own_stack t w = true -> _eax_save <> w) as Hne.
  { intros t w [_ Hw]%own_stack_spec <-. by rewrite scratch_area in Hw. }
  set (m1 := saved cur g m).
  assert (suspended m1 t2 g2 p2) as S2.
  { eapply suspended_frame; [done| |by apply Ro]. intros w Hw.
    apply saved_frame; [done..| |]; destruct Hw as [-> | ->]; congruence. }
  pose proof S2 as (S0 & S4 & Ep & EPC & Eg). set (sp := m1 (t2 + _ESP)) in *.
  exists (MkHost g2 p2 (restored t2 m1)). split.
  - unfold host_event. rewrite <- Eg, <- Ep.
    apply run_SWITCH_ok with (t1 := cur); try done.
    1-3: by apply own_stack_spec in H0 as [? _], H4 as [? _], H8 as [? _].
    + by rewrite Hm.
    + by rewrite (Hs cur), Hm.
    + by eapply Hne.
    + by apply thread_ok_spec in Hcur as [? _].
    + by apply scratch_outside.
    + by apply thread_ok_spec in Ht2 as [? _].
    + by apply scratch_outside.
    + by apply own_stack_spec in S0 as [? _].
    + by apply own_stack_spec in S4 as [? _].
    + by eapply Hne.
    + by eapply Hne.
  - assert (esp g2 = sp + 4) as Esp by (rewrite <- Eg; by destruct (loaded t2 m1)).
    assert (forall t w, t <> t2 -> area_of w = Context t \/ area_of w = StackOf t -> restored t2 m1 w = m1 w) as Hr.
    { intros t w Nt Hw. apply restored_frame; [destruct Hw as [-> | ->]; done|].
      intros ->. apply own_stack_spec in S4 as [_ S4]. fold sp in Hw. rewrite S4 in Hw. destruct Hw as [[=]|[= ->]]; done. }
    split; cbn.
    + intros t. destruct (decide (t = cur)) as [->|Nt]; [done|]. rewrite lookup_insert_ne by done. apply Rt.
    + rewrite lookup_insert_ne by done. done.
    + intros w Hw. rewrite Esp. destruct (decide (w = sp + 4)) as [->|Nw].
      * unfold restored. fold sp. by rewrite !upd_eq.
      * rewrite upd_ne, restored_frame by (try done; destruct Hw as [-> | [? ->]]; done).
        unfold m1. rewrite saved_frame, Rm by (try done; destruct Hw as [-> | [? ->]]; done). done.
    + intros t g' p' E Nt. destruct (decide (t = cur)) as [->|Ntc].
      * rewrite lookup_insert_eq in E. injection E as <- <-.
        eapply suspended_frame; [done|intros w Hw; by eapply Hr|]. rewrite <- Hm by done. by apply suspended_saved.
      * rewrite lookup_insert_ne in E by done. assert (thread_ok t = true) by (apply Rt; by rewrite E).
        eapply suspended_frame; [done|intros w Hw; by eapply Hr|]. eapply suspended_frame; [done| |by apply Ro].
        intros w Hw. apply saved_frame; [done..| |]; destruct Hw as [-> | ->]; congruence.
Qed.

Lemma suspended_allocated t stack func arg m : thread_ok t = true ->
  let top := stack + 4 * (StackSize - 4) - 4 in
  own_stack t stack = true -> own_stack t top = true -> own_stack t (top + 4) = true ->
  suspended (allocated t stack func arg m) t
    (MkRegs (m (t + _EAX)) (m (t + _EBX)) ThreadBegin arg func ThreadFinish (m (t + _EBP)) (top + 4)) ThreadRoot.
Proof.
  intros Ht top H0 Ht0 Ht4. pose proof Ht as (Ho & _ & _ & Hsa & Ha)%thread_ok_spec.
  assert (forall d w, d ∈ offsets -> area_of w <> Context t -> t + d <> w) as Hn by (intros d w Hd Hw <-; by rewrite Ha in Hw).
  assert (forall d, d ∈ offsets -> t + d <> stack /\ t + d <> top /\ t + d <> stack_at t) as Hd.
  { apply own_stack_spec in H0 as [_ H0], Ht0 as [_ Ht0]. intros d Hd. split_and!; apply Hn; congruence. }
  assert (allocated t stack func arg m (t + _ESP) = top) as Esp.
  { destruct (Hd _ESP) as (? & ? & ?); [set_solver|]. unfold allocated. fold top. words. done. }
  unfold Switch.suspended. rewrite Esp. split_and!; try done.
  - apply own_stack_spec in Ht0 as [_ Hta]. rewrite allocated_frame by (try done; by rewrite Hta).
    fold top. rewrite upd_ne by (unfold top, StackSize; lia). by rewrite upd_eq.
  - unfold allocated. words. done.
  - unfold loaded. rewrite Esp.
    destruct (Hd _EAX) as (? & ? & ?), (Hd _EBX) as (? & ? & ?), (Hd _EBP) as (? & ? & ?); [set_solver..|].
    unfold allocated. fold top. words. done.
Qed.

Lemma fork_simulation t stack func arg raw c a a' : represents c a ->
  system_event area_of (Fork t stack func arg raw) a = Some a' ->
  exists c', host_event (Fork t stack func arg raw) c = Ok (tt, c') /\ represents c' a'.
Proof.
  destruct a as [cur ctx am], c as [g p m], raw as [[a0 b0] bp0]. intros [Rt Rc Rm Ro]. cbn [contexts current memory mem regs pc system_event] in *.
  set (top := stack + 4 * (StackSize - 4) - 4). case_match eqn:Hc; [|done]. intros [= <-].
  rewrite !andb_true_iff, bool_decide_eq_true in Hc. destruct Hc as ((((Ht & Hf) & H0) & Htop) & H4).
  pose proof Ht as (Ho & _ & _ & Hsa & Ha)%thread_ok_spec.
  set (m0 := upd (upd (upd m (t + _EAX) a0) (t + _EBX) b0) (t + _EBP) bp0).
  assert (forall w, area_of w <> Context t -> m0 w = m w) as Hm0.
  { intros w Hw. unfold m0. rewrite !upd_ne; [done|..]; intros ->; rewrite Ha in Hw by set_solver; done. }
  exists (MkHost g p (allocated t stack func arg m0)). split.
  { unfold host_event. do 3 (erewrite bind_M_Ok by (apply store_word, object_word; [done|set_solver])). cbn [regs pc mem].
    apply StackAllocate_ok; [done|by apply own_stack_spec in H0 as [? _]|by apply own_stack_spec in Htop as [? _]]. }
  assert (t <> cur) as N by (intros ->; by rewrite Rc in Hf).
  apply own_stack_spec in H0 as [H0w H0], Htop as [Htopw Htop].
  split; cbn [contexts current memory mem regs pc].
  - intros t'. destruct (decide (t' = t)) as [->|Nt]; [done|]. rewrite lookup_insert_ne by done. apply Rt.
  - by rewrite lookup_insert_ne.
  - intros w Hw. rewrite allocated_frame by (try done; destruct Hw as [-> | [? ->]]; done). fold top.
    unfold upd. repeat case_match; try done. rewrite Hm0 by (destruct Hw as [-> | [? ->]]; done). by apply Rm.
  - intros t' g' p' E Nt. destruct (decide (t' = t)) as [->|Ntt].
    + rewrite lookup_insert_eq in E. injection E as <- <-.
      pose proof (suspended_allocated t stack func arg m0 Ht) as Hs.
      unfold m0 in Hs at 2 3 4. revert Hs. words. intros Hs. apply Hs; first [done|by apply own_stack_spec].
    + rewrite lookup_insert_ne in E by done. assert (thread_ok t' = true) by (apply Rt; by rewrite E).
      eapply suspended_frame; [done| |by apply Ro]. intros w Hw.
      assert (area_of w <> Context t /\ area_of w <> StackOf t /\ area_of w <> Shared) as (N1 & N2 & N3) by (destruct Hw as [-> | ->]; split_and!; congruence).
      rewrite allocated_frame by done. fold top. rewrite !upd_ne; [by apply Hm0|..]; intros ->; congruence.
Qed.

Lemma event_simulation e c a a' : represents c a -> system_event area_of e a = Some a' ->
  exists c', host_event e c = Ok (tt, c') /\ represents c' a'.
Proof.
  destruct e as [g p ws| |t stack func arg raw]; [apply run_simulation|apply switch_simulation|apply fork_simulation].
Qed.

Lemma events_simulation es c a a' : represents c a -> system_events area_of es a = Some a' ->
  exists c', host_events es c = Ok (tt, c') /\ represents c' a'.
Proof.
  revert c a. induction es as [|e es IH]; intros c a R; cbn [system_events host_events].
  - intros [= <-]. by exists c.
  - intros (a1 & E1 & E)%bind_Some. destruct (event_simulation e c a a1 R E1) as (c1 & Ec & R1).
    destruct (IH c1 a1 R1 E) as (c' & Ec' & R'). exists c'. split; [by erewrite bind_M_Ok|done].
Qed.

(** At the start there is the main thread alone. *)
Lemma represents_start g p m t : thread_ok t = true -> represents (MkHost g p m) (MkSystem t {[t := (g, p)]} m).
Proof.
  intros Ht. split; cbn.
  - intros t' [x Hx]. apply lookup_singleton_Some in Hx as [<- _]. done.
  - by rewrite lookup_singleton_eq.
  - done.
  - intros t' g' p' Hx N. apply lookup_singleton_Some in Hx as [<- _]. done.
Qed.

End Runs.


(** * The fencepost *)

(** Once StackAllocate has run, CheckOverflow passes exactly while the first word of the
    stack is what it was set to, as long as the field [stack] itself is left alone. *)
Lemma CheckOverflow_exact {im : Image} area_of t stack func arg g p m s m' :
  thread_ok area_of t = true -> own_stack area_of t stack = true -> 0 < stack ->
  own_stack area_of t (stack + 4 * (StackSize - 4) - 4) = true ->
  StackAllocate t stack func arg (MkHost g p m) = Ok (tt, s) -> mem s stack = STACK_FENCEPOST /\
  (m' (stack_at t) = mem s (stack_at t) ->
   CheckOverflow t (MkHost g p m') = if m' stack =? STACK_FENCEPOST then Ok (tt, MkHost g p m') else AssertFail).
Proof.
  intros Ht [Hw Ha]%own_stack_spec H0 [Htop Hta]%own_stack_spec E. pose proof Ht as (_ & _ & Hs & Hsa & _)%thread_ok_spec.
  rewrite (StackAllocate_ok area_of) in E by done. injection E as <-. cbn [mem].
  rewrite !(allocated_frame area_of) by (try done; congruence). split; [apply upd_eq|].
  rewrite 2 upd_ne; [|intros Ee; congruence..]. rewrite upd_eq. intros Em.
  unfold CheckOverflow. erewrite bind_M_Ok by (by apply load_word). cbn [mem]. rewrite Em.
  rewrite (proj2 (Z.eqb_neq stack 0)) by lia. erewrite bind_M_Ok by (by apply load_word). cbn [mem].
  by destruct (m' stack =? STACK_FENCEPOST).
Qed.

(** * A run of two threads

    Thread 8192 is made with [func] at 5000 and [arg] 77, on the stack at 131072; the main
    thread, 4096, switches to it, and it switches back. *)
Definition sample_image : Image :=
  MkImage (fun a => let l := if a <? 2000 then SWITCH_code else ThreadRoot_code in
                    i ← l !! Z.to_nat (a - (if a <? 2000 then 1000 else 2000)); Some (i, a + 1)) 60000 1000 2000 3000 4000.

Definition sample_area (w : Z) : area :=
  if w =? 60000 then Scratch
  else if (4096 <=? w) && (w <? 4132) then Context 4096
  else if (8192 <=? w) && (w <? 8228) then Context 8192
  else if (65536 <=? w) && (w <? 98304) then StackOf 4096
  else if (131072 <=? w) && (w <? 163840) then StackOf 8192
  else Shared.

Definition sample_regs (sp : Z) : Regs := MkRegs 11 12 13 14 15 16 17 sp.

Definition sample_events : list event :=
  [ Fork 8192 131072 5000 77 (1, 2, 3);
    Run (sample_regs 98000) 1000 [(98000, 7777); (98004, 4096); (98008, 8192); (50000, 5)];
    Switch;
    Run (MkRegs 21 22 23 24 25 26 27 163000) 1000 [(163000, 8888); (163004, 8192); (163008, 4096); (50000, 6)];
    Switch ].

Lemma sample_placed : placed (im := sample_image) 1000 SWITCH_code /\ placed (im := sample_image) 2000 ThreadRoot_code.
Proof. split; repeat (eexists; split; [reflexivity|]); exact I. Qed.


(** The same thread at its first run: it stands in ThreadBegin, and from there, when
    ThreadBegin returns, in its function with its argument. *)
Example forked_thread_runs_witness : exists s1,
  steps (im := sample_image) 4 (MkHost (MkRegs 1 2 3000 77 5000 4000 3 163824) 2000 (fun _ => 0)) = Ok (tt, s1) /\ pc s1 = 3000 /\
  exists s2, step (im := sample_image) (MkHost (setr ESP 163816 (regs s1)) (mem s1 163812) (mem s1)) = Ok (tt, s2) /\
    pc s2 = 5000 /\ mem s2 (esp (regs s2) + 4) = 77.
Proof.
  destruct (forked_thread_runs (im := sample_image) 1 2 5000 77 3 163820 (fun _ => 0) (proj2 sample_placed)) as (s1 & E1 & P1 & H).
  { intros k Hk. repeat (apply elem_of_cons in Hk as [->|Hk]; [vm_compute; reflexivity|]). by apply elem_of_nil in Hk. }
  exists s1. split; [exact E1|]. split; [exact P1|].
  vm_compute in E1. injection E1 as <-.
  edestruct H as (s2 & E2 & P2 & A2 & _); [..|exists s2; split; [exact E2|split; [exact P2|exact A2]]].
  - repeat split; reflexivity.
  - reflexivity.
Defined.
End Switch.
