(* ===== verification/Threads.v ===== *)
(** Threads: the kernel's threads, src/code/threads/ (thread.cc, scheduler.cc,
    ThreadManager.cc, synch.cc, synchlist.cc), over the interrupts of Interrupt.v.

    Thread objects, semaphores, locks, condition variables and synchronized lists are
    objects in stores, by address; 0 is NULL.  SWITCH saves where a thread was in the kernel
    and goes on where another one was, so every thread has the list of what it still has to
    execute: its [stack], a sequence of pieces of kernel code ([micro]) cut at the points
    where the processor may be given away.  [exec] executes one piece and says what replaces
    it; [step] is one step of the running thread.  The code of a thread is a parameter: at
    each point it makes some call of the interface ([call]), chosen from the state.

    A device's interrupt handler does what [handler] says of it: signals semaphores,
    schedules the device's next interrupt, asks for a context switch.  Names and debugging
    output are left out; the stacks of the host, with their fenceposts, are in Switch.v. *)

From S2P Require Import Prelude Bitmap CList Mips Machine Interrupt.
From stdpp Require Import base numbers list gmap.
#[local] Open Scope Z_scope.

Module Threads.
Import Interrupt.

Definition THREAD_COUNT_MAX : Z := 128.

Inductive ThreadStatus := JUST_CREATED | RUNNING | READY | BLOCKED | ZOMMBIE.

#[export] Instance ThreadStatus_eq_dec : EqDecision ThreadStatus.
Proof. solve_decision. Defined.

(** * The pieces of kernel code

    [MCode pc] is the thread's own code; [MSwitched] is what Scheduler::Run does after
    SWITCH, [MSetLevel] a call of SetLevel, [MStatus] the end of an OneTick that yielded. *)

Inductive micro :=
| MCode (pc : Z)
| MSetLevel (l : IntStatus)
| MStatus (s : Machine.MachineStatus)
| MBegin | MFinish
| MYield
| MSleep (finishing : bool)
| MSwitched
| MP (s : Z)
| MPLoop (s : Z) (oldLevel : IntStatus)
| MV (s : Z)
| MHold (l : Z)
| MRelease (l : Z)
| MWait (c l : Z)
| MDelete (s : Z)
| MSignal (c l : Z)
| MBroadcast (c l : Z)
| MListAppend (q x : Z)
| MListWait (q : Z)
| MListTake (q : Z)
| MListRemove (q x : Z).

(** * The state

    [result] is what the thread's last call returned. *)

Record Thread := MkThread {
  status : ThreadStatus; priority : Z; pid : Z; uid : Z; parent : Z; activeChild : list Z; exitedChild : list Z;
  userRegisters : list Z; space : Z; stack : list micro; result : Z
}.

Record Scheduler := MkScheduler { readyList : list Z; toBeDestroyed : Z }.
Record ThreadManager := MkManager { threadList : list Z; threadCnt : Z; threadMap : Bitmap.Bitmap }.
Record Semaphore := MkSemaphore { value : Z; queue : list Z }.
Record Lock := MkLock { lockHolder : Z; semaphore : Z }.
Record SynchList := MkSynchList { items : list Z; lock : Z; listEmpty : Z }.
Record Synch := MkSynch { semaphores : gmap Z Semaphore; locks : gmap Z Lock; conditions : gmap Z (list Z); lists : gmap Z SynchList }.

(** The machine's registers and page table register; [spaces] gives the page table and the
    number of pages of each address space. *)
Record Cpu := MkCpu { registers : list Z; pageTable : Z; pageTableSize : Z; spaces : gmap Z (Z * Z) }.

Record Kernel := MkKernel {
  threads : gmap Z Thread; currentThread : Z; scheduler : Scheduler; threadManager : ThreadManager; synch : Synch; cpu : Cpu
}.

#[local] Notation W := (World Kernel).
Implicit Types (k : Kernel) (w : W).

Definition set_threads (m : gmap Z Thread) k : Kernel := MkKernel m (currentThread k) (scheduler k) (threadManager k) (synch k) (cpu k).
Definition set_current (t : Z) k : Kernel := MkKernel (threads k) t (scheduler k) (threadManager k) (synch k) (cpu k).
Definition set_scheduler (s : Scheduler) k : Kernel := MkKernel (threads k) (currentThread k) s (threadManager k) (synch k) (cpu k).
Definition set_manager (m : ThreadManager) k : Kernel := MkKernel (threads k) (currentThread k) (scheduler k) m (synch k) (cpu k).
Definition set_synch (s : Synch) k : Kernel := MkKernel (threads k) (currentThread k) (scheduler k) (threadManager k) s (cpu k).
Definition set_cpu (c : Cpu) k : Kernel := MkKernel (threads k) (currentThread k) (scheduler k) (threadManager k) (synch k) c.

Definition with_status (s : ThreadStatus) (t : Thread) : Thread :=
  MkThread s (priority t) (pid t) (uid t) (parent t) (activeChild t) (exitedChild t) (userRegisters t) (space t) (stack t) (result t).
Definition with_priority (p : Z) (t : Thread) : Thread :=
  MkThread (status t) p (pid t) (uid t) (parent t) (activeChild t) (exitedChild t) (userRegisters t) (space t) (stack t) (result t).
Definition with_children (a e : list Z) (t : Thread) : Thread :=
  MkThread (status t) (priority t) (pid t) (uid t) (parent t) a e (userRegisters t) (space t) (stack t) (result t).
Definition with_registers (r : list Z) (t : Thread) : Thread :=
  MkThread (status t) (priority t) (pid t) (uid t) (parent t) (activeChild t) (exitedChild t) r (space t) (stack t) (result t).
Definition with_stack (s : list micro) (t : Thread) : Thread :=
  MkThread (status t) (priority t) (pid t) (uid t) (parent t) (activeChild t) (exitedChild t) (userRegisters t) (space t) s (result t).
Definition with_result (r : Z) (t : Thread) : Thread :=
  MkThread (status t) (priority t) (pid t) (uid t) (parent t) (activeChild t) (exitedChild t) (userRegisters t) (space t) (stack t) r.

Definition kget : M W Kernel := fun w => Ok (rest w, w).
Definition kmod (f : Kernel -> Kernel) : M W unit := modify (on_rest f).
Definition getLevel : M W IntStatus := fun w => Ok (level (interrupt w), w).

(** The thread at an address, and a change to it. *)
Definition the_thread (t : Z) : M W Thread := k ← kget; lift (deref (threads k !! t)).
Definition on_thread (t : Z) (f : Thread -> Thread) : M W unit :=
  th ← the_thread t; kmod (fun k => set_threads (<[t := f th]> (threads k)) k).

(** [Remove] of a List: the item must be there, and once. *)
Definition list_remove (x : Z) (l : list Z) : res (list Z) :=
  _ ← ASSERT (bool_decide (x ∈ l)); let l' := CList.remove_first x l in _ ← ASSERT (bool_decide (x ∉ l')); Ok l'.

(** An address that no object of a store has. *)
Definition new_address {V} (m : gmap Z V) : Z := fresh (dom m ∪ {[0]}).

(** * ThreadManager *)

Definition addChild (this child : Z) : M W unit :=
  if child =? 0 then mret tt else on_thread this (fun th => with_children (activeChild th ++ [child]) (exitedChild th) th).

Definition childThreadExit (this child : Z) : M W unit :=
  if child =? 0 then mret tt
  else
    th ← the_thread this;
    active ← lift (list_remove child (activeChild th));
    on_thread this (with_children active (exitedChild th ++ [child])).

Definition generateThreadID : M W Z :=
  k ← kget;
  let m := threadManager k in
  '(id, b) ← lift (Bitmap.FindAndSet (threadMap m));
  _ ← kmod (set_manager (MkManager (threadList m) (threadCnt m) b)); mret id.

(** The constructor of Thread; [raw] are the registers, which it does not set. *)
Definition Thread_new (uid pid parent : Z) (raw : list Z) : Thread :=
  MkThread JUST_CREATED 0 pid uid parent [] [] raw 0 [] 0.

Definition createThread (uid : Z) (raw : list Z) : M W Z :=
  k ← kget;
  let m := threadManager k in
  if threadCnt m + 1 <? THREAD_COUNT_MAX then
    _ ← kmod (set_manager (MkManager (threadList m) (threadCnt m + 1) (threadMap m)));
    pid ← generateThreadID;
    k ← kget;
    let t := new_address (threads k) in
    _ ← kmod (set_threads (<[t := Thread_new uid pid (currentThread k) raw]> (threads k)));
    _ ← (if 1 <? threadCnt (threadManager k) then addChild (currentThread k) t else mret tt);
    k ← kget;
    let m := threadManager k in
    _ ← kmod (set_manager (MkManager (threadList m ++ [t]) (threadCnt m) (threadMap m)));
    mret t
  else mret 0.

(** With the destructor of Thread; the build does not define VM, so the address space of the
    thread is left. *)
Definition deleteThread (t : Z) : M W unit :=
  if t =? 0 then mret tt
  else
    th ← the_thread t;
    k ← kget;
    let m := threadManager k in
    b ← lift (Bitmap.Clear (threadMap m) (pid th));
    l ← lift (list_remove t (threadList m));
    _ ← kmod (set_manager (MkManager l (threadCnt m - 1) b));
    _ ← lift (ASSERT (negb (t =? currentThread k)));
    kmod (fun k => set_threads (delete t (threads k)) k).

(** [findByComp] over the list with [threadIDComp]. *)
Fixpoint find_pid (m : gmap Z Thread) (id : Z) (l : list Z) : res Z :=
  match l with
  | [] => Ok 0
  | t :: l' => th ← deref (m !! t); if pid th =? id then Ok t else find_pid m id l'
  end.

Definition getThreadPtr (id : Z) : M W Z :=
  k ← kget;
  b ← lift (Bitmap.Test (threadMap (threadManager k)) id);
  if (b : bool) then lift (find_pid (threads k) id (threadList (threadManager k))) else mret 0.

Definition removeExitedChild (this id : Z) : M W Z :=
  child ← getThreadPtr id;
  th ← the_thread this;
  exited ← lift (list_remove child (exitedChild th));
  _ ← on_thread this (with_children (activeChild th) exited); mret child.

(** * Scheduler *)

(** [ThreadPriorityCompare] on the objects at two addresses. *)
Definition ThreadPriorityCompare (x y : Thread) : Z :=
  if priority x <? priority y then -1 else if priority x >? priority y then 1 else 0.

(** [Insert] of the ready list, a SortedList of thread addresses: behind the threads that
    are not of lower priority. *)
Fixpoint insert_ready (m : gmap Z Thread) (t : Z) (th : Thread) (l : list Z) : res (list Z) :=
  match l with
  | [] => Ok [t]
  | u :: l' =>
      th' ← deref (m !! u);
      if ThreadPriorityCompare th th' <? 0 then Ok (t :: u :: l') else l'' ← insert_ready m t th l'; Ok (u :: l'')
  end.

(** SetLevel(IntOff): turning interrupts off costs no tick. *)
Definition level_off : M W IntStatus := old ← getLevel; _ ← ChangeLevel old IntOff; mret old.
Definition assert_off : M W unit := l ← getLevel; lift (ASSERT (bool_decide (l = IntOff))).

Definition ReadyToRun (t : Z) : M W unit :=
  _ ← assert_off;
  _ ← on_thread t (with_status READY);
  th ← the_thread t;
  k ← kget;
  _ ← lift (ASSERT (bool_decide (t ∉ readyList (scheduler k))));
  l ← lift (insert_ready (threads k) t th (readyList (scheduler k)));
  kmod (set_scheduler (MkScheduler l (toBeDestroyed (scheduler k)))).

(** NULL when no thread is ready. *)
Definition FindNextToRun : M W Z :=
  _ ← assert_off;
  k ← kget;
  match readyList (scheduler k) with
  | [] => mret 0
  | t :: l => _ ← kmod (set_scheduler (MkScheduler l (toBeDestroyed (scheduler k)))); mret t
  end.

Definition CheckToBeDestroyed : M W unit :=
  k ← kget;
  let t := toBeDestroyed (scheduler k) in
  if t =? 0 then mret tt
  else _ ← deleteThread t; kmod (fun k => set_scheduler (MkScheduler (readyList (scheduler k)) 0) k).

(** Machine::ReadRegister and WriteRegister *)
Definition ReadRegister (i : Z) : M W Z :=
  k ← kget; _ ← lift (ASSERT ((0 <=? i) && (i <? Mips.NumTotalRegs))); lift (aget (registers (cpu k)) i).
Definition WriteRegister (i v : Z) : M W unit :=
  k ← kget; _ ← lift (ASSERT ((0 <=? i) && (i <? Mips.NumTotalRegs)));
  r ← lift (aset (registers (cpu k)) i v); kmod (set_cpu (MkCpu r (pageTable (cpu k)) (pageTableSize (cpu k)) (spaces (cpu k)))).

Definition SaveUserState (this : Z) : M W unit :=
  mfor (range 0 Mips.NumTotalRegs) (fun i _ =>
    v ← ReadRegister i; th ← the_thread this; l ← lift (aset (userRegisters th) i v); on_thread this (with_registers l)) tt.
Definition RestoreUserState (this : Z) : M W unit :=
  mfor (range 0 Mips.NumTotalRegs) (fun i _ => th ← the_thread this; v ← lift (aget (userRegisters th) i); WriteRegister i v) tt.

(** AddrSpace::RestoreState *)
Definition RestoreState (a : Z) : M W unit :=
  k ← kget;
  '(table, n) ← lift (deref (spaces (cpu k) !! a));
  kmod (set_cpu (MkCpu (registers (cpu k)) table n (spaces (cpu k)))).

(** Scheduler::Run up to SWITCH, and from there on, when [this] runs again. *)
Definition Run (nextThread : Z) (finishing : bool) : M W unit :=
  k ← kget;
  let oldThread := currentThread k in
  _ ← assert_off;
  _ ← (if finishing then
         _ ← lift (ASSERT (toBeDestroyed (scheduler k) =? 0));
         kmod (fun k => set_scheduler (MkScheduler (readyList (scheduler k)) oldThread) k)
       else mret tt);
  th ← the_thread oldThread;
  _ ← (if space th =? 0 then mret tt else SaveUserState oldThread);
  _ ← kmod (set_current nextThread);
  on_thread nextThread (with_status RUNNING).

Definition Run_resumed (this : Z) : M W unit :=
  _ ← assert_off;
  _ ← CheckToBeDestroyed;
  th ← the_thread this;
  if space th =? 0 then mret tt else _ ← RestoreUserState this; RestoreState (space th).

(** * Semaphores, locks and condition variables *)

Definition the_semaphore (s : Z) : M W Semaphore := k ← kget; lift (deref (semaphores (synch k) !! s)).
Definition put_semaphore (s : Z) (x : Semaphore) : M W unit :=
  kmod (fun k => let y := synch k in set_synch (MkSynch (<[s := x]> (semaphores y)) (locks y) (conditions y) (lists y)) k).
Definition the_lock (l : Z) : M W Lock := k ← kget; lift (deref (locks (synch k) !! l)).
Definition put_lock (l : Z) (x : Lock) : M W unit :=
  kmod (fun k => let y := synch k in set_synch (MkSynch (semaphores y) (<[l := x]> (locks y)) (conditions y) (lists y)) k).
Definition the_condition (c : Z) : M W (list Z) := k ← kget; lift (deref (conditions (synch k) !! c)).
Definition put_condition (c : Z) (x : list Z) : M W unit :=
  kmod (fun k => let y := synch k in set_synch (MkSynch (semaphores y) (locks y) (<[c := x]> (conditions y)) (lists y)) k).
Definition the_list (q : Z) : M W SynchList := k ← kget; lift (deref (lists (synch k) !! q)).
Definition put_list (q : Z) (x : SynchList) : M W unit :=
  kmod (fun k => let y := synch k in set_synch (MkSynch (semaphores y) (locks y) (conditions y) (<[q := x]> (lists y))) k).

(** The body of Semaphore::V, interrupts being off. *)
Definition V_body (s : Z) : M W unit :=
  x ← the_semaphore s;
  _ ← (match queue x with
       | [] => mret tt
       | t :: q => _ ← put_semaphore s (MkSemaphore (value x) q); ReadyToRun t
       end);
  x ← the_semaphore s;
  put_semaphore s (MkSemaphore (value x + 1) (queue x)).

(** One test of the loop of Semaphore::P, and what follows. *)
Definition P_test (s : Z) (oldLevel : IntStatus) : M W (list micro) :=
  k ← kget;
  x ← the_semaphore s;
  if value x =? 0 then
    _ ← put_semaphore s (MkSemaphore (value x) (queue x ++ [currentThread k]));
    _ ← assert_off;
    _ ← on_thread (currentThread k) (with_status BLOCKED);
    mret [MSleep false; MPLoop s oldLevel]
  else
    _ ← put_semaphore s (MkSemaphore (value x - 1) (queue x));
    mret [MSetLevel oldLevel].

Definition Semaphore_P (s : Z) : M W (list micro) := old ← level_off; P_test s old.
Definition Semaphore_V (s : Z) : M W (list micro) := old ← level_off; _ ← V_body s; mret [MSetLevel old].

(** [delete waiter] *)
Definition delete_semaphore (s : Z) : M W (list micro) :=
  _ ← the_semaphore s;
  _ ← kmod (fun k => let y := synch k in set_synch (MkSynch (delete s (semaphores y)) (locks y) (conditions y) (lists y)) k);
  mret [].

Definition IsHeldByCurrentThread (l : Z) : M W bool := k ← kget; x ← the_lock l; mret (lockHolder x =? currentThread k).

(** Lock::Acquire: P on the lock's semaphore, then the holder. *)
Definition Acquire (l : Z) : M W (list micro) := x ← the_lock l; mret [MP (semaphore x); MHold l].

Definition Release (l : Z) : M W (list micro) :=
  b ← IsHeldByCurrentThread l;
  _ ← lift (ASSERT b);
  x ← the_lock l;
  _ ← put_lock l (MkLock 0 (semaphore x));
  mret [MV (semaphore x)].

Definition Wait (c l : Z) : M W (list micro) :=
  b ← IsHeldByCurrentThread l;
  _ ← lift (ASSERT b);
  k ← kget;
  let waiter := new_address (semaphores (synch k)) in
  _ ← put_semaphore waiter (MkSemaphore 0 []);
  q ← the_condition c;
  _ ← put_condition c (q ++ [waiter]);
  acquire ← Acquire l;
  mret ([MRelease l; MP waiter] ++ acquire ++ [MDelete waiter]).

Definition Signal (c l : Z) : M W (list micro) :=
  b ← IsHeldByCurrentThread l;
  _ ← lift (ASSERT b);
  q ← the_condition c;
  match q with
  | [] => mret []
  | waiter :: q' => _ ← put_condition c q'; mret [MV waiter]
  end.

Definition Broadcast (c l : Z) : M W (list micro) :=
  q ← the_condition c; mret (match q with [] => [] | _ => [MSignal c l; MBroadcast c l] end).

(** * Synchronized lists *)

Definition SynchList_Append (q x : Z) : M W (list micro) :=
  y ← the_list q; a ← Acquire (lock y);
  mret (a ++ [MListAppend q x; MSignal (listEmpty y) (lock y); MRelease (lock y)]).
Definition SynchList_RemoveFront (q : Z) : M W (list micro) :=
  y ← the_list q; a ← Acquire (lock y); mret (a ++ [MListWait q; MListTake q; MRelease (lock y)]).
Definition SynchList_Remove (q x : Z) : M W (list micro) :=
  y ← the_list q; a ← Acquire (lock y); mret (a ++ [MListRemove q x; MRelease (lock y)]).

Definition list_update (q : Z) (f : list Z -> res (list Z)) : M W unit :=
  y ← the_list q; l ← lift (f (items y)); put_list q (MkSynchList l (lock y) (listEmpty y)).

(** * Calls of the interface *)

Inductive call :=
| CYield
| CExit
| CHalt
| CSpawn (uid priority pc : Z) (raw : list Z)
| CSetPriority (p : Z)
| CP (s : Z) | CV (s : Z)
| CAcquire (l : Z) | CRelease (l : Z)
| CWait (c l : Z) | CSignal (c l : Z) | CBroadcast (c l : Z)
| CAppend (q x : Z) | CRemoveFront (q : Z) | CRemove (q x : Z).

Definition return_value (x : Z) : M W unit := k ← kget; on_thread (currentThread k) (with_result x).

(** Thread::Fork of the new thread at [t]: its body runs between ThreadBegin and
    ThreadFinish. *)
Definition Fork (t pc : Z) : M W (list micro) :=
  _ ← on_thread t (with_stack [MBegin; MCode pc; MFinish]);
  oldLevel ← level_off;
  _ ← ReadyToRun t;
  mret [MYield; MSetLevel oldLevel].

(** A thread is created, given a priority and forked; nothing can come between. *)
Definition spawn (uid prio pc : Z) (raw : list Z) : M W (list micro) :=
  t ← createThread uid raw;
  _ ← on_thread t (with_priority prio);
  _ ← return_value t;
  Fork t pc.

(** [currentThread->setPriority(p)] *)
Definition setPriority (p : Z) : M W (list micro) := k ← kget; _ ← on_thread (currentThread k) (with_priority p); mret [].

Definition do_call (c : call) : M W (list micro) :=
  match c with
  | CYield => mret [MYield]
  | CExit => mret []
  | CHalt => lift Exited
  | CSpawn uid prio pc raw => spawn uid prio pc raw
  | CSetPriority p => setPriority p
  | CP s => mret [MP s]
  | CV s => mret [MV s]
  | CAcquire l => Acquire l
  | CRelease l => mret [MRelease l]
  | CWait c l => mret [MWait c l]
  | CSignal c l => mret [MSignal c l]
  | CBroadcast c l => mret [MBroadcast c l]
  | CAppend q x => SynchList_Append q x
  | CRemoveFront q => SynchList_RemoveFront q
  | CRemove q x => SynchList_Remove q x
  end.

(** * Execution *)

(** What a device's interrupt handler does to the kernel. *)
Inductive action := AV (s : Z) | ASchedule (fromNow : Z) (t : IntType) | AYieldOnReturn.

Section Exec.
Variable code : Z -> W -> call * Z.
Variable handler : Z -> W -> list action.
Variable DelayedLoad : list Z -> list Z.

Definition run_action (device : Z) (a : action) : M W unit :=
  match a with
  | AV s => _ ← assert_off; V_body s
  | ASchedule n t => Schedule device n t
  | AYieldOnReturn => YieldOnReturn
  end.

Fixpoint run_actions (device : Z) (l : list action) : M W unit :=
  match l with [] => mret tt | a :: l' => _ ← run_action device a; run_actions device l' end.

Definition CallBack (device : Z) : M W unit := w ← get_state; run_actions device (handler device w).

Definition load : M W unit :=
  kmod (fun k => let c := cpu k in set_cpu (MkCpu (DelayedLoad (registers c)) (pageTable c) (pageTableSize c) (spaces c)) k).

(** SetLevel, up to the context switch that a handler may have asked for. *)
Definition exec_SetLevel (l : IntStatus) : M W (list micro) :=
  w ← get_state;
  let old := level (interrupt w) in
  _ ← lift (ASSERT (bool_decide (l = IntOff) || negb (inHandler (interrupt w))));
  _ ← ChangeLevel old l;
  if bool_decide (l = IntOn /\ old = IntOff) then
    let oldStatus := Interrupt.status (interrupt w) in
    _ ← Tick CallBack load;
    w ← get_state;
    if yieldOnReturn (interrupt w) then
      _ ← modify (on_interrupt (with_yieldOnReturn false));
      _ ← setStatus Machine.SystemMode;
      mret [MYield; MStatus oldStatus]
    else mret []
  else mret [].

Definition exec_Begin : M W (list micro) := _ ← CheckToBeDestroyed; mret [MSetLevel IntOn].

Definition exec_Yield : M W (list micro) :=
  oldLevel ← level_off;
  k ← kget;
  nextThread ← FindNextToRun;
  if nextThread =? 0 then mret [MSetLevel oldLevel]
  else _ ← ReadyToRun (currentThread k); _ ← Run nextThread false; mret [MSwitched; MSetLevel oldLevel].

(** One turn of the loop of Thread::Sleep, or the switch at its end. *)
Definition exec_Sleep (finishing : bool) : M W (list micro) :=
  nextThread ← FindNextToRun;
  if nextThread =? 0 then _ ← Idle CallBack load; mret [MSleep finishing]
  else _ ← Run nextThread finishing; mret [MSwitched].

Definition exec_Finish : M W (list micro) :=
  _ ← level_off;
  k ← kget;
  let this := currentThread k in
  _ ← on_thread this (with_status ZOMMBIE);
  th ← the_thread this;
  _ ← (if parent th =? 0 then mret tt else childThreadExit (parent th) this);
  _ ← assert_off;
  mret [MSleep true].

Definition exec (m : micro) : M W (list micro) :=
  match m with
  | MCode pc => w ← get_state; let '(c, pc') := code pc w in l ← do_call c; mret (match c with CExit => l | _ => l ++ [MCode pc'] end)
  | MSetLevel l => exec_SetLevel l
  | MStatus s => _ ← setStatus s; mret []
  | MBegin => exec_Begin
  | MFinish => exec_Finish
  | MYield => exec_Yield
  | MSleep b => exec_Sleep b
  | MSwitched => k ← kget; _ ← Run_resumed (currentThread k); mret []
  | MP s => Semaphore_P s
  | MPLoop s old => P_test s old
  | MV s => Semaphore_V s
  | MHold l => k ← kget; x ← the_lock l; _ ← put_lock l (MkLock (currentThread k) (semaphore x)); mret []
  | MRelease l => Release l
  | MWait c l => Wait c l
  | MDelete s => delete_semaphore s
  | MSignal c l => Signal c l
  | MBroadcast c l => Broadcast c l
  | MListAppend q x => _ ← list_update q (fun l => Ok (l ++ [x])); mret []
  | MListWait q => y ← the_list q; mret (match items y with [] => [MWait (listEmpty y) (lock y); MListWait q] | _ => [] end)
  | MListTake q => y ← the_list q; _ ← list_update q (fun l => match l with [] => AssertFail | _ :: l' => Ok l' end);
      _ ← return_value (default 0 (head (items y))); mret []
  | MListRemove q x => _ ← list_update q (list_remove x); mret []
  end.

(** One step of the thread that has the processor. *)
Definition step : M W unit :=
  k ← kget;
  let t := currentThread k in
  th ← the_thread t;
  match stack th with
  | [] => lift Undefined
  | m :: others => l ← exec m; on_thread t (with_stack (l ++ others))
  end.
End Exec.

(** * The start

    Kernel::Initialize, as far as threads go: the main thread is the first one; the code that
    it goes on with is at [pc], after Interrupt::Enable.  Before, [currentThread] is whatever
    it is; the semaphores and locks of the devices are there. *)
Definition Initialize (raw : list Z) (pc : Z) : M W unit :=
  b ← lift (Bitmap.Bitmap_new THREAD_COUNT_MAX);
  _ ← kmod (set_manager (MkManager [] 0 b));
  t ← createThread 0 raw;
  _ ← kmod (set_current t);
  _ ← on_thread t (with_status RUNNING);
  _ ← kmod (set_scheduler (MkScheduler [] 0));
  on_thread t (with_stack [MSetLevel IntOn; MCode pc]).

(** Semaphores and locks as their constructors make them; every lock has a semaphore of its
    own. *)
Record synch_new (y : Synch) : Prop := {
  sn_semaphore s x : semaphores y !! s = Some x -> 0 <= value x /\ queue x = [];
  sn_lock l x : locks y !! l = Some x -> lockHolder x = 0 /\ semaphores y !! semaphore x = Some (MkSemaphore 1 []);
  sn_own l l' x x' : locks y !! l = Some x -> locks y !! l' = Some x' -> semaphore x = semaphore x' -> l = l';
  sn_condition c q : conditions y !! c = Some q -> q = []
}.

(** The states that the system goes through. *)
Inductive reachable code handler DelayedLoad (y : Synch) : W -> Prop :=
| reach_start w0 raw pc w : threads (rest w0) = ∅ -> synch (rest w0) = y -> Initialize raw pc w0 = Ok (tt, w) ->
    reachable code handler DelayedLoad y w
| reach_step w w' : reachable code handler DelayedLoad y w -> step code handler DelayedLoad w = Ok (tt, w') ->
    reachable code handler DelayedLoad y w'.
End Threads.
