(* ===== verification/ThreadCore.v ===== *)
(** ThreadCore: what scheduling and synchronization depend on, as a transition system: the
    statuses and stacks of the threads, the ready list, the semaphores' values and queues,
    the locks' holders, the waiters of the condition variables.  One rule per thing that can
    happen to them; ThreadSim.v proves that every step of Threads.v is a sequence of these.
    The invariants are proved here, by induction on the rules. *)

From S2P Require Import Prelude Bitmap CList Mips Machine Interrupt Threads.
From stdpp Require Import base numbers list gmap.
#[local] Open Scope Z_scope.

Module ThreadCore.
Import Interrupt Threads.

Record Core := MkCore {
  cur : Z;
  thr : gmap Z (ThreadStatus * list micro);
  ready : list Z;
  sem : gmap Z (Z * list Z);
  lck : gmap Z (Z * Z);
  cond : gmap Z (list Z);
  dead : Z
}.
Implicit Types (c : Core) (stk : list micro).

(** The semaphores of the locks, and those that threads and devices use by themselves; they
    live for ever. *)
Record Layout := MkLayout { lock_of : gmap Z Z; plain : gset Z }.
Definition statics (L : Layout) (s : Z) : Prop := s ∈ plain L \/ exists l, lock_of L !! l = Some s.

(** The calls that threads make name such semaphores. *)
Inductive user_micro (L : Layout) : list micro -> Prop :=
| um_none : user_micro L []
| um_yield : user_micro L [MYield]
| um_P s : s ∈ plain L -> user_micro L [MP s]
| um_V s : s ∈ plain L -> user_micro L [MV s]
| um_acquire l s more : lock_of L !! l = Some s -> user_micro L more -> user_micro L (MP s :: MHold l :: more)
| um_release l : user_micro L [MRelease l]
| um_wait cv l : user_micro L [MWait cv l]
| um_signal cv l : user_micro L [MSignal cv l]
| um_signal_more cv l more : user_micro L more -> user_micro L (MSignal cv l :: more)
| um_broadcast cv l : user_micro L [MBroadcast cv l]
| um_append q x more : user_micro L more -> user_micro L (MListAppend q x :: more)
| um_list_wait q more : user_micro L more -> user_micro L (MListWait q :: more)
| um_take q more : user_micro L more -> user_micro L (MListTake q :: more)
| um_remove q x more : user_micro L more -> user_micro L (MListRemove q x :: more).

(** Pieces of code that change nothing here but the running thread's stack. *)
Inductive tau (L : Layout) : micro -> list micro -> Prop :=
| tau_level l : tau L (MSetLevel l) []
| tau_preempt l s : tau L (MSetLevel l) [MYield; MStatus s]
| tau_status s : tau L (MStatus s) []
| tau_begin : tau L MBegin [MSetLevel IntOn]
| tau_switched : tau L MSwitched []
| tau_alone l : tau L MYield [MSetLevel l]
| tau_code pc ms more : user_micro L ms -> more = [] \/ (exists pc', more = [MCode pc']) -> tau L (MCode pc) (ms ++ more)
| tau_signal cv l : tau L (MSignal cv l) []
| tau_broadcast cv l : tau L (MBroadcast cv l) [MSignal cv l; MBroadcast cv l]
| tau_broadcast_end cv l : tau L (MBroadcast cv l) []
| tau_append q x : tau L (MListAppend q x) []
| tau_list_wait q cv l : tau L (MListWait q) [MWait cv l; MListWait q]
| tau_list_go q : tau L (MListWait q) []
| tau_take q : tau L (MListTake q) []
| tau_remove q x : tau L (MListRemove q x) [].

(** [l'] is [l] with [t] somewhere. *)
Definition inserted (t : Z) (l l' : list Z) : Prop := exists l1 l2, l = l1 ++ l2 /\ l' = l1 ++ t :: l2.

(** Semaphore::V, interrupts being off. *)
Inductive vstep (s : Z) : Core -> Core -> Prop :=
| v_alone c v : sem c !! s = Some (v, []) ->
    vstep s c (MkCore (cur c) (thr c) (ready c) (<[s := (v + 1, [])]> (sem c)) (lck c) (cond c) (dead c))
| v_wakes c v t q st stk r : sem c !! s = Some (v, t :: q) -> thr c !! t = Some (st, stk) -> inserted t (ready c) r -> t ∉ ready c ->
    vstep s c (MkCore (cur c) (<[t := (READY, stk)]> (thr c)) r (<[s := (v + 1, q)]> (sem c)) (lck c) (cond c) (dead c)).

Definition put_cur c st stk : Core :=
  MkCore (cur c) (<[cur c := (st, stk)]> (thr c)) (ready c) (sem c) (lck c) (cond c) (dead c).

(** What a step of the running thread, whose entry is [(st, m :: rest)], can do. *)
Inductive cstep (L : Layout) : Core -> Core -> Prop :=
| c_tau c st m rest ms : thr c !! cur c = Some (st, m :: rest) -> tau L m ms -> cstep L c (put_cur c st (ms ++ rest))
| c_device c c' s : s ∈ plain L -> vstep s c c' -> cstep L c c'
| c_signals c c' st s o rest : thr c !! cur c = Some (st, MV s :: rest) -> vstep s c c' ->
    cstep L c (put_cur c' st (MSetLevel o :: rest))
| c_blocks c st m s o rest q : thr c !! cur c = Some (st, m :: rest) -> m = MP s \/ m = MPLoop s o -> sem c !! s = Some (0, q) ->
    cstep L c (MkCore (cur c) (<[cur c := (BLOCKED, MSleep false :: MPLoop s o :: rest)]> (thr c)) (ready c)
      (<[s := (0, q ++ [cur c])]> (sem c)) (lck c) (cond c) (dead c))
| c_takes c st m s o rest v q : thr c !! cur c = Some (st, m :: rest) -> m = MP s \/ m = MPLoop s o -> sem c !! s = Some (v, q) -> v <> 0 ->
    cstep L c (MkCore (cur c) (<[cur c := (st, MSetLevel o :: rest)]> (thr c)) (ready c)
      (<[s := (v - 1, q)]> (sem c)) (lck c) (cond c) (dead c))
| c_sleeps c st b rest n r d : thr c !! cur c = Some (st, MSleep b :: rest) -> ready c = n :: r ->
    (if b then dead c = 0 /\ d = cur c else d = dead c) -> forall st' stk', (<[cur c := (st, MSwitched :: rest)]> (thr c)) !! n = Some (st', stk') ->
    cstep L c (MkCore n (<[n := (RUNNING, stk')]> (<[cur c := (st, MSwitched :: rest)]> (thr c))) r (sem c) (lck c) (cond c) d)
| c_yields c st o rest n r r' st' stk' : thr c !! cur c = Some (st, MYield :: rest) -> ready c = n :: r -> inserted (cur c) r r' -> cur c ∉ r ->
    (<[cur c := (READY, MSwitched :: MSetLevel o :: rest)]> (thr c)) !! n = Some (st', stk') ->
    cstep L c (MkCore n (<[n := (RUNNING, stk')]> (<[cur c := (READY, MSwitched :: MSetLevel o :: rest)]> (thr c))) r' (sem c) (lck c) (cond c) (dead c))
| c_spawns c st pc rest t pc1 pc2 o r : thr c !! cur c = Some (st, MCode pc :: rest) -> thr c !! t = None -> t <> 0 -> inserted t (ready c) r ->
    cstep L c (MkCore (cur c) (<[cur c := (st, MYield :: MSetLevel o :: MCode pc2 :: rest)]> (<[t := (READY, [MBegin; MCode pc1; MFinish])]> (thr c))) r
      (sem c) (lck c) (cond c) (dead c))
| c_destroys c st m rest : thr c !! cur c = Some (st, m :: rest) -> m = MBegin \/ m = MSwitched -> dead c <> 0 ->
    cstep L c (MkCore (cur c) (delete (dead c) (thr c)) (ready c) (sem c) (lck c) (cond c) 0)
| c_finishes c st rest : thr c !! cur c = Some (st, MFinish :: rest) -> cstep L c (put_cur c ZOMMBIE (MSleep true :: rest))
| c_holds c st l h s rest : thr c !! cur c = Some (st, MHold l :: rest) -> lck c !! l = Some (h, s) ->
    cstep L c (MkCore (cur c) (<[cur c := (st, rest)]> (thr c)) (ready c) (sem c) (<[l := (cur c, s)]> (lck c)) (cond c) (dead c))
| c_releases c st l s rest : thr c !! cur c = Some (st, MRelease l :: rest) -> lck c !! l = Some (cur c, s) ->
    cstep L c (MkCore (cur c) (<[cur c := (st, MV s :: rest)]> (thr c)) (ready c) (sem c) (<[l := (0, s)]> (lck c)) (cond c) (dead c))
| c_waits c st cv l s rest w q : thr c !! cur c = Some (st, MWait cv l :: rest) -> lck c !! l = Some (cur c, s) ->
    sem c !! w = None -> w <> 0 -> cond c !! cv = Some q ->
    cstep L c (MkCore (cur c) (<[cur c := (st, MRelease l :: MP w :: MP s :: MHold l :: MDelete w :: rest)]> (thr c)) (ready c)
      (<[w := (0, [])]> (sem c)) (lck c) (<[cv := q ++ [w]]> (cond c)) (dead c))
| c_wakes c st cv l rest w q : thr c !! cur c = Some (st, MSignal cv l :: rest) -> cond c !! cv = Some (w :: q) ->
    cstep L c (MkCore (cur c) (<[cur c := (st, MV w :: rest)]> (thr c)) (ready c) (sem c) (lck c) (<[cv := q]> (cond c)) (dead c))
| c_deletes c st s rest : thr c !! cur c = Some (st, MDelete s :: rest) ->
    cstep L c (MkCore (cur c) (<[cur c := (st, rest)]> (thr c)) (ready c) (delete s (sem c)) (lck c) (cond c) (dead c)).

(** * Places *)

Definition sleeps (m : micro) : bool := match m with MSleep _ => true | _ => false end.
Definition no_sleep stk : Prop := Forall (fun m => sleeps m = false) stk.

(** Where a thread that waits for semaphore [s] will go on. *)
Definition waits_for (s : Z) stk : Prop := exists m o rest, stk = m :: MPLoop s o :: rest /\ (m = MSwitched \/ m = MSleep false).

(** The uses of a semaphore that a stack holds. *)
Definition mentions (s : Z) stk : Prop := MP s ∈ stk \/ (exists o, MPLoop s o ∈ stk) \/ MDelete s ∈ stk.

(** What the running thread's stack says of its status. *)
Definition status_fits (st : ThreadStatus) stk : Prop :=
  match stk with
  | MSleep false :: _ => st = BLOCKED \/ st = READY
  | MSleep true :: _ => st = ZOMMBIE
  | _ => st = RUNNING
  end.

(** A semaphore made by Condition::Wait is used up to its deletion and no further. *)
Definition deletes_last (L : Layout) stk : Prop :=
  forall pre s post, stk = pre ++ MDelete s :: post -> ~ statics L s /\ ~ mentions s post.

Record placed (L : Layout) c : Prop := {
  pl_cur : exists st stk, thr c !! cur c = Some (st, stk) /\ status_fits st stk;
  pl_nodup : NoDup (ready c);
  pl_ready t : t ∈ ready c <-> exists stk, thr c !! t = Some (READY, stk);
  pl_queue s v q : sem c !! s = Some (v, q) -> 0 <= v /\ NoDup q /\ forall t, t ∈ q -> exists stk, thr c !! t = Some (BLOCKED, stk) /\ waits_for s stk;
  pl_blocked t stk : thr c !! t = Some (BLOCKED, stk) -> exists s v q, sem c !! s = Some (v, q) /\ t ∈ q;
  pl_running t stk : thr c !! t = Some (RUNNING, stk) -> t = cur c;
  pl_sleep t st stk : thr c !! t = Some (st, stk) -> no_sleep (tail stk) /\ (t <> cur c -> no_sleep stk);
  pl_null : thr c !! 0 = None;
  pl_dead : dead c = 0 \/ dead c <> cur c /\ exists stk, thr c !! dead c = Some (ZOMMBIE, stk);
  pl_statics s : statics L s -> is_Some (sem c !! s);
  pl_mentions t st stk s : thr c !! t = Some (st, stk) -> mentions s stk -> ~ statics L s ->
    is_Some (sem c !! s) /\ forall t' st' stk', thr c !! t' = Some (st', stk') -> mentions s stk' -> t' = t;
  pl_deletes t st stk : thr c !! t = Some (st, stk) -> deletes_last L stk;
  pl_locks l h s : lck c !! l = Some (h, s) -> lock_of L !! l = Some s;
  pl_conds cv q w : cond c !! cv = Some q -> w ∈ q -> ~ statics L w
}.

(** ** Stacks *)

(** The semaphore that one piece of code uses. *)
Definition uses (m : micro) : option Z := match m with MP s | MPLoop s _ | MDelete s => Some s | _ => None end.

(** A piece that neither sleeps nor deletes, and uses only semaphores that live for ever. *)
Definition clean_micro (L : Layout) (m : micro) : Prop :=
  sleeps m = false /\ (forall x, m <> MDelete x) /\ forall s, uses m = Some s -> statics L s.
Definition clean (L : Layout) : list micro -> Prop := Forall (clean_micro L).

Lemma clean_cons L m ms : sleeps m = false -> (forall x, m <> MDelete x) -> (forall s, uses m = Some s -> statics L s) -> clean L ms -> clean L (m :: ms).
Proof. intros. by constructor. Qed.

Lemma user_micro_clean L ms : user_micro L ms -> clean L ms.
Proof.
  assert (clean L []) as Hnil by constructor.
  induction 1; try done; try (apply clean_cons; done).
  - apply clean_cons; try done. intros x [= <-]. by left.
  - apply clean_cons; [done..| |by apply clean_cons]. intros x [= <-]. right. by exists l.
Qed.

Lemma tau_clean L m ms : tau L m ms -> clean L ms.
Proof.
  destruct 1 as [| | | | | |pc ms more Hu [->|(pc' & ->)]| | | | | | | |]; try (repeat (constructor; try done); fail).
  - rewrite app_nil_r. by apply user_micro_clean.
  - apply Forall_app_2; [by apply user_micro_clean|]. by repeat constructor.
Qed.

Lemma mentions_uses s stk : mentions s stk <-> exists m, m ∈ stk /\ uses m = Some s.
Proof.
  unfold mentions. split.
  - intros [E|[(o & E)|E]]; eexists; (split; [exact E|done]).
  - intros (m & E & Hu). destruct m; try done; injection Hu as ->; naive_solver.
Qed.

Lemma mentions_app s stk1 stk2 : mentions s (stk1 ++ stk2) <-> mentions s stk1 \/ mentions s stk2.
Proof. rewrite !mentions_uses. setoid_rewrite elem_of_app. naive_solver. Qed.

Lemma mentions_cons s m stk : mentions s (m :: stk) <-> uses m = Some s \/ mentions s stk.
Proof. rewrite !mentions_uses. setoid_rewrite elem_of_cons. naive_solver. Qed.

Lemma mentions_nil s : ~ mentions s [].
Proof. rewrite mentions_uses. intros (m & E & _). by apply not_elem_of_nil in E. Qed.

Lemma clean_mentions L ms s : clean L ms -> mentions s ms -> statics L s.
Proof. intros Hc (m & E & Hu)%mentions_uses. unfold clean in Hc. rewrite Forall_forall in Hc. by apply (Hc m E). Qed.

Lemma clean_no_sleep L ms : clean L ms -> no_sleep ms.
Proof. intros H. eapply Forall_impl; [exact H|]. by intros m (Hm & _). Qed.

Lemma deletes_last_cons L m stk : deletes_last L (m :: stk) <-> deletes_last L stk /\ forall s, m = MDelete s -> ~ statics L s /\ ~ mentions s stk.
Proof.
  split.
  - intros H. split; [intros pre s post ->; by apply (H (m :: pre) s post)|]. intros s ->. by apply (H [] s stk).
  - intros [H1 H2] [|m' pre] s post E; injection E as -> E; [subst; by apply H2|]. by apply (H1 pre).
Qed.

Lemma deletes_last_nil L : deletes_last L [].
Proof. intros [|? ?] s post E; done. Qed.

Lemma deletes_last_app L ms stk : clean L ms -> deletes_last L stk -> deletes_last L (ms ++ stk).
Proof.
  intros Hn H. induction Hn as [|m ms (_ & Hm & _) _ IH]; [done|]. cbn. apply deletes_last_cons. split; [done|].
  intros s E. by destruct (Hm s).
Qed.

Lemma no_sleep_tail stk : no_sleep stk -> no_sleep (tail stk).
Proof. destruct 1; [constructor|assumption]. Qed.

Lemma status_running st m rest : status_fits st (m :: rest) -> sleeps m = false -> st = RUNNING.
Proof. destruct m; try done. Qed.

Lemma fits_running stk : no_sleep stk -> status_fits RUNNING stk.
Proof. destruct 1 as [|m stk Hm _]; [done|]. by destruct m. Qed.

(** ** The steps keep threads in their places *)

Section Placed.
Context (L : Layout).
Implicit Types (t s : Z).

(** The running thread's entry. *)
Lemma placed_cur c st stk : placed L c -> thr c !! cur c = Some (st, stk) ->
  status_fits st stk /\ no_sleep (tail stk) /\ deletes_last L stk.
Proof.
  intros Hp Hc. destruct (pl_cur _ _ Hp) as (st' & stk' & Hc' & Hf). rewrite Hc in Hc'. injection Hc' as <- <-.
  split; [done|]. split; [by apply (pl_sleep _ _ Hp _ _ _ Hc)|]. by apply (pl_deletes _ _ Hp _ _ _ Hc).
Qed.

(** A running thread goes on with another stack. *)
Lemma placed_stack c stk stk' : placed L c -> thr c !! cur c = Some (RUNNING, stk) -> no_sleep stk' -> deletes_last L stk' ->
  (forall s, mentions s stk' -> ~ statics L s ->
     is_Some (sem c !! s) /\ forall t st x, thr c !! t = Some (st, x) -> mentions s x -> t = cur c) ->
  placed L (put_cur c RUNNING stk').
Proof.
  intros Hp Hc Hs Hd Hm. pose proof Hp as [P1 P2 P3 P4 P5 P6 P7 P8 P9 P10 P11 P12 P13 P14].
  constructor; cbn; try done.
  - exists RUNNING, stk'. rewrite lookup_insert_eq. split; [done|]. by apply fits_running.
  - intros t. rewrite P3. destruct (decide (t = cur c)) as [->|Hne].
    + rewrite lookup_insert_eq, Hc. split; intros (x & E); discriminate E.
    + by rewrite lookup_insert_ne.
  - intros s v q Hq. destruct (P4 s v q Hq) as (Hv & Hn & Hw). split; [done|]. split; [done|]. intros t Ht.
    destruct (Hw t Ht) as (x & E & Hx). exists x. rewrite lookup_insert_ne; [done|]. intros <-. congruence.
  - intros t x. destruct (decide (t = cur c)) as [->|Hne]; [by rewrite lookup_insert_eq|]. rewrite lookup_insert_ne by done. apply P5.
  - intros t x. destruct (decide (t = cur c)) as [->|Hne]; [done|]. rewrite lookup_insert_ne by done. apply P6.
  - intros t st x. destruct (decide (t = cur c)) as [->|Hne].
    + rewrite lookup_insert_eq. intros [= <- <-]. split; [by apply no_sleep_tail|done].
    + rewrite lookup_insert_ne by done. apply P7.
  - rewrite lookup_insert_ne; [done|]. intros E. rewrite E in Hc. congruence.
  - destruct P9 as [|[H1 (x & H2)]]; [by left|right]. split; [done|]. exists x. by rewrite lookup_insert_ne.
  - intros t st x s. destruct (decide (t = cur c)) as [->|Hne].
    + rewrite lookup_insert_eq. intros [= <- <-] H1 H2. destruct (Hm s H1 H2) as [Hi Hu]. split; [done|].
      intros t' st' x'. destruct (decide (t' = cur c)); [done|]. rewrite lookup_insert_ne by done. apply Hu.
    + rewrite lookup_insert_ne by done. intros Ht H1 H2. destruct (P11 _ _ _ s Ht H1 H2) as [Hi Hu]. split; [done|].
      intros t' st' x'. destruct (decide (t' = cur c)) as [->|].
      * rewrite lookup_insert_eq. intros [= <- <-] H3. symmetry. by apply (proj2 (Hm s H3 H2) _ _ _ Ht).
      * rewrite lookup_insert_ne by done. apply Hu.
  - intros t st x. destruct (decide (t = cur c)) as [->|Hne]; [rewrite lookup_insert_eq; by intros [= <- <-]|].
    rewrite lookup_insert_ne by done. apply P12.
Qed.

(** The usual case: the first piece of code is replaced by clean ones. *)
Lemma placed_replace c st m rest ms : placed L c -> thr c !! cur c = Some (st, m :: rest) -> sleeps m = false -> clean L ms ->
  placed L (put_cur c st (ms ++ rest)).
Proof.
  intros Hp Hc Hm Hms. destruct (placed_cur c _ _ Hp Hc) as (Hf & Hs & Hd). rewrite (status_running _ _ _ Hf Hm) in *.
  apply deletes_last_cons in Hd as [Hd _]. apply (placed_stack c (m :: rest)); [done|done| | |].
  - apply Forall_app_2; [by eapply clean_no_sleep|done].
  - by apply deletes_last_app.
  - intros s [H|H]%mentions_app Hn; [by destruct Hn; eapply clean_mentions|].
    apply (pl_mentions _ _ Hp _ _ _ s Hc); [|done]. apply mentions_cons. by right.
Qed.

(** Another value of a semaphore. *)
Lemma placed_value c s v v' q : placed L c -> sem c !! s = Some (v, q) -> 0 <= v' ->
  placed L (MkCore (cur c) (thr c) (ready c) (<[s := (v', q)]> (sem c)) (lck c) (cond c) (dead c)).
Proof.
  intros [P1 P2 P3 P4 P5 P6 P7 P8 P9 P10 P11 P12 P13 P14] Hs Hv. constructor; cbn; try done.
  - intros x y z. destruct (decide (x = s)) as [->|Hne].
    + rewrite lookup_insert_eq. intros [= <- <-]. destruct (P4 s v q Hs) as (_ & H). done.
    + rewrite lookup_insert_ne by done. apply P4.
  - intros t stk Ht. destruct (P5 t stk Ht) as (x & y & z & Hx & Hin). destruct (decide (x = s)) as [->|Hne].
    + exists s, v', q. rewrite lookup_insert_eq. rewrite Hs in Hx. by injection Hx as <- <-.
    + exists x, y, z. by rewrite lookup_insert_ne.
  - intros x Hx. destruct (decide (x = s)) as [->|Hne]; [rewrite lookup_insert_eq; eauto|]. rewrite lookup_insert_ne by done. by apply P10.
  - intros t st stk x Ht H1 H2. destruct (P11 t st stk x Ht H1 H2) as [Hi Hu]. split; [|done].
    destruct (decide (x = s)) as [->|Hne]; [rewrite lookup_insert_eq; eauto|]. by rewrite lookup_insert_ne.
Qed.

(** Other holders of locks, other waiters. *)
Lemma placed_locks c l cd : placed L c -> (forall x h s, l !! x = Some (h, s) -> lock_of L !! x = Some s) ->
  (forall cv q w, cd !! cv = Some q -> w ∈ q -> ~ statics L w) ->
  placed L (MkCore (cur c) (thr c) (ready c) (sem c) l cd (dead c)).
Proof. intros [] Hl Hq. constructor; cbn; done. Qed.

Lemma placed_lock c l h s h' : placed L c -> lck c !! l = Some (h, s) ->
  forall x h0 s0, <[l := (h', s)]> (lck c) !! x = Some (h0, s0) -> lock_of L !! x = Some s0.
Proof.
  intros Hp Hl x h0 s0. destruct (decide (x = l)) as [->|Hne].
  - rewrite lookup_insert_eq. intros [= <- <-]. by apply (pl_locks _ _ Hp _ h).
  - rewrite lookup_insert_ne by done. apply (pl_locks _ _ Hp).
Qed.

Lemma inserted_perm t l l' : inserted t l l' -> l' ≡ₚ t :: l.
Proof. intros (l1 & l2 & -> & ->). by rewrite <- Permutation_middle. Qed.

Lemma waits_for_inj s s' stk : waits_for s stk -> waits_for s' stk -> s = s'.
Proof. intros (m & o & rest & -> & _) (m' & o' & rest' & [= _ -> _] & _). done. Qed.

Lemma waits_for_mentions s stk : waits_for s stk -> mentions s stk.
Proof. intros (m & o & rest & -> & _). rewrite !mentions_cons. right; left. done. Qed.

Lemma placed_v s c c' : vstep s c c' -> placed L c -> placed L c' /\ cur c' = cur c.
Proof.
  intros Hv Hp. split; [|by destruct Hv]. destruct Hv as [c v Hs|c v t q st stk r Hs Ht Hr Hnr].
  - apply (placed_value c s v (v + 1) []); [done|done|]. pose proof (pl_queue _ _ Hp _ _ _ Hs). lia.
  - pose proof Hp as [P1 P2 P3 P4 P5 P6 P7 P8 P9 P10 P11 P12 P13 P14].
    destruct (P4 s v _ Hs) as (Hv0 & Hnd & Hw). apply NoDup_cons in Hnd as [Hnt Hnd].
    destruct (Hw t) as (stk' & Ht' & Hwait); [apply list_elem_of_here|]. rewrite Ht in Ht'. injection Ht' as -> <-.
    apply inserted_perm in Hr.
    assert (forall t' st' stk0, <[t := (READY, stk)]> (thr c) !! t' = Some (st', stk0) -> exists st0, thr c !! t' = Some (st0, stk0)) as Hold.
    { intros t' st' stk0. destruct (decide (t' = t)) as [->|Hne]; [rewrite lookup_insert_eq; intros [= <- <-]; eauto|].
      rewrite lookup_insert_ne by done. eauto. }
    constructor; cbn; try done.
    + destruct P1 as (st' & stk' & Hc & Hf). destruct (decide (t = cur c)) as [->|Hne].
      * exists READY, stk. rewrite lookup_insert_eq. split; [done|]. rewrite Ht in Hc. injection Hc as <- <-.
        destruct Hwait as (m & o & rest & -> & [-> | ->]); [done|by right].
      * exists st', stk'. by rewrite lookup_insert_ne.
    + rewrite Hr. by constructor.
    + intros t'. rewrite Hr, elem_of_cons, P3. destruct (decide (t' = t)) as [->|Hne].
      * rewrite lookup_insert_eq. split; [intros _; eauto|by left].
      * rewrite lookup_insert_ne by done. split; [intros [?|?]; done|by right].
    + intros x y z. destruct (decide (x = s)) as [->|Hne].
      * rewrite lookup_insert_eq. intros [= <- <-]. split; [lia|]. split; [done|]. intros t' Ht'.
        destruct (Hw t') as (stk' & E & Hx); [by apply list_elem_of_further|]. exists stk'. rewrite lookup_insert_ne; [done|]. by intros <-.
      * rewrite lookup_insert_ne by done. intros Hx. destruct (P4 x y z Hx) as (H1 & H2 & H3). split; [done|]. split; [done|].
        intros t' Ht'. destruct (H3 t' Ht') as (stk' & E & Hw'). exists stk'. rewrite lookup_insert_ne; [done|]. intros <-.
        rewrite Ht in E. injection E as <-. by apply Hne, (waits_for_inj _ _ stk).
    + intros t' stk'. destruct (decide (t' = t)) as [->|Hne]; [by rewrite lookup_insert_eq|]. rewrite lookup_insert_ne by done. intros E.
      destruct (P5 t' stk' E) as (x & y & z & Hx & Hin). destruct (decide (x = s)) as [->|Hxs].
      * exists s, (v + 1), q. rewrite lookup_insert_eq. split; [done|]. rewrite Hs in Hx. injection Hx as <- <-.
        apply elem_of_cons in Hin as [?|?]; done.
      * exists x, y, z. by rewrite lookup_insert_ne.
    + intros t' stk'. destruct (decide (t' = t)) as [->|Hne]; [by rewrite lookup_insert_eq|]. rewrite lookup_insert_ne by done. apply P6.
    + intros t' st' stk' E. destruct (Hold _ _ _ E) as (st0 & E0). by apply (P7 t' st0).
    + rewrite lookup_insert_ne; [done|]. intros ->. congruence.
    + destruct P9 as [|[H1 (x & H2)]]; [by left|right]. split; [done|]. exists x. rewrite lookup_insert_ne; [done|]. intros ->. congruence.
    + intros x Hx. destruct (decide (x = s)) as [->|Hne]; [rewrite lookup_insert_eq; eauto|]. rewrite lookup_insert_ne by done. by apply P10.
    + intros t' st' stk' x E H1 H2. destruct (Hold _ _ _ E) as (st0 & E0). destruct (P11 t' st0 stk' x E0 H1 H2) as [Hi Hu]. split.
      * destruct (decide (x = s)) as [->|Hne]; [rewrite lookup_insert_eq; eauto|]. by rewrite lookup_insert_ne.
      * intros t2 st2 stk2 E2. destruct (Hold _ _ _ E2) as (st3 & E3). by apply (Hu _ st3).
    + intros t' st' stk' E. destruct (Hold _ _ _ E) as (st0 & E0). by apply (P12 t' st0).
Qed.

Lemma placed_blocks c st m s o rest q : placed L c -> thr c !! cur c = Some (st, m :: rest) -> m = MP s \/ m = MPLoop s o ->
  sem c !! s = Some (0, q) ->
  placed L (MkCore (cur c) (<[cur c := (BLOCKED, MSleep false :: MPLoop s o :: rest)]> (thr c)) (ready c)
    (<[s := (0, q ++ [cur c])]> (sem c)) (lck c) (cond c) (dead c)).
Proof.
  intros Hp Hc Hm Hs. assert (sleeps m = false) as Hms by (by destruct Hm as [-> | ->]).
  destruct (placed_cur c _ _ Hp Hc) as (Hf & Hns & Hd). rewrite (status_running _ _ _ Hf Hms) in *. clear st Hf.
  cbn in Hns. apply deletes_last_cons in Hd as [Hd _]. assert (uses m = Some s) as Hu by (by destruct Hm as [-> | ->]).
  pose proof Hp as [P1 P2 P3 P4 P5 P6 P7 P8 P9 P10 P11 P12 P13 P14].
  set (stk := MSleep false :: MPLoop s o :: rest).
  assert (forall x, mentions x stk -> mentions x (m :: rest)) as Hmen.
  { intros x. unfold stk. rewrite !mentions_cons. cbn. rewrite Hu. naive_solver. }
  constructor; cbn; try done.
  - exists BLOCKED, stk. rewrite lookup_insert_eq. split; [done|by left].
  - intros t. rewrite P3. destruct (decide (t = cur c)) as [->|Hne].
    + rewrite lookup_insert_eq, Hc. split; intros (x & E); discriminate E.
    + by rewrite lookup_insert_ne.
  - assert (forall x y z t, sem c !! x = Some (y, z) -> t ∈ z -> t <> cur c) as Hncur.
    { intros x y z t Hx Ht ->. destruct (P4 x y z Hx) as (_ & _ & H). destruct (H _ Ht) as (? & E & _). congruence. }
    intros x y z. destruct (decide (x = s)) as [->|Hne].
    + rewrite lookup_insert_eq. intros [= <- <-]. destruct (P4 s 0 q Hs) as (_ & Hn & Hw). split; [lia|]. split.
      * apply NoDup_app. split; [done|]. split; [|apply NoDup_singleton]. intros t Ht ->%list_elem_of_singleton. by apply (Hncur s 0 q _ Hs Ht).
      * intros t [Ht|Ht]%elem_of_app.
        { destruct (Hw t Ht) as (stk' & E & Hx). exists stk'. rewrite lookup_insert_ne; [done|]. intros <-. by apply (Hncur s 0 q _ Hs Ht). }
        apply list_elem_of_singleton in Ht as ->. exists stk. rewrite lookup_insert_eq. split; [done|]. exists (MSleep false), o, rest. split; [done|by right].
    + rewrite lookup_insert_ne by done. intros Hx. destruct (P4 x y z Hx) as (H1 & H2 & H3). split; [done|]. split; [done|].
      intros t Ht. destruct (H3 t Ht) as (stk' & E & Hw). exists stk'. rewrite lookup_insert_ne; [done|]. intros <-. by apply (Hncur x y z _ Hx Ht).
  - intros t stk'. destruct (decide (t = cur c)) as [->|Hne].
    + intros _. exists s, 0, (q ++ [cur c]). rewrite lookup_insert_eq. split; [done|]. apply elem_of_app. right. apply list_elem_of_here.
    + rewrite lookup_insert_ne by done. intros E. destruct (P5 t stk' E) as (x & y & z & Hx & Hin). destruct (decide (x = s)) as [->|Hxs].
      * exists s, 0, (q ++ [cur c]). rewrite lookup_insert_eq. split; [done|]. rewrite Hs in Hx. injection Hx as <- <-. apply elem_of_app. by left.
      * exists x, y, z. by rewrite lookup_insert_ne.
  - intros t stk'. destruct (decide (t = cur c)) as [->|Hne]; [done|]. rewrite lookup_insert_ne by done. apply P6.
  - intros t st' stk'. destruct (decide (t = cur c)) as [->|Hne].
    + rewrite lookup_insert_eq. intros [= <- <-]. split; [by constructor|done].
    + rewrite lookup_insert_ne by done. apply P7.
  - rewrite lookup_insert_ne; [done|]. intros E. rewrite E in Hc. congruence.
  - destruct P9 as [|[H1 (x & H2)]]; [by left|right]. split; [done|]. exists x. by rewrite lookup_insert_ne.
  - intros x Hx. destruct (decide (x = s)) as [->|Hne]; [rewrite lookup_insert_eq; eauto|]. rewrite lookup_insert_ne by done. by apply P10.
  - assert (forall x, is_Some (sem c !! x) -> is_Some (<[s:=(0, q ++ [cur c])]> (sem c) !! x)) as His.
    { intros x Hx. destruct (decide (x = s)) as [->|Hne]; [rewrite lookup_insert_eq; eauto|]. by rewrite lookup_insert_ne. }
    intros t st' stk' x. destruct (decide (t = cur c)) as [->|Hne].
    + rewrite lookup_insert_eq. intros [= <- <-] H1 H2. destruct (P11 _ _ _ x Hc (Hmen x H1) H2) as [Hi Hun]. split; [by apply His|].
      intros t' st'' x'. destruct (decide (t' = cur c)); [done|]. rewrite lookup_insert_ne by done. apply Hun.
    + rewrite lookup_insert_ne by done. intros Ht H1 H2. destruct (P11 _ _ _ x Ht H1 H2) as [Hi Hun]. split; [by apply His|].
      intros t' st'' x'. destruct (decide (t' = cur c)) as [->|].
      * rewrite lookup_insert_eq. intros [= <- <-] H3. by apply (Hun _ _ _ Hc), Hmen.
      * rewrite lookup_insert_ne by done. apply Hun.
  - intros t st' stk'. destruct (decide (t = cur c)) as [->|Hne].
    + rewrite lookup_insert_eq. intros [= <- <-]. unfold stk. apply deletes_last_cons. split; [|done]. by apply deletes_last_cons.
    + rewrite lookup_insert_ne by done. apply P12.
Qed.

(** A switch from the running thread, left as [(st1, stk1)], to the ready thread [n]. *)
Lemma placed_switch c st stk st1 stk1 n st' stk' R d : placed L c -> thr c !! cur c = Some (st, stk) -> n ∈ ready c ->
  let thr1 := <[cur c := (st1, stk1)]> (thr c) in
  st1 <> RUNNING -> (st1 = st \/ st = RUNNING /\ st1 = READY) -> no_sleep stk1 -> deletes_last L stk1 ->
  (forall s, mentions s stk1 -> ~ statics L s -> mentions s stk) -> (st1 = BLOCKED -> forall s, waits_for s stk -> waits_for s stk1) ->
  thr1 !! n = Some (st', stk') -> NoDup R -> (forall t, t ∈ R <-> t <> n /\ exists x, thr1 !! t = Some (READY, x)) ->
  (d = 0 \/ d <> n /\ exists x, thr1 !! d = Some (ZOMMBIE, x)) ->
  placed L (MkCore n (<[n := (RUNNING, stk')]> thr1) R (sem c) (lck c) (cond c) d).
Proof.
  intros Hp Hc Hn thr1 Hnr Hst Hns Hdl Hmen Hwait Hthr Hnd HR Hdead.
  pose proof Hp as [P1 P2 P3 P4 P5 P6 P7 P8 P9 P10 P11 P12 P13 P14].
  apply P3 in Hn as (stkn & Hn).
  assert (forall t u x, <[n := (RUNNING, stk')]> thr1 !! t = Some (u, x) -> exists u0, thr1 !! t = Some (u0, x) /\ (t <> n -> u0 = u)) as Hfin.
  { intros t u x. destruct (decide (t = n)) as [->|Hne]; [rewrite lookup_insert_eq; intros [= <- <-]; by exists st'|].
    rewrite lookup_insert_ne by done. eauto. }
  assert (forall t u x, thr1 !! t = Some (u, x) -> exists u0 x0, thr c !! t = Some (u0, x0) /\ (forall y, mentions y x -> ~ statics L y -> mentions y x0)) as Hold.
  { intros t u x. unfold thr1. destruct (decide (t = cur c)) as [->|Hne]; [rewrite lookup_insert_eq; intros [= <- <-]; eauto|].
    rewrite lookup_insert_ne by done. eauto. }
  assert (forall t u x, thr1 !! t = Some (u, x) -> no_sleep x /\ deletes_last L x) as Hclean.
  { intros t u x. unfold thr1. destruct (decide (t = cur c)) as [->|Hne]; [rewrite lookup_insert_eq; by intros [= <- <-]|].
    rewrite lookup_insert_ne by done. intros E. split; [by apply (P7 _ _ _ E)|by apply (P12 _ _ _ E)]. }
  assert (forall t x, thr c !! t = Some (BLOCKED, x) -> t <> n /\ exists x1, <[n := (RUNNING, stk')]> thr1 !! t = Some (BLOCKED, x1) /\ forall s, waits_for s x -> waits_for s x1) as Hblk.
  { intros t x E. assert (t <> n) as Hne by (intros ->; congruence). split; [done|]. rewrite lookup_insert_ne by done. unfold thr1.
    destruct (decide (t = cur c)) as [->|Hne']; [|rewrite lookup_insert_ne by done; eauto]. rewrite lookup_insert_eq.
    rewrite Hc in E. injection E as -> <-. destruct Hst as [->|[? _]]; [eauto|done]. }
  constructor; cbn; try done.
  - exists RUNNING, stk'. rewrite lookup_insert_eq. split; [done|]. apply fits_running. by eapply Hclean.
  - intros t. rewrite HR. destruct (decide (t = n)) as [->|Hne]; [rewrite lookup_insert_eq; split; [by intros [? _]|by intros (? & ?)]|].
    rewrite lookup_insert_ne by done. naive_solver.
  - intros s v q Hq. destruct (P4 s v q Hq) as (H1 & H2 & H3). split; [done|]. split; [done|]. intros t Ht.
    destruct (H3 t Ht) as (x & E & Hx). destruct (Hblk t x E) as (_ & x1 & E1 & Hw). exists x1. split; [done|]. by apply Hw.
  - intros t x. destruct (decide (t = n)) as [->|Hne]; [by rewrite lookup_insert_eq|]. rewrite lookup_insert_ne by done. unfold thr1.
    destruct (decide (t = cur c)) as [->|Hne']; [|rewrite lookup_insert_ne by done; apply P5].
    rewrite lookup_insert_eq. intros [= -> <-]. destruct Hst as [<-|[? ?]]; [|done]. by apply (P5 _ stk).
  - intros t x. destruct (decide (t = n)) as [->|Hne]; [done|]. rewrite lookup_insert_ne by done. unfold thr1.
    destruct (decide (t = cur c)) as [->|Hne']; [rewrite lookup_insert_eq; intros [= -> _]; done|]. rewrite lookup_insert_ne by done.
    intros E. by destruct (Hne' (P6 t x E)).
  - intros t s x E. destruct (Hfin _ _ _ E) as (s0 & E0 & _). destruct (Hclean _ _ _ E0) as [H _]. split; [by apply no_sleep_tail|done].
  - assert (n <> 0) as H1 by (intros ->; congruence). assert (cur c <> 0) as H2 by (intros E; rewrite E in Hc; congruence).
    unfold thr1. by rewrite !lookup_insert_ne.
  - destruct Hdead as [|[H1 (x & H2)]]; [by left|right]. split; [done|]. exists x. by rewrite lookup_insert_ne.
  - intros t s x y E H1 H2. destruct (Hfin _ _ _ E) as (s0 & E0 & _). destruct (Hold _ _ _ E0) as (s1 & x0 & E1 & Hm).
    destruct (P11 _ _ _ y E1 (Hm y H1 H2) H2) as [Hi Hu]. split; [done|]. intros t' s' x' E' H3.
    destruct (Hfin _ _ _ E') as (s2 & E2 & _). destruct (Hold _ _ _ E2) as (s3 & x3 & E3 & Hm3). by apply (Hu t' s3 x3), Hm3.
  - intros t s x E. destruct (Hfin _ _ _ E) as (s0 & E0 & _). by apply (Hclean _ _ _ E0).
Qed.

Lemma placed_sleeps c st b rest n r d st' stk' : placed L c -> thr c !! cur c = Some (st, MSleep b :: rest) -> ready c = n :: r ->
  (if b then dead c = 0 /\ d = cur c else d = dead c) -> (<[cur c := (st, MSwitched :: rest)]> (thr c)) !! n = Some (st', stk') ->
  placed L (MkCore n (<[n := (RUNNING, stk')]> (<[cur c := (st, MSwitched :: rest)]> (thr c))) r (sem c) (lck c) (cond c) d).
Proof.
  intros Hp Hc Hr Hd Hn. destruct (placed_cur c _ _ Hp Hc) as (Hf & Hns & Hdl). cbn in Hf, Hns.
  apply deletes_last_cons in Hdl as [Hdl _].
  pose proof (pl_nodup _ _ Hp) as Hnd. rewrite Hr in Hnd. apply NoDup_cons in Hnd as [Hnr Hnd].
  assert (n ∈ ready c) as Hin by (rewrite Hr; apply list_elem_of_here).
  apply (placed_switch c st (MSleep b :: rest) st (MSwitched :: rest) n st' stk' r d Hp Hc Hin); try done.
  - destruct b; [congruence|]. by destruct Hf as [-> | ->].
  - by left.
  - by constructor.
  - by apply deletes_last_cons.
  - intros s. rewrite !mentions_cons. cbn. naive_solver.
  - intros _ s (m & o & x & [= <- ->] & _). exists MSwitched, o, x. split; [done|by left].
  - intros t. destruct (decide (t = n)) as [->|Hne]; [split; [done|by intros [? _]]|].
    assert (t ∈ r <-> t ∈ ready c) as -> by (rewrite Hr, elem_of_cons; naive_solver). rewrite (pl_ready _ _ Hp).
    destruct (decide (t = cur c)) as [->|Hne']; [|by rewrite lookup_insert_ne by done; naive_solver].
    rewrite lookup_insert_eq, Hc. split; [intros (x & [= -> _]); eauto|intros [_ (x & [= -> _])]; eauto].
  - destruct b.
    + destruct Hd as [_ ->]. right. split; [|rewrite lookup_insert_eq; subst st; eauto]. intros <-.
      apply (pl_ready _ _ Hp) in Hin as (x & E). congruence.
    + subst d. destruct (pl_dead _ _ Hp) as [|[H1 (x & H2)]]; [by left|right]. split; [|exists x; by rewrite lookup_insert_ne].
      intros Heq. apply (pl_ready _ _ Hp) in Hin as (y & E). rewrite <- Heq in E. congruence.
Qed.

Lemma placed_yields c st o rest n r r' st' stk' : placed L c -> thr c !! cur c = Some (st, MYield :: rest) -> ready c = n :: r ->
  inserted (cur c) r r' -> cur c ∉ r ->
  (<[cur c := (READY, MSwitched :: MSetLevel o :: rest)]> (thr c)) !! n = Some (st', stk') ->
  placed L (MkCore n (<[n := (RUNNING, stk')]> (<[cur c := (READY, MSwitched :: MSetLevel o :: rest)]> (thr c))) r' (sem c) (lck c) (cond c) (dead c)).
Proof.
  intros Hp Hc Hr Hi Hnc Hn. destruct (placed_cur c _ _ Hp Hc) as (Hf & Hns & Hdl). cbn in Hf, Hns. subst st.
  apply deletes_last_cons in Hdl as [Hdl _]. apply inserted_perm in Hi.
  pose proof (pl_nodup _ _ Hp) as Hnd. rewrite Hr in Hnd. apply NoDup_cons in Hnd as [Hnr Hnd].
  assert (n ∈ ready c) as Hin by (rewrite Hr; apply list_elem_of_here).
  assert (cur c <> n) as Hcn. { intros Heq. apply (pl_ready _ _ Hp) in Hin as (x & E). rewrite <- Heq in E. congruence. }
  apply (placed_switch c RUNNING (MYield :: rest) READY (MSwitched :: MSetLevel o :: rest) n st' stk' r' (dead c) Hp Hc Hin); try done.
  - by right.
  - by repeat constructor.
  - by do 2 (apply deletes_last_cons; split; [|done]).
  - intros s. rewrite !mentions_cons. cbn. naive_solver.
  - rewrite Hi. by constructor.
  - intros t. rewrite Hi, elem_of_cons. destruct (decide (t = cur c)) as [->|Hne'].
    + rewrite lookup_insert_eq. split; [intros _; split; [done|eauto]|by left].
    + rewrite lookup_insert_ne by done. rewrite <- (pl_ready _ _ Hp), Hr, elem_of_cons.
      split; [intros [?|?]; [done|split; [by intros ->|by right]]|intros [? [?|?]]; [done|by right]].
  - destruct (pl_dead _ _ Hp) as [|[H1 (x & H2)]]; [by left|right]. split; [|exists x; by rewrite lookup_insert_ne].
    intros Heq. apply (pl_ready _ _ Hp) in Hin as (y & E). rewrite <- Heq in E. congruence.
Qed.

(** A new thread. *)
Lemma placed_new c t pc r : placed L c -> thr c !! t = None -> t <> 0 -> inserted t (ready c) r ->
  placed L (MkCore (cur c) (<[t := (READY, [MBegin; MCode pc; MFinish])]> (thr c)) r (sem c) (lck c) (cond c) (dead c)).
Proof.
  intros Hp Ht H0 Hi. apply inserted_perm in Hi. set (stk := [MBegin; MCode pc; MFinish]).
  pose proof Hp as [P1 P2 P3 P4 P5 P6 P7 P8 P9 P10 P11 P12 P13 P14].
  assert (clean L stk) as Hcl by (by repeat constructor).
  assert (t ∉ ready c) as Hnr by (intros (x & E)%P3; congruence).
  assert (forall t' e, thr c !! t' = Some e -> t' <> t) as Hne by (intros t' e E ->; congruence).
  constructor; cbn; try done.
  - destruct P1 as (st & x & Hc & Hf). exists st, x. rewrite lookup_insert_ne by (apply not_eq_sym; by eapply Hne). done.
  - rewrite Hi. by constructor.
  - intros t'. rewrite Hi, elem_of_cons, P3. destruct (decide (t' = t)) as [->|Hn].
    + rewrite lookup_insert_eq. split; [eauto|by left].
    + rewrite lookup_insert_ne by done. naive_solver.
  - intros s v q Hq. destruct (P4 s v q Hq) as (H1 & H2 & H3). split; [done|]. split; [done|]. intros t' Ht'.
    destruct (H3 t' Ht') as (x & E & Hw). exists x. rewrite lookup_insert_ne by (apply not_eq_sym; by eapply Hne). done.
  - intros t' x. destruct (decide (t' = t)) as [->|Hn]; [by rewrite lookup_insert_eq|]. rewrite lookup_insert_ne by done. apply P5.
  - intros t' x. destruct (decide (t' = t)) as [->|Hn]; [by rewrite lookup_insert_eq|]. rewrite lookup_insert_ne by done. apply P6.
  - intros t' st x. destruct (decide (t' = t)) as [->|Hn]; [|rewrite lookup_insert_ne by done; apply P7].
    rewrite lookup_insert_eq. intros [= <- <-]. split; [by repeat constructor|]. intros _. by apply (clean_no_sleep L).
  - by rewrite lookup_insert_ne.
  - destruct P9 as [|[H1 (x & H2)]]; [by left|right]. split; [done|]. exists x. rewrite lookup_insert_ne by (apply not_eq_sym; by eapply Hne). done.
  - intros t' st x s. destruct (decide (t' = t)) as [->|Hn].
    + rewrite lookup_insert_eq. intros [= <- <-] H1 H2. destruct H2. by apply (clean_mentions L stk).
    + rewrite lookup_insert_ne by done. intros E H1 H2. destruct (P11 _ _ _ s E H1 H2) as [Hs Hu]. split; [done|].
      intros t2 st2 x2. destruct (decide (t2 = t)) as [->|Hn2]; [|rewrite lookup_insert_ne by done; apply Hu].
      rewrite lookup_insert_eq. intros [= <- <-] H3. destruct H2. by apply (clean_mentions L stk).
  - intros t' st x. destruct (decide (t' = t)) as [->|Hn]; [|rewrite lookup_insert_ne by done; apply P12].
    rewrite lookup_insert_eq. intros [= <- <-]. apply (deletes_last_app L stk []); [done|apply deletes_last_nil].
Qed.

(** A thread that finished is deleted. *)
Lemma placed_destroys c : placed L c -> dead c <> 0 ->
  placed L (MkCore (cur c) (delete (dead c) (thr c)) (ready c) (sem c) (lck c) (cond c) 0).
Proof.
  intros Hp Hd. pose proof Hp as [P1 P2 P3 P4 P5 P6 P7 P8 P9 P10 P11 P12 P13 P14].
  destruct P9 as [|[Hdc (z & Hz)]]; [done|].
  assert (forall t e, delete (dead c) (thr c) !! t = Some e -> thr c !! t = Some e) as Hdel by (intros t e [_ E]%lookup_delete_Some; done).
  assert (forall t st x, thr c !! t = Some (st, x) -> st <> ZOMMBIE -> delete (dead c) (thr c) !! t = Some (st, x)) as Hkeep.
  { intros t st x E Hst. apply lookup_delete_Some. split; [|done]. intros <-. congruence. }
  constructor; cbn; try done.
  - destruct P1 as (st & x & Hc & Hf). exists st, x. split; [|done]. apply lookup_delete_Some. done.
  - intros t. rewrite P3. split; intros (x & E); exists x; [by apply Hkeep|by apply Hdel].
  - intros s v q Hq. destruct (P4 s v q Hq) as (H1 & H2 & H3). split; [done|]. split; [done|]. intros t Ht.
    destruct (H3 t Ht) as (x & E & Hw). exists x. split; [by apply Hkeep|done].
  - intros t x E%Hdel. by apply (P5 t x).
  - intros t x E%Hdel. by apply (P6 t x).
  - intros t st x E%Hdel. by apply (P7 t st).
  - apply lookup_delete_None. by right.
  - by left.
  - intros t st x s E%Hdel H1 H2. destruct (P11 _ _ _ s E H1 H2) as [Hi Hu]. split; [done|]. intros t' st' x' E'%Hdel. by apply (Hu t' st').
  - intros t st x E%Hdel. by apply (P12 t st).
Qed.

Lemma placed_finishes c st rest : placed L c -> thr c !! cur c = Some (st, MFinish :: rest) -> placed L (put_cur c ZOMMBIE (MSleep true :: rest)).
Proof.
  intros Hp Hc. destruct (placed_cur c _ _ Hp Hc) as (Hf & Hns & Hdl). cbn in Hf, Hns. subst st. apply deletes_last_cons in Hdl as [Hdl _].
  pose proof Hp as [P1 P2 P3 P4 P5 P6 P7 P8 P9 P10 P11 P12 P13 P14].
  assert (forall s, mentions s (MSleep true :: rest) -> mentions s (MFinish :: rest)) as Hm by (intros s; rewrite !mentions_cons; naive_solver).
  constructor; cbn; try done.
  - exists ZOMMBIE, (MSleep true :: rest). by rewrite lookup_insert_eq.
  - intros t. rewrite P3. destruct (decide (t = cur c)) as [->|Hne].
    + rewrite lookup_insert_eq, Hc. split; intros (x & E); discriminate E.
    + by rewrite lookup_insert_ne.
  - intros s v q Hq. destruct (P4 s v q Hq) as (Hv & Hn & Hw). split; [done|]. split; [done|]. intros t Ht.
    destruct (Hw t Ht) as (x & E & Hx). exists x. rewrite lookup_insert_ne; [done|]. intros <-. congruence.
  - intros t x. destruct (decide (t = cur c)) as [->|Hne]; [by rewrite lookup_insert_eq|]. rewrite lookup_insert_ne by done. apply P5.
  - intros t x. destruct (decide (t = cur c)) as [->|Hne]; [done|]. rewrite lookup_insert_ne by done. apply P6.
  - intros t st x. destruct (decide (t = cur c)) as [->|Hne]; [|rewrite lookup_insert_ne by done; apply P7].
    rewrite lookup_insert_eq. by intros [= <- <-].
  - rewrite lookup_insert_ne; [done|]. intros E. rewrite E in Hc. congruence.
  - destruct P9 as [|[H1 (x & H2)]]; [by left|right]. split; [done|]. exists x. by rewrite lookup_insert_ne.
  - intros t st x s. destruct (decide (t = cur c)) as [->|Hne].
    + rewrite lookup_insert_eq. intros [= <- <-] H1 H2. destruct (P11 _ _ _ s Hc (Hm s H1) H2) as [Hi Hu]. split; [done|].
      intros t' st' x'. destruct (decide (t' = cur c)); [done|]. rewrite lookup_insert_ne by done. apply Hu.
    + rewrite lookup_insert_ne by done. intros Ht H1 H2. destruct (P11 _ _ _ s Ht H1 H2) as [Hi Hu]. split; [done|].
      intros t' st' x'. destruct (decide (t' = cur c)) as [->|].
      * rewrite lookup_insert_eq. intros [= <- <-] H3. by apply (Hu _ _ _ Hc), Hm.
      * rewrite lookup_insert_ne by done. apply Hu.
  - intros t st x. destruct (decide (t = cur c)) as [->|Hne]; [|rewrite lookup_insert_ne by done; apply P12].
    rewrite lookup_insert_eq. intros [= <- <-]. by apply deletes_last_cons.
Qed.

(** A new semaphore, and one that no stack uses. *)
Lemma placed_new_sem c w : placed L c -> sem c !! w = None ->
  placed L (MkCore (cur c) (thr c) (ready c) (<[w := (0, [])]> (sem c)) (lck c) (cond c) (dead c)).
Proof.
  intros [P1 P2 P3 P4 P5 P6 P7 P8 P9 P10 P11 P12 P13 P14] Hw.
  assert (forall x, is_Some (sem c !! x) -> is_Some (<[w := (0, [])]> (sem c) !! x)) as His.
  { intros x Hx. destruct (decide (x = w)) as [->|Hne]; [rewrite lookup_insert_eq; eauto|]. by rewrite lookup_insert_ne. }
  constructor; cbn; try done.
  - intros s v q. destruct (decide (s = w)) as [->|Hne]; [|rewrite lookup_insert_ne by done; apply P4].
    rewrite lookup_insert_eq. intros [= <- <-]. split; [done|]. split; [constructor|]. intros t Ht. by apply not_elem_of_nil in Ht.
  - intros t stk E. destruct (P5 t stk E) as (s & v & q & Hs & Hin). exists s, v, q. rewrite lookup_insert_ne; [done|]. intros ->. congruence.
  - intros s Hs. by apply His, P10.
  - intros t st stk s E H1 H2. destruct (P11 t st stk s E H1 H2) as [Hi Hu]. split; [by apply His|done].
Qed.

Lemma placed_delete_sem c s : placed L c -> ~ statics L s -> (forall t st stk, thr c !! t = Some (st, stk) -> ~ mentions s stk) ->
  placed L (MkCore (cur c) (thr c) (ready c) (delete s (sem c)) (lck c) (cond c) (dead c)).
Proof.
  intros [P1 P2 P3 P4 P5 P6 P7 P8 P9 P10 P11 P12 P13 P14] Hs Hno. constructor; cbn; try done.
  - intros x v q [_ Hx]%lookup_delete_Some. by apply (P4 x).
  - intros t stk E. destruct (P5 t stk E) as (x & v & q & Hx & Hin). exists x, v, q. rewrite lookup_delete_ne; [done|]. intros <-.
    destruct (P4 s v q Hx) as (_ & _ & H). destruct (H t Hin) as (y & Ey & Hw). by apply (Hno _ _ _ Ey), waits_for_mentions.
  - intros x Hx. rewrite lookup_delete_ne; [by apply P10|]. by intros <-.
  - intros t st stk x E H1 H2. destruct (P11 t st stk x E H1 H2) as [Hi Hu]. split; [|done]. rewrite lookup_delete_ne; [done|].
    intros <-. by apply (Hno _ _ _ E).
Qed.

Lemma placed_waits c st cv l s rest w q : placed L c -> thr c !! cur c = Some (st, MWait cv l :: rest) -> lck c !! l = Some (cur c, s) ->
  sem c !! w = None -> cond c !! cv = Some q ->
  placed L (MkCore (cur c) (<[cur c := (st, MRelease l :: MP w :: MP s :: MHold l :: MDelete w :: rest)]> (thr c)) (ready c)
    (<[w := (0, [])]> (sem c)) (lck c) (<[cv := q ++ [w]]> (cond c)) (dead c)).
Proof.
  intros Hp Hc Hl Hw Hq. destruct (placed_cur c _ _ Hp Hc) as (Hf & Hns & Hdl). cbn in Hf, Hns. subst st. apply deletes_last_cons in Hdl as [Hdl _].
  assert (~ statics L w) as Hws by (intros [x E]%(pl_statics _ _ Hp); congruence).
  assert (forall t st stk, thr c !! t = Some (st, stk) -> ~ mentions w stk) as Hno.
  { intros t st stk E Hm. destruct (pl_mentions _ _ Hp _ _ _ w E Hm Hws) as [[x Ex] _]. congruence. }
  assert (statics L s) as Hs by (right; exists l; by apply (pl_locks _ _ Hp l (cur c))).
  set (c1 := MkCore (cur c) (thr c) (ready c) (<[w := (0, [])]> (sem c)) (lck c) (cond c) (dead c)).
  assert (placed L c1) as Hp1 by (by apply placed_new_sem).
  assert (placed L (MkCore (cur c1) (thr c1) (ready c1) (sem c1) (lck c1) (<[cv := q ++ [w]]> (cond c)) (dead c1))) as Hp2.
  { apply placed_locks; [done|apply Hp1|]. intros cv' q' x. destruct (decide (cv' = cv)) as [->|Hne].
    - rewrite lookup_insert_eq. intros [= <-] [Hx|Hx]%elem_of_app; [by apply (pl_conds _ _ Hp cv q)|]. by apply list_elem_of_singleton in Hx as ->.
    - rewrite lookup_insert_ne by done. apply (pl_conds _ _ Hp). }
  apply (placed_stack _ (MWait cv l :: rest) (MRelease l :: MP w :: MP s :: MHold l :: MDelete w :: rest) Hp2 Hc).
  - by repeat (apply Forall_cons; split; [done|]).
  - repeat (apply deletes_last_cons; split; [|done]). apply deletes_last_cons. split; [done|]. intros x [= <-]. split; [done|].
    intros Hm. apply (Hno _ _ _ Hc). apply mentions_cons. by right.
  - intros x Hm Hx. cbn. destruct (decide (x = w)) as [->|Hxw].
    { rewrite lookup_insert_eq. split; [eauto|]. intros t st y E Hy. by destruct (Hno _ _ _ E). }
    rewrite lookup_insert_ne by done. apply (pl_mentions _ _ Hp _ _ _ x Hc); [|done].
    rewrite !mentions_cons in Hm. cbn in Hm. apply mentions_cons. right. naive_solver.
Qed.

Lemma placed_deletes c st s rest : placed L c -> thr c !! cur c = Some (st, MDelete s :: rest) ->
  placed L (MkCore (cur c) (<[cur c := (st, rest)]> (thr c)) (ready c) (delete s (sem c)) (lck c) (cond c) (dead c)).
Proof.
  intros Hp Hc. pose proof (placed_replace c st _ rest [] Hp Hc eq_refl ltac:(constructor)) as Hp1.
  destruct (placed_cur c _ _ Hp Hc) as (_ & _ & Hdl). apply deletes_last_cons in Hdl as [_ Hdl]. destruct (Hdl s eq_refl) as [Hs Hno].
  apply (placed_delete_sem _ s Hp1 Hs). intros t st' stk. cbn. destruct (decide (t = cur c)) as [->|Hne].
  - rewrite lookup_insert_eq. intros [= <- <-]. done.
  - rewrite lookup_insert_ne by done. intros E Hm.
    assert (mentions s (MDelete s :: rest)) as Hms by (apply mentions_cons; by left).
    apply Hne, (proj2 (pl_mentions _ _ Hp _ _ _ s Hc Hms Hs) _ _ _ E Hm).
Qed.

(** ** Every step *)

Lemma v_keeps_cur s c c' stk : placed L c -> vstep s c c' -> thr c !! cur c = Some (RUNNING, stk) -> thr c' !! cur c' = Some (RUNNING, stk).
Proof.
  intros Hp Hv Hc. destruct Hv as [|c v t q st stk' r Hs Ht _ _]; [done|]. cbn. rewrite lookup_insert_ne; [done|]. intros ->.
  destruct (pl_queue _ _ Hp _ _ _ Hs) as (_ & _ & H). destruct (H (cur c)) as (x & E & _); [apply list_elem_of_here|]. congruence.
Qed.

Lemma cstep_placed c c' : cstep L c c' -> placed L c -> placed L c'.
Proof.
  intros Hstep Hp. destruct Hstep as [c st m rest ms Hc Ht|c c' s Hs Hv|c c' st s o rest Hc Hv|c st m s o rest q Hc Hm Hs|c st m s o rest v q Hc Hm Hs Hv
    |c st b rest n r d Hc Hr Hd st' stk' Hn|c st o rest n r r' st' stk' Hc Hr Hi Hn Hn'|c st pc rest t pc1 pc2 o r Hc Ht H0 Hi|c st m rest Hc Hm Hd|c st rest Hc
    |c st l h s rest Hc Hl|c st l s rest Hc Hl|c st cv l s rest w q Hc Hl Hw H0 Hq|c st cv l rest w q Hc Hq|c st s rest Hc].
  - apply (placed_replace c st m); [done|done|by inversion Ht|by eapply tau_clean].
  - by apply (placed_v s c).
  - destruct (placed_v s c c' Hv Hp) as [Hp' _]. destruct (placed_cur c _ _ Hp Hc) as (Hf & _). cbn in Hf. subst st.
    apply (placed_replace c' RUNNING (MV s) rest [MSetLevel o] Hp'); [by apply (v_keeps_cur s c)|done|by repeat constructor].
  - by apply (placed_blocks c st m).
  - pose proof (placed_value c s v (v - 1) q Hp Hs) as Hp1. destruct (pl_queue _ _ Hp _ _ _ Hs) as [Hv0 _]. specialize (Hp1 ltac:(lia)).
    apply (placed_replace _ st m rest [MSetLevel o] Hp1 Hc); [by destruct Hm as [-> | ->]|by repeat constructor].
  - by apply (placed_sleeps c st b rest n r d st').
  - by apply (placed_yields c st o rest n r r' st').
  - pose proof (placed_new c t pc1 r Hp Ht H0 Hi) as Hp1.
    apply (placed_replace _ st (MCode pc) rest [MYield; MSetLevel o; MCode pc2] Hp1); [|done|by repeat constructor].
    cbn. rewrite lookup_insert_ne; [done|]. intros ->. congruence.
  - by apply placed_destroys.
  - by apply (placed_finishes c st).
  - pose proof (placed_locks c _ (cond c) Hp (placed_lock c l h s (cur c) Hp Hl) (pl_conds _ _ Hp)) as Hp1.
    apply (placed_replace _ st (MHold l) rest [] Hp1 Hc); [done|constructor].
  - pose proof (placed_locks c _ (cond c) Hp (placed_lock c l (cur c) s 0 Hp Hl) (pl_conds _ _ Hp)) as Hp1.
    apply (placed_replace _ st (MRelease l) rest [MV s] Hp1 Hc); [done|by repeat constructor].
  - by apply placed_waits.
  - assert (placed L (MkCore (cur c) (thr c) (ready c) (sem c) (lck c) (<[cv := q]> (cond c)) (dead c))) as Hp1.
    { apply placed_locks; [done|apply Hp|]. intros cv' q' x. destruct (decide (cv' = cv)) as [->|Hne].
      - rewrite lookup_insert_eq. intros [= <-] Hx. apply (pl_conds _ _ Hp cv (w :: q)); [done|by apply list_elem_of_further].
      - rewrite lookup_insert_ne by done. apply (pl_conds _ _ Hp). }
    apply (placed_replace _ st (MSignal cv l) rest [MV w] Hp1 Hc); [done|by repeat constructor].
  - by apply placed_deletes.
Qed.
End Placed.

(** * No lost wakeups

    A thread is about to test semaphore [s] again when it was woken, or has not tested yet. *)

Definition retries (s : Z) stk : Prop := (exists o rest, stk = MPLoop s o :: rest) \/ waits_for s stk.

Definition active c (t s : Z) : Prop :=
  exists st stk, thr c !! t = Some (st, stk) /\ (st = READY \/ st = RUNNING) /\ retries s stk.

(** While threads wait for [s], at least as many others as its value are on their way to
    take it. *)
Definition awake c (s : Z) : Prop :=
  exists ws, NoDup ws /\ (forall t, t ∈ ws -> active c t s) /\ forall v q, sem c !! s = Some (v, q) -> q <> [] -> v <= Z.of_nat (length ws).

Section Awake.
Context (L : Layout).
Implicit Types (t s : Z).

Lemma retries_head s m rest : retries s (m :: rest) -> (exists o, m = MPLoop s o) \/ ((m = MSwitched \/ m = MSleep false) /\ exists o r, rest = MPLoop s o :: r).
Proof. intros [(o & r & [= -> ->])|(m' & o & r & [= -> ->] & H)]; [left|right]; eauto. Qed.

(** Nothing that [s] depends on changed. *)
Lemma awake_mono c c' s : awake c s -> (forall t, active c t s -> active c' t s) ->
  (forall v q, sem c' !! s = Some (v, q) -> q <> [] -> exists q0, sem c !! s = Some (v, q0) /\ q0 <> []) -> awake c' s.
Proof.
  intros (ws & Hnd & Hws & Hle) Ha Hs. exists ws. split; [done|]. split; [intros t Ht; by apply Ha, Hws|].
  intros v q Hq Hne. destruct (Hs v q Hq Hne) as (q0 & Hq0 & Hne0). by apply (Hle v q0).
Qed.

(** Threads other than the running one that keep their stacks, while it does not retry. *)
Lemma active_other c c' s st stk : thr c !! cur c = Some (st, stk) -> ~ retries s stk ->
  (forall t st0 x, t <> cur c -> thr c !! t = Some (st0, x) -> st0 = READY \/ st0 = RUNNING -> exists st1, thr c' !! t = Some (st1, x) /\ (st1 = READY \/ st1 = RUNNING)) ->
  forall t, active c t s -> active c' t s.
Proof.
  intros Hc Hn Ho t (st0 & x & E & Hst & Hr). destruct (decide (t = cur c)) as [->|Hne]; [rewrite Hc in E; by injection E as <- <-|].
  destruct (Ho t st0 x Hne E Hst) as (st1 & E1 & Hst1). by exists st1, x.
Qed.

Lemma active_put c s st stk st' stk' l cd r sm d : thr c !! cur c = Some (st, stk) -> ~ retries s stk ->
  forall t, active c t s -> active (MkCore (cur c) (<[cur c := (st', stk')]> (thr c)) r sm l cd d) t s.
Proof.
  intros Hc Hn. apply (active_other c _ s st stk Hc Hn). intros t st0 x Hne E Hst. exists st0. cbn. by rewrite lookup_insert_ne.
Qed.

Lemma awake_v s c c' : placed L c -> vstep s c c' -> forall x, awake c x -> awake c' x.
Proof.
  intros Hp Hv x Hx. destruct Hv as [c v Hs|c v t q st stk r Hs Ht Hi Hnr].
  - apply (awake_mono c); [done|done|]. cbn. intros v' q' Hq Hne. destruct (decide (x = s)) as [->|Hn].
    + rewrite lookup_insert_eq in Hq. injection Hq as <- <-. done.
    + rewrite lookup_insert_ne in Hq by done. eauto.
  - destruct (pl_queue _ _ Hp _ _ _ Hs) as (_ & _ & Hw). destruct (Hw t) as (stk' & E & Hwait); [apply list_elem_of_here|].
    rewrite Ht in E. injection E as -> <-.
    assert (forall u y, active c u y -> u <> t /\ active (MkCore (cur c) (<[t := (READY, stk)]> (thr c)) r (<[s := (v + 1, q)]> (sem c)) (lck c) (cond c) (dead c)) u y) as Hact.
    { intros u y (st0 & z & E & Hst & Hr). assert (u <> t) as Hne by (intros ->; rewrite Ht in E; injection E as <- _; by destruct Hst).
      split; [done|]. exists st0, z. cbn. by rewrite lookup_insert_ne. }
    destruct (decide (x = s)) as [->|Hxs].
    + destruct Hx as (ws & Hnd & Hws & Hle). exists (t :: ws). split; [|split].
      * constructor; [|done]. intros Hin. by destruct (Hact t s (Hws t Hin)).
      * intros u [->|Hu]%elem_of_cons; [|by apply Hact, Hws]. exists READY, stk. cbn. rewrite lookup_insert_eq. split; [done|]. split; [by left|by right].
      * cbn. intros v' q' Hq Hne. rewrite lookup_insert_eq in Hq. injection Hq as <- <-. specialize (Hle _ _ Hs ltac:(done)). cbn. lia.
    + apply (awake_mono c); [done|intros u Hu; by apply Hact|]. cbn. intros v' q' Hq Hne. rewrite lookup_insert_ne in Hq by done. eauto.
Qed.

Lemma no_retry_tau m ms rest s : tau L m ms -> retries s (m :: rest) -> m = MSwitched /\ ms = [] /\ exists o r, rest = MPLoop s o :: r.
Proof.
  intros Ht [(o & ->)|([-> | ->] & Hr)]%retries_head; inversion Ht; subst. done.
Qed.

(** A semaphore with the same queue, or one that is not waited for. *)
Lemma awake_takes c st m s o rest v q : placed L c -> thr c !! cur c = Some (st, m :: rest) -> m = MP s \/ m = MPLoop s o ->
  sem c !! s = Some (v, q) -> forall x, awake c x ->
  awake (MkCore (cur c) (<[cur c := (st, MSetLevel o :: rest)]> (thr c)) (ready c) (<[s := (v - 1, q)]> (sem c)) (lck c) (cond c) (dead c)) x.
Proof.
  intros Hp Hc Hm Hs x Hx. destruct (decide (x = s)) as [->|Hxs].
  - destruct Hx as (ws & Hnd & Hws & Hle). exists (filter (fun t => t <> cur c) ws). split; [by apply NoDup_filter|]. split.
    + intros t [Hne Ht]%list_elem_of_filter. destruct (Hws t Ht) as (st0 & y & E & H). exists st0, y. cbn. by rewrite lookup_insert_ne.
    + cbn. intros v' q' Hq Hne. rewrite lookup_insert_eq in Hq. injection Hq as <- <-. specialize (Hle _ _ Hs Hne).
      assert (length ws <= S (length (filter (fun t => t <> cur c) ws)))%nat; [|lia].
      clear -Hnd. induction Hnd as [|t ws Hn Hnd IH]; [cbn; lia|]. rewrite filter_cons. case_decide as Hd; cbn; [lia|].
      rewrite list_filter_all_true; [lia|]. apply Forall_forall. intros u Hu Heq. apply Hn. by rewrite Hd, <- Heq.
  - apply (awake_mono c); [done| |].
    + apply (active_put c x st (m :: rest)); [done|]. intros [(o' & E)|([E|E] & _)]%retries_head; destruct Hm; naive_solver.
    + cbn. intros v' q' Hq Hne. rewrite lookup_insert_ne in Hq by done. eauto.
Qed.

Lemma cstep_awake c c' : cstep L c c' -> placed L c -> forall x, awake c x -> awake c' x.
Proof.
  intros Hstep Hp x Hx. destruct Hstep as [c st m rest ms Hc Ht|c c' s Hs Hv|c c' st s o rest Hc Hv|c st m s o rest q Hc Hm Hs|c st m s o rest v q Hc Hm Hs Hv
    |c st b rest n r d Hc Hr Hd st' stk' Hn|c st o rest n r r' st' stk' Hc Hr Hi Hn Hn'|c st pc rest t pc1 pc2 o r Hc Ht H0 Hi|c st m rest Hc Hm Hd|c st rest Hc
    |c st l h s rest Hc Hl|c st l s rest Hc Hl|c st cv l s rest w q Hc Hl Hw H0 Hq|c st cv l rest w q Hc Hq|c st s rest Hc].
  all: assert (forall m0 rest0, (forall o, m0 <> MPLoop x o) -> m0 <> MSwitched -> m0 <> MSleep false -> ~ retries x (m0 :: rest0)) as Hnr
    by (intros m0 rest0 N1 N2 N3 [(o0 & E)|([E|E] & _)]%retries_head; [by apply (N1 o0)|done|done]).
  - apply (awake_mono c); [done| |eauto]. intros t (st0 & y & E & Hst & Hrt). destruct (decide (t = cur c)) as [->|Hne].
    + rewrite Hc in E. injection E as <- <-. destruct (no_retry_tau _ _ _ _ Ht Hrt) as (-> & -> & o & r & ->).
      exists st, (MPLoop x o :: r). cbn. rewrite lookup_insert_eq. split; [done|]. split; [done|]. left. eauto.
    + exists st0, y. cbn. by rewrite lookup_insert_ne.
  - by apply (awake_v s c).
  - pose proof (awake_v s c c' Hp Hv x Hx) as Hx'. destruct (placed_cur L c _ _ Hp Hc) as (Hf & _). cbn in Hf. subst st.
    pose proof (v_keeps_cur L s c c' _ Hp Hv Hc) as Hc'. apply (awake_mono c'); [done| |eauto].
    apply (active_put c' x RUNNING (MV s :: rest)); [done|by apply Hnr].
  - destruct (decide (x = s)) as [->|Hxs].
    + exists []. split; [constructor|]. split; [intros t Ht; by apply not_elem_of_nil in Ht|]. cbn. intros v' q' Hq' _.
      rewrite lookup_insert_eq in Hq'. by injection Hq' as <- <-.
    + apply (awake_mono c); [done| |].
      * apply (active_put c x st (m :: rest)); [done|]. intros [(o' & E)|([E|E] & _)]%retries_head; destruct Hm; naive_solver.
      * cbn. intros v' q' Hq' Hne. rewrite lookup_insert_ne in Hq' by done. eauto.
  - by apply (awake_takes c st m s o rest v q).
  - apply (awake_mono c); [done| |eauto]. intros t (st0 & y & E & Hst & Hrt). unfold active. cbn.
    assert (exists st1 y1, (<[cur c := (st, MSwitched :: rest)]> (thr c)) !! t = Some (st1, y1) /\ (st1 = READY \/ st1 = RUNNING) /\ retries x y1) as (st1 & y1 & E1 & Hst1 & Hrt1).
    { destruct (decide (t = cur c)) as [->|Hne]; [|rewrite lookup_insert_ne by done; eauto]. rewrite lookup_insert_eq. rewrite Hc in E. injection E as <- <-.
      exists st, (MSwitched :: rest). split; [done|]. split; [done|]. apply retries_head in Hrt as [(o & ?)|(_ & o & z & ->)]; [done|].
      right. exists MSwitched, o, z. split; [done|by left]. }
    destruct (decide (t = n)) as [->|Hne]; [|rewrite lookup_insert_ne by done; eauto]. rewrite lookup_insert_eq.
    rewrite Hn in E1. injection E1 as <- <-. exists RUNNING, stk'. split; [done|]. split; [by right|done].
  - apply (awake_mono c); [done| |eauto]. apply (active_other c _ x st (MYield :: rest)); [done|by apply Hnr|].
    intros t st0 y Hne E Hst. cbn. destruct (decide (t = n)) as [->|Hne']; [|exists st0; by rewrite !lookup_insert_ne].
    rewrite lookup_insert_eq. rewrite lookup_insert_ne in Hn' by done. rewrite E in Hn'. injection Hn' as <- <-. exists RUNNING. split; [done|by right].
  - apply (awake_mono c); [done| |eauto]. apply (active_other c _ x st (MCode pc :: rest)); [done|by apply Hnr|].
    intros t' st0 y Hne E Hst. cbn. exists st0. rewrite !lookup_insert_ne; [done| |done]. intros ->. congruence.
  - apply (awake_mono c); [done| |eauto]. intros t (st0 & y & E & Hst & Hrt). exists st0, y. split; [|done]. cbn. apply lookup_delete_Some.
    split; [|done]. intros <-. destruct (pl_dead _ _ Hp) as [|[_ (z & Hz)]]; [done|]. rewrite Hz in E. injection E as <- _. by destruct Hst.
  - apply (awake_mono c); [done| |eauto]. apply (active_put c x st (MFinish :: rest)); [done|by apply Hnr].
  - apply (awake_mono c); [done| |eauto]. apply (active_put c x st (MHold l :: rest)); [done|by apply Hnr].
  - apply (awake_mono c); [done| |eauto]. apply (active_put c x st (MRelease l :: rest)); [done|by apply Hnr].
  - apply (awake_mono c); [done| |].
    + apply (active_put c x st (MWait cv l :: rest)); [done|by apply Hnr].
    + cbn. intros v' q' Hq' Hne. destruct (decide (x = w)) as [->|Hxw]; [rewrite lookup_insert_eq in Hq'; by injection Hq' as <- <-|].
      rewrite lookup_insert_ne in Hq' by done. eauto.
  - apply (awake_mono c); [done| |eauto]. apply (active_put c x st (MSignal cv l :: rest)); [done|by apply Hnr].
  - apply (awake_mono c); [done| |].
    + apply (active_put c x st (MDelete s :: rest)); [done|by apply Hnr].
    + cbn. intros v' q' [_ Hq']%lookup_delete_Some Hne. eauto.
Qed.
End Awake.

(** * Locks exclude

    The right to a lock is in one place: in its semaphore, with its holder, or in the stack
    of one thread, between the P and the assignment of the holder, or between the release
    and the V. *)

Inductive place := AtSemaphore | AtHolder | AtThread (t : Z) | Lost.

#[export] Instance place_eq_dec : EqDecision place.
Proof. solve_decision. Defined.

Definition Layout_ok (L : Layout) : Prop :=
  (forall l l' s, lock_of L !! l = Some s -> lock_of L !! l' = Some s -> l = l') /\ (forall l s, lock_of L !! l = Some s -> s ∉ plain L).

Definition one (b : bool) : Z := if b then 1 else 0.

(** What a piece of code still to be executed is worth. *)
Definition weight (l s : Z) (m : micro) : Z :=
  match m with
  | MHold l' => one (bool_decide (l' = l))
  | MV x => one (bool_decide (x = s))
  | MP x | MPLoop x _ => - one (bool_decide (x = s))
  | _ => 0
  end.

Fixpoint tokens (l s : Z) stk : Z := match stk with [] => 0 | m :: r => weight l s m + tokens l s r end.
Fixpoint nonneg (l s : Z) stk : Prop := match stk with [] => True | m :: r => 0 <= tokens l s (m :: r) /\ nonneg l s r end.

Record lock_at (c : Core) (l s : Z) (p : place) : Prop := {
  la_stack t st stk : thr c !! t = Some (st, stk) -> tokens l s stk = one (bool_decide (p = AtThread t)) /\ nonneg l s stk;
  la_thread t : p = AtThread t -> is_Some (thr c !! t);
  la_value v q : sem c !! s = Some (v, q) -> v = one (bool_decide (p = AtSemaphore));
  la_holder h s' : lck c !! l = Some (h, s') -> h <> 0 <-> p = AtHolder
}.

Section Locks.
Context (L : Layout) (HL : Layout_ok L) (l s : Z) (Hls : lock_of L !! l = Some s).
Implicit Types (t : Z).

Lemma one_range b : 0 <= one b <= 1.
Proof. destruct b; cbn; lia. Qed.

Lemma nonneg_tokens stk : nonneg l s stk -> 0 <= tokens l s stk.
Proof. destruct stk; cbn; [lia|tauto]. Qed.

Lemma plain_other x : x ∈ plain L -> bool_decide (x = s) = false.
Proof. intros Hx. apply bool_decide_eq_false. intros ->. by apply (proj2 HL l s). Qed.

Lemma nonstatic_other x : ~ statics L x -> bool_decide (x = s) = false.
Proof. intros Hx. apply bool_decide_eq_false. intros ->. apply Hx. right. by exists l. Qed.

(** Pieces worth nothing. *)
Definition worthless (m : micro) (ms : list micro) : Prop :=
  weight l s m = 0 /\ forall rest, nonneg l s rest -> tokens l s (ms ++ rest) = tokens l s rest /\ nonneg l s (ms ++ rest).

Lemma user_worthless ms rest : user_micro L ms -> nonneg l s rest -> tokens l s (ms ++ rest) = tokens l s rest /\ nonneg l s (ms ++ rest).
Proof.
  intros Hu Hr. pose proof (nonneg_tokens rest Hr) as H0.
  induction Hu as [| |x Hx|x Hx|l' x more Hx _ [IH1 IH2]| | | |? ? ? _ [IH1 IH2]| |? ? ? _ [IH1 IH2]|? ? _ [IH1 IH2]|? ? _ [IH1 IH2]|? ? ? _ [IH1 IH2]]; cbn;
    try (rewrite plain_other by done; cbn); try (split; [lia|]; split; [lia|done]); try done.
  - assert (bool_decide (x = s) = bool_decide (l' = l)) as Heq.
    { apply bool_decide_ext. split; [intros ->; by apply (proj1 HL l' l s)|]. intros ->. congruence. }
    rewrite Heq. pose proof (one_range (bool_decide (l' = l))). split; [lia|]. split; [lia|]. split; [lia|done].
Qed.

Lemma tau_worthless m ms : tau L m ms -> worthless m ms.
Proof.
  intros Ht. split; [by destruct Ht|]. intros rest Hr. pose proof (nonneg_tokens rest Hr) as H0.
  destruct Ht as [| | | | | |pc ms more Hu [->|(pc' & ->)]| | | | | | | |]; cbn; try (split; [lia|]; repeat (split; [lia|]); done).
  - rewrite app_nil_r. by apply user_worthless.
  - rewrite <- app_assoc. cbn. assert (nonneg l s (MCode pc' :: rest)) as Hr' by (split; [cbn; lia|done]).
    destruct (user_worthless ms (MCode pc' :: rest) Hu Hr') as [-> H]. done.
Qed.

(** The running thread's stack changed, and the right moved from [p] to [p']. *)
Lemma lock_moves c p p' st stk st' stk' r sm l' cd d : lock_at c l s p -> thr c !! cur c = Some (st, stk) ->
  nonneg l s stk' -> tokens l s stk' = one (bool_decide (p' = AtThread (cur c))) ->
  (forall t, t <> cur c -> (p' = AtThread t <-> p = AtThread t)) ->
  (forall v q, sm !! s = Some (v, q) -> v = one (bool_decide (p' = AtSemaphore))) ->
  (forall h s', l' !! l = Some (h, s') -> h <> 0 <-> p' = AtHolder) ->
  lock_at (MkCore (cur c) (<[cur c := (st', stk')]> (thr c)) r sm l' cd d) l s p'.
Proof.
  intros [H1 H2 H3 H4] Hc Hn Ht Hp Hv Hh. constructor; cbn; try done.
  - intros t st0 x. destruct (decide (t = cur c)) as [->|Hne]; [rewrite lookup_insert_eq; by intros [= <- <-]|].
    rewrite lookup_insert_ne by done. intros E. destruct (H1 t st0 x E) as [-> Hx]. split; [|done]. f_equal. apply bool_decide_ext. symmetry. by apply Hp.
  - intros t ->. destruct (decide (t = cur c)) as [->|Hne]; [rewrite lookup_insert_eq; eauto|]. rewrite lookup_insert_ne by done.
    apply H2. by apply Hp.
Qed.

(** The running thread's stack changed and is worth the same. *)
Lemma lock_stays c p st stk st' stk' r sm cd d : lock_at c l s p -> thr c !! cur c = Some (st, stk) ->
  nonneg l s stk' -> tokens l s stk' = tokens l s stk -> (forall v q, sm !! s = Some (v, q) -> exists q0, sem c !! s = Some (v, q0)) ->
  lock_at (MkCore (cur c) (<[cur c := (st', stk')]> (thr c)) r sm (lck c) cd d) l s p.
Proof.
  intros Hl Hc Hn Ht Hv. apply (lock_moves c p p st stk); try done.
  - rewrite Ht. by apply (la_stack _ _ _ _ Hl _ _ _ Hc).
  - intros v q Hq. destruct (Hv v q Hq) as (q0 & Hq0). by apply (la_value _ _ _ _ Hl v q0).
  - apply (la_holder _ _ _ _ Hl).
Qed.

Lemma lock_v c c' x p : vstep x c c' -> x <> s -> lock_at c l s p -> lock_at c' l s p.
Proof.
  intros Hv Hx [H1 H2 H3 H4]. destruct Hv as [c v Hs|c v t q st stk r Hs Ht _ _]; constructor; cbn; try done.
  - intros v' q'. rewrite lookup_insert_ne by done. apply H3.
  - intros t' st' y. destruct (decide (t' = t)) as [->|Hne]; [|rewrite lookup_insert_ne by done; apply H1].
    rewrite lookup_insert_eq. intros [= <- <-]. by apply (H1 t st).
  - intros t' E. destruct (decide (t' = t)) as [->|Hne]; [rewrite lookup_insert_eq; eauto|]. rewrite lookup_insert_ne by done. by apply H2.
  - intros v' q'. rewrite lookup_insert_ne by done. apply H3.
Qed.

(** V on the lock's own semaphore, before the stack changes: the value is one more. *)
Lemma lock_v_own c c' p : vstep s c c' -> lock_at c l s p ->
  (forall t st stk, thr c' !! t = Some (st, stk) -> exists st0, thr c !! t = Some (st0, stk)) /\
  (forall t, is_Some (thr c !! t) -> is_Some (thr c' !! t)) /\ lck c' = lck c /\ exists v q q', sem c !! s = Some (v, q) /\ sem c' !! s = Some (v + 1, q').
Proof.
  intros Hv _. destruct Hv as [c v Hs|c v t q st stk r Hs Ht _ _]; cbn.
  - split; [eauto|]. split; [done|]. split; [done|]. exists v, [], []. by rewrite lookup_insert_eq.
  - split; [|split; [|split; [done|]]].
    + intros t' st' y. destruct (decide (t' = t)) as [->|Hne]; [rewrite lookup_insert_eq; intros [= <- <-]; eauto|]. rewrite lookup_insert_ne by done. eauto.
    + intros t' H. destruct (decide (t' = t)) as [->|Hne]; [rewrite lookup_insert_eq; eauto|]. by rewrite lookup_insert_ne.
    + exists v, (t :: q), q. by rewrite lookup_insert_eq.
Qed.

(** The running thread is about to do something worth one: the right is with it. *)
Lemma right_here c p st m rest : lock_at c l s p -> thr c !! cur c = Some (st, m :: rest) -> weight l s m = 1 ->
  p = AtThread (cur c) /\ tokens l s rest = 0 /\ nonneg l s rest.
Proof.
  intros Hl Hc Hw. destruct (la_stack _ _ _ _ Hl _ _ _ Hc) as [Ht [_ Hn]]. cbn in Ht. pose proof (nonneg_tokens rest Hn).
  destruct (bool_decide (p = AtThread (cur c))) eqn:Hb; cbn in Ht; [|lia]. apply bool_decide_eq_true in Hb. split; [done|]. split; [lia|done].
Qed.

Lemma lock_sem_signals c c' o rest p : placed L c -> vstep s c c' -> thr c !! cur c = Some (RUNNING, MV s :: rest) -> lock_at c l s p ->
  lock_at (put_cur c' RUNNING (MSetLevel o :: rest)) l s AtSemaphore.
Proof.
  intros Hp Hv Hc Hl. pose proof (v_keeps_cur L s c c' _ Hp Hv Hc) as Hc'.
  destruct (right_here c p RUNNING (MV s) rest Hl Hc) as (-> & Ht & Hn); [cbn; by rewrite bool_decide_eq_true_2|].
  destruct (lock_v_own c c' _ Hv Hl) as (Hold & Hdom & Hlck & v & q & q' & Hs & Hs'). destruct (placed_v L s c c' Hv Hp) as [_ Hcur].
  pose proof (la_value _ _ _ _ Hl v q Hs) as Hv0. rewrite bool_decide_eq_false_2 in Hv0 by done. cbn in Hv0. subst v.
  constructor; cbn; try done.
  - intros t st stk. destruct (decide (t = cur c')) as [->|Hne].
    + rewrite lookup_insert_eq. intros [= <- <-]. cbn. rewrite Ht. split; [done|]. split; [lia|done].
    + rewrite lookup_insert_ne by done. intros E. destruct (Hold _ _ _ E) as (st0 & E0). destruct (la_stack _ _ _ _ Hl _ _ _ E0) as [-> H].
      split; [|done]. assert (bool_decide (AtThread (cur c) = AtThread t) = false) as -> by (apply bool_decide_eq_false_2; congruence). done.
  - intros v' q''. rewrite Hs'. by intros [= <- <-].
  - intros h s'. rewrite Hlck. intros E. rewrite (la_holder _ _ _ _ Hl _ _ E). split; done.
Qed.

Lemma lock_sem_takes c st m o rest v q p : thr c !! cur c = Some (st, m :: rest) -> m = MP s \/ m = MPLoop s o -> sem c !! s = Some (v, q) -> v <> 0 ->
  lock_at c l s p ->
  lock_at (MkCore (cur c) (<[cur c := (st, MSetLevel o :: rest)]> (thr c)) (ready c) (<[s := (v - 1, q)]> (sem c)) (lck c) (cond c) (dead c)) l s (AtThread (cur c)).
Proof.
  intros Hc Hm Hs Hv Hl. pose proof (la_value _ _ _ _ Hl v q Hs) as Hval.
  destruct (bool_decide (p = AtSemaphore)) eqn:Hb; cbn in Hval; [|lia]. apply bool_decide_eq_true in Hb. subst p v.
  destruct (la_stack _ _ _ _ Hl _ _ _ Hc) as [Ht [_ Hn]]. cbn in Ht. rewrite bool_decide_eq_false_2 in Ht by done.
  assert (weight l s m = -1) as Hw by (destruct Hm as [-> | ->]; cbn; by rewrite bool_decide_eq_true_2). rewrite Hw in Ht. cbn in Ht.
  apply (lock_moves c AtSemaphore (AtThread (cur c)) st (m :: rest)); try done.
  - split; [cbn; lia|done].
  - cbn. rewrite bool_decide_eq_true_2 by done. cbn. lia.
  - intros t Hne. split; [by intros [= <-]|done].
  - intros v' q'. rewrite lookup_insert_eq. by intros [= <- <-].
  - intros h s' E. rewrite (la_holder _ _ _ _ Hl _ _ E). split; done.
Qed.

Lemma lock_holds c st rest h p : placed L c -> thr c !! cur c = Some (st, MHold l :: rest) -> lck c !! l = Some (h, s) -> lock_at c l s p ->
  h = 0 /\ lock_at (MkCore (cur c) (<[cur c := (st, rest)]> (thr c)) (ready c) (sem c) (<[l := (cur c, s)]> (lck c)) (cond c) (dead c)) l s AtHolder.
Proof.
  intros Hp Hc Hh Hl. destruct (right_here c p st (MHold l) rest Hl Hc) as (-> & Ht & Hn); [cbn; by rewrite bool_decide_eq_true_2|].
  assert (cur c <> 0) as Hc0 by (intros E; rewrite E in Hc; pose proof (pl_null _ _ Hp); congruence). split.
  - destruct (decide (h = 0)) as [|Hne]; [done|]. by apply (la_holder _ _ _ _ Hl _ _ Hh) in Hne.
  - apply (lock_moves c (AtThread (cur c)) AtHolder st (MHold l :: rest)); try done.
    + intros t Hne. split; [done|]. by intros [= <-].
    + intros v q Hs. rewrite (la_value _ _ _ _ Hl v q Hs). done.
    + intros h' s'. rewrite lookup_insert_eq. by intros [= <- <-].
Qed.

Lemma lock_releases c st rest p : placed L c -> thr c !! cur c = Some (st, MRelease l :: rest) -> lck c !! l = Some (cur c, s) -> lock_at c l s p ->
  lock_at (MkCore (cur c) (<[cur c := (st, MV s :: rest)]> (thr c)) (ready c) (sem c) (<[l := (0, s)]> (lck c)) (cond c) (dead c)) l s (AtThread (cur c)).
Proof.
  intros Hp Hc Hh Hl. assert (cur c <> 0) as Hc0 by (intros E; rewrite E in Hc; pose proof (pl_null _ _ Hp); congruence).
  apply (la_holder _ _ _ _ Hl _ _ Hh) in Hc0 as ->. destruct (la_stack _ _ _ _ Hl _ _ _ Hc) as [Ht [_ Hn]]. cbn in Ht.
  rewrite bool_decide_eq_false_2 in Ht by done. cbn in Ht.
  apply (lock_moves c AtHolder (AtThread (cur c)) st (MRelease l :: rest)); try done.
  - split; [|done]. cbn. rewrite bool_decide_eq_true_2 by done. cbn. lia.
  - cbn. rewrite !bool_decide_eq_true_2 by done. cbn. lia.
  - intros t Hne. split; [by intros [= <-]|done].
  - intros v q Hs. by rewrite (la_value _ _ _ _ Hl v q Hs).
  - intros h' s'. rewrite lookup_insert_eq. by intros [= <- <-].
Qed.

Lemma lock_switch c st stk st1 stk1 n st' stk' r d p : lock_at c l s p -> thr c !! cur c = Some (st, stk) ->
  nonneg l s stk1 -> tokens l s stk1 = tokens l s stk ->
  (<[cur c := (st1, stk1)]> (thr c)) !! n = Some (st', stk') ->
  lock_at (MkCore n (<[n := (RUNNING, stk')]> (<[cur c := (st1, stk1)]> (thr c))) r (sem c) (lck c) (cond c) d) l s p.
Proof.
  intros Hl Hc Hn Ht E. pose proof (lock_stays c p st stk st1 stk1 r (sem c) (cond c) d Hl Hc Hn Ht ltac:(eauto)) as [H1 H2 H3 H4]. cbn in H1, H2, H3, H4.
  constructor; cbn; try done.
  - intros t st0 x. destruct (decide (t = n)) as [->|Hne]; [|rewrite lookup_insert_ne by done; apply H1].
    rewrite lookup_insert_eq. intros [= <- <-]. by apply (H1 n st').
  - intros t Hp. destruct (decide (t = n)) as [->|Hne]; [rewrite lookup_insert_eq; eauto|]. rewrite lookup_insert_ne by done. by apply H2.
Qed.

Lemma lock_new c t stk r p : lock_at c l s p -> thr c !! t = None -> tokens l s stk = 0 -> nonneg l s stk ->
  lock_at (MkCore (cur c) (<[t := (READY, stk)]> (thr c)) r (sem c) (lck c) (cond c) (dead c)) l s p.
Proof.
  intros [H1 H2 H3 H4] Ht H0 Hn. constructor; cbn; try done.
  - intros t' st x. destruct (decide (t' = t)) as [->|Hne]; [|rewrite lookup_insert_ne by done; apply H1].
    rewrite lookup_insert_eq. intros [= <- <-]. rewrite bool_decide_eq_false_2; [done|]. intros Hp. destruct (H2 t Hp). congruence.
  - intros t' Hp. destruct (decide (t' = t)) as [->|Hne]; [rewrite lookup_insert_eq; eauto|]. rewrite lookup_insert_ne by done. by apply H2.
Qed.

(** The right dies with a thread that has it. *)
Lemma lock_destroys c p : lock_at c l s p ->
  lock_at (MkCore (cur c) (delete (dead c) (thr c)) (ready c) (sem c) (lck c) (cond c) 0) l s (if decide (p = AtThread (dead c)) then Lost else p).
Proof.
  intros [H1 H2 H3 H4]. destruct (decide (p = AtThread (dead c))) as [Hd|Hd].
  - subst p. constructor; cbn; try done.
    + intros t st x [Hne E]%lookup_delete_Some. destruct (H1 _ _ _ E) as [-> H]. rewrite bool_decide_eq_false_2 by congruence. done.
    + intros h s' E. rewrite (H4 _ _ E). split; done.
  - constructor; cbn; try done.
    + intros t st x [Hne E]%lookup_delete_Some. by apply (H1 _ _ _ E).
    + intros t ->. destruct (H2 t eq_refl) as [e E]. exists e. apply lookup_delete_Some. split; [|done]. by intros <-.
Qed.

Lemma lock_other c l' h h' s' r sm cd d m st st0 stk stk0 p : lock_at c l s p -> placed L c -> l' <> l -> lck c !! l' = Some (h, s') ->
  thr c !! cur c = Some (st, m :: stk) -> m = m -> nonneg l s stk0 -> tokens l s stk0 = tokens l s (m :: stk) ->
  (forall v q, sm !! s = Some (v, q) -> exists q0, sem c !! s = Some (v, q0)) ->
  lock_at (MkCore (cur c) (<[cur c := (st0, stk0)]> (thr c)) r sm (<[l' := (h', s')]> (lck c)) cd d) l s p.
Proof.
  intros Hl Hp Hne Hh Hc _ Hn Ht Hs. apply (lock_moves c p p st (m :: stk)); try done.
  - rewrite Ht. by apply (la_stack _ _ _ _ Hl _ _ _ Hc).
  - intros v q Hq. destruct (Hs v q Hq) as (q0 & Hq0). by apply (la_value _ _ _ _ Hl v q0).
  - intros h0 s0. rewrite lookup_insert_ne by done. apply (la_holder _ _ _ _ Hl).
Qed.

Lemma cstep_lock c c' p : cstep L c c' -> placed L c -> lock_at c l s p -> exists p', lock_at c' l s p'.
Proof.
  intros Hstep Hp Hl. destruct Hstep as [c st m rest ms Hc Ht|c c' x Hx Hv|c c' st x o rest Hc Hv|c st m x o rest q Hc Hm Hs|c st m x o rest v q Hc Hm Hs Hv
    |c st b rest n r d Hc Hr Hd st' stk' Hn|c st o rest n r r' st' stk' Hc Hr Hi Hn Hn'|c st pc rest t pc1 pc2 o r Hc Ht H0 Hi|c st m rest Hc Hm Hd|c st rest Hc
    |c st l' h x rest Hc Hh|c st l' x rest Hc Hh|c st cv l' x rest w q Hc Hh Hw H0 Hq|c st cv l' rest w q Hc Hq|c st x rest Hc].
  all: try (destruct (la_stack _ _ _ _ Hl _ _ _ Hc) as [Htok [Hpos Hnn]]; cbn [tokens] in Htok, Hpos).
  all: try pose proof (nonneg_tokens rest Hnn) as Hrest.
  - exists p. destruct (tau_worthless m ms Ht) as [Hw Hms]. destruct (Hms rest Hnn) as [E1 E2].
    apply (lock_stays c p st (m :: rest)); [done|done|done|cbn; lia|eauto].
  - exists p. apply (lock_v c c' x); [done| |done]. intros ->. by apply (proj2 HL l s).
  - destruct (placed_cur L c _ _ Hp Hc) as (Hf & _). cbn in Hf. subst st. destruct (decide (x = s)) as [->|Hxs].
    + exists AtSemaphore. by apply (lock_sem_signals c c' o rest p).
    + exists p. pose proof (lock_v c c' x p Hv Hxs Hl) as Hl'. pose proof (v_keeps_cur L x c c' _ Hp Hv Hc) as Hc'.
      apply (lock_stays c' p RUNNING (MV x :: rest)); [done|done|split; [cbn; lia|done]| |eauto]. cbn. rewrite bool_decide_eq_false_2 by done. done.
  - exists p. assert (weight l s m = weight l s (MPLoop x o)) as Hw by (by destruct Hm as [-> | ->]). rewrite Hw in *.
    apply (lock_stays c p st (m :: rest)); [done|done| | |].
    + cbn [nonneg tokens weight] in *. split; [lia|]. done.
    + cbn [tokens weight] in *. rewrite Hw. cbn. lia.
    + intros v0 q0. destruct (decide (s = x)) as [->|Hne]; [rewrite lookup_insert_eq; intros [= <- <-]; eauto|]. rewrite lookup_insert_ne by done. eauto.
  - destruct (decide (x = s)) as [->|Hxs]; [exists (AtThread (cur c)); by apply (lock_sem_takes c st m o rest v q p)|]. exists p.
    assert (weight l s m = 0) as Hw by (destruct Hm as [-> | ->]; cbn; by rewrite bool_decide_eq_false_2). rewrite Hw in *.
    apply (lock_stays c p st (m :: rest)); [done|done|split; [cbn; lia|done]|cbn; lia|].
    intros v0 q0. rewrite lookup_insert_ne by done. eauto.
  - exists p. apply (lock_switch c st (MSleep b :: rest) st (MSwitched :: rest) n st'); done.
  - exists p. apply (lock_switch c st (MYield :: rest) READY (MSwitched :: MSetLevel o :: rest) n st'); done.
  - exists p. pose proof (lock_new c t [MBegin; MCode pc1; MFinish] r p Hl Ht eq_refl ltac:(cbn; lia)) as Hl1.
    apply (lock_stays _ p st (MCode pc :: rest) st (MYield :: MSetLevel o :: MCode pc2 :: rest) r (sem c) (cond c) (dead c) Hl1).
    + cbn. rewrite lookup_insert_ne; [done|]. intros ->. congruence.
    + repeat (split; [cbn; lia|]). done.
    + done.
    + eauto.
  - eexists. by apply lock_destroys.
  - exists p. apply (lock_stays c p st (MFinish :: rest)); [done|done|split; [cbn; lia|done]|done|eauto].
  - pose proof (pl_locks _ _ Hp _ _ _ Hh) as Hlo. destruct (decide (l' = l)) as [->|Hne].
    + assert (x = s) as -> by congruence. exists AtHolder. by apply (lock_holds c st rest h p).
    + exists p. cbn in Htok. rewrite bool_decide_eq_false_2 in Htok by done.
      apply (lock_other c l' h (cur c) x _ _ _ _ (MHold l') st st rest rest p); try done; [|eauto]. cbn. by rewrite bool_decide_eq_false_2.
  - pose proof (pl_locks _ _ Hp _ _ _ Hh) as Hlo. destruct (decide (l' = l)) as [->|Hne].
    + assert (x = s) as -> by congruence. exists (AtThread (cur c)). by apply (lock_releases c st rest p).
    + exists p. assert (bool_decide (x = s) = false) as Hb by (apply bool_decide_eq_false_2; intros ->; apply Hne; by apply (proj1 HL l' l s)).
      apply (lock_other c l' (cur c) 0 x _ _ _ _ (MRelease l') st st rest (MV x :: rest) p); try done; [| |eauto].
      * cbn. rewrite Hb. cbn. split; [lia|done].
      * cbn. by rewrite Hb.
  - exists p. pose proof (pl_locks _ _ Hp _ _ _ Hh) as Hlo.
    assert (w <> s) as Hws. { intros ->. destruct (pl_statics _ _ Hp s) as [z Hz]; [right; by exists l|]. congruence. }
    assert (bool_decide (x = s) = bool_decide (l' = l)) as Hb.
    { apply bool_decide_ext. split; [intros ->; by apply (proj1 HL l' l s)|]. intros ->. congruence. }
    assert (bool_decide (w = s) = false) as Hbw by (by apply bool_decide_eq_false_2).
    pose proof (one_range (bool_decide (l' = l))) as Ho.
    apply (lock_stays c p st (MWait cv l' :: rest)); [done|done| | |].
    + cbn. rewrite Hb, Hbw. cbn. repeat (split; [lia|]). done.
    + cbn. rewrite Hb, Hbw. cbn. lia.
    + intros v0 q0. rewrite lookup_insert_ne by done. eauto.
  - exists p. assert (bool_decide (w = s) = false) as Hb. { apply nonstatic_other, (pl_conds _ _ Hp cv (w :: q)); [done|apply list_elem_of_here]. }
    apply (lock_stays c p st (MSignal cv l' :: rest)); [done|done| | |eauto]; cbn; rewrite Hb; cbn; [split; [lia|done]|done].
  - exists p. apply (lock_stays c p st (MDelete x :: rest)); [done|done|done|done|]. intros v0 q0 [_ E]%lookup_delete_Some. eauto.
Qed.
End Locks.
End ThreadCore.
