(* ===== verification/ThreadSim.v ===== *)
(** ThreadSim: every step of the kernel's threads (Threads.v) is a sequence of the abstract
    steps of ThreadCore.v, so the invariants proved there hold of the code (ThreadSafety.v). *)

From S2P Require Import Prelude Bitmap CList Mips Machine Interrupt Threads ThreadCore.
From stdpp Require Import base numbers list gmap relations.
#[local] Open Scope Z_scope.

Module ThreadSim.
Import Interrupt Threads ThreadCore.

#[local] Notation W := (World Kernel).
Implicit Types (k : Kernel) (w : W).

(** * The view *)

Definition view k : Core := {|
  cur := currentThread k;
  thr := (fun th => (Threads.status th, stack th)) <$> threads k;
  ready := readyList (scheduler k);
  sem := (fun x => (value x, queue x)) <$> semaphores (synch k);
  lck := (fun x => (lockHolder x, semaphore x)) <$> locks (synch k);
  cond := conditions (synch k);
  dead := toBeDestroyed (scheduler k)
|}.
#[local] Notation viewed w := (view (rest w)).

Lemma bind_M_inv {S A B} (m : M S A) (f : A -> M S B) s r : (m ≫= f) s = Ok r <-> exists a s', m s = Ok (a, s') /\ f a s' = Ok r.
Proof.
  unfold mbind, M_bind. split.
  - destruct (m s) as [[a s']| | | |]; try done. eauto.
  - intros (a & s' & -> & E). done.
Qed.

Lemma lift_inv {S A} (r : res A) (s : S) a s' : lift r s = Ok (a, s') <-> r = Ok a /\ s' = s.
Proof. unfold lift. destruct r; naive_solver. Qed.

Lemma ret_inv {S A} (x : A) (s : S) a s' : (mret x : M S A) s = Ok (a, s') -> a = x /\ s' = s.
Proof. by intros [= <- <-]. Qed.

Lemma deref_inv {A} (o : option A) a : deref o = Ok a <-> o = Some a.
Proof. destruct o; naive_solver. Qed.

(** Splits a hypothesis that a sequence of calls returned into the calls. *)
Ltac minv H :=
  repeat match type of H with
  | (_ ≫= _) _ = Ok _ => let a := fresh "a" in let w := fresh "w" in let E := fresh "E" in apply bind_M_inv in H as (a & w & E & H); cbv beta in H
  end.

(** ** Calls that relate the views *)

Definition sim {X} (g : Kernel -> X) (R : relation X) {A} (m : M W A) : Prop :=
  forall w a w', m w = Ok (a, w') -> R (g (rest w)) (g (rest w')).

Section Sim.
Context {X : Type} (g : Kernel -> X) (R : relation X) {HR : PreOrder R}.
#[local] Notation sim := (sim g R).

Lemma sim_ret {A} (a : A) : sim (mret a).
Proof. intros w b w' [= <- <-]. done. Qed.
Lemma sim_lift {A} (r : res A) : sim (lift r).
Proof. intros w a w' [_ ->]%lift_inv. done. Qed.
Lemma sim_get : sim get_state.
Proof. intros w a w' [= <- <-]. done. Qed.
Lemma sim_kget : sim kget.
Proof. intros w a w' [= <- <-]. done. Qed.
Lemma sim_level : sim getLevel.
Proof. intros w a w' [= <- <-]. done. Qed.
Lemma sim_bind {A B} (m : M W A) (f : A -> M W B) : sim m -> (forall a, sim (f a)) -> sim (x ← m; f x).
Proof. intros Hm Hf w b w' (a & w1 & E1 & E2)%bind_M_inv. etrans; [by eapply Hm|by eapply Hf]. Qed.
Lemma sim_if {A} (b : bool) (m1 m2 : M W A) : sim m1 -> sim m2 -> sim (if b then m1 else m2).
Proof. by destruct b. Qed.
Lemma sim_modify f : (forall w, g (rest (f w)) = g (rest w)) -> sim (modify f).
Proof. intros Hf w a w' [= <- <-]. by rewrite Hf. Qed.
Lemma sim_interrupt f : sim (modify (on_interrupt f)).
Proof. by apply sim_modify. Qed.
Lemma sim_stats f : sim (modify (on_stats f)).
Proof. by apply sim_modify. Qed.
Lemma sim_kmod f : (forall k, g (f k) = g k) -> sim (kmod f).
Proof. intros Hf. apply sim_modify. intros w. apply Hf. Qed.
Lemma sim_assert_off : sim assert_off.
Proof. apply sim_bind; [apply sim_level|]. intros l. apply sim_lift. Qed.
Lemma sim_level_off : sim level_off.
Proof. apply sim_bind; [apply sim_level|]. intros l. apply sim_bind; [apply sim_interrupt|]. intros _. apply sim_ret. Qed.
Lemma sim_thread t : sim (the_thread t).
Proof. apply sim_bind; [apply sim_kget|]. intros k. apply sim_lift. Qed.
Lemma sim_on_thread_to t f : (forall k th, threads k !! t = Some th -> R (g k) (g (set_threads (<[t := f th]> (threads k)) k))) -> sim (on_thread t f).
Proof.
  intros Hf w a w' (th & w1 & E1 & E2)%bind_M_inv. unfold the_thread, kget in E1. apply bind_M_inv in E1 as (k & w2 & [= <- <-] & [Hth%deref_inv ->]%lift_inv).
  injection E2 as <- <-. by apply Hf.
Qed.
Lemma sim_mfor {A} ix (body : Z -> A -> M W A) a : (forall i a, sim (body i a)) -> sim (mfor ix body a).
Proof. intros Hb. revert a. induction ix as [|i ix IH]; intros a; [apply sim_ret|]. apply sim_bind; [apply Hb|]. intros b. apply IH. Qed.
End Sim.

Lemma sim_on_thread (R : relation Core) {HR : PreOrder R} t f :
  (forall th, Threads.status (f th) = Threads.status th /\ stack (f th) = stack th) -> sim view R (on_thread t f).
Proof.
  intros Hf. apply sim_on_thread_to. intros k th Hth. unfold view. cbn. destruct (Hf th) as [E1 E2]. rewrite fmap_insert, E1, E2.
  rewrite insert_id; [done|]. by rewrite lookup_fmap, Hth.
Qed.

Create HintDb sims.
#[export] Hint Resolve sim_ret sim_lift sim_get sim_kget sim_level sim_interrupt sim_stats sim_assert_off sim_level_off sim_thread : sims.

(** Goes through a sequence of calls. *)
Ltac sims := repeat first
  [ solve [auto with sims typeclass_instances]
  | solve [apply sim_on_thread; [apply _|done]] | solve [apply sim_kmod; [apply _|done]]
  | apply sim_bind; [apply _| |intros ?] | apply sim_if | case_match ].

(** ** Calls that keep the view *)

#[local] Notation keeps := (sim view (=)).

Lemma keeps_ReadRegister i : keeps (ReadRegister i).
Proof. unfold ReadRegister. sims. Qed.
Lemma keeps_SaveUserState t : keeps (SaveUserState t).
Proof. apply sim_mfor; [apply _|]. intros i _. apply sim_bind; [apply _|apply keeps_ReadRegister|]. intros v. sims. Qed.
Lemma keeps_RestoreUserState t : keeps (RestoreUserState t).
Proof. apply sim_mfor; [apply _|]. intros i _. unfold WriteRegister. sims. Qed.
Lemma keeps_RestoreState a : keeps (RestoreState a).
Proof. unfold RestoreState. sims. Qed.
Lemma keeps_put_list q x : keeps (put_list q x).
Proof. unfold put_list. sims. Qed.
Lemma keeps_list_update q f : keeps (list_update q f).
Proof. unfold list_update, the_list. apply sim_bind; [apply _|sims|]. intros y. apply sim_bind; [apply _|sims|]. intros l. apply keeps_put_list. Qed.
Lemma keeps_return_value x : keeps (return_value x).
Proof. unfold return_value. sims. Qed.
Lemma keeps_childThreadExit p t : keeps (childThreadExit p t).
Proof. unfold childThreadExit. sims. Qed.
Lemma keeps_addChild p t : keeps (addChild p t).
Proof. unfold addChild. sims. Qed.
Lemma keeps_generateThreadID : keeps generateThreadID.
Proof. unfold generateThreadID. sims. Qed.

(** ** The ready list and the semaphores *)

Lemma insert_ready_inserted m t th l l' : insert_ready m t th l = Ok l' -> inserted t l l'.
Proof.
  revert l'. induction l as [|u l IH]; intros l' E; cbn in E.
  - injection E as <-. by exists [], [].
  - apply bind_Ok in E as (th' & _ & E). case_match.
    + injection E as <-. by exists [], (u :: l).
    + apply bind_Ok in E as (l2 & E2 & E). injection E as <-. destruct (IH l2 E2) as (l1 & l3 & -> & ->). by exists (u :: l1), l3.
Qed.

Lemma the_thread_inv t w th w' : the_thread t w = Ok (th, w') -> threads (rest w) !! t = Some th /\ w' = w.
Proof. intros E. unfold the_thread, kget in E. minv E. injection E0 as <- <-. apply lift_inv in E as [E%deref_inv ->]. done. Qed.

Lemma the_semaphore_inv s w x w' : the_semaphore s w = Ok (x, w') -> semaphores (synch (rest w)) !! s = Some x /\ w' = w.
Proof. intros E. unfold the_semaphore, kget in E. minv E. injection E0 as <- <-. apply lift_inv in E as [E%deref_inv ->]. done. Qed.

Lemma the_lock_inv l w x w' : the_lock l w = Ok (x, w') -> locks (synch (rest w)) !! l = Some x /\ w' = w.
Proof. intros E. unfold the_lock, kget in E. minv E. injection E0 as <- <-. apply lift_inv in E as [E%deref_inv ->]. done. Qed.

Lemma the_condition_inv c w x w' : the_condition c w = Ok (x, w') -> conditions (synch (rest w)) !! c = Some x /\ w' = w.
Proof. intros E. unfold the_condition, kget in E. minv E. injection E0 as <- <-. apply lift_inv in E as [E%deref_inv ->]. done. Qed.

Lemma on_thread_inv t f w a w' : on_thread t f w = Ok (a, w') ->
  exists th, threads (rest w) !! t = Some th /\ w' = on_rest (fun k => set_threads (<[t := f th]> (threads k)) k) w.
Proof.
  intros E. unfold on_thread in E. minv E. apply the_thread_inv in E0 as [Hth ->]. injection E as _ <-. by exists a0.
Qed.

Lemma assert_off_inv w a w' : assert_off w = Ok (a, w') -> w' = w.
Proof. intros E. unfold assert_off, getLevel in E. minv E. injection E0 as <- <-. by apply lift_inv in E as [_ ->]. Qed.

Lemma level_off_inv w a w' : level_off w = Ok (a, w') -> rest w' = rest w.
Proof. intros E. unfold level_off, getLevel, ChangeLevel, modify in E. minv E. injection E0 as <- <-. injection E1 as <- <-. by injection E as <- <-. Qed.

Lemma thr_view k t th : threads k !! t = Some th -> thr (view k) !! t = Some (Threads.status th, stack th).
Proof. intros E. cbn. by rewrite lookup_fmap, E. Qed.

Lemma thr_view_inv k t st stk : thr (view k) !! t = Some (st, stk) -> exists th, threads k !! t = Some th /\ Threads.status th = st /\ stack th = stk.
Proof. cbn. rewrite lookup_fmap. intros (th & E & [= -> ->])%fmap_Some. by exists th. Qed.

(** The view with another entry for a thread. *)
Lemma view_set_thread k t th : view (set_threads (<[t := th]> (threads k)) k) =
  MkCore (currentThread k) (<[t := (Threads.status th, stack th)]> (thr (view k))) (ready (view k)) (sem (view k)) (lck (view k)) (cond (view k)) (dead (view k)).
Proof. unfold view. cbn. by rewrite fmap_insert. Qed.

Lemma ReadyToRun_view t w a w' : ReadyToRun t w = Ok (a, w') ->
  exists th l, threads (rest w) !! t = Some th /\ t ∉ ready (viewed w) /\ inserted t (ready (viewed w)) l /\
    viewed w' = MkCore (cur (viewed w)) (<[t := (READY, stack th)]> (thr (viewed w))) l (sem (viewed w)) (lck (viewed w)) (cond (viewed w)) (dead (viewed w)).
Proof.
  intros E. unfold ReadyToRun in E. minv E. apply assert_off_inv in E0 as ->. apply on_thread_inv in E1 as (th & Hth & ->).
  apply the_thread_inv in E2 as [Hth2 ->]. unfold kget in E3. injection E3 as <- <-.
  apply lift_inv in E4 as [Ha ->]. apply lift_inv in E5 as [Hi ->]. injection E as _ <-.
  apply ASSERT_Ok, bool_decide_eq_true in Ha. apply insert_ready_inserted in Hi.
  eexists th, _. split; [done|]. split; [exact Ha|]. split; [exact Hi|]. unfold view. cbn. by rewrite fmap_insert.
Qed.

Lemma FindNextToRun_view w n w' : FindNextToRun w = Ok (n, w') ->
  (n = 0 /\ ready (viewed w) = [] /\ w' = w) \/
  (exists r, ready (viewed w) = n :: r /\
     viewed w' = MkCore (cur (viewed w)) (thr (viewed w)) r (sem (viewed w)) (lck (viewed w)) (cond (viewed w)) (dead (viewed w))).
Proof.
  intros E. unfold FindNextToRun in E. minv E. apply assert_off_inv in E0 as ->. unfold kget in E1. injection E1 as <- <-.
  cbn. destruct (readyList (scheduler (rest w))) as [|t l] eqn:Hr.
  - injection E as <- <-. by left.
  - minv E. injection E0 as <- <-. injection E as <- <-. right. by exists l.
Qed.

Lemma sem_view k s x : semaphores (synch k) !! s = Some x -> sem (view k) !! s = Some (value x, queue x).
Proof. intros E. cbn. by rewrite lookup_fmap, E. Qed.

Lemma put_semaphore_view s x w a w' : put_semaphore s x w = Ok (a, w') ->
  w' = on_rest (fun k => let y := synch k in set_synch (MkSynch (<[s := x]> (semaphores y)) (locks y) (conditions y) (lists y)) k) w /\
  viewed w' = MkCore (cur (viewed w)) (thr (viewed w)) (ready (viewed w)) (<[s := (value x, queue x)]> (sem (viewed w))) (lck (viewed w)) (cond (viewed w)) (dead (viewed w)).
Proof. intros E. injection E as _ <-. split; [done|]. unfold view. cbn. by rewrite fmap_insert. Qed.

Lemma ReadyToRun_sems t w a w' : ReadyToRun t w = Ok (a, w') -> synch (rest w') = synch (rest w).
Proof.
  intros E. unfold ReadyToRun in E. minv E. apply assert_off_inv in E0 as ->. apply on_thread_inv in E1 as (th & _ & ->).
  apply the_thread_inv in E2 as [_ ->]. unfold kget in E3. injection E3 as <- <-. apply lift_inv in E4 as [_ ->]. apply lift_inv in E5 as [_ ->].
  by injection E as _ <-.
Qed.

Lemma V_body_view s w a w' : V_body s w = Ok (a, w') -> vstep s (viewed w) (viewed w').
Proof.
  intros E. unfold V_body in E. minv E. apply the_semaphore_inv in E0 as [Hs ->]. apply the_semaphore_inv in E2 as [Hs2 ->].
  apply put_semaphore_view in E as [_ ->]. pose proof (sem_view _ _ _ Hs) as Hsv. destruct (queue a0) as [|t q] eqn:Hq.
  - injection E1 as _ <-. assert (a2 = a0) as -> by congruence. cbn. rewrite Hq. by apply (v_alone s (viewed w)).
  - minv E1. apply put_semaphore_view in E as [-> Hv]. pose proof (ReadyToRun_sems _ _ _ _ E1) as Hsy.
    apply ReadyToRun_view in E1 as (th & l & Hth & Hnr & Hi & ->). rewrite Hv in *. cbn in *.
    rewrite Hsy in Hs2. cbn in Hs2. rewrite lookup_insert_eq in Hs2. injection Hs2 as <-. cbn.
    pose proof (v_wakes s (viewed w) (value a0) t q (Threads.status th) (stack th) l) as H. cbn in H. rewrite insert_insert_eq. apply H; try done.
    by rewrite lookup_fmap, Hth.
Qed.

(** ** Devices *)

Section Ticks.
Context {X : Type} (g : Kernel -> X) (R : relation X) {HR : PreOrder R}.
Variable handler : Z -> W -> list action.
Variable DelayedLoad : list Z -> list Z.

#[local] Notation sim := (sim g R).
#[local] Notation CallBack := (CallBack handler).

Hypothesis Hload : sim (load DelayedLoad).
Hypothesis Hcall : forall d, sim (CallBack d).

Lemma sim_Schedule d n t : sim (Schedule d n t).
Proof. unfold Schedule. sims. Qed.

Lemma sim_YieldOnReturn : sim YieldOnReturn.
Proof. unfold YieldOnReturn. sims. Qed.

Lemma sim_fire n : sim (fire CallBack n).
Proof.
  induction n as [|n IH]; cbn; [apply sim_lift; apply _|]. apply sim_bind; [apply _| |].
  - unfold fire_one. apply sim_bind; [apply _|apply sim_get; apply _|]. intros w. case_match; [apply sim_lift; apply _|].
    apply sim_bind; [apply _|apply sim_interrupt; apply _|]. intros _. apply Hcall.
  - intros _. apply sim_bind; [apply _|apply sim_get; apply _|]. intros w. case_match; [apply sim_ret; apply _|]. case_match; [done|apply sim_ret; apply _].
Qed.

Lemma sim_CheckIfDue b : sim (CheckIfDue CallBack (load DelayedLoad) b).
Proof.
  unfold CheckIfDue. apply sim_bind; [apply _|apply sim_get; apply _|]. intros w. apply sim_bind; [apply _|apply sim_lift; apply _|]. intros _.
  case_match; [apply sim_ret; apply _|]. case_match; [apply sim_ret; apply _|]. apply sim_bind; [apply _| |].
  { case_match; [|apply sim_ret; apply _]. apply sim_bind; [apply _|apply sim_lift; apply _|]. intros i. apply sim_stats; apply _. }
  intros _. apply sim_bind; [apply _|apply Hload|]. intros _. apply sim_bind; [apply _|apply sim_interrupt; apply _|]. intros _.
  apply sim_bind; [apply _|apply sim_get; apply _|]. intros w2. apply sim_bind; [apply _|apply sim_fire|]. intros _.
  apply sim_bind; [apply _|apply sim_interrupt; apply _|]. intros _. apply sim_ret; apply _.
Qed.

Lemma sim_Tick : sim (Tick CallBack (load DelayedLoad)).
Proof.
  unfold Tick. apply sim_bind; [apply _|apply sim_get; apply _|]. intros w. apply sim_bind; [apply _|case_match; sims|]. intros _.
  apply sim_bind; [apply _|apply sim_interrupt; apply _|]. intros _. apply sim_bind; [apply _|apply sim_CheckIfDue|]. intros _. apply sim_interrupt; apply _.
Qed.

Lemma sim_Idle : sim (Idle CallBack (load DelayedLoad)).
Proof.
  unfold Idle. apply sim_bind; [apply _|apply sim_interrupt; apply _|]. intros _. apply sim_bind; [apply _|apply sim_CheckIfDue|]. intros [].
  - apply sim_interrupt; apply _.
  - apply sim_lift; apply _.
Qed.

Lemma sim_SetLevel l : sim (exec_SetLevel handler DelayedLoad l).
Proof.
  unfold exec_SetLevel. apply sim_bind; [apply _|apply sim_get; apply _|]. intros w. apply sim_bind; [apply _|apply sim_lift; apply _|]. intros _.
  apply sim_bind; [apply _|apply sim_interrupt; apply _|]. intros _. apply sim_if; [|apply sim_ret; apply _].
  apply sim_bind; [apply _|apply sim_Tick|]. intros _. unfold setStatus. sims.
Qed.
End Ticks.

Section Devices.
Context (L : Layout).

Definition device (c c' : Core) : Prop := exists s, s ∈ plain L /\ vstep s c c'.
#[local] Notation devs := (sim view (rtc device)).

Variable handler : Z -> W -> list action.
Variable DelayedLoad : list Z -> list Z.
Hypothesis Hhandler : forall d w s, AV s ∈ handler d w -> s ∈ plain L.

#[local] Notation CallBack := (CallBack handler).

Lemma devs_actions d l : (forall s, AV s ∈ l -> s ∈ plain L) -> devs (run_actions d l).
Proof.
  induction l as [|a l IH]; intros Hl; [apply sim_ret; apply _|]. cbn. apply sim_bind; [apply _| |intros _; apply IH; intros s Hs; by apply Hl, list_elem_of_further].
  destruct a as [s|n t|]; cbn; [|apply sim_Schedule; apply _|apply sim_YieldOnReturn; apply _].
  apply sim_bind; [apply _|apply sim_assert_off; apply _|]. intros _ w b w' E. apply rtc_once. exists s. split; [apply Hl, list_elem_of_here|by eapply V_body_view].
Qed.

Lemma devs_CallBack d : devs (CallBack d).
Proof. unfold Threads.CallBack. apply sim_bind; [apply _|apply sim_get; apply _|]. intros w. apply devs_actions, Hhandler. Qed.

Lemma devs_load : devs (load DelayedLoad).
Proof. unfold load. sims. Qed.

Lemma devs_Tick : devs (Tick CallBack (load DelayedLoad)).
Proof. apply sim_Tick; [apply _|apply devs_load|apply devs_CallBack]. Qed.

Lemma devs_Idle : devs (Idle CallBack (load DelayedLoad)).
Proof. apply sim_Idle; [apply _|apply devs_load|apply devs_CallBack]. Qed.

(** Devices leave the running thread where it is in its code. *)
Lemma device_stack c c' st stk : rtc device c c' -> thr c !! cur c = Some (st, stk) -> cur c' = cur c /\ exists st', thr c' !! cur c' = Some (st', stk).
Proof.
  intros Hd. revert st. induction Hd as [c|c c1 c2 (s & _ & Hv) _ IH]; intros st Hc; [by split; [|exists st]|].
  assert (cur c1 = cur c /\ exists st', thr c1 !! cur c1 = Some (st', stk)) as [Hcur (st' & Hst')].
  { destruct Hv as [|c v t q st0 stk0 r _ Ht _ _]; cbn; [by split; [|exists st]|]. split; [done|].
    destruct (decide (t = cur c)) as [->|Hne]; [|rewrite lookup_insert_ne by done; by exists st]. rewrite lookup_insert_eq.
    rewrite Hc in Ht. injection Ht as _ <-. by exists READY. }
  destruct (IH st' Hst') as [E H]. split; [congruence|done].
Qed.

(** Steps that change neither the running thread nor a lock. *)
Definition quiet (c c' : Core) : Prop := cstep L c c' /\ cur c' = cur c /\ lck c' = lck c.

Lemma devices_quiet c c' : rtc device c c' -> rtc quiet c c'.
Proof. apply rtc_subrel. intros x y (s & Hs & Hv). split; [by eapply c_device|]. by destruct Hv. Qed.
End Devices.

(** ** Threads that are made, switched to and destroyed *)

Lemma put_stack_view t stk w a w' : on_thread t (with_stack stk) w = Ok (a, w') ->
  exists st stk0, thr (viewed w) !! t = Some (st, stk0) /\
    viewed w' = MkCore (cur (viewed w)) (<[t := (st, stk)]> (thr (viewed w))) (ready (viewed w)) (sem (viewed w)) (lck (viewed w)) (cond (viewed w)) (dead (viewed w)).
Proof.
  intros (th & Hth & ->)%on_thread_inv. exists (Threads.status th), (stack th). split; [by apply thr_view|]. apply view_set_thread.
Qed.

Lemma deleteThread_view t w a w' : deleteThread t w = Ok (a, w') -> t <> 0 ->
  viewed w' = MkCore (cur (viewed w)) (delete t (thr (viewed w))) (ready (viewed w)) (sem (viewed w)) (lck (viewed w)) (cond (viewed w)) (dead (viewed w)).
Proof.
  intros E Ht. unfold deleteThread in E. rewrite (proj2 (Z.eqb_neq _ _) Ht) in E. minv E. apply the_thread_inv in E0 as [_ ->].
  unfold kget in E1. injection E1 as <- <-. apply lift_inv in E2 as [_ ->]. apply lift_inv in E3 as [_ ->]. injection E4 as _ <-.
  apply lift_inv in E5 as [_ ->]. injection E as _ <-. unfold view. cbn. by rewrite fmap_delete.
Qed.

Lemma CheckToBeDestroyed_view w a w' : CheckToBeDestroyed w = Ok (a, w') ->
  (dead (viewed w) = 0 /\ w' = w) \/
  (dead (viewed w) <> 0 /\
   viewed w' = MkCore (cur (viewed w)) (delete (dead (viewed w)) (thr (viewed w))) (ready (viewed w)) (sem (viewed w)) (lck (viewed w)) (cond (viewed w)) 0).
Proof.
  intros E. unfold CheckToBeDestroyed in E. minv E. unfold kget in E0. injection E0 as <- <-. change (dead (viewed w)) with (toBeDestroyed (scheduler (rest w))).
  destruct (Z.eqb_spec (toBeDestroyed (scheduler (rest w))) 0) as [E0|E0]; [left; by injection E as _ <-|right]. split; [done|].
  minv E. apply deleteThread_view in E1; [|done]. injection E as _ <-.
  match goal with |- viewed ?x = _ => change (viewed x) with
    (MkCore (cur (viewed w0)) (thr (viewed w0)) (ready (viewed w0)) (sem (viewed w0)) (lck (viewed w0)) (cond (viewed w0)) 0) end.
  by rewrite E1.
Qed.

Lemma Run_view n fin w a w' : Run n fin w = Ok (a, w') ->
  exists st stk, thr (viewed w) !! n = Some (st, stk) /\ (fin = true -> dead (viewed w) = 0) /\
    viewed w' = MkCore n (<[n := (RUNNING, stk)]> (thr (viewed w))) (ready (viewed w)) (sem (viewed w)) (lck (viewed w)) (cond (viewed w))
      (if fin then cur (viewed w) else dead (viewed w)).
Proof.
  intros E. unfold Run in E. minv E. unfold kget in E0. injection E0 as <- <-. apply assert_off_inv in E1 as ->.
  assert ((fin = true -> dead (viewed w) = 0) /\ viewed w2 = MkCore (cur (viewed w)) (thr (viewed w)) (ready (viewed w)) (sem (viewed w)) (lck (viewed w)) (cond (viewed w))
    (if fin then cur (viewed w) else dead (viewed w))) as [Hd E2'].
  { destruct fin.
    - minv E2. apply lift_inv in E0 as [Hd%ASSERT_Ok%Z.eqb_eq ->]. injection E2 as _ <-. done.
    - injection E2 as _ <-. done. }
  apply the_thread_inv in E3 as [_ ->].
  assert (viewed w2 = viewed w4) as E4'.
  { destruct (space a3 =? 0); [by apply ret_inv in E4 as [_ ->]|]. by eapply keeps_SaveUserState. }
  injection E5 as _ <-. apply on_thread_inv in E as (th & Hth & ->). exists (Threads.status th), (stack th).
  rewrite E4' in E2'. split; [|split; [done|]].
  - apply thr_view in Hth. change (thr (viewed w4) !! n = Some (Threads.status th, stack th)) in Hth. by rewrite E2' in Hth.
  - match goal with |- viewed ?x = _ => change (viewed x) with
      (view (set_threads (<[n:=with_status RUNNING th]> (threads (set_current n (rest w4)))) (set_current n (rest w4)))) end.
    rewrite view_set_thread. change (thr (view (set_current n (rest w4)))) with (thr (viewed w4)). cbn [currentThread set_current Threads.status stack with_status].
    change (ready (view (set_current n (rest w4)))) with (ready (viewed w4)). change (sem (view (set_current n (rest w4)))) with (sem (viewed w4)).
    change (lck (view (set_current n (rest w4)))) with (lck (viewed w4)). change (cond (view (set_current n (rest w4)))) with (cond (viewed w4)).
    change (dead (view (set_current n (rest w4)))) with (dead (viewed w4)). by rewrite E2'.
Qed.

Lemma Run_resumed_view t w a w' : Run_resumed t w = Ok (a, w') -> exists w1, CheckToBeDestroyed w = Ok (tt, w1) /\ viewed w' = viewed w1.
Proof.
  intros E. unfold Run_resumed in E. minv E. apply assert_off_inv in E0 as ->. destruct a1. exists w1. split; [done|].
  apply the_thread_inv in E2 as [_ ->]. match type of E with (if ?b then _ else _) _ = _ => destruct b end; [by apply ret_inv in E as [_ ->]|]. minv E.
  rewrite <- (keeps_RestoreState _ _ _ _ E). symmetry. by apply keeps_RestoreUserState in E0.
Qed.

Lemma new_address_unused {V} (m : gmap Z V) : m !! new_address m = None /\ new_address m <> 0.
Proof.
  unfold new_address. pose proof (is_fresh (dom m ∪ {[0]})) as H. split; [apply not_elem_of_dom; set_solver|set_solver].
Qed.

Lemma createThread_view uid raw w t w' : createThread uid raw w = Ok (t, w') ->
  (t = 0 /\ w' = w) \/
  (thr (viewed w) !! t = None /\ t <> 0 /\
   viewed w' = MkCore (cur (viewed w)) (<[t := (JUST_CREATED, [])]> (thr (viewed w))) (ready (viewed w)) (sem (viewed w)) (lck (viewed w)) (cond (viewed w)) (dead (viewed w))).
Proof.
  intros E. unfold createThread in E. apply bind_M_inv in E as (k0 & w0 & [= <- <-] & E).
  destruct (threadCnt (threadManager (rest w)) + 1 <? THREAD_COUNT_MAX); [right|injection E as <- <-; by left].
  apply bind_M_inv in E as (u & w1 & [= _ <-] & E). apply bind_M_inv in E as (id & w2 & E1 & E). apply keeps_generateThreadID in E1.
  change (viewed (on_rest (set_manager _) w)) with (viewed w) in E1.
  apply bind_M_inv in E as (k1 & w3 & [= <- <-] & E). cbv zeta in E.
  destruct (new_address_unused (threads (rest w2))) as [Hn H0]. set (n := new_address (threads (rest w2))) in *.
  apply bind_M_inv in E as (u1 & w4 & E4 & E). apply bind_M_inv in E as (u2 & w5 & E5 & E).
  apply bind_M_inv in E as (k2 & w6 & [= <- <-] & E). apply bind_M_inv in E as (u3 & w7 & [= _ <-] & E). apply ret_inv in E as [-> ->].
  change (viewed (on_rest (set_manager _) w5)) with (viewed w5).
  assert (viewed w4 = viewed w5) as <-.
  { destruct (1 <? threadCnt (threadManager (rest w2))); [by eapply keeps_addChild|by apply ret_inv in E5 as [_ ->]]. }
  injection E4 as _ <-. change (viewed (on_rest (set_threads ?m) w2)) with
    (MkCore (cur (viewed w2)) ((fun th => (Threads.status th, stack th)) <$> m) (ready (viewed w2)) (sem (viewed w2)) (lck (viewed w2)) (cond (viewed w2)) (dead (viewed w2))).
  rewrite fmap_insert. change ((fun th => (Threads.status th, stack th)) <$> threads (rest w2)) with (thr (viewed w2)).
  assert (thr (viewed w2) !! n = None) as Hn' by (cbn; by rewrite lookup_fmap, Hn).
  rewrite <- E1 in Hn' |- *. done.
Qed.

Lemma spawn_view uid prio pc raw w l w' : thr (viewed w) !! 0 = None -> spawn uid prio pc raw w = Ok (l, w') ->
  exists t o r, thr (viewed w) !! t = None /\ t <> 0 /\ inserted t (ready (viewed w)) r /\ l = [MYield; MSetLevel o] /\
    viewed w' = MkCore (cur (viewed w)) (<[t := (READY, [MBegin; MCode pc; MFinish])]> (thr (viewed w))) r (sem (viewed w)) (lck (viewed w)) (cond (viewed w)) (dead (viewed w)).
Proof.
  intros Hn E.
  unfold spawn in E. apply bind_M_inv in E as (t & w1 & E1 & E). apply bind_M_inv in E as (u2 & w2 & E2 & E).
  apply bind_M_inv in E as (u3 & w3 & E3 & E). apply createThread_view in E1 as [[-> ->]|(Ht & Ht0 & Ev)].
  { apply on_thread_inv in E2 as (th & Hth & _). apply thr_view in Hth. change (thr (view (rest w))) with (thr (viewed w)) in Hth. congruence. }
  apply (sim_on_thread eq t (with_priority prio) ltac:(done)) in E2. apply keeps_return_value in E3. rewrite E2, E3 in Ev.
  unfold Fork in E. apply bind_M_inv in E as (u4 & w4 & E4 & E). apply bind_M_inv in E as (o & w5 & E5 & E). apply bind_M_inv in E as (u6 & w6 & E6 & E).
  apply ret_inv in E as [-> ->]. apply put_stack_view in E4 as (st & stk & Hst & E4). rewrite Ev in E4, Hst. cbn in E4, Hst.
  rewrite lookup_insert_eq in Hst. injection Hst as <- <-. rewrite insert_insert_eq in E4.
  apply level_off_inv in E5. assert (viewed w5 = viewed w4) as E5' by (by rewrite E5).
  apply ReadyToRun_view in E6 as (th & r & Hth & _ & Hi & E6). rewrite E5', E4 in E6, Hi.
  assert (stack th = [MBegin; MCode pc; MFinish]) as Hstk.
  { apply thr_view in Hth. change (thr (view (rest w5))) with (thr (viewed w5)) in Hth. rewrite E5', E4 in Hth. cbn in Hth.
    rewrite lookup_insert_eq in Hth. by injection Hth as _ <-. }
  exists t, o, r. split; [done|]. split; [done|]. split; [exact Hi|]. split; [done|]. rewrite E6. cbn. by rewrite Hstk, insert_insert_eq.
Qed.
(** * Every step is a sequence of abstract steps *)

(** Quiet steps, and then one step of any kind. *)
Definition csteps (L : Layout) (c c' : Core) : Prop := exists c1, rtc (quiet L) c c1 /\ (c1 = c' \/ cstep L c1 c').

Lemma csteps_once L c c' : cstep L c c' -> csteps L c c'.
Proof. intros H. exists c. split; [done|by right]. Qed.

Lemma csteps_quiet L c c' : rtc (quiet L) c c' -> csteps L c c'.
Proof. intros H. exists c'. split; [done|by left]. Qed.

Lemma csteps_after L c c1 c' : rtc (quiet L) c c1 -> csteps L c1 c' -> csteps L c c'.
Proof. intros H1 (c2 & H2 & H3). exists c2. split; [by etrans|done]. Qed.

Lemma csteps_rtc L c c' : csteps L c c' -> rtc (cstep L) c c'.
Proof.
  intros (c1 & H1 & H2). transitivity c1; [by eapply rtc_subrel; [|exact H1]; intros x y []|].
  destruct H2 as [->|H2]; [done|by apply rtc_once].
Qed.

(** The running thread's stack has been replaced. *)
Definition after (t : Z) (stk : list micro) (c c' : Core) : Prop := exists st stk0, thr c !! t = Some (st, stk0) /\
  c' = MkCore (cur c) (<[t := (st, stk)]> (thr c)) (ready c) (sem c) (lck c) (cond c) (dead c).

Section Step.
Context (L : Layout).
Variable code : Z -> W -> call * Z.
Variable handler : Z -> W -> list action.
Variable DelayedLoad : list Z -> list Z.

(** Threads and devices use by themselves only the semaphores set apart for that. *)
Record interface_ok : Prop := {
  io_handler d w s : AV s ∈ handler d w -> s ∈ plain L;
  io_code pc w c pc' : code pc w = (c, pc') -> match c with CP s | CV s => s ∈ plain L | _ => True end
}.
Hypothesis Hio : interface_ok.

#[local] Notation Handler := (CallBack handler).
#[local] Notation Load := (load DelayedLoad).
#[local] Notation exec := (exec code handler DelayedLoad).
#[local] Notation step := (step code handler DelayedLoad).
#[local] Notation csteps := (csteps L).
#[local] Notation devices := (rtc (device L)).

Lemma after_tau c c1 c' st m others l : devices c c1 -> thr c !! cur c = Some (st, m :: others) -> tau L m l ->
  after (cur c) (l ++ others) c1 c' -> csteps c c'.
Proof.
  intros Hd Hc Ht (st1 & stk1 & Hst & ->). destruct (device_stack L c c1 _ _ Hd Hc) as [Hcur (st' & Hc1)]. rewrite <- Hcur in *.
  rewrite Hc1 in Hst. injection Hst as <- <-. eapply csteps_after; [by apply devices_quiet|]. apply csteps_once. by eapply (c_tau L c1 st').
Qed.

Lemma same_tau c c' st m others l : thr c !! cur c = Some (st, m :: others) -> tau L m l -> after (cur c) (l ++ others) c c' -> csteps c c'.
Proof. by apply after_tau. Qed.

Lemma after_same c c' st stk stk' : thr c !! cur c = Some (st, stk) -> after (cur c) stk' c c' -> c' = put_cur c st stk'.
Proof. intros Hc (st1 & stk1 & Hst & ->). rewrite Hc in Hst. by injection Hst as <- <-. Qed.

Lemma level_off_viewed w a w' : level_off w = Ok (a, w') -> viewed w' = viewed w.
Proof. intros E%level_off_inv. by rewrite E. Qed.

(** ** The calls of the interface *)

Lemma lock_view w l x : placed L (viewed w) -> locks (synch (rest w)) !! l = Some x ->
  lck (viewed w) !! l = Some (lockHolder x, semaphore x) /\ lock_of L !! l = Some (semaphore x).
Proof.
  intros Hp E. assert (lck (viewed w) !! l = Some (lockHolder x, semaphore x)) as H by (cbn; by rewrite lookup_fmap, E).
  split; [done|]. by apply (pl_locks _ _ Hp) in H.
Qed.

Lemma Acquire_view l w r w' : placed L (viewed w) -> Acquire l w = Ok (r, w') ->
  w' = w /\ exists s, lock_of L !! l = Some s /\ r = [MP s; MHold l].
Proof.
  intros Hp E. unfold Acquire in E. minv E. apply the_lock_inv in E0 as [Hl ->]. apply ret_inv in E as [-> ->]. split; [done|].
  exists (semaphore a). split; [|done]. by apply (lock_view w).
Qed.

Lemma the_list_inv q w y w' : the_list q w = Ok (y, w') -> w' = w.
Proof. intros E. unfold the_list, kget in E. minv E. injection E0 as <- <-. by apply lift_inv in E as [_ ->]. Qed.

Lemma do_call_user c w l w' : placed L (viewed w) -> match c with CP s | CV s => s ∈ plain L | CSpawn _ _ _ _ => False | _ => True end ->
  do_call c w = Ok (l, w') -> viewed w = viewed w' /\ user_micro L l.
Proof.
  intros Hp Hc E. destruct c; cbn [do_call] in E; try (apply ret_inv in E as [-> ->]; split; [done|by constructor]); try done.
  - unfold setPriority in E. apply bind_M_inv in E as (k0 & w1 & [= <- <-] & E). apply bind_M_inv in E as (u & w1 & E1 & E).
    apply ret_inv in E as [-> ->]. split; [|constructor]. by apply (sim_on_thread eq (currentThread (rest w)) (with_priority p) ltac:(done)) in E1.
  - apply Acquire_view in E as (-> & s & Hs & ->); [|done]. split; [done|]. apply um_acquire; [done|constructor].
  - unfold SynchList_Append in E. minv E. apply the_list_inv in E0 as ->. apply Acquire_view in E1 as (-> & s & Hs & ->); [|done].
    apply ret_inv in E as [-> ->]. split; [done|]. apply um_acquire; [done|]. apply um_append, um_signal_more, um_release.
  - unfold SynchList_RemoveFront in E. minv E. apply the_list_inv in E0 as ->. apply Acquire_view in E1 as (-> & s & Hs & ->); [|done].
    apply ret_inv in E as [-> ->]. split; [done|]. apply um_acquire; [done|]. apply um_list_wait, um_take, um_release.
  - unfold SynchList_Remove in E. minv E. apply the_list_inv in E0 as ->. apply Acquire_view in E1 as (-> & s & Hs & ->); [|done].
    apply ret_inv in E as [-> ->]. split; [done|]. apply um_acquire; [done|]. apply um_remove, um_release.
Qed.

Lemma code_sim w pc st others l w1 c' : placed L (viewed w) -> thr (viewed w) !! cur (viewed w) = Some (st, MCode pc :: others) ->
  exec (MCode pc) w = Ok (l, w1) -> after (cur (viewed w)) (l ++ others) (viewed w1) c' -> csteps (viewed w) c'.
Proof.
  intros Hp Hc E Ha. cbn [Threads.exec] in E. apply bind_M_inv in E as (w0 & w2 & [= <- <-] & E).
  destruct (code pc w) as [c pc'] eqn:Hcode. pose proof (io_code Hio _ _ _ _ Hcode) as Hok.
  apply bind_M_inv in E as (l1 & w2 & E1 & E). apply ret_inv in E as [-> ->].
  assert (forall l0, user_micro L l0 -> tau L (MCode pc) (match c with CExit => l0 | _ => l0 ++ [MCode pc'] end)) as Hmore.
  { intros l0 Hu. destruct c; try (apply tau_code; [done|right; eauto]; fail). rewrite <- (app_nil_r l0). apply tau_code; [done|by left]. }
  assert ((exists a b d e, c = CSpawn a b d e) \/ match c with CP s | CV s => s ∈ plain L | CSpawn _ _ _ _ => False | _ => True end)
    as [(a & b & d & e & ->)|Hns] by (destruct c; try (by right); left; eauto).
  - cbn [do_call] in E1. apply spawn_view in E1 as (t & o & r & Ht & H0 & Hi & -> & E1); [|by apply (pl_null _ _ Hp)].
    apply csteps_once. destruct Ha as (st1 & stk1 & Hst & ->). rewrite E1 in *. cbn [thr cur Threads.threads ready sem lck cond dead] in *.
    rewrite lookup_insert_ne in Hst by (intros ->; congruence). rewrite Hc in Hst. injection Hst as <- <-.
    by apply (c_spawns L (viewed w) st pc others t d pc' o r).
  - apply do_call_user in E1 as [Ev Hu]; [|done|done]. rewrite <- Ev in Ha. by eapply same_tau; [exact Hc|apply Hmore, Hu|exact Ha].
Qed.

(** ** Interrupts *)

Lemma SetLevel_sim w lv st others l w1 c' : thr (viewed w) !! cur (viewed w) = Some (st, MSetLevel lv :: others) ->
  exec_SetLevel handler DelayedLoad lv w = Ok (l, w1) -> after (cur (viewed w)) (l ++ others) (viewed w1) c' -> csteps (viewed w) c'.
Proof.
  intros Hc E Ha. pose proof (io_handler Hio) as Hh. assert (devices (viewed w) (viewed w1) /\ tau L (MSetLevel lv) l) as [Hd Ht].
  { unfold exec_SetLevel in E. apply bind_M_inv in E as (w0 & w2 & [= <- <-] & E). cbv zeta in E.
    apply bind_M_inv in E as (u & w2 & E1 & E). apply lift_inv in E1 as [_ ->]. apply bind_M_inv in E as (u1 & w2 & [= _ <-] & E).
    case_bool_decide; [|apply ret_inv in E as [-> ->]; split; [done|constructor]].
    apply bind_M_inv in E as (u2 & w3 & E1 & E). apply (devs_Tick L handler DelayedLoad Hh) in E1.
    apply bind_M_inv in E as (w0 & w4 & [= <- <-] & E). destruct (yieldOnReturn (interrupt w3)).
    - apply bind_M_inv in E as (u3 & w4 & [= _ <-] & E). apply bind_M_inv in E as (u4 & w5 & [= _ <-] & E). apply ret_inv in E as [-> ->].
      split; [exact E1|constructor].
    - apply ret_inv in E as [-> ->]. split; [exact E1|constructor]. }
  by eapply after_tau.
Qed.

(** ** Giving the processor away *)

Lemma Yield_sim w st others l w1 c' : placed L (viewed w) -> thr (viewed w) !! cur (viewed w) = Some (st, MYield :: others) ->
  exec_Yield w = Ok (l, w1) -> after (cur (viewed w)) (l ++ others) (viewed w1) c' -> csteps (viewed w) c'.
Proof.
  intros Hp Hc E Ha. unfold exec_Yield in E. apply bind_M_inv in E as (o & w2 & E1 & E). apply level_off_viewed in E1.
  apply bind_M_inv in E as (k0 & w3 & [= <- <-] & E). apply bind_M_inv in E as (n & w3 & E2 & E).
  apply FindNextToRun_view in E2 as [(-> & _ & ->)|(r & Hr & E2)].
  { apply ret_inv in E as [-> ->]. rewrite E1 in Ha. by eapply same_tau; [exact Hc|apply (tau_alone L o)|]. }
  rewrite E1 in *. assert (n <> cur (viewed w) /\ n <> 0) as [Hnc Hn0].
  { assert (n ∈ ready (viewed w)) as (x & Hx)%(pl_ready _ _ Hp) by (rewrite Hr; apply list_elem_of_here).
    destruct (placed_cur L (viewed w) _ _ Hp Hc) as (Hf & _). cbn in Hf. subst st. split; [congruence|]. intros ->.
    pose proof (pl_null _ _ Hp). congruence. }
  rewrite (proj2 (Z.eqb_neq _ _) Hn0) in E. apply bind_M_inv in E as (u1 & w4 & E3 & E). apply bind_M_inv in E as (u2 & w5 & E4 & E).
  apply ret_inv in E as [-> ->]. change (currentThread (rest w2)) with (cur (viewed w2)) in E3. rewrite E1 in E3.
  apply ReadyToRun_view in E3 as (th & r' & Hth & Hnr & Hi & E3). apply thr_view in Hth. change (view (rest w3)) with (viewed w3) in Hth.
  apply Run_view in E4 as (st' & stk' & Hn & _ & E4). rewrite E2 in *. cbn in Hth, Hnr, Hi, E3. rewrite E3 in *. cbn in Hn, E4. rewrite E4 in Ha.
  destruct Ha as (st1 & stk1 & Hst & ->). cbn in Hst |- *. change (fmap _ (threads (rest w))) with (thr (viewed w)) in *.
  change (currentThread (rest w)) with (cur (viewed w)) in *.
  rewrite lookup_insert_ne, lookup_insert_eq in Hst by done. injection Hst as <- <-. rewrite lookup_insert_ne in Hn by done.
  apply csteps_once. rewrite insert_insert_ne, insert_insert_eq by done.
  apply (c_yields L (viewed w) st o others n r r' st' stk'); try done. by rewrite lookup_insert_ne.
Qed.

Lemma Sleep_sim w b st others l w1 c' : placed L (viewed w) -> thr (viewed w) !! cur (viewed w) = Some (st, MSleep b :: others) ->
  exec_Sleep handler DelayedLoad b w = Ok (l, w1) -> after (cur (viewed w)) (l ++ others) (viewed w1) c' -> csteps (viewed w) c'.
Proof.
  intros Hp Hc E Ha. unfold exec_Sleep in E. apply bind_M_inv in E as (n & w2 & E1 & E).
  apply FindNextToRun_view in E1 as [(-> & _ & ->)|(r & Hr & E1)].
  { apply bind_M_inv in E as (u & w3 & E2 & E). apply ret_inv in E as [-> ->]. apply (devs_Idle L handler DelayedLoad (io_handler Hio)) in E2.
    destruct (device_stack L _ _ _ _ E2 Hc) as [Hcur (st' & Hc1)]. rewrite <- Hcur in Ha. apply (after_same _ _ _ _ _ Hc1) in Ha as ->.
    unfold put_cur. rewrite insert_id by done. apply csteps_quiet, devices_quiet. by destruct (viewed w3). }
  assert (n <> 0) as Hn0.
  { assert (n ∈ ready (viewed w)) as (x & Hx)%(pl_ready _ _ Hp) by (rewrite Hr; apply list_elem_of_here). intros ->.
    pose proof (pl_null _ _ Hp). congruence. }
  rewrite (proj2 (Z.eqb_neq _ _) Hn0) in E. apply bind_M_inv in E as (u2 & w5 & E2 & E). apply ret_inv in E as [-> ->].
  apply Run_view in E2 as (st' & stk' & Hn & Hd & E2). rewrite E1 in *. cbn in Hn, Hd, E2. rewrite E2 in Ha.
  destruct Ha as (st1 & stk1 & Hst & ->). cbn in Hst |- *. change (fmap _ (threads (rest w))) with (thr (viewed w)) in *.
  change (currentThread (rest w)) with (cur (viewed w)) in *. change (toBeDestroyed (scheduler (rest w))) with (dead (viewed w)) in *.
  apply csteps_once. destruct (decide (n = cur (viewed w))) as [->|Hne].
  - rewrite lookup_insert_eq in Hst. injection Hst as <- <-. rewrite insert_insert_eq.
    eapply eq_ind; [eapply (c_sleeps L (viewed w) st b others (cur (viewed w)) r (if b then cur (viewed w) else dead (viewed w))); try done|].
    + destruct b; [|done]. by split; [apply Hd|].
    + by rewrite lookup_insert_eq.
    + by rewrite insert_insert_eq.
  - rewrite lookup_insert_ne in Hst by done. rewrite Hc in Hst. injection Hst as <- <-. rewrite insert_insert_ne by done.
    apply (c_sleeps L (viewed w) st b others n r _) with (st' := st'); try done.
    + destruct b; [|done]. by split; [apply Hd|].
    + by rewrite lookup_insert_ne.
Qed.
(** A thread that starts or goes on first deletes the one that has finished. *)
Lemma resume_sim w m w1 st others l c' : placed L (viewed w) -> thr (viewed w) !! cur (viewed w) = Some (st, m :: others) ->
  m = MBegin \/ m = MSwitched -> tau L m l -> CheckToBeDestroyed w = Ok (tt, w1) -> after (cur (viewed w)) (l ++ others) (viewed w1) c' ->
  csteps (viewed w) c'.
Proof.
  intros Hp Hc Hm Ht E Ha. apply CheckToBeDestroyed_view in E as [[_ ->]|[Hd E]]; [by eapply same_tau|]. rewrite E in Ha.
  eapply csteps_after; [apply rtc_once; split; [by eapply (c_destroys L (viewed w))|done]|].
  assert (dead (viewed w) <> cur (viewed w)) as Hne by (destruct (pl_dead _ _ Hp) as [|[]]; done).
  eapply same_tau; [|exact Ht|exact Ha]. cbn. rewrite lookup_delete_ne by done. exact Hc.
Qed.

Lemma Finish_sim w st others l w1 c' : placed L (viewed w) -> thr (viewed w) !! cur (viewed w) = Some (st, MFinish :: others) ->
  exec_Finish w = Ok (l, w1) -> after (cur (viewed w)) (l ++ others) (viewed w1) c' -> csteps (viewed w) c'.
Proof.
  intros Hp Hc E Ha. unfold exec_Finish in E. apply bind_M_inv in E as (o & w2 & E1 & E). apply level_off_viewed in E1.
  apply bind_M_inv in E as (k0 & w3 & [= <- <-] & E). cbv zeta in E. change (currentThread (rest w2)) with (cur (viewed w2)) in E. rewrite E1 in E.
  apply bind_M_inv in E as (u1 & w3 & E2 & E). apply on_thread_inv in E2 as (th & Hth & ->).
  apply bind_M_inv in E as (th1 & w4 & E2 & E). apply the_thread_inv in E2 as [_ ->].
  apply bind_M_inv in E as (u2 & w4 & E2 & E). apply bind_M_inv in E as (u3 & w5 & E3 & E). apply assert_off_inv in E3 as ->.
  apply ret_inv in E as [-> ->]. match type of E2 with _ ?x = _ => set (wz := x) in * end.
  assert (viewed wz = viewed w4) as E4.
  { destruct (parent th1 =? 0); [by apply ret_inv in E2 as [_ ->]|]. by eapply keeps_childThreadExit. }
  assert (viewed wz = put_cur (viewed w) ZOMMBIE (stack th)) as Ez.
  { transitivity (view (set_threads (<[cur (viewed w) := with_status ZOMMBIE th]> (threads (rest w2))) (rest w2))); [done|].
    rewrite view_set_thread. change (view (rest w2)) with (viewed w2). change (currentThread (rest w2)) with (cur (viewed w2)). by rewrite E1. }
  rewrite <- E4, Ez in Ha. destruct Ha as (st1 & stk1 & Hst & ->). cbn in Hst |- *. rewrite lookup_insert_eq in Hst. injection Hst as <- <-.
  rewrite insert_insert_eq. apply csteps_once. by apply (c_finishes L (viewed w) st others).
Qed.

(** ** Semaphores *)

Lemma P_sim w s m o w0 st others l w1 c' : thr (viewed w) !! cur (viewed w) = Some (st, m :: others) ->
  m = MP s \/ m = MPLoop s o -> viewed w0 = viewed w ->
  P_test s o w0 = Ok (l, w1) -> after (cur (viewed w)) (l ++ others) (viewed w1) c' -> csteps (viewed w) c'.
Proof.
  intros Hc Hm Ev E Ha. unfold P_test in E. apply bind_M_inv in E as (k0 & w2 & [= <- <-] & E).
  apply bind_M_inv in E as (x & w2 & E1 & E). apply the_semaphore_inv in E1 as [Hs ->]. apply sem_view in Hs. change (view (rest w0)) with (viewed w0) in Hs.
  change (currentThread (rest w0)) with (cur (viewed w0)) in E. rewrite Ev in *. apply csteps_once. destruct (Z.eqb_spec (value x) 0) as [E0|E0].
  - apply bind_M_inv in E as (u1 & w2 & E1 & E). apply put_semaphore_view in E1 as [-> E1]. cbn [value queue] in E1.
    apply bind_M_inv in E as (u2 & w2 & E2 & E). apply assert_off_inv in E2 as ->. apply bind_M_inv in E as (u3 & w3 & E3 & E).
    apply ret_inv in E as [-> ->]. apply on_thread_inv in E3 as (th & Hth & ->). match type of Hth with threads (rest ?x) !! _ = _ => set (wq := x) in * end.
    change (viewed (on_rest _ wq)) with (view (set_threads (<[cur (viewed w) := with_status BLOCKED th]> (threads (rest wq))) (rest wq))) in Ha.
    rewrite view_set_thread in Ha. change (view (rest wq)) with (viewed wq) in Ha. change (currentThread (rest wq)) with (cur (viewed wq)) in Ha.
    rewrite E1, Ev, E0 in *. destruct Ha as (st1 & stk1 & Hst & ->). cbn [thr cur Threads.status with_status ready sem lck cond dead] in Hst |- *.
    rewrite lookup_insert_eq in Hst. injection Hst as <- <-. rewrite insert_insert_eq.
    by apply (c_blocks L (viewed w) st m s o others (queue x)).
  - apply bind_M_inv in E as (u1 & w2 & E1 & E). apply put_semaphore_view in E1 as [_ E1]. cbn [value queue] in E1. apply ret_inv in E as [-> ->].
    rewrite E1, Ev in Ha. destruct Ha as (st1 & stk1 & Hst & ->). cbn [thr] in Hst. rewrite Hc in Hst. injection Hst as <- <-.
    by apply (c_takes L (viewed w) st m s o others (value x) (queue x)).
Qed.

Lemma V_sim w s st others l w1 c' : placed L (viewed w) -> thr (viewed w) !! cur (viewed w) = Some (st, MV s :: others) ->
  exec (MV s) w = Ok (l, w1) -> after (cur (viewed w)) (l ++ others) (viewed w1) c' -> csteps (viewed w) c'.
Proof.
  intros Hp Hc E Ha. cbn [Threads.exec] in E. apply bind_M_inv in E as (o & w2 & E1 & E). apply level_off_viewed in E1.
  apply bind_M_inv in E as (u & w3 & E2 & E). apply ret_inv in E as [-> ->]. apply V_body_view in E2. rewrite E1 in E2.
  assert (st = RUNNING) as -> by (destruct (placed_cur L (viewed w) _ _ Hp Hc) as (Hf & _); exact Hf).
  pose proof (v_keeps_cur L s _ _ _ Hp E2 Hc) as Hc'. destruct (placed_v L s _ _ E2 Hp) as [_ Hcur].
  rewrite <- Hcur in Ha. apply (after_same _ _ _ _ _ Hc') in Ha as ->. apply csteps_once. by apply (c_signals L (viewed w) (viewed w3) RUNNING s o others).
Qed.

Lemma Delete_sim w s st others l w1 c' : thr (viewed w) !! cur (viewed w) = Some (st, MDelete s :: others) ->
  delete_semaphore s w = Ok (l, w1) -> after (cur (viewed w)) (l ++ others) (viewed w1) c' -> csteps (viewed w) c'.
Proof.
  intros Hc E Ha. unfold delete_semaphore in E. apply bind_M_inv in E as (x & w2 & E1 & E). apply the_semaphore_inv in E1 as [_ ->].
  apply bind_M_inv in E as (u & w2 & E1 & E). apply ret_inv in E as [-> ->].
  assert (viewed w2 = MkCore (cur (viewed w)) (thr (viewed w)) (ready (viewed w)) (delete s (sem (viewed w))) (lck (viewed w)) (cond (viewed w)) (dead (viewed w))) as Ev
    by (injection E1 as _ <-; unfold view; cbn; by rewrite fmap_delete).
  rewrite Ev in Ha. destruct Ha as (st1 & stk1 & Hst & ->). cbn [thr] in Hst. rewrite Hc in Hst. injection Hst as <- <-.
  apply csteps_once. by apply (c_deletes L (viewed w)).
Qed.

(** ** Locks and condition variables *)

Lemma put_lock_view l x w a w' : put_lock l x w = Ok (a, w') ->
  viewed w' = MkCore (cur (viewed w)) (thr (viewed w)) (ready (viewed w)) (sem (viewed w)) (<[l := (lockHolder x, semaphore x)]> (lck (viewed w))) (cond (viewed w)) (dead (viewed w)).
Proof. intros E. injection E as _ <-. unfold view. cbn. by rewrite fmap_insert. Qed.

Lemma put_condition_view cv x w a w' : put_condition cv x w = Ok (a, w') ->
  viewed w' = MkCore (cur (viewed w)) (thr (viewed w)) (ready (viewed w)) (sem (viewed w)) (lck (viewed w)) (<[cv := x]> (cond (viewed w))) (dead (viewed w)).
Proof. intros E. by injection E as _ <-. Qed.

Lemma held_view l w b w' u w2 : placed L (viewed w) -> IsHeldByCurrentThread l w = Ok (b, w') -> lift (ASSERT b) w' = Ok (u, w2) ->
  w2 = w /\ exists s, lck (viewed w) !! l = Some (cur (viewed w), s).
Proof.
  intros Hp E Ea. unfold IsHeldByCurrentThread in E. apply bind_M_inv in E as (k0 & w3 & [= <- <-] & E).
  apply bind_M_inv in E as (x & w3 & E1 & E). apply the_lock_inv in E1 as [Hl ->]. apply ret_inv in E as [-> ->].
  apply lift_inv in Ea as [Ha%ASSERT_Ok ->]. split; [done|]. exists (semaphore x). apply (lock_view w l x Hp) in Hl as [-> _].
  apply Z.eqb_eq in Ha. by rewrite Ha.
Qed.

Lemma Hold_sim w lk st others l w1 c' : placed L (viewed w) -> thr (viewed w) !! cur (viewed w) = Some (st, MHold lk :: others) ->
  exec (MHold lk) w = Ok (l, w1) -> after (cur (viewed w)) (l ++ others) (viewed w1) c' -> csteps (viewed w) c'.
Proof.
  intros Hp Hc E Ha. cbn [Threads.exec] in E. apply bind_M_inv in E as (k0 & w2 & [= <- <-] & E).
  apply bind_M_inv in E as (x & w2 & E1 & E). apply the_lock_inv in E1 as [Hl ->]. apply (lock_view w lk x Hp) in Hl as [Hl _].
  apply bind_M_inv in E as (u & w3 & E1 & E). apply ret_inv in E as [-> ->]. apply put_lock_view in E1. rewrite E1 in Ha.
  destruct Ha as (st1 & stk1 & Hst & ->). cbn [thr] in Hst. rewrite Hc in Hst. injection Hst as <- <-.
  apply csteps_once. by apply (c_holds L (viewed w) st lk (lockHolder x)).
Qed.

Lemma Release_sim w lk st others l w1 c' : placed L (viewed w) -> thr (viewed w) !! cur (viewed w) = Some (st, MRelease lk :: others) ->
  Release lk w = Ok (l, w1) -> after (cur (viewed w)) (l ++ others) (viewed w1) c' -> csteps (viewed w) c'.
Proof.
  intros Hp Hc E Ha. unfold Release in E. apply bind_M_inv in E as (b & w2 & E1 & E). apply bind_M_inv in E as (u & w3 & E2 & E).
  destruct (held_view _ _ _ _ _ _ Hp E1 E2) as (-> & s & Hs). apply bind_M_inv in E as (x & w4 & E3 & E). apply the_lock_inv in E3 as [Hl ->].
  apply bind_M_inv in E as (u1 & w4 & E3 & E). apply ret_inv in E as [-> ->]. apply put_lock_view in E3. rewrite E3 in Ha.
  apply (lock_view w lk x Hp) in Hl as [Hl _]. rewrite Hs in Hl. injection Hl as _ ->.
  destruct Ha as (st1 & stk1 & Hst & ->). cbn [thr] in Hst. rewrite Hc in Hst. injection Hst as <- <-.
  apply csteps_once. by apply (c_releases L (viewed w) st lk).
Qed.

Lemma Wait_sim w cv lk st others l w1 c' : placed L (viewed w) -> thr (viewed w) !! cur (viewed w) = Some (st, MWait cv lk :: others) ->
  Wait cv lk w = Ok (l, w1) -> after (cur (viewed w)) (l ++ others) (viewed w1) c' -> csteps (viewed w) c'.
Proof.
  intros Hp Hc E Ha. unfold Wait in E. apply bind_M_inv in E as (b & w2 & E1 & E). apply bind_M_inv in E as (u & w3 & E2 & E).
  destruct (held_view _ _ _ _ _ _ Hp E1 E2) as (-> & s & Hs). apply bind_M_inv in E as (k0 & w4 & [= <- <-] & E). cbv zeta in E.
  destruct (new_address_unused (semaphores (synch (rest w)))) as [Hn H0]. set (n := new_address (semaphores (synch (rest w)))) in *.
  apply bind_M_inv in E as (u1 & w4 & E3 & E). apply put_semaphore_view in E3 as [E3' E3]. cbn [value queue] in E3.
  apply bind_M_inv in E as (q & w5 & E4 & E). apply the_condition_inv in E4 as [Hq ->].
  apply bind_M_inv in E as (u2 & w5 & E4 & E). apply put_condition_view in E4. apply bind_M_inv in E as (a & w6 & E5 & E). apply ret_inv in E as [-> ->].
  unfold Acquire in E5. apply bind_M_inv in E5 as (x & w7 & E6 & E5). apply the_lock_inv in E6 as [Hl ->]. apply ret_inv in E5 as [-> ->].
  assert (lck (viewed w5) !! lk = Some (lockHolder x, semaphore x)) as Hl' by (cbn; by rewrite lookup_fmap, Hl).
  assert (cond (viewed w4) !! cv = Some q) as Hq' by done. rewrite E4, E3 in *. cbn [lck] in Hl'. cbn [cond] in Hq'. rewrite Hs in Hl'. injection Hl' as _ Hx. rewrite <- Hx in Ha.
  destruct Ha as (st1 & stk1 & Hst & ->). cbn [thr] in Hst. rewrite Hc in Hst. injection Hst as <- <-.
  apply csteps_once. apply (c_waits L (viewed w) st cv lk s others n q); try done. cbn. by rewrite lookup_fmap, Hn.
Qed.

Lemma Signal_sim w cv lk st others l w1 c' : placed L (viewed w) -> thr (viewed w) !! cur (viewed w) = Some (st, MSignal cv lk :: others) ->
  Signal cv lk w = Ok (l, w1) -> after (cur (viewed w)) (l ++ others) (viewed w1) c' -> csteps (viewed w) c'.
Proof.
  intros Hp Hc E Ha. unfold Signal in E. apply bind_M_inv in E as (b & w2 & E1 & E). apply bind_M_inv in E as (u & w3 & E2 & E).
  destruct (held_view _ _ _ _ _ _ Hp E1 E2) as (-> & _). apply bind_M_inv in E as (q & w5 & E4 & E). apply the_condition_inv in E4 as [Hq ->].
  destruct q as [|x q].
  - apply ret_inv in E as [-> ->]. by eapply same_tau; [exact Hc|constructor|].
  - apply bind_M_inv in E as (u2 & w5 & E4 & E). apply put_condition_view in E4. apply ret_inv in E as [-> ->]. rewrite E4 in Ha.
    destruct Ha as (st1 & stk1 & Hst & ->). cbn [thr] in Hst. rewrite Hc in Hst. injection Hst as <- <-.
    apply csteps_once. by apply (c_wakes L (viewed w) st cv lk).
Qed.

(** ** All pieces of code *)

Lemma exec_sim w m st others l w1 c' : placed L (viewed w) -> thr (viewed w) !! cur (viewed w) = Some (st, m :: others) ->
  exec m w = Ok (l, w1) -> after (cur (viewed w)) (l ++ others) (viewed w1) c' -> csteps (viewed w) c'.
Proof.
  intros Hp Hc E Ha. destruct m as [pc|lv|s| | | |b| |s|s o|s|lk|lk|cv lk|s|cv lk|cv lk|q x|q|q|q x].
  - by eapply code_sim.
  - by eapply SetLevel_sim.
  - cbn [Threads.exec] in E. apply bind_M_inv in E as (u & w2 & [= _ <-] & E). apply ret_inv in E as [-> ->].
    by eapply same_tau; [exact Hc|constructor|].
  - cbn [Threads.exec] in E. apply bind_M_inv in E as ([] & w2 & E1 & E). apply ret_inv in E as [-> ->].
    eapply resume_sim; [done|exact Hc|by left|apply tau_begin|exact E1|exact Ha].
  - by eapply Finish_sim.
  - by eapply Yield_sim.
  - by eapply Sleep_sim.
  - cbn [Threads.exec] in E. apply bind_M_inv in E as (k0 & w2 & [= <- <-] & E). apply bind_M_inv in E as ([] & w2 & E1 & E). apply ret_inv in E as [-> ->].
    apply Run_resumed_view in E1 as (w3 & E1 & Ev). rewrite Ev in Ha. eapply resume_sim; [done|exact Hc|by right|apply tau_switched|exact E1|exact Ha].
  - cbn [Threads.exec] in E. apply bind_M_inv in E as (o & w2 & E1 & E). apply level_off_viewed in E1.
    eapply P_sim; [exact Hc|by left|exact E1|exact E|exact Ha].
  - eapply P_sim; [exact Hc|by right|reflexivity|exact E|exact Ha].
  - by eapply V_sim.
  - by eapply Hold_sim.
  - by eapply Release_sim.
  - by eapply Wait_sim.
  - by eapply Delete_sim.
  - by eapply Signal_sim.
  - cbn [Threads.exec] in E. unfold Broadcast in E. apply bind_M_inv in E as (q & w2 & E1 & E). apply the_condition_inv in E1 as [_ ->].
    apply ret_inv in E as [-> ->]. eapply same_tau; [exact Hc| |exact Ha]. destruct q; constructor.
  - cbn [Threads.exec] in E. apply bind_M_inv in E as (u & w2 & E1%keeps_list_update & E). apply ret_inv in E as [-> ->]. rewrite <- E1 in Ha.
    by eapply same_tau; [exact Hc|constructor|].
  - cbn [Threads.exec] in E. apply bind_M_inv in E as (y & w2 & ->%the_list_inv & E). apply ret_inv in E as [-> ->].
    eapply same_tau; [exact Hc| |exact Ha]. destruct (items y); constructor.
  - cbn [Threads.exec] in E. apply bind_M_inv in E as (y & w2 & ->%the_list_inv & E). apply bind_M_inv in E as (u & w2 & E1%keeps_list_update & E).
    apply bind_M_inv in E as (u2 & w3 & E2%keeps_return_value & E). apply ret_inv in E as [-> ->]. rewrite <- E2, <- E1 in Ha.
    by eapply same_tau; [exact Hc|constructor|].
  - cbn [Threads.exec] in E. apply bind_M_inv in E as (u & w2 & E1%keeps_list_update & E). apply ret_inv in E as [-> ->]. rewrite <- E1 in Ha.
    by eapply same_tau; [exact Hc|constructor|].
Qed.

Lemma step_sim w w' : placed L (viewed w) -> step w = Ok (tt, w') -> csteps (viewed w) (viewed w').
Proof.
  intros Hp E. unfold Threads.step in E. apply bind_M_inv in E as (k0 & w2 & [= <- <-] & E). cbv zeta in E.
  apply bind_M_inv in E as (th & w2 & E1 & E). apply the_thread_inv in E1 as [Hth ->]. apply thr_view in Hth. change (view (rest w)) with (viewed w) in Hth.
  destruct (stack th) as [|m others]; [done|]. apply bind_M_inv in E as (l & w3 & E1 & E). eapply exec_sim; [done|exact Hth|exact E1|].
  by eapply put_stack_view.
Qed.
End Step.
End ThreadSim.
