(* ===== verification/ThreadSafety.v ===== *)
(** ThreadSafety: what holds of the kernel's threads in every state that the system reaches
    (Threads.reachable), from the invariants of ThreadCore.v: every thread is where its
    status says, no wakeup is lost, a lock passes from one holder to the next only over being
    free. *)

From S2P Require Import Prelude Bitmap CList Mips Machine Interrupt Threads ThreadCore ThreadSim.
From stdpp Require Import base numbers list gmap relations.
#[local] Open Scope Z_scope.

Module ThreadSafety.
Import Interrupt Threads ThreadCore ThreadSim.

#[local] Notation W := (World Kernel).
#[local] Notation viewed w := (view (rest w)).
Implicit Types (k : Kernel) (w : W).

(** The semaphores of the locks, and all others, as the system starts. *)
Definition layout (y : Synch) : Layout :=
  MkLayout (semaphore <$> locks y) (filter (fun s => map_Forall (fun _ x => semaphore x <> s) (locks y)) (dom (semaphores y))).

Lemma layout_lock y l s : lock_of (layout y) !! l = Some s <-> exists x, locks y !! l = Some x /\ s = semaphore x.
Proof. cbn. rewrite lookup_fmap, fmap_Some. done. Qed.

Lemma layout_plain y s : s ∈ plain (layout y) <-> is_Some (semaphores y !! s) /\ forall l x, locks y !! l = Some x -> semaphore x <> s.
Proof. cbn. rewrite elem_of_filter, elem_of_dom. unfold map_Forall. tauto. Qed.

Lemma layout_ok y : synch_new y -> Layout_ok (layout y).
Proof.
  intros Hy. split.
  - intros l l' s (x & Hl & ->)%layout_lock (x' & Hl' & E)%layout_lock. by eapply (sn_own _ Hy).
  - intros l s (x & Hl & ->)%layout_lock [_ Hn]%layout_plain. by eapply Hn.
Qed.

Section Start.
Context (y : Synch) (Hy : synch_new y).

(** The view of the state after Kernel::Initialize. *)
Definition start_core (t pc : Z) : Core :=
  MkCore t {[t := (RUNNING, [MSetLevel IntOn; MCode pc])]} [] ((fun x => (value x, queue x)) <$> semaphores y)
    ((fun x => (lockHolder x, semaphore x)) <$> locks y) (conditions y) 0.

Lemma Initialize_view raw pc w0 w : threads (rest w0) = ∅ -> synch (rest w0) = y -> Initialize raw pc w0 = Ok (tt, w) ->
  exists t, t <> 0 /\ viewed w = start_core t pc.
Proof.
  intros Hth Hs E. unfold Initialize in E. apply bind_M_inv in E as (b & w1 & E1 & E). apply lift_inv in E1 as [_ ->].
  apply bind_M_inv in E as (u1 & w1 & [= _ <-] & E). apply bind_M_inv in E as (t & w1 & E1 & E).
  apply createThread_view in E1. match type of E1 with _ /\ _ = ?x \/ _ => set (wm := x) in * end.
  assert (viewed wm = MkCore (currentThread (rest w0)) ∅ (readyList (scheduler (rest w0))) (sem (viewed w0)) (lck (viewed w0)) (cond (viewed w0)) (toBeDestroyed (scheduler (rest w0)))) as Em.
  { unfold wm, view. cbn. by rewrite Hth, fmap_empty. }
  apply bind_M_inv in E as (u2 & w2 & E2 & E). apply bind_M_inv in E as (u3 & w3 & E3 & E).
  apply bind_M_inv in E as (u4 & w4 & E4 & E).
  apply on_thread_inv in E3 as (th & Ht & ->). injection E2 as _ <-. change (threads (rest w1) !! t = Some th) in Ht. apply thr_view in Ht.
  destruct E1 as [[-> ->]|(_ & H0 & E1)]; [by rewrite Em in Ht|]. exists t. split; [done|].
  injection E4 as _ <-. apply put_stack_view in E as (st & stk & Hst & ->). 
  revert Hst. unfold view. cbn. rewrite fmap_insert, lookup_insert_eq. intros [= <- <-]. rewrite insert_insert_eq.
  rewrite Em in E1. unfold start_core.
  assert (forall f : Core -> gmap Z (ThreadStatus * list micro), f = thr -> f (viewed w1) = {[t := (JUST_CREATED, [])]}) as Hthr by (intros f ->; by rewrite E1).
  specialize (Hthr thr eq_refl). cbn in Hthr. rewrite Hthr. rewrite insert_singleton_eq.
  assert (sem (viewed w1) = sem (viewed w0)) as Hsem by (by rewrite E1). assert (lck (viewed w1) = lck (viewed w0)) as Hlck by (by rewrite E1).
  assert (cond (viewed w1) = cond (viewed w0)) as Hcond by (by rewrite E1). cbn in Hsem, Hlck, Hcond. rewrite Hsem, Hlck, Hcond, Hs. done.
Qed.

Lemma start_thread t pc u st stk : thr (start_core t pc) !! u = Some (st, stk) -> u = t /\ st = RUNNING /\ stk = [MSetLevel IntOn; MCode pc].
Proof. cbn. rewrite lookup_singleton_Some. intros [-> [= <- <-]]. done. Qed.

Lemma start_sem t pc s v q : sem (start_core t pc) !! s = Some (v, q) -> 0 <= v /\ q = [].
Proof. cbn. rewrite lookup_fmap. intros (x & Hx & [= -> ->])%fmap_Some. by apply (sn_semaphore _ Hy) in Hx. Qed.

Lemma start_quiet t pc u st stk s : thr (start_core t pc) !! u = Some (st, stk) -> ~ mentions s stk.
Proof. intros (_ & _ & ->)%start_thread. rewrite !mentions_cons. intros [|[|H]]; try done. by apply mentions_nil in H. Qed.

Lemma start_placed t pc : t <> 0 -> placed (layout y) (start_core t pc).
Proof.
  intros Ht. constructor; try done.
  - exists RUNNING, [MSetLevel IntOn; MCode pc]. split; [apply lookup_singleton_eq|done].
  - constructor.
  - intros u. split; [intros H; by apply not_elem_of_nil in H|]. intros (stk & (_ & H & _)%start_thread). done.
  - intros s v q [Hv ->]%start_sem. split; [done|]. split; [constructor|]. intros u H. by apply not_elem_of_nil in H.
  - intros u stk (_ & H & _)%start_thread. done.
  - by intros u stk (-> & _)%start_thread.
  - intros u st stk (-> & _ & ->)%start_thread. split; [by repeat constructor|done].
  - cbn. by rewrite lookup_singleton_ne.
  - by left.
  - intros s [[[x Hx] _]%layout_plain|(l & (x & Hl & ->)%layout_lock)]; cbn; rewrite lookup_fmap.
    + rewrite Hx. eauto.
    + apply (sn_lock _ Hy) in Hl as [_ ->]. eauto.
  - intros u st stk s Hu Hm. by eapply start_quiet in Hm.
  - intros u st stk (_ & _ & ->)%start_thread. apply deletes_last_cons. split; [|done]. apply deletes_last_cons. split; [apply deletes_last_nil|done].
  - intros l h s. cbn. rewrite !lookup_fmap. intros (x & -> & [= -> ->])%fmap_Some. done.
  - intros cv q w. cbn. intros ->%(sn_condition _ Hy) H. by apply not_elem_of_nil in H.
Qed.

Lemma start_awake t pc s : awake (start_core t pc) s.
Proof.
  exists []. split; [constructor|]. split; [intros u H; by apply not_elem_of_nil in H|]. intros v q [_ ->]%start_sem. done.
Qed.

Lemma start_lock t pc l s : lock_of (layout y) !! l = Some s -> lock_at (start_core t pc) l s AtSemaphore.
Proof.
  intros (x & Hl & ->)%layout_lock. apply (sn_lock _ Hy) in Hl as [Hh Hs]. constructor; try done.
  - intros u st stk (_ & _ & ->)%start_thread. cbn. by rewrite bool_decide_eq_false_2.
  - cbn. intros v q. rewrite lookup_fmap, Hs. by intros [= <- <-].
  - cbn. intros h s'. rewrite lookup_fmap. intros (z & Hz & [= -> ->])%fmap_Some. apply (sn_lock _ Hy) in Hz as [-> _]. done.
Qed.
End Start.

(** * Every state *)

Section Reachable.
Variable code : Z -> W -> call * Z.
Variable handler : Z -> W -> list action.
Variable DelayedLoad : list Z -> list Z.
Context (y : Synch) (Hy : synch_new y) (Hio : interface_ok (layout y) code handler).

#[local] Notation reachable := (reachable code handler DelayedLoad y).
#[local] Notation step := (step code handler DelayedLoad).
#[local] Notation L := (layout y).

(** What the rules of ThreadCore preserve. *)
Record safe c : Prop := {
  sf_placed : placed L c;
  sf_awake s : awake c s;
  sf_lock l s : lock_of L !! l = Some s -> exists p, lock_at c l s p
}.

Lemma cstep_safe c c' : cstep L c c' -> safe c -> safe c'.
Proof.
  intros Hs [Hp Ha Hl]. constructor.
  - by eapply cstep_placed.
  - intros s. by eapply cstep_awake.
  - intros l s Hls. destruct (Hl l s Hls) as [p Hlp]. by eapply cstep_lock; [apply layout_ok|..].
Qed.

Lemma csteps_safe c c' : rtc (cstep L) c c' -> safe c -> safe c'.
Proof. induction 1 as [|c c1 c2 H _ IH]; [done|]. intros Hs. by apply IH, (cstep_safe c). Qed.

Lemma reachable_safe w : reachable w -> safe (viewed w).
Proof.
  induction 1 as [w0 raw pc w Hth Hs E|w w' _ IH E].
  - destruct (Initialize_view y raw pc w0 w Hth Hs E) as (t & Ht & ->). constructor.
    + by apply start_placed.
    + intros s. by apply start_awake.
    + intros l s Hls. exists AtSemaphore. by apply start_lock.
  - eapply csteps_safe; [|exact IH]. apply csteps_rtc. eapply step_sim; [exact Hio|apply (sf_placed _ IH)|exact E].
Qed.
(** ** Locks *)

Lemma cstep_lock_change c c' l h s h' s' : safe c -> cstep L c c' -> lck c !! l = Some (h, s) -> lck c' !! l = Some (h', s') ->
  h' = h \/ (h = 0 /\ h' = cur c) \/ (h = cur c /\ h' = 0).
Proof.
  intros Hsafe Hstep Hl Hl'.
  assert (forall h0 l0 x v, lck c !! l0 = Some (v, x) -> <[l0 := (h0, x)]> (lck c) !! l = Some (h', s') -> h' = h \/ (l0 = l /\ v = h /\ h' = h0)) as Hset.
  { intros h0 l0 x v Hv. destruct (decide (l0 = l)) as [->|Hne].
    - rewrite lookup_insert_eq. intros [= <- <-]. right. split; [done|]. split; [congruence|done].
    - rewrite lookup_insert_ne by done. intros E. left. congruence. }
  destruct Hstep as [c st m rest ms Hc Ht|c c' x Hx Hv|c c' st x o rest Hc Hv|c st m x o rest q Hc Hm Hs|c st m x o rest v q Hc Hm Hs Hv
    |c st b rest n r d Hc Hr Hd st' stk' Hn|c st o rest n r r' st' stk' Hc Hr Hi Hn Hn'|c st pc rest t pc1 pc2 o r Hc Ht H0 Hi|c st m rest Hc Hm Hd|c st rest Hc
    |c st l0 v x rest Hc Hh|c st l0 x rest Hc Hh|c st cv l0 x rest w q Hc Hh Hw H0 Hq|c st cv l0 rest w q Hc Hq|c st x rest Hc]; cbn in Hl'; try (left; congruence).
  - left. destruct Hv; cbn in Hl'; congruence.
  - left. destruct Hv; cbn in Hl'; congruence.
  - destruct (Hset _ _ _ _ Hh Hl') as [|(-> & -> & ->)]; [by left|right; left]. split; [|done].
    pose proof (pl_locks _ _ (sf_placed _ Hsafe) _ _ _ Hh) as Hlo. destruct (sf_lock _ Hsafe _ _ Hlo) as [p Hp].
    assert (x = s) as -> by congruence. by apply (lock_holds L l s c st rest h p (sf_placed _ Hsafe) Hc Hl Hp).
  - destruct (Hset _ _ _ _ Hh Hl') as [|(-> & -> & ->)]; [by left|by right; right].
Qed.

Lemma quiet_lck c c' : rtc (quiet L) c c' -> cur c' = cur c /\ lck c' = lck c /\ rtc (cstep L) c c'.
Proof.
  induction 1 as [|c c1 c2 (H & E1 & E2) _ (IH1 & IH2 & IH3)]; [done|]. split; [congruence|]. split; [congruence|]. by eapply rtc_l.
Qed.

Lemma step_lock_change w w' l x x' : reachable w -> step w = Ok (tt, w') -> locks (synch (rest w)) !! l = Some x -> locks (synch (rest w')) !! l = Some x' ->
  lockHolder x' = lockHolder x \/ (lockHolder x = 0 /\ lockHolder x' = currentThread (rest w)) \/ (lockHolder x = currentThread (rest w) /\ lockHolder x' = 0).
Proof.
  intros Hr E Hl Hl'. pose proof (reachable_safe w Hr) as Hsafe.
  destruct (step_sim L code handler DelayedLoad Hio w w' (sf_placed _ Hsafe) E) as (c1 & Hq & Hc).
  assert (lck (viewed w) !! l = Some (lockHolder x, semaphore x)) as Hx by (cbn; by rewrite lookup_fmap, Hl).
  assert (lck (viewed w') !! l = Some (lockHolder x', semaphore x')) as Hx' by (cbn; by rewrite lookup_fmap, Hl').
  apply quiet_lck in Hq as (Hcur & Hlck & Hq). change (currentThread (rest w)) with (cur (viewed w)). rewrite <- Hcur. rewrite <- Hlck in Hx.
  destruct Hc as [->|Hc]; [left; congruence|]. eapply cstep_lock_change; [|exact Hc|exact Hx|exact Hx']. by eapply csteps_safe.
Qed.

Lemma lock_semaphore w l x z : reachable w -> locks (synch (rest w)) !! l = Some x -> semaphores (synch (rest w)) !! semaphore x = Some z ->
  0 <= value z <= 1 /\ (lockHolder x <> 0 -> value z = 0).
Proof.
  intros Hr Hl Hz. pose proof (reachable_safe w Hr) as Hsafe.
  assert (lck (viewed w) !! l = Some (lockHolder x, semaphore x)) as Hx by (cbn; by rewrite lookup_fmap, Hl).
  pose proof (pl_locks _ _ (sf_placed _ Hsafe) _ _ _ Hx) as Hlo. destruct (sf_lock _ Hsafe _ _ Hlo) as [p Hp].
  apply sem_view in Hz. rewrite (la_value _ _ _ _ Hp _ _ Hz). split; [destruct (bool_decide _); cbn; lia|].
  intros Hh. apply (la_holder _ _ _ _ Hp _ _ Hx) in Hh as ->. done.
Qed.

(** ** Threads *)

Definition ready_of w : list Z := readyList (scheduler (rest w)).
Definition thread_of w (t : Z) : option Thread := threads (rest w) !! t.
Definition waiting w (s t : Z) : Prop := exists x, semaphores (synch (rest w)) !! s = Some x /\ t ∈ queue x.

Lemma waiting_view w s t : waiting w s t <-> exists v q, sem (viewed w) !! s = Some (v, q) /\ t ∈ q.
Proof.
  unfold waiting. cbn. setoid_rewrite lookup_fmap. split.
  - intros (x & -> & H). cbn. eauto.
  - intros (v & q & (x & -> & [= -> ->])%fmap_Some & H). eauto.
Qed.

Lemma thread_view w t (P : ThreadStatus -> Prop) : (exists th, thread_of w t = Some th /\ P (Threads.status th)) <-> exists st stk, thr (viewed w) !! t = Some (st, stk) /\ P st.
Proof.
  unfold thread_of. split.
  - intros (th & E & H). apply thr_view in E. eauto.
  - intros (st & stk & (th & E & <- & _)%thr_view_inv & H). eauto.
Qed.

Lemma ready_iff w t : reachable w -> t ∈ ready_of w <-> exists th, thread_of w t = Some th /\ Threads.status th = READY.
Proof.
  intros Hr. pose proof (sf_placed _ (reachable_safe w Hr)) as Hp. rewrite (thread_view w t (fun st => st = READY)). change (ready_of w) with (ready (viewed w)).
  rewrite (pl_ready _ _ Hp). split; [intros (stk & H); eauto|intros (st & stk & H & ->); eauto].
Qed.

Lemma blocked_iff w t : reachable w -> (exists s, waiting w s t) <-> exists th, thread_of w t = Some th /\ Threads.status th = BLOCKED.
Proof.
  intros Hr. pose proof (sf_placed _ (reachable_safe w Hr)) as Hp. rewrite (thread_view w t (fun st => st = BLOCKED)). setoid_rewrite waiting_view. split.
  - intros (s & v & q & Hs & Ht). destruct (pl_queue _ _ Hp _ _ _ Hs) as (_ & _ & H). destruct (H t Ht) as (stk & E & _). eauto.
  - intros (st & stk & E & ->). destruct (pl_blocked _ _ Hp _ _ E) as (s & v & q & H). eauto.
Qed.

Lemma waiting_once w s s' t : reachable w -> waiting w s t -> waiting w s' t -> s = s'.
Proof.
  intros Hr (v & q & Hs & Ht)%waiting_view (v' & q' & Hs' & Ht')%waiting_view. pose proof (sf_placed _ (reachable_safe w Hr)) as Hp.
  destruct (pl_queue _ _ Hp _ _ _ Hs) as (_ & _ & H). destruct (pl_queue _ _ Hp _ _ _ Hs') as (_ & _ & H').
  destruct (H t Ht) as (stk & E & Hw). destruct (H' t Ht') as (stk' & E' & Hw'). assert (stk = stk') as <- by congruence. by eapply waits_for_inj.
Qed.

Lemma running_current w t th : reachable w -> thread_of w t = Some th -> Threads.status th = RUNNING -> t = currentThread (rest w).
Proof.
  intros Hr E Hs. pose proof (sf_placed _ (reachable_safe w Hr)) as Hp. apply thr_view in E. rewrite Hs in E. by apply (pl_running _ _ Hp) in E.
Qed.

Lemma ready_NoDup w : reachable w -> NoDup (ready_of w).
Proof. intros Hr. by apply (pl_nodup _ _ (sf_placed _ (reachable_safe w Hr))). Qed.

Lemma queue_NoDup w s x : reachable w -> semaphores (synch (rest w)) !! s = Some x -> NoDup (queue x) /\ 0 <= value x.
Proof. intros Hr Hs%sem_view. by apply (pl_queue _ _ (sf_placed _ (reachable_safe w Hr))) in Hs as (? & ? & _). Qed.

(** ** Wakeups *)

Lemma woken w s x : reachable w -> semaphores (synch (rest w)) !! s = Some x -> queue x <> [] ->
  exists ws, NoDup ws /\ value x <= Z.of_nat (length ws) /\
    forall t, t ∈ ws -> exists th, thread_of w t = Some th /\ (Threads.status th = READY \/ Threads.status th = RUNNING) /\ retries s (stack th).
Proof.
  intros Hr Hs%sem_view Hq. destruct (sf_awake _ (reachable_safe w Hr) s) as (ws & Hnd & Hact & Hle).
  exists ws. split; [done|]. split; [by eapply Hle|]. intros t Ht. destruct (Hact t Ht) as (st & stk & (th & E & <- & <-)%thr_view_inv & H). by exists th.
Qed.
End Reachable.

(** * A run

    The main thread forks another one and waits for semaphore 1; the other one takes lock 2,
    whose semaphore is 3, yields, signals semaphore 1 and releases the lock.  No device interrupts. *)

Definition sample_synch : Synch := MkSynch {[1 := MkSemaphore 0 []; 3 := MkSemaphore 1 []]} {[2 := MkLock 0 3]} ∅ ∅.
Definition sample_code (pc : Z) (_ : W) : call * Z :=
  if pc =? 0 then (CSpawn 0 0 10 [], 1) else if pc =? 1 then (CP 1, 2) else if pc =? 2 then (CHalt, 3)
  else if pc =? 10 then (CAcquire 2, 11) else if pc =? 11 then (CYield, 12) else if pc =? 12 then (CV 1, 13) else if pc =? 13 then (CRelease 2, 14)
  else (CExit, 0).
Definition sample_handler (_ : Z) (_ : W) : list action := [].
Definition sample_start : W := MkWorld Interrupt_new Statistics_new (MkKernel ∅ 0 (MkScheduler [] 0) (MkManager [] 0 (Bitmap.MkBitmap 0 0 [])) sample_synch (MkCpu [] 0 0 ∅)).

Fixpoint run (n : nat) (w : W) : res W :=
  match n with
  | O => Ok w
  | S n => '(_, w') ← step sample_code sample_handler id w; run n w'
  end.

Definition sample_boot : W := match Initialize [] 0 sample_start with Ok (_, w) => w | _ => sample_start end.
Definition sample (n : nat) : W := match run n sample_boot with Ok w => w | _ => sample_boot end.

#[local] Notation sampled := (reachable sample_code sample_handler id sample_synch).

Lemma run_reachable n w w' : sampled w -> run n w = Ok w' -> sampled w'.
Proof.
  revert w. induction n as [|n IH]; intros w Hw E; cbn in E; [by injection E as <-|].
  apply bind_Ok in E as ([[] w1] & E1 & E). eapply IH; [|exact E]. by eapply reach_step.
Qed.

Lemma sample_reachable n : sampled (sample n).
Proof.
  assert (sampled sample_boot) as H by (apply (reach_start _ _ _ _ sample_start [] 0); [done|done|vm_compute; reflexivity]).
  unfold sample. destruct (run n sample_boot) eqn:E; try done. by eapply run_reachable.
Qed.

Lemma sample_new : synch_new sample_synch.
Proof.
  constructor.
  - intros s x. cbn [semaphores locks conditions sample_synch]. intros [[<- <-]|[_ [<- <-]%lookup_singleton_Some]]%lookup_insert_Some; split; done.
  - intros l x. cbn [semaphores locks conditions sample_synch]. intros [<- <-]%lookup_singleton_Some. done.
  - intros l l' x x'. cbn [semaphores locks conditions sample_synch]. by intros [<- _]%lookup_singleton_Some [<- _]%lookup_singleton_Some.
  - intros c q. cbn [semaphores locks conditions sample_synch]. by rewrite lookup_empty.
Qed.

Lemma sample_interface : interface_ok (layout sample_synch) sample_code sample_handler.
Proof.
  constructor.
  - intros d w s H. by apply not_elem_of_nil in H.
  - intros pc w c pc'. assert (1 ∈ plain (layout sample_synch)) as H1.
    { apply layout_plain. split; [by eexists|]. intros l x. cbn [semaphores locks conditions sample_synch]. by intros [<- <-]%lookup_singleton_Some. }
    unfold sample_code. repeat (destruct (pc =? _); [by intros [= <- <-]|]). by intros [= <- <-].
Qed.

(** The state of the run in which the main thread (1) waits and the other one (2) runs with
    the lock. *)
Example sample_17 : let k := rest (sample 17) in currentThread k = 2 /\ readyList (scheduler k) = [] /\
  Threads.status <$> threads k !! 1 = Some BLOCKED /\ Threads.status <$> threads k !! 2 = Some RUNNING /\
  queue <$> semaphores (synch k) !! 1 = Some [1] /\ lockHolder <$> locks (synch k) !! 2 = Some 2.
Proof. vm_compute. done. Qed.

(** * The properties *)

(** C4. No thread is ever lost or in two places: in every state that the system reaches, for
    all code of threads and devices that uses the interface, the ready list has each READY
    thread once and no other, each BLOCKED thread and no other waits in the queue of exactly
    one semaphore, once, only the current thread is RUNNING, and the values of semaphores are
    not negative. *)
Theorem threads_in_place code handler DelayedLoad y w : synch_new y -> interface_ok (layout y) code handler ->
  reachable code handler DelayedLoad y w ->
  NoDup (ready_of w) /\
  (forall t, t ∈ ready_of w <-> exists th, thread_of w t = Some th /\ Threads.status th = READY) /\
  (forall t, (exists s, waiting w s t) <-> exists th, thread_of w t = Some th /\ Threads.status th = BLOCKED) /\
  (forall s s' t, waiting w s t -> waiting w s' t -> s = s') /\
  (forall t th, thread_of w t = Some th -> Threads.status th = RUNNING -> t = currentThread (rest w)) /\
  (forall s x, semaphores (synch (rest w)) !! s = Some x -> NoDup (queue x) /\ 0 <= value x).
Proof.
  intros Hy Hio Hr. split; [by eapply ready_NoDup|]. split; [intros t; by eapply ready_iff|]. split; [intros t; by eapply blocked_iff|].
  split; [intros s s' t; by eapply waiting_once|]. split; [intros t th; by eapply running_current|]. intros s x. by eapply queue_NoDup.
Qed.

Example threads_in_place_witness : NoDup (ready_of (sample 17)) /\ currentThread (rest (sample 17)) = 2 /\ waiting (sample 17) 1 1.
Proof.
  split; [exact (proj1 (threads_in_place sample_code sample_handler id sample_synch (sample 17) sample_new sample_interface (sample_reachable 17)))|].
  split; [vm_compute; reflexivity|]. exists (MkSemaphore 0 [1]). split; [vm_compute; reflexivity|apply list_elem_of_here].
Defined.

(** C5. No wakeup is lost: whenever threads wait in the queue of a semaphore, at least as many
    other threads as the semaphore's value are awake and about to test it (again). *)
Theorem no_lost_wakeup code handler DelayedLoad y w s x : synch_new y -> interface_ok (layout y) code handler ->
  reachable code handler DelayedLoad y w -> semaphores (synch (rest w)) !! s = Some x -> queue x <> [] ->
  exists ws, NoDup ws /\ value x <= Z.of_nat (length ws) /\
    forall t, t ∈ ws -> exists th, thread_of w t = Some th /\ (Threads.status th = READY \/ Threads.status th = RUNNING) /\ retries s (stack th).
Proof. intros Hy Hio Hr. by eapply woken. Qed.

Example no_lost_wakeup_witness : exists ws : list Z, NoDup ws /\ 0 <= Z.of_nat (length ws).
Proof.
  destruct (no_lost_wakeup sample_code sample_handler id sample_synch (sample 17) 1 (MkSemaphore 0 [1]) sample_new sample_interface (sample_reachable 17))
    as (ws & H1 & H2 & _); [vm_compute; reflexivity|done|]. by exists ws.
Defined.

(** C6. Locks exclude: a step changes the holder of a lock only from nobody to the running
    thread or from the running thread to nobody; the lock's semaphore is 0 or 1, and 0 while
    the lock is held. *)
Theorem lock_mutual_exclusion code handler DelayedLoad y w w' l x x' : synch_new y -> interface_ok (layout y) code handler ->
  reachable code handler DelayedLoad y w -> step code handler DelayedLoad w = Ok (tt, w') ->
  locks (synch (rest w)) !! l = Some x -> locks (synch (rest w')) !! l = Some x' ->
  (lockHolder x' = lockHolder x \/ (lockHolder x = 0 /\ lockHolder x' = currentThread (rest w)) \/
   (lockHolder x = currentThread (rest w) /\ lockHolder x' = 0)) /\
  (forall z, semaphores (synch (rest w)) !! semaphore x = Some z -> 0 <= value z <= 1 /\ (lockHolder x <> 0 -> value z = 0)).
Proof.
  intros Hy Hio Hr Hs Hl Hl'. split; [by eapply step_lock_change|]. intros z. by eapply lock_semaphore.
Qed.

Example lock_mutual_exclusion_witness : lockHolder (MkLock 2 3) <> 0 /\ value (MkSemaphore 0 []) = 0.
Proof.
  split; [done|]. refine (proj2 (proj2 (lock_mutual_exclusion sample_code sample_handler id sample_synch (sample 17) (sample 18) 2 (MkLock 2 3) (MkLock 2 3)
    sample_new sample_interface (sample_reachable 17) _ _ _) (MkSemaphore 0 []) _) _); [vm_compute; reflexivity..|done].
Defined.
End ThreadSafety.
