(* ===== verification/ThreadTable.v ===== *)
(** ThreadTable: the table of threads and their process identifiers (ThreadManager.cc) and the
    order of the ready list (scheduler.cc), in every state that the system reaches.

    Most pieces of kernel code touch neither the identifiers nor the priorities of threads;
    [Untouching] says so once for whatever is observed of the kernel. *)

From Stdlib Require Import Sorted.
From S2P Require Import Prelude Bitmap CList Mips Machine Interrupt Threads ThreadCore ThreadSim ThreadSafety.
From stdpp Require Import base numbers list gmap relations.
#[local] Open Scope Z_scope.

Module ThreadTable.
Import Interrupt Threads ThreadCore ThreadSim ThreadSafety.

#[local] Notation W := (World Kernel).
#[local] Notation viewed w := (view (rest w)).
Implicit Types (k : Kernel) (w : W).

(** * Pieces of code that leave the table alone *)

(** The relation [R] on what [g] observes of the kernel holds over the basic operations. *)
Record Untouching {X} (g : Kernel -> X) (R : relation X) : Prop := {
  un_order :: PreOrder R;
  un_thread t f : (forall th, pid (f th) = pid th /\ priority (f th) = priority th) -> sim g R (on_thread t f);
  un_ready t : sim g R (ReadyToRun t);
  un_next : sim g R FindNextToRun;
  un_synch k y : g (set_synch y k) = g k;
  un_cpu k c : g (set_cpu c k) = g k;
  un_current k t : g (set_current t k) = g k;
  un_dead k t : g (set_scheduler (MkScheduler (readyList (scheduler k)) t) k) = g k
}.

Create HintDb parts.

Section Untouched.
Context {X : Type} (g : Kernel -> X) (R : relation X) (Hun : Untouching g R).
Variable code : Z -> W -> call * Z.
Variable handler : Z -> W -> list action.
Variable DelayedLoad : list Z -> list Z.

#[local] Notation sim := (sim g R).

#[local] Instance un_preorder : PreOrder R := un_order _ _ Hun.

(** Goes through a sequence of calls whose parts are known. *)
Ltac parts := repeat first
  [ solve [auto with sims typeclass_instances parts]
  | solve [apply un_thread; [apply Hun|done]]
  | solve [apply sim_kmod; [apply _|intros; apply Hun]]
  | solve [apply un_ready, Hun] | solve [apply un_next, Hun]
  | apply sim_bind; [apply _| |intros ?] | apply sim_if | apply sim_mfor; [apply _|intros ? _] | case_match ].



Lemma un_ReadRegister i : sim (ReadRegister i).
Proof. unfold ReadRegister. parts. Qed.
Lemma un_WriteRegister i v : sim (WriteRegister i v).
Proof. unfold WriteRegister. parts. Qed.
Lemma un_RestoreState a : sim (RestoreState a).
Proof. unfold RestoreState. parts. Qed.
Lemma un_put_semaphore s x : sim (put_semaphore s x).
Proof. unfold put_semaphore. parts. Qed.
Lemma un_put_lock s x : sim (put_lock s x).
Proof. unfold put_lock. parts. Qed.
Lemma un_put_condition s x : sim (put_condition s x).
Proof. unfold put_condition. parts. Qed.
Lemma un_put_list s x : sim (put_list s x).
Proof. unfold put_list. parts. Qed.
Lemma un_load : sim (load DelayedLoad).
Proof. unfold load. parts. Qed.
Lemma un_the_semaphore s : sim (the_semaphore s).
Proof. unfold the_semaphore. parts. Qed.
Lemma un_the_lock s : sim (the_lock s).
Proof. unfold the_lock. parts. Qed.
Lemma un_the_condition s : sim (the_condition s).
Proof. unfold the_condition. parts. Qed.
Lemma un_the_list s : sim (the_list s).
Proof. unfold the_list. parts. Qed.
Lemma un_childThreadExit p t : sim (childThreadExit p t).
Proof. unfold childThreadExit. parts. Qed.
Lemma un_return_value x : sim (return_value x).
Proof. unfold return_value. parts. Qed.
#[local] Hint Resolve un_ReadRegister un_WriteRegister un_RestoreState un_put_semaphore un_put_lock un_put_condition un_put_list un_load
  un_the_semaphore un_the_lock un_the_condition un_the_list un_childThreadExit un_return_value : parts.

Lemma un_SaveUserState t : sim (SaveUserState t).
Proof. unfold SaveUserState. parts. Qed.
Lemma un_RestoreUserState t : sim (RestoreUserState t).
Proof. unfold RestoreUserState. parts. Qed.
Lemma un_V_body s : sim (V_body s).
Proof. unfold V_body. parts. Qed.
Lemma un_P_test s o : sim (P_test s o).
Proof. unfold P_test. parts. Qed.
Lemma un_list_update q f : sim (list_update q f).
Proof. unfold list_update. parts. Qed.
Lemma un_held l : sim (IsHeldByCurrentThread l).
Proof. unfold IsHeldByCurrentThread. parts. Qed.
Lemma un_Acquire l : sim (Acquire l).
Proof. unfold Acquire. parts. Qed.
Lemma un_Run n b : sim (Run n b).
Proof. unfold Run. apply sim_bind; [apply _|parts|]. intros k. pose proof un_SaveUserState. parts. Qed.
#[local] Hint Resolve un_SaveUserState un_RestoreUserState un_V_body un_P_test un_list_update un_held un_Acquire un_Run : parts.

Lemma un_action d a : sim (run_action d a).
Proof. destruct a; cbn; [parts|apply sim_Schedule, Hun|apply sim_YieldOnReturn, Hun]. Qed.
Lemma un_actions d l : sim (run_actions d l).
Proof. induction l as [|a l IH]; cbn; [parts|]. apply sim_bind; [apply Hun|apply un_action|]. intros _. apply IH. Qed.
Lemma un_CallBack d : sim (CallBack handler d).
Proof. unfold CallBack. apply sim_bind; [apply Hun|parts|]. intros w. apply un_actions. Qed.
Lemma un_Idle : sim (Idle (CallBack handler) (load DelayedLoad)).
Proof. apply sim_Idle; [apply Hun|apply un_load|apply un_CallBack]. Qed.
Lemma un_SetLevel l : sim (exec_SetLevel handler DelayedLoad l).
Proof. apply sim_SetLevel; [apply Hun|apply un_load|apply un_CallBack]. Qed.
#[local] Hint Resolve un_Idle un_SetLevel : parts.

Lemma un_call c : match c with CSpawn _ _ _ _ | CSetPriority _ => False | _ => True end -> sim (do_call c).
Proof. intros Hc. destruct c; try done; cbn; unfold SynchList_Append, SynchList_RemoveFront, SynchList_Remove; parts. Qed.

(** Every piece of code but a thread's own, and where finished threads are deleted. *)
Lemma un_exec m : match m with MCode _ | MBegin | MSwitched => False | _ => True end -> sim (exec code handler DelayedLoad m).
Proof.
  intros Hm. destruct m; try done; cbn [exec]; unfold Semaphore_P, Semaphore_V, exec_Finish, exec_Yield, exec_Sleep, Release, Wait, delete_semaphore, Signal, Broadcast, setStatus; parts.
Qed.

Lemma un_resumed t : sim CheckToBeDestroyed -> sim (Run_resumed t).
Proof. intros Hd. unfold Run_resumed. parts. Qed.
End Untouched.

(** * Process identifiers *)

Definition table k : ThreadManager * gmap Z Z := (threadManager k, pid <$> threads k).

(** The list has the threads that exist; each has an identifier below [THREAD_COUNT_MAX] of
    its own, and those are the bits that are set. *)
Record tabled (x : ThreadManager * gmap Z Z) : Prop := {
  tb_wf : Bitmap.wf (threadMap x.1);
  tb_bits : Bitmap.numBits (threadMap x.1) = THREAD_COUNT_MAX;
  tb_nodup : NoDup (threadList x.1);
  tb_list t : t ∈ threadList x.1 <-> is_Some (x.2 !! t);
  tb_pid t p : x.2 !! t = Some p -> 0 <= p < THREAD_COUNT_MAX /\ Bitmap.bit (threadMap x.1) p = true;
  tb_inj t t' p : x.2 !! t = Some p -> x.2 !! t' = Some p -> t = t';
  tb_used p : 0 <= p < THREAD_COUNT_MAX -> Bitmap.bit (threadMap x.1) p = true -> exists t, x.2 !! t = Some p;
  tb_count : threadCnt x.1 = Z.of_nat (length (threadList x.1)) /\ threadCnt x.1 < THREAD_COUNT_MAX
}.

Definition keeps_table (x x' : ThreadManager * gmap Z Z) : Prop := tabled x -> tabled x'.

#[export] Instance keeps_table_order : PreOrder keeps_table.
Proof. split; [intros x H; exact H|]. intros x y z H1 H2 H. by apply H2, H1. Qed.

#[local] Notation keeps := (sim table keeps_table).

Lemma table_thread t f : (forall th, pid (f th) = pid th) -> keeps (on_thread t f).
Proof.
  intros Hf. apply sim_on_thread_to. intros k th Hth. unfold table. cbn. rewrite fmap_insert, Hf, insert_id; [by intros|].
  by rewrite lookup_fmap, Hth.
Qed.

Lemma table_untouching : Untouching table keeps_table.
Proof.
  constructor; try done; try apply _.
  - intros t f Hf. apply table_thread. apply Hf.
  - intros t. unfold ReadyToRun. apply sim_bind; [apply _|sims|]. intros _. apply sim_bind; [apply _|by apply table_thread|]. intros _. sims.
  - unfold FindNextToRun. sims.
Qed.

(** As many identifiers are in use as there are threads. *)
Lemma free_pid x : tabled x -> threadCnt x.1 + 1 < THREAD_COUNT_MAX -> ~ forall j, 0 <= j < THREAD_COUNT_MAX -> Bitmap.bit (threadMap x.1) j = true.
Proof.
  intros Hx Hc Hall. assert (range 0 THREAD_COUNT_MAX ⊆+ omap (fun t => x.2 !! t) (threadList x.1)) as Hs.
  { apply NoDup_submseteq; [apply NoDup_seqZ|]. intros p Hp%elem_of_range. apply list_elem_of_omap.
    destruct (tb_used _ Hx p Hp (Hall p Hp)) as [t Ht]. exists t. split; [|done]. apply (tb_list _ Hx). eauto. }
  apply submseteq_length in Hs. unfold range in Hs. rewrite length_seqZ in Hs.
  assert (length (omap (fun t => x.2 !! t) (threadList x.1)) <= length (threadList x.1))%nat as Hl.
  { generalize (threadList x.1) as l. induction l as [|t l IH]; [done|]. cbn. destruct (x.2 !! t); cbn; lia. }
  destruct (tb_count _ Hx) as [Hn _]. unfold THREAD_COUNT_MAX in *. lia.
Qed.

Lemma tabled_new m pids t id b : tabled (m, pids) -> pids !! t = None -> threadCnt m + 1 < THREAD_COUNT_MAX ->
  Bitmap.FindAndSet (threadMap m) = Ok (id, b) -> tabled (MkManager (threadList m ++ [t]) (threadCnt m + 1) b, <[t := id]> pids).
Proof.
  intros Hx Ht Hc E. destruct (Bitmap.FindAndSet_correct (threadMap m) (tb_wf _ Hx)) as (r & E' & Hr). rewrite E in E'. injection E' as <-.
  destruct Hr as [(_ & _ & Hall)|(Hid & Hclear & _ & Hwf & Hn & Hb)].
  { pose proof (tb_bits _ Hx) as Hbits. cbn in Hbits. rewrite Hbits in Hall. by apply (free_pid _ Hx Hc) in Hall. }
  cbn in Hid, Hclear, Hwf, Hn, Hb. pose proof (tb_bits _ Hx) as Hbits. cbn in Hbits. rewrite Hbits in Hid. assert (forall u p, pids !! u = Some p -> p <> id) as Hne.
  { intros u p Hu ->. apply (tb_pid _ Hx u id) in Hu as [_ Hu]. cbn in Hu. congruence. }
  assert (t ∉ threadList m) as Hnt by (intros H%(tb_list _ Hx); destruct H; cbn in *; congruence).
  destruct Hx as [X1 X2 X3 X4 X5 X6 X7 [X8 X9]]. cbn in *. constructor; cbn.
  - done.
  - congruence.
  - apply NoDup_app. split; [done|]. split; [|apply NoDup_singleton]. by intros u Hu ->%list_elem_of_singleton.
  - intros u. rewrite elem_of_app, X4, list_elem_of_singleton. destruct (decide (u = t)) as [->|Hu]; [rewrite lookup_insert_eq; split; eauto|].
    rewrite lookup_insert_ne by done. naive_solver.
  - intros u p. destruct (decide (u = t)) as [->|Hu].
    + rewrite lookup_insert_eq. intros [= <-]. split; [done|]. rewrite Hb by lia. by rewrite Z.eqb_refl.
    + rewrite lookup_insert_ne by done. intros H. destruct (X5 u p H) as [Hp Hbit]. split; [done|]. rewrite Hb by lia. by rewrite Hbit, orb_true_r.
  - intros u u' p. destruct (decide (u = t)) as [->|Hu], (decide (u' = t)) as [->|Hu']; rewrite ?lookup_insert_eq, ?lookup_insert_ne by done; [done| | |apply X6].
    + intros [= <-] H. by apply Hne in H.
    + intros H [= <-]. by apply Hne in H.
  - intros p Hp. rewrite Hb by lia. destruct (Z.eqb_spec p id) as [->|Hpid]; [exists t; by rewrite lookup_insert_eq|].
    cbn. intros H. destruct (X7 p Hp H) as [u Hu]. exists u. rewrite lookup_insert_ne; [done|]. intros <-. congruence.
  - rewrite length_app. cbn. split; lia.
Qed.

Lemma createThread_table uid raw w t w' : tabled (table (rest w)) -> createThread uid raw w = Ok (t, w') -> tabled (table (rest w')).
Proof.
  intros Hx E. unfold createThread in E. apply bind_M_inv in E as (k0 & w0 & [= <- <-] & E).
  destruct (Z.ltb_spec (threadCnt (threadManager (rest w)) + 1) THREAD_COUNT_MAX) as [Hc|Hc]; [|by injection E as <- <-].
  apply bind_M_inv in E as (u & w1 & [= _ <-] & E). apply bind_M_inv in E as (id & w2 & E1 & E).
  unfold generateThreadID in E1. apply bind_M_inv in E1 as (k1 & w3 & [= <- <-] & E1). cbn in E1.
  destruct (Bitmap.FindAndSet (threadMap (threadManager (rest w)))) as [[i b]| | | |] eqn:Eb; try done. cbn in E1. injection E1 as <- <-.
  apply bind_M_inv in E as (k1 & w3 & [= <- <-] & E). cbv zeta in E. cbn [rest on_rest threads set_manager currentThread threadManager threadCnt] in E.
  destruct (new_address_unused (threads (rest w))) as [Hn H0]. set (n := new_address (threads (rest w))) in *.
  apply bind_M_inv in E as (u1 & w4 & E4 & E). apply bind_M_inv in E as (u2 & w5 & E5 & E).
  apply bind_M_inv in E as (k2 & w6 & [= <- <-] & E). apply bind_M_inv in E as (u3 & w7 & [= _ <-] & E). apply ret_inv in E as [-> ->].
  assert (table (rest w4) = (MkManager (threadList (threadManager (rest w))) (threadCnt (threadManager (rest w)) + 1) b, <[n := i]> (pid <$> threads (rest w)))) as E4'.
  { injection E4 as _ <-. unfold table. cbn. by rewrite fmap_insert. }
  assert (table (rest w5) = table (rest w4)) as E5'.
  { destruct (1 <? threadCnt (threadManager (rest w)) + 1); [|by apply ret_inv in E5 as [_ ->]]. unfold addChild in E5.
    destruct (n =? 0); [by apply ret_inv in E5 as [_ ->]|]. apply on_thread_inv in E5 as (th & Hth & ->). unfold table. cbn. rewrite fmap_insert. cbn.
    f_equal. apply insert_id. by rewrite lookup_fmap, Hth. }
  rewrite E4' in E5'. unfold table in E5'. injection E5' as E6 E7. unfold table. cbn. rewrite E6, E7. cbn.
  apply (tabled_new (threadManager (rest w)) (pid <$> threads (rest w))); [done| |done|done]. by rewrite lookup_fmap, Hn.
Qed.

Lemma list_remove_Ok x l l' : list_remove x l = Ok l' -> l ≡ₚ x :: l'.
Proof.
  unfold list_remove. intros E. apply bind_Ok in E as (u & Hx%ASSERT_Ok%bool_decide_eq_true & E).
  apply bind_Ok in E as (u2 & _ & E). injection E as <-. by apply CList.remove_first_perm.
Qed.

Lemma tabled_delete m pids t id b l : tabled (m, pids) -> pids !! t = Some id -> Bitmap.Clear (threadMap m) id = Ok b ->
  threadList m ≡ₚ t :: l -> tabled (MkManager l (threadCnt m - 1) b, delete t pids).
Proof.
  intros Hx Ht E Hl. destruct (tb_pid _ Hx t id Ht) as [Hid _]. pose proof (tb_bits _ Hx) as Hbits. cbn in Hbits.
  destruct (Bitmap.Clear_correct (threadMap m) id (tb_wf _ Hx)) as (b' & E' & Hwf & Hn & Hb); [lia|]. rewrite E in E'. injection E' as <-.
  destruct Hx as [X1 X2 X3 X4 X5 X6 X7 [X8 X9]]. cbn in *. rewrite Hl in X3. apply NoDup_cons in X3 as [Htl Hnd].
  constructor; cbn.
  - done.
  - congruence.
  - done.
  - intros u. rewrite lookup_delete_is_Some, <- X4, Hl, elem_of_cons. split; [|naive_solver]. intros Hu. split; [|by right]. by intros ->.
  - intros u p [Hu Hp]%lookup_delete_Some. destruct (X5 u p Hp) as [Hr Hbit]. split; [done|]. rewrite Hb, Hbit by lia.
    destruct (Z.eqb_spec p id) as [->|]; [|done]. destruct Hu. by apply (X6 _ _ id).
  - intros u u' p [_ Hu]%lookup_delete_Some [_ Hu']%lookup_delete_Some. by eapply X6.
  - intros p Hp. rewrite Hb by lia. destruct (Z.eqb_spec p id) as [->|Hne]; [done|]. cbn. intros H. destruct (X7 p Hp H) as [u Hu].
    exists u. apply lookup_delete_Some. split; [|done]. intros <-. congruence.
  - rewrite Hl in X8. cbn in X8. lia.
Qed.

Lemma keeps_deleteThread t : keeps (deleteThread t).
Proof.
  intros w a w' E Hx. unfold deleteThread in E. destruct (t =? 0); [by apply ret_inv in E as [_ ->]|].
  apply bind_M_inv in E as (th & w1 & E1 & E). apply the_thread_inv in E1 as [Hth ->].
  apply bind_M_inv in E as (k0 & w1 & [= <- <-] & E). cbv zeta in E. apply bind_M_inv in E as (b & w1 & E1 & E). apply lift_inv in E1 as [Hb ->].
  apply bind_M_inv in E as (l & w1 & E1 & E). apply lift_inv in E1 as [Hl%list_remove_Ok ->].
  apply bind_M_inv in E as (u & w1 & [= _ <-] & E). apply bind_M_inv in E as (u1 & w1 & E1 & E). apply lift_inv in E1 as [_ ->].
  injection E as _ <-. unfold table. cbn. rewrite fmap_delete.
  eapply tabled_delete; [exact Hx| |exact Hb|exact Hl]. by rewrite lookup_fmap, Hth.
Qed.

Lemma keeps_CheckToBeDestroyed : keeps CheckToBeDestroyed.
Proof. unfold CheckToBeDestroyed. pose proof keeps_deleteThread. sims. Qed.

Lemma keeps_spawn uid prio pc raw : keeps (spawn uid prio pc raw).
Proof.
  unfold spawn, Fork. apply sim_bind; [apply _| |].
  { intros w t w' E Hx. by eapply createThread_table. }
  intros t. apply sim_bind; [apply _|by apply table_thread|]. intros _. apply sim_bind; [apply _|apply (un_return_value _ _ table_untouching)|]. intros _.
  apply sim_bind; [apply _|by apply table_thread|]. intros _. apply sim_bind; [apply _|sims|]. intros o.
  apply sim_bind; [apply _|apply table_untouching|]. intros _. sims.
Qed.

Section Pids.
Variable code : Z -> W -> call * Z.
Variable handler : Z -> W -> list action.
Variable DelayedLoad : list Z -> list Z.

Lemma keeps_exec m : keeps (exec code handler DelayedLoad m).
Proof.
  assert (match m with MCode _ | MBegin | MSwitched => False | _ => True end \/ m = MBegin \/ m = MSwitched \/ exists pc, m = MCode pc)
    as [Hm|[->|[->|(pc & ->)]]] by (destruct m; eauto); cbn [exec].
  - by apply (un_exec _ _ table_untouching).
  - apply sim_bind; [apply _|apply keeps_CheckToBeDestroyed|]. intros _. sims.
  - apply sim_bind; [apply _|sims|]. intros k. apply sim_bind; [apply _|apply (un_resumed _ _ table_untouching), keeps_CheckToBeDestroyed|]. intros _. sims.
  - apply sim_bind; [apply _|sims|]. intros w. destruct (code pc w) as [c pc']. apply sim_bind; [apply _| |intros l; sims].
    destruct c; try (by apply (un_call _ _ table_untouching)); [apply keeps_spawn|].
    cbn [do_call]. unfold setPriority. apply sim_bind; [apply _|sims|]. intros k. apply sim_bind; [apply _|by apply table_thread|]. intros _. sims.
Qed.

Lemma step_tabled w w' : step code handler DelayedLoad w = Ok (tt, w') -> tabled (table (rest w)) -> tabled (table (rest w')).
Proof.
  intros E. assert (keeps (step code handler DelayedLoad)) as H; [|by apply (H w tt)]. unfold step.
  apply sim_bind; [apply _|sims|]. intros k. apply sim_bind; [apply _|sims|]. intros th. destruct (stack th); [sims|].
  apply sim_bind; [apply _|apply keeps_exec|]. intros l0. by apply table_thread.
Qed.

Lemma Initialize_tabled raw pc w0 w : threads (rest w0) = ∅ -> Initialize raw pc w0 = Ok (tt, w) -> tabled (table (rest w)).
Proof.
  intros Hth E. unfold Initialize in E. apply bind_M_inv in E as (b & w1 & E1 & E). apply lift_inv in E1 as [Eb ->].
  destruct (Bitmap.Bitmap_new_correct THREAD_COUNT_MAX) as (b' & Eb' & Hwf & Hn & Hb); [done|]. rewrite Eb in Eb'. injection Eb' as <-.
  apply bind_M_inv in E as (u1 & w1 & [= _ <-] & E). match type of E with _ ?w1 = _ => assert (tabled (table (rest w1))) as H0 end.
  { clear E Eb. constructor; cbn; rewrite ?Hth, ?fmap_empty.
    - done.
    - done.
    - constructor.
    - intros t. rewrite lookup_empty. split; [by intros H%not_elem_of_nil|by intros [? ?]].
    - intros t p. by rewrite lookup_empty.
    - intros t t' p. by rewrite lookup_empty.
    - intros p Hp. rewrite Hb by lia. done.
    - done. }
  revert H0. match type of E with ?m _ = _ => assert (keeps m) as H; [|exact (H _ tt _ E)] end.
  apply sim_bind; [apply _|intros w2 t w3 E2 Hx; by eapply createThread_table|]. intros t.
  apply sim_bind; [apply _|sims|]. intros _. apply sim_bind; [apply _|by apply table_thread|]. intros _. apply sim_bind; [apply _|sims|]. intros _.
  by apply table_thread.
Qed.

Lemma reachable_tabled y w : reachable code handler DelayedLoad y w -> tabled (table (rest w)).
Proof. induction 1 as [w0 raw pc w Hth _ E|w w' _ IH E]; [by eapply Initialize_tabled|by eapply step_tabled]. Qed.
End Pids.

Lemma find_pid_spec m id l : (forall t, t ∈ l -> is_Some (m !! t)) ->
  exists r, find_pid m id l = Ok r /\ ((r = 0 /\ forall t th, t ∈ l -> m !! t = Some th -> pid th <> id) \/ (r ∈ l /\ exists th, m !! r = Some th /\ pid th = id)).
Proof.
  induction l as [|t l IH]; intros Hl; cbn.
  - exists 0. split; [done|]. left. split; [done|]. intros t th H. by apply not_elem_of_nil in H.
  - destruct (Hl t) as [th Hth]; [apply list_elem_of_here|]. rewrite Hth. cbn. destruct (Z.eqb_spec (pid th) id) as [E|E].
    + exists t. split; [done|]. right. split; [apply list_elem_of_here|eauto].
    + destruct IH as (r & -> & Hr); [intros u Hu; apply Hl; by right|]. exists r. split; [done|]. destruct Hr as [[-> Hn]|[Hr Hth']]; [left|right].
      * split; [done|]. intros u thu [->|Hu]%elem_of_cons Hm; [congruence|by eapply Hn].
      * split; [by right|done].
Qed.

Lemma getThreadPtr_spec w id : tabled (table (rest w)) -> 0 <= id < THREAD_COUNT_MAX ->
  exists r, getThreadPtr id w = Ok (r, w) /\
    ((r = 0 /\ forall t th, threads (rest w) !! t = Some th -> pid th <> id) \/ (exists th, threads (rest w) !! r = Some th /\ pid th = id)).
Proof.
  intros Hx Hid. assert (forall t th, threads (rest w) !! t = Some th -> (table (rest w)).2 !! t = Some (pid th)) as Hp by (intros t th E; cbn; by rewrite lookup_fmap, E).
  unfold getThreadPtr. rewrite (bind_M_Ok kget _ w w (rest w)) by done.
  rewrite Bitmap.Test_spec; [|exact (tb_wf _ Hx)|pose proof (tb_bits _ Hx) as Hn; cbn in Hn; lia]. rewrite bind_lift_Ok.
  destruct (Bitmap.bit (threadMap (threadManager (rest w))) id) eqn:Hb.
  - destruct (find_pid_spec (threads (rest w)) id (threadList (threadManager (rest w)))) as (r & E & Hr).
    { intros t Ht. apply (tb_list _ Hx) in Ht. cbn in Ht. rewrite lookup_fmap in Ht. by apply fmap_is_Some in Ht. }
    exists r. rewrite E. split; [done|]. destruct Hr as [[-> Hn]|[_ Hr]]; [left|by right]. split; [done|]. intros t th Ht.
    apply (Hn t); [|done]. apply (tb_list _ Hx). rewrite (Hp _ _ Ht). eauto.
  - exists 0. split; [done|]. left. split; [done|]. intros t th Ht E. destruct (tb_pid _ Hx t (pid th) (Hp _ _ Ht)) as [_ H]. cbn in H. rewrite E in H. congruence.
Qed.

(** * The order of the ready list *)

Definition order k : list Z * gmap Z Z := (readyList (scheduler k), priority <$> threads k).

(** [a] may stand before [b]. *)
Definition before (m : gmap Z Z) (a b : Z) : Prop := forall pa pb, m !! a = Some pa -> m !! b = Some pb -> pa <= pb.
Definition ordered (x : list Z * gmap Z Z) : Prop := StronglySorted (before x.2) x.1.
Definition keeps_order (x x' : list Z * gmap Z Z) : Prop := ordered x -> ordered x'.

#[export] Instance keeps_order_order : PreOrder keeps_order.
Proof. split; [intros x H; exact H|]. intros x y z H1 H2 H. by apply H2, H1. Qed.

#[local] Notation orders := (sim order keeps_order).

Lemma ordered_ext l m m' : (forall u p, u ∈ l -> m' !! u = Some p -> m !! u = Some p) -> ordered (l, m) -> ordered (l, m').
Proof.
  unfold ordered. cbn. intros Hm Hs. induction Hs as [|a l Hs IH Hf]; [constructor|]. constructor.
  - apply IH. intros u p Hu. apply Hm. by right.
  - rewrite Forall_forall in *. intros b Hb pa pb Ha Hpb. apply (Hf b Hb); apply Hm; [left|done|by right|done].
Qed.

Lemma ordered_tail a l m : ordered (a :: l, m) -> ordered (l, m).
Proof. intros H. by apply StronglySorted_inv in H as [H _]. Qed.

Lemma compare_priority x y : (ThreadPriorityCompare x y <? 0) = (priority x <? priority y).
Proof. unfold ThreadPriorityCompare. destruct (priority x <? priority y); [done|]. by destruct (priority x >? priority y). Qed.

Lemma insert_ready_ordered m t th l l' : m !! t = Some th -> insert_ready m t th l = Ok l' -> ordered (l, priority <$> m) -> ordered (l', priority <$> m).
Proof.
  intros Ht. revert l'. unfold ordered. cbn. induction l as [|u l IH]; intros l' E Hs; cbn in E.
  - injection E as <-. by repeat constructor.
  - apply bind_Ok in E as (thu & Hu%deref_inv & E). rewrite compare_priority in E. apply StronglySorted_inv in Hs as [Hs Hf].
    destruct (Z.ltb_spec (priority th) (priority thu)) as [Hlt|Hge].
    + injection E as <-. constructor; [by constructor|]. constructor.
      * intros pa pb. rewrite !lookup_fmap, Ht, Hu. cbn. intros [= <-] [= <-]. lia.
      * rewrite Forall_forall in *. intros x Hx pa pb. rewrite lookup_fmap, Ht. cbn. intros [= <-] Hpb.
        enough (priority thu <= pb) by lia. apply (Hf x Hx); [|done]. by rewrite lookup_fmap, Hu.
    + apply bind_Ok in E as (l2 & E2 & E). injection E as <-. constructor; [by apply IH|].
      apply insert_ready_inserted, inserted_perm in E2. rewrite Forall_forall in *. intros x. rewrite E2, elem_of_cons.
      intros [->|Hx]; [|by apply Hf]. intros pa pb. rewrite !lookup_fmap, Ht, Hu. cbn. intros [= <-] [= <-]. lia.
Qed.

Lemma order_thread t f : (forall th, priority (f th) = priority th) -> orders (on_thread t f).
Proof.
  intros Hf. apply sim_on_thread_to. intros k th Hth. unfold order. cbn. rewrite fmap_insert, Hf, insert_id; [by intros|].
  by rewrite lookup_fmap, Hth.
Qed.

Lemma order_untouching : Untouching order keeps_order.
Proof.
  constructor; try done; try apply _.
  - intros t f Hf. apply order_thread. apply Hf.
  - intros t w a w' E Hs. unfold ReadyToRun in E. apply bind_M_inv in E as (u & w1 & E1 & E). apply assert_off_inv in E1 as ->.
    apply bind_M_inv in E as (u1 & w1 & E1 & E). assert (ordered (order (rest w1))) as Hs1 by (by eapply (order_thread t (with_status READY))).
    apply bind_M_inv in E as (th & w2 & E2 & E). apply the_thread_inv in E2 as [Hth ->]. apply bind_M_inv in E as (k & w2 & [= <- <-] & E).
    apply bind_M_inv in E as (u2 & w2 & E2 & E). apply lift_inv in E2 as [_ ->]. apply bind_M_inv in E as (l & w2 & E2 & E). apply lift_inv in E2 as [El ->].
    injection E as _ <-. by apply (insert_ready_ordered _ t th _ _ Hth El).
  - intros w n w' E Hs. unfold FindNextToRun in E. apply bind_M_inv in E as (u & w1 & E1 & E). apply assert_off_inv in E1 as ->.
    apply bind_M_inv in E as (k & w1 & [= <- <-] & E). unfold ordered, order in Hs. cbn in Hs. destruct (readyList (scheduler (rest w))) as [|t l] eqn:Hl.
    + apply ret_inv in E as [_ ->]. unfold ordered, order. cbn. by rewrite Hl.
    + apply bind_M_inv in E as (u1 & w1 & [= _ <-] & E). apply ret_inv in E as [_ ->]. by apply StronglySorted_inv in Hs as [Hs _].
Qed.

Lemma orders_deleteThread t : orders (deleteThread t).
Proof.
  intros w a w' E Hs. unfold deleteThread in E. destruct (t =? 0); [by apply ret_inv in E as [_ ->]|].
  apply bind_M_inv in E as (th & w1 & E1 & E). apply the_thread_inv in E1 as [Hth ->].
  apply bind_M_inv in E as (k0 & w1 & [= <- <-] & E). cbv zeta in E. apply bind_M_inv in E as (b & w1 & E1 & E). apply lift_inv in E1 as [Hb ->].
  apply bind_M_inv in E as (l & w1 & E1 & E). apply lift_inv in E1 as [_ ->].
  apply bind_M_inv in E as (u & w1 & [= _ <-] & E). apply bind_M_inv in E as (u1 & w1 & E1 & E). apply lift_inv in E1 as [_ ->].
  injection E as _ <-. unfold order. cbn. rewrite fmap_delete. apply (ordered_ext _ (priority <$> threads (rest w))); [|exact Hs].
  by intros u2 p _ [_ H]%lookup_delete_Some.
Qed.

Lemma orders_CheckToBeDestroyed : orders CheckToBeDestroyed.
Proof. unfold CheckToBeDestroyed. pose proof orders_deleteThread. sims. Qed.

Lemma createThread_order uid raw w t w' : createThread uid raw w = Ok (t, w') ->
  (order (rest w')).1 = (order (rest w)).1 /\ forall u, u <> t -> (order (rest w')).2 !! u = (order (rest w)).2 !! u.
Proof.
  intros E. unfold createThread in E. apply bind_M_inv in E as (k0 & w0 & [= <- <-] & E).
  destruct (threadCnt (threadManager (rest w)) + 1 <? THREAD_COUNT_MAX); [|by injection E as <- <-].
  apply bind_M_inv in E as (u & w1 & [= _ <-] & E). apply bind_M_inv in E as (id & w2 & E1 & E).
  assert (order (rest w2) = order (rest w)) as E1'.
  { unfold generateThreadID in E1. apply bind_M_inv in E1 as (k1 & w3 & [= <- <-] & E1). cbv zeta in E1.
    apply bind_M_inv in E1 as ([i b] & w3 & E2 & E1). apply lift_inv in E2 as [_ ->]. apply bind_M_inv in E1 as (u1 & w3 & [= _ <-] & E1). by apply ret_inv in E1 as [_ ->]. }
  apply bind_M_inv in E as (k1 & w3 & [= <- <-] & E). cbv zeta in E. set (n := new_address (threads (rest w2))) in *.
  apply bind_M_inv in E as (u1 & w4 & E4 & E). apply bind_M_inv in E as (u2 & w5 & E5 & E).
  apply bind_M_inv in E as (k2 & w6 & [= <- <-] & E). apply bind_M_inv in E as (u3 & w7 & [= _ <-] & E). apply ret_inv in E as [-> ->].
  change (order (rest (on_rest _ w5))) with (order (rest w5)).
  assert (order (rest w5) = order (rest w4)) as ->.
  { destruct (1 <? _); [|by apply ret_inv in E5 as [_ ->]]. unfold addChild in E5.
    destruct (n =? 0); [by apply ret_inv in E5 as [_ ->]|]. apply on_thread_inv in E5 as (th & Hth & ->). unfold order. cbn. rewrite fmap_insert. cbn.
    f_equal. apply insert_id. by rewrite lookup_fmap, Hth. }
  injection E4 as _ <-. unfold order in *. cbn in *. injection E1' as E6 E7. rewrite fmap_insert, E6, E7. split; [done|].
  intros v Hv. by rewrite lookup_insert_ne.
Qed.

Lemma spawn_orders L uid prio pc raw w l w' : placed L (viewed w) -> ordered (order (rest w)) -> spawn uid prio pc raw w = Ok (l, w') -> ordered (order (rest w')).
Proof.
  intros Hp Hs E. unfold spawn in E. apply bind_M_inv in E as (t & w1 & E1 & E). apply bind_M_inv in E as (u & w2 & E2 & E).
  pose proof (createThread_order _ _ _ _ _ E1) as [Hl Hm].
  assert (t ∉ readyList (scheduler (rest w))) as Ht.
  { change (t ∉ ready (viewed w)). rewrite (pl_ready _ _ Hp). intros (stk & H).
    apply createThread_view in E1 as [[-> _]|(Hn & _)]; [|congruence]. pose proof (pl_null _ _ Hp). congruence. }
  apply on_thread_inv in E2 as (th & Hth & ->).
  assert (ordered (order (rest (on_rest (fun k => set_threads (<[t := with_priority prio th]> (threads k)) k) w1)))) as Hs2.
  { unfold order. cbn. rewrite fmap_insert. cbn in Hl. rewrite Hl. apply (ordered_ext _ (priority <$> threads (rest w))); [|exact Hs].
    intros v p Hv. assert (v <> t) by (intros ->; done). rewrite lookup_insert_ne by done. cbn in Hm. by rewrite Hm. }
  revert Hs2. match type of E with ?m _ = _ => assert (orders m) as H; [|exact (H _ _ _ E)] end.
  apply sim_bind; [apply _|apply (un_return_value _ _ order_untouching)|]. intros _. unfold Fork.
  apply sim_bind; [apply _|by apply order_thread|]. intros _. apply sim_bind; [apply _|sims|]. intros o.
  apply sim_bind; [apply _|apply order_untouching|]. intros _. sims.
Qed.

(** The running thread is not in the ready list. *)
Lemma setPriority_orders L p w l w' pc others : placed L (viewed w) -> thr (viewed w) !! cur (viewed w) = Some (RUNNING, MCode pc :: others) ->
  ordered (order (rest w)) -> setPriority p w = Ok (l, w') -> ordered (order (rest w')).
Proof.
  intros Hp Hc Hs E. unfold setPriority in E. apply bind_M_inv in E as (k & w1 & [= <- <-] & E). apply bind_M_inv in E as (u & w1 & E1 & E).
  apply ret_inv in E as [_ ->]. apply on_thread_inv in E1 as (th & Hth & ->). unfold order. cbn. rewrite fmap_insert.
  apply (ordered_ext _ (priority <$> threads (rest w))); [|exact Hs]. intros v q Hv. rewrite lookup_insert_ne; [done|]. intros <-.
  change (readyList (scheduler (rest w))) with (ready (viewed w)) in Hv. apply (pl_ready _ _ Hp) in Hv as (stk & Hv). cbn in Hv, Hc. congruence.
Qed.

Section Order.
Variable code : Z -> W -> call * Z.
Variable handler : Z -> W -> list action.
Variable DelayedLoad : list Z -> list Z.

Lemma exec_orders L m w l w' st others : placed L (viewed w) -> thr (viewed w) !! cur (viewed w) = Some (st, m :: others) -> exec code handler DelayedLoad m w = Ok (l, w') -> ordered (order (rest w)) -> ordered (order (rest w')).
Proof.
  intros Hp Hc E. assert (orders (exec code handler DelayedLoad m) \/ exists pc, m = MCode pc) as [Hm|[pc ->]].
  { assert (match m with MCode _ | MBegin | MSwitched => False | _ => True end \/ m = MBegin \/ m = MSwitched \/ exists pc, m = MCode pc)
      as [Hm|[->|[->|(pc & ->)]]] by (destruct m; eauto); [left; by apply (un_exec _ _ order_untouching)|left; cbn [exec]|left; cbn [exec]|eauto].
    - apply sim_bind; [apply _|apply orders_CheckToBeDestroyed|]. intros _. sims.
    - apply sim_bind; [apply _|sims|]. intros k. apply sim_bind; [apply _|apply (un_resumed _ _ order_untouching), orders_CheckToBeDestroyed|]. intros _. sims. }
  - exact (Hm _ _ _ E).
  - assert (st = RUNNING) as -> by (destruct (placed_cur L (viewed w) _ _ Hp Hc) as (Hf & _); exact Hf).
    cbn [exec] in E. apply bind_M_inv in E as (w0 & w1 & [= <- <-] & E). destruct (code pc w) as [c pc']. apply bind_M_inv in E as (l1 & w2 & E1 & E).
    apply ret_inv in E as [_ ->]. intros Hs. destruct c; try (by eapply (un_call _ _ order_untouching); [|exact E1|]); [by eapply spawn_orders|by eapply setPriority_orders].
Qed.

Context (y : Synch) (Hy : synch_new y) (Hio : interface_ok (layout y) code handler).

Lemma reachable_ordered w : reachable code handler DelayedLoad y w -> ordered (order (rest w)).
Proof.
  intros Hr. induction Hr as [w0 raw pc w Hth Hs E|w w' Hr IH E].
  - assert ((order (rest w)).1 = []) as H. { destruct (Initialize_view y raw pc w0 w Hth Hs E) as (t & _ & Hv). change (ready (viewed w) = []). by rewrite Hv. }
    unfold ordered. rewrite H. constructor.
  - pose proof (sf_placed _ _ (reachable_safe code handler DelayedLoad y Hy Hio w Hr)) as Hp.
    unfold step in E. apply bind_M_inv in E as (k & w1 & [= <- <-] & E). cbv zeta in E. apply bind_M_inv in E as (th & w1 & E1 & E).
    apply the_thread_inv in E1 as [Hth%thr_view ->]. destruct (stack th) as [|m others]; [done|]. apply bind_M_inv in E as (l & w1 & E1 & E).
    apply (exec_orders (layout y) m w l w1 _ others Hp Hth E1) in IH. by eapply (order_thread (currentThread (rest w)) (with_stack (l ++ others))).
Qed.
End Order.

(** * Waiting for the processor *)

(** A sequence of calls of the scheduler: [Some t] readies [t], [None] takes the next thread;
    the threads taken. *)
Fixpoint schedule (ops : list (option Z)) : M W (list Z) :=
  match ops with
  | [] => mret []
  | Some t :: ops' => _ ← ReadyToRun t; schedule ops'
  | None :: ops' => n ← FindNextToRun; ns ← schedule ops'; mret (n :: ns)
  end.

Lemma ReadyToRun_order t w a w' : ReadyToRun t w = Ok (a, w') ->
  exists th, threads (rest w) !! t = Some th /\ (order (rest w')).2 = (order (rest w)).2 /\
    insert_ready (<[t := with_status READY th]> (threads (rest w))) t (with_status READY th) (ready_of w) = Ok (ready_of w').
Proof.
  intros E. unfold ReadyToRun in E. apply bind_M_inv in E as (u & w1 & E1 & E). apply assert_off_inv in E1 as ->.
  apply bind_M_inv in E as (u1 & w1 & E1 & E). apply on_thread_inv in E1 as (th & Hth & ->).
  apply bind_M_inv in E as (th1 & w2 & E2 & E). apply the_thread_inv in E2 as [Hth1 ->]. cbn in Hth1. rewrite lookup_insert_eq in Hth1. injection Hth1 as <-.
  apply bind_M_inv in E as (k & w2 & [= <- <-] & E). apply bind_M_inv in E as (u2 & w2 & E2 & E). apply lift_inv in E2 as [_ ->].
  apply bind_M_inv in E as (l & w2 & E2 & E). apply lift_inv in E2 as [El ->]. injection E as _ <-. exists th. split; [done|].
  split; [|exact El]. cbn. rewrite fmap_insert. cbn. apply insert_id. by rewrite lookup_fmap, Hth.
Qed.

(** A thread goes behind another one that is not of lower priority, if those before that one
    are not either. *)
Lemma insert_ready_behind m t th l1 u l2 l' : (forall v thv, v ∈ l1 ++ [u] -> m !! v = Some thv -> priority thv <= priority th) ->
  insert_ready m t th (l1 ++ u :: l2) = Ok l' -> exists l3, l' = l1 ++ u :: l3.
Proof.
  revert l'. induction l1 as [|x l1 IH]; intros l' Hp E; cbn in E; apply bind_Ok in E as (thx & Hx%deref_inv & E); rewrite compare_priority in E.
  - assert (priority thx <= priority th) by (apply (Hp u); [apply list_elem_of_here|done]). rewrite (proj2 (Z.ltb_ge _ _)) in E by done.
    apply bind_Ok in E as (l3 & _ & E). injection E as <-. by exists l3.
  - assert (priority thx <= priority th) by (apply (Hp x); [apply list_elem_of_here|done]). rewrite (proj2 (Z.ltb_ge _ _)) in E by done.
    apply bind_Ok in E as (l3 & E3 & E). injection E as <-. destruct (IH l3) as (l4 & ->); [|done|by exists l4]. intros v thv Hv. apply Hp. by right.
Qed.

Lemma ordered_before l1 t l2 m v : ordered (l1 ++ t :: l2, m) -> v ∈ l1 -> before m v t.
Proof.
  unfold ordered. cbn. induction l1 as [|x l1 IH]; intros Hs Hv; [by apply not_elem_of_nil in Hv|]. cbn in Hs.
  apply StronglySorted_inv in Hs as [Hs Hf]. apply elem_of_cons in Hv as [->|Hv]; [|by apply IH]. rewrite Forall_forall in Hf.
  apply Hf. apply elem_of_app. right. apply list_elem_of_here.
Qed.

Lemma schedule_reaches ops w ns w' l1 t l2 p : ordered (order (rest w)) -> ready_of w = l1 ++ t :: l2 -> (order (rest w)).2 !! t = Some p ->
  (forall u, Some u ∈ ops -> exists q, (order (rest w)).2 !! u = Some q /\ p <= q) ->
  (length l1 < length (filter (eq None) ops))%nat -> schedule ops w = Ok (ns, w') -> t ∈ ns.
Proof.
  revert w ns l1 l2. induction ops as [|[u|] ops IH]; intros w ns l1 l2 Hs Hl Ht Hops Hn E; cbn [schedule] in E.
  - cbn in Hn. lia.
  - rewrite filter_cons_False in Hn by done. apply bind_M_inv in E as (a & w1 & E1 & E).
    pose proof (un_ready _ _ order_untouching u _ _ _ E1 Hs) as Hs1. apply ReadyToRun_order in E1 as (th & Hth & Hm & El). rewrite Hl in El.
    apply insert_ready_behind in El as (l3 & El); [eapply IH; [exact Hs1|exact El|by rewrite Hm| |exact Hn|exact E]; rewrite Hm; intros v Hv; apply Hops; by right|].
    destruct (Hops u) as (q & Hq & Hpq); [apply list_elem_of_here|]. cbn in Hq. rewrite lookup_fmap, Hth in Hq. injection Hq as Hq.
    intros v thv Hv Hmv. cbn [priority with_status].
    assert ((order (rest w)).2 !! v = Some (priority thv)) as Hv2.
    { cbn. rewrite lookup_fmap. destruct (decide (v = u)) as [->|Hne]; [rewrite lookup_insert_eq in Hmv; injection Hmv as <-; by rewrite Hth|].
      rewrite lookup_insert_ne in Hmv by done. by rewrite Hmv. }
    enough (priority thv <= p) by lia. apply elem_of_app in Hv as [Hv| ->%list_elem_of_singleton].
    + unfold order in Hs. change (readyList (scheduler (rest w))) with (ready_of w) in Hs. rewrite Hl in Hs. by apply (ordered_before _ _ _ _ v Hs Hv).
    + rewrite Ht in Hv2. injection Hv2 as ->. lia.
  - rewrite filter_cons_True in Hn by done. cbn [length] in Hn. apply bind_M_inv in E as (n & w1 & E1 & E). apply bind_M_inv in E as (ns1 & w2 & E2 & E).
    apply ret_inv in E as [-> ->]. pose proof (un_next _ _ order_untouching _ _ _ E1 Hs) as Hs1.
    unfold FindNextToRun in E1. apply bind_M_inv in E1 as (a & w3 & E3 & E1). apply assert_off_inv in E3 as ->.
    apply bind_M_inv in E1 as (k & w3 & [= <- <-] & E1). change (readyList (scheduler (rest w))) with (ready_of w) in E1. rewrite Hl in E1.
    destruct l1 as [|x l1]; cbn in E1; injection E1 as -> <-; [apply list_elem_of_here|]. right.
    eapply (IH _ ns1 l1 l2); [exact Hs1|done|exact Ht| |cbn in Hn; lia|exact E2]. intros v Hv. apply Hops. by right.
Qed.

(** * The properties *)

(** C23. In every state that the system reaches, each thread has a process identifier of its
    own below 128; [threadCnt] is the number of threads and below 128; and getThreadPtr finds
    exactly the thread with an identifier, NULL if there is none. *)
Theorem process_identifiers code handler DelayedLoad y w : reachable code handler DelayedLoad y w ->
  (forall t th, threads (rest w) !! t = Some th -> 0 <= pid th < THREAD_COUNT_MAX) /\
  (forall t t' th th', threads (rest w) !! t = Some th -> threads (rest w) !! t' = Some th' -> pid th = pid th' -> t = t') /\
  threadCnt (threadManager (rest w)) = Z.of_nat (size (threads (rest w))) /\ threadCnt (threadManager (rest w)) < THREAD_COUNT_MAX /\
  forall id, 0 <= id < THREAD_COUNT_MAX -> exists r, getThreadPtr id w = Ok (r, w) /\
    ((r = 0 /\ forall t th, threads (rest w) !! t = Some th -> pid th <> id) \/ (exists th, threads (rest w) !! r = Some th /\ pid th = id)).
Proof.
  intros Hr%reachable_tabled. assert (forall t th, threads (rest w) !! t = Some th -> (table (rest w)).2 !! t = Some (pid th)) as Hp by (intros t th E; cbn; by rewrite lookup_fmap, E).
  split; [intros t th E; by apply (tb_pid _ Hr t), Hp|]. split; [intros t t' th th' E E' Hpid; eapply (tb_inj _ Hr); [by apply Hp|rewrite Hpid; by apply Hp]|].
  destruct (tb_count _ Hr) as [Hc Hm]. split; [|split; [exact Hm|intros id; by apply getThreadPtr_spec]].
  etransitivity; [exact Hc|]. f_equal.
  rewrite <- size_dom, <- (size_list_to_set (C := gset Z) (threadList _)) by apply (tb_nodup _ Hr). apply set_size_proper. intros t.
  rewrite elem_of_list_to_set, (tb_list _ Hr), elem_of_dom. cbn. by rewrite lookup_fmap, fmap_is_Some.
Qed.

Example process_identifiers_witness : threadCnt (threadManager (rest (sample 17))) = 2 /\ exists r, getThreadPtr 1 (sample 17) = Ok (r, sample 17).
Proof.
  split; [vm_compute; reflexivity|].
  destruct (process_identifiers sample_code sample_handler id sample_synch (sample 17) (sample_reachable 17)) as (_ & _ & _ & _ & H).
  destruct (H 1) as (r & E & _); [done|]. by exists r.
Defined.

(** C22. With interrupts off, FindNextToRun takes a READY thread that no other READY thread
    precedes in priority, the first of the ready list, or returns NULL because there is no
    READY thread. *)
Theorem best_ready_first code handler DelayedLoad y w : synch_new y -> interface_ok (layout y) code handler ->
  reachable code handler DelayedLoad y w -> level (interrupt w) = IntOff ->
  exists n w', FindNextToRun w = Ok (n, w') /\
    ((n = 0 /\ forall t th, thread_of w t = Some th -> Threads.status th <> READY) \/
     (ready_of w = n :: ready_of w' /\ exists th, thread_of w n = Some th /\ Threads.status th = READY /\
        forall u thu, thread_of w u = Some thu -> Threads.status thu = READY -> priority th <= priority thu)).
Proof.
  intros Hy Hio Hr Hoff. pose proof (reachable_ordered code handler DelayedLoad y Hy Hio w Hr) as Hs.
  pose proof (fun t => ready_iff code handler DelayedLoad y Hy Hio w t Hr) as Hready.
  unfold FindNextToRun, assert_off, getLevel. rewrite (bind_M_Ok _ _ w w tt) by (unfold mbind, M_bind; rewrite Hoff; done).
  rewrite (bind_M_Ok kget _ w w (rest w)) by done. change (readyList (scheduler (rest w))) with (ready_of w) in *.
  unfold ordered, order in Hs. cbn in Hs. change (readyList (scheduler (rest w))) with (ready_of w) in Hs. destruct (ready_of w) as [|n l] eqn:Hl.
  - exists 0, w. split; [done|]. left. split; [done|]. intros t th Ht Hst. assert (t ∈ []) as H by (apply Hready; eauto). by apply not_elem_of_nil in H.
  - eexists n, _. split; [reflexivity|]. right. split; [done|]. destruct (proj1 (Hready n)) as (th & Hth & Hst); [apply list_elem_of_here|].
    exists th. split; [done|]. split; [done|]. intros u thu Hu Hsu. assert (u ∈ n :: l) as Hin by (apply Hready; eauto).
    apply elem_of_cons in Hin as [->|Hin]; [assert (thu = th) as -> by congruence; lia|].
    apply StronglySorted_inv in Hs as [_ Hf]. rewrite Forall_forall in Hf. unfold thread_of in Hth, Hu.
    apply (Hf u Hin); rewrite lookup_fmap; [by rewrite Hth|by rewrite Hu].
Qed.

Example best_ready_first_witness : exists n w', FindNextToRun (sample 18) = Ok (n, w').
Proof.
  destruct (best_ready_first sample_code sample_handler id sample_synch (sample 18) sample_new sample_interface (sample_reachable 18)) as (n & w' & E & _);
    [vm_compute; reflexivity|]. by exists n, w'.
Defined.

(** C16. No thread starves: a READY thread with [i] threads before it has been taken after at
    most [i + 1] calls of FindNextToRun, however many threads of no better priority are
    readied in between. *)
Theorem no_starvation code handler DelayedLoad y w ops ns w' l1 t l2 th : synch_new y -> interface_ok (layout y) code handler ->
  reachable code handler DelayedLoad y w -> ready_of w = l1 ++ t :: l2 -> thread_of w t = Some th ->
  (forall u, Some u ∈ ops -> exists thu, thread_of w u = Some thu /\ priority th <= priority thu) ->
  (length l1 < length (filter (eq None) ops))%nat -> schedule ops w = Ok (ns, w') -> t ∈ ns.
Proof.
  intros Hy Hio Hr Hl Hth Hops Hn E. eapply (schedule_reaches ops w ns w' l1 t l2 (priority th)); [by eapply reachable_ordered|exact Hl| | |exact Hn|exact E].
  - cbn. unfold thread_of in Hth. by rewrite lookup_fmap, Hth.
  - intros u Hu. destruct (Hops u Hu) as (thu & Htu & Hp). exists (priority thu). split; [|done]. cbn. unfold thread_of in Htu. by rewrite lookup_fmap, Htu.
Qed.

(** The main thread is readied by V; interrupts are still off, and the other one is readied
    again before the scheduler takes a thread. *)
Example no_starvation_witness : exists ns, (exists w', schedule [Some 2; None] (sample 21) = Ok (ns, w')) /\ 1 ∈ ns.
Proof.
  exists [1]. split; [eexists; vm_compute; reflexivity|].
  eapply (no_starvation sample_code sample_handler id sample_synch (sample 21) [Some 2; None] [1] _ [] 1 []);
    [apply sample_new|apply sample_interface|apply sample_reachable|vm_compute; reflexivity|vm_compute; reflexivity| |vm_compute; lia|vm_compute; reflexivity].
  intros u Hu. assert (u = 2) as -> by (apply elem_of_cons in Hu as [[= ->]|Hu]; [done|apply elem_of_cons in Hu as [Hu|Hu]; [done|by apply not_elem_of_nil in Hu]]).
  eexists. split; [vm_compute; reflexivity|done].
Defined.
End ThreadTable.
