(* ===== verification/ThreadTest.v ===== *)
(** ThreadTest: the start of the kernel as the threads see it, and the thread self test, that
    `nachos -K` runs: Kernel::Initialize and Kernel::ThreadSelfTest (src/code/threads/kernel.cc),
    Thread::SelfTest with its two exercises (thread.cc), ThreadManager::listThreadStatus, and
    the way main goes on (main.cc).

    The code runs on the threads, the scheduler and the semaphores of Threads.v: a piece of
    code of a thread is an [MCode] of its stack, its local variables are in [locals], what it
    prints is in [printed].  As in the default build, the file system of Initialize is the
    stub, that does not wait for the disk.  The alarm's handler is empty, so no thread is
    preempted and the runs are what they are. *)

From S2P Require Import Prelude Bitmap Machine Interrupt Threads.
From stdpp Require Import base numbers list gmap.
#[local] Open Scope Z_scope.

Module ThreadTest.
Import Interrupt Threads.

#[local] Notation W := (World Kernel).

(** What is printed: a turn of SimpleThread, the running thread (by its pid, for its name), a
    table of threads (pid, uid, status), a line of text. *)
Inductive line :=
| Looped (which num : Z)
| Current (pid : Z)
| Table (rows : list (Z * Z * ThreadStatus))
| Text.

Record Test := MkTest { world : W; locals : gmap Z (list Z); printed : list line }.

Definition kernel_call {A} (m : M W A) : M Test A := fun s =>
  match m (world s) with
  | Ok (a, w) => Ok (a, MkTest w (locals s) (printed s))
  | AssertFail => AssertFail | Undefined => Undefined | OutOfFuel => OutOfFuel | Exited => Exited
  end.

Definition print (l : line) : M Test unit := fun s => Ok (tt, MkTest (world s) (locals s) (printed s ++ [l])).
Definition current : M Test Z := k ← kernel_call kget; mret (currentThread k).
Definition my_locals : M Test (list Z) := t ← current; s ← get_state; mret (default [] (locals s !! t)).
Definition set_locals (t : Z) (l : list Z) : M Test unit := fun s => Ok (tt, MkTest (world s) (<[t := l]> (locals s)) (printed s)).

(** printThread on every thread of the list *)
Fixpoint status_rows (m : gmap Z Thread) (l : list Z) : res (list (Z * Z * ThreadStatus)) :=
  match l with
  | [] => Ok []
  | t :: l' => th ← deref (m !! t); rows ← status_rows m l'; Ok ((pid th, uid th, Threads.status th) :: rows)
  end.
Definition listThreadStatus : M Test unit :=
  k ← kernel_call kget; rows ← lift (status_rows (threads k) (threadList (threadManager k))); print (Table rows).

(** [t->Fork(func, arg)], [func] being at [pc]; the argument is the first local of the thread. *)
Definition fork (t pc arg : Z) : M Test (list micro) := _ ← set_locals t [arg]; kernel_call (Fork t pc).
Definition getPid (t : Z) : M Test Z := th ← kernel_call (the_thread t); mret (pid th).
Definition setPriority (t p : Z) : M Test unit := kernel_call (on_thread t (with_priority p)).
Definition createThread (uid : Z) : M Test Z := kernel_call (Threads.createThread uid []).

(** * The code, cut where the processor may be given away *)

Definition pc_worker : Z := 100.
Definition pc_simple : Z := 200.
Definition pc_just_yield : Z := 300.
Definition pc_halt : Z := 400.

(** The semaphore on which the postal worker waits. *)
Definition messageAvailable : Z := 1.

Definition wait_for_mail : M Test (list micro) := mret [MP messageAvailable; MCode pc_worker].

Definition SimpleThread (pc : Z) : M Test (list micro) :=
  l ← my_locals;
  match l with
  | [which] => t ← current; _ ← set_locals t [which; 0]; mret [MCode pc_simple]
  | [which; num] =>
      if num <? 5 then _ ← print (Looped which num); t ← current; _ ← set_locals t [which; num + 1]; mret [MYield; MCode pc_simple]
      else mret []
  | _ => lift Undefined
  end.

Definition JustYield (pc : Z) : M Test (list micro) :=
  if pc =? pc_just_yield then
    t ← current; p ← getPid t; _ ← print (Current p); _ ← listThreadStatus; mret [MYield; MCode (pc_just_yield + 1)]
  else _ ← listThreadStatus; mret [].

(** ThreadExercise1Test from its point [pc], with the threads it has made as locals. *)
Definition ThreadExercise1Test (pc : Z) : M Test (list micro) :=
  main ← current;
  if pc =? 10 then
    t1 ← createThread 10; t2 ← createThread 20; t3 ← createThread 30;
    _ ← set_locals main [t1; t2; t3];
    p ← getPid t1; l ← fork t1 pc_simple p; mret (l ++ [MCode 11])
  else
    l ← my_locals;
    match l with
    | [t1; t2; t3] =>
        if pc =? 11 then p ← getPid t2; l ← fork t2 pc_simple p; mret (l ++ [MCode 12])
        else p ← getPid t3; l ← fork t3 pc_simple p; mret (l ++ [MCode pc_halt])
    | _ => lift Undefined
    end.

Definition ThreadExercise2Test (pc : Z) : M Test (list micro) :=
  main ← current;
  if pc =? 20 then
    _ ← setPriority main 4;
    _ ← print Text;
    t1 ← createThread 10; t2 ← createThread 20; t3 ← createThread 30;
    _ ← setPriority t1 8; _ ← setPriority t2 0; _ ← setPriority t3 5;
    _ ← listThreadStatus;
    _ ← print Text;
    _ ← set_locals main [t1; t2; t3];
    p ← getPid t1; l ← fork t1 pc_just_yield p; mret (l ++ [MCode 21])
  else
    l ← my_locals;
    match l with
    | [t1; t2; t3] =>
        if pc =? 21 then p ← getPid t1; l ← fork t2 pc_just_yield p; mret (l ++ [MCode 22])
        else _ ← listThreadStatus; mret [MCode pc_just_yield; MCode pc_halt]
    | _ => lift Undefined
    end.

(** Thread::SelfTest: the default of [testnum] is 2. *)
Definition SelfTest (testnum : Z) : M Test (list micro) :=
  if testnum =? 1 then mret [MCode 10]
  else if testnum =? 2 then mret [MCode 20]
  else if testnum =? 3 then mret [MCode pc_halt]
  else _ ← print Text; mret [MCode pc_halt].

Section Code.
Variable testnum : Z.

(** Main: the end of Initialize (the post office makes its worker, then interrupts are
    enabled), the self test, and Halt. *)
Definition test_code (pc : Z) : M Test (list micro) :=
  if pc =? 0 then t ← createThread 0; l ← fork t pc_worker 0; mret (l ++ [MSetLevel IntOn; MCode 1])
  else if pc =? 1 then SelfTest testnum
  else if (10 <=? pc) && (pc <=? 12) then ThreadExercise1Test pc
  else if (20 <=? pc) && (pc <=? 22) then ThreadExercise2Test pc
  else if pc =? pc_worker then wait_for_mail
  else if pc =? pc_simple then SimpleThread pc
  else if (pc_just_yield <=? pc) && (pc <=? pc_just_yield + 1) then JustYield pc
  else lift Exited.
End Code.

(** The devices: the timer, whose alarm does nothing, the keyboard, on which nothing is
    typed, and the network, from which nothing comes, are asked again after 100 ticks. *)
Definition timer : Z := 1.
Definition keyboard : Z := 2.
Definition networkIn : Z := 3.
Definition handler (device : Z) (w : W) : list action :=
  if device =? timer then [ASchedule 100 TimerInt] else if device =? keyboard then [ASchedule 100 ConsoleReadInt] else [ASchedule 100 NetworkRecvInt].

Section Run.
Variable code : Z -> M Test (list micro).

(** One step: of the test's code, or of the kernel's. *)
Definition test_step : M Test unit :=
  k ← kernel_call kget;
  let t := currentThread k in
  th ← kernel_call (the_thread t);
  match stack th with
  | MCode pc :: others => l ← code pc; kernel_call (on_thread t (with_stack (l ++ others)))
  | _ => kernel_call (step (fun _ _ => (CExit, 0)) handler id)
  end.

(** Up to main's call of Halt. *)
Fixpoint run (fuel : nat) (s : Test) : res Test :=
  match fuel with
  | O => OutOfFuel
  | S fuel =>
      match stack <$> threads (rest (world s)) !! currentThread (rest (world s)) with
      | Some (MCode pc :: _) => if pc =? pc_halt then Ok s else '(_, s) ← test_step s; run fuel s
      | _ => '(_, s) ← test_step s; run fuel s
      end
  end.
End Run.

(** Initialize up to the post office: the main thread, the timer and the devices. *)
Definition boot : M W unit :=
  _ ← Threads.Initialize [] 0;
  _ ← Schedule timer 100 TimerInt;
  _ ← Schedule keyboard 100 ConsoleReadInt;
  _ ← Schedule networkIn 100 NetworkRecvInt;
  k ← kget; on_thread (currentThread k) (with_stack [MCode 0]).

Definition at_power_on : W :=
  MkWorld Interrupt_new Statistics_new (MkKernel ∅ 0 (MkScheduler [] 0) (MkManager [] 0 (Bitmap.MkBitmap 0 0 []))
    (MkSynch {[messageAvailable := MkSemaphore 0 []]} ∅ ∅ ∅) (MkCpu [] 0 0 ∅)).

(** `nachos -K`, up to Halt: what is printed, and the state. *)
Definition nachos_K (testnum : Z) : res (list line * Test) :=
  '(_, w) ← boot at_power_on; s ← run (test_code testnum) 1000 (MkTest w ∅ []); Ok (printed s, s).

(** The status of the main thread, the worker and the three threads of the exercise. *)
Definition table (main t1 t2 t3 : ThreadStatus) : line :=
  Table [(0, 0, main); (1, 0, BLOCKED); (2, 10, t1); (3, 20, t2); (4, 30, t3)].

(** The first exercise: the three threads come in round robin, and main, whose last Fork is
    its last action, calls Halt when they have made six of their fifteen turns. *)
Theorem ThreadExercise1Test_runs :
  exists s, nachos_K 1 = Ok ([Looped 2 0; Looped 2 1; Looped 3 0; Looped 2 2; Looped 3 1; Looped 4 0], s).
Proof. eexists. by vm_compute. Qed.

(** The second exercise: every Fork gives the processor to the thread forked, a thread that
    has printed its second table is gone from the next one, and at Halt the last thread has
    not printed its own second table. *)
Theorem ThreadExercise2Test_runs :
  exists s, nachos_K 2 = Ok (
    [Text; table RUNNING JUST_CREATED JUST_CREATED JUST_CREATED; Text;
     Current 2; table READY RUNNING JUST_CREATED JUST_CREATED;
     Current 3; table READY READY RUNNING JUST_CREATED;
     table RUNNING READY READY JUST_CREATED;
     Current 0; table RUNNING READY READY JUST_CREATED;
     table READY READY RUNNING JUST_CREATED;
     Table [(0, 0, RUNNING); (1, 0, BLOCKED); (2, 10, READY); (4, 30, JUST_CREATED)]], s).
Proof. eexists. by vm_compute. Qed.

(** The third number runs an empty exercise. *)
Theorem ThreadExercise3Test_runs : exists s, nachos_K 3 = Ok ([], s).
Proof. eexists. by vm_compute. Qed.
End ThreadTest.
