(* ===== verification/SynchTest.v ===== *)
(** SynchTest: the self tests of semaphores and of synchronized lists, Semaphore::SelfTest
    (src/code/threads/synch.cc) and SynchList::SelfTest (synchlist.cc), with the constructors
    of the objects that they make, on the kernel of ThreadTest.v.

    Kernel::ThreadSelfTest has the two calls commented out.  Run, both pass a value back and
    forth ten times, and then stop the kernel: their helper thread is made by [new Thread] and
    not by createThread, so that its parent does not have it as a child when it finishes. *)

From S2P Require Import Prelude Bitmap Machine Interrupt Threads ThreadTest.
From stdpp Require Import base numbers list gmap.
#[local] Open Scope Z_scope.

Module SynchTest.
Import Interrupt Threads ThreadTest.

#[local] Notation W := (World Kernel).

(** * Constructors *)

(** Thread::Thread with a name only: [pid] and [uid] are left as [raw] has them. *)
Definition Thread_named (raw_pid raw_uid : Z) : M W Z :=
  k ← kget;
  let t := new_address (threads k) in
  _ ← kmod (set_threads (<[t := Thread_new raw_uid raw_pid (currentThread k) []]> (threads k))); mret t.

Definition Semaphore_new (initialValue : Z) : M W Z :=
  k ← kget; let s := new_address (semaphores (synch k)) in _ ← put_semaphore s (MkSemaphore initialValue []); mret s.

Definition Lock_new : M W Z :=
  s ← Semaphore_new 1; k ← kget; let l := new_address (locks (synch k)) in _ ← put_lock l (MkLock 0 s); mret l.

Definition Condition_new : M W Z :=
  k ← kget; let c := new_address (conditions (synch k)) in _ ← put_condition c []; mret c.

Definition SynchList_new : M W Z :=
  l ← Lock_new; c ← Condition_new; k ← kget;
  let q := new_address (lists (synch k)) in _ ← put_list q (MkSynchList [] l c); mret q.

(** * Semaphore::SelfTest

    The locals of both threads are the loop's counter, [this] and the static [ping]. *)

Definition pc_helper : Z := 510.

Definition Semaphore_SelfTest (this pc : Z) : M Test (list micro) :=
  main ← current;
  if pc =? 500 then
    helper ← kernel_call (Thread_named 77 88);
    x ← kernel_call (the_semaphore this);
    _ ← lift (ASSERT (value x =? 0));
    ping ← kernel_call (Semaphore_new 0);
    _ ← set_locals helper [0; this; ping];
    _ ← set_locals main [0; this; ping];
    l ← kernel_call (Fork helper pc_helper); mret (l ++ [MCode 501])
  else
    l ← my_locals;
    match l with
    | [i; this; ping] =>
        if i <? 10 then _ ← set_locals main [i + 1; this; ping]; mret [MV ping; MP this; MCode 501]
        else mret [MDelete ping; MCode pc_halt]
    | _ => lift Undefined
    end.

Definition Semaphore_SelfTestHelper : M Test (list micro) :=
  helper ← current;
  l ← my_locals;
  match l with
  | [i; pong; ping] =>
      if i <? 10 then _ ← set_locals helper [i + 1; pong; ping]; mret [MP ping; MV pong; MCode pc_helper] else mret []
  | _ => lift Undefined
  end.

(** [semaphore = new Semaphore("test", 0); semaphore->SelfTest();] *)
Definition semaphore_test (value0 pc : Z) : M Test (list micro) :=
  if pc =? 0 then s ← kernel_call (Semaphore_new value0); Semaphore_SelfTest s 500
  else if pc =? pc_helper then Semaphore_SelfTestHelper
  else Semaphore_SelfTest 0 pc.

(** * SynchList::SelfTest *)

Definition RemoveFront (q : Z) : M Test (list micro) := kernel_call (SynchList_RemoveFront q).
Definition Append (q x : Z) : M Test (list micro) := kernel_call (SynchList_Append q x).
Definition last_result : M Test Z := t ← current; th ← kernel_call (the_thread t); mret (Threads.result th).

(** Apply: what [func] is given, between Acquire and Release, at [pc]. *)
Definition SynchList_Apply (q pc : Z) : M Test (list micro) :=
  y ← kernel_call (the_list q); a ← kernel_call (Acquire (lock y)); mret (a ++ [MCode pc; MRelease (lock y)]).

Definition SynchList_SelfTest (val this pc : Z) : M Test (list micro) :=
  main ← current;
  if pc =? 500 then
    helper ← kernel_call (Thread_named 77 88);
    y ← kernel_call (the_list this);
    _ ← lift (ASSERT (bool_decide (items y = [])));
    selfTestPing ← kernel_call SynchList_new;
    _ ← set_locals helper [0; this; selfTestPing];
    _ ← set_locals main [0; this; selfTestPing];
    l ← kernel_call (Fork helper pc_helper); mret (l ++ [MCode 501])
  else
    l ← my_locals;
    match l with
    | [i; this; selfTestPing] =>
        if pc =? 501 then
          if i <? 10 then l ← Append selfTestPing val; mret (l ++ [MCode 502]) else mret [MCode pc_halt]
        else if pc =? 502 then l ← RemoveFront this; mret (l ++ [MCode 503])
        else
          x ← last_result; _ ← lift (ASSERT (val =? x)); _ ← set_locals main [i + 1; this; selfTestPing]; mret [MCode 501]
    | _ => lift Undefined
    end.

Definition SynchList_SelfTestHelper (pc : Z) : M Test (list micro) :=
  helper ← current;
  l ← my_locals;
  match l with
  | [i; this; selfTestPing] =>
      if pc =? pc_helper then
        if i <? 10 then l ← RemoveFront selfTestPing; mret (l ++ [MCode (pc_helper + 1)]) else mret []
      else
        x ← last_result; _ ← set_locals helper [i + 1; this; selfTestPing]; l ← Append this x; mret (l ++ [MCode pc_helper])
  | _ => lift Undefined
  end.

(** [synchList = new SynchList<int>; synchList->SelfTest(9);] *)
Definition synchlist_test (pc : Z) : M Test (list micro) :=
  if pc =? 0 then q ← kernel_call SynchList_new; SynchList_SelfTest 9 q 500
  else if (pc_helper <=? pc) && (pc <=? pc_helper + 1) then SynchList_SelfTestHelper pc
  else SynchList_SelfTest 9 0 pc.

(** * Runs *)

(** A run up to a step that fails, or to Halt: the state before the step and how it fails. *)
Fixpoint run_until (code : Z -> M Test (list micro)) (fuel : nat) (s : Test) : Test * res unit :=
  match fuel with
  | O => (s, OutOfFuel)
  | S fuel =>
      match test_step code s with
      | Ok (_, s') => run_until code fuel s'
      | AssertFail => (s, AssertFail) | Undefined => (s, Undefined) | OutOfFuel => (s, OutOfFuel) | Exited => (s, Exited)
      end
  end.

Definition start (code : Z -> M Test (list micro)) : res (Test * res unit) :=
  '(_, w) ← boot at_power_on; Ok (run_until code 2000 (MkTest w ∅ [])).

Definition counters (s : Test) : list Z := omap (fun x => head x.2) (map_to_list (locals s)).
Definition running (s : Test) : list micro := from_option stack [] (threads (rest (world s)) !! currentThread (rest (world s))).

(** How a test fails, the counters of the two threads then, and what was about to be done. *)
Definition outcome (code : Z -> M Test (list micro)) : option (res unit * list Z * list micro) :=
  match start code with Ok (s, r) => Some (r, counters s, running s) | _ => None end.

(** The semaphore's test: both threads have made all their ten rounds, in turns, when the
    helper comes to its Finish, and there the kernel stops; a semaphore that is not 0 is
    refused at once. *)
Theorem Semaphore_SelfTest_stops :
  outcome (semaphore_test 0) = Some (AssertFail, [10; 10], [MFinish]) /\ outcome (semaphore_test 1) = Some (AssertFail, [], [MCode 0]).
Proof. split; vm_compute; reflexivity. Qed.

(** The list's test: every value that has come back is the one that was sent, nine times;
    the tenth is on its way when the helper comes to its Finish. *)
Theorem SynchList_SelfTest_stops : outcome synchlist_test = Some (AssertFail, [10; 9], [MFinish]).
Proof. vm_compute; reflexivity. Qed.
End SynchTest.
