(* ===== verification/Hash.v ===== *)
(** Hash: the self-expanding hash table [HashTable<Key,T>] and its iterator,
    src/code/lib/hash.h and hash.cc.

    A bucket is a [List<T>]; CList.v proves that such a list is the sequence of its items, so
    a bucket is that sequence here.  Keys, items, [getKey] and the hash function, whose
    results are [unsigned], are the parameters of the template and of the constructor.  The
    theorem: the table is a finite map from keys to items. *)

From S2P Require Import Prelude CList.
From stdpp Require Import base numbers list gmap.
#[local] Open Scope Z_scope.

Module Hash.

Definition InitialBuckets : Z := 4.
Definition ResizeRatio : Z := 3.
Definition IncreaseSizeBy : Z := 4.

Section Ops.
Context {Key T : Type} `{Countable Key} `{EqDecision T}.
Variable getKey : T -> Key.
Variable hash : Key -> Z.

Record HashTable := MkTable { buckets : list (list T); numBuckets : Z; numItems : Z }.
Implicit Types (h : HashTable) (b : list T) (key : Key) (item : T).

Definition InitBuckets (size : Z) : list (list T) := replicate (Z.to_nat size) [].
Definition HashTable_new : HashTable := MkTable (InitBuckets InitialBuckets) InitialBuckets 0.
Definition IsEmpty h : bool := numItems h =? 0.

(** [hash] is unsigned, so the remainder is. *)
Definition HashValue (n : Z) key : res Z :=
  let result := i32 (u32 (hash key) mod n) in
  _ ← ASSERT ((0 <=? result) && (result <? n)); Ok result.

Fixpoint FindInBucket_from key b : option T :=
  match b with
  | [] => None
  | x :: b' => if decide (key = getKey x) then Some x else FindInBucket_from key b'
  end.
Definition FindInBucket h (bucket : Z) key : res (option T) := b ← aget (buckets h) bucket; Ok (FindInBucket_from key b).

Definition Find h key : res (option T) := bucket ← HashValue (numBuckets h) key; FindInBucket h bucket key.
Definition IsInTable h key : res bool := r ← Find h key; Ok (bool_decide (is_Some r)).

(** [buckets[HashValue(getKey(item))]->Append(item)] *)
Definition append_item (n : Z) (bs : list (list T)) item : res (list (list T)) :=
  i ← HashValue n (getKey item); b ← aget bs i; aset bs i (b ++ [item]).

(** Every item of bucket [i] hashes to [i]. *)
Fixpoint check_bucket (n i : Z) b : res unit :=
  match b with
  | [] => Ok tt
  | x :: b' => v ← HashValue n (getKey x); _ ← ASSERT (i =? v); check_bucket n i b'
  end.

Definition SanityCheck h : res unit :=
  numFound ← for_each (range 0 (numBuckets h)) (fun i numFound =>
      b ← aget (buckets h) i; _ ← check_bucket (numBuckets h) i b; Ok (numFound + Z.of_nat (length b))) 0;
  ASSERT (numItems h =? numFound).

(** The inner loop of ReHash: one old bucket is emptied, front first. *)
Fixpoint move_bucket (n : Z) (bs : list (list T)) (old : list T) : res (list (list T)) :=
  match old with
  | [] => Ok bs
  | item :: old' => bs ← append_item n bs item; move_bucket n bs old'
  end.

Definition ReHash h : res HashTable :=
  _ ← SanityCheck h;
  let n := numBuckets h * IncreaseSizeBy in
  _ ← (if decide (is_i32 n) then Ok tt else Undefined);
  bs ← for_each (range 0 (numBuckets h)) (fun i bs => old ← aget (buckets h) i; move_bucket n bs old) (InitBuckets n);
  let h' := MkTable bs n (numItems h) in
  _ ← SanityCheck h'; Ok h'.

Definition Insert h item : res HashTable :=
  let key := getKey item in
  there ← IsInTable h key;
  _ ← ASSERT (negb there);
  h ← (if numItems h /c numBuckets h >=? ResizeRatio then ReHash h else Ok h);
  bs ← append_item (numBuckets h) (buckets h) item;
  _ ← (if decide (is_i32 (numItems h + 1)) then Ok tt else Undefined);
  let h := MkTable bs (numBuckets h) (numItems h + 1) in
  there ← IsInTable h key;
  _ ← ASSERT there; Ok h.

Definition Remove h key : res (T * HashTable) :=
  bucket ← HashValue (numBuckets h) key;
  found ← FindInBucket h bucket key;
  match found with
  | None => AssertFail
  | Some item =>
      b ← aget (buckets h) bucket;
      _ ← ASSERT (bool_decide (item ∈ b));
      let b' := CList.remove_first item b in
      _ ← ASSERT (bool_decide (item ∉ b'));
      bs ← aset (buckets h) bucket b';
      let h := MkTable bs (numBuckets h) (numItems h - 1) in
      there ← IsInTable h key;
      _ ← ASSERT (negb there); Ok (item, h)
  end.

(** The items that the function is called on, in order. *)
Definition Apply h : res (list T) := for_each (range 0 (numBuckets h)) (fun i xs => b ← aget (buckets h) i; Ok (xs ++ b)) [].

Definition HashTable_delete h : res unit := ASSERT (IsEmpty h).

(** * The iterator *)

(** [bucketIter] is what is left of the bucket; NULL is [None]. *)
Record HashIterator := MkIterator { bucket : Z; bucketIter : option (list T) }.

Fixpoint FindNextFullBucket_loop (fuel : nat) h (i : Z) : res Z :=
  match fuel with
  | O => OutOfFuel
  | S fuel =>
      if i <? numBuckets h then
        b ← aget (buckets h) i; match b with [] => FindNextFullBucket_loop fuel h (i + 1) | _ => Ok i end
      else Ok i
  end.
Definition FindNextFullBucket h (i : Z) : res Z := FindNextFullBucket_loop (S (Z.to_nat (numBuckets h - i))) h i.

(** The iterator at the next full bucket from [i] on. *)
Definition at_bucket h (i : Z) : res HashIterator :=
  i ← FindNextFullBucket h i;
  if i <? numBuckets h then b ← aget (buckets h) i; Ok (MkIterator i (Some b)) else Ok (MkIterator i None).

Definition HashIterator_new h : res HashIterator := at_bucket h 0.
Definition IsDone h (it : HashIterator) : bool := bucket it =? numBuckets h.
Definition Item h (it : HashIterator) : res T :=
  _ ← ASSERT (negb (IsDone h it)); b ← deref (bucketIter it); match b with x :: _ => Ok x | [] => AssertFail end.
Definition Next h (it : HashIterator) : res HashIterator :=
  b ← deref (bucketIter it);
  match b with
  | [] => Undefined
  | [_] => at_bucket h (bucket it + 1)
  | _ :: b' => Ok (MkIterator (bucket it) (Some b'))
  end.

(** [for (; !iter->IsDone(); iter->Next())]: the items seen. *)
Fixpoint iterate (fuel : nat) h (it : HashIterator) : res (list T) :=
  match fuel with
  | O => OutOfFuel
  | S fuel => if IsDone h it then Ok [] else x ← Item h it; it ← Next h it; xs ← iterate fuel h it; Ok (x :: xs)
  end.

Definition SelfTest h (p : list T) : res HashTable :=
  it ← HashIterator_new h;
  _ ← SanityCheck h;
  _ ← ASSERT (IsEmpty h);
  _ ← ASSERT (IsDone h it);
  h ← foldl (fun r x => h ← r; h ← Insert h x; there ← IsInTable h (getKey x); _ ← ASSERT there; _ ← ASSERT (negb (IsEmpty h)); Ok h) (Ok h) p;
  h ← foldl (fun r x => h ← r; '(y, h) ← Remove h (getKey x); _ ← ASSERT (bool_decide (y = x)); Ok h) (Ok h) p;
  _ ← ASSERT (IsEmpty h);
  _ ← SanityCheck h; Ok h.

(** * The invariant *)

Definition items h : list T := concat (buckets h).

(** The bucket of a key. *)
Definition slot (n : Z) key : nat := Z.to_nat (u32 (hash key) mod n).

Definition at_home (n : Z) (bs : list (list T)) : Prop := forall i b x, bs !! i = Some b -> x ∈ b -> slot n (getKey x) = i.

Record wf h : Prop := {
  wf_size : exists k, 0 <= k /\ numBuckets h = 4 ^ (k + 1);
  wf_i32 : numBuckets h < 2 ^ 31;
  wf_length : length (buckets h) = Z.to_nat (numBuckets h);
  wf_home : at_home (numBuckets h) (buckets h);
  wf_keys : NoDup (getKey <$> items h);
  wf_count : numItems h = Z.of_nat (length (items h)) /\ numItems h < 2 ^ 31
}.

(** The map that a table stands for. *)
Definition represents h (m : gmap Key T) : Prop := forall key x, m !! key = Some x <-> x ∈ items h /\ getKey x = key.

Lemma size_pos h : wf h -> 0 < numBuckets h.
Proof. intros [(k & Hk & ->) _ _ _ _ _]. apply Z.pow_pos_nonneg; lia. Qed.

Lemma HashValue_slot n key : 0 < n < 2 ^ 31 -> HashValue n key = Ok (Z.of_nat (slot n key)) /\ (slot n key < Z.to_nat n)%nat.
Proof.
  intros Hn. unfold HashValue, slot. pose proof (Z.mod_pos_bound (u32 (hash key)) n ltac:(lia)) as Hm. rewrite i32_id by (unfold is_i32; lia).
  rewrite ASSERT_true by (apply andb_true_intro; lia). cbn. rewrite Z2Nat.id by lia. split; [done|]. lia.
Qed.

Lemma find_some key b x : FindInBucket_from key b = Some x -> x ∈ b /\ key = getKey x.
Proof.
  induction b as [|y b IH]; [done|]. cbn. case_decide; [intros [= <-]; split; [left|done]|]. intros E. destruct (IH E). by split; [right|].
Qed.

Lemma find_none key b : FindInBucket_from key b = None -> forall x, x ∈ b -> key <> getKey x.
Proof.
  induction b as [|y b IH]; intros E x Hx; [by apply not_elem_of_nil in Hx|]. cbn in E. case_decide; [done|].
  apply elem_of_cons in Hx as [->|Hx]; [done|by apply IH].
Qed.

Lemma elem_of_items h x : x ∈ items h <-> exists i b, buckets h !! i = Some b /\ x ∈ b.
Proof.
  unfold items. rewrite list_elem_of_In, in_concat. setoid_rewrite <- list_elem_of_In. split.
  - intros (b & Hb & Hx). apply list_elem_of_lookup in Hb as [i Hi]. eauto.
  - intros (i & b & Hi & Hx). exists b. split; [|done]. apply list_elem_of_lookup. eauto.
Qed.

Lemma bucket_at h i : wf h -> (i < Z.to_nat (numBuckets h))%nat -> exists b, buckets h !! i = Some b /\ aget (buckets h) (Z.of_nat i) = Ok b.
Proof.
  intros Hw Hi. rewrite <- (wf_length _ Hw) in Hi. destruct (aget_in (buckets h) (Z.of_nat i)) as (b & E & Ha); [lia|].
  rewrite Nat2Z.id in E. eauto.
Qed.

Lemma Find_represents h m key : wf h -> represents h m -> Find h key = Ok (m !! key).
Proof.
  intros Hw Hr. unfold Find. destruct (HashValue_slot (numBuckets h) key) as [-> Hs]; [split; [by apply size_pos|apply Hw]|]. cbn.
  destruct (bucket_at h _ Hw Hs) as (b & Hb & Hg). unfold FindInBucket. rewrite Hg. cbn. f_equal.
  destruct (FindInBucket_from key b) as [x|] eqn:E.
  - apply find_some in E as [Hx ->]. symmetry. apply Hr. split; [|done]. apply elem_of_items. eauto.
  - destruct (m !! key) as [x|] eqn:Em; [|done]. apply Hr in Em as [Hx <-]. apply elem_of_items in Hx as (i & b' & Hb' & Hx).
    pose proof (wf_home _ Hw i b' x Hb' Hx) as Hi. subst i. rewrite Hb in Hb'. injection Hb' as <-. by eapply find_none in E.
Qed.

Lemma IsInTable_represents h m key : wf h -> represents h m -> IsInTable h key = Ok (bool_decide (is_Some (m !! key))).
Proof. intros Hw Hr. unfold IsInTable. by rewrite (Find_represents h m) by done. Qed.

(** ** Adding an item *)

Lemma concat_insert (bs : list (list T)) i b b' : bs !! i = Some b -> exists l1 l2, concat bs = l1 ++ b ++ l2 /\ concat (<[i := b']> bs) = l1 ++ b' ++ l2.
Proof.
  intros E. exists (concat (take i bs)), (concat (drop (S i) bs)).
  assert (i < length bs)%nat as Hi by (by eapply lookup_lt_Some). split.
  - rewrite <- (take_drop_middle bs i b E) at 1. by rewrite concat_app, concat_cons.
  - rewrite insert_take_drop by done. by rewrite concat_app, concat_cons.
Qed.

Lemma append_item_spec n bs x : 0 < n < 2 ^ 31 -> length bs = Z.to_nat n -> at_home n bs ->
  exists bs', append_item n bs x = Ok bs' /\ length bs' = Z.to_nat n /\ at_home n bs' /\ concat bs' ≡ₚ x :: concat bs.
Proof.
  intros Hn Hl Hh. unfold append_item. destruct (HashValue_slot n (getKey x) Hn) as [-> Hs]. cbn. rewrite <- Hl in Hs.
  destruct (aget_in bs (Z.of_nat (slot n (getKey x)))) as (b & E & ->); [lia|]. cbn. rewrite aset_in by lia. rewrite Nat2Z.id in *.
  eexists. split; [reflexivity|]. rewrite length_insert. split; [done|]. split.
  - intros i c y. rewrite list_lookup_insert_Some. intros [(<- & <- & _)|[_ Hc]]; [|by apply (Hh i c)].
    rewrite elem_of_app, list_elem_of_singleton. intros [Hy| ->]; [by apply (Hh _ b)|done].
  - destruct (concat_insert bs _ b (b ++ [x]) E) as (l1 & l2 & -> & ->). by solve_Permutation.
Qed.

(** ** SanityCheck *)

Lemma check_bucket_ok n i b : 0 < n < 2 ^ 31 -> (forall x, x ∈ b -> slot n (getKey x) = i) -> check_bucket n (Z.of_nat i) b = Ok tt.
Proof.
  intros Hn. induction b as [|x b IH]; intros Hb; [done|]. cbn. destruct (HashValue_slot n (getKey x) Hn) as [-> _]. cbn.
  rewrite (Hb x) by left. rewrite Z.eqb_refl. cbn. apply IH. intros y Hy. apply Hb. by right.
Qed.

Lemma concat_take_S (bs : list (list T)) i b : bs !! i = Some b -> concat (take (S i) bs) = concat (take i bs) ++ b.
Proof. intros E. rewrite (take_S_r _ _ _ E), concat_app. cbn. by rewrite app_nil_r. Qed.

Lemma SanityCheck_ok h : 0 < numBuckets h < 2 ^ 31 -> length (buckets h) = Z.to_nat (numBuckets h) -> at_home (numBuckets h) (buckets h) ->
  numItems h = Z.of_nat (length (items h)) -> SanityCheck h = Ok tt.
Proof.
  intros Hn Hl Hh Hc. unfold SanityCheck. match goal with |- context [for_each _ ?body _] =>
    destruct (for_each_inv (fun i c => c = Z.of_nat (length (concat (take (Z.to_nat i) (buckets h))))) body 0 (numBuckets h) 0) as (c & -> & ->) end.
  - lia.
  - done.
  - intros i c Hi ->. cbv beta. destruct (aget_in (buckets h) i) as (b & E & ->); [lia|]. cbn.
    pose proof (check_bucket_ok (numBuckets h) (Z.to_nat i) b ltac:(lia) ltac:(intros x; by apply (Hh _ b))) as Hcb.
    rewrite Z2Nat.id in Hcb by lia. rewrite Hcb. cbn. eexists. split; [reflexivity|].
    replace (Z.to_nat (i + 1)) with (S (Z.to_nat i)) by lia. rewrite (concat_take_S _ _ _ E), length_app. lia.
  - cbn. rewrite <- Hl, firstn_all. apply ASSERT_true, Z.eqb_eq. exact Hc.
Qed.

Lemma SanityCheck_wf h : wf h -> SanityCheck h = Ok tt.
Proof. intros Hw. pose proof (size_pos h Hw). destruct Hw as [_ ? ? ? _ [? _]]. apply SanityCheck_ok; done || lia. Qed.

(** ** Growing *)

Lemma move_bucket_spec n bs old : 0 < n < 2 ^ 31 -> length bs = Z.to_nat n -> at_home n bs ->
  exists bs', move_bucket n bs old = Ok bs' /\ length bs' = Z.to_nat n /\ at_home n bs' /\ concat bs' ≡ₚ old ++ concat bs.
Proof.
  intros Hn. revert bs. induction old as [|x old IH]; intros bs Hl Hh; [by exists bs|]. cbn.
  destruct (append_item_spec n bs x Hn Hl Hh) as (bs1 & -> & Hl1 & Hh1 & E1). cbn.
  destruct (IH bs1 Hl1 Hh1) as (bs2 & -> & Hl2 & Hh2 & E2). exists bs2. split; [done|]. split; [done|]. split; [done|].
  rewrite E2, E1. by rewrite Permutation_middle.
Qed.

Lemma InitBuckets_home n : 0 < n -> length (InitBuckets n) = Z.to_nat n /\ at_home n (InitBuckets n) /\ concat (InitBuckets n) = [].
Proof.
  intros Hn. unfold InitBuckets. rewrite length_replicate. split; [done|]. split.
  - intros i b x [-> _]%lookup_replicate_1 Hx. by apply not_elem_of_nil in Hx.
  - induction (Z.to_nat n) as [|k IH]; [done|]. exact IH.
Qed.

Lemma ReHash_spec h : wf h -> numItems h /c numBuckets h >= ResizeRatio ->
  exists h', ReHash h = Ok h' /\ wf h' /\ items h' ≡ₚ items h /\ numItems h' = numItems h.
Proof.
  intros Hw Hr. pose proof (size_pos h Hw) as Hpos. pose proof (wf_i32 _ Hw) as Hi. pose proof (wf_count _ Hw) as [Hc Hmax].
  destruct (wf_size _ Hw) as (k & Hk & Ek). rewrite Z.quot_div_nonneg in Hr by lia.
  assert (numBuckets h * 3 <= numItems h) as H3. { pose proof (Z.mul_div_le (numItems h) (numBuckets h) Hpos). unfold ResizeRatio in Hr. nia. }
  assert (k + 1 <= 14) as Hk14. { destruct (decide (k + 1 <= 14)); [done|]. assert (4 ^ 15 <= 4 ^ (k + 1)) by (apply Z.pow_le_mono_r; lia). change (4 ^ 15) with (2 ^ 30) in *. lia. }
  assert (4 ^ (k + 1) <= 4 ^ 14) as H14 by (apply Z.pow_le_mono_r; lia). change (4 ^ 14) with (2 ^ 28) in H14.
  set (n := numBuckets h * IncreaseSizeBy). assert (0 < n < 2 ^ 31) as Hn by (unfold n, IncreaseSizeBy; lia).
  unfold ReHash. rewrite (SanityCheck_wf h Hw). cbn [mbind res_bind]. fold n. rewrite decide_True by (unfold is_i32; lia). cbn [mbind res_bind].
  destruct (InitBuckets_home n ltac:(lia)) as (Hl0 & Hh0 & E0).
  match goal with |- context [for_each _ ?body _] =>
    destruct (for_each_inv (fun i bs => length bs = Z.to_nat n /\ at_home n bs /\ concat bs ≡ₚ concat (take (Z.to_nat i) (buckets h))) body 0 (numBuckets h) (InitBuckets n))
      as (bs & -> & Hl & Hh & E) end.
  - lia.
  - by rewrite E0.
  - intros i bs Hir (Hl & Hh & E). cbv beta. pose proof (wf_length _ Hw). destruct (aget_in (buckets h) i) as (b & Eb & ->); [lia|]. cbn [mbind res_bind].
    destruct (move_bucket_spec n bs b Hn Hl Hh) as (bs' & -> & Hl' & Hh' & E'). exists bs'. split; [done|]. split; [done|]. split; [done|].
    replace (Z.to_nat (i + 1)) with (S (Z.to_nat i)) by lia. by rewrite (concat_take_S _ _ _ Eb), E', E, Permutation_app_comm.
  - cbn [mbind res_bind]. rewrite <- (wf_length _ Hw), firstn_all in E. change (concat (buckets h)) with (items h) in E.
    rewrite SanityCheck_ok; [|done..|change (items (MkTable bs n (numItems h))) with (concat bs); cbn [numItems]; by rewrite E]. cbn [mbind res_bind]. eexists. split; [reflexivity|]. split; [|done].
    constructor; cbn [numBuckets buckets numItems]; try done.
    + exists (k + 1). split; [lia|]. unfold n, IncreaseSizeBy. rewrite Ek, (Z.pow_add_r 4 (k + 1) 1) by lia. lia.
    + lia.
    + change (items (MkTable bs n (numItems h))) with (concat bs). rewrite E. apply (wf_keys _ Hw).
    + change (items (MkTable bs n (numItems h))) with (concat bs). by rewrite E.
Qed.

Lemma represents_perm h h' m : items h' ≡ₚ items h -> represents h m -> represents h' m.
Proof. intros E Hr key x. rewrite (Hr key x). by rewrite E. Qed.

(** ** Insert and Remove *)

Lemma items_size h m : wf h -> represents h m -> items h ≡ₚ (map_to_list m).*2.
Proof.
  intros Hw Hr. assert (NoDup (items h)) as Hnd by (by eapply NoDup_fmap_1, wf_keys). apply NoDup_Permutation; [done| |].
  - apply (NoDup_fmap_1 getKey). rewrite <- list_fmap_compose. 
    assert (forall l, l ⊆ map_to_list m -> NoDup l.*1 -> NoDup ((getKey ∘ snd) <$> l)) as Hall.
    { induction l as [|[k x] l IH]; intros Hs Hn; cbn; [constructor|]. cbn in Hn. apply NoDup_cons in Hn as [Hk Hn].
      assert (forall k0 x0, (k0, x0) ∈ l -> getKey x0 = k0) as Hkey.
      { intros k0 x0 Hin. apply Hr. apply elem_of_map_to_list, Hs. by right. }
      apply NoDup_cons. split; [|apply IH; [|done]; intros z Hz; apply Hs; by right].
      intros (p & Ep & Hp)%list_elem_of_fmap. destruct p as [k0 x0]. cbn in Ep. assert (getKey x = k) as Ex by (apply Hr, elem_of_map_to_list, Hs; left).
      rewrite (Hkey _ _ Hp), Ex in Ep. subst k0. apply Hk, list_elem_of_fmap. by exists (k, x0). }
    apply Hall; [done|apply NoDup_fst_map_to_list].
  - intros x. rewrite list_elem_of_fmap. split.
    + intros Hx. exists (getKey x, x). split; [done|]. apply elem_of_map_to_list. by apply Hr.
    + intros ([k y] & -> & Hy%elem_of_map_to_list). by apply Hr in Hy as [Hy _].
Qed.

Lemma represents_count h m : wf h -> represents h m -> numItems h = Z.of_nat (size m).
Proof.
  intros Hw Hr. destruct (wf_count _ Hw) as [-> _]. f_equal. rewrite (items_size h m Hw Hr), length_fmap. by rewrite length_map_to_list.
Qed.

Lemma insert_room h m item : wf h -> represents h m -> m !! getKey item = None -> is_i32 (numItems h + 1) ->
  exists bs h', append_item (numBuckets h) (buckets h) item = Ok bs /\ h' = MkTable bs (numBuckets h) (numItems h + 1) /\
    wf h' /\ represents h' (<[getKey item := item]> m).
Proof.
  intros Hw Hr Hm Hi. pose proof (size_pos h Hw) as Hpos. pose proof (wf_i32 _ Hw).
  destruct (append_item_spec (numBuckets h) (buckets h) item ltac:(lia) (wf_length _ Hw) (wf_home _ Hw)) as (bs & E & Hl & Hh & Ep).
  exists bs, (MkTable bs (numBuckets h) (numItems h + 1)). split; [done|]. split; [done|]. change (concat (buckets h)) with (items h) in Ep.
  assert (items (MkTable bs (numBuckets h) (numItems h + 1)) = concat bs) as Hit by done. split.
  - constructor; cbn [numBuckets buckets numItems]; try apply Hw; try done.
    + rewrite Hit, Ep. cbn. apply NoDup_cons. split; [|apply Hw]. intros (y & Ey & Hy)%list_elem_of_fmap.
      assert (m !! getKey item = Some y) as Hc by (by apply Hr). congruence.
    + rewrite Hit, Ep. cbn. pose proof (wf_count _ Hw) as [Hc _]. split; [lia|]. unfold is_i32 in Hi. lia.
  - intros key x. rewrite Hit, Ep, elem_of_cons. rewrite lookup_insert_Some, (Hr key x). split; [naive_solver|]. intros [[->|Hx] <-]; [by left|].
    destruct (decide (getKey item = getKey x)) as [Ek|Ek]; [|by right]. exfalso.
    assert (m !! getKey item = Some x) as Hc by (apply Hr; by rewrite Ek). congruence.
Qed.

Lemma Insert_spec h m item : wf h -> represents h m ->
  match m !! getKey item with
  | Some _ => Insert h item = AssertFail
  | None => if decide (Z.of_nat (size m) + 1 < 2 ^ 31)
      then exists h', Insert h item = Ok h' /\ wf h' /\ represents h' (<[getKey item := item]> m)
      else Insert h item = Undefined
  end.
Proof.
  intros Hw Hr. unfold Insert. rewrite (IsInTable_represents h m) by done. cbn [mbind res_bind].
  destruct (m !! getKey item) as [y|] eqn:Em; [done|]. cbn [mbind res_bind negb ASSERT bool_decide].
  assert (bool_decide (is_Some (None : option T)) = false) as -> by (apply bool_decide_eq_false; by intros [? ?]). cbn [mbind res_bind negb ASSERT].
  assert (exists h1, (if numItems h /c numBuckets h >=? ResizeRatio then ReHash h else Ok h) = Ok h1 /\ wf h1 /\ represents h1 m /\ numItems h1 = numItems h) as (h1 & -> & Hw1 & Hr1 & Hn1).
  { destruct (Z.geb (numItems h /c numBuckets h) ResizeRatio) eqn:Hg; [|by exists h].
    destruct (ReHash_spec h Hw) as (h1 & -> & Hw1 & E1 & Hn1); [apply Z.geb_le in Hg; lia|]. exists h1. split; [done|]. split; [done|]. split; [|done]. by eapply represents_perm. }
  cbn [mbind res_bind]. pose proof (represents_count h1 m Hw1 Hr1) as Hcount. case_decide as Hsz.
  - destruct (insert_room h1 m item Hw1 Hr1 Em) as (bs & h' & -> & -> & Hw' & Hr'); [unfold is_i32; lia|]. cbn [mbind res_bind].
    rewrite decide_True by (unfold is_i32; lia). cbn [mbind res_bind]. rewrite (IsInTable_represents _ _ _ Hw' Hr'). cbn [mbind res_bind].
    rewrite lookup_insert_eq, bool_decide_eq_true_2 by eauto. cbn [mbind res_bind ASSERT]. eauto.
  - pose proof (size_pos h1 Hw1). pose proof (wf_i32 _ Hw1).
    destruct (append_item_spec (numBuckets h1) (buckets h1) item ltac:(lia) (wf_length _ Hw1) (wf_home _ Hw1)) as (bs & -> & _). cbn [mbind res_bind].
    by rewrite decide_False by (unfold is_i32; lia).
Qed.

Lemma Remove_spec h m key : wf h -> represents h m ->
  match m !! key with
  | None => Remove h key = AssertFail
  | Some x => exists h', Remove h key = Ok (x, h') /\ wf h' /\ represents h' (delete key m)
  end.
Proof.
  intros Hw Hr. pose proof (Find_represents h m key Hw Hr) as Hf. unfold Find in Hf. unfold Remove. pose proof (size_pos h Hw). pose proof (wf_i32 _ Hw).
  destruct (HashValue_slot (numBuckets h) key ltac:(lia)) as [Hv Hs]. rewrite Hv in *. cbn [mbind res_bind] in *. rewrite Hf. cbn [mbind res_bind].
  destruct (m !! key) as [x|] eqn:Em; [|done]. destruct (bucket_at h _ Hw Hs) as (b & Hb & Hg). rewrite Hg. cbn [mbind res_bind].
  apply Hr in Em as Hx. destruct Hx as [Hx Hkey]. assert (x ∈ b) as Hxb.
  { apply elem_of_items in Hx as (i & b' & Hb' & Hx). pose proof (wf_home _ Hw i b' x Hb' Hx) as Hi. rewrite Hkey in Hi. subst i. rewrite Hb in Hb'. by injection Hb' as <-. }
  rewrite (bool_decide_eq_true_2 (x ∈ b)) by done. cbn [mbind res_bind ASSERT]. set (b' := CList.remove_first x b).
  pose proof (CList.remove_first_perm x b Hxb) as Ep. fold b' in Ep. destruct (concat_insert (buckets h) _ b b' Hb) as (l1 & l2 & E1 & E2).
  assert (items h ≡ₚ x :: concat (<[slot (numBuckets h) key := b']> (buckets h))) as Eit.
  { unfold items. rewrite E1, E2, Ep. by solve_Permutation. }
  pose proof (wf_keys _ Hw) as Hk. rewrite Eit in Hk. cbn in Hk. apply NoDup_cons in Hk as [Hxk Hk].
  assert (x ∉ b') as Hxb'.
  { intros Hin. apply Hxk, list_elem_of_fmap. exists x. split; [done|]. rewrite E2, !elem_of_app. auto. }
  rewrite (bool_decide_eq_true_2 (x ∉ b')) by done. cbn [mbind res_bind ASSERT]. rewrite aset_in by (rewrite (wf_length _ Hw); lia). cbn [mbind res_bind]. rewrite Nat2Z.id.
  match goal with |- context [IsInTable ?t key] => set (h' := t) end. assert (items h' = concat (<[slot (numBuckets h) key := b']> (buckets h))) as Hit by done.
  assert (wf h') as Hw'.
  { constructor; cbn [h' numBuckets buckets numItems]; try apply Hw.
    - rewrite length_insert. apply Hw.
    - intros i c y. rewrite list_lookup_insert_Some. intros [(<- & <- & _)|[_ Hc]] Hy; [|by apply (wf_home _ Hw i c)].
      apply (wf_home _ Hw _ b); [done|]. rewrite Ep. by right.
    - by rewrite Hit.
    - rewrite Hit. destruct (wf_count _ Hw) as [Hc Hmax]. rewrite Eit in Hc. cbn in Hc. lia. }
  assert (represents h' (delete key m)) as Hr'.
  { intros k y. rewrite lookup_delete_Some, (Hr k y), Hit, Eit, elem_of_cons. split; [naive_solver|]. intros [Hy <-]. split; [|naive_solver].
    intros Hky. apply Hxk, list_elem_of_fmap. exists y. split; [congruence|done]. }
  rewrite (IsInTable_represents h' _ key Hw' Hr'). cbn [mbind res_bind]. rewrite lookup_delete_eq.
  assert (bool_decide (is_Some (None : option T)) = false) as -> by (apply bool_decide_eq_false; by intros [? ?]). cbn [mbind res_bind negb ASSERT]. eauto.
Qed.

(** ** Apply and the iterator *)

Lemma Apply_ok h : wf h -> Apply h = Ok (items h).
Proof.
  intros Hw. pose proof (size_pos h Hw). unfold Apply. match goal with |- context [for_each _ ?body _] =>
    destruct (for_each_inv (fun i xs => xs = concat (take (Z.to_nat i) (buckets h))) body 0 (numBuckets h) []) as (xs & -> & ->) end.
  - lia.
  - done.
  - intros i xs Hi ->. cbv beta. destruct (aget_in (buckets h) i) as (b & E & ->); [rewrite (wf_length _ Hw); lia|]. cbn. eexists. split; [reflexivity|].
    replace (Z.to_nat (i + 1)) with (S (Z.to_nat i)) by lia. by rewrite (concat_take_S _ _ _ E).
  - by rewrite <- (wf_length _ Hw), firstn_all.
Qed.

(** What the iterator has still to show, the current item first. *)
Definition pending h (it : HashIterator) : list T :=
  match bucketIter it with None => [] | Some b => b ++ concat (drop (S (Z.to_nat (bucket it))) (buckets h)) end.

Definition valid h (it : HashIterator) : Prop :=
  match bucketIter it with None => bucket it = numBuckets h | Some b => b <> [] /\ 0 <= bucket it < numBuckets h end.

Lemma at_bucket_ok h i : wf h -> 0 <= i <= numBuckets h ->
  exists it, at_bucket h i = Ok it /\ valid h it /\ pending h it = concat (drop (Z.to_nat i) (buckets h)).
Proof.
  intros Hw. unfold at_bucket, FindNextFullBucket. remember (Z.to_nat (numBuckets h - i)) as n eqn:En. revert i En.
  induction n as [|n IH]; intros i En Hi; cbn [FindNextFullBucket_loop].
  - assert (i = numBuckets h) as -> by lia. rewrite Z.ltb_irrefl. cbn [mbind res_bind]. rewrite Z.ltb_irrefl. eexists. split; [reflexivity|]. split; [done|].
    cbn. rewrite drop_ge; [done|]. rewrite (wf_length _ Hw). lia.
  - rewrite (proj2 (Z.ltb_lt i (numBuckets h))) by lia. destruct (aget_in (buckets h) i) as (b & E & Hg); [rewrite (wf_length _ Hw); lia|].
    rewrite Hg. cbn [mbind res_bind]. rewrite (drop_S _ _ _ E). destruct b as [|x b].
    + destruct (IH (i + 1)) as (it & E2 & Hv & Hp); [lia|lia|]. exists it. split; [exact E2|]. split; [done|]. rewrite Hp. cbn. do 2 f_equal. lia.
    + cbn [mbind res_bind]. rewrite (proj2 (Z.ltb_lt i (numBuckets h))) by lia. rewrite Hg. cbn [mbind res_bind]. eexists. split; [reflexivity|].
      split; [|done]. split; [done|cbn; lia].
Qed.

Lemma Next_ok h it x xs : wf h -> valid h it -> pending h it = x :: xs ->
  IsDone h it = false /\ Item h it = Ok x /\ exists it', Next h it = Ok it' /\ valid h it' /\ pending h it' = xs.
Proof.
  intros Hw Hv Hp. destruct it as [i [b|]]; [|done]. cbn in Hv, Hp. destruct Hv as [Hb Hi]. unfold IsDone, Item, Next. cbn [bucket bucketIter].
  assert ((i =? numBuckets h) = false) as Hd by (apply Z.eqb_neq; lia). unfold IsDone. cbn [bucket]. rewrite Hd. split; [done|].
  destruct b as [|y b]; [done|]. injection Hp as -> Hp. split; [done|]. cbn [deref mbind res_bind]. destruct b as [|z b].
  - destruct (at_bucket_ok h (i + 1) Hw ltac:(lia)) as (it' & E & Hv' & Hp'). exists it'. split; [exact E|]. split; [done|]. rewrite Hp', <- Hp. cbn. do 2 f_equal. lia.
  - eexists. split; [reflexivity|]. split; [|done]. cbn. split; [done|lia].
Qed.

Lemma iterate_ok fuel h it : wf h -> valid h it -> (length (pending h it) < fuel)%nat -> iterate fuel h it = Ok (pending h it).
Proof.
  intros Hw. revert it. induction fuel as [|fuel IH]; intros it Hv Hf; [lia|]. cbn [iterate]. destruct (pending h it) as [|x xs] eqn:Hp.
  - assert (IsDone h it = true) as ->; [|done]. destruct it as [i [b|]]; cbn in Hv, Hp; [by destruct b as [|y b]; destruct Hv|]. by apply Z.eqb_eq.
  - destruct (Next_ok h it x xs Hw Hv Hp) as (-> & -> & it' & E & Hv' & Hp'). cbn [mbind res_bind]. rewrite E. cbn [mbind res_bind].
    cbn in Hf. rewrite (IH it' Hv') by (rewrite Hp'; lia). by rewrite Hp'.
Qed.

(** The items that an iterator of the table shows; the fuel is more than their number. *)
Definition all_items h : res (list T) := it ← HashIterator_new h; iterate (S (length (items h))) h it.

Lemma all_items_ok h : wf h -> all_items h = Ok (items h).
Proof.
  intros Hw. pose proof (size_pos h Hw). unfold all_items, HashIterator_new. destruct (at_bucket_ok h 0 Hw ltac:(lia)) as (it & -> & Hv & Hp). cbn [mbind res_bind].
  change (concat (drop (Z.to_nat 0) (buckets h))) with (items h) in Hp. rewrite iterate_ok; [by rewrite Hp|done|done|]. rewrite Hp. lia.
Qed.

(** * The abstract specification: a finite map *)

Inductive op := OInsert (item : T) | ORemove (key : Key) | OFind (key : Key) | OIsInTable (key : Key) | OIsEmpty.
Inductive answer := RUnit | RItem (x : T) | RFound (r : option T) | RBool (b : bool).

Definition step h (o : op) : res (answer * HashTable) :=
  match o with
  | OInsert x => h ← Insert h x; Ok (RUnit, h)
  | ORemove key => '(x, h) ← Remove h key; Ok (RItem x, h)
  | OFind key => r ← Find h key; Ok (RFound r, h)
  | OIsInTable key => b ← IsInTable h key; Ok (RBool b, h)
  | OIsEmpty => Ok (RBool (IsEmpty h), h)
  end.

(** Insert of a key that is there and Remove of one that is not fail their ASSERT; the number
    of items is an [int]. *)
Definition spec_step (m : gmap Key T) (o : op) : res (answer * gmap Key T) :=
  match o with
  | OInsert x =>
      match m !! getKey x with
      | Some _ => AssertFail
      | None => if decide (Z.of_nat (size m) + 1 < 2 ^ 31) then Ok (RUnit, <[getKey x := x]> m) else Undefined
      end
  | ORemove key => match m !! key with Some x => Ok (RItem x, delete key m) | None => AssertFail end
  | OFind key => Ok (RFound (m !! key), m)
  | OIsInTable key => Ok (RBool (bool_decide (is_Some (m !! key))), m)
  | OIsEmpty => Ok (RBool (bool_decide (m = ∅)), m)
  end.

Fixpoint run {St} (stp : St -> op -> res (answer * St)) (st : St) (os : list op) : res (list answer * St) :=
  match os with
  | [] => Ok ([], st)
  | o :: os' => '(a, st) ← stp st o; '(rs, st) ← run stp st os'; Ok (a :: rs, st)
  end.

Lemma step_refines h m o : wf h -> represents h m ->
  match spec_step m o with
  | Ok (a, m') => exists h', step h o = Ok (a, h') /\ wf h' /\ represents h' m'
  | AssertFail => step h o = AssertFail
  | Undefined => step h o = Undefined
  | _ => False
  end.
Proof.
  intros Hw Hr. destruct o as [x|key|key|key|]; cbn [spec_step step].
  - pose proof (Insert_spec h m x Hw Hr) as Hi. destruct (m !! getKey x); [by rewrite Hi|]. case_decide; [|by rewrite Hi]. destruct Hi as (h' & -> & H1 & H2). eauto.
  - pose proof (Remove_spec h m key Hw Hr) as Hi. destruct (m !! key); [|by rewrite Hi]. destruct Hi as (h' & -> & H1 & H2). eauto.
  - rewrite (Find_represents h m) by done. eauto.
  - rewrite (IsInTable_represents h m) by done. eauto.
  - exists h. split; [|done]. do 3 f_equal. unfold IsEmpty. rewrite (represents_count h m Hw Hr). apply eq_true_iff_eq.
    rewrite Z.eqb_eq, bool_decide_eq_true, <- map_size_empty_iff. lia.
Qed.

Lemma run_refines h m os : wf h -> represents h m ->
  match run spec_step m os with
  | Ok (rs, m') => exists h', run step h os = Ok (rs, h') /\ wf h' /\ represents h' m'
  | AssertFail => run step h os = AssertFail
  | Undefined => run step h os = Undefined
  | _ => False
  end.
Proof.
  revert h m. induction os as [|o os IH]; intros h m Hw Hr; [cbn; eauto|]. cbn [run]. pose proof (step_refines h m o Hw Hr) as Hs.
  destruct (spec_step m o) as [[a m1]| | | |]; cbn [mbind res_bind]; try (by rewrite Hs); try done. destruct Hs as (h1 & -> & Hw1 & Hr1). cbn [mbind res_bind].
  pose proof (IH h1 m1 Hw1 Hr1) as Hrun. destruct (run spec_step m1 os) as [[rs m2]| | | |]; cbn [mbind res_bind]; try (by rewrite Hrun); try done.
  destruct Hrun as (h2 & -> & Hw2 & Hr2). cbn [mbind res_bind]. eauto.
Qed.

Lemma HashTable_new_wf : wf HashTable_new /\ represents HashTable_new ∅.
Proof.
  split.
  - constructor; try done; cbn.
    + by exists 0.
    + intros i b x Hb Hx. destruct (InitBuckets_home InitialBuckets eq_refl) as (_ & Hh & _). by apply (Hh i b x).
    + constructor.
  - intros key x. rewrite lookup_empty. split; [done|]. intros [Hx _]. by apply not_elem_of_nil in Hx.
Qed.

(** C32. A hash table is a finite map: every sequence of calls on a new table answers as the
    same calls on a map from keys to items, whatever the hash function, through all growths
    of the table, and stops at an ASSERT exactly where a key is inserted twice or removed when
    absent; at the end Apply and the iterator show each item of the map exactly once and
    SanityCheck passes. *)
Theorem hash_table_is_finite_map (os : list op) :
  match run spec_step ∅ os with
  | Ok (rs, m) => exists h xs, run step HashTable_new os = Ok (rs, h) /\ Apply h = Ok xs /\ all_items h = Ok xs /\ xs ≡ₚ (map_to_list m).*2 /\ SanityCheck h = Ok tt
  | AssertFail => run step HashTable_new os = AssertFail
  | Undefined => run step HashTable_new os = Undefined
  | _ => False
  end.
Proof.
  destruct HashTable_new_wf as [Hw Hr]. pose proof (run_refines HashTable_new ∅ os Hw Hr) as H0.
  destruct (run spec_step ∅ os) as [[rs m]| | | |]; try done. destruct H0 as (h & E & Hw' & Hr'). exists h, (items h).
  split; [done|]. split; [by apply Apply_ok|]. split; [by apply all_items_ok|]. split; [by apply items_size|by apply SanityCheck_wf].
Qed.
End Ops.

(** Fourteen numbers that are their own keys: the thirteenth makes the table grow to sixteen
    buckets. *)
Definition sample_ops : list (@op Z Z) := map OInsert (range 0 14) ++ [ORemove 5; OFind 5; OFind 13].

Example sample_grows : match run (step id id) HashTable_new sample_ops with
  | Ok (rs, h) => rs = replicate 14 RUnit ++ [RItem 5; RFound None; RFound (Some 13)] /\ numBuckets h = 16
  | _ => False
  end.
Proof. vm_compute. done. Qed.

Example sample_repeated : run (step id id) HashTable_new [OInsert 7; OInsert 7] = AssertFail.
Proof. vm_compute. done. Qed.

Example sample_selftest : exists h, SelfTest id id HashTable_new (range 0 20) = Ok h.
Proof. eexists. vm_compute. reflexivity. Qed.
End Hash.
