(* ===== verification/Stacks.v ===== *)
(** Stacks: the programs of the C++ tutorial, src/c++example: a stack in an array (stack.cc),
    for any type of items (templatestack.cc), a list (list.cc), and an abstract class of
    stacks with the two implementations (inheritstack.cc).

    The abstract class is the typeclass [Stack], its derived classes are instances;
    [StackLaws] is what it promises, and the test of the abstract class is proved against the
    laws.  The cells of the list are those of CList.v. *)

From S2P Require Import Prelude CList.
From stdpp Require Import base numbers list gmap.
#[local] Open Scope Z_scope.

Module Stacks.
Import CList.

(** * The abstract class *)

Class Stack (St T : Type) := {
  Push : T -> St -> res St;
  Pop : St -> res (T * St);
  Full : St -> bool;
  Empty : St -> bool
}.

(** A line of output. *)
Inductive line (T : Type) := Pushing (x : T) | Popping (x : T).
Arguments Pushing {T} _.
Arguments Popping {T} _.

Section SelfTest.
Context {St T : Type} `{Stack St T}.

(** [count++]: the value and what it becomes *)
Variable succ : T -> res T.

Fixpoint push_all (n : nat) (count : T) (s : St) : res (list (line T) * St) :=
  match n with
  | O => Ok ([], s)
  | S n =>
      _ ← ASSERT (negb (Full s));
      next ← succ count; s' ← Push count s; '(out, s'') ← push_all n next s'; Ok (Pushing count :: out, s'')
  end.

Fixpoint pop_all (fuel : nat) (s : St) : res (list (line T) * St) :=
  match fuel with
  | O => OutOfFuel
  | S fuel =>
      if Empty s then Ok ([], s) else '(x, s') ← Pop s; '(out, s'') ← pop_all fuel s'; Ok (Popping x :: out, s'')
  end.

(** Stack::SelfTest of inheritstack.cc; [fuel] is more than the stack has items at the end of
    the first loop. *)
Definition SelfTest (fuel : nat) (count : T) (numToPush : Z) (s : St) : res (list (line T) * St) :=
  '(out1, s1) ← push_all (Z.to_nat numToPush) count s; '(out2, s2) ← pop_all fuel s1; Ok (out1 ++ out2, s2).

(** SelfTest of stack.cc and templatestack.cc: [while (!Full())] *)
Fixpoint fill (fuel : nat) (count : T) (s : St) : res (list (line T) * St) :=
  match fuel with
  | O => OutOfFuel
  | S fuel =>
      if Full s then Ok ([], s)
      else next ← succ count; s' ← Push count s; '(out, s'') ← fill fuel next s'; Ok (Pushing count :: out, s'')
  end.
Definition fill_SelfTest (fuel : nat) (start : T) (s : St) : res (list (line T) * St) :=
  '(out1, s1) ← fill fuel start s; '(out2, s2) ← pop_all fuel s1; Ok (out1 ++ out2, s2).
End SelfTest.

(** [int count] and [char count] *)
Definition int_succ (x : Z) : res Z := if decide (x + 1 < 2 ^ 31) then Ok (x + 1) else Undefined.
Definition char_succ (x : Z) : res Z := Ok ((x + 1 + 128) mod 256 - 128).

(** * The array *)

Record ArrayStack T := MkArrayStack { size : Z; top : Z; stack : list T }.
Arguments MkArrayStack {T} _ _ _.
Arguments size {T} _.
Arguments top {T} _.
Arguments stack {T} _.

Section Array.
Context {T : Type}.

(** [raw] is the new array, with whatever it holds. *)
Definition Stack_new (sz : Z) (raw : list T) : res (ArrayStack T) := _ ← ASSERT (sz >=? 1); Ok (MkArrayStack sz 0 raw).

Definition array_Full (s : ArrayStack T) : bool := top s =? size s.
Definition array_Empty (s : ArrayStack T) : bool := top s =? 0.
Definition array_Push (value : T) (s : ArrayStack T) : res (ArrayStack T) :=
  _ ← ASSERT (negb (array_Full s)); st ← aset (stack s) (top s) value; Ok (MkArrayStack (size s) (top s + 1) st).
Definition array_Pop (s : ArrayStack T) : res (T * ArrayStack T) :=
  _ ← ASSERT (negb (array_Empty s)); x ← aget (stack s) (top s - 1); Ok (x, MkArrayStack (size s) (top s - 1) (stack s)).
End Array.

#[export] Instance ArrayStack_stack T : Stack (ArrayStack T) T :=
  {| Push := array_Push; Pop := array_Pop; Full := array_Full; Empty := array_Empty |}.

(** * The list *)

Record List := MkList { first : ptr; last : ptr }.

Definition List_new : List := MkList None None.
Definition List_Empty (l : List) : bool := bool_decide (first l = None).

Definition Prepend (h : heap Z) (l : List) (value : Z) : res (heap Z * List) :=
  let '(element, h) := ListElement_new h value in
  if List_Empty l then Ok (h, MkList (Some element) (Some element))
  else h ← set_next h (Some element) (first l); Ok (h, MkList (Some element) (last l)).

Definition Remove (h : heap Z) (l : List) : res (Z * heap Z * List) :=
  _ ← ASSERT (negb (List_Empty l));
  let element := first l in
  e ← load h element;
  a ← deref element;
  let l := if decide (first l = last l) then MkList None None else MkList (next e) (last l) in
  Ok (item e, delete a h, l).

(** The destructor; [fuel] is more than there are cells. *)
Fixpoint List_delete (fuel : nat) (h : heap Z) (l : List) : res (heap Z) :=
  match fuel with
  | O => OutOfFuel
  | S fuel => if List_Empty l then Ok h else '(_, h, l) ← Remove h l; List_delete fuel h l
  end.

(** ListStack has a pointer to a List; the heap is part of the state. *)
Record ListStack := MkListStack { cells : heap Z; stack_list : List }.

Definition list_Push (value : Z) (s : ListStack) : res ListStack :=
  '(h, l) ← Prepend (cells s) (stack_list s) value; Ok (MkListStack h l).
Definition list_Pop (s : ListStack) : res (Z * ListStack) :=
  _ ← ASSERT (negb (List_Empty (stack_list s))); '(x, h, l) ← Remove (cells s) (stack_list s); Ok (x, MkListStack h l).
Definition list_Full (s : ListStack) : bool := false.
Definition list_Empty (s : ListStack) : bool := List_Empty (stack_list s).

#[export] Instance ListStack_stack : Stack ListStack Z :=
  {| Push := list_Push; Pop := list_Pop; Full := list_Full; Empty := list_Empty |}.

(** * The three [main] programs: what they print *)

Definition stack_main (raw : list Z) : res (list (line Z)) :=
  s ← Stack_new 10 raw; '(out, _) ← fill_SelfTest int_succ 100 17 s; Ok out.

Definition templatestack_main (raw1 raw2 : list Z) : res (list (line Z) * list (line Z)) :=
  s1 ← Stack_new 10 raw1; s2 ← Stack_new 10 raw2;
  '(out1, _) ← fill_SelfTest int_succ 100 17 s1;
  '(out2, _) ← fill_SelfTest char_succ 100 97 s2; Ok (out1, out2).

Definition inheritstack_main (raw : list Z) : res (list (line Z) * list (line Z)) :=
  s1 ← Stack_new 10 raw;
  '(out1, _) ← SelfTest int_succ 100 17 10 s1;
  '(out2, s2) ← SelfTest int_succ 100 17 10 (MkListStack ∅ List_new);
  _ ← List_delete 100 (cells s2) (stack_list s2); Ok (out1, out2).

(** * What a stack promises

    [holds s l]: the items of [s], the one on top first; [capacity] is how many fit. *)
Class StackLaws (St T : Type) `{Stack St T} (capacity : option Z) := {
  holds : St -> list T -> Prop;
  full_law s l : holds s l -> Full s = bool_decide (capacity = Some (Z.of_nat (length l)));
  empty_law s l : holds s l -> Empty s = bool_decide (l = []);
  push_law s l x : holds s l -> Full s = false -> exists s', Push x s = Ok s' /\ holds s' (x :: l);
  push_full s l x : holds s l -> Full s = true -> Push x s = AssertFail;
  pop_law s l x : holds s (x :: l) -> exists s', Pop s = Ok (x, s') /\ holds s' l;
  pop_empty s : holds s [] -> Pop s = AssertFail
}.
Arguments holds {St T _ capacity _} _ _.

Section Laws.
Context {St T : Type} `{HS : Stack St T} (capacity : option Z) {L : StackLaws St T capacity}.
Variable succ : T -> res T.

(** [counts n x xs]: the [n] values of the counter from [x]. *)
Fixpoint counts (n : nat) (x : T) : res (list T) :=
  match n with O => Ok [] | S n => y ← succ x; xs ← counts n y; Ok (x :: xs) end.

Lemma pop_all_ok fuel s l : holds s l -> (length l < fuel)%nat -> exists s', pop_all fuel s = Ok (map Popping l, s') /\ holds s' [].
Proof.
  revert s fuel. induction l as [|x l IH]; intros s fuel Hs Hf; (destruct fuel as [|fuel]; [cbn in Hf; lia|]); cbn [pop_all];
    rewrite (empty_law s _ Hs).
  - rewrite bool_decide_true by done. by exists s.
  - rewrite bool_decide_false by done. destruct (pop_law s l x Hs) as (s1 & E1 & Hs1). rewrite E1. cbn.
    destruct (IH s1 fuel Hs1) as (s2 & E2 & Hs2); [cbn in Hf; lia|]. rewrite E2. cbn. by exists s2.
Qed.

(** There is room for [n] more items. *)
Definition room (l : list T) (n : nat) : Prop := forall c, capacity = Some c -> Z.of_nat (length l) + Z.of_nat n <= c.

Lemma push_all_ok n x s l xs : holds s l -> counts n x = Ok xs -> room l n ->
  exists s', push_all succ n x s = Ok (map Pushing xs, s') /\ holds s' (reverse xs ++ l).
Proof.
  revert x s l xs. induction n as [|n IH]; intros x s l xs Hs Hc Hr; cbn [counts push_all] in *; [simplify_eq; by exists s|].
  assert (Full s = false) as Hf.
  { rewrite (full_law s l Hs). apply bool_decide_false. intros Hcap. specialize (Hr _ Hcap). lia. }
  rewrite Hf. cbn [negb ASSERT mbind res_bind]. destruct (succ x) as [y| | | |]; cbn in *; try done.
  destruct (counts n y) as [ys| | | |] eqn:Ey; cbn in *; try done. simplify_eq.
  destruct (push_law s l x Hs Hf) as (s1 & E1 & Hs1). rewrite E1. cbn.
  destruct (IH y s1 (x :: l) ys Hs1 Ey) as (s2 & E2 & Hs2); [intros c Hc'; specialize (Hr _ Hc'); cbn; lia|].
  exists s2. rewrite E2. split; [done|]. change (holds s2 (reverse (x :: ys) ++ l)). by rewrite reverse_cons, <- app_assoc.
Qed.

Lemma fill_ok fuel x s l n xs c : holds s l -> capacity = Some c -> c = Z.of_nat (length l) + Z.of_nat n ->
  counts n x = Ok xs -> (n < fuel)%nat -> exists s', fill succ fuel x s = Ok (map Pushing xs, s') /\ holds s' (reverse xs ++ l).
Proof.
  intros Hs Hcap. revert fuel x s l xs Hs. induction n as [|n IH]; intros fuel x s l xs Hs Hc Hx Hf;
    (destruct fuel as [|fuel]; [lia|]); cbn [counts fill] in *; rewrite (full_law s l Hs).
  - rewrite bool_decide_true by (rewrite Hcap; f_equal; lia). simplify_eq. by exists s.
  - rewrite bool_decide_false by (rewrite Hcap; intros [= ?]; lia).
    destruct (succ x) as [y| | | |]; cbn in *; try done. destruct (counts n y) as [ys| | | |] eqn:Ey; cbn in *; try done. injection Hx as <-.
    destruct (push_law s l x Hs) as (s1 & E1 & Hs1); [rewrite (full_law s l Hs); apply bool_decide_false; rewrite Hcap; intros [= ?]; lia|].
    rewrite E1. cbn. destruct (IH fuel y s1 (x :: l) ys Hs1) as (s2 & E2 & Hs2); [cbn; lia|done|lia|].
    exists s2. rewrite E2. split; [done|]. change (holds s2 (reverse (x :: ys) ++ l)). by rewrite reverse_cons, <- app_assoc.
Qed.

(** The test of the abstract class, on any stack: with room for the numbers, it shows them
    pushed in order and popped in reverse, then what the stack held before, and leaves the
    stack empty. *)
Theorem SelfTest_shows fuel x n s l xs : holds s l -> counts (Z.to_nat n) x = Ok xs -> room l (Z.to_nat n) ->
  (length xs + length l < fuel)%nat ->
  exists s', SelfTest succ fuel x n s = Ok (map Pushing xs ++ map Popping (reverse xs ++ l), s') /\ holds s' [].
Proof.
  intros Hs Hx Hr Hf. unfold SelfTest. destruct (push_all_ok _ _ _ _ _ Hs Hx Hr) as (s1 & E1 & Hs1). rewrite E1. cbn.
  destruct (pop_all_ok fuel s1 _ Hs1) as (s2 & E2 & Hs2); [rewrite length_app, length_reverse; lia|].
  rewrite E2. cbn. by exists s2.
Qed.

(** The test of stack.cc and templatestack.cc, on an empty stack of [n] places. *)
Theorem fill_SelfTest_shows fuel x n s xs : holds s [] -> capacity = Some (Z.of_nat n) -> counts n x = Ok xs ->
  (length xs < fuel)%nat -> (n < fuel)%nat ->
  exists s', fill_SelfTest succ fuel x s = Ok (map Pushing xs ++ map Popping (reverse xs), s') /\ holds s' [].
Proof.
  intros Hs Hcap Hx Hf Hn. unfold fill_SelfTest.
  destruct (fill_ok fuel x s [] n xs (Z.of_nat n) Hs Hcap) as (s1 & E1 & Hs1); [cbn; lia|done|done|]. rewrite E1. cbn.
  rewrite app_nil_r in Hs1. destruct (pop_all_ok fuel s1 _ Hs1) as (s2 & E2 & Hs2); [rewrite length_reverse; lia|].
  rewrite E2. cbn. by exists s2.
Qed.
End Laws.

(** * The two implementations keep the promise *)

Section ArrayLaws.
Context {T : Type} (n : Z).

Record array_holds (s : ArrayStack T) (l : list T) : Prop := {
  array_size : size s = n /\ Z.of_nat (length (stack s)) = n;
  array_top : top s = Z.of_nat (length l) /\ Z.of_nat (length l) <= n;
  array_items : take (length l) (stack s) = reverse l
}.

Lemma array_full s l : array_holds s l -> array_Full s = bool_decide (Some n = Some (Z.of_nat (length l))).
Proof.
  intros [[Hs _] [Ht _] _]. unfold array_Full. rewrite Hs, Ht.
  destruct (Z.eqb_spec (Z.of_nat (length l)) n); symmetry; [apply bool_decide_true|apply bool_decide_false]; congruence.
Qed.

Lemma array_push s l x : array_holds s l -> array_Full s = false -> exists s', array_Push x s = Ok s' /\ array_holds s' (x :: l).
Proof.
  intros Hh Hf. pose proof (array_full s l Hh) as Hl. rewrite Hf in Hl. symmetry in Hl. apply bool_decide_eq_false in Hl.
  destruct Hh as [[Hs Hn] [Ht Hle] Hi]. assert (Z.of_nat (length l) < n) as Hlt by (destruct (decide (Z.of_nat (length l) = n)); [congruence|lia]).
  unfold array_Push. rewrite Hf. cbn [negb ASSERT mbind res_bind].
  rewrite (aset_in (stack s) (top s) x) by lia. eexists. split; [reflexivity|].
  rewrite Ht, Nat2Z.id. split; cbn [size top stack length].
  - rewrite length_insert. lia.
  - lia.
  - rewrite (take_S_r _ _ x) by (apply list_lookup_insert_eq; lia). rewrite take_insert_ge by lia. by rewrite Hi, reverse_cons.
Qed.

Lemma array_pop s l x : array_holds s (x :: l) -> exists s', array_Pop s = Ok (x, s') /\ array_holds s' l.
Proof.
  intros [[Hs Hn] [Ht Hle] Hi]. unfold array_Pop, array_Empty. cbn [length] in *.
  rewrite (proj2 (Z.eqb_neq _ _)) by lia. cbn [negb ASSERT mbind res_bind].
  assert (stack s !! length l = Some x) as Hx.
  { rewrite <- (lookup_take_lt (stack s) (S (length l))), Hi, reverse_cons by lia. apply list_lookup_middle. by rewrite length_reverse. }
  rewrite (aget_Some (stack s) (top s - 1) x) by (rewrite ?Ht; try lia; rewrite <- Hx; f_equal; lia).
  eexists. split; [reflexivity|]. split; cbn [size top stack]; [done|lia|].
  rewrite reverse_cons, (take_S_r _ _ x) in Hi by done. by apply app_inj_tail in Hi as [-> _].
Qed.

#[export] Instance ArrayStack_laws : StackLaws (ArrayStack T) T (Some n).
Proof.
  refine {| holds := array_holds; full_law := array_full; push_law := fun s l x => array_push s l x; pop_law := array_pop |}.
  - intros s l [_ [Ht _] _]. cbn. unfold array_Empty. rewrite Ht. by destruct l.
  - intros s l x _ Hf. cbn in *. unfold array_Push. by rewrite Hf.
  - intros s [_ [Ht _] _]. cbn. unfold array_Pop, array_Empty. by rewrite Ht.
Defined.

Lemma Stack_new_holds raw : 1 <= n -> Z.of_nat (length raw) = n -> exists s, Stack_new n raw = Ok s /\ holds s [].
Proof.
  intros Hn Hr. unfold Stack_new. rewrite (proj2 (Z.geb_le _ _)) by lia. eexists. split; [reflexivity|].
  split; cbn; [done|lia|done].
Qed.
End ArrayLaws.

Section ListLaws.

(** The cells of the list, in order, and its last one. *)
Record list_holds (s : ListStack) (l : list Z) : Prop := {
  list_cells : exists ls, chain (cells s) (first (stack_list s)) ls l None /\ NoDup ls /\ last (stack_list s) = list.last ls
}.

Lemma list_empty s l : list_holds s l -> List_Empty (stack_list s) = bool_decide (l = []).
Proof.
  intros [(ls & Hc & _ & _)]. unfold List_Empty. destruct ls as [|a ls], l as [|x l]; cbn in Hc; try done.
  - by rewrite Hc.
  - by destruct Hc as [-> _].
Qed.

Lemma list_push s l x : list_holds s l -> exists s', list_Push x s = Ok s' /\ list_holds s' (x :: l).
Proof.
  intros Hh. pose proof (list_empty s l Hh) as He. destruct Hh as [(ls & Hc & Hn & Hl)].
  unfold list_Push, Prepend. cbn. set (a := fresh (dom (cells s))). rewrite He.
  assert (a ∉ ls) as Ha.
  { intros Hin. destruct (chain_dom _ _ _ _ _ _ Hc Hin) as [e E]. apply (is_fresh (dom (cells s))). apply elem_of_dom. by exists e. }
  destruct ls as [|b ls], l as [|y l]; cbn in Hc; try done.
  - eexists. split; [reflexivity|]. split. exists [a]. split_and!; [|by apply NoDup_singleton|done].
    cbn. split; [done|]. exists None. by rewrite lookup_insert_eq.
  - rewrite bool_decide_false by done. rewrite lookup_insert_eq. cbn.
    eexists. split; [reflexivity|]. split. exists (a :: b :: ls). split_and!.
    + split; [done|]. exists (first (stack_list s)). split; [apply lookup_insert_eq|].
      eapply chain_frame; [|exact Hc]. intros c Hin. cbn. rewrite insert_insert_eq. apply lookup_insert_ne. set_solver.
    + by apply NoDup_cons.
    + done.
Qed.

Lemma list_pop s l x : list_holds s (x :: l) -> exists s', list_Pop s = Ok (x, s') /\ list_holds s' l.
Proof.
  intros Hh. pose proof (list_empty s _ Hh) as He. destruct Hh as [(ls & Hc & Hn & Hl)].
  rewrite bool_decide_false in He by done. unfold list_Pop, Remove. rewrite He. cbn [negb ASSERT mbind res_bind].
  destruct ls as [|a ls]; [done|]. destruct Hc as (Hf & n & E & Hc). apply NoDup_cons in Hn as [Ha Hn].
  rewrite Hf, (load_Some _ _ _ E). cbn [mbind res_bind deref]. rewrite Hl.
  assert (forall h', chain (cells s) n ls l None -> (forall c, c ∈ ls -> h' !! c = cells s !! c) -> chain h' n ls l None) as Hframe
    by (intros h' H1 H2; eapply chain_frame; [exact H2|exact H1]).
  destruct ls as [|b ls].
  - destruct l; [|done]. rewrite decide_True by done. eexists. split; [reflexivity|]. split. exists [].
    split_and!; [done|by apply NoDup_nil_2|done].
  - rewrite decide_False.
    + eexists. split; [reflexivity|]. split. exists (b :: ls). split_and!; [|done|done].
      apply (Hframe _ Hc). intros c Hin. cbn. apply lookup_delete_ne. set_solver.
    + intros Heq. apply Ha. rewrite last_cons_cons in Heq. symmetry in Heq. by apply last_Some_elem_of in Heq.
Qed.

#[export] Instance ListStack_laws : StackLaws ListStack Z None.
Proof.
  refine {| holds := list_holds; empty_law := list_empty; push_law := fun s l x H _ => list_push s l x H; pop_law := list_pop |}.
  - intros s l _. by rewrite bool_decide_false.
  - done.
  - intros s Hs. cbn. unfold list_Pop. by rewrite (list_empty s [] Hs).
Defined.

Lemma ListStack_new_holds h : holds (MkListStack h List_new) [].
Proof. split. exists []. split_and!; [done|by apply NoDup_nil_2|done]. Qed.

(** The destructor frees the cells of the list, and ends. *)
Lemma List_delete_ok fuel s l : list_holds s l -> (length l < fuel)%nat ->
  exists h, List_delete fuel (cells s) (stack_list s) = Ok h /\ dom h ⊆ dom (cells s).
Proof.
  revert s l. induction fuel as [|fuel IH]; intros s l Hs Hf; [lia|]. cbn [List_delete]. rewrite (list_empty s l Hs).
  destruct l as [|x l]; [by exists (cells s)|]. rewrite bool_decide_false by done.
  destruct (list_pop s l x Hs) as (s1 & E & Hs1). unfold list_Pop in E. rewrite (list_empty s _ Hs), bool_decide_false in E by done.
  cbn [negb ASSERT mbind res_bind] in E.
  destruct (Remove (cells s) (stack_list s)) as [[[y h] l']| | | |] eqn:ER; cbn in E; try done. injection E as -> <-.
  destruct (IH _ l Hs1) as (h' & EI & Hd); [cbn in Hf; lia|]. exists h'. split; [exact EI|]. etrans; [exact Hd|].
  unfold Remove in ER. rewrite (list_empty s _ Hs), bool_decide_false in ER by done. cbn [negb ASSERT mbind res_bind] in ER.
  destruct (load (cells s) (first (stack_list s))) as [e| | | |]; cbn in ER; try done.
  destruct (first (stack_list s)) as [a|]; cbn in ER; try done. injection ER as _ <- _. cbn. rewrite dom_delete. set_solver.
Qed.
End ListLaws.

(** * The two implementations are one abstract data type

    Any calls, in any order, on a new stack: the answers are those of a list of items with
    the stack's capacity. *)
Inductive op (T : Type) := OPush (x : T) | OPop | OFull | OEmpty.
Arguments OPush {T} _.
Arguments OPop {T}.
Arguments OFull {T}.
Arguments OEmpty {T}.
Inductive out (T : Type) := RUnit | RItem (x : T) | RBool (b : bool).
Arguments RUnit {T}.
Arguments RItem {T} _.
Arguments RBool {T} _.

Definition stack_step {St T} `{Stack St T} (o : op T) (s : St) : res (out T * St) :=
  match o with
  | OPush x => s' ← Push x s; Ok (RUnit, s')
  | OPop => '(x, s') ← Pop s; Ok (RItem x, s')
  | OFull => Ok (RBool (Full s), s)
  | OEmpty => Ok (RBool (Empty s), s)
  end.
Fixpoint stack_run {St T} `{Stack St T} (os : list (op T)) (s : St) : res (list (out T)) :=
  match os with [] => Ok [] | o :: os => '(a, s) ← stack_step o s; l ← stack_run os s; Ok (a :: l) end.

Definition list_step {T} (capacity : option Z) (o : op T) (l : list T) : res (out T * list T) :=
  let full := bool_decide (capacity = Some (Z.of_nat (length l))) in
  match o, l with
  | OPush x, _ => if full then AssertFail else Ok (RUnit, x :: l)
  | OPop, [] => AssertFail
  | OPop, x :: l' => Ok (RItem x, l')
  | OFull, _ => Ok (RBool full, l)
  | OEmpty, _ => Ok (RBool (bool_decide (l = [])), l)
  end.
Fixpoint list_run {T} (capacity : option Z) (os : list (op T)) (l : list T) : res (list (out T)) :=
  match os with [] => Ok [] | o :: os => '(a, l) ← list_step capacity o l; r ← list_run capacity os l; Ok (a :: r) end.

Lemma stack_run_refines {St T} `{HS : Stack St T} capacity {L : StackLaws St T capacity} os (s : St) l : holds s l ->
  stack_run os s = list_run capacity os l.
Proof.
  revert s l. induction os as [|o os IH]; intros s l Hs; [done|]. cbn [stack_run list_run].
  destruct o as [x| | |]; cbn [stack_step list_step].
  - destruct (Full s) eqn:Ef; pose proof (full_law s l Hs) as Hf; rewrite <- Hf, Ef.
    + by rewrite (push_full s l x Hs Ef).
    + destruct (push_law s l x Hs Ef) as (s1 & E & Hs1). rewrite E. cbn. by rewrite (IH _ _ Hs1).
  - destruct l as [|x l]; [by rewrite (pop_empty s Hs)|].
    destruct (pop_law s l x Hs) as (s1 & E & Hs1). rewrite E. cbn. by rewrite (IH _ _ Hs1).
  - cbn. by rewrite (full_law s l Hs), (IH _ _ Hs).
  - cbn. by rewrite (empty_law s l Hs), (IH _ _ Hs).
Qed.

Theorem stacks_refine_lists :
  (forall (T : Type) n (raw : list T) os, 1 <= n -> Z.of_nat (length raw) = n ->
     (s ← Stack_new n raw; stack_run os s) = list_run (Some n) os []) /\
  (forall h os, stack_run os (MkListStack h List_new) = list_run None os []).
Proof.
  split.
  - intros T n raw os Hn Hr. destruct (Stack_new_holds n raw Hn Hr) as (s & -> & Hs). cbn. exact (stack_run_refines (Some n) os s [] Hs).
  - intros h os. exact (stack_run_refines None os _ [] (ListStack_new_holds h)).
Qed.

(** What the programs print: 17 to 26, or a to j, and back. *)
Theorem programs_print raw1 raw2 : length raw1 = 10%nat -> length raw2 = 10%nat ->
  let out a := map Pushing (seqZ a 10) ++ map Popping (reverse (seqZ a 10)) in
  stack_main raw1 = Ok (out 17) /\ templatestack_main raw1 raw2 = Ok (out 17, out 97) /\ inheritstack_main raw1 = Ok (out 17, out 17).
Proof.
  intros H1 H2. destruct (Stack_new_holds 10 raw1) as (s1 & E1 & Hs1); [lia|lia|].
  destruct (Stack_new_holds 10 raw2) as (s2 & E2 & Hs2); [lia|lia|].
  destruct (fill_SelfTest_shows (Some 10) int_succ 100 17 10 s1 (seqZ 17 10) Hs1) as (t1 & F1 & _); [done|by vm_compute|rewrite length_seqZ; lia|lia|].
  destruct (fill_SelfTest_shows (Some 10) char_succ 100 97 10 s2 (seqZ 97 10) Hs2) as (t2 & F2 & _); [done|by vm_compute|rewrite length_seqZ; lia|lia|].
  destruct (SelfTest_shows (Some 10) int_succ 100 17 10 s1 [] (seqZ 17 10) Hs1) as (t3 & F3 & _); [by vm_compute|intros c [= <-]; cbn; lia|rewrite length_seqZ; cbn; lia|].
  destruct (SelfTest_shows None int_succ 100 17 10 (MkListStack ∅ List_new) [] (seqZ 17 10) (ListStack_new_holds ∅)) as (t4 & F4 & H4);
    [by vm_compute|done|rewrite length_seqZ; cbn; lia|].
  destruct (List_delete_ok 100 t4 [] H4) as (h & E4 & _); [cbn; lia|]. rewrite !app_nil_r in *.
  unfold stack_main, templatestack_main, inheritstack_main. rewrite E1, E2. cbn [mbind res_bind]. rewrite F1, F2, F3, F4. cbn [mbind res_bind].
  rewrite E4. split_and!; reflexivity.
Qed.
End Stacks.
