(* ===== verification/LibTest.v ===== *)
(** LibTest: the self tests of the library, src/code/lib/libtest.cc and the SelfTest methods
    of list.cc and hash.cc, with the iterator over lists of list.h.

    The tests are programs made of ASSERTs.  [self_tests_exact] says for which arguments they
    pass, [LibSelfTest_passes] that the ones that the kernel runs do. *)

From S2P Require Import Prelude Bitmap CList Hash Commands.
From stdpp Require Import base numbers list gmap sorting.
#[local] Open Scope Z_scope.

Module LibTest.
Import CList.

(** * ListIterator *)

Section Lists.
Context {T : Type} `{EqDecision T}.
Implicit Types (h : heap T) (l : CList) (xs p : list T).

(** The iterator is its field [current]. *)
Definition ListIterator_new (l : CList) : ptr := first l.
Definition IsDone (current : ptr) : bool := bool_decide (current = None).
Definition Item h (current : ptr) : res T := _ ← ASSERT (negb (IsDone current)); e ← load h current; Ok (item e).
Definition Next h (current : ptr) : res ptr := e ← load h current; Ok (next e).

(** [for (; !iter->IsDone(); iter->Next())]: the items seen. *)
Fixpoint iterate (fuel : nat) h (current : ptr) : res (list T) :=
  match fuel with
  | O => OutOfFuel
  | S fuel => if IsDone current then Ok [] else x ← Item h current; current ← Next h current; xs ← iterate fuel h current; Ok (x :: xs)
  end.

(** * The tests *)

(** The methods of List that are virtual and that SelfTest calls. *)
Record virtual := MkVirtual {
  vAppend : heap T -> CList -> T -> res (heap T * CList);
  vSanityCheck : heap T -> CList -> res unit
}.

(** SortedList overrides both: its Append is Insert. *)
Definition list_methods : virtual := MkVirtual Append SanityCheck.
Definition sorted_methods (compare : T -> T -> Z) : virtual := MkVirtual (Insert compare) (SortedSanityCheck compare).

(** [for (i = 0; i < numEntries; i++)] over the entries [p]. *)
Fixpoint add_entries (add : heap T -> CList -> T -> res (heap T * CList)) (check : CList -> res unit) p h l : res (heap T * CList) :=
  match p with
  | [] => Ok (h, l)
  | x :: p' =>
      '(h, l) ← add h l x; b ← IsInList h l x; _ ← ASSERT b; _ ← check l; add_entries add check p' h l
  end.

Fixpoint remove_entries p h l : res (heap T * CList) :=
  match p with
  | [] => Ok (h, l)
  | x :: p' => '(h, l) ← Remove h l x; b ← IsInList h l x; _ ← ASSERT (negb b); remove_entries p' h l
  end.

Definition List_SelfTest (v : virtual) h l p : res (heap T * CList) :=
  let iterator := ListIterator_new l in
  _ ← vSanityCheck v h l;
  _ ← ASSERT (IsEmpty l && bool_decide (first l = None));
  _ ← ASSERT (IsDone iterator);
  '(h, l) ← add_entries (vAppend v) (fun l => ASSERT (negb (IsEmpty l))) p h l;
  _ ← vSanityCheck v h l;
  '(h, l) ← remove_entries p h l;
  _ ← ASSERT (IsEmpty l);
  _ ← vSanityCheck v h l; Ok (h, l).

(** [q[i] = RemoveFront()], [n] times. *)
Fixpoint take_entries (n : nat) h l : res (list T * heap T * CList) :=
  match n with
  | O => Ok ([], h, l)
  | S n =>
      '(x, h, l) ← RemoveFront h l; b ← IsInList h l x; _ ← ASSERT (negb b);
      '(q, h, l) ← take_entries n h l; Ok (x :: q, h, l)
  end.

Fixpoint in_order (compare : T -> T -> Z) (q : list T) : res unit :=
  match q with
  | x :: (y :: _) as q' => _ ← ASSERT (compare x y <=? 0); in_order compare q'
  | _ => Ok tt
  end.

Definition SortedList_SelfTest (compare : T -> T -> Z) h l p : res (heap T * CList) :=
  let v := sorted_methods compare in
  '(h, l) ← List_SelfTest v h l p;
  '(h, l) ← add_entries (Insert compare) (fun _ => Ok tt) p h l;
  _ ← vSanityCheck v h l;
  '(q, h, l) ← take_entries (length p) h l;
  _ ← ASSERT (IsEmpty l);
  _ ← in_order compare q;
  _ ← vSanityCheck v h l; Ok (h, l).
End Lists.

(** * LibSelfTest *)

Definition IntCompare (x y : Z) : Z := if x <? y then -1 else if x =? y then 0 else 1.
Definition HashInt (key : Z) : Z := u32 key.

Definition listTestVector : list Z := [9; 5; 7].

(** The strings "0" to "14", at the addresses 0 to 14; an item of the table is an address. *)
Definition literal (a : Z) : list Z := if a <? 10 then [48 + a] else [48 + a / 10; 48 + a mod 10].
Definition hashTestVector : list Z := range 0 15.

(** [atoi(str)]; the literals are short, so that atoi is defined on them. *)
Definition HashKey (a : Z) : Z := match Commands.atoi (literal a) with Ok z => z | _ => 0 end.

Definition LibSelfTest : res unit :=
  map ← Bitmap.Bitmap_new 200;
  _ ← Bitmap.SelfTest map;
  '(h, _) ← List_SelfTest list_methods ∅ List_new listTestVector;
  _ ← SortedList_SelfTest IntCompare h List_new listTestVector;
  hashTable ← Hash.SelfTest HashKey HashInt Hash.HashTable_new hashTestVector;
  Hash.HashTable_delete hashTable.

Example literals : map (fun a => Commands.atoi (literal a)) hashTestVector = map Ok hashTestVector.
Proof. reflexivity. Qed.

(** * The iterator *)

Section Facts.
Context {T : Type} `{EqDecision T}.
Implicit Types (h : heap T) (l : CList) (xs p : list T).

Lemma iterate_chain fuel h a (ls : list addr) xs : chain h a ls xs None -> (length ls < fuel)%nat -> iterate fuel h a = Ok xs.
Proof.
  revert a ls xs. induction fuel as [|fuel IH]; intros a [|b ls] [|x xs] Hc Hf; simpl in Hf; try (done || lia).
  - simpl in Hc. by subst.
  - destruct Hc as (-> & n & Hb & Hc). cbn [iterate]. unfold IsDone at 1. rewrite bool_decide_false by done.
    unfold Item, Next. rewrite (load_Some _ _ _ Hb). unfold IsDone. rewrite bool_decide_false by done.
    cbn [negb ASSERT mbind res_bind item next]. by rewrite (IH n ls xs) by (done || lia).
Qed.

(** The iterator shows the items of the list, in order. *)
Theorem iterator_shows_list h l ls xs : rep h l ls xs -> iterate (walk_fuel h) h (ListIterator_new l) = Ok xs.
Proof. intros Hr. apply iterate_chain with ls; [apply Hr|by eapply rep_fuel]. Qed.

(** * The tests of the lists *)

Lemma rep_IsEmpty_cons h l ls x xs : rep h l ls xs -> x ∈ xs -> IsEmpty l = false.
Proof. intros Hr Hx. rewrite (rep_empty _ _ _ _ Hr). apply bool_decide_false. intros ->. by apply not_elem_of_nil in Hx. Qed.

(** What [add_entries] does, for a method that puts an item into a list by [put]. *)
Lemma add_entries_ok (add : heap T -> CList -> T -> res (heap T * CList)) check (ok : list T -> Prop) (free : Prop) p h l ls xs :
  (forall h l ls xs x, rep h l ls xs -> ok xs -> free \/ x ∉ xs ->
     exists h' l' ls' xs', add h l x = Ok (h', l') /\ rep h' l' ls' xs' /\ xs' ≡ₚ xs ++ [x] /\ ok xs') ->
  (forall l, IsEmpty l = false -> check l = Ok tt) ->
  rep h l ls xs -> ok xs -> free \/ NoDup (xs ++ p) ->
  exists h' l' ls' xs', add_entries add check p h l = Ok (h', l') /\ rep h' l' ls' xs' /\ xs' ≡ₚ xs ++ p /\ ok xs'.
Proof.
  intros Hadd Hcheck. revert h l ls xs. induction p as [|x p IH]; intros h l ls xs Hr Hok Hnd.
  { exists h, l, ls, xs. rewrite app_nil_r. done. }
  destruct (Hadd h l ls xs x Hr Hok) as (h1 & l1 & ls1 & xs1 & E & Hr1 & Hp1 & Hok1).
  { destruct Hnd as [?|Hnd]; [by left|right]. intros Hx. apply NoDup_app in Hnd as (_ & Hnd & _). apply (Hnd x Hx). left. }
  cbn [add_entries]. rewrite E. cbn [mbind res_bind].
  assert (x ∈ xs1) as Hx by (rewrite Hp1; set_solver).
  rewrite (IsInList_rep _ _ _ _ _ Hr1), bool_decide_true by done. cbn [mbind res_bind ASSERT].
  rewrite Hcheck by (by eapply rep_IsEmpty_cons). cbn [mbind res_bind].
  destruct (IH h1 l1 ls1 xs1 Hr1 Hok1) as (h2 & l2 & ls2 & xs2 & E2 & Hr2 & Hp2 & Hok2).
  { rewrite Hp1, <- app_assoc. done. }
  exists h2, l2, ls2, xs2. split_and!; try done. by rewrite Hp2, Hp1, <- app_assoc.
Qed.

Lemma remove_entries_exact p h l ls xs : rep h l ls xs -> xs ≡ₚ p ->
  if decide (NoDup p) then exists h' l', remove_entries p h l = Ok (h', l') /\ rep h' l' [] []
  else remove_entries p h l = AssertFail.
Proof.
  revert h l ls xs. induction p as [|x p IH]; intros h l ls xs Hr Hp.
  { rewrite decide_True by constructor. apply Permutation_nil_r in Hp. subst xs.
    destruct ls; [|by destruct Hr]. by exists h, l. }
  pose proof (Remove_rep h l ls xs x Hr) as H. rewrite bool_decide_true in H by (rewrite Hp; left).
  assert (x ∈ xs) as Hx by (rewrite Hp; left).
  assert (remove_first x xs ≡ₚ p) as Hrp.
  { apply (Permutation_cons_inv (a := x)). by rewrite <- remove_first_perm. }
  cbn [remove_entries]. destruct (decide (x ∈ p)) as [Hxp|Hxp].
  - rewrite bool_decide_true in H by (by rewrite Hrp). rewrite H, decide_False; [done|]. intros [? _]%NoDup_cons. done.
  - rewrite bool_decide_false in H by (by rewrite Hrp). destruct H as (h1 & l1 & ls1 & E & Hr1 & _).
    rewrite E. cbn [mbind res_bind]. rewrite (IsInList_rep _ _ _ _ _ Hr1), bool_decide_false by (by rewrite Hrp).
    cbn [mbind res_bind negb ASSERT]. specialize (IH h1 l1 ls1 _ Hr1 Hrp).
    destruct (decide (NoDup p)) as [Hn|Hn].
    + rewrite decide_True by (by constructor). done.
    + rewrite decide_False; [done|]. intros [_ ?]%NoDup_cons. done.
Qed.

Lemma Append_entry h l ls xs x : rep h l ls xs -> True -> True \/ x ∉ xs ->
  exists h' l' ls' xs', Append h l x = Ok (h', l') /\ rep h' l' ls' xs' /\ xs' ≡ₚ xs ++ [x] /\ True.
Proof. intros Hr _ _. destruct (Append_rep h l ls xs x Hr) as (h' & l' & a & E & Hr' & _). by exists h', l', (ls ++ [a]), (xs ++ [x]). Qed.

(** List<T>::SelfTest on an empty list, for either table of virtual methods. *)
Lemma SelfTest_exact v (ok : list T -> Prop) (free : Prop) h l ls p :
  (forall h l ls xs x, rep h l ls xs -> ok xs -> free \/ x ∉ xs ->
     exists h' l' ls' xs', vAppend v h l x = Ok (h', l') /\ rep h' l' ls' xs' /\ xs' ≡ₚ xs ++ [x] /\ ok xs') ->
  (forall h l ls xs, rep h l ls xs -> ok xs -> vSanityCheck v h l = Ok tt) -> ok [] ->
  rep h l ls [] -> free \/ NoDup p ->
  if decide (NoDup p) then exists h' l', List_SelfTest v h l p = Ok (h', l') /\ rep h' l' [] []
  else List_SelfTest v h l p = AssertFail.
Proof.
  intros Hadd Hsane Hok Hr Hp. unfold List_SelfTest. rewrite (Hsane h l ls [] Hr Hok). cbn [mbind res_bind].
  assert (first l = None) as Hf by (destruct Hr as [Hc _ _ _]; by destruct ls).
  rewrite (rep_empty _ _ _ _ Hr). unfold ListIterator_new, IsDone. rewrite Hf, !bool_decide_true by done. cbn [andb ASSERT mbind res_bind].
  destruct (add_entries_ok (vAppend v) (fun l => ASSERT (negb (IsEmpty l))) ok free p h l ls [] Hadd) as (h1 & l1 & ls1 & xs1 & -> & Hr1 & Hp1 & Hok1);
    [by intros ? -> |done..|].
  cbn [mbind res_bind]. rewrite (Hsane _ _ _ _ Hr1 Hok1). cbn [mbind res_bind].
  pose proof (remove_entries_exact p h1 l1 ls1 xs1 Hr1 Hp1) as Hrm. case_decide; [|by rewrite Hrm].
  destruct Hrm as (h2 & l2 & -> & Hr2). cbn [mbind res_bind]. rewrite (rep_empty _ _ _ _ Hr2), bool_decide_true by done.
  cbn [ASSERT mbind res_bind]. rewrite (Hsane _ _ _ _ Hr2 Hok). cbn [mbind res_bind]. eauto.
Qed.

Lemma List_SelfTest_exact h l ls p : rep h l ls [] ->
  if decide (NoDup p) then exists h' l', List_SelfTest list_methods h l p = Ok (h', l') /\ rep h' l' [] []
  else List_SelfTest list_methods h l p = AssertFail.
Proof.
  intros Hr. apply SelfTest_exact with (ok := fun _ => True) (free := True) (ls := ls); try done; [apply Append_entry| |by left].
  intros. by eapply SanityCheck_rep.
Qed.

Section Sorted.
Context (compare : T -> T -> Z) (key : T -> Z) {HK : KeyCompare compare key}.

Lemma Insert_entry h l ls xs x : rep h l ls xs -> sorted key xs -> False \/ x ∉ xs ->
  exists h' l' ls' xs', Insert compare h l x = Ok (h', l') /\ rep h' l' ls' xs' /\ xs' ≡ₚ xs ++ [x] /\ sorted key xs'.
Proof.
  intros Hr Hs [[]|Hx]. destruct (Insert_rep compare h l ls xs x Hr Hx) as (h' & l' & ls' & a & E & Hr' & _).
  exists h', l', ls', (insert_sorted compare x xs). split_and!; [done..| |by eapply insert_sorted_sorted].
  by rewrite insert_sorted_perm, Permutation_app_comm.
Qed.

(** Inserting an item twice fails. *)
Lemma add_entries_dup check p h l ls xs : (forall l, IsEmpty l = false -> check l = Ok tt) ->
  rep h l ls xs -> sorted key xs -> NoDup xs -> ~ NoDup (xs ++ p) -> add_entries (Insert compare) check p h l = AssertFail.
Proof.
  intros Hcheck. revert h l ls xs. induction p as [|x p IH]; intros h l ls xs Hr Hs Hx Hnd; [by rewrite app_nil_r in Hnd|].
  cbn [add_entries]. destruct (decide (x ∈ xs)) as [Hxx|Hxx]; [by rewrite (Insert_dup compare h l ls xs x Hr Hxx)|].
  destruct (Insert_entry h l ls xs x Hr Hs (or_intror Hxx)) as (h1 & l1 & ls1 & xs1 & -> & Hr1 & Hp1 & Hs1).
  cbn [mbind res_bind]. assert (x ∈ xs1) as Hx1 by (rewrite Hp1; set_solver).
  rewrite (IsInList_rep _ _ _ _ _ Hr1), bool_decide_true by done. cbn [mbind res_bind ASSERT].
  rewrite Hcheck by (by eapply rep_IsEmpty_cons). cbn [mbind res_bind]. apply (IH h1 l1 ls1 xs1 Hr1 Hs1).
  - rewrite Hp1. apply NoDup_app. split_and!; [done|set_solver|apply NoDup_singleton].
  - rewrite Hp1, <- app_assoc. done.
Qed.

Lemma take_entries_ok h l ls xs : rep h l ls xs -> NoDup xs ->
  exists h' l', take_entries (length xs) h l = Ok (xs, h', l') /\ rep h' l' [] [].
Proof.
  revert h l ls. induction xs as [|x xs IH]; intros h l ls Hr Hnd.
  { destruct ls; [|by destruct Hr]. by exists h, l. }
  apply NoDup_cons in Hnd as [Hx Hnd].
  destruct (RemoveFront_rep h l ls x xs Hr) as (h1 & l1 & a & ls1 & E & -> & Hr1 & _).
  cbn [length take_entries]. rewrite E. cbn [mbind res_bind].
  rewrite (IsInList_rep _ _ _ _ _ Hr1), bool_decide_false by done. cbn [mbind res_bind negb ASSERT].
  destruct (IH h1 l1 ls1 Hr1 Hnd) as (h2 & l2 & -> & Hr2). cbn [mbind res_bind]. eauto.
Qed.

Lemma in_order_sorted q : sorted key q -> in_order compare q = Ok tt.
Proof.
  induction 1 as [|x q Hs IH Hf]; [done|]. destruct q as [|y q]; [done|]. cbn [in_order] in *.
  rewrite ASSERT_true; [done|]. apply Z.leb_le, (compare_le x y). by inversion Hf.
Qed.

Lemma SortedList_SelfTest_exact h l ls p : rep h l ls [] ->
  if decide (NoDup p) then exists h' l', SortedList_SelfTest compare h l p = Ok (h', l') /\ rep h' l' [] []
  else SortedList_SelfTest compare h l p = AssertFail.
Proof.
  intros Hr. assert (sorted key []) as Hs0 by constructor. unfold SortedList_SelfTest. destruct (decide (NoDup p)) as [Hnd|Hnd].
  - pose proof (SelfTest_exact (sorted_methods compare) (sorted key) False h l ls p) as H1.
    rewrite decide_True in H1 by done. destruct H1 as (h1 & l1 & -> & Hr1); [apply Insert_entry| |done..|by right|].
    { intros. by eapply SortedSanityCheck_rep. }
    cbn [mbind res_bind].
    destruct (add_entries_ok (Insert compare) (fun _ => Ok tt) (sorted key) False p h1 l1 [] []) as (h2 & l2 & ls2 & q & -> & Hr2 & Hp2 & Hs2);
      [apply Insert_entry|done..|by right|].
    cbn [mbind res_bind vSanityCheck sorted_methods]. rewrite (SortedSanityCheck_rep compare key _ _ _ _ Hr2 Hs2). cbn [mbind res_bind].
    destruct (take_entries_ok h2 l2 ls2 q Hr2) as (h3 & l3 & E3 & Hr3); [by rewrite Hp2|].
    cbn [app] in Hp2. rewrite <- (Permutation_length Hp2), E3. cbn [mbind res_bind].
    rewrite (rep_empty _ _ _ _ Hr3), bool_decide_true by done. cbn [ASSERT mbind res_bind].
    rewrite in_order_sorted by done. cbn [mbind res_bind]. rewrite (SortedSanityCheck_rep compare key _ _ _ _ Hr3 Hs0). eauto.
  - unfold List_SelfTest. cbn [vSanityCheck vAppend sorted_methods]. rewrite (SortedSanityCheck_rep compare key _ _ _ _ Hr Hs0). cbn [mbind res_bind].
    assert (first l = None) as Hf by (destruct Hr as [Hc _ _ _]; by destruct ls).
    rewrite (rep_empty _ _ _ _ Hr). unfold ListIterator_new, IsDone. rewrite Hf, !bool_decide_true by done. cbn [andb ASSERT mbind res_bind].
    rewrite (add_entries_dup _ p h l ls []); [done|by intros ? ->|done..|constructor|done].
Qed.
End Sorted.
End Facts.

(** * The test of the hash table *)

Section Table.
Context {Key T : Type} `{Countable Key} `{EqDecision T} (getKey : T -> Key) (hash : Key -> Z).
#[local] Notation wf := (Hash.wf getKey hash).
#[local] Notation represents := (Hash.represents getKey).

(** The bodies of the two loops of Hash.SelfTest. *)
Definition insert_entry (r : res (@Hash.HashTable T)) (x : T) : res Hash.HashTable :=
  h ← r; h ← Hash.Insert getKey hash h x; there ← Hash.IsInTable getKey hash h (getKey x); _ ← ASSERT there; _ ← ASSERT (negb (Hash.IsEmpty h)); Ok h.
Definition remove_entry (r : res (@Hash.HashTable T)) (x : T) : res Hash.HashTable :=
  h ← r; '(y, h) ← Hash.Remove getKey hash h (getKey x); _ ← ASSERT (bool_decide (y = x)); Ok h.

Lemma insert_entries_fail p : foldl insert_entry AssertFail p = AssertFail.
Proof. by induction p. Qed.

Lemma insert_entries p h m : wf h -> represents h m -> Z.of_nat (size m) + Z.of_nat (length p) < 2 ^ 31 ->
  (NoDup (getKey <$> p) /\ (forall x, x ∈ p -> m !! getKey x = None) /\
   exists h' m', foldl insert_entry (Ok h) p = Ok h' /\ wf h' /\ represents h' m' /\
     (forall x, x ∈ p -> m' !! getKey x = Some x) /\ (forall k, k ∉ getKey <$> p -> m' !! k = m !! k) /\ size m' = (size m + length p)%nat) \/
  (~ (NoDup (getKey <$> p) /\ forall x, x ∈ p -> m !! getKey x = None) /\ foldl insert_entry (Ok h) p = AssertFail).
Proof.
  revert h m. induction p as [|x p IH]; intros h m Hw Hr Hsz.
  { left. split; [constructor|]. split; [by intros ? ?%not_elem_of_nil|]. exists h, m. split_and!; try done; try (by intros ? ?%not_elem_of_nil); cbn; lia. }
  cbn [foldl fmap list_fmap length] in *. unfold insert_entry at 2 4. cbn [mbind res_bind].
  pose proof (Hash.Insert_spec getKey hash h m x Hw Hr) as Hi. destruct (m !! getKey x) as [y|] eqn:Em.
  { right. rewrite Hi. split; [|apply insert_entries_fail]. intros [_ Hm]. rewrite Hm in Em by left. done. }
  rewrite decide_True in Hi by lia. destruct Hi as (h1 & -> & Hw1 & Hr1). cbn [mbind res_bind].
  rewrite (Hash.IsInTable_represents getKey hash h1 _ _ Hw1 Hr1), lookup_insert_eq, bool_decide_eq_true_2 by eauto. cbn [mbind res_bind ASSERT].
  assert (size (<[getKey x := x]> m) = S (size m)) as Hs by (by apply map_size_insert_None).
  unfold Hash.IsEmpty. rewrite (Hash.represents_count getKey hash _ _ Hw1 Hr1), Hs, (proj2 (Z.eqb_neq _ 0)) by lia. cbn [negb ASSERT mbind res_bind].
  destruct (IH h1 _ Hw1 Hr1) as [(Hnd & Hm & h2 & m2 & -> & Hw2 & Hr2 & Hin & Hout & Hs2)|[Hbad ->]]; [lia| |].
  - assert (getKey x ∉ getKey <$> p) as Hx.
    { intros (y & Ey & Hy)%list_elem_of_fmap. specialize (Hm y Hy). rewrite <- Ey, lookup_insert_eq in Hm. done. }
    left. split; [by constructor|]. split.
    { intros y [->|Hy]%elem_of_cons; [done|]. rewrite <- (Hm y Hy), lookup_insert_ne; [done|].
      intros Ek. apply Hx. rewrite Ek. by apply list_elem_of_fmap_2. }
    exists h2, m2. split_and!; try done; [| |lia].
    + intros y [->|Hy]%elem_of_cons; [|by apply Hin]. rewrite Hout by done. apply lookup_insert_eq.
    + intros k [Hk Hkp]%not_elem_of_cons. rewrite Hout by done. by apply lookup_insert_ne.
  - right. split; [|done]. intros [[Hx Hnd]%NoDup_cons Hm]. apply Hbad. split; [done|]. intros y Hy.
    rewrite lookup_insert_ne; [apply Hm; by right|]. intros Ek. apply Hx. rewrite Ek. by apply list_elem_of_fmap_2.
Qed.

Lemma remove_entries_ok p h m : wf h -> represents h m -> NoDup (getKey <$> p) -> (forall x, x ∈ p -> m !! getKey x = Some x) ->
  exists h' m', foldl remove_entry (Ok h) p = Ok h' /\ wf h' /\ represents h' m' /\ (size m' + length p)%nat = size m.
Proof.
  revert h m. induction p as [|x p IH]; intros h m Hw Hr Hnd Hm; [exists h, m; cbn; split_and!; [done..|lia]|].
  cbn [foldl fmap list_fmap length] in *. apply NoDup_cons in Hnd as [Hx Hnd]. unfold remove_entry at 2. cbn [mbind res_bind].
  pose proof (Hash.Remove_spec getKey hash h m (getKey x) Hw Hr) as Hi. rewrite Hm in Hi by left. destruct Hi as (h1 & -> & Hw1 & Hr1).
  cbn [mbind res_bind]. rewrite bool_decide_true by done. cbn [ASSERT mbind res_bind].
  destruct (IH h1 _ Hw1 Hr1 Hnd) as (h2 & m2 & -> & Hw2 & Hr2 & Hs).
  { intros y Hy. rewrite lookup_delete_ne; [apply Hm; by right|]. intros Ek. apply Hx. rewrite Ek. by apply list_elem_of_fmap_2. }
  exists h2, m2. split_and!; try done. assert (size m = S (size (delete (getKey x) m))) as ->; [|lia].
  rewrite map_size_delete_Some by (rewrite Hm by left; eauto).
  assert (size m <> 0%nat); [|lia]. intros E%map_size_empty_inv. specialize (Hm x ltac:(left)). rewrite E in Hm. done.
Qed.

(** HashTable::SelfTest on a new table. *)
Lemma Hash_SelfTest_exact p : Z.of_nat (length p) < 2 ^ 31 ->
  if decide (NoDup (getKey <$> p)) then exists h, Hash.SelfTest getKey hash Hash.HashTable_new p = Ok h /\ Hash.HashTable_delete h = Ok tt
  else Hash.SelfTest getKey hash Hash.HashTable_new p = AssertFail.
Proof.
  intros Hsz. destruct (Hash.HashTable_new_wf getKey hash) as [Hw Hr]. unfold Hash.SelfTest.
  rewrite (Hash.SanityCheck_wf getKey hash) by done.
  change (Hash.HashIterator_new Hash.HashTable_new) with (Ok (Hash.MkIterator (T := T) 4 None)). cbn [mbind res_bind].
  change (Hash.IsEmpty Hash.HashTable_new) with true. change (Hash.IsDone Hash.HashTable_new _) with true. cbn [ASSERT mbind res_bind].
  change (foldl _ (Ok Hash.HashTable_new) p) with (foldl insert_entry (Ok Hash.HashTable_new) p).
  destruct (insert_entries p _ _ Hw Hr) as [(Hnd & _ & h1 & m1 & -> & Hw1 & Hr1 & Hin & _ & Hs)|[Hbad ->]]; [rewrite map_size_empty; lia| |].
  - rewrite decide_True by done. cbn [mbind res_bind]. change (foldl _ (Ok h1) p) with (foldl remove_entry (Ok h1) p).
    destruct (remove_entries_ok p h1 m1 Hw1 Hr1 Hnd Hin) as (h2 & m2 & -> & Hw2 & Hr2 & Hs2). cbn [mbind res_bind].
    rewrite map_size_empty in Hs.
    assert (Hash.IsEmpty h2 = true) as He.
    { unfold Hash.IsEmpty. rewrite (Hash.represents_count getKey hash _ _ Hw2 Hr2). apply Z.eqb_eq. lia. }
    rewrite He. cbn [ASSERT mbind res_bind]. rewrite (Hash.SanityCheck_wf getKey hash) by done. cbn [mbind res_bind].
    exists h2. split; [done|]. unfold Hash.HashTable_delete. by rewrite He.
  - rewrite decide_False; [done|]. intros Hnd. apply Hbad. split; [done|]. intros. apply lookup_empty.
Qed.
End Table.

(** * Properties *)

(** C37. The self tests test what they say.  Run on a new list, sorted list or hash table with
    any vector of entries, they pass (every ASSERT holds, the loops end, and the list or the
    table is empty again) exactly when no entry, or key of an entry, occurs twice in the
    vector; otherwise an ASSERT fails.  The sorted list's test calls the test of List with its
    own Append and SanityCheck, because these are virtual. *)
Theorem self_tests_exact {Key T : Type} `{Countable Key} `{EqDecision T} (compare : T -> T -> Z) (order : T -> Z)
    {HK : KeyCompare compare order} (getKey : T -> Key) (hash : Key -> Z) (h : heap T) (p : list T) :
  Z.of_nat (length p) < 2 ^ 31 ->
  (if decide (NoDup p) then exists h' l', List_SelfTest list_methods h List_new p = Ok (h', l') /\ rep h' l' [] []
   else List_SelfTest list_methods h List_new p = AssertFail) /\
  (if decide (NoDup p) then exists h' l', SortedList_SelfTest compare h List_new p = Ok (h', l') /\ rep h' l' [] []
   else SortedList_SelfTest compare h List_new p = AssertFail) /\
  (if decide (NoDup (getKey <$> p)) then exists t, Hash.SelfTest getKey hash Hash.HashTable_new p = Ok t /\ Hash.HashTable_delete t = Ok tt
   else Hash.SelfTest getKey hash Hash.HashTable_new p = AssertFail).
Proof.
  intros Hp. split_and!; [eapply List_SelfTest_exact, List_new_rep|eapply SortedList_SelfTest_exact, List_new_rep; exact HK|by apply Hash_SelfTest_exact].
Qed.

#[export] Instance IntCompare_key : KeyCompare IntCompare (fun x => x).
Proof.
  split; intros x y; unfold IntCompare; destruct (Z.ltb_spec x y); [lia| |lia|]; destruct (Z.eqb_spec x y); lia.
Qed.

(** The tests that the kernel runs pass. *)
Theorem LibSelfTest_passes : LibSelfTest = Ok tt.
Proof. vm_compute. reflexivity. Qed.

(** Three distinct numbers pass; a number that comes twice does not. *)
Example self_tests_exact_witness :
  (exists h l, List_SelfTest list_methods (∅ : heap Z) List_new [9; 5; 7] = Ok (h, l)) /\
  SortedList_SelfTest IntCompare (∅ : heap Z) List_new [9; 5; 9] = AssertFail.
Proof.
  split.
  - destruct (self_tests_exact IntCompare (fun x => x) (fun x : Z => x) (fun x => x) (∅ : heap Z) [9; 5; 7]) as (H1 & _ & _); [reflexivity|].
    destruct (decide (NoDup [9; 5; 7])) as [Hn|Hn]; [|exfalso; apply Hn; by_compute].
    destruct H1 as (h & l & E & _). exists h, l. exact E.
  - destruct (self_tests_exact IntCompare (fun x => x) (fun x : Z => x) (fun x => x) (∅ : heap Z) [9; 5; 9]) as (_ & H2 & _); [reflexivity|].
    destruct (decide (NoDup [9; 5; 9])) as [Hn|Hn]; [exfalso|exact H2]. assert (~ NoDup [9; 5; 9]) as Hc by by_compute. exact (Hc Hn).
Defined.
End LibTest.
