(* ===== verification/Device.v ===== *)
(** Device: waiting for the interrupt of a device (Interrupt.v), as the code that drives the
    console (Console.v) and the network (Network.v) does with [waitFor->P()].

    A device schedules its next interrupt on the list of pending ones; a caller that waits for
    it gets it delivered: it comes off the list and the device's CallBack runs.  (What the
    clock does meanwhile, and which other devices are called, is CheckIfDue's and Idle's part,
    in Interrupt.v.) *)

From S2P Require Import Prelude CList Mips Machine Interrupt.
From stdpp Require Import base numbers list.
#[local] Open Scope Z_scope.

Module Device.
Import Interrupt.

Fixpoint take_pending (device : Z) (l : list PendingInterrupt) : option (list PendingInterrupt) :=
  match l with
  | [] => None
  | d :: l' => if callOnInterrupt d =? device then Some l' else l'' ← take_pending device l'; Some (d :: l'')
  end.

Section Deliver.
Context {R : Type}.
#[local] Notation W := (World R).
Implicit Types (w : W).

(** The device's pending interrupt comes off the list and its handler runs; [false] when the
    device has none. *)
Definition deliver (device : Z) (handler : M W unit) : M W bool :=
  w ← get_state;
  match take_pending device (pendings w) with
  | None => mret false
  | Some l => _ ← modify (on_interrupt (with_pending l)); _ ← handler; mret true
  end.

(** The number of interrupts that a device has pending. *)
Definition due (device : Z) (l : list PendingInterrupt) : nat := length (filter (fun d => callOnInterrupt d = device) l).

Lemma take_pending_due device l :
  match take_pending device l with
  | None => due device l = 0%nat
  | Some l' => due device l = S (due device l') /\ forall other, other <> device -> due other l' = due other l
  end.
Proof.
  unfold due. induction l as [|d l IH]; [done|]. cbn [take_pending]. rewrite !filter_cons. destruct (Z.eqb_spec (callOnInterrupt d) device) as [E|E].
  - rewrite decide_True by done. split; [done|]. intros other Hne. rewrite filter_cons, decide_False by congruence. done.
  - rewrite decide_False by done. destruct (take_pending device l) as [l'|]; cbn [mbind option_bind]; [|done].
    destruct IH as [H1 H2]. rewrite filter_cons, decide_False by done. split; [done|]. intros other Hne. rewrite !filter_cons. specialize (H2 other Hne).
    destruct (decide (callOnInterrupt d = other)); cbn [length]; by rewrite H2.
Qed.

Lemma due_scheduled device d l : due device (CList.insert_sorted PendingCompare d l) = (due device l + if decide (callOnInterrupt d = device) then 1 else 0)%nat.
Proof.
  unfold due. rewrite (CList.insert_sorted_perm PendingCompare d l), filter_cons. case_decide; cbn; lia.
Qed.

Lemma Schedule_reads device n t w : 0 < n <= 1000 -> clock_ok w -> exists w', Schedule device n t w = Ok (tt, w') /\ rest w' = rest w /\ stats w' = stats w /\
  pendings w' = CList.insert_sorted PendingCompare (MkPending device (now w + n) t) (pendings w).
Proof.
  intros Hn Hc. destruct (Schedule_handled device n t w) as [(w' & E & _ & Hp & _)|[[_ H]|[_ H]]]; [|lia|unfold clock_ok, is_i32 in *; lia].
  exists w'. split; [done|]. revert E. unfold Schedule, get_state, modify, int_add. unfold mbind, M_bind. case_decide; [|done].
  cbn [lift ASSERT]. destruct (0 <? n); cbn; [|done]. intros [= <-]. done.
Qed.

Lemma deliver_none device h w : due device (pendings w) = 0%nat -> deliver device h w = Ok (false, w).
Proof.
  intros Hd. unfold deliver. rewrite (bind_M_Ok get_state _ w w w) by done. pose proof (take_pending_due device (pendings w)) as Ht.
  destruct (take_pending device (pendings w)); [destruct Ht; congruence|done].
Qed.

Lemma deliver_one device h w (f : list PendingInterrupt -> W) : due device (pendings w) = 1%nat ->
  (forall l, due device l = 0%nat -> (forall other, other <> device -> due other l = due other (pendings w)) -> h (on_interrupt (with_pending l) w) = Ok (tt, f l)) ->
  exists l, due device l = 0%nat /\ (forall other, other <> device -> due other l = due other (pendings w)) /\ deliver device h w = Ok (true, f l).
Proof.
  intros Hd Hh. unfold deliver. rewrite (bind_M_Ok get_state _ w w w) by done. pose proof (take_pending_due device (pendings w)) as Ht.
  destruct (take_pending device (pendings w)) as [l|]; [|congruence]. destruct Ht as [H1 H2]. exists l. split; [lia|]. split; [done|].
  rewrite (bind_M_Ok _ _ w _ tt eq_refl). by rewrite (bind_M_Ok _ _ _ _ tt (Hh l ltac:(lia) H2)).
Qed.

Lemma deliver_runs device h w (P : W -> Prop) : due device (pendings w) = 1%nat ->
  (forall l, due device l = 0%nat -> (forall other, other <> device -> due other l = due other (pendings w)) ->
    exists w', h (on_interrupt (with_pending l) w) = Ok (tt, w') /\ P w') ->
  exists w', deliver device h w = Ok (true, w') /\ P w'.
Proof.
  intros Hd Hh. unfold deliver. rewrite (bind_M_Ok get_state _ w w w) by done. pose proof (take_pending_due device (pendings w)) as Ht.
  destruct (take_pending device (pendings w)) as [l|]; [|congruence]. destruct Ht as [H1 H2]. destruct (Hh l ltac:(lia) H2) as (w' & E & HP).
  exists w'. split; [|done]. rewrite (bind_M_Ok _ _ w _ tt eq_refl). by rewrite (bind_M_Ok _ _ _ _ _ E).
Qed.

(** Scheduling a device that has no interrupt pending. *)
Lemma Schedule_due device n t w : 0 < n <= 1000 -> clock_ok w -> due device (pendings w) = 0%nat ->
  exists w', Schedule device n t w = Ok (tt, w') /\ rest w' = rest w /\ stats w' = stats w /\
    due device (pendings w') = 1%nat /\ forall other, other <> device -> due other (pendings w') = due other (pendings w).
Proof.
  intros Hn Hc Hd. destruct (Schedule_reads device n t w Hn Hc) as (w' & E & E1 & E2 & E3). exists w'. do 3 (split; [done|]). split.
  - by rewrite E3, due_scheduled, decide_True, Hd by done.
  - intros other Hne. rewrite E3, due_scheduled. cbn [callOnInterrupt]. rewrite decide_False by congruence. lia.
Qed.

End Deliver.
End Device.
