(* ===== verification/Console.v ===== *)
(** Console: the keyboard and the display, src/code/machine/console.cc and console.h, and
    synchronized access to them, src/code/userprog/synchconsole.cc and synchconsole.h, over
    the interrupts of Interrupt.v.

    What the UNIX file behind the keyboard answers to each poll is an input ([poll]).  A call
    of GetChar or PutChar is one critical section: the calling thread holds the lock from
    entry to return and waits in [waitFor->P()] until the device's interrupt has called
    CallBack; while it waits, the device's pending interrupt is delivered. *)

From S2P Require Import Prelude CList Mips Machine Interrupt Device.
From stdpp Require Import base numbers list.
#[local] Open Scope Z_scope.

Module Console.
Import Interrupt Device.

(** [EOF] of the C library. *)
Definition EOF : Z := -1.
(** A byte as a [char], which is signed. *)
Definition to_char (b : Z) : Z := if b <? 128 then b else b - 256.

(** PollFile found nothing, or the end of the file, or there is a byte to read. *)
Inductive poll := PNone | PEnd | PByte (b : Z).

Record ConsoleInput := MkInput { incoming : Z }.
Record ConsoleOutput := MkOutput { putBusy : bool; written : list Z }.

(** The two semaphores [waitFor] by their values. *)
Record Console := MkConsole { consoleInput : ConsoleInput; inReady : Z; consoleOutput : ConsoleOutput; outReady : Z }.

#[local] Notation W := (World Console).
Implicit Types (w : W).

Section Ops.
(** The addresses of the two devices. *)
Variables keyboard screen : Z.

Definition set_input (i : ConsoleInput) : M W unit := modify (on_rest (fun c => MkConsole i (inReady c) (consoleOutput c) (outReady c))).
Definition set_inReady (v : Z) : M W unit := modify (on_rest (fun c => MkConsole (consoleInput c) v (consoleOutput c) (outReady c))).
Definition set_output (o : ConsoleOutput) : M W unit := modify (on_rest (fun c => MkConsole (consoleInput c) (inReady c) o (outReady c))).
Definition set_outReady (v : Z) : M W unit := modify (on_rest (fun c => MkConsole (consoleInput c) (inReady c) (consoleOutput c) v)).

Definition count_char (read : bool) (s : Statistics) : Statistics :=
  MkStats (totalTicks s) (idleTicks s) (systemTicks s) (userTicks s) (numDiskReads s) (numDiskWrites s)
    (numConsoleCharsRead s + if read then 1 else 0) (numConsoleCharsWritten s + if read then 0 else 1)
    (numPageFaults s) (numPacketsSent s) (numPacketsRecvd s).

(** ** The keyboard *)

(** ConsoleInput::ConsoleInput *)
Definition ConsoleInput_new : M W unit := _ ← set_input (MkInput EOF); Schedule keyboard ConsoleTime ConsoleReadInt.

(** SynchConsoleInput::CallBack *)
Definition SynchConsoleInput_CallBack : M W unit := w ← get_state; set_inReady (inReady (rest w) + 1).

Definition ConsoleInput_CallBack (p : poll) : M W unit :=
  w ← get_state;
  _ ← lift (ASSERT (incoming (consoleInput (rest w)) =? EOF));
  match p with
  | PNone => Schedule keyboard ConsoleTime ConsoleReadInt
  | PEnd => SynchConsoleInput_CallBack
  | PByte b => _ ← set_input (MkInput (to_char b)); _ ← modify (on_stats (count_char true)); SynchConsoleInput_CallBack
  end.

Definition ConsoleInput_GetChar : M W Z :=
  w ← get_state;
  let ch := incoming (consoleInput (rest w)) in
  _ ← (if ch =? EOF then mret tt else Schedule keyboard ConsoleTime ConsoleReadInt);
  _ ← set_input (MkInput EOF); mret ch.

(** ** The display *)

Definition ConsoleOutput_new : ConsoleOutput := MkOutput false [].

(** SynchConsoleInput::SynchConsoleInput and SynchConsoleOutput::SynchConsoleOutput *)
Definition SynchConsoleInput_new : M W unit := _ ← ConsoleInput_new; set_inReady 0.
Definition SynchConsoleOutput_new : M W unit := _ ← set_output ConsoleOutput_new; set_outReady 0.

Definition ConsoleOutput_PutChar (ch : Z) : M W unit :=
  w ← get_state;
  let o := consoleOutput (rest w) in
  _ ← lift (ASSERT (negb (putBusy o)));
  _ ← set_output (MkOutput true (written o ++ [ch]));
  Schedule screen ConsoleTime ConsoleWriteInt.

(** SynchConsoleOutput::CallBack *)
Definition SynchConsoleOutput_CallBack : M W unit := w ← get_state; set_outReady (outReady (rest w) + 1).

Definition ConsoleOutput_CallBack : M W unit :=
  w ← get_state;
  _ ← set_output (MkOutput false (written (consoleOutput (rest w))));
  _ ← modify (on_stats (count_char false)); SynchConsoleOutput_CallBack.

(** ** Waiting for a device *)

(** [waitFor->P()] of the reader: [false] when it waits for ever, or for longer than the
    polls given. *)
Fixpoint wait_for_input (polls : list poll) : M W (bool * list poll) :=
  w ← get_state;
  if inReady (rest w) =? 0 then
    match polls with
    | [] => mret (false, [])
    | p :: polls' => b ← deliver keyboard (ConsoleInput_CallBack p); if (b : bool) then wait_for_input polls' else mret (false, polls)
    end
  else _ ← set_inReady (inReady (rest w) - 1); mret (true, polls).

Definition SynchConsoleInput_GetChar (polls : list poll) : M W (option Z * list poll) :=
  '(b, polls) ← wait_for_input polls;
  if (b : bool) then ch ← ConsoleInput_GetChar; mret (Some ch, polls) else mret (None, polls).

(** [waitFor->P()] of the writer. *)
Definition wait_for_output : M W bool :=
  w ← get_state;
  b ← (if outReady (rest w) =? 0 then deliver screen ConsoleOutput_CallBack else mret true);
  w ← get_state;
  if outReady (rest w) =? 0 then mret false else _ ← set_outReady (outReady (rest w) - 1); mret b.

Definition SynchConsoleOutput_PutChar (ch : Z) : M W bool := _ ← ConsoleOutput_PutChar ch; wait_for_output.

(** Kernel::ConsoleTest; [false] when a call in it waits for ever. *)
Fixpoint ConsoleTest (fuel : nat) (polls : list poll) : M W bool :=
  match fuel with
  | O => lift OutOfFuel
  | S fuel =>
      '(c, polls) ← SynchConsoleInput_GetChar polls;
      match c with
      | None => mret false
      | Some ch =>
          if ch =? EOF then mret true
          else b ← SynchConsoleOutput_PutChar ch; if (b : bool) then ConsoleTest fuel polls else mret false
      end
  end.

(** * What the keyboard delivers *)

(** The characters typed, up to the end of the file or a byte that is [EOF] as a char. *)
Fixpoint typed (polls : list poll) : list Z :=
  match polls with
  | [] => []
  | PNone :: polls' => typed polls'
  | PEnd :: _ => [EOF]
  | PByte b :: polls' => if to_char b =? EOF then [EOF] else to_char b :: typed polls'
  end.

Hypothesis devices_differ : keyboard <> screen.

(** The display has shown [out]: nothing is being written. *)
Record idle_screen (out : list Z) (count : Z) w : Prop := {
  is_output : consoleOutput (rest w) = MkOutput false out;
  is_ready : outReady (rest w) = 0;
  is_due : due screen (pendings w) = 0%nat;
  is_count : numConsoleCharsWritten (stats w) = count;
  is_clock : clock_ok w
}.

(** The keyboard between two calls of GetChar: nobody has been told of a character, none is
    buffered, and an interrupt is pending, or none any more. *)
Record reading (alive : bool) w : Prop := {
  rd_ready : inReady (rest w) = 0;
  rd_incoming : incoming (consoleInput (rest w)) = EOF;
  rd_due : due keyboard (pendings w) = if alive then 1%nat else 0%nat
}.

(** The keyboard has handed over [c]: the reader has been told, and none is on its way. *)
Record given (c : Z) w : Prop := {
  gv_ready : inReady (rest w) = 0;
  gv_incoming : incoming (consoleInput (rest w)) = c;
  gv_due : due keyboard (pendings w) = 0%nat
}.

Lemma wait_told polls w : inReady (rest w) = 1 -> wait_for_input polls w = Ok ((true, polls), on_rest (fun c => MkConsole (consoleInput c) 0 (consoleOutput c) (outReady c)) w).
Proof. intros Hr. destruct polls; cbn [wait_for_input]; rewrite (bind_M_Ok get_state _ w w w) by done; rewrite Hr; done. Qed.

(** CallBack past its ASSERT. *)
Lemma input_callback p w : incoming (consoleInput (rest w)) = EOF ->
  ConsoleInput_CallBack p w = match p with
  | PNone => Schedule keyboard ConsoleTime ConsoleReadInt w
  | PEnd => Ok (tt, on_rest (fun c => MkConsole (consoleInput c) (inReady (rest w) + 1) (consoleOutput c) (outReady c)) w)
  | PByte b => Ok (tt, on_rest (fun c => MkConsole (MkInput (to_char b)) (inReady (rest w) + 1) (consoleOutput c) (outReady c)) (on_stats (count_char true) w))
  end.
Proof.
  intros Hi. unfold ConsoleInput_CallBack. rewrite (bind_M_Ok get_state _ _ _ _ eq_refl), Hi. cbn [Z.eqb EOF Pos.eqb ASSERT].
  rewrite bind_lift_Ok. by destruct p.
Qed.

Lemma output_callback w : ConsoleOutput_CallBack w = Ok (tt, on_rest (fun c => MkConsole (consoleInput c) (inReady c)
  (MkOutput false (written (consoleOutput (rest w)))) (outReady (rest w) + 1)) (on_stats (count_char false) w)).
Proof. done. Qed.

(** Nothing typed yet: the device polls again later. *)
Lemma deliver_nothing out k w : reading true w -> idle_screen out k w ->
  exists w1, deliver keyboard (ConsoleInput_CallBack PNone) w = Ok (true, w1) /\ reading true w1 /\ idle_screen out k w1.
Proof.
  intros [R1 R2 R3] [S1 S2 S3 S4 S5]. apply deliver_runs; [done|]. intros l Hl Ho. rewrite input_callback by done.
  destruct (Schedule_due keyboard ConsoleTime ConsoleReadInt (on_interrupt (with_pending l) w)) as (w1 & E1 & E2 & E3 & E4 & E5); [unfold ConsoleTime; lia|done|done|].
  exists w1. split; [done|]. split; constructor; rewrite ?E2, ?E3, ?E5 by done; try done.
  - change (pendings (on_interrupt (with_pending l) w)) with l. by rewrite Ho.
  - unfold clock_ok, now in *. by rewrite E3.
Qed.

(** GetChar's wait, by what is typed. *)
Lemma wait_alive polls out k w : reading true w -> idle_screen out k w ->
  match typed polls with
  | [] => exists w', wait_for_input polls w = Ok ((false, []), w') /\ idle_screen out k w'
  | c :: cs => exists polls' w', wait_for_input polls w = Ok ((true, polls'), w') /\ given c w' /\ idle_screen out k w' /\
      if c =? EOF then cs = [] else typed polls' = cs
  end.
Proof.
  revert w. induction polls as [|p polls IH]; intros w Hr Hs.
  - exists w. split; [|done]. cbn [wait_for_input]. rewrite (bind_M_Ok get_state _ w w w) by done. by rewrite (rd_ready _ _ Hr).
  - cbn [wait_for_input]. rewrite (bind_M_Ok get_state _ w w w) by done. pose proof Hr as [R1 R2 R3]. pose proof Hs as [S1 S2 S3 S4 S5].
    rewrite R1. cbn [Z.eqb].
    destruct p as [| |b]; cbn [typed].
    + destruct (deliver_nothing out k w Hr Hs) as (w1 & E & Hr1 & Hs1). rewrite (bind_M_Ok _ _ _ _ _ E). by apply IH.
    + destruct (deliver_one keyboard (ConsoleInput_CallBack PEnd) w (fun l => on_rest (fun c => MkConsole (consoleInput c) (inReady (rest w) + 1) (consoleOutput c) (outReady c)) (on_interrupt (with_pending l) w)))
        as (l & Hl & Ho & E); [done|intros l _ _; by rewrite input_callback|].
      rewrite (bind_M_Ok _ _ _ _ _ E). rewrite wait_told by (cbn; lia). eexists _, _. split; [reflexivity|]. split; [by constructor|].
      split; [|done]. constructor; try done. change (due screen l = 0%nat). by rewrite Ho.
    + destruct (deliver_one keyboard (ConsoleInput_CallBack (PByte b)) w (fun l => on_rest (fun c => MkConsole (MkInput (to_char b)) (inReady (rest w) + 1) (consoleOutput c) (outReady c))
        (on_stats (count_char true) (on_interrupt (with_pending l) w)))) as (l & Hl & Ho & E); [done|intros l _ _; by rewrite input_callback|].
      rewrite (bind_M_Ok _ _ _ _ _ E). rewrite wait_told by (cbn; lia).
      assert (idle_screen out k (on_rest (fun c => MkConsole (consoleInput c) 0 (consoleOutput c) (outReady c)) (on_rest (fun c => MkConsole (MkInput (to_char b)) (inReady (rest w) + 1) (consoleOutput c) (outReady c))
        (on_stats (count_char true) (on_interrupt (with_pending l) w))))) as Hs1.
      { constructor; try done; [change (due screen l = 0%nat); by rewrite Ho|]. cbn. lia. }
      destruct (to_char b =? EOF) eqn:Hb.
      * apply Z.eqb_eq in Hb. eexists _, _. split; [reflexivity|]. split; [by constructor|done].
      * eexists _, _. split; [reflexivity|]. split; [by constructor|]. by rewrite Hb.
Qed.

Lemma GetChar_given c out k w : given c w -> idle_screen out k w ->
  exists w', ConsoleInput_GetChar w = Ok (c, w') /\ reading (negb (c =? EOF)) w' /\ idle_screen out k w'.
Proof.
  intros [G1 G2 G3] [S1 S2 S3 S4 S5]. unfold ConsoleInput_GetChar. rewrite (bind_M_Ok get_state _ _ _ _ eq_refl). cbv zeta. rewrite G2. destruct (c =? EOF) eqn:Hc.
  - eexists. split; [reflexivity|]. split; by constructor.
  - destruct (Schedule_due keyboard ConsoleTime ConsoleReadInt w) as (w1 & E & E1 & E2 & E3 & E4); [unfold ConsoleTime; lia|done|done|].
    rewrite (bind_M_Ok _ _ _ _ _ E). eexists. split; [reflexivity|]. split; constructor; try done; cbn; rewrite ?E1, ?E2; try done.
    + change (due screen (pendings w1) = 0%nat). by rewrite E4.
    + unfold clock_ok, now in *. cbn. by rewrite E2.
Qed.

(** A character is written, the interrupt of the display delivered, the writer told. *)
Lemma PutChar_writes alive ch out k w : reading alive w -> idle_screen out k w ->
  exists w', SynchConsoleOutput_PutChar ch w = Ok (true, w') /\ reading alive w' /\ idle_screen (out ++ [ch]) (k + 1) w'.
Proof.
  intros [R1 R2 R3] [S1 S2 S3 S4 S5]. unfold SynchConsoleOutput_PutChar.
  destruct (Schedule_due screen ConsoleTime ConsoleWriteInt (on_rest (fun c => MkConsole (consoleInput c) (inReady c) (MkOutput true (out ++ [ch])) (outReady c)) w))
    as (w1 & E & E1 & E2 & E3 & E4); [unfold ConsoleTime; lia|done|done|].
  assert (ConsoleOutput_PutChar ch w = Ok (tt, w1)) as EP.
  { unfold ConsoleOutput_PutChar. rewrite (bind_M_Ok get_state _ _ _ _ eq_refl), S1. cbn [putBusy negb ASSERT]. rewrite bind_lift_Ok. by rewrite (bind_M_Ok _ _ w _ tt eq_refl). }
  rewrite (bind_M_Ok _ _ _ _ _ EP). unfold wait_for_output. rewrite (bind_M_Ok get_state _ _ _ _ eq_refl), E1. cbn [on_rest rest outReady]. rewrite S2. cbn [Z.eqb].
  destruct (deliver_one screen ConsoleOutput_CallBack w1 (fun l => on_rest (fun c => MkConsole (consoleInput c) (inReady c) (MkOutput false (out ++ [ch])) 1)
    (on_stats (count_char false) (on_interrupt (with_pending l) w1)))) as (l & Hl & Ho & ED); [done| |].
  { intros l _ _. rewrite output_callback. unfold on_rest, on_stats. cbn. rewrite E1. cbn. by rewrite S2. }
  rewrite (bind_M_Ok _ _ _ _ _ ED). eexists. split; [reflexivity|].
  split; constructor; try done; cbn; rewrite ?E1, ?E2; cbn; try done.
  - change (due keyboard l = if alive then 1%nat else 0%nat). rewrite Ho, E4 by congruence. done.
  - lia.
  - unfold clock_ok, now in *. cbn. rewrite E2. done.
Qed.

Lemma ConsoleTest_run fuel polls out k w : reading true w -> idle_screen out k w -> (length (typed polls) < fuel)%nat ->
  exists w', ConsoleTest fuel polls w = Ok (bool_decide (EOF ∈ typed polls), w') /\
    idle_screen (out ++ filter (fun c => c <> EOF) (typed polls)) (k + Z.of_nat (length (filter (fun c => c <> EOF) (typed polls)))) w'.
Proof.
  revert polls out k w. induction fuel as [|fuel IH]; intros polls out k w Hr Hs Hf; [lia|]. cbn [ConsoleTest].
  pose proof (wait_alive polls out k w Hr Hs) as Hw. unfold SynchConsoleInput_GetChar. destruct (typed polls) as [|c cs].
  - destruct Hw as (w1 & E & Hs1). exists w1. erewrite bind_M_Ok; [|by rewrite (bind_M_Ok _ _ _ _ _ E)].
    rewrite bool_decide_false by apply not_elem_of_nil. split; [done|]. cbn. by rewrite app_nil_r, Z.add_0_r.
  - destruct Hw as (polls1 & w1 & E & Hg & Hs1 & Hcs). destruct (GetChar_given c out k w1 Hg Hs1) as (w2 & E1 & Hr2 & Hs2).
    erewrite bind_M_Ok; [|rewrite (bind_M_Ok _ _ _ _ _ E); by rewrite (bind_M_Ok _ _ _ _ _ E1)]. cbn beta iota. rewrite filter_cons.
    destruct (Z.eqb_spec c EOF) as [->|Hne].
    + subst cs. exists w2. rewrite bool_decide_true by apply list_elem_of_here. rewrite decide_False by tauto. split; [done|]. cbn. by rewrite app_nil_r, Z.add_0_r.
    + destruct (PutChar_writes true c out k w2 Hr2 Hs2) as (w3 & E3 & Hr3 & Hs3). rewrite (bind_M_Ok _ _ _ _ _ E3). subst cs. cbn [length] in Hf.
      destruct (IH polls1 _ _ w3 Hr3 Hs3 ltac:(lia)) as (w4 & E4 & Hs4). exists w4. rewrite E4. rewrite decide_True by done. split.
      * do 2 f_equal. apply bool_decide_ext. rewrite elem_of_cons; naive_solver.
      * rewrite <- app_assoc in Hs4. cbn in *. replace (k + _) with (k + 1 + Z.of_nat (length (filter (fun c => c <> EOF) (typed polls1)))) by lia. done.
Qed.

Lemma typed_length polls : (length (typed polls) <= length polls)%nat.
Proof. induction polls as [|[| |b] polls IH]; cbn; try lia. case_match; cbn; lia. Qed.

End Ops.

(** A machine with its keyboard at address 1 and its display at address 2. *)
Definition console_world : W := MkWorld Interrupt_new Statistics_new (MkConsole (MkInput 0) 0 (MkOutput true []) 0).

End Console.
