(* ===== verification/Network.v ===== *)
(** Network: the simulated network interface, src/code/machine/network.cc and network.h, and
    the post office over it, src/code/network/post.cc and post.h.

    The UNIX sockets are a queue of datagrams that have arrived for this machine and the
    sequence of those it has sent.  Whether the random number drops a packet, and what an
    allocation leaves in the wire buffer before it is filled, are inputs.  A buffer is the
    list of its bytes; one that is only read where it has been written is the bytes written.
    A call that waits answers [None] or [false] when what it waits for is not there: the
    postal worker and the readers of a box are other threads (ThreadSafety.v has their
    semaphores, locks and conditions). *)

From S2P Require Import Prelude CList Mips Machine Interrupt Device.
From stdpp Require Import base numbers list.
#[local] Open Scope Z_scope.

Module Network.
Import Interrupt Device.

Definition MaxWireSize : Z := 64.

(** The two headers are three 32-bit words each. *)
Record PacketHeader := MkPacketHeader { pktTo : Z; pktFrom : Z; pktLength : Z }.
Record MailHeader := MkMailHeader { mailTo : Z; mailFrom : Z; mailLength : Z }.
Definition HeaderSize : Z := 12.
Definition MaxPacketSize : Z := MaxWireSize - HeaderSize.
Definition MaxMailSize : Z := MaxPacketSize - HeaderSize.

(** The bytes of a header in memory, and [*(PacketHeader * )buffer], [*(MailHeader * )buffer]. *)
Definition packet_bytes (h : PacketHeader) : list Z := ints_to_bytes [pktTo h; pktFrom h; pktLength h].
Definition mail_bytes (h : MailHeader) : list Z := ints_to_bytes [mailTo h; mailFrom h; mailLength h].
Definition packet_at (buffer : list Z) : res PacketHeader :=
  match bytes_to_words (take 12 buffer) with
  | [t; f; n] => Ok (MkPacketHeader (i32 t) (i32 f) n)
  | _ => Undefined
  end.
Definition mail_at (buffer : list Z) : res MailHeader :=
  match bytes_to_words (take 12 buffer) with
  | [t; f; n] => Ok (MkMailHeader (i32 t) (i32 f) n)
  | _ => Undefined
  end.

(** [bcopy]: the bytes of the destination after [n] of the source are copied over its start. *)
Definition bcopy (src : list Z) (n : Z) (dst : list Z) : res (list Z) :=
  if (n <=? Z.of_nat (length src)) && (n <=? Z.of_nat (length dst)) then Ok (take (Z.to_nat n) src ++ drop (Z.to_nat n) dst) else Undefined.
(** The bytes that [bcopy] writes into a fresh buffer of [size] bytes. *)
Definition bcopy_fresh (src : list Z) (n size : Z) : res (list Z) :=
  if (n <=? Z.of_nat (length src)) && (n <=? size) then Ok (take (Z.to_nat n) src) else Undefined.

Record Mail := MkMail { pktHdr : PacketHeader; mailHdr : MailHeader; data : list Z }.

(** NetworkInput, PostOfficeInput with the buffer of its postal worker, NetworkOutput and
    PostOfficeOutput of one machine, and its sockets. *)
Record Net := MkNet {
  inHdr : PacketHeader; inbox : list Z;
  messageAvailable : Z; buffer : list Z; boxes : list (list Mail);
  sendBusy : bool; messageSent : Z;
  socket : list (list Z); sent : list (Z * list Z)
}.

Definition with_in (h : PacketHeader) (b : list Z) (q : list (list Z)) (n : Net) : Net :=
  MkNet h b (messageAvailable n) (buffer n) (boxes n) (sendBusy n) (messageSent n) q (sent n).
Definition with_available (v : Z) (n : Net) : Net :=
  MkNet (inHdr n) (inbox n) v (buffer n) (boxes n) (sendBusy n) (messageSent n) (socket n) (sent n).
Definition with_worker (b : list Z) (n : Net) : Net :=
  MkNet (inHdr n) (inbox n) (messageAvailable n) b (boxes n) (sendBusy n) (messageSent n) (socket n) (sent n).
Definition with_boxes (bs : list (list Mail)) (n : Net) : Net :=
  MkNet (inHdr n) (inbox n) (messageAvailable n) (buffer n) bs (sendBusy n) (messageSent n) (socket n) (sent n).
Definition with_out (busy : bool) (v : Z) (out : list (Z * list Z)) (n : Net) : Net :=
  MkNet (inHdr n) (inbox n) (messageAvailable n) (buffer n) (boxes n) busy v (socket n) out.

Definition count_packet (received : bool) (s : Statistics) : Statistics :=
  MkStats (totalTicks s) (idleTicks s) (systemTicks s) (userTicks s) (numDiskReads s) (numDiskWrites s)
    (numConsoleCharsRead s) (numConsoleCharsWritten s) (numPageFaults s)
    (numPacketsSent s + if received then 0 else 1) (numPacketsRecvd s + if received then 1 else 0).

#[local] Notation W := (World Net).
Implicit Types (w : W).

Section Machine.
(** This machine's name and the addresses of its two network devices. *)
Variables hostName networkIn networkOut : Z.

Definition net : M W Net := w ← get_state; mret (rest w).
Definition update (f : Net -> Net) : M W unit := modify (on_rest f).

(** ** Receiving *)

(** NetworkInput::NetworkInput sets only the length of [inHdr]. *)
Definition NetworkInput_new : M W unit :=
  n ← net;
  _ ← update (with_in (MkPacketHeader (pktTo (inHdr n)) (pktFrom (inHdr n)) 0) (inbox n) (socket n));
  Schedule networkIn NetworkTime NetworkRecvInt.

(** PostOfficeInput::CallBack *)
Definition PostOfficeInput_CallBack : M W unit := n ← net; update (with_available (messageAvailable n + 1)).

Definition NetworkInput_CallBack : M W unit :=
  _ ← Schedule networkIn NetworkTime NetworkRecvInt;
  n ← net;
  if negb (pktLength (inHdr n) =? 0) then mret tt
  else match socket n with
  | [] => mret tt
  | packet :: q =>
      _ ← lift (ASSERT (MaxWireSize <=? Z.of_nat (length packet)));
      h ← lift (packet_at packet);
      _ ← lift (ASSERT ((pktTo h =? hostName) && (pktLength h <=? MaxPacketSize)));
      b ← lift (bcopy (drop 12 (take (Z.to_nat MaxWireSize) packet)) (pktLength h) (inbox n));
      _ ← update (with_in h b q);
      _ ← modify (on_stats (count_packet true));
      PostOfficeInput_CallBack
  end.

Definition NetworkInput_Receive (dst : list Z) : M W (PacketHeader * list Z) :=
  n ← net;
  let hdr := inHdr n in
  _ ← update (with_in (MkPacketHeader (pktTo hdr) (pktFrom hdr) 0) (inbox n) (socket n));
  if negb (pktLength hdr =? 0) then b ← lift (bcopy (inbox n) (pktLength hdr) dst); mret (hdr, b) else mret (hdr, dst).

Definition Mail_new (pktH : PacketHeader) (mailH : MailHeader) (msgData : list Z) : res Mail :=
  _ ← ASSERT (mailLength mailH <=? MaxMailSize);
  d ← bcopy_fresh msgData (mailLength mailH) MaxMailSize; Ok (MkMail pktH mailH d).

(** [messages->Append] and [messages->RemoveFront] of a mail box, inside their lock. *)
Definition messages_Append {A} (l : list A) (x : A) : list A := l ++ [x].
Definition messages_RemoveFront {A} (l : list A) : option (A * list A) := match l with [] => None | x :: l' => Some (x, l') end.

Definition MailBox_Put (box : Z) (pktH : PacketHeader) (mailH : MailHeader) (d : list Z) : M W unit :=
  mail ← lift (Mail_new pktH mailH d);
  n ← net; l ← lift (aget (boxes n) box);
  bs ← lift (aset (boxes n) box (messages_Append l mail)); update (with_boxes bs).

Definition MailBox_Get (box : Z) (dst : list Z) : M W (option (PacketHeader * MailHeader * list Z)) :=
  n ← net; l ← lift (aget (boxes n) box);
  match messages_RemoveFront l with
  | None => mret None
  | Some (mail, l') =>
      bs ← lift (aset (boxes n) box l'); _ ← update (with_boxes bs);
      d ← lift (bcopy (data mail) (mailLength (mailHdr mail)) dst); mret (Some (pktHdr mail, mailHdr mail, d))
  end.

(** One round of the postal worker; [false] when no message has arrived. *)
Definition PostalDelivery : M W bool :=
  n ← net;
  if messageAvailable n =? 0 then mret false
  else
    _ ← update (with_available (messageAvailable n - 1));
    '(pktH, b) ← NetworkInput_Receive (buffer n);
    _ ← update (with_worker b);
    mailH ← lift (mail_at b);
    _ ← lift (ASSERT ((0 <=? mailTo mailH) && (mailTo mailH <? Z.of_nat (length (boxes n)))));
    _ ← lift (ASSERT (mailLength mailH <=? MaxMailSize));
    _ ← MailBox_Put (mailTo mailH) pktH mailH (drop 12 b); mret true.

(** PostOfficeInput::Receive; [None] when the box is empty. *)
Definition Receive (box : Z) (dst : list Z) : M W (option (PacketHeader * MailHeader * list Z)) :=
  n ← net;
  _ ← lift (ASSERT ((0 <=? box) && (box <? Z.of_nat (length (boxes n)))));
  r ← MailBox_Get box dst;
  match r with
  | None => mret None
  | Some (p, m, d) => _ ← lift (ASSERT (mailLength m <=? MaxMailSize)); mret (Some (p, m, d))
  end.

(** ** Sending *)

Definition NetworkOutput_new : M W unit := n ← net; update (with_out false (messageSent n) (sent n)).

(** PostOfficeOutput::CallBack *)
Definition PostOfficeOutput_CallBack : M W unit := n ← net; update (with_out (sendBusy n) (messageSent n + 1) (sent n)).

Definition NetworkOutput_CallBack : M W unit :=
  n ← net; _ ← update (with_out false (messageSent n) (sent n));
  _ ← modify (on_stats (count_packet false)); PostOfficeOutput_CallBack.

Definition NetworkOutput_Send (lost : bool) (junk : list Z) (hdr : PacketHeader) (d : list Z) : M W unit :=
  n ← net;
  _ ← lift (ASSERT (negb (sendBusy n) && (0 <? pktLength hdr) && (pktLength hdr <=? MaxPacketSize) && (pktFrom hdr =? hostName)));
  _ ← Schedule networkOut NetworkTime NetworkSendInt;
  if lost then mret tt
  else
    b ← lift (bcopy (packet_bytes hdr) HeaderSize junk);
    tl ← lift (bcopy d (pktLength hdr) (drop 12 b));
    update (with_out (sendBusy n) (messageSent n) (sent n ++ [(pktTo hdr, take 12 b ++ tl)])).

(** PostOfficeOutput::Send, to the end of its wait for the interrupt of the network. *)
Definition Send (lost : bool) (junk : list Z) (pktH : PacketHeader) (mailH : MailHeader) (d : list Z) : M W bool :=
  _ ← lift (ASSERT (mailLength mailH <=? MaxMailSize));
  _ ← lift (ASSERT (0 <=? mailTo mailH));
  let pktH := MkPacketHeader (pktTo pktH) hostName (u32 (mailLength mailH + HeaderSize)) in
  body ← lift (bcopy_fresh d (mailLength mailH) MaxMailSize);
  _ ← NetworkOutput_Send lost junk pktH (mail_bytes mailH ++ body);
  n ← net;
  b ← (if messageSent n =? 0 then deliver networkOut NetworkOutput_CallBack else mret true);
  n ← net;
  if messageSent n =? 0 then mret false else _ ← update (with_out (sendBusy n) (messageSent n - 1) (sent n)); mret b.

(** ** Traffic between machines *)

(** A call of Send: its inputs and its arguments. *)
Record letter := MkLetter { lost : bool; junk : list Z; address : PacketHeader; header : MailHeader; text : list Z }.

Fixpoint Sends (ls : list letter) : M W bool :=
  match ls with
  | [] => mret true
  | l :: ls' => b ← Send (lost l) (junk l) (address l) (header l) (text l); if (b : bool) then Sends ls' else mret false
  end.

(** [n] interrupts of the network interface, the postal worker running after each. *)
Fixpoint Deliveries (n : nat) : M W bool :=
  match n with
  | O => mret true
  | S n => b ← deliver networkIn NetworkInput_CallBack; if (b : bool) then _ ← PostalDelivery; Deliveries n else mret false
  end.

(** [n] calls of Receive on one box. *)
Fixpoint Receives (n : nat) (box : Z) (dst : list Z) : M W (list (option (PacketHeader * MailHeader * list Z))) :=
  match n with
  | O => mret []
  | S n => r ← Receive box dst; rs ← Receives n box dst; mret (r :: rs)
  end.
End Machine.

(** * Headers and buffers *)

Lemma header_words a b c rest : take 12 (ints_to_bytes [a; b; c] ++ rest) = ints_to_bytes [a; b; c].
Proof. rewrite take_app_length'; [done|by rewrite ints_to_bytes_length]. Qed.

Lemma packet_at_bytes h rest : is_i32 (pktTo h) -> is_i32 (pktFrom h) -> is_u32 (pktLength h) -> packet_at (packet_bytes h ++ rest) = Ok h.
Proof.
  intros Ht Hf Hl. unfold packet_at, packet_bytes. rewrite header_words, bytes_to_words_ints. cbn [map].
  rewrite !i32_u32, !i32_id, u32_id by done. by destruct h.
Qed.

Lemma mail_at_bytes h rest : is_i32 (mailTo h) -> is_i32 (mailFrom h) -> is_u32 (mailLength h) -> mail_at (mail_bytes h ++ rest) = Ok h.
Proof.
  intros Ht Hf Hl. unfold mail_at, mail_bytes. rewrite header_words, bytes_to_words_ints. cbn [map].
  rewrite !i32_u32, !i32_id, u32_id by done. by destruct h.
Qed.

Lemma packet_bytes_length h : length (packet_bytes h) = 12%nat.
Proof. apply ints_to_bytes_length. Qed.
Lemma mail_bytes_length h : length (mail_bytes h) = 12%nat.
Proof. apply ints_to_bytes_length. Qed.

Lemma bcopy_exact src n dst : n = Z.of_nat (length src) -> (length src <= length dst)%nat -> bcopy src n dst = Ok (src ++ drop (length src) dst).
Proof.
  intros -> Hd. unfold bcopy. rewrite (proj2 (andb_true_iff _ _)) by (split; lia). rewrite Nat2Z.id, firstn_all. done.
Qed.

Lemma bcopy_front src tail n dst : n = Z.of_nat (length src) -> (length src <= length dst)%nat -> bcopy (src ++ tail) n dst = Ok (src ++ drop (length src) dst).
Proof.
  intros -> Hd. unfold bcopy. assert (length src <= length (src ++ tail))%nat by (rewrite length_app; lia).
  rewrite (proj2 (andb_true_iff _ _)) by (split; lia). rewrite Nat2Z.id, take_app_length. done.
Qed.

Lemma bcopy_fresh_front src tl n size : n = Z.of_nat (length src) -> n <= size -> bcopy_fresh (src ++ tl) n size = Ok src.
Proof.
  intros -> Hs. unfold bcopy_fresh. assert (length src <= length (src ++ tl))%nat by (rewrite length_app; lia).
  rewrite (proj2 (andb_true_iff _ _)) by (split; lia). by rewrite Nat2Z.id, take_app_length.
Qed.

(** * A letter from one machine to another *)

Section Post.
Variables A B nBoxes : Z.
Hypothesis hosts_words : is_i32 A /\ is_i32 B.
Variables networkIn networkOut : Z.

(** A letter that Send takes: to a mail box of machine [B], of at most MaxMailSize bytes. *)
Record letter_ok (l : letter) : Prop := {
  lo_to : pktTo (address l) = B;
  lo_box : 0 <= mailTo (header l) < nBoxes;
  lo_from : is_i32 (mailFrom (header l));
  lo_length : 0 <= mailLength (header l) <= MaxMailSize;
  lo_text : mailLength (header l) <= Z.of_nat (length (text l));
  lo_junk : Z.of_nat (length (junk l)) = MaxWireSize
}.
Hypothesis boxes_words : nBoxes <= 2 ^ 31.

Definition letter_packet (l : letter) : PacketHeader := MkPacketHeader B A (mailLength (header l) + HeaderSize).
Definition letter_data (l : letter) : list Z := take (Z.to_nat (mailLength (header l))) (text l).
Definition letter_body (l : letter) : list Z := mail_bytes (header l) ++ letter_data l.
Definition letter_mail (l : letter) : Mail := MkMail (letter_packet l) (header l) (letter_data l).
(** What goes over the wire: the packet, padded with what was in the buffer. *)
Definition letter_wire (l : letter) : list Z := packet_bytes (letter_packet l) ++ letter_body l ++ drop (length (letter_body l)) (drop 12 (junk l)).

Lemma letter_data_length l : letter_ok l -> Z.of_nat (length (letter_data l)) = mailLength (header l).
Proof. intros []. unfold letter_data. rewrite length_take. lia. Qed.

Lemma letter_body_length l : letter_ok l -> Z.of_nat (length (letter_body l)) = pktLength (letter_packet l).
Proof. intros H. unfold letter_body. rewrite length_app, mail_bytes_length. pose proof (letter_data_length l H). cbn. unfold HeaderSize. lia. Qed.

Lemma letter_wire_length l : letter_ok l -> length (letter_wire l) = 64%nat.
Proof.
  intros H. unfold letter_wire. rewrite !length_app, !length_drop, packet_bytes_length. pose proof (letter_body_length l H) as Hb. 
  destruct H as [_ _ _ H4 _ H6]. unfold letter_packet in Hb. cbn [pktLength] in Hb. unfold MaxMailSize, MaxPacketSize, HeaderSize, MaxWireSize in *. lia.
Qed.

Lemma letter_packet_ok l : letter_ok l -> is_u32 (pktLength (letter_packet l)) /\ 0 < pktLength (letter_packet l) <= MaxPacketSize.
Proof. intros []. unfold is_u32, letter_packet, MaxMailSize, MaxPacketSize, HeaderSize, MaxWireSize in *. cbn. lia. Qed.

(** ** Sending *)

Record sender_idle w : Prop := {
  sn_busy : sendBusy (rest w) = false;
  sn_sent : messageSent (rest w) = 0;
  sn_due : due networkOut (pendings w) = 0%nat;
  sn_clock : clock_ok w
}.

Lemma NetworkOutput_Send_ok l w : letter_ok l -> sender_idle w ->
  exists w', NetworkOutput_Send A networkOut (lost l) (junk l) (letter_packet l) (letter_body l) w = Ok (tt, w') /\
    rest w' = with_out false 0 (sent (rest w) ++ if lost l then [] else [(B, letter_wire l)]) (rest w) /\
    stats w' = stats w /\ due networkOut (pendings w') = 1%nat.
Proof.
  intros Hl [S1 S2 S3 S4]. unfold NetworkOutput_Send, net. rewrite (bind_M_Ok _ _ w w (rest w)) by done. rewrite S1.
  pose proof (letter_packet_ok l Hl) as [_ Hp]. rewrite ASSERT_true by (rewrite !andb_true_iff; cbn in *; repeat split; lia). rewrite bind_lift_Ok.
  destruct (Schedule_due networkOut NetworkTime NetworkSendInt w) as (w1 & E & E1 & E2 & E3 & _); [unfold NetworkTime; lia|done|done|].
  rewrite (bind_M_Ok _ _ _ _ _ E). destruct (lost l).
  - exists w1. split; [done|]. rewrite E1, app_nil_r. split; [|done]. destruct (rest w) eqn:Er. cbn in *. by subst.
  - pose proof (letter_body_length l Hl) as HB. pose proof (letter_wire_length l Hl) as HL. unfold letter_wire in HL. rewrite !length_app, packet_bytes_length, !length_drop in HL. destruct Hl as [_ _ _ _ _ H6]. unfold MaxWireSize in H6.
    rewrite (bcopy_exact (packet_bytes _)) by (rewrite packet_bytes_length; unfold HeaderSize; lia). rewrite bind_lift_Ok, packet_bytes_length.
    rewrite drop_app_length', take_app_length' by (by rewrite packet_bytes_length). rewrite (bcopy_exact (letter_body l)).
    + rewrite bind_lift_Ok. eexists. split; [reflexivity|]. cbn. rewrite E1. by rewrite S2.
    + done.
    + rewrite length_drop. lia.
Qed.

Lemma sent_callback w : NetworkOutput_CallBack w =
  Ok (tt, on_rest (with_out false (messageSent (rest w) + 1) (sent (rest w))) (on_stats (count_packet false) w)).
Proof. done. Qed.

Lemma Send_ok l w : letter_ok l -> sender_idle w ->
  exists w', Send A networkOut (lost l) (junk l) (address l) (header l) (text l) w = Ok (true, w') /\ sender_idle w' /\
    sent (rest w') = sent (rest w) ++ (if lost l then [] else [(B, letter_wire l)]) /\ numPacketsSent (stats w') = numPacketsSent (stats w) + 1.
Proof.
  intros Hl Hs. destruct (NetworkOutput_Send_ok l w Hl Hs) as (w1 & E & E1 & E2 & E3). pose proof Hl as [L1 L2 L3 L4 L5 L6]. pose proof Hs as [S1 S2 S3 S4].
  unfold Send. rewrite (ASSERT_true (_ <=? MaxMailSize)) by lia. rewrite bind_lift_Ok.
  rewrite ASSERT_true by lia. rewrite bind_lift_Ok. cbv zeta.
  unfold bcopy_fresh. rewrite (proj2 (andb_true_iff _ _)) by (split; lia). rewrite bind_lift_Ok, L1.
  rewrite u32_id by (apply (letter_packet_ok l Hl)). fold (letter_data l) (letter_body l) (letter_packet l). rewrite (bind_M_Ok _ _ _ _ _ E).
  unfold net. rewrite (bind_M_Ok _ _ w1 w1 (rest w1)) by done. rewrite E1. cbn [messageSent with_out Z.eqb].
  destruct (deliver_one networkOut NetworkOutput_CallBack w1 (fun d => on_rest (with_out false 1 (sent (rest w1))) (on_stats (count_packet false) (on_interrupt (with_pending d) w1))))
    as (d & Hd & Ho & ED); [done| |].
  { intros d _ _. rewrite sent_callback. unfold on_rest, on_stats. cbn. by rewrite E1. }
  rewrite (bind_M_Ok _ _ _ _ _ ED). eexists. split; [reflexivity|]. split; [constructor; try done|].
  - unfold clock_ok, now in *. cbn. by rewrite E2.
  - cbn. rewrite E1, E2. done.
Qed.

(** The packets that letters leave on the wire. *)
Definition wires (ls : list letter) : list (list Z) := map letter_wire (filter (fun l => lost l = false) ls).

Lemma Sends_ok ls w : Forall letter_ok ls -> sender_idle w ->
  exists w', Sends A networkOut ls w = Ok (true, w') /\ sender_idle w' /\ sent (rest w') = sent (rest w) ++ map (pair B) (wires ls) /\
    numPacketsSent (stats w') = numPacketsSent (stats w) + Z.of_nat (length ls).
Proof.
  intros Hls. revert w. induction Hls as [|l ls Hl _ IH]; intros w Hs.
  - exists w. cbn. rewrite app_nil_r, Z.add_0_r. done.
  - cbn [Sends]. destruct (Send_ok l w Hl Hs) as (w1 & E & Hs1 & E1 & E2). rewrite (bind_M_Ok _ _ _ _ _ E).
    destruct (IH w1 Hs1) as (w2 & E3 & Hs2 & E4 & E5). exists w2. split; [done|]. split; [done|]. split; [|cbn [length]; lia].
    rewrite E4, E1. unfold wires. rewrite filter_cons, <- app_assoc. destruct (lost l); [by rewrite decide_False|by rewrite decide_True].
Qed.

(** ** Receiving *)

Record receiver_idle (bs : list (list Mail)) (q : list (list Z)) w : Prop := {
  rc_none : pktLength (inHdr (rest w)) = 0;
  rc_inbox : Z.of_nat (length (inbox (rest w))) = MaxPacketSize;
  rc_buffer : Z.of_nat (length (buffer (rest w))) = MaxPacketSize;
  rc_available : messageAvailable (rest w) = 0;
  rc_boxes : boxes (rest w) = bs;
  rc_socket : socket (rest w) = q;
  rc_due : due networkIn (pendings w) = 1%nat;
  rc_clock : clock_ok w
}.

(** The packet of a letter, read into [inbox]. *)
Definition arrived (l : letter) (n : Net) : Net :=
  MkNet (letter_packet l) (letter_body l ++ drop (length (letter_body l)) (inbox n)) 1 (buffer n) (boxes n) (sendBusy n) (messageSent n) (tail (socket n)) (sent n).

Lemma body_fits l (b : list Z) : letter_ok l -> Z.of_nat (length b) = MaxPacketSize -> (length (letter_body l) <= length b)%nat.
Proof. intros Hl Hb. pose proof (letter_body_length l Hl). pose proof (letter_packet_ok l Hl). lia. Qed.

Lemma wire_packet l : letter_ok l -> packet_at (letter_wire l) = Ok (letter_packet l).
Proof. intros Hl. apply packet_at_bytes; [apply hosts_words..|]. by apply letter_packet_ok. Qed.

Lemma body_mail l rest : letter_ok l -> mail_at (letter_body l ++ rest) = Ok (header l).
Proof.
  intros [L1 L2 L3 L4 L5 L6]. unfold letter_body. rewrite <- app_assoc. apply mail_at_bytes; [|done|].
  - unfold is_i32. lia.
  - unfold is_u32, MaxMailSize, MaxPacketSize, HeaderSize, MaxWireSize in *. lia.
Qed.

Lemma CallBack_arrives l q bs w : letter_ok l -> receiver_idle bs (letter_wire l :: q) w ->
  exists w', deliver networkIn (NetworkInput_CallBack B networkIn) w = Ok (true, w') /\
    (rest w' = arrived l (rest w) /\ due networkIn (pendings w') = 1%nat /\ stats w' = count_packet true (stats w)).
Proof.
  intros Hl [R1 R2 R3 R4 R5 R6 R7 R8]. pose proof (letter_packet_ok l Hl) as [Hp Hp']. apply deliver_runs; [done|]. intros d Hd _. unfold NetworkInput_CallBack.
  destruct (Schedule_due networkIn NetworkTime NetworkRecvInt (on_interrupt (with_pending d) w)) as (w1 & E & E1 & E2 & E3 & _); [unfold NetworkTime; lia|done|done|].
  rewrite (bind_M_Ok _ _ _ _ _ E). unfold net. rewrite (bind_M_Ok _ _ w1 w1 (rest w1)) by done. rewrite E1. cbn [rest on_interrupt]. rewrite R1, R6. cbn [Z.eqb negb].
  rewrite (letter_wire_length l Hl). cbn [ASSERT Z.leb]. rewrite ASSERT_true by done. rewrite bind_lift_Ok.
  rewrite (wire_packet l Hl), bind_lift_Ok.
  rewrite ASSERT_true by (cbn [pktTo letter_packet]; rewrite andb_true_iff; split; lia). rewrite bind_lift_Ok.
  rewrite (firstn_all2 (letter_wire l)) by (rewrite (letter_wire_length l Hl); done). unfold letter_wire. rewrite drop_app_length' by (by rewrite packet_bytes_length).
  rewrite bcopy_front by (first [symmetry; by apply letter_body_length | by apply body_fits]). rewrite bind_lift_Ok.
  eexists. split; [reflexivity|]. cbn. rewrite E1, E2. split; [|done]. unfold arrived, with_available, with_in. cbn. rewrite R4, R6. done.
Qed.

Definition put_mail (bs : list (list Mail)) (l : letter) : list (list Mail) :=
  alter (fun b => b ++ [letter_mail l]) (Z.to_nat (mailTo (header l))) bs.

Lemma body_data l rest : drop 12 (letter_body l ++ rest) = letter_data l ++ rest.
Proof. unfold letter_body. rewrite <- app_assoc, drop_app_length'; [done|by rewrite mail_bytes_length]. Qed.

Lemma Put_ok l tl w : letter_ok l -> Z.of_nat (length (boxes (rest w))) = nBoxes ->
  MailBox_Put (mailTo (header l)) (letter_packet l) (header l) (letter_data l ++ tl) w = Ok (tt, on_rest (with_boxes (put_mail (boxes (rest w)) l)) w).
Proof.
  intros Hl Hn. pose proof (letter_data_length l Hl) as HD. destruct Hl as [L1 L2 L3 L4 L5 L6]. unfold MailBox_Put, Mail_new.
  rewrite ASSERT_true by lia. cbn [mbind res_bind]. rewrite bcopy_fresh_front by (first [done | lia]). cbn [mbind res_bind]. rewrite bind_lift_Ok. unfold net. rewrite (bind_M_Ok _ _ w w (rest w)) by done.
  destruct (aget_in (boxes (rest w)) (mailTo (header l))) as (b & Eb & ->); [lia|]. rewrite bind_lift_Ok, aset_in, bind_lift_Ok by lia.
  unfold update, modify, put_mail. do 4 f_equal. apply list_eq. intros i. destruct (decide (i = Z.to_nat (mailTo (header l)))) as [->|Hne].
  - rewrite list_lookup_insert_eq by (by eapply lookup_lt_Some). by rewrite list_lookup_alter_eq, Eb.
  - by rewrite list_lookup_insert_ne, list_lookup_alter_ne by done.
Qed.

(** The postal worker puts what has arrived into its box. *)
Lemma PostalDelivery_puts l bs n w : letter_ok l -> Z.of_nat (length (boxes n)) = nBoxes -> rest w = arrived l n ->
  Z.of_nat (length (inbox n)) = MaxPacketSize -> Z.of_nat (length (buffer n)) = MaxPacketSize -> boxes n = bs ->
  exists b p, PostalDelivery w = Ok (true, on_rest (fun _ => MkNet p (inbox (rest w)) 0 b (put_mail bs l) (sendBusy n) (messageSent n) (tail (socket n)) (sent n)) w) /\
    pktLength p = 0 /\ Z.of_nat (length b) = MaxPacketSize.
Proof.
  intros Hl Hn Hr Hi Hb <-. pose proof Hl as [L1 L2 L3 L4 L5 L6]. unfold PostalDelivery, net. rewrite (bind_M_Ok _ _ w w (rest w)) by done. rewrite Hr. cbn [messageAvailable arrived Z.eqb].
  exists (letter_body l ++ drop (length (letter_body l)) (buffer n)), (MkPacketHeader B A 0).
  rewrite (bind_M_Ok _ _ w _ tt eq_refl).
  assert (forall w1, inHdr (rest w1) = letter_packet l -> inbox (rest w1) = letter_body l ++ drop (length (letter_body l)) (inbox n) ->
    NetworkInput_Receive (buffer n) w1 = Ok ((letter_packet l, letter_body l ++ drop (length (letter_body l)) (buffer n)),
      on_rest (with_in (MkPacketHeader B A 0) (inbox (rest w1)) (socket (rest w1))) w1)) as HR.
  { intros w1 H1 H2. unfold NetworkInput_Receive, net. rewrite (bind_M_Ok _ _ w1 w1 (rest w1)) by done. rewrite H1, H2. cbv zeta.
    rewrite (bind_M_Ok _ _ w1 _ tt eq_refl). pose proof (letter_packet_ok l Hl) as [_ Hp]. rewrite (proj2 (Z.eqb_neq _ _)) by lia. cbn [negb].
    rewrite bcopy_front by (first [symmetry; by apply letter_body_length | by apply body_fits]). by rewrite bind_lift_Ok. }
  cbn [buffer arrived]. rewrite (bind_M_Ok _ _ _ _ _ (HR (on_rest (with_available (1 - 1)) w) ltac:(cbn; by rewrite Hr) ltac:(cbn; by rewrite Hr))). clear HR. cbn beta iota.
  rewrite (bind_M_Ok _ _ _ _ tt eq_refl), (body_mail l _ Hl), bind_lift_Ok. cbn [boxes arrived].
  rewrite (ASSERT_true (_ && _)) by (rewrite andb_true_iff; split; lia). rewrite bind_lift_Ok, ASSERT_true, bind_lift_Ok by lia.
  rewrite body_data.
  erewrite bind_M_Ok; [|apply Put_ok; [done|cbn; by rewrite Hr]]. split; [|split; [done|]].
  { unfold on_rest. cbn [rest interrupt stats]. rewrite Hr. reflexivity. }
  rewrite length_app, length_drop. pose proof (body_fits l _ Hl Hb). lia.
Qed.

Lemma put_mail_length bs l : length (put_mail bs l) = length bs.
Proof. apply length_alter. Qed.

Lemma Deliveries_ok ls bs w : Forall letter_ok ls -> Z.of_nat (length bs) = nBoxes -> receiver_idle bs (map letter_wire ls) w ->
  exists w', Deliveries B networkIn (length ls) w = Ok (true, w') /\ receiver_idle (foldl put_mail bs ls) [] w' /\
    numPacketsRecvd (stats w') = numPacketsRecvd (stats w) + Z.of_nat (length ls).
Proof.
  intros Hls. revert bs w. induction Hls as [|l ls Hl _ IH]; intros bs w Hn Hr.
  - exists w. cbn. rewrite Z.add_0_r. done.
  - cbn [length Deliveries foldl]. destruct (CallBack_arrives l (map letter_wire ls) bs w Hl Hr) as (w1 & E & E1 & E2 & E3). rewrite (bind_M_Ok _ _ _ _ _ E).
    pose proof Hr as [R1 R2 R3 R4 R5 R6 R7 R8].
    destruct (PostalDelivery_puts l bs (rest w) w1 Hl) as (b & p & EP & Hp & Hb); [by rewrite R5|done..|]. rewrite (bind_M_Ok _ _ _ _ _ EP).
    destruct (IH (put_mail bs l) (on_rest (fun _ => MkNet p (inbox (rest w1)) 0 b (put_mail bs l) (sendBusy (rest w)) (messageSent (rest w)) (tail (socket (rest w))) (sent (rest w))) w1))
      as (w2 & E4 & Hr2 & E5).
    + by rewrite put_mail_length.
    + constructor; try done; cbn.
      * rewrite E1. cbn. pose proof (body_fits l _ Hl R2) as Hf. rewrite <- R2. f_equal. unfold letter_body in Hf. revert Hf. rewrite !length_app, length_drop, !mail_bytes_length. cbn. lia.
      * by rewrite R6.
      * unfold clock_ok, now in *. cbn. by rewrite E3.
    + exists w2. split; [done|]. split; [done|]. rewrite E5. cbn. rewrite E3. cbn. lia.
Qed.

Lemma boxes_after ls bs (k : nat) : Forall letter_ok ls ->
  foldl put_mail bs ls !! k = (fun b => b ++ map letter_mail (filter (fun l => mailTo (header l) = Z.of_nat k) ls)) <$> bs !! k.
Proof.
  intros Hls. revert bs. induction Hls as [|l ls Hl _ IH]; intros bs; cbn [foldl].
  - cbn. rewrite (option_fmap_ext _ id) by (intros; apply app_nil_r). by rewrite option_fmap_id.
  - rewrite IH. destruct Hl as [_ L2 _ _ _ _]. rewrite filter_cons. unfold put_mail. destruct (decide (mailTo (header l) = Z.of_nat k)) as [E|E].
    + rewrite E, Nat2Z.id, list_lookup_alter_eq. destruct (bs !! k); [|done]. cbn. by rewrite <- app_assoc.
    + rewrite list_lookup_alter_ne by lia. done.
Qed.

(** What a caller of Receive has in its buffer [dst] afterwards. *)
Definition received (dst : list Z) (m : Mail) : PacketHeader * MailHeader * list Z := (pktHdr m, mailHdr m, data m ++ drop (length (data m)) dst).

Lemma Receives_ok (k : nat) ms dst w : boxes (rest w) !! k = Some ms -> Z.of_nat (length dst) = MaxMailSize ->
  Forall (fun m => Z.of_nat (length (data m)) = mailLength (mailHdr m) /\ mailLength (mailHdr m) <= MaxMailSize) ms ->
  exists w', Receives (length ms) (Z.of_nat k) dst w = Ok (map (fun m => Some (received dst m)) ms, w').
Proof.
  intros Hk Hd Hms. revert w Hk. induction Hms as [|m ms [Hm1 Hm2] _ IH]; intros w Hk; [by exists w|].
  pose proof (lookup_lt_Some _ _ _ Hk) as Hlt. cbn [length Receives]. unfold Receive, MailBox_Get, net at 1.
  destruct (IH (on_rest (with_boxes (<[k := ms]> (boxes (rest w)))) w)) as (w1 & E1); [by apply list_lookup_insert_eq|]. exists w1.
  erewrite bind_M_Ok; [rewrite (bind_M_Ok _ _ _ _ _ E1); reflexivity|].
  rewrite (bind_M_Ok _ _ w w (rest w)) by done. rewrite (ASSERT_true (_ && _)) by (rewrite andb_true_iff; split; lia). rewrite bind_lift_Ok.
  erewrite bind_M_Ok.
  2:{ unfold net. rewrite (bind_M_Ok _ _ w w (rest w)) by done. rewrite (aget_Some _ _ (m :: ms)) by (first [lia | by rewrite Nat2Z.id]).
      rewrite bind_lift_Ok. cbn [messages_RemoveFront]. rewrite aset_in, bind_lift_Ok by lia. rewrite Nat2Z.id.
      rewrite (bind_M_Ok _ _ w _ tt eq_refl). rewrite bcopy_exact by (first [done | lia]). rewrite bind_lift_Ok. reflexivity. }
  cbn beta iota. rewrite ASSERT_true by lia. rewrite bind_lift_Ok. reflexivity.
Qed.

Lemma letter_mail_ok l : letter_ok l -> Z.of_nat (length (data (letter_mail l))) = mailLength (mailHdr (letter_mail l)) /\ mailLength (mailHdr (letter_mail l)) <= MaxMailSize.
Proof. intros Hl. split; [by apply letter_data_length|]. destruct Hl as [_ _ _ L4 _ _]. cbn. lia. Qed.
End Post.

Lemma filter_letters (P Q : letter -> Prop) `{!forall l, Decision (Q l)} ls : Forall P ls -> Forall P (filter Q ls).
Proof. rewrite !Forall_forall. intros HP l Hl. apply list_elem_of_filter in Hl as [_ Hl]. by apply HP. Qed.

(** The packets that a machine has sent are what has arrived at the other one. *)
Definition wired (from_ to_ : W) : W := on_rest (fun n => with_in (inHdr n) (inbox n) (map snd (sent (rest from_))) n) to_.

(** What Receive gives of the letters that were not lost and were addressed to a box, in the
    order in which they were sent. *)
Definition mail_for (A B : Z) (box : Z) (dst : list Z) (ls : list letter) : list (option (PacketHeader * MailHeader * list Z)) :=
  map (fun l => Some (received dst (letter_mail A B l))) (filter (fun l => mailTo (header l) = box) (filter (fun l => lost l = false) ls)).


(** The two letters of Kernel::NetworkTest to machine 1, "Hello there!" and "Got it!", and one
    that the network drops. *)
Definition hello : letter := MkLetter false (replicate 64 170) (MkPacketHeader 1 0 0) (MkMailHeader 0 1 13) [72; 101; 108; 108; 111; 32; 116; 104; 101; 114; 101; 33; 0].
Definition got_it : letter := MkLetter false (replicate 64 187) (MkPacketHeader 1 0 0) (MkMailHeader 1 1 8) [71; 111; 116; 32; 105; 116; 33; 0].
Definition dropped : letter := MkLetter true (replicate 64 0) (MkPacketHeader 1 0 0) (MkMailHeader 0 0 1) [0].
Definition no_packet : PacketHeader := MkPacketHeader 0 0 0.
Definition sending_machine : W := MkWorld Interrupt_new Statistics_new (MkNet no_packet [] 0 [] [] false 0 [] []).
Definition receiving_machine : W :=
  MkWorld (with_pending [MkPending 1 100 NetworkRecvInt] Interrupt_new) Statistics_new
    (MkNet no_packet (replicate 52 0) 0 (replicate 52 0) (replicate 10 []) false 0 [] []).

End Network.
