(* ===== verification/NetTest.v ===== *)
(** NetTest: Kernel::NetworkTest (src/code/threads/kernel.cc), `nachos -N` on two machines,
    with the network and the post office of Network.v.

    Only machines 0 and 1 take part.  The test is cut at its two calls of Receive, where it may have to wait.  The machines run
    by turns: both send, the network carries what was sent and the postal workers put it into
    the boxes, both answer, and so on.  Which packets are lost is an input. *)

From S2P Require Import Prelude Mips Machine Interrupt Device Network.
From stdpp Require Import base numbers list.
#[local] Open Scope Z_scope.

Module NetTest.
Import Interrupt Device Network.

#[local] Notation W := (World Net).

Definition networkIn : Z := 1.
Definition networkOut : Z := 2.

(** "Hello there!" and "Got it!" with the zero at their ends *)
Definition data : list Z := [72; 101; 108; 108; 111; 32; 116; 104; 101; 114; 101; 33; 0].
Definition ack : list Z := [71; 111; 116; 32; 105; 116; 33; 0].

(** [cout << "Got: " << buffer << " : from " << inPktHdr.from << ", box " << inMailHdr.from] *)
Record got := Got { text : list Z; from_host : Z; from_box : Z }.

Fixpoint cstring (buffer : list Z) : list Z :=
  match buffer with [] => [] | c :: b => if c =? 0 then [] else c :: cstring b end.

Section Test.
Variable hostName : Z.
(** What the wire buffer and the variables on the stack hold before they are set. *)
Variables junk buffer0 : list Z.

Definition farHost : Z := if hostName =? 0 then 1 else 0.

(** Up to the first Receive *)
Definition send_hello (lost : bool) : M W bool :=
  Send hostName networkOut lost junk (MkPacketHeader farHost 0 0) (MkMailHeader 0 1 (Z.of_nat (length data))) data.

(** From one Receive up to the next; [None]: the thread goes on waiting. *)
Definition answer_hello (lost : bool) : M W (option (got * list Z)) :=
  r ← Receive 0 buffer0;
  match r with
  | None => mret None
  | Some (inPktHdr, inMailHdr, buffer) =>
      _ ← Send hostName networkOut lost junk (MkPacketHeader (pktFrom inPktHdr) 0 0)
            (MkMailHeader (mailFrom inMailHdr) 1 (Z.of_nat (length ack))) ack;
      mret (Some (Got (cstring buffer) (pktFrom inPktHdr) (mailFrom inMailHdr), buffer))
  end.

(** The second Receive *)
Definition take_ack (buffer : list Z) : M W (option got) :=
  r ← Receive 1 buffer;
  match r with
  | None => mret None
  | Some (inPktHdr, inMailHdr, buffer) => mret (Some (Got (cstring buffer) (pktFrom inPktHdr) (mailFrom inMailHdr)))
  end.
End Test.

(** The datagrams that one machine has sent to the host [to] arrive at the socket of the
    other. *)
Definition carry (to : Z) (from_ to_ : W) : W * W :=
  let arriving := map snd (filter (fun d => d.1 = to) (sent (rest from_))) in
  (on_rest (fun n => with_out (sendBusy n) (messageSent n) [] n) from_, on_rest (fun n => with_in (inHdr n) (inbox n) (socket n ++ arriving) n) to_).

(** An interrupt of the network interface for each, the postal worker running after it. *)
Definition deliver_all (hostName : Z) (w : W) : res (bool * W) := Deliveries hostName networkIn (length (socket (rest w))) w.

Definition exchange (w0 w1 : W) : res (W * W) :=
  let '(w0, w1) := carry 1 w0 w1 in
  let '(w1, w0) := carry 0 w1 w0 in
  '(_, w0) ← deliver_all 0 w0; '(_, w1) ← deliver_all 1 w1; Ok (w0, w1).

Definition second {A} (w : W) (hostName : Z) (r : option (got * A)) (f : A -> M W (option got)) : res (list got * W) :=
  match r with
  | None => Ok ([], w)
  | Some (g, b) => '(o, w) ← f b w; Ok (g :: option_list o, w)
  end.

(** The test on both machines; [lost] says of the packets of machine 0 and of machine 1
    whether the network drops the first and the second.  The result is what each prints: a
    machine that has printed fewer than two lines waits for ever. *)
Definition NetworkTest (junk buffer0 : list Z) (lost : (bool * bool) * (bool * bool)) (w0 w1 : W) : res (list got * list got) :=
  '(_, w0) ← send_hello 0 junk lost.1.1 w0;
  '(_, w1) ← send_hello 1 junk lost.2.1 w1;
  '(w0, w1) ← exchange w0 w1;
  '(r0, w0) ← answer_hello 0 junk buffer0 lost.1.2 w0;
  '(r1, w1) ← answer_hello 1 junk buffer0 lost.2.2 w1;
  '(w0, w1) ← exchange w0 w1;
  '(o0, _) ← second w0 0 r0 take_ack;
  '(o1, _) ← second w1 1 r1 take_ack;
  Ok (o0, o1).

(** A machine with ten mail boxes, as Initialize makes it. *)
Definition machine : W :=
  MkWorld (with_pending [MkPending networkIn 100 NetworkRecvInt] Interrupt_new) Statistics_new
    (MkNet (MkPacketHeader 0 0 0) (replicate 52 0) 0 (replicate 52 0) (replicate 10 []) false 0 [] []).

Definition test (lost : (bool * bool) * (bool * bool)) : res (list got * list got) :=
  NetworkTest (replicate 64 170) (replicate 40 255) lost machine machine.

Definition hello_from (host : Z) : got := Got [72; 101; 108; 108; 111; 32; 116; 104; 101; 114; 101; 33] host 1.
Definition ack_from (host : Z) : got := Got [71; 111; 116; 32; 105; 116; 33] host 1.

(** With a network that drops nothing both machines show both messages of the other and end.
    A machine whose greeting is dropped shows the other's greeting only; the other shows
    nothing, and so waits in its first Receive, and never acknowledges.  A dropped
    acknowledgment leaves the machine that should get it waiting, and the other one ends. *)
Theorem NetworkTest_runs :
  test ((false, false), (false, false)) = Ok ([hello_from 1; ack_from 1], [hello_from 0; ack_from 0]) /\
  test ((true, false), (false, false)) = Ok ([hello_from 1], []) /\
  test ((false, true), (false, false)) = Ok ([hello_from 1; ack_from 1], [hello_from 0]).
Proof. repeat split; by vm_compute. Qed.
End NetTest.
